(* ===== verification/_CoqProject ===== *)
-Q . S2P
Prelude.v
Utf8.v
Text.v
F64.v
W3mmd.v
Store.v
BytesExt.v
Frame.v
W3gs.v
Gps.v
DotaTv.v
Conn.v
ConnTask.v
Slots.v
Hcl.v
Tick.v
History.v
Players.v
ReplayBody.v
StatsDota.v
Relay.v
Game.v
CatchUp.v
Desync.v
Turns.v
Lag.v
Phases.v
MapXfer.v
Lobby.v
Seating.v
Reconnect.v
Actor.v
Database.v
Commands.v
Chat.v
Dispatch.v
ChatRules.v
SlotRequests.v
ChatSeats.v
Invariant.v
Life.v
MpqCrypt.v
MpqTables.v
MpqArchive.v
MpqFiles.v
Bncs.v
Nls.v
XSha1.v
CdKey.v
Revision.v
Pe.v
BnetClient.v
BnetLogin.v
BnetGames.v
Map.v
MapLoad.v
W3g.v
Crc.v
LiveStream.v
StreamServer.v
Config.v
Supervisor.v
Hosting.v
Routing.v
