(* ===== verification/Prelude.v ===== *)
(** * Spectre: a verified model of the Warcraft III host bot

    Spectre hosts Warcraft III games: clients connect over TCP, join a lobby of slots,
    download the map if they lack it, load, and then play in lock step: every tick the host
    collects the players' actions and sends them back to everybody.  Each game is an actor
    that owns its state and handles one command, frame or tick at a time; the paths below
    are relative to src/crates/.

    ** The parts and where they are modelled

    Wire formats (spectre-protocol/src, spectre-net/src/conn.rs)
    - [Prelude]: results, machine integers, arrays of bytes, shared tactics and hints.
    - [Utf8]: what the code uses of Rust's strings (lossy decoding, character boundaries,
      ASCII case, decimal numbers).  [Text]: words, white space and numbers in a text.  [F64]: floating-point
      numbers, as Rust reads, adds and subtracts them.
    - [BytesExt] (bytes_ext.rs, error.rs): readers of a payload, and the stat string.
    - [Frame] (frame.rs): the header-length-payload framing and the reader's loop.
    - [W3gs] (w3gs/): the game protocol.  [Gps] (gps/): GProxy.  [DotaTv] (dotatv.rs).
    - [Conn] (conn.rs): the codec that mixes the three, and a player's link, a bounded
      channel [Chan] recording everything it ever accepted and how often it refused.
      [ConnTask] (conn.rs: spawn_conn_with_codec): the reader and the writer of a connection, as a
      function over the turns they take in any order.

    The lobby's data (spectre-engine/src)
    - [Slots] (slots.rs), [Hcl] (hcl.rs: a game mode hidden in the handicaps or the name),
      [Players] (players.rs), [Tick] (tick.rs: the clock), [History] (the two packet logs:
      gproxy.rs and full_history.rs, behind the type class [SeqLogLaws]).

    Recording and watching (spectre-spectator/src)
    - [ReplayBody] (body.rs), [W3g] (w3g.rs, lib.rs: the file of a replay), [Crc] and
      [LiveStream] (dotatv.rs: a replay as a stream of chunks), [StreamServer]
      (dotatv_server.rs: publishing it, and what a viewer's connection is answered), [Relay]
      (relay.rs: the delayed spectator stream as a step relation), [StatsDota]
      (spectre-engine/src/stats_dota.rs) and [W3mmd] (w3mmd.rs): the statistics that maps report.

    The database (spectre-store/src)
    - [Store] (writer.rs: the commands a game sends), [Database] (writer.rs: run_worker, queries.rs,
      schema.rs): the worker on tables that are lists of rows, and its answers.

    The game (spectre-engine/src)
    - [Game] (state.rs): the record [GameState] and how packets reach players.
    - [CatchUp] (state.rs: broadcast, pump_rejoin_catchup), [Desync] (actions.rs:
      handle_keepalive, check_desync), [Turns] (actions.rs: handle_action,
      send_all_actions), [Lag] (lagcheck.rs), [Phases] (actions.rs, state.rs: loading,
      playing, reaping, the fake player), [MapXfer] (mapxfer.rs), [Lobby] (lobby.rs,
      full_rejoin.rs, three slot commands of chat.rs), [Reconnect] (gproxy.rs, the GPS
      frames of actor.rs), [Actor] (actions.rs: on_tick, save_game_data, and the timer of
      actor.rs: run).
    - [Commands] (chat.rs: parse_command) and [Chat] (chat.rs: every command, plain
      messages, requests about slots); [Dispatch] (actor.rs, handle.rs): frames, commands
      and the loop of run, [Dispatch.run_step] being one turn of it.  The tasks at the other
      ends of its channels (the writer of a connection, the one that drains the fake
      player's) act between the turns: [Dispatch.world_step], [Dispatch.run_world].

    Maps (spectre-mpq/src)
    - [MpqCrypt] (crypt.rs), [MpqTables] (header.rs, hash_table.rs, block_table.rs),
      [MpqArchive] (archive.rs, compression.rs), and [MpqFiles]: what was packed is read.
    - [Map] (spectre-engine/src/map.rs): the hashes of a map, its war3map.w3i and the lobby
      it gives; [MapLoad]: theorems on loading.

    Battle.net (spectre-bnet/src)
    - [Bncs] (spectre-protocol/src/bncs/): ids, decoders and builders.
    - Under bncsutil/: [Nls] (nls.rs: the logon proof), [XSha1] (xsha1.rs, oldauth.rs), [CdKey]
      (cdkey.rs), [Revision] (check_revision.rs, mpq_num.rs, libinfo.rs), [Pe] (pe.rs).
    - [BnetClient] (client.rs, auth.rs, advert.rs, bncsutil/exe_info.rs): the client as a
      step function over connections, packets, commands and timers
      ([BnetClient.client_step]); [BnetLogin] and [BnetGames]: its theorems.

    The program (spectre/src)
    - [Config] (config.rs): the legacy format of keys and values, the records of the TOML
      format, and what the code makes of them ([Config.parse], [Config.from_toml]).
    - [Supervisor] (supervisor.rs): the event loop ([Supervisor.step] over
      [Supervisor.Input]).  A game is known by a number; what the supervisor offers to games,
      to Battle.net and to the network is the list [su_out] of its effects.  It loads maps
      with [Map], reads [Config]'s records, sends [BnetClient.BnetCmd]s to the client and
      [Dispatch.GameCmd]s to the actors of the games.  [Hosting] and [Routing]: its theorems.

    Theorems over several components
    - [ChatRules]: what sending leaves alone, and what chat can do and cannot;
      [SlotRequests]: what a player may change about slots; [ChatSeats]: the commands and
      the seats.
    - [Seating] and [Invariant]: the invariant between players and slots, over every run
      of the actor and of the tasks around it ([Dispatch.run_world]).
    - [Life]: an abstract life cycle ([Life.life_step]) and its refinement by the actor.

    ** How the code is modelled

    A handler [fn f(&mut self, ..)] is a function from [GameState] to the state it leaves
    (fields keep their names behind a prefix: [g_players] is [self.players]).  The instant
    a handler runs at is an argument, in nanoseconds.  A handler that can panic returns an
    option.  The only panics of the modelled handlers are slices of a text inside a character;
    those of the readers of archives, of Battle.net's lists, of CD keys and of the names of
    version-check archives are slices and indices out of bounds.
    [Map.read_u32] follows the standard library's Cursor: a failure leaves the cursor at
    the end of the data.  A text is the list of its UTF-8 bytes.  Integers are [Z], with wrapping ([wrap]) and
    saturation ([sat_add], [sat_sub], [sat_mul]) written out at the width of the Rust type.
    A loop that is not structural takes fuel and answers [None] without it (in the live
    stream [LiveStream.flush_loop] has one turn per waiting byte, [flush_spec]):
    [W3mmd.mmd_loop] has one turn per byte of an action ([mmd_loop_enough]),
    [Desync.check_desync] has one turn per queued checksum, [MapXfer.pump_parts] one per
    part of the map, [Tick.advance] one per period of delay; [check_desync_total],
    [map_transfer_complete] and [pump_bounded], [advance_spec] show that it is enough (and
    [advance_zero_period] that the clock with a zero period would not end).

    Parameters stand for what is not in the repository: [crc32] for the crc32fast package,
    [Nls.Crypto] for the packages sha1 and num_bigint, [W3g.Zlib] for the compressor of
    flate2,
    [hash_order] and [holds_order] for the iteration order of a Rust hash map, [fmt_secs]
    for the formatting of a floating-point number, [Text.Unicode] for the case tables and
    letters of Unicode, [MpqArchive.Codecs] for the decompressors, [Game.World] for the wall clock, the draws of a shuffle and the
    order of the table of statistics.  Nothing is assumed about them, except
    that an order lists the entries of its map in [desync_order_irrelevant],
    [desync_verdict] and [req_join_outcome], and that a decompressor does not overrun its
    buffer and gives bytes in the theorems on archives ([MpqArchive.CodecLaws]), and that
    the framed reader of tokio-util ends with an error ([ConnTask.FramedReadLaws]), and that
    a hash has its length and a modular power is one ([Nls.CryptoLaws]), and that the
    compressor is lossless and adds little ([W3g.ZlibLaws]).

    ** What the theorems show

    - The wire: framing and decoding do not depend on how the socket cuts the stream,
      every message reads back as written, truncations are errors, garbage is skipped.  What a
      connection's reader makes of it ([connection_events]), and that its writer writes what
      was accepted ([written_is_accepted]).
    - Delivery: a broadcast reaches exactly those it should; a GProxy client that comes
      back, a client that rejoins with nothing and a spectator get each packet once and in
      order, the spectator as long as its link refuses nothing ([gps_reconnect_spec],
      [rejoin_exactly_once], [relay_viewer_exactly_once]).
    - Turns: a tick sends every queued action once, in order; the desync vote has the
      outcome of a majority and does not depend on hashing; the lag screen follows the
      turn counters; the clock does not drift.
    - The lobby: every player has one slot, every named slot has its player, whatever
      happens but the two things that break this, a command on an occupied slot and the
      fake player's stale pid ([seating_invariant]); what joining and rejoining require and
      do; a map download completes and respects its limits.
    - The life of a game: the actor implements the abstract life cycle; nobody enters a
      game that has started ([life_refinement]).
    - Chat: what who does not own the game can do by it ([guest_cannot_rule]), the bounds
      of the clock ([chat_keeps_clock]), whom a message reaches ([lobby_chat_spec]), what a
      slot request changes ([slot_request_own]).
    - Recording: the saved replay passes every check of a reader and reads back as what was
      written ([saved_replay_roundtrip]).  The live stream is an append-only log
      ([stream_refines_log]) whose viewers get the replay that is saved, up to what a
      failed flush leaves waiting ([live_stream_is_replay], [late_viewer_spec],
      [viewer_stream_spec]); its checksum is
      the CRC-32 ([crc32_spec]); the chat of the viewers is limited ([viewer_chat_spec]).
    - Statistics and the database: both collectors see every action of a tick in order
      ([statistics_see_actions]); the records of W3MMD are found between bytes at which
      none starts ([mmd_scan]) and its counters are exact below 2^53 ([mmd_counter_exact]).
      The end of a game puts one game in the tables, and the record of a game of DotA beside
      the latest game of its name ([saved_game_recorded]), what is answered about a player is the
      sum over them ([stats_are_totals]), and who is banned or an administrator follows the
      history of commands ([lists_follow_history]).
    - Archives: a hash table is a map of names ([lookup_refines_map]), the cipher a
      bijection, a file is read back as it was put in, unless it is encrypted in sectors that
      are not packed ([read_file_roundtrip]), and no map file makes
      the reader panic or loop ([mpq_no_panic]).
      A war3map.w3i reads back as written ([w3i_roundtrip]), and whatever a map says, the
      lobby it gives is well formed ([loaded_map_typed]).
    - Battle.net: packets read back as written ([login_roundtrip], [server_lists]), and an
      advertised game is found ([advert_found]).  Both ends of a logon compute the same
      secret ([srp_agreement]), dates follow the calendar ([dates_follow_calendar]), no CD
      key makes the decoder panic ([cdkey_no_panic]).  The client implements an abstract
      login ([login_refinement]), never chats before its end ([login_before_chat]),
      advertises what it hosts as far as the advert fits its packet ([hosting_spec]) and
      panics on one kind of archive name only ([client_no_panic]).
    - The program: every field of the configuration is what the file says last of its key,
      or its default, or the file is refused ([config_file_spec]).  Whatever happens, the supervisor's books on games,
      ports, listeners and routes agree ([supervisor_ports], over all runs of its loop); what
      its commands do and cannot do ([host_command_spec], [chat_authority]); the events of a
      connection reach its game and no other ([connection_routing]); a request to come back is
      put to the games in order ([reconnect_task_spec]).
    - Some theorems are about behaviour that is surely not meant: [long_name_panics],
      [whisper_panics], [votekick_never_passes], [loaded_restarts_game],
      [rejoin_misses_start], [stale_fake_player_evicts], [close_unseats_player],
      [advance_zero_period], [connection_events], [read_file_roundtrip],
      [unterminated_message_lost], [welcome_truncated], [mpq_number_panics],
      [foreign_key_accepted], [adverts_lost], [server_proof_ignored],
      [incompressible_block_stops_stream], [tv_ports_collide] and [unhosted_game_goes_on].

    ** What is not modelled

    Logging, the start of the process (main.rs, telemetry.rs), the load test, sockets and timers
    themselves (spectre-net: listener.rs, udp.rs), and the text of
    a TOML file, which the toml package reads.  SQLite is not modelled either: [Database] takes
    from its documentation how rowids are chosen, what NOCASE compares and what a foreign key
    refuses (whether they are enforced is the parameter [foreign_keys]), and which of several
    rows a query with LIMIT 1 gives is the parameter [Database.Sqlite].  In the supervisor, files are a parameter
    ([Supervisor.Files]) and so is whether a text is the address of a socket; the iteration of
    the loop over tasks is the order of the inputs, which is arbitrary. *)
From Stdlib Require Export ZArith Lia.
From stdpp Require Export prelude gmap list strings pretty.
From coqutil Require Export Datatypes.RecordSettersUsingExistingGetters.

#[global] Open Scope Z_scope.

(** * Results

    Rust's [Result<A, E>], with stdpp's monad notation [x ← m; k] for [?]. *)

Inductive result (E A : Type) : Type :=
| Ok (a : A)
| Err (e : E).
Arguments Ok {E A} a.
Arguments Err {E A} e.

#[export] Instance result_ret {E} : MRet (result E) := fun A a => Ok a.
#[export] Instance result_bind {E} : MBind (result E) :=
  fun A B f m => match m with Ok a => f a | Err e => Err e end.
#[export] Instance result_fmap {E} : FMap (result E) :=
  fun A B f m => match m with Ok a => Ok (f a) | Err e => Err e end.

Definition is_err {E A} (r : result E A) : Prop := ∃ e, r = Err e.
Definition is_ok {E A} (r : result E A) : Prop := ∃ a, r = Ok a.

(** [Result::ok], [Result::unwrap_or]. *)
Definition result_ok {E A} (r : result E A) : option A :=
  match r with Ok a => Some a | Err _ => None end.
Definition unwrap_or {E A} (r : result E A) (d : A) : A :=
  match r with Ok a => a | Err _ => d end.

(** The [?] operator, on a call that may panic. *)
Definition try_ {E A B} (o : option (result E A)) (k : A → option (result E B)) : option (result E B) :=
  r ← o; match r with Ok a => k a | Err e => Some (Err e) end.

(** * Machine integers

    A [w]-bit unsigned integer is a [Z]; wrapping and saturating operations are
    written out, and [uN w x] is the range the Rust type guarantees. *)

Definition uN (w x : Z) : Prop := 0 <= x < 2 ^ w.
Abbreviation u8 := (uN 8).
Abbreviation u16 := (uN 16).
Abbreviation u32 := (uN 32).
Abbreviation u64 := (uN 64).

Definition wrap (w x : Z) : Z := x mod 2 ^ w.
Definition sat_sub (a b : Z) : Z := Z.max 0 (a - b).
Definition sat_add (w a b : Z) : Z := Z.min (2 ^ w - 1) (a + b).
Definition sat_mul (w a b : Z) : Z := Z.min (2 ^ w - 1) (a * b).

Lemma wrap_small w x : uN w x → wrap w x = x.
Proof. unfold uN, wrap. intros. by apply Z.mod_small. Qed.

Lemma wrap_range w x : 0 <= w → uN w (wrap w x).
Proof. unfold uN, wrap. intros. apply Z.mod_pos_bound. lia. Qed.

Lemma wrap_wrap w x : 0 <= w → wrap w (wrap w x) = wrap w x.
Proof. intros. apply wrap_small. by apply wrap_range. Qed.

Lemma uN_wrap w x : 0 <= w → uN w x ↔ wrap w x = x.
Proof. intros H. split; [apply wrap_small|]. intros <-. by apply wrap_range. Qed.

(** Constants. *)
Lemma u8_const x : bool_decide (0 <= x < 256) = true → u8 x.
Proof. intros H. apply bool_decide_eq_true in H. unfold uN. lia. Qed.

Lemma u32_const x : bool_decide (0 <= x < 4294967296) = true → u32 x.
Proof. intros H. apply bool_decide_eq_true in H. unfold uN. change (2 ^ 32) with 4294967296. lia. Qed.

Lemma uN_lor w a b : 0 <= w → uN w a → uN w b → uN w (Z.lor a b).
Proof.
  intros H. rewrite !uN_wrap by done. unfold wrap. rewrite <- !Z.land_ones by done.
  intros Ha Hb. by rewrite Z.land_lor_distr_l, Ha, Hb.
Qed.

Lemma uN_lxor w a b : 0 <= w → uN w a → uN w b → uN w (Z.lxor a b).
Proof.
  intros H. rewrite !uN_wrap by done. unfold wrap. rewrite <- !Z.land_ones by done.
  intros Ha Hb. rewrite <- Ha, <- Hb at 2. apply Z.bits_inj'. intros n _.
  rewrite Z.land_spec, !Z.lxor_spec, !Z.land_spec. by destruct (Z.testbit a n), (Z.testbit b n), (Z.testbit (Z.ones w) n).
Qed.

Lemma uN_land w m x : 0 <= w → uN w x → uN w (Z.land x m).
Proof.
  intros H. rewrite !uN_wrap by done. unfold wrap. rewrite <- !Z.land_ones by done.
  intros Hx. by rewrite <- Z.land_assoc, (Z.land_comm m), Z.land_assoc, Hx.
Qed.

Lemma uN_shiftr w n x : 0 <= n → uN w x → uN w (Z.shiftr x n).
Proof.
  unfold uN. intros Hn [H1 H2]. rewrite Z.shiftr_div_pow2 by done. split; [apply Z.div_pos; lia|].
  eapply Z.le_lt_trans; [|exact H2]. apply Z.div_le_upper_bound; [lia|]. nia.
Qed.

Lemma sat_sub_le a b : 0 <= a → 0 <= b → 0 <= sat_sub a b <= a.
Proof. unfold sat_sub. lia. Qed.

(** * Byte strings *)

Abbreviation bytes := (list Z).

Definition zlen {A} (l : list A) : Z := Z.of_nat (length l).

Lemma zlen_nil {A} : zlen (@nil A) = 0.
Proof. done. Qed.
Lemma zlen_cons {A} (x : A) l : zlen (x :: l) = 1 + zlen l.
Proof. unfold zlen. simpl. lia. Qed.
Lemma zlen_app {A} (l k : list A) : zlen (l ++ k) = zlen l + zlen k.
Proof. unfold zlen. rewrite length_app. lia. Qed.
Lemma zlen_nonneg {A} (l : list A) : 0 <= zlen l.
Proof. unfold zlen. lia. Qed.
Lemma zlen_replicate {A} n (x : A) : zlen (replicate n x) = Z.of_nat n.
Proof. unfold zlen. by rewrite length_replicate. Qed.
Lemma zlen_map {A B} (f : A → B) l : zlen (map f l) = zlen l.
Proof. unfold zlen. by rewrite length_map. Qed.

(** Little-endian encoding of the low [n] bytes of an integer, and its inverse. *)
Fixpoint le_bytes (n : nat) (x : Z) : bytes :=
  match n with
  | O => []
  | S n => x mod 256 :: le_bytes n (x / 256)
  end.

Fixpoint le_val (l : bytes) : Z :=
  match l with
  | [] => 0
  | b :: l => b + 256 * le_val l
  end.

Lemma length_le_bytes n x : length (le_bytes n x) = n.
Proof. revert x. induction n; intros; simpl; congruence. Qed.

Lemma zlen_le_bytes n x : zlen (le_bytes n x) = Z.of_nat n.
Proof. unfold zlen. by rewrite length_le_bytes. Qed.

Lemma le_bytes_u8 n x : Forall u8 (le_bytes n x).
Proof.
  revert x. induction n; intros; simpl; constructor; auto.
  unfold uN. change (2 ^ 8) with 256. apply Z.mod_pos_bound. lia.
Qed.

Lemma le_val_le_bytes n x : le_val (le_bytes n x) = x mod 256 ^ Z.of_nat n.
Proof.
  revert x. induction n as [|n IH]; intros x.
  - simpl. by rewrite Z.mod_1_r.
  - cbn [le_bytes le_val]. rewrite IH, Nat2Z.inj_succ, Z.pow_succ_r by lia.
    rewrite Z.rem_mul_r by lia. lia.
Qed.

Lemma le_val_bound l : Forall u8 l → 0 <= le_val l < 256 ^ zlen l.
Proof.
  unfold uN. induction 1 as [|b l Hb Hl IH]; [done|].
  rewrite zlen_cons, Z.pow_add_r by (pose proof (zlen_nonneg l); lia).
  cbn [le_val]. change (256 ^ 1) with 256. change (2 ^ 8) with 256 in Hb. lia.
Qed.

Lemma le_bytes_le_val l : Forall u8 l → le_bytes (length l) (le_val l) = l.
Proof.
  unfold uN. induction 1 as [|b l Hb Hl IH]; [done|].
  cbn [length le_bytes le_val]. change (2 ^ 8) with 256 in Hb.
  rewrite Z.mul_comm, Z.mod_add, Z.div_add by lia.
  rewrite Z.mod_small, Z.div_small, Z.add_0_l by lia. by rewrite IH.
Qed.

Lemma le_val_round n x : 0 <= x < 256 ^ Z.of_nat n → le_val (le_bytes n x) = x.
Proof. intros. rewrite le_val_le_bytes. by apply Z.mod_small. Qed.

Lemma le_val_round2 x : u16 x → le_val (le_bytes 2 x) = x.
Proof. intros. by apply le_val_round. Qed.
Lemma le_val_round4 x : u32 x → le_val (le_bytes 4 x) = x.
Proof. intros. by apply le_val_round. Qed.

#[global] Opaque le_bytes.

(** * Lists *)

(** [Iterator::position]. *)
Fixpoint position {A} (p : A → bool) (l : list A) : option nat :=
  match l with
  | [] => None
  | x :: l => if p x then Some O else S <$> position p l
  end.

Lemma position_Some {A} (p : A → bool) l i :
  position p l = Some i ↔
  ∃ x, l !! i = Some x ∧ p x = true ∧
       ∀ j y, (j < i)%nat → l !! j = Some y → p y = false.
Proof.
  revert i. induction l as [|x l IH]; intros i; simpl.
  { split; [done|]. intros (x & Hx & _). by rewrite lookup_nil in Hx. }
  destruct (p x) eqn:Hp.
  - split.
    + intros [= <-]. exists x. repeat split; auto. intros j y Hj. lia.
    + intros (y & Hy & Hpy & Hmin). destruct i as [|i]; [done|].
      specialize (Hmin O x). rewrite Hmin in Hp; [done|lia|done].
  - rewrite fmap_Some. split.
    + intros (k & Hk & ->). apply IH in Hk as (y & Hy & Hpy & Hmin).
      exists y. repeat split; auto. intros [|j] z Hj Hz; simpl in *; [congruence|].
      eapply Hmin; [|exact Hz]. lia.
    + intros (y & Hy & Hpy & Hmin). destruct i as [|i]; simpl in *; [congruence|].
      exists i. split; [|done]. apply IH. exists y. repeat split; auto.
      intros j z Hj Hz. apply (Hmin (S j) z); [lia|done].
Qed.

Lemma position_None {A} (p : A → bool) l :
  position p l = None ↔ Forall (λ x, p x = false) l.
Proof.
  induction l as [|x l IH]; simpl; [by split|].
  rewrite Forall_cons, <- IH. destruct (p x); [naive_solver|].
  rewrite fmap_None. naive_solver.
Qed.

Lemma position_lt {A} (p : A → bool) l i : position p l = Some i → (i < length l)%nat.
Proof. intros (x & Hx & _)%position_Some. by eapply lookup_lt_Some. Qed.

Lemma position_app_l {A} (p : A → bool) l k i :
  position p l = Some i → position p (l ++ k) = Some i.
Proof.
  revert i. induction l as [|x l IH]; intros i; simpl; [done|].
  destruct (p x); [done|]. rewrite !fmap_Some.
  intros (j & Hj & ->). eauto.
Qed.

Lemma position_app_r {A} (p : A → bool) l k :
  position p l = None →
  position p (l ++ k) = (λ i, (length l + i)%nat) <$> position p k.
Proof.
  induction l as [|x l IH]; simpl; [by destruct (position p k)|].
  destruct (p x); [done|]. rewrite fmap_None. intros Hl. rewrite (IH Hl).
  by destruct (position p k).
Qed.

(** [slice::chunks]: consecutive blocks of [n] elements, the last one shorter. *)
Fixpoint chunks_fuel {A} (fuel n : nat) (l : list A) : list (list A) :=
  match fuel, l with
  | S fuel, _ :: _ => take n l :: chunks_fuel fuel n (drop n l)
  | _, _ => []
  end.
Definition chunks {A} (n : nat) (l : list A) : list (list A) := chunks_fuel (length l) n l.

Lemma chunks_fuel_enough {A} f n (l : list A) :
  (0 < n)%nat → (length l <= f)%nat → chunks_fuel f n l = chunks n l.
Proof.
  unfold chunks. intros Hn.
  enough (∀ f g, (length l <= f)%nat → (length l <= g)%nat →
                 chunks_fuel f n l = chunks_fuel g n l) as H by (intros; by apply H).
  clear f. induction l as [l IH] using (induction_ltof1 _ length).
  intros f g Hf Hg. destruct l as [|x l]; [by destruct f, g|].
  destruct f as [|f]; [simpl in *; lia|]. destruct g as [|g]; [simpl in *; lia|].
  cbn [chunks_fuel]. f_equal. apply IH.
  - unfold ltof. rewrite length_drop. simpl. lia.
  - rewrite length_drop. simpl in *. lia.
  - rewrite length_drop. simpl in *. lia.
Qed.

Lemma chunks_nil {A} n : chunks n (@nil A) = [].
Proof. done. Qed.

Lemma chunks_cons {A} n (l : list A) :
  (0 < n)%nat → l ≠ [] → chunks n l = take n l :: chunks n (drop n l).
Proof.
  intros Hn Hl. destruct l as [|x l]; [done|]. unfold chunks at 1.
  cbn [length chunks_fuel]. f_equal. apply chunks_fuel_enough; [done|].
  rewrite length_drop. simpl. lia.
Qed.

Lemma chunks_app {A} n (l k : list A) :
  (0 < n)%nat → length l = n → chunks n (l ++ k) = l :: chunks n k.
Proof.
  intros Hn Hl. assert (l ++ k ≠ []) by (destruct l; simpl in *; [lia|done]).
  rewrite chunks_cons by done.
  by rewrite take_app_length', drop_app_length'.
Qed.

(** Well-founded induction on the length of a list. *)
Lemma list_length_ind {A} (P : list A → Prop) :
  (∀ l, (∀ k, (length k < length l)%nat → P k) → P l) → ∀ l, P l.
Proof. intros H l. by induction l as [l IH] using (induction_ltof1 _ length); apply H. Qed.

Lemma concat_chunks {A} n (l : list A) : (0 < n)%nat → concat (chunks n l) = l.
Proof.
  intros Hn. induction l as [l IH] using list_length_ind. destruct l as [|x l]; [done|].
  rewrite chunks_cons by done. cbn [concat]. rewrite IH; [apply take_drop|]. rewrite length_drop. simpl. lia.
Qed.

(** * Automation *)

Create HintDb spectre.
Create Rewrite HintDb zlen.
#[export] Hint Resolve zlen_nonneg le_bytes_u8 : spectre.
#[export] Hint Rewrite @zlen_nil @zlen_cons @zlen_app @zlen_replicate @zlen_map
  zlen_le_bytes : zlen.

(** Arithmetic over list lengths and machine ranges. *)
Ltac zlen_lia :=
  repeat match goal with H : context [zlen _] |- _ => progress autorewrite with zlen in H end;
  autorewrite with zlen;
  repeat match goal with
  | |- context [zlen ?l] => pose proof (zlen_nonneg l); generalize dependent (zlen l); intros
  end; unfold uN in *; simpl Z.pow in *; lia.

(** Lists of bytes that are one by their parts. *)
Ltac u8_list :=
  repeat first [ assumption | apply le_bytes_u8 | apply Forall_nil_2
               | apply Forall_cons_2; [first [assumption | by apply wrap_range | by apply u8_const]|]
               | apply Forall_app_2 ].

(** ** Slices *)

(** [&data[a..b]]. *)
Definition slice (data : bytes) (a b : Z) : option bytes :=
  if (0 <=? a) && (a <=? b) && (b <=? zlen data)
  then Some (take (Z.to_nat (b - a)) (drop (Z.to_nat a) data)) else None.

Lemma slice_ok data a b : 0 <= a → a <= b → b <= zlen data → ∃ s, slice data a b = Some s ∧ zlen s = b - a.
Proof.
  intros Ha Hb Hl. unfold slice.
  rewrite (proj2 (Z.leb_le 0 a)), (proj2 (Z.leb_le a b)), (proj2 (Z.leb_le b _)) by done. cbn [andb].
  eexists. split; [done|]. unfold zlen in *. rewrite length_take, length_drop. lia.
Qed.

Lemma slice_u8 data a b s : Forall u8 data → slice data a b = Some s → Forall u8 s.
Proof.
  unfold slice. destruct (_ && _); [|done]. intros Hu [= <-]. by apply Forall_take, Forall_drop.
Qed.

Lemma slice_app pre b rest : slice (pre ++ b ++ rest) (zlen pre) (zlen pre + zlen b) = Some b.
Proof.
  unfold slice. pose proof (zlen_nonneg pre). pose proof (zlen_nonneg b). pose proof (zlen_nonneg rest).
  rewrite !zlen_app. rewrite (proj2 (Z.leb_le 0 _)), (proj2 (Z.leb_le (zlen pre) _)), (proj2 (Z.leb_le (_ + _) _)) by lia.
  cbn [andb]. f_equal. replace (zlen pre + zlen b - zlen pre) with (zlen b) by lia. unfold zlen.
  rewrite !Nat2Z.id, drop_app_length, take_app_length. done.
Qed.

Lemma slice_bound data a b s : slice data a b = Some s → b <= zlen data.
Proof. unfold slice. destruct (_ && _) eqn:E; [|done]. intros _. lia. Qed.

Lemma slice_to_end (pre s : bytes) : slice (pre ++ s) (zlen pre) (zlen (pre ++ s)) = Some s.
Proof. pose proof (slice_app pre s []) as H. by rewrite app_nil_r, <- zlen_app in H. Qed.

(** The slice of a layout that a part of it fills. *)
Lemma slice_off data a b pre s rest :
  data = pre ++ s ++ rest → a = zlen pre → b = a + zlen s → slice data a b = Some s.
Proof. intros -> -> ->. apply slice_app. Qed.

(** ** Numbers to be tried one by one *)

Definition below (n : nat) : list Z := map Z.of_nat (seq 0 n).

Lemma in_below n x : 0 <= x < Z.of_nat n → In x (below n).
Proof. intros H. apply in_map_iff. exists (Z.to_nat x). split; [lia|]. apply in_seq. lia. Qed.

Lemma below_spec n (p : Z → bool) x : forallb p (below n) = true → 0 <= x < Z.of_nat n → p x = true.
Proof. rewrite forallb_forall. intros H Hx. by apply H, in_below. Qed.
