(* ===== verification/Utf8.v ===== *)
(** What the code uses of Rust's [str] and [String]: UTF-8 well-formedness,
    [String::from_utf8_lossy], slicing at a character boundary and
    [eq_ignore_ascii_case].  A [String] is the list of its UTF-8 bytes, and the
    type invariant of [String] is [valid_utf8]. *)
From S2P Require Import Prelude.

(** ** One step of the decoder

    [utf8_step l] looks at the front of a non-empty [l] and answers [(true, n)]
    when it starts with a well-formed [n]-byte character, [(false, n)] when its
    first [n] bytes are a maximal ill-formed prefix. *)

Definition is_cont (b : option Z) : bool :=
  match b with Some b => (128 <=? b) && (b <? 192) | None => false end.

Definition in_range (lo hi : Z) (b : option Z) : bool :=
  match b with Some b => (lo <=? b) && (b <=? hi) | None => false end.

Definition utf8_char_width (b : Z) : nat :=
  if b <? 128 then 1 else
  if (194 <=? b) && (b <=? 223) then 2 else
  if (224 <=? b) && (b <=? 239) then 3 else
  if (240 <=? b) && (b <=? 244) then 4 else 0.

Definition second_of_3 (b : Z) (b2 : option Z) : bool :=
  if b =? 224 then in_range 160 191 b2 else
  if b =? 237 then in_range 128 159 b2 else in_range 128 191 b2.

Definition second_of_4 (b : Z) (b2 : option Z) : bool :=
  if b =? 240 then in_range 144 191 b2 else
  if b =? 244 then in_range 128 143 b2 else in_range 128 191 b2.

Definition utf8_step (l : bytes) : bool * nat :=
  match l with
  | [] => (true, 0%nat)
  | b :: r =>
    match utf8_char_width b with
    | 1%nat => (true, 1%nat)
    | 2%nat => if is_cont (r !! 0%nat) then (true, 2%nat) else (false, 1%nat)
    | 3%nat => if second_of_3 b (r !! 0%nat)
               then if is_cont (r !! 1%nat) then (true, 3%nat) else (false, 2%nat)
               else (false, 1%nat)
    | 4%nat => if second_of_4 b (r !! 0%nat)
               then if is_cont (r !! 1%nat)
                    then if is_cont (r !! 2%nat) then (true, 4%nat) else (false, 3%nat)
                    else (false, 2%nat)
               else (false, 1%nat)
    | _ => (false, 1%nat)
    end
  end.

(** U+FFFD, the replacement character. *)
Definition replacement : bytes := [239; 191; 189].

Fixpoint lossy_fuel (fuel : nat) (l : bytes) : bytes :=
  match fuel, l with
  | S fuel, _ :: _ =>
    let '(ok, n) := utf8_step l in
    (if ok : bool then take n l else replacement) ++ lossy_fuel fuel (drop n l)
  | _, _ => []
  end.

(** [String::from_utf8_lossy]: every ill-formed maximal prefix becomes U+FFFD. *)
Definition from_utf8_lossy (l : bytes) : bytes := lossy_fuel (length l) l.

(** A single well-formed character, and a well-formed string. *)
Definition is_char (c : bytes) : Prop := c ≠ [] ∧ utf8_step c = (true, length c).

Inductive valid_utf8 : bytes → Prop :=
| valid_nil : valid_utf8 []
| valid_cons c l : is_char c → valid_utf8 l → valid_utf8 (c ++ l).

Ltac utf8_cases :=
  repeat (case_match; simplify_eq/=); try done.

Lemma utf8_step_pos l : l ≠ [] → (0 < (utf8_step l).2 <= length l)%nat.
Proof.
  destruct l as [|b r]; [done|]. intros _. simpl.
  destruct r as [|b2 [|b3 [|b4 r]]]; utf8_cases; simpl; try lia;
    unfold second_of_3, second_of_4, in_range, is_cont in *; utf8_cases.
Qed.

(** A well-formed character is recognised whatever follows it. *)
Lemma utf8_step_app c l : is_char c → utf8_step (c ++ l) = (true, length c).
Proof.
  intros [Hne Hc]. destruct c as [|b r]; [done|].
  destruct r as [|b2 [|b3 [|b4 [|b5 r]]]]; simpl in *; utf8_cases;
    unfold second_of_3, second_of_4, in_range, is_cont in *; utf8_cases.
Qed.

(** What the step recognises as a character is one. *)
Lemma utf8_step_is_char l n :
  l ≠ [] → utf8_step l = (true, n) → is_char (take n l) ∧ length (take n l) = n.
Proof.
  intros Hne Hs. pose proof (utf8_step_pos l Hne) as Hpos. rewrite Hs in Hpos.
  simpl in Hpos. assert (length (take n l) = n) as Hlen by (rewrite length_take; lia).
  split; [|done]. split; [intros H; rewrite H in Hlen; simpl in *; lia|].
  rewrite Hlen. destruct l as [|b r]; [done|].
  destruct r as [|b2 [|b3 [|b4 r]]]; simpl in *; utf8_cases; simpl in *; utf8_cases;
    unfold second_of_3, second_of_4, in_range, is_cont in *; utf8_cases.
Qed.

Lemma lossy_fuel_enough f g l :
  (length l <= f)%nat → (length l <= g)%nat → lossy_fuel f l = lossy_fuel g l.
Proof.
  revert f g. induction l as [l IH] using list_length_ind. intros f g Hf Hg.
  destruct l as [|x l]; [by destruct f, g|].
  destruct f as [|f]; [simpl in *; lia|]. destruct g as [|g]; [simpl in *; lia|].
  cbn [lossy_fuel]. pose proof (utf8_step_pos (x :: l) ltac:(done)) as Hpos.
  destruct (utf8_step (x :: l)) as [ok n]. simpl snd in Hpos. f_equal.
  apply IH; rewrite length_drop; simpl length in *; lia.
Qed.

Lemma from_utf8_lossy_unfold l :
  l ≠ [] →
  from_utf8_lossy l =
  (if (utf8_step l).1 then take (utf8_step l).2 l else replacement)
    ++ from_utf8_lossy (drop (utf8_step l).2 l).
Proof.
  intros Hne. pose proof (utf8_step_pos l Hne) as Hpos.
  destruct l as [|x l]; [done|]. unfold from_utf8_lossy at 1. cbn [length lossy_fuel].
  destruct (utf8_step (x :: l)) as [ok n]. cbn [fst snd] in *. f_equal.
  apply lossy_fuel_enough; rewrite length_drop; simpl length in *; lia.
Qed.

Lemma from_utf8_lossy_char c l :
  is_char c → from_utf8_lossy (c ++ l) = c ++ from_utf8_lossy l.
Proof.
  intros Hc. pose proof (utf8_step_app c l Hc) as Hs. destruct Hc as [Hne _].
  rewrite from_utf8_lossy_unfold by (by destruct c).
  rewrite Hs. cbn [fst snd]. by rewrite take_app_length, drop_app_length.
Qed.

(** On a well-formed string the lossy conversion is the identity. *)
Lemma from_utf8_lossy_valid s : valid_utf8 s → from_utf8_lossy s = s.
Proof.
  induction 1 as [|c l Hc Hl IH]; [done|]. by rewrite from_utf8_lossy_char, IH.
Qed.

Lemma replacement_is_char : is_char replacement.
Proof. by split. Qed.

(** Its result is always a well-formed string. *)
Lemma from_utf8_lossy_is_valid l : valid_utf8 (from_utf8_lossy l).
Proof.
  induction l as [l IH] using list_length_ind.
  destruct l as [|x l]; [constructor|]. rewrite from_utf8_lossy_unfold by done.
  pose proof (utf8_step_pos (x :: l) ltac:(done)) as Hpos.
  destruct (utf8_step (x :: l)) as [ok n] eqn:Hs. cbn [fst snd] in *.
  assert (valid_utf8 (from_utf8_lossy (drop n (x :: l)))) as Hrest.
  { apply IH. rewrite length_drop. simpl length in *. lia. }
  destruct ok; constructor; auto using replacement_is_char.
  by apply (utf8_step_is_char (x :: l) n).
Qed.

Lemma is_char_ascii b : b < 128 → is_char [b].
Proof.
  intros Hb. split; [done|]. simpl. unfold utf8_char_width.
  by destruct (Z.ltb_spec b 128); [|lia].
Qed.

Lemma valid_utf8_app s t : valid_utf8 s → valid_utf8 t → valid_utf8 (s ++ t).
Proof. induction 1; intros; simpl; [done|]. rewrite <- app_assoc. constructor; auto. Qed.

Lemma valid_utf8_ascii s : Forall (λ b, b < 128) s → valid_utf8 s.
Proof.
  induction 1 as [|b s Hb Hs IH]; [constructor|].
  apply (valid_cons [b]); auto using is_char_ascii.
Qed.

(** ** Slicing a [str]

    [&s[..n]] panics unless [n] is a character boundary: the position of the
    start of a character or the end of the string.  [None] is the panic. *)
Definition is_char_boundary (s : bytes) (n : nat) : bool :=
  match s !! n with
  | Some b => negb ((128 <=? b) && (b <? 192))
  | None => Nat.eqb n (length s)
  end || Nat.eqb n 0.

Definition str_prefix (s : bytes) (n : nat) : option bytes :=
  if is_char_boundary s n then Some (take n s) else None.

Lemma str_prefix_ascii s n :
  Forall (λ b, 0 <= b < 128) s → (n <= length s)%nat → str_prefix s n = Some (take n s).
Proof.
  intros Hs Hn. unfold str_prefix, is_char_boundary.
  destruct (s !! n) as [b|] eqn:Hb.
  - rewrite Forall_lookup in Hs. specialize (Hs _ _ Hb). simpl in Hs.
    by destruct (Z.leb_spec 128 b); [lia|].
  - apply lookup_ge_None in Hb. by rewrite (proj2 (Nat.eqb_eq n (length s))) by lia.
Qed.

(** ** ASCII case *)

Definition to_ascii_lower (b : Z) : Z := if (65 <=? b) && (b <=? 90) then b + 32 else b.
Definition to_ascii_upper (b : Z) : Z := if (97 <=? b) && (b <=? 122) then b - 32 else b.

Fixpoint bytes_eqb (s t : bytes) : bool :=
  match s, t with
  | [], [] => true
  | a :: s, b :: t => (a =? b) && bytes_eqb s t
  | _, _ => false
  end.

Lemma bytes_eqb_eq s t : bytes_eqb s t = true ↔ s = t.
Proof.
  revert t. induction s as [|a s IH]; intros [|b t]; simpl; try naive_solver.
  rewrite andb_true_iff, Z.eqb_eq, IH. naive_solver.
Qed.

(** [str::eq_ignore_ascii_case]. *)
Definition eq_ignore_ascii_case (s t : bytes) : bool :=
  bytes_eqb (map to_ascii_lower s) (map to_ascii_lower t).

Lemma eq_ignore_ascii_case_refl s : eq_ignore_ascii_case s s = true.
Proof. by apply bytes_eqb_eq. Qed.

Lemma eq_ignore_ascii_case_sym s t :
  eq_ignore_ascii_case s t = eq_ignore_ascii_case t s.
Proof.
  apply eq_true_iff_eq. unfold eq_ignore_ascii_case. rewrite !bytes_eqb_eq. naive_solver.
Qed.

(** A string literal as its bytes. *)
Fixpoint str (s : string) : bytes :=
  match s with
  | EmptyString => []
  | String a s => Z.of_nat (Ascii.nat_of_ascii a) :: str s
  end.

(** [format!("{}", n)] of an integer. *)
Definition dec (n : Z) : bytes := str (pretty n).

#[export] Hint Resolve valid_nil from_utf8_lossy_is_valid valid_utf8_app : spectre.
