(* ===== verification/Text.v ===== *)
(** The text processing of commands and configuration: what the code uses of Rust's
    [str]: [chars], [char::is_whitespace], [split_whitespace], [join], [str::parse] for
    unsigned integers, [to_lowercase], [starts_with], [contains]. *)
From S2P Require Import Prelude Utf8.

(** ** Characters *)

(** [str::chars]; a character is the list of its bytes. *)
Fixpoint chars_fuel (fuel : nat) (l : bytes) : list bytes :=
  match fuel, l with
  | S fuel, _ :: _ => let n := (utf8_step l).2 in take n l :: chars_fuel fuel (drop n l)
  | _, _ => []
  end.
Definition chars (s : bytes) : list bytes := chars_fuel (length s) s.

(** [char::is_whitespace]: the characters with the Unicode property White_Space. *)
Definition is_whitespace (c : bytes) : bool :=
  match c with
  | [b] => ((9 <=? b) && (b <=? 13)) || (b =? 32)
  | [b1; b2] => (b1 =? 194) && ((b2 =? 133) || (b2 =? 160))
  | [b1; b2; b3] =>
    ((b1 =? 225) && (b2 =? 154) && (b3 =? 128))
    || ((b1 =? 226) && (b2 =? 128)
        && (((128 <=? b3) && (b3 <=? 138)) || (b3 =? 168) || (b3 =? 169) || (b3 =? 175)))
    || ((b1 =? 226) && (b2 =? 129) && (b3 =? 159))
    || ((b1 =? 227) && (b2 =? 128) && (b3 =? 128))
  | _ => false
  end.

Definition word_if_any (w : bytes) : list bytes := match w with [] => [] | _ => [w] end.

(** [str::split_whitespace], collected. *)
Fixpoint split_chars (cs : list bytes) (word : bytes) : list bytes :=
  match cs with
  | [] => word_if_any word
  | c :: cs => if is_whitespace c then word_if_any word ++ split_chars cs []
               else split_chars cs (word ++ c)
  end.
Definition split_whitespace (s : bytes) : list bytes := split_chars (chars s) [].

(** [<[&str]>::join]. *)
Fixpoint join (sep : bytes) (ws : list bytes) : bytes :=
  match ws with
  | [] => []
  | [w] => w
  | w :: ws => w ++ sep ++ join sep ws
  end.

(** ** Numbers *)

Definition digit_of (b : Z) : option Z := if (48 <=? b) && (b <=? 57) then Some (b - 48) else None.

Fixpoint parse_digits (w acc : Z) (s : bytes) : option Z :=
  match s with
  | [] => Some acc
  | b :: s =>
    d ← digit_of b;
    let acc := acc * 10 + d in
    if acc <? 2 ^ w then parse_digits w acc s else None
  end.

(** [str::parse] into an unsigned integer of [w] bits: decimal digits, at least one, after
    an optional plus sign; [None] is the error. *)
Definition parse_uint (w : Z) (s : bytes) : option Z :=
  match s with
  | [] => None
  | b :: r => if b =? 43 then match r with [] => None | _ => parse_digits w 0 r end
              else parse_digits w 0 s
  end.

(** [char::to_digit(16)], on a character of one byte. *)
Definition hex_digit (b : Z) : option Z :=
  if (48 <=? b) && (b <=? 57) then Some (b - 48)
  else if (97 <=? b) && (b <=? 102) then Some (b - 87)
  else if (65 <=? b) && (b <=? 70) then Some (b - 55)
  else None.

Fixpoint radix16_digits (acc : Z) (s : bytes) : option Z :=
  match s with
  | [] => Some acc
  | b :: s =>
    d ← hex_digit b;
    let acc := acc * 16 + d in
    if acc <? 2 ^ 32 then radix16_digits acc s else None
  end.

(** [u32::from_str_radix(s, 16).ok()] *)
Definition u32_from_hex (s : bytes) : option Z :=
  match s with
  | [] => None
  | b :: r => if b =? 43 then match r with [] => None | _ => radix16_digits 0 r end
              else radix16_digits 0 s
  end.

(** ** Case and prefixes *)

Definition is_ascii (s : bytes) : bool := forallb (λ b, b <? 128) s.

(** The tables of Unicode are a parameter of the model: how a text that is not ASCII reads
    in lower case, and which characters outside ASCII are letters or numbers. *)
Class Unicode := { unicode_lower : bytes → bytes; unicode_alnum : bytes → bool }.

(** The simplest tables: no other letters.  Used in examples only. *)
Definition plain_unicode : Unicode := {| unicode_lower := λ s, s; unicode_alnum := λ _, false |}.

(** [str::to_lowercase]. *)
Definition to_lowercase `{Unicode} (s : bytes) : bytes :=
  if is_ascii s then map to_ascii_lower s else unicode_lower s.

(** [char::is_alphanumeric]. *)
Definition is_alphanumeric `{Unicode} (c : bytes) : bool :=
  match c with
  | [b] => ((48 <=? b) && (b <=? 57)) || ((65 <=? b) && (b <=? 90)) || ((97 <=? b) && (b <=? 122))
  | _ => unicode_alnum c
  end.

Fixpoint starts_with (p s : bytes) : bool :=
  match p, s with
  | [], _ => true
  | a :: p, b :: s => (a =? b) && starts_with p s
  | _ :: _, [] => false
  end.

(** [str::contains] of a text, [str::strip_prefix] of a one-byte character. *)
Fixpoint contains (p s : bytes) : bool :=
  starts_with p s || match s with [] => false | _ :: s => contains p s end.

Definition strip_prefix (c : Z) (s : bytes) : option bytes :=
  match s with
  | b :: s => if b =? c then Some s else None
  | [] => None
  end.

(** ** Lemmas *)

Lemma starts_with_app p s : starts_with p (p ++ s) = true.
Proof. induction p as [|a p IH]; [done|]. simpl. by rewrite Z.eqb_refl, IH. Qed.

Lemma starts_with_spec p s : starts_with p s = true ↔ ∃ t, s = p ++ t.
Proof.
  split; [|intros [t ->]; apply starts_with_app].
  revert s. induction p as [|a p IH]; intros s; [by exists s|].
  destruct s as [|b s]; [done|]. simpl. intros [<-%Z.eqb_eq (t & ->)%IH]%andb_true_iff. by exists t.
Qed.

Lemma chars_fuel_enough f g l :
  (length l <= f)%nat → (length l <= g)%nat → chars_fuel f l = chars_fuel g l.
Proof.
  revert f g. induction l as [l IH] using list_length_ind. intros f g Hf Hg.
  destruct l as [|x l]; [by destruct f, g|].
  destruct f as [|f]; [simpl in *; lia|]. destruct g as [|g]; [simpl in *; lia|].
  cbn [chars_fuel]. pose proof (utf8_step_pos (x :: l) ltac:(done)) as Hpos.
  destruct (utf8_step (x :: l)) as [ok n]. cbn [snd] in *. f_equal.
  apply IH; rewrite length_drop; simpl length in *; lia.
Qed.

Lemma chars_unfold l :
  l ≠ [] → chars l = take (utf8_step l).2 l :: chars (drop (utf8_step l).2 l).
Proof.
  intros Hne. pose proof (utf8_step_pos l Hne) as Hpos. destruct l as [|x l]; [done|].
  unfold chars at 1. cbn [length chars_fuel]. f_equal.
  apply chars_fuel_enough; [|done]. rewrite length_drop. simpl length in *. lia.
Qed.

Lemma chars_app c s : is_char c → chars (c ++ s) = c :: chars s.
Proof.
  intros Hc. pose proof (utf8_step_app c s Hc) as Hs. destruct Hc as [Hne _].
  rewrite chars_unfold by (by destruct c). rewrite Hs. cbn [snd].
  by rewrite take_app_length, drop_app_length.
Qed.

Lemma chars_concat s : concat (chars s) = s.
Proof.
  induction s as [s IH] using list_length_ind. destruct s as [|x l]; [done|].
  pose proof (utf8_step_pos (x :: l) ltac:(done)) as Hpos. rewrite chars_unfold by done.
  cbn [concat]. rewrite IH; [apply take_drop|]. rewrite length_drop. simpl length in *. lia.
Qed.

(** A word: not empty and without white space. *)
Definition is_word (w : bytes) : Prop :=
  w ≠ [] ∧ Forall (λ c, is_whitespace c = false) (chars w) ∧ valid_utf8 w.

Lemma chars_valid_app s t : valid_utf8 s → chars (s ++ t) = chars s ++ chars t.
Proof.
  induction 1 as [|c l Hc Hl IH]; [done|].
  by rewrite <- app_assoc, !(chars_app c), IH.
Qed.

Lemma split_chars_word cs rest word :
  Forall (λ c, is_whitespace c = false) cs →
  split_chars (cs ++ rest) word = split_chars rest (word ++ concat cs).
Proof.
  intros H. revert word. induction H as [|c cs Hc Hcs IH]; intros word; cbn; [by rewrite app_nil_r|].
  by rewrite Hc, IH, <- app_assoc.
Qed.

Lemma split_word w : is_word w → split_whitespace w = [w].
Proof.
  intros (Hne & Hw & Hv). unfold split_whitespace. rewrite <- (app_nil_r (chars w)).
  rewrite split_chars_word by done. rewrite chars_concat. by destruct w.
Qed.

Lemma split_word_space w s :
  is_word w → split_whitespace (w ++ [32] ++ s) = w :: split_whitespace s.
Proof.
  intros (Hne & Hw & Hv). unfold split_whitespace. rewrite chars_valid_app by done.
  rewrite split_chars_word by done. rewrite chars_concat.
  rewrite (chars_app [32]) by (by apply is_char_ascii). cbn. by destruct w.
Qed.

(** Words joined by spaces read back as the words. *)
Lemma split_join ws : Forall is_word ws → split_whitespace (join [32] ws) = ws.
Proof.
  induction 1 as [|w ws Hw Hws IH]; [done|].
  destruct ws as [|w' ws]; [by apply split_word|].
  change (join [32] (w :: w' :: ws)) with (w ++ [32] ++ join [32] (w' :: ws)).
  by rewrite split_word_space, IH.
Qed.

Lemma is_word_ascii w : w ≠ [] → Forall (λ b, 33 <= b < 128) w → is_word w.
Proof.
  intros Hne Hw. split; [done|]. split.
  - clear Hne. induction Hw as [|b w Hb Hw IH]; [constructor|].
    change (b :: w) with ([b] ++ w). rewrite chars_app by (apply is_char_ascii; lia).
    constructor; [|done]. cbn. destruct (Z.leb_spec 9 b), (Z.leb_spec b 13), (Z.eqb_spec b 32); try lia; done.
  - apply valid_utf8_ascii. eapply Forall_impl; [exact Hw|]. intros. simpl in *. lia.
Qed.

(** *** Numbers *)

Lemma digit_char d : 0 <= d < 10 → digit_of (48 + d) = Some d.
Proof.
  intros H. unfold digit_of. destruct (Z.leb_spec 48 (48 + d)); [|lia].
  destruct (Z.leb_spec (48 + d) 57); [|lia]. simpl. f_equal. lia.
Qed.

Lemma pretty_char_code n :
  (n < 10)%N → Z.of_nat (Ascii.nat_of_ascii (pretty_N_char n)) = 48 + Z.of_N n.
Proof.
  intros H. assert (n ∈ map N.of_nat (seq 0 10)) as Hn.
  { apply list_elem_of_fmap. exists (N.to_nat n). split; [lia|]. apply elem_of_seq. lia. }
  clear H. change (n ∈ [0; 1; 2; 3; 4; 5; 6; 7; 8; 9]%N) in Hn.
  repeat (apply elem_of_cons in Hn as [->|Hn]; [reflexivity|]). by apply elem_of_nil in Hn.
Qed.

Lemma parse_pretty w n s :
  0 <= w →
  parse_digits w 0 (str (pretty_N_go n s)) =
  if Z.of_N n <? 2 ^ w then parse_digits w (Z.of_N n) (str s) else None.
Proof.
  intros Hw. revert s. induction (N.lt_wf_0 n) as [n _ IH]. intros s.
  destruct (decide (n = 0)%N) as [->|Hn].
  { rewrite pretty_N_go_0. destruct (Z.ltb_spec (Z.of_N 0) (2 ^ w)); [done|].
    pose proof (Z.pow_pos_nonneg 2 w). lia. }
  rewrite pretty_N_go_step by lia. rewrite IH by (apply N.div_lt; lia).
  cbn [str parse_digits]. rewrite pretty_char_code by (apply N.mod_lt; lia).
  rewrite digit_char by (split; [apply N2Z.is_nonneg|]; apply (N2Z.inj_lt _ 10), N.mod_lt; lia). cbn.
  pose proof (N.div_mod n 10 ltac:(done)) as E.
  replace (Z.of_N (n / 10) * 10 + Z.of_N (n mod 10)) with (Z.of_N n)
    by (revert E; generalize (n / 10)%N (n mod 10)%N; lia).
  destruct (Z.ltb_spec (Z.of_N n) (2 ^ w)), (Z.ltb_spec (Z.of_N (n / 10)) (2 ^ w)); try done.
  assert (n / 10 <= n)%N as Hle by (apply N.Div0.div_le_upper_bound; lia).
  apply N2Z.inj_le in Hle. lia.
Qed.

Lemma pretty_head n : ∃ b r, str (pretty_N_go n EmptyString) = b :: r ∧ 48 <= b < 58 ∨ n = 0%N.
Proof.
  destruct (decide (n = 0)%N) as [->|Hn]; [by exists 0, []; right|].
  assert (∀ s, (∃ b r, str s = b :: r ∧ 48 <= b < 58) ∨ n ≠ 0%N →
     ∃ b r, str (pretty_N_go n s) = b :: r ∧ 48 <= b < 58) as H; [|].
  { clear Hn. induction (N.lt_wf_0 n) as [n _ IH]. intros s Hs.
    destruct (decide (n = 0)%N) as [->|Hn].
    - rewrite pretty_N_go_0. by destruct Hs.
    - rewrite pretty_N_go_step by lia. apply IH; [apply N.div_lt; lia|]. left.
      do 2 eexists. split; [reflexivity|]. rewrite pretty_char_code by (apply N.mod_lt; lia).
      assert (n mod 10 < 10)%N as Hm by (apply N.mod_lt; lia).
      revert Hm. generalize (n mod 10)%N. lia. }
  destruct (H EmptyString) as (b & r & H1 & H2); [by right|]. exists b, r. auto.
Qed.

Lemma pretty_digits n s : Forall (λ b, 48 <= b < 58) (str s) → Forall (λ b, 48 <= b < 58) (str (pretty_N_go n s)).
Proof.
  revert s. induction (N.lt_wf_0 n) as [n _ IH]. intros s Hs.
  destruct (decide (n = 0)%N) as [->|Hn]; [by rewrite pretty_N_go_0|].
  rewrite pretty_N_go_step by lia. apply IH; [apply N.div_lt; lia|]. cbn [str].
  rewrite pretty_char_code by (apply N.mod_lt; lia). constructor; [|done].
  assert (n mod 10 < 10)%N as Hm by (apply N.mod_lt; lia). revert Hm. generalize (n mod 10)%N. lia.
Qed.

Lemma dec_digits n : 0 <= n → Forall (λ b, 48 <= b < 58) (dec n).
Proof.
  intros Hn. unfold dec. assert (pretty n = pretty (Z.to_N n)) as -> by (by destruct n).
  unfold pretty, pretty_N. case_decide; [by repeat constructor|]. apply pretty_digits. constructor.
Qed.

(** What [format!] writes of an unsigned number [str::parse] reads back, when it fits. *)
Lemma parse_dec w n : 0 <= w → 0 <= n → parse_uint w (dec n) = if n <? 2 ^ w then Some n else None.
Proof.
  intros Hw Hn. unfold dec. assert (pretty n = pretty (Z.to_N n)) as ->.
  { destruct n; [done|done|lia]. }
  unfold pretty, pretty_N. case_decide as E.
  { assert (n = 0) as -> by lia. reflexivity. }
  destruct (pretty_head (Z.to_N n)) as (b & r & [[Hb Hr]|Hz]); [|done].
  pose proof (parse_pretty w (Z.to_N n) EmptyString Hw) as H. rewrite Hb in *.
  unfold parse_uint. destruct (Z.eqb_spec b 43); [lia|]. rewrite H, Z2N.id by lia. done.
Qed.

Lemma dec_nonempty n : 0 <= n → dec n ≠ [].
Proof.
  intros Hn E. pose proof (parse_dec n n Hn Hn) as H. rewrite E in H. cbn in H.
  destruct (Z.ltb_spec n (2 ^ n)) as [|Hle]; [done|]. pose proof (Z.pow_gt_lin_r 2 n). lia.
Qed.

Lemma dec_word n : 0 <= n → is_word (dec n).
Proof.
  intros Hn. apply is_word_ascii; [by apply dec_nonempty|]. eapply Forall_impl; [by apply dec_digits|]. cbn. lia.
Qed.

Lemma parse_uint_range w s n : 0 <= w → parse_uint w s = Some n → uN w n.
Proof.
  intros Hw. assert (∀ s acc, uN w acc → parse_digits w acc s = Some n → uN w n) as H.
  { clear s. intros s. induction s as [|b s IH]; intros acc Ha; cbn; [by intros [= <-]|].
    unfold digit_of. destruct ((48 <=? b) && (b <=? 57)) eqn:Hb; [|done]. cbn.
    destruct (Z.ltb_spec (acc * 10 + (b - 48)) (2 ^ w)); [|done]. apply IH.
    unfold uN in *. lia. }
  assert (uN w 0) as H0 by (split; [done|by apply Z.pow_pos_nonneg]).
  unfold parse_uint. destruct s as [|b r]; [done|].
  destruct (b =? 43); [destruct r; [done|]|]; by apply H.
Qed.

#[export] Hint Resolve valid_utf8_ascii : spectre.
