(* ===== verification/F64.v ===== *)
(** Floating-point numbers of 64 bits, as far as the code uses them (Rust's [f64]): the numbers are
    those of [SpecFloat] with 53 bits of mantissa and exponents up to 1024; [str::parse] rounds
    a decimal text to the nearest, ties to even, as sums and differences are rounded.

    The theorems say that integers below 2^53 are exact: they are read, added and subtracted
    without an error. *)
From Stdlib Require Import SpecFloat.
From S2P Require Import Prelude Utf8 Text.

Definition f64 : Type := spec_float.

Definition f64_add : f64 → f64 → f64 := SFadd 53 1024.
Definition f64_sub : f64 → f64 → f64 := SFsub 53 1024.

(** [v as f64] of an integer. *)
Definition f64_of_Z (z : Z) : f64 := binary_normalize 53 1024 z 0 false.

(** ** [str::parse::<f64>] *)

(** Digits in front of a text: their value after [acc], how many they are, and what follows. *)
Fixpoint take_digits (acc count : Z) (s : bytes) : Z * Z * bytes :=
  match s with
  | b :: r => match digit_of b with Some d => take_digits (10 * acc + d) (count + 1) r | None => (acc, count, s) end
  | [] => (acc, count, [])
  end.

(** [e] or [E], an optional sign, at least one digit, and nothing more. *)
Definition parse_exponent (s : bytes) : option Z :=
  match s with
  | [] => Some 0
  | b :: r =>
    if negb ((b =? 101) || (b =? 69)) then None else
    let '(neg, r) := match r with
                     | c :: r' => if c =? 45 then (true, r') else if c =? 43 then (false, r') else (false, r)
                     | [] => (false, [])
                     end in
    match take_digits 0 0 r with
    | (e, n, []) => if n =? 0 then None else Some (if neg : bool then - e else e)
    | _ => None
    end
  end.

(** [mantissa * 10^exponent], rounded. *)
Definition f64_of_decimal (neg : bool) (mantissa exponent : Z) : f64 :=
  match mantissa with
  | Zpos m =>
    if 0 <=? exponent then binary_round 53 1024 neg (Z.to_pos (mantissa * 10 ^ exponent)) 0
    else let '(mz, ez, lz) := SFdiv_core_binary 53 1024 mantissa 0 (10 ^ (- exponent)) 0 in
         binary_round_aux 53 1024 neg mz ez lz
  | _ => S754_zero neg
  end.

Definition parse_number (neg : bool) (s : bytes) : option f64 :=
  let '(i, n, s) := take_digits 0 0 s in
  let '(d, m, s) := match s with
                    | b :: r => if b =? 46 then take_digits i 0 r else (i, 0, s)
                    | [] => (i, 0, [])
                    end in
  if n + m =? 0 then None
  else match parse_exponent s with
       | Some e => Some (f64_of_decimal neg d (e - m))
       | None => None
       end.

Definition parse_inf_nan (neg : bool) (s : bytes) : option f64 :=
  if eq_ignore_ascii_case s (str "nan") then Some S754_nan
  else if eq_ignore_ascii_case s (str "inf") || eq_ignore_ascii_case s (str "infinity") then Some (S754_infinity neg)
  else None.

Definition parse_f64 (s : bytes) : option f64 :=
  let '(neg, s) := match s with
                   | b :: r => if b =? 45 then (true, r) else if b =? 43 then (false, r) else (false, s)
                   | [] => (false, [])
                   end in
  match s with
  | [] => None
  | _ => match parse_number neg s with Some x => Some x | None => parse_inf_nan neg s end
  end.

Example parse_f64_examples :
  map (λ s, parse_f64 (str s)) ["0.1"; "-2.5e3"; "1e400"; ".5"; "7."; "1e-400"; "-iNf"; "."; "1e"; "e5"; "+"; ""; "9007199254740993"]%string
  = [Some (S754_finite false 7205759403792794 (-56)); Some (S754_finite true 5497558138880000 (-41)); Some (S754_infinity false);
     Some (S754_finite false 4503599627370496 (-53)); Some (S754_finite false 7881299347898368 (-50)); Some (S754_zero false);
     Some (S754_infinity true); None; None; None; None; None; Some (S754_finite false 4503599627370496 1)].
Proof. vm_compute. reflexivity. Qed.

(** ** Integers are exact *)

Lemma digits_bounds m : 2 ^ (Z.pos (digits2_pos m) - 1) <= Z.pos m < 2 ^ Z.pos (digits2_pos m).
Proof.
  assert (∀ p, Z.pos (Pos.succ p) - 1 = Z.pos p) as Hs by lia.
  assert (∀ p, 2 ^ Z.pos p = 2 * 2 ^ (Z.pos p - 1)) as Hp.
  { intros p. rewrite <- Z.pow_succ_r by lia. f_equal. lia. }
  induction m as [m IH|m IH|]; cbn [digits2_pos]; [| |done].
  - rewrite Hs, (Hp (Pos.succ _)), Hs. rewrite Hp in *. lia.
  - rewrite Hs, (Hp (Pos.succ _)), Hs. rewrite Hp in *. lia.
Qed.

Lemma digits_lt m n : 0 <= n → Z.pos m < 2 ^ n → Z.pos (digits2_pos m) <= n.
Proof.
  intros Hn Hm. destruct (digits_bounds m) as [Hlo _].
  assert (Z.pos (digits2_pos m) - 1 < n); [|lia]. apply (Z.pow_lt_mono_r_iff 2); lia.
Qed.

(** [n] zeros at the end of a mantissa. *)
Definition zeros (n : nat) (m : positive) : positive := Nat.iter n xO m.

Lemma zeros_add n k m : zeros (n + k) m = zeros n (zeros k m).
Proof. apply Nat.iter_add. Qed.

Lemma zeros_value n m : Z.pos (zeros n m) = Z.pos m * 2 ^ Z.of_nat n.
Proof.
  induction n as [|n IH]; [cbn; lia|]. rewrite Nat2Z.inj_succ, Z.pow_succ_r by lia.
  change (Z.pos (zeros (S n) m)) with (2 * Z.pos (zeros n m)). rewrite IH. lia.
Qed.

Lemma zeros_digits n m : Z.pos (digits2_pos (zeros n m)) = Z.pos (digits2_pos m) + Z.of_nat n.
Proof.
  induction n as [|n IH]; [cbn; lia|]. change (digits2_pos (zeros (S n) m)) with (Pos.succ (digits2_pos (zeros n m))). lia.
Qed.

Lemma iter_pos_iter {A} (f : A → A) p x : SpecFloat.iter_pos f p x = Nat.iter (Pos.to_nat p) f x.
Proof.
  revert x. induction p as [p IH|p IH|]; intros x; cbn [SpecFloat.iter_pos]; [| |done].
  - rewrite !IH, Pos2Nat.inj_xI, <- Nat.iter_add. rewrite <- Nat.iter_succ_r. f_equal. lia.
  - rewrite !IH, Pos2Nat.inj_xO, <- Nat.iter_add. f_equal. lia.
Qed.

Lemma shr_zeros n m : Nat.iter n shr_1 (Build_shr_record (Z.pos (zeros n m)) false false) = Build_shr_record (Z.pos m) false false.
Proof. induction n as [|n IH]; [done|]. rewrite Nat.iter_succ_r. exact IH. Qed.

Lemma shl_align_zeros m e e' : e' <= e → shl_align m e e' = (zeros (Z.to_nat (e - e')) m, e').
Proof.
  intros He. unfold shl_align. destruct (e' - e) as [|p|p] eqn:E; [|lia|].
  - replace (e - e') with 0 by lia. cbn. f_equal. lia.
  - replace (e - e') with (Z.pos p) by lia. rewrite Z2Nat.inj_pos. rewrite (Pos2Nat.inj_iter p xO m). unfold zeros. done.
Qed.

(** The number [m * 2^k / 2^k], however it is written, is the same float. *)
Lemma round_exact s m k :
  Z.pos (digits2_pos m) <= 53 → (k <= 1000)%nat →
  binary_round 53 1024 s (zeros k m) (- Z.of_nat k)
  = S754_finite s (zeros (Z.to_nat (53 - Z.pos (digits2_pos m))) m) (Z.pos (digits2_pos m) - 53).
Proof.
  intros Hd Hk. set (d := Z.pos (digits2_pos m)) in *. assert (1 <= d) as Hd1 by lia.
  assert (∀ x, - 1000 <= x → fexp 53 1024 x = x - 53) as Hf by (intros x Hx; unfold fexp, emin; lia).
  assert (∀ n, Z.of_nat n = 53 - d → shr_fexp 53 1024 (Z.pos (zeros n m)) (d - 53) loc_Exact = (Build_shr_record (Z.pos (zeros n m)) false false, d - 53)) as Hstay.
  { intros n Hn. unfold shr_fexp, Zdigits2. rewrite zeros_digits. fold d. rewrite Hf by lia.
    replace (d + Z.of_nat n + (d - 53) - 53 - (d - 53)) with 0 by lia. done. }
  set (n := Z.to_nat (53 - d)). assert (Z.of_nat n = 53 - d) as Hn by lia.
  unfold binary_round. rewrite zeros_digits. fold d.
  replace (d + Z.of_nat k + - Z.of_nat k) with d by lia. rewrite Hf by lia.
  destruct (Z.le_gt_cases (d - 53) (- Z.of_nat k)) as [Hle|Hgt].
  - rewrite shl_align_zeros, <- zeros_add by lia.
    replace (Z.to_nat (- Z.of_nat k - (d - 53)) + k)%nat with n by lia.
    unfold binary_round_aux. rewrite Hstay by done. cbn [loc_of_shr_record shr_m round_nearest_even].
    rewrite Hstay by done. cbn [shr_m]. destruct (Z.leb_spec (d - 53) (1024 - 53)); [done|lia].
  - assert (shl_align (zeros k m) (- Z.of_nat k) (d - 53) = (zeros k m, - Z.of_nat k)) as ->.
    { unfold shl_align. destruct (d - 53 - - Z.of_nat k) eqn:E; [done|done|lia]. }
    replace k with ((k - n) + n)%nat at 1 by lia. rewrite zeros_add.
    assert (shr_fexp 53 1024 (Z.pos (zeros (k - n) (zeros n m))) (- Z.of_nat k) loc_Exact
            = (Build_shr_record (Z.pos (zeros n m)) false false, d - 53)) as Hshr.
    { unfold shr_fexp, Zdigits2. rewrite !zeros_digits. fold d. rewrite Hf by lia.
      replace (d + Z.of_nat n + Z.of_nat (k - n) + - Z.of_nat k - 53 - - Z.of_nat k) with (Z.of_nat (k - n)) by lia.
      unfold shr. destruct (Z.of_nat (k - n)) as [|p|p] eqn:E; [lia| |lia].
      cbn [shr_record_of_loc]. rewrite iter_pos_iter. replace (Pos.to_nat p) with (k - n)%nat by lia. rewrite shr_zeros.
      f_equal. lia. }
    unfold binary_round_aux. rewrite Hshr. cbn [loc_of_shr_record shr_m round_nearest_even].
    rewrite Hstay by done. cbn [shr_m]. destruct (Z.leb_spec (d - 53) (1024 - 53)); [done|lia].
Qed.

Definition exact_int (z : Z) : Prop := - 2 ^ 53 < z < 2 ^ 53.

Lemma exact_digits m : Z.pos m < 2 ^ 53 → Z.pos (digits2_pos m) <= 53.
Proof. apply digits_lt. lia. Qed.

(** An integer scaled up is normalised to the float of the integer. *)
Lemma normalize_exact z k :
  exact_int z → (k <= 1000)%nat → binary_normalize 53 1024 (z * 2 ^ Z.of_nat k) (- Z.of_nat k) false = f64_of_Z z.
Proof.
  intros Hz Hk. unfold f64_of_Z. assert (0 < 2 ^ Z.of_nat k) as Hp by lia. destruct z as [|m|m]; [done| |]; unfold exact_int in Hz.
  - rewrite <- zeros_value. cbn [binary_normalize]. rewrite round_exact by (done || apply exact_digits; lia).
    symmetry. apply (round_exact false m 0); [|lia]. apply exact_digits. lia.
  - assert (Z.neg m * 2 ^ Z.of_nat k = Z.neg (zeros k m)) as ->.
    { change (Z.neg m) with (- Z.pos m). rewrite Z.mul_opp_l, <- zeros_value. done. }
    cbn [binary_normalize]. rewrite round_exact by (done || apply exact_digits; lia).
    symmetry. apply (round_exact true m 0); [|lia]. apply exact_digits. lia.
Qed.

Lemma f64_of_pos s m :
  Z.pos m < 2 ^ 53 →
  binary_round 53 1024 s m 0 = S754_finite s (zeros (Z.to_nat (53 - Z.pos (digits2_pos m))) m) (Z.pos (digits2_pos m) - 53).
Proof. intros Hm. apply (round_exact s m 0); [by apply exact_digits|lia]. Qed.

(** An integer as a float: its sign, and a mantissa and an exponent that give its value. *)
Lemma f64_of_Z_finite z :
  exact_int z → z ≠ 0 → ∃ s m k, f64_of_Z z = S754_finite s m (- Z.of_nat k) ∧ (k <= 52)%nat ∧ cond_Zopp s (Z.pos m) = z * 2 ^ Z.of_nat k.
Proof.
  intros Hz Hne. unfold exact_int in Hz. unfold f64_of_Z, binary_normalize.
  assert (∀ m, Z.pos m < 2 ^ 53 → Z.pos (digits2_pos m) - 53 = - Z.of_nat (Z.to_nat (53 - Z.pos (digits2_pos m)))) as Hk.
  { intros m Hm%exact_digits. lia. }
  destruct z as [|m|m]; [done| |]; rewrite f64_of_pos, Hk by lia; eexists _, _, _; (split; [reflexivity|]); (split; [lia|]);
    cbn [cond_Zopp]; rewrite zeros_value; [done|].
  change (Z.neg m) with (- Z.pos m). by rewrite Z.mul_opp_l.
Qed.

Lemma align_value s m k j :
  (k <= j)%nat → cond_Zopp s (Z.pos (fst (shl_align m (- Z.of_nat k) (- Z.of_nat j)))) = cond_Zopp s (Z.pos m) * 2 ^ Z.of_nat (j - k).
Proof.
  intros Hk. rewrite shl_align_zeros by lia. cbn [fst]. rewrite zeros_value.
  replace (Z.to_nat (- Z.of_nat k - - Z.of_nat j)) with (j - k)%nat by lia. destruct s; cbn; lia.
Qed.

Lemma align_int s m k j z :
  (k <= j)%nat → cond_Zopp s (Z.pos m) = z * 2 ^ Z.of_nat k →
  cond_Zopp s (Z.pos (fst (shl_align m (- Z.of_nat k) (- Z.of_nat j)))) = z * 2 ^ Z.of_nat j.
Proof.
  intros Hk E. rewrite align_value, E, <- Z.mul_assoc, <- Z.pow_add_r by lia. do 2 f_equal. lia.
Qed.

Lemma f64_of_Z_opp z : exact_int z → z ≠ 0 → f64_of_Z (- z) = SFopp (f64_of_Z z).
Proof.
  intros Hz Hne. unfold exact_int in Hz. unfold f64_of_Z. destruct z as [|m|m]; [done| |].
  - change (- Z.pos m) with (Z.neg m). cbn [binary_normalize]. by rewrite !f64_of_pos by lia.
  - change (- Z.neg m) with (Z.pos m). cbn [binary_normalize]. by rewrite !f64_of_pos by lia.
Qed.

Lemma f64_add_exact a b : exact_int a → exact_int b → exact_int (a + b) → f64_add (f64_of_Z a) (f64_of_Z b) = f64_of_Z (a + b).
Proof.
  intros Ha Hb Hab. unfold f64_add. destruct (decide (a = 0)) as [->|Hne]; [destruct (decide (b = 0)) as [->|Hne']; [done|]|].
  { destruct (f64_of_Z_finite b Hb Hne') as (s & m & k & E & _). rewrite Z.add_0_l, E. done. }
  destruct (decide (b = 0)) as [->|Hne'].
  { destruct (f64_of_Z_finite a Ha Hne) as (s & m & k & E & _). rewrite Z.add_0_r, E. done. }
  destruct (f64_of_Z_finite a Ha Hne) as (s & m & k & E & Hk & Ev).
  destruct (f64_of_Z_finite b Hb Hne') as (s' & m' & k' & E' & Hk' & Ev'). rewrite E, E'. cbn [SFadd].
  replace (Z.min (- Z.of_nat k) (- Z.of_nat k')) with (- Z.of_nat (k `max` k')) by lia.
  rewrite (align_int s m k _ a), (align_int s' m' k' _ b), <- Z.mul_add_distr_r by (lia || done).
  apply normalize_exact; [done|lia].
Qed.

Lemma f64_sub_exact a b : exact_int a → exact_int b → exact_int (a - b) → f64_sub (f64_of_Z a) (f64_of_Z b) = f64_of_Z (a - b).
Proof.
  intros Ha Hb Hab. unfold f64_sub. destruct (decide (a = 0)) as [->|Hne]; [destruct (decide (b = 0)) as [->|Hne']; [done|]|].
  { rewrite Z.sub_0_l, f64_of_Z_opp by done. destruct (f64_of_Z_finite b Hb Hne') as (s & m & k & E & _). by rewrite E. }
  destruct (decide (b = 0)) as [->|Hne'].
  { destruct (f64_of_Z_finite a Ha Hne) as (s & m & k & E & _). rewrite Z.sub_0_r, E. done. }
  destruct (f64_of_Z_finite a Ha Hne) as (s & m & k & E & Hk & Ev).
  destruct (f64_of_Z_finite b Hb Hne') as (s' & m' & k' & E' & Hk' & Ev'). rewrite E, E'. cbn [SFsub].
  replace (Z.min (- Z.of_nat k) (- Z.of_nat k')) with (- Z.of_nat (k `max` k')) by lia.
  rewrite (align_int s m k _ a), (align_int s' m' k' _ b), <- Z.mul_sub_distr_r by (lia || done).
  apply normalize_exact; [done|lia].
Qed.

(** *** Reading an integer *)

Lemma take_digits_pretty n acc count s :
  acc = 0 →
  ∃ k, take_digits acc count (str (pretty_N_go n s)) = take_digits (Z.of_N n) (count + Z.of_nat k) (str s) ∧ (n ≠ 0%N → k ≠ 0%nat).
Proof.
  intros ->. revert s. induction (N.lt_wf_0 n) as [n _ IH]. intros s. destruct (decide (n = 0)%N) as [->|Hn].
  { rewrite pretty_N_go_0. exists 0%nat. by rewrite Z.add_0_r. }
  rewrite pretty_N_go_step by lia.
  destruct (IH (n / 10)%N ltac:(apply N.div_lt; lia) (String.String (pretty_N_char (n mod 10)) s)) as (k & -> & _).
  exists (S k). split; [|intros _; done]. cbn [str take_digits]. rewrite pretty_char_code by (apply N.mod_lt; lia).
  rewrite digit_char by (split; [apply N2Z.is_nonneg|]; apply (N2Z.inj_lt _ 10), N.mod_lt; lia).
  pose proof (N.div_mod n 10 ltac:(done)) as E. f_equal; [|lia].
  revert E; generalize (n / 10)%N (n mod 10)%N; lia.
Qed.

Lemma parse_f64_dec n : 0 <= n → parse_f64 (dec n) = Some (f64_of_Z n).
Proof.
  intros Hn. destruct (decide (n = 0)) as [->|Hne]; [reflexivity|].
  assert (dec n = str (pretty_N_go (Z.to_N n) "")) as Ed.
  { unfold dec. assert (pretty n = pretty (Z.to_N n)) as -> by (by destruct n). unfold pretty, pretty_N. case_decide; [lia|done]. }
  destruct (pretty_head (Z.to_N n)) as (b & r & [[Hb Hr]|Hz]); [|lia].
  destruct (take_digits_pretty (Z.to_N n) 0 0 "" eq_refl) as (k & Ht & Hk). rewrite <- Ed in *. rewrite Hb in *.
  unfold parse_f64. destruct (Z.eqb_spec b 45); [lia|]. destruct (Z.eqb_spec b 43); [lia|].
  unfold parse_number. rewrite Ht. cbn [str take_digits]. rewrite Z2N.id by lia.
  destruct (Z.eqb_spec (0 + Z.of_nat k + 0) 0); [lia|]. cbn [parse_exponent].
  unfold f64_of_decimal, f64_of_Z. destruct n as [|m|m]; [done| |lia]. rewrite Z.sub_diag, Z.pow_0_r, Z.mul_1_r. done.
Qed.
