(* ===== verification/W3mmd.v ===== *)
(** The W3MMD statistics a map reports through its actions (spectre-engine, src/w3mmd.rs): records
    [TAG MMD.Dat \0 MISSION \0 KEY \0 VALUE] anywhere in the action data, whose key or mission is
    a statement in words. *)
From S2P Require Import Prelude Utf8 Text F64.

Inductive MmdValue :=
| Number (n : f64)
| Text (t : bytes).

Record W3Mmd := mkMmd {
  mmd_initialized : bool;
  mmd_flags : gmap Z bytes;
  mmd_player_vars : gmap (Z * bytes) MmdValue;
  mmd_events : list bytes }.

Definition new_mmd : W3Mmd := mkMmd false ∅ ∅ [].

Definition set_var (pid : Z) (name : bytes) (v : MmdValue) (s : W3Mmd) : W3Mmd := s <| mmd_player_vars ::= <[(pid, name) := v]> |>.
Definition get_player_val (pid : Z) (name : bytes) (s : W3Mmd) : option MmdValue := mmd_player_vars s !! (pid, name).
Definition is_winner (pid : Z) (s : W3Mmd) : bool :=
  match mmd_flags s !! pid with Some f => bytes_eqb f (str "winner") || bytes_eqb f (str "won") | None => false end.

(** ** Statements *)

(** [VarP pid name op value]; [None] when the function does not return there. *)
Definition var_statement (pid : Z) (name : bytes) (op val_str : option bytes) (int_val : option Z) (s : W3Mmd) : option W3Mmd :=
  match op with
  | Some op_sym =>
    let current := match get_player_val pid name s with Some (Number n) => n | _ => f64_of_Z 0 end in
    let target := match val_str ≫= parse_f64 with Some n => Some n | None => f64_of_Z <$> int_val end in
    if bytes_eqb op_sym (str "=") then
      Some match target, val_str with
           | Some n, _ => set_var pid name (Number n) s
           | None, Some text => set_var pid name (Text text) s
           | None, None => s
           end
    else if bytes_eqb op_sym (str "+=") then (λ n, set_var pid name (Number (f64_add current n)) s) <$> target
    else if bytes_eqb op_sym (str "-=") then (λ n, set_var pid name (Number (f64_sub current n)) s) <$> target
    else (λ n, set_var pid name (Number n) s) <$> parse_f64 op_sym
  | None => (λ v, set_var pid name (Number (f64_of_Z v)) s) <$> int_val
  end.

Section statements.
Context `{Unicode}.

(** The statement is the key if that looks like one, else the mission. *)
Definition statement_of (mission key : bytes) : bytes :=
  if contains (str " ") key || starts_with (str "init") key || starts_with (str "VarP") key || starts_with (str "FlagP") key
  then key else mission.

Definition parse_statement (mission key : bytes) (int_val : option Z) (s : W3Mmd) : bool * W3Mmd :=
  match split_whitespace (statement_of mission key) with
  | [] => (false, s)
  | verb :: parts =>
    let event := if eq_ignore_ascii_case verb (str "Event") then (true, s <| mmd_events ::= λ l, l ++ [join [32] parts] |>) else (false, s) in
    if eq_ignore_ascii_case verb (str "init") then (true, s <| mmd_initialized := true |>)
    else if eq_ignore_ascii_case verb (str "FlagP") then
      match parts with
      | pid_str :: flag :: _ =>
        match parse_uint 8 pid_str with
        | Some pid => (true, s <| mmd_flags ::= <[pid := to_lowercase flag]> |>)
        | None => event
        end
      | _ => event
      end
    else if eq_ignore_ascii_case verb (str "VarP") then
      match parts with
      | pid_str :: name :: rest =>
        match parse_uint 8 pid_str with
        | None => (false, s)
        | Some pid => match var_statement pid name (rest !! 0%nat) (rest !! 1%nat) int_val s with
                      | Some s => (true, s)
                      | None => event
                      end
        end
      | _ => (false, s)
      end
    else event
  end.

(** ** Records *)

Definition supported_tag (b : Z) : bool := (b =? 107) || (b =? 108) || (b =? 109) || (b =? 111).

(** The bytes before the first zero, and those after it. *)
Definition until_nul (l : bytes) : option (bytes * bytes) :=
  n ← position (λ b, b =? 0) l; Some (take n l, drop (S n) l).

Definition mmd_sig (l : bytes) : bool :=
  match l with
  | tag :: l => supported_tag tag && eq_ignore_ascii_case (take 7 l) (str "mmd.dat") && bool_decide (l !! 7%nat = Some 0)
  | [] => false
  end.

(** The record in front: its tag, mission and key, and the bytes after the key. *)
Definition mmd_record (l : bytes) : option (Z * bytes * bytes * bytes) :=
  if mmd_sig l then
    tag ← head l;
    '(mission, l) ← until_nul (drop 9 l);
    '(key, l) ← until_nul l;
    Some (tag, mission, key, l)
  else None.

Definition record_int (tag : Z) (l : bytes) : option Z :=
  if negb (tag =? 111) && (4 <=? zlen l) then Some (le_val (take 4 l)) else None.
Definition value_len (tag : Z) : nat := if tag =? 111 then 0 else 4.

(** The bytes left to look at; what lies beyond the end is nothing. *)
Fixpoint mmd_loop (fuel : nat) (l : bytes) (any_parsed : bool) (s : W3Mmd) : bool * W3Mmd :=
  match fuel with
  | O => (any_parsed, s)
  | S fuel =>
    if zlen l <? 9 then (any_parsed, s) else
    match mmd_record l with
    | Some (tag, mission, key, rest) =>
      let '(parsed, s) := parse_statement (from_utf8_lossy mission) (from_utf8_lossy key) (record_int tag rest) s in
      mmd_loop fuel (drop (value_len tag) rest) (any_parsed || parsed) s
    | None => mmd_loop fuel (tail l) any_parsed s
    end
  end.

Definition process_mmd_action (action_data : bytes) (s : W3Mmd) : bool * W3Mmd := mmd_loop (length action_data) action_data false s.

(** ** The fuel is enough *)

Lemma until_nul_length l a r : until_nul l = Some (a, r) → (length r < length l)%nat.
Proof.
  unfold until_nul. intros (n & Hn & [= <- <-])%bind_Some. apply position_lt in Hn. rewrite length_drop. lia.
Qed.

Lemma mmd_record_length l tag mission key rest : mmd_record l = Some (tag, mission, key, rest) → (length rest < length l)%nat.
Proof.
  unfold mmd_record. destruct (mmd_sig l); [|done]. intros (t & _ & ([m r] & H1 & ([k r'] & H2 & [= <- <- <- <-])%bind_Some)%bind_Some)%bind_Some.
  apply until_nul_length in H1, H2. rewrite length_drop in H1. lia.
Qed.

Lemma mmd_loop_enough f g l any s : (length l <= f)%nat → (length l <= g)%nat → mmd_loop f l any s = mmd_loop g l any s.
Proof.
  revert f g any s. induction l as [l IH] using list_length_ind. intros f g any s Hf Hg.
  destruct f as [|f], g as [|g]; [done|..].
  1, 2: destruct l; [done|cbn in *; lia].
  cbn [mmd_loop]. destruct (Z.ltb_spec (zlen l) 9); [done|]. destruct l as [|x l']; [done|].
  destruct (mmd_record (x :: l')) as [[[[tag mission] key] rest]|] eqn:Hr.
  - apply mmd_record_length in Hr. destruct (parse_statement _ _ _ s) as [parsed s'].
    apply IH; rewrite length_drop; lia.
  - cbn in *. apply IH; lia.
Qed.

Lemma mmd_loop_unfold l any s :
  mmd_loop (length l) l any s =
  if zlen l <? 9 then (any, s) else
  match mmd_record l with
  | Some (tag, mission, key, rest) =>
    let '(parsed, s) := parse_statement (from_utf8_lossy mission) (from_utf8_lossy key) (record_int tag rest) s in
    mmd_loop (length (drop (value_len tag) rest)) (drop (value_len tag) rest) (any || parsed) s
  | None => mmd_loop (length (tail l)) (tail l) any s
  end.
Proof.
  destruct l as [|x l]; [done|]. cbn [length mmd_loop]. destruct (zlen (x :: l) <? 9); [done|].
  destruct (mmd_record (x :: l)) as [[[[tag mission] key] rest]|] eqn:Hr; [|done].
  apply mmd_record_length in Hr. destruct (parse_statement _ _ _ s) as [parsed s'].
  apply mmd_loop_enough; rewrite ?length_drop; cbn in *; lia.
Qed.
End statements.

(** ** What the map writes *)

Record MmdRecord := mkRecord { rec_tag : Z; rec_mission : bytes; rec_key : bytes; rec_value : Z }.

Definition no_nul (l : bytes) : Prop := Forall (λ b, b ≠ 0) l.
Definition record_ok (r : MmdRecord) : Prop :=
  supported_tag (rec_tag r) = true ∧ no_nul (rec_mission r) ∧ no_nul (rec_key r) ∧ 0 <= rec_value r < 2 ^ 32.
Definition encode_record (r : MmdRecord) : bytes :=
  [rec_tag r] ++ str "MMD.Dat" ++ [0] ++ rec_mission r ++ [0] ++ rec_key r ++ [0]
  ++ (if rec_tag r =? 111 then [] else le_bytes 4 (rec_value r)).
(** A record that stores a string has no number. *)
Definition record_number (r : MmdRecord) : option Z := if rec_tag r =? 111 then None else Some (rec_value r).

Lemma until_nul_app a l : no_nul a → until_nul (a ++ 0 :: l) = Some (a, l).
Proof.
  intros Ha. unfold until_nul. rewrite position_app_r; [|apply position_None; eapply Forall_impl; [exact Ha|intros b Hb; by apply Z.eqb_neq]].
  cbn [position Z.eqb fmap option_fmap option_map mbind option_bind].
  change (Some ?x ≫= ?f) with (f x). cbn beta. rewrite Nat.add_0_r, take_app_length.
  rewrite drop_app_ge by lia. by replace (S (length a) - length a)%nat with 1%nat by lia.
Qed.

Lemma encode_record_sig r l : supported_tag (rec_tag r) = true → mmd_sig (encode_record r ++ l) = true.
Proof. intros Ht. unfold encode_record, mmd_sig. cbn [app str]. rewrite Ht. reflexivity. Qed.

Lemma mmd_record_encode r l :
  record_ok r →
  mmd_record (encode_record r ++ l)
  = Some (rec_tag r, rec_mission r, rec_key r, (if rec_tag r =? 111 then [] else le_bytes 4 (rec_value r)) ++ l).
Proof.
  intros (Ht & Hm & Hk & _). unfold mmd_record. rewrite encode_record_sig by done.
  unfold encode_record. rewrite <- !app_assoc. cbn [str app head drop mbind option_bind].
  rewrite drop_0, until_nul_app by done. cbn. by rewrite until_nul_app.
Qed.

(** A record starts here: a tag, the signature in any case and two texts that end. *)
Definition starts_record (l : bytes) : Prop :=
  ∃ tag sig mission key rest,
    l = [tag] ++ sig ++ [0] ++ mission ++ [0] ++ key ++ [0] ++ rest ∧
    (tag = 107 ∨ tag = 108 ∨ tag = 109 ∨ tag = 111) ∧ map to_ascii_lower sig = str "mmd.dat" ∧ no_nul mission ∧ no_nul key.

(** Action data in which these records stand, in this order, with other bytes before, between and
    after them. *)
Inductive laid_out : bytes → list MmdRecord → Prop :=
| laid_end : laid_out [] []
| laid_other b l rs : ¬ starts_record (b :: l) → laid_out l rs → laid_out (b :: l) rs
| laid_record r l rs : record_ok r → laid_out l rs → laid_out (encode_record r ++ l) (r :: rs).

Lemma until_nul_some l a r : until_nul l = Some (a, r) → l = a ++ 0 :: r ∧ no_nul a.
Proof.
  unfold until_nul. intros (n & Hn & [= <- <-])%bind_Some. apply position_Some in Hn as (x & Hx & ->%Z.eqb_eq & Hmin).
  split; [by rewrite (take_drop_middle l n 0 Hx)|]. apply Forall_forall. intros b (j & Hj)%list_elem_of_lookup_1.
  apply lookup_take_Some in Hj as [Hj Hlt]. apply Z.eqb_neq. by apply (Hmin j).
Qed.

Lemma supported_tag_spec b : supported_tag b = true ↔ b = 107 ∨ b = 108 ∨ b = 109 ∨ b = 111.
Proof. unfold supported_tag. rewrite !orb_true_iff, !Z.eqb_eq. tauto. Qed.

Lemma mmd_sig_spec l :
  mmd_sig l = true ↔ ∃ tag sig rest, l = [tag] ++ sig ++ 0 :: rest ∧ supported_tag tag = true ∧ map to_ascii_lower sig = str "mmd.dat".
Proof.
  unfold mmd_sig, eq_ignore_ascii_case. split.
  - destruct l as [|tag l]; [done|]. intros [[Ht Hs%bytes_eqb_eq]%andb_true_iff H7%bool_decide_eq_true]%andb_true_iff.
    exists tag, (take 7 l), (drop 8 l). split; [|done]. cbn [app]. by rewrite (take_drop_middle l 7 0 H7).
  - intros (tag & sig & rest & -> & Ht & Hs). assert (length sig = 7%nat) as Hlen by (by rewrite <- (length_map to_ascii_lower), Hs).
    cbn [app]. rewrite Ht, take_app_le, take_ge, Hs, lookup_app_r, Hlen by lia. reflexivity.
Qed.

Lemma mmd_record_none l : mmd_record l = None ↔ ¬ starts_record l.
Proof.
  unfold mmd_record. split.
  - intros Hn (tag & sig & mission & key & rest & -> & Ht%supported_tag_spec & Hs & Hm & Hk).
    assert (length sig = 7%nat) as Hlen by (by rewrite <- (length_map to_ascii_lower), Hs).
    assert (mmd_sig ([tag] ++ sig ++ [0] ++ mission ++ [0] ++ key ++ [0] ++ rest) = true) as Hsig by (by apply mmd_sig_spec; exists tag, sig, (mission ++ [0] ++ key ++ [0] ++ rest)).
    rewrite Hsig in Hn. cbn [app head drop mbind option_bind] in Hn. rewrite drop_app_ge, Hlen in Hn by lia.
    cbn [Nat.sub drop] in Hn. rewrite drop_0, until_nul_app in Hn by done. cbn in Hn. by rewrite until_nul_app in Hn.
  - intros Hn. destruct (mmd_sig l) eqn:Hsig; [|done]. apply mmd_sig_spec in Hsig as (tag & sig & rest & -> & Ht & Hs).
    assert (length sig = 7%nat) as Hlen by (by rewrite <- (length_map to_ascii_lower), Hs).
    cbn [app head drop mbind option_bind]. rewrite drop_app_ge, Hlen by lia. cbn [Nat.sub drop]. rewrite drop_0.
    destruct (until_nul rest) as [[m l1]|] eqn:E1; [|done]. cbn. destruct (until_nul l1) as [[k l2]|] eqn:E2; [|done].
    apply until_nul_some in E1 as [-> Hm], E2 as [-> Hk]. exfalso. apply Hn. exists tag, sig, m, k, l2.
    apply supported_tag_spec in Ht. done.
Qed.

Section scanning.
Context `{Unicode}.

(** What a record does to the statistics. *)
Definition apply_record (st : bool * W3Mmd) (r : MmdRecord) : bool * W3Mmd :=
  let '(parsed, s) := parse_statement (from_utf8_lossy (rec_mission r)) (from_utf8_lossy (rec_key r)) (record_number r) st.2 in
  (st.1 || parsed, s).

Lemma record_number_encode r l :
  record_ok r →
  record_int (rec_tag r) ((if rec_tag r =? 111 then [] else le_bytes 4 (rec_value r)) ++ l) = record_number r
  ∧ drop (value_len (rec_tag r)) ((if rec_tag r =? 111 then [] else le_bytes 4 (rec_value r)) ++ l) = l.
Proof.
  intros (_ & _ & _ & Hv). unfold record_int, record_number, value_len. destruct (rec_tag r =? 111); [done|]. cbn [negb andb].
  rewrite zlen_app, zlen_le_bytes. pose proof (zlen_nonneg l). destruct (Z.leb_spec 4 (Z.of_nat 4 + zlen l)); [|lia].
  split; [|done]. rewrite take_app_le by (by rewrite length_le_bytes). rewrite take_ge by (by rewrite length_le_bytes).
  rewrite le_val_le_bytes. f_equal. by apply Z.mod_small.
Qed.

Lemma loop_record r l any s :
  record_ok r →
  mmd_loop (length (encode_record r ++ l)) (encode_record r ++ l) any s
  = let st := apply_record (any, s) r in mmd_loop (length l) l st.1 st.2.
Proof.
  intros Hr. rewrite mmd_loop_unfold, mmd_record_encode by done. destruct (record_number_encode r l Hr) as [-> ->].
  assert (9 <= zlen (encode_record r ++ l)) as Hlen.
  { unfold encode_record. rewrite !zlen_app. change (zlen (str "MMD.Dat")) with 7. change (zlen [rec_tag r]) with 1. change (zlen [0]) with 1.
    pose proof (zlen_nonneg l). pose proof (zlen_nonneg (rec_mission r)). pose proof (zlen_nonneg (rec_key r)).
    pose proof (zlen_nonneg (if rec_tag r =? 111 then [] else le_bytes 4 (rec_value r))). lia. }
  destruct (Z.ltb_spec (zlen (encode_record r ++ l)) 9); [lia|]. unfold apply_record. cbn [fst snd].
  by destruct (parse_statement _ _ _ s).
Qed.

(** Bytes in front of which there is no record are passed over one by one. *)
Lemma loop_other b l rs any s :
  ¬ starts_record (b :: l) → laid_out l rs → mmd_loop (length (b :: l)) (b :: l) any s = mmd_loop (length l) l any s.
Proof.
  intros Hb Hl. rewrite mmd_loop_unfold, (proj2 (mmd_record_none (b :: l))) by done. cbn [tail].
  destruct (Z.ltb_spec (zlen (b :: l)) 9) as [Hlt|]; [|done]. rewrite zlen_cons in Hlt.
  rewrite mmd_loop_unfold. destruct (Z.ltb_spec (zlen l) 9); [done|lia].
Qed.

Lemma loop_laid_out l rs st : laid_out l rs → mmd_loop (length l) l st.1 st.2 = foldl apply_record st rs.
Proof.
  intros Hl. revert st. induction Hl as [|b l rs Hb Hl IH|r l rs Hr _ IH]; intros st.
  - by destruct st.
  - by rewrite (loop_other b l rs).
  - rewrite loop_record by done. cbv zeta. rewrite IH. by destruct st.
Qed.
End scanning.

(** The scanner finds exactly the records: whatever other bytes are around the records of an
    action, as long as no record starts among them, each record is taken in turn with its mission,
    its key and (for the tags that store one) its number, the next one being looked for after it,
    and the action counts as parsed when one of the statements does. *)
Theorem mmd_scan `{Unicode} (data : bytes) (rs : list MmdRecord) (s : W3Mmd) :
  laid_out data rs → process_mmd_action data s = foldl apply_record (false, s) rs.
Proof. intros Hl. exact (loop_laid_out data rs (false, s) Hl). Qed.

(** ** Counters *)

Inductive CounterOp :=
| OpSet (n : Z)
| OpAdd (n : Z)
| OpSub (n : Z).

Definition op_operand (o : CounterOp) : Z := match o with OpSet n | OpAdd n | OpSub n => n end.
Definition op_symbol (o : CounterOp) : bytes := match o with OpSet _ => str "=" | OpAdd _ => str "+=" | OpSub _ => str "-=" end.
Definition op_result (z : Z) (o : CounterOp) : Z := match o with OpSet n => n | OpAdd n => z + n | OpSub n => z - n end.

Definition counter_words (pid : Z) (name : bytes) (o : CounterOp) : list bytes :=
  [str "VarP"; dec pid; name; op_symbol o; dec (op_operand o)].

(** The operations with their operands, and every value on the way, below 2^53. *)
Fixpoint ops_exact (z : Z) (ops : list CounterOp) : Prop :=
  match ops with
  | [] => True
  | o :: ops => 0 <= op_operand o ∧ exact_int (op_operand o) ∧ exact_int (op_result z o) ∧ ops_exact (op_result z o) ops
  end.

Lemma op_symbol_word o : is_word (op_symbol o).
Proof. destruct o; (apply is_word_ascii; [done|by apply (bool_decide_unpack _)]). Qed.

Lemma counter_words_ok pid name o : 0 <= pid → is_word name → 0 <= op_operand o → Forall is_word (counter_words pid name o).
Proof.
  intros Hp Hn Ho. unfold counter_words. constructor; [apply is_word_ascii; [done|by apply (bool_decide_unpack _)]|].
  constructor; [by apply dec_word|]. constructor; [done|]. constructor; [apply op_symbol_word|]. constructor; [by apply dec_word|constructor].
Qed.

Section counters.
Context `{Unicode}.

(** What the variable counts: a text or nothing counts as 0. *)
Definition counter_is (pid : Z) (name : bytes) (z : Z) (s : W3Mmd) : Prop :=
  match get_player_val pid name s with Some (Number n) => n | _ => f64_of_Z 0 end = f64_of_Z z.

Lemma get_set_var pid name v s : get_player_val pid name (set_var pid name v s) = Some v.
Proof. unfold get_player_val, set_var. cbn. apply lookup_insert_eq. Qed.

Lemma set_set_var pid name v w s : set_var pid name w (set_var pid name v s) = set_var pid name w s.
Proof. apply (f_equal (λ m, mkMmd (mmd_initialized s) (mmd_flags s) m (mmd_events s))), insert_insert_eq. Qed.

Lemma counter_statement pid name o mission int_val z s :
  0 <= pid < 256 → is_word name → 0 <= op_operand o → exact_int (op_operand o) → exact_int z → exact_int (op_result z o) →
  counter_is pid name z s →
  parse_statement mission (join [32] (counter_words pid name o)) int_val s
  = (true, set_var pid name (Number (f64_of_Z (op_result z o))) s).
Proof.
  intros Hp Hn Ho Hoe Hz Hr Hc. unfold parse_statement.
  assert (statement_of mission (join [32] (counter_words pid name o)) = join [32] (counter_words pid name o)) as ->.
  { unfold statement_of. assert (starts_with (str "VarP") (join [32] (counter_words pid name o)) = true) as -> by done.
    by rewrite !orb_true_r. }
  rewrite split_join by (by apply counter_words_ok; lia || done). unfold counter_words.
  cbn [list_lookup lookup]. rewrite parse_dec by lia. change (2 ^ 8) with 256. destruct (Z.ltb_spec pid 256); [|lia].
  unfold counter_is in Hc. unfold var_statement. cbn.
  rewrite parse_f64_dec by done. unfold set_var.
  destruct o as [n|n|n]; cbn in *; [done| |]; rewrite Hc; [rewrite f64_add_exact by done|rewrite f64_sub_exact by done]; done.
Qed.
End counters.

Lemma join_words_valid ws : Forall is_word ws → valid_utf8 (join [32] ws).
Proof.
  induction 1 as [|w ws (_ & _ & Hw) _ IH]; [constructor|]. destruct ws as [|w' ws]; [done|].
  change (join [32] (w :: w' :: ws)) with (w ++ [32] ++ join [32] (w' :: ws)).
  apply valid_utf8_app; [done|]. apply valid_utf8_app; [|done]. apply valid_utf8_ascii. repeat constructor; lia.
Qed.

(** The record that carries an operation on the variable, with any tag, mission and number. *)
Definition counter_record (pid : Z) (name : bytes) (r : MmdRecord) (o : CounterOp) : Prop :=
  rec_key r = join [32] (counter_words pid name o).

Lemma counter_records `{Unicode} pid name rs ops z any s :
  0 <= pid < 256 → is_word name → exact_int z → counter_is pid name z s → ops_exact z ops → Forall2 (counter_record pid name) rs ops →
  foldl apply_record (any, s) rs
  = match ops with
    | [] => (any, s)
    | _ => (true, set_var pid name (Number (f64_of_Z (foldl op_result z ops))) s)
    end.
Proof.
  intros Hp Hn. revert ops z any s. induction rs as [|r rs IH]; intros ops z any s Hz Hc He Hall; inversion Hall as [|? o ? ops' Hkey Hops]; subst; [done|].
  destruct He as (H0 & Hoe & Hr & He). cbn [foldl].
  assert (apply_record (any, s) r = (true, set_var pid name (Number (f64_of_Z (op_result z o))) s)) as ->.
  { unfold apply_record. cbn [fst snd]. rewrite Hkey, (from_utf8_lossy_valid (join _ _)) by (by apply join_words_valid, counter_words_ok; lia || done).
    rewrite (counter_statement _ _ _ _ _ z) by (lia || done). by rewrite orb_true_r. }
  assert (counter_is pid name (op_result z o) (set_var pid name (Number (f64_of_Z (op_result z o))) s)) as Hc'.
  { unfold counter_is. by rewrite get_set_var. }
  rewrite (IH ops' (op_result z o)) by done. destruct ops' as [|o' ops']; [done|]. by rewrite set_set_var.
Qed.

(** C11: a counter of W3MMD is exact below 2^53 although it is kept as a floating-point number.
    Let some action data consist of records, each with any tag, mission and number, and of other
    bytes before, between and after them, arbitrary except that no record starts at one of them
    (a tag, the signature and two texts that end; a part of that is allowed). If the statements of
    the records set, raise and lower a variable of a player by decimal integers and no operand and
    no value on the way reaches 2^53, the variable ends up as the number that exact arithmetic
    gives, every statement counts as parsed, and nothing else of the statistics changes. *)
Theorem mmd_counter_exact `{Unicode} (pid : Z) (name : bytes) (data : bytes) (rs : list MmdRecord) (ops : list CounterOp)
    (z : Z) (s : W3Mmd) :
  0 <= pid < 256 → is_word name → exact_int z → counter_is pid name z s →
  laid_out data rs → ops ≠ [] → ops_exact z ops → Forall2 (counter_record pid name) rs ops →
  process_mmd_action data s = (true, set_var pid name (Number (f64_of_Z (foldl op_result z ops))) s).
Proof.
  intros Hp Hn Hz Hc Hl Hne He Hall. etrans; [exact (loop_laid_out data rs (false, s) Hl)|].
  rewrite (counter_records pid name rs ops z) by done. by destruct ops.
Qed.

(** Where a record stores a number, a variable is never set to a text: the number is preferred. *)
Lemma mmd_text_lost pid name text v s :
  parse_f64 text = None →
  var_statement pid name (Some (str "=")) (Some text) (Some v) s = Some (set_var pid name (Number (f64_of_Z v)) s).
Proof. intros Ht. unfold var_statement. cbn. by rewrite Ht. Qed.

(** ** Examples *)

Definition score_ops : list CounterOp := [OpSet 5; OpAdd 3; OpSub 10].
Definition score_record (o : CounterOp) : MmdRecord := mkRecord 107 (str "val:0") (join [32] (counter_words 3 (str "kills") o)) 7.
Definition score_records : list MmdRecord := map score_record score_ops.

(** Three records, with the start of one that is broken off in front of each. *)
Definition score_data : bytes := concat (map (λ r, str "kMMD.D" ++ encode_record r) score_records) ++ str "kl".

Lemma laid_before j l rs :
  forallb (λ i, bool_decide (mmd_record (drop i (j ++ l)) = None)) (seq 0 (length j)) = true → laid_out l rs → laid_out (j ++ l) rs.
Proof.
  intros Hj Hl. assert (∀ i, (i < length j)%nat → ¬ starts_record (drop i (j ++ l))) as Hi.
  { intros i Hi. apply mmd_record_none. rewrite forallb_forall in Hj. eapply bool_decide_eq_true, Hj, in_seq. lia. }
  clear Hj. induction j as [|b j IH]; [done|]. cbn [app]. apply laid_other; [apply (Hi 0%nat); cbn; lia|].
  apply IH. intros i Hlt. apply (Hi (S i)). cbn. lia.
Qed.

Lemma score_laid_out : laid_out score_data score_records.
Proof.
  unfold score_data, score_records, score_ops. cbn [map concat]. rewrite <- !app_assoc.
  do 3 (apply laid_before; [vm_compute; reflexivity|]; apply laid_record;
        [split; [done|]; split; [by apply (bool_decide_unpack _)|]; split; [by apply (bool_decide_unpack _)|cbn; lia]|]).
  cbn [app]. rewrite <- (app_nil_r (str "kl")). apply laid_before; [vm_compute; reflexivity|constructor].
Qed.

(** The counter goes below zero. *)
Lemma mmd_counter_exact_witness :
  get_player_val 3 (str "kills") (process_mmd_action (H := plain_unicode) score_data new_mmd).2 = Some (Number (f64_of_Z (-2))).
Proof.
  rewrite (mmd_counter_exact (H := plain_unicode) 3 (str "kills") score_data score_records score_ops 0 new_mmd).
  - apply get_set_var.
  - lia.
  - apply is_word_ascii; [done|by apply (bool_decide_unpack _)].
  - unfold exact_int. lia.
  - reflexivity.
  - exact score_laid_out.
  - done.
  - cbn. unfold exact_int. lia.
  - repeat constructor.
Defined.
