(* ===== verification/Store.v ===== *)
(** The database handle (spectre-store, src/writer.rs): a channel on which the game offers
    commands to a thread of their own.

    A handle is the list of the commands offered so far: nothing comes back from a command,
    and whether the thread's queue had room for it is not seen by the game.  What the thread
    does with the commands, and how it answers a query, is [Database]. *)
From S2P Require Import Prelude F64.

Record Ban := mkBan { bn_name : bytes; bn_ip : bytes; bn_admin : bytes; bn_reason : bytes; bn_created : Z }.

Record DotAPlayerRecord := mkDotARecord {
  dr_colour : Z; dr_name : bytes; dr_hero : bytes; dr_kills : Z; dr_deaths : Z; dr_assists : Z;
  dr_creep_kills : Z; dr_creep_denies : Z; dr_neutral_kills : Z; dr_tower_kills : Z;
  dr_rax_kills : Z; dr_courier_kills : Z }.

Record DotAStatsSummary := mkSummary {
  ss_games : Z; ss_wins : Z; ss_losses : Z; ss_kills : Z; ss_deaths : Z; ss_assists : Z; ss_creep_kills : Z; ss_creep_denies : Z;
  ss_neutral_kills : Z; ss_tower_kills : Z; ss_rax_kills : Z }.

Inductive StoreCmd :=
| AddBan (name ip admin reason : bytes)
| RemoveBan (name : bytes)
| AddAdmin (name server : bytes)
| RemoveAdmin (name : bytes)
| LogGame (name map : bytes) (started ended : Z) (players : list bytes)
| LogDotAGame (game_name : bytes) (winner duration tree_hp throne_hp : Z)
    (players : list DotAPlayerRecord)
| RecordDownload (map : bytes) (map_size : Z) (name ip : bytes) (spoofed downloaded duration : Z)
| LogW3MmdVar (game_name : bytes) (pid : Z) (var_name : bytes) (val_num : option f64) (val_str : option bytes).

Definition Store := list StoreCmd.

Definition ban (name ip admin reason : bytes) (s : Store) : Store := s ++ [AddBan name ip admin reason].
Definition unban (name : bytes) (s : Store) : Store := s ++ [RemoveBan name].
Definition add_admin (name server : bytes) (s : Store) : Store := s ++ [AddAdmin name server].
Definition remove_admin (name : bytes) (s : Store) : Store := s ++ [RemoveAdmin name].
Definition log_game (name map : bytes) (started ended : Z) (players : list bytes) (s : Store) : Store :=
  s ++ [LogGame name map started ended players].
Definition log_dota_game (game_name : bytes) (winner duration tree_hp throne_hp : Z)
    (players : list DotAPlayerRecord) (s : Store) : Store :=
  s ++ [LogDotAGame game_name winner duration tree_hp throne_hp players].
Definition record_download (map : bytes) (map_size : Z) (name ip : bytes)
    (spoofed downloaded duration : Z) (s : Store) : Store :=
  s ++ [RecordDownload map map_size name ip spoofed downloaded duration].
Definition log_w3mmd_var (game_name : bytes) (pid : Z) (var_name : bytes) (val_num : option f64) (val_str : option bytes)
    (s : Store) : Store :=
  s ++ [LogW3MmdVar game_name pid var_name val_num val_str].
