(* ===== verification/BytesExt.v ===== *)
(** The byte-level primitives of spectre-protocol: [ProtoError] (error.rs), the
    [BufExt] readers, [put_cstring] and the stat-string codec (bytes_ext.rs). *)
From S2P Require Import Prelude Utf8.

(** ** Errors

    [Io] carries a [std::io::Error] no modelled code builds; its kind is kept. *)
Inductive ProtoError :=
| Truncated (need have : Z)
| UnterminatedString
| BadValue (what : string)
| TooLarge (len : Z)
| Io (kind : string).

#[export] Instance ProtoError_eq_dec : EqDecision ProtoError.
Proof. solve_decision. Defined.

(** ** Readers

    A reader consumes bytes from the front of a buffer: [bytes::Buf] with the
    [BufExt] methods.  [x ← m; k] is [let x = m?; k]. *)
Definition reader (A : Type) : Type := bytes → result ProtoError (A * bytes).

#[export] Instance reader_ret : MRet reader := fun A a b => Ok (a, b).
#[export] Instance reader_bind : MBind reader :=
  fun A B k m b => match m b with Ok (a, b') => k a b' | Err e => Err e end.

Definition fail {A} (e : ProtoError) : reader A := fun _ => Err e.
(** [b.remaining()], [b.len()]. *)
Definition remaining : reader Z := fun b => Ok (zlen b, b).
(** The decoder applied to a payload; the unread rest is dropped. *)
Definition run {A} (r : reader A) (payload : bytes) : result ProtoError A := fst <$> r payload.

Definition try_get_bytes (n : Z) : reader bytes := fun b =>
  if zlen b <? n then Err (Truncated n (zlen b))
  else Ok (take (Z.to_nat n) b, drop (Z.to_nat n) b).

Definition try_get_u8 : reader Z := fun b =>
  match b with
  | [] => Err (Truncated 1 0)
  | x :: b => Ok (x, b)
  end.

Definition try_get_u16_le : reader Z := fun b =>
  if zlen b <? 2 then Err (Truncated 2 (zlen b)) else Ok (le_val (take 2 b), drop 2 b).

Definition try_get_u32_le : reader Z := fun b =>
  if zlen b <? 4 then Err (Truncated 4 (zlen b)) else Ok (le_val (take 4 b), drop 4 b).

(** The [loop] of [try_get_cstring], [out] the bytes read so far. *)
Fixpoint cstring_loop (out b : bytes) : result ProtoError (bytes * bytes) :=
  match b with
  | [] => Err UnterminatedString
  | x :: b => if x =? 0 then Ok (from_utf8_lossy out, b) else cstring_loop (out ++ [x]) b
  end.
Definition try_get_cstring : reader bytes := cstring_loop [].

Definition put_cstring (s : bytes) : bytes := s ++ [0].

(** A string that survives a NUL-terminated encoding. *)
Definition cstring_ok (s : bytes) : Prop := valid_utf8 s ∧ Forall (λ b, b ≠ 0) s.

(** ** What a reader does on a well-formed encoding

    [exact r bs a]: the reader takes exactly the bytes [bs], returns [a] and
    leaves the rest; and on every proper prefix of [bs] it reports an error
    instead of reading past the end. *)
Record exact {A} (r : reader A) (bs : bytes) (a : A) : Prop := Exact {
  exact_read : ∀ rest, r (bs ++ rest) = Ok (a, rest);
  exact_cut : ∀ p q, bs = p ++ q → q ≠ [] → is_err (r p);
}.

Lemma exact_run {A} (r : reader A) bs a : exact r bs a → run r bs = Ok a.
Proof.
  intros [H _]. unfold run. specialize (H []). rewrite app_nil_r in H. by rewrite H.
Qed.

Lemma exact_run_app {A} (r : reader A) bs a rest : exact r bs a → run r (bs ++ rest) = Ok a.
Proof. intros [H _]. unfold run. by rewrite H. Qed.

Lemma exact_run_cut {A} (r : reader A) bs a n :
  exact r bs a → (n < length bs)%nat → is_err (run r (take n bs)).
Proof.
  intros [_ H] Hn. destruct (H (take n bs) (drop n bs)) as [e He].
  - by rewrite take_drop.
  - intros Hd. apply (f_equal length) in Hd. rewrite length_drop in Hd. simpl in Hd. lia.
  - exists e. unfold run. by rewrite He.
Qed.

Lemma exact_ret {A} (a : A) : exact (mret a) [] a.
Proof. split; [done|]. intros [|] [|]; naive_solver. Qed.

Lemma exact_bind {A B} (m : reader A) (k : A → reader B) bs1 bs2 a b :
  exact m bs1 a → exact (k a) bs2 b → exact (m ≫= k) (bs1 ++ bs2) b.
Proof.
  intros [R1 C1] [R2 C2]. split.
  - intros rest. unfold mbind, reader_bind. rewrite <- app_assoc, R1. apply R2.
  - intros p q Hpq Hq. unfold mbind, reader_bind.
    destruct (app_eq_inv _ _ _ _ (eq_sym Hpq)) as [(t & -> & ->)|(t & -> & ->)].
    + rewrite R1. by apply (C2 t q).
    + destruct t as [|x t].
      * rewrite app_nil_r in *. specialize (R1 []). rewrite app_nil_r in R1. rewrite R1.
        by apply (C2 [] bs2).
      * destruct (C1 p (x :: t)) as [e ->]; [done|done|]. by exists e.
Qed.

Lemma exact_bind_nil {A B} (m : reader A) (k : A → reader B) bs a b :
  exact m [] a → exact (k a) bs b → exact (m ≫= k) bs b.
Proof. apply (exact_bind m k [] bs). Qed.

Lemma exact_bind_last {A B} (m : reader A) (k : A → reader B) bs a b :
  exact m bs a → exact (k a) [] b → exact (m ≫= k) bs b.
Proof. intros. rewrite <- (app_nil_r bs). by eapply exact_bind. Qed.

Lemma exact_eq {A} (r : reader A) bs bs' a a' :
  exact r bs a → bs = bs' → a = a' → exact r bs' a'.
Proof. by intros ? -> ->. Qed.

Lemma exact_u8 x : exact try_get_u8 [x] x.
Proof.
  split; [done|]. intros [|y p] q H Hq; [by eexists|].
  injection H as _ H. symmetry in H. apply app_nil in H as [_ ->]. done.
Qed.

Lemma exact_bytes bs n : zlen bs = n → exact (try_get_bytes n) bs bs.
Proof.
  intros <-. unfold try_get_bytes. split.
  - intros rest. rewrite zlen_app. pose proof (zlen_nonneg rest).
    destruct (Z.ltb_spec (zlen bs + zlen rest) (zlen bs)); [lia|].
    unfold zlen. by rewrite Nat2Z.id, take_app_length, drop_app_length.
  - intros p q -> Hq. rewrite zlen_app.
    destruct (Z.ltb_spec (zlen p) (zlen p + zlen q)); [by eexists|].
    destruct q; [done|]. rewrite zlen_cons in *. pose proof (zlen_nonneg q). lia.
Qed.

Lemma exact_fixed n (r : reader Z) bs x :
  (∀ b, r b = if zlen b <? Z.of_nat n then Err (Truncated (Z.of_nat n) (zlen b))
              else Ok (le_val (take n b), drop n b)) →
  length bs = n → le_val bs = x → exact r bs x.
Proof.
  intros Hr Hlen <-. destruct (exact_bytes bs (Z.of_nat n)) as [R C]; [unfold zlen; lia|].
  split.
  - intros rest. specialize (R rest). rewrite Hr. unfold try_get_bytes in R.
    rewrite Nat2Z.id in R. destruct (_ <? _); [done|].
    injection R as R1 R2. by rewrite R1, R2.
  - intros p q Hpq Hq. destruct (C p q Hpq Hq) as [e He]. rewrite Hr.
    unfold try_get_bytes in He. destruct (_ <? _); [by eexists|done].
Qed.

Lemma exact_u16 x : u16 x → exact try_get_u16_le (le_bytes 2 x) x.
Proof.
  intros. apply (exact_fixed 2); [done|apply length_le_bytes|by apply le_val_round2].
Qed.

Lemma exact_u32 x : u32 x → exact try_get_u32_le (le_bytes 4 x) x.
Proof.
  intros. apply (exact_fixed 4); [done|apply length_le_bytes|by apply le_val_round4].
Qed.

Lemma cstring_loop_app out s rest :
  Forall (λ b, b ≠ 0) s →
  cstring_loop out (s ++ [0] ++ rest) = Ok (from_utf8_lossy (out ++ s), rest).
Proof.
  intros Hs. revert out. induction Hs as [|x s Hx Hs IH]; intros out; simpl.
  - by rewrite app_nil_r.
  - destruct (Z.eqb_spec x 0); [done|]. setoid_rewrite IH. by rewrite <- app_assoc.
Qed.

Lemma cstring_loop_unterminated out s :
  Forall (λ b, b ≠ 0) s → cstring_loop out s = Err UnterminatedString.
Proof.
  intros Hs. revert out. induction Hs as [|x s Hx Hs IH]; intros out; simpl; [done|].
  destruct (Z.eqb_spec x 0); [done|apply IH].
Qed.

(** Any NUL-free bytes come back through the lossy conversion. *)
Lemma exact_cstring_lossy s :
  Forall (λ b, b ≠ 0) s → exact try_get_cstring (put_cstring s) (from_utf8_lossy s).
Proof.
  intros Hs. unfold try_get_cstring, put_cstring. split.
  - intros rest. rewrite <- app_assoc. by rewrite cstring_loop_app.
  - intros p q Hpq Hq. exists UnterminatedString. apply cstring_loop_unterminated.
    destruct q as [|y q _] using rev_ind; [done|].
    rewrite app_assoc in Hpq. apply app_inj_tail in Hpq as [-> _].
    by apply Forall_app in Hs as [Hp _].
Qed.

Lemma exact_cstring s : cstring_ok s → exact try_get_cstring (put_cstring s) s.
Proof.
  intros [Hv Hs]. rewrite <- (from_utf8_lossy_valid s) at 2 by done.
  by apply exact_cstring_lossy.
Qed.

(** [exact_reads] follows a reader through its layout, field by field; the side
    conditions are the hypotheses on the fields. *)
Create HintDb exact.
#[export] Hint Resolve exact_u8 exact_u16 exact_u32 exact_cstring exact_bytes : exact.
Ltac exact_field := solve [eauto with exact].
Ltac exact_reads :=
  repeat first
    [ solve [apply exact_ret]
    | eapply exact_bind_last; [exact_field|solve [apply exact_ret]]
    | eapply exact_bind; [exact_field|] ];
  try exact_field.

(** Whatever the bytes, the string read is well-formed UTF-8. *)
Lemma try_get_cstring_valid b s rest : try_get_cstring b = Ok (s, rest) → valid_utf8 s.
Proof.
  unfold try_get_cstring. generalize (@nil Z).
  induction b as [|x b IH]; intros out; simpl; [done|].
  destruct (x =? 0); [|apply IH]. intros [= <- _]. apply from_utf8_lossy_is_valid.
Qed.

(** ** Stat strings

    Blocks of at most seven bytes are sent behind a mask byte; even bytes are
    made odd and the mask records which bytes were odd already, so that the
    encoded string contains no NUL. *)

(** The loop over one chunk, from index [i] with the mask built so far. *)
Fixpoint encode_chunk_loop (i mask : Z) (chunk : bytes) : Z * bytes :=
  match chunk with
  | [] => (mask, [])
  | byte :: chunk =>
    if byte mod 2 =? 0 then
      let '(m, out) := encode_chunk_loop (i + 1) mask chunk in (m, wrap 8 (byte + 1) :: out)
    else
      let '(m, out) :=
        encode_chunk_loop (i + 1) (Z.lor mask (wrap 8 (Z.shiftl 1 (i + 1)))) chunk in
      (m, byte :: out)
  end.

Definition encode_chunk (chunk : bytes) : bytes :=
  let '(mask, out) := encode_chunk_loop 0 1 chunk in mask :: out.

Definition encode_statstring (raw : bytes) : bytes := concat (map encode_chunk (chunks 7 raw)).

Fixpoint decode_chunk_loop (i mask : Z) (data : bytes) : bytes :=
  match data with
  | [] => []
  | byte :: data =>
    (if Z.land mask (wrap 8 (Z.shiftl 1 (i + 1))) =? 0 then wrap 8 (byte - 1) else byte)
      :: decode_chunk_loop (i + 1) mask data
  end.

Definition decode_chunk (chunk : bytes) : bytes :=
  match chunk with [] => [] | mask :: data => decode_chunk_loop 0 mask data end.

Definition decode_statstring (enc : bytes) : bytes := concat (map decode_chunk (chunks 8 enc)).

(** The mask test is a test of one bit. *)
Lemma mask_bit_wrap i : 0 <= i < 7 → wrap 8 (Z.shiftl 1 (i + 1)) = 2 ^ (i + 1).
Proof.
  intros Hi. rewrite Z.shiftl_1_l. apply wrap_small. split; [lia|].
  apply Z.pow_lt_mono_r; lia.
Qed.

Lemma land_pow2_zero m k : 0 <= k → (Z.land m (2 ^ k) =? 0) = negb (Z.testbit m k).
Proof.
  intros Hk. destruct (Z.testbit m k) eqn:Hb; simpl.
  - apply Z.eqb_neq. intros H. apply (f_equal (λ z, Z.testbit z k)) in H.
    by rewrite Z.land_spec, Hb, Z.pow2_bits_true, Z.bits_0 in H.
  - apply Z.eqb_eq. apply Z.bits_inj'. intros j Hj.
    rewrite Z.land_spec, Z.bits_0, Z.pow2_bits_eqb by done.
    destruct (Z.eqb_spec k j) as [->|]; [by rewrite Hb|by rewrite andb_false_r].
Qed.

(** Later bytes of a chunk leave the earlier mask bits alone. *)
Lemma encode_chunk_loop_low i mask chunk j :
  0 <= i → (i + zlen chunk <= 7) → 0 <= j <= i →
  Z.testbit (encode_chunk_loop i mask chunk).1 j = Z.testbit mask j.
Proof.
  revert i mask. induction chunk as [|b chunk IH]; intros i mask Hi Hlen Hj; [done|].
  rewrite zlen_cons in Hlen. pose proof (zlen_nonneg chunk). simpl.
  destruct (b mod 2 =? 0).
  - specialize (IH (i + 1) mask). destruct (encode_chunk_loop _ _ _). simpl in *. apply IH; lia.
  - specialize (IH (i + 1) (Z.lor mask (wrap 8 (Z.shiftl 1 (i + 1))))).
    destruct (encode_chunk_loop _ _ _). simpl in *. rewrite IH by lia.
    rewrite mask_bit_wrap, Z.lor_spec, Z.pow2_bits_false by lia. apply orb_false_r.
Qed.

Lemma encode_chunk_loop_length i mask chunk :
  length (encode_chunk_loop i mask chunk).2 = length chunk.
Proof.
  revert i mask. induction chunk as [|b chunk IH]; intros i mask; [done|]. simpl.
  destruct (b mod 2 =? 0).
  - specialize (IH (i + 1) mask). destruct (encode_chunk_loop _ _ _). simpl in *. by f_equal.
  - specialize (IH (i + 1) (Z.lor mask (wrap 8 (Z.shiftl 1 (i + 1))))).
    destruct (encode_chunk_loop _ _ _). simpl in *. by f_equal.
Qed.

Lemma even_byte_succ b : u8 b → b mod 2 = 0 → wrap 8 (b + 1) = b + 1.
Proof.
  unfold uN, wrap. change (2 ^ 8) with 256. intros Hb He. apply Z.mod_small.
  pose proof (Z.div_mod b 2). lia.
Qed.

Lemma decode_encode_chunk_loop i mask chunk :
  0 <= i → i + zlen chunk <= 7 → Forall u8 chunk →
  (∀ j, i < j <= 7 → Z.testbit mask j = false) →
  decode_chunk_loop i (encode_chunk_loop i mask chunk).1 (encode_chunk_loop i mask chunk).2
  = chunk.
Proof.
  revert i mask. induction chunk as [|b chunk IH]; intros i mask Hi Hlen Hu Hmask; [done|].
  rewrite zlen_cons in Hlen. pose proof (zlen_nonneg chunk).
  apply Forall_cons in Hu as [Hb Hu]. simpl. destruct (Z.eqb_spec (b mod 2) 0) as [He|Ho].
  - specialize (IH (i + 1) mask).
    pose proof (encode_chunk_loop_low (i + 1) mask chunk (i + 1)) as Hlow.
    destruct (encode_chunk_loop _ _ _) as [m out]. simpl in *.
    rewrite IH by (try done; try lia; intros; apply Hmask; lia).
    rewrite mask_bit_wrap, land_pow2_zero, Hlow, Hmask by lia. simpl.
    rewrite even_byte_succ by done. f_equal. replace (b + 1 - 1) with b by lia.
    by apply wrap_small.
  - rewrite mask_bit_wrap by lia. specialize (IH (i + 1) (Z.lor mask (2 ^ (i + 1)))).
    pose proof (encode_chunk_loop_low (i + 1) (Z.lor mask (2 ^ (i + 1))) chunk (i + 1)) as Hlow.
    destruct (encode_chunk_loop _ _ _) as [m out]. cbn [fst snd decode_chunk_loop] in *.
    rewrite IH; [|lia|lia|done|].
    + rewrite mask_bit_wrap by lia. rewrite land_pow2_zero, Hlow, Z.lor_spec, Z.pow2_bits_true, orb_true_r by lia. done.
    + intros j Hj. rewrite Z.lor_spec, Z.pow2_bits_false, Hmask by lia. done.
Qed.

Lemma decode_encode_chunk chunk :
  zlen chunk <= 7 → Forall u8 chunk → decode_chunk (encode_chunk chunk) = chunk.
Proof.
  intros Hlen Hu. unfold encode_chunk.
  pose proof (decode_encode_chunk_loop 0 1 chunk) as H.
  destruct (encode_chunk_loop 0 1 chunk) as [m out]. simpl in *. apply H; [lia|lia|done|].
  intros j Hj. apply (Z.pow2_bits_false 0 j). lia.
Qed.

Lemma encode_chunk_length chunk : length (encode_chunk chunk) = S (length chunk).
Proof.
  unfold encode_chunk. pose proof (encode_chunk_loop_length 0 1 chunk).
  destruct (encode_chunk_loop 0 1 chunk). simpl in *. by f_equal.
Qed.

Lemma encode_statstring_unfold raw :
  raw ≠ [] →
  encode_statstring raw = encode_chunk (take 7 raw) ++ encode_statstring (drop 7 raw).
Proof. intros. unfold encode_statstring. rewrite chunks_cons by (done || lia). done. Qed.

Lemma statstring_roundtrip raw :
  Forall u8 raw → decode_statstring (encode_statstring raw) = raw.
Proof.
  induction raw as [raw IH] using list_length_ind. intros Hu.
  destruct (decide (raw = [])) as [->|Hne]; [done|].
  rewrite encode_statstring_unfold by done.
  assert (zlen (take 7 raw) <= 7) as Hlen by (unfold zlen; rewrite length_take; lia).
  assert (Forall u8 (take 7 raw)) as Hu7 by (by apply Forall_take).
  unfold decode_statstring. destruct (decide (7 <= length raw)%nat) as [Hge|Hlt].
  - rewrite chunks_app; [|lia|].
    2: { rewrite encode_chunk_length, length_take. lia. }
    cbn [map concat]. rewrite decode_encode_chunk by done.
    assert (concat (map decode_chunk (chunks 8 (encode_statstring (drop 7 raw))))
            = drop 7 raw) as ->; [|apply take_drop].
    apply IH; [|by apply Forall_drop]. rewrite length_drop. destruct raw; [done|].
    simpl in *. lia.
  - rewrite (drop_ge raw 7), app_nil_r by lia.
    rewrite <- (app_nil_r (encode_chunk _)) at 1.
    assert (encode_chunk (take 7 raw) ++ [] ≠ []) as Hc.
    { rewrite app_nil_r. intros H. apply (f_equal length) in H.
      rewrite encode_chunk_length in H. simpl in H. lia. }
    rewrite chunks_cons, app_nil_r by (done || lia).
    assert (length (encode_chunk (take 7 raw)) <= 8)%nat as H8.
    { rewrite encode_chunk_length, length_take. lia. }
    rewrite take_ge, drop_ge by done. cbn [map concat]. rewrite chunks_nil. cbn [map concat].
    rewrite app_nil_r, decode_encode_chunk by done. apply take_ge. lia.
Qed.

Lemma encode_chunk_loop_no_nul i mask chunk :
  Forall u8 chunk → Forall (λ b, b ≠ 0) (encode_chunk_loop i mask chunk).2.
Proof.
  intros Hu. revert i mask. induction Hu as [|b chunk Hb Hu IH]; intros i mask; [done|].
  simpl. destruct (Z.eqb_spec (b mod 2) 0) as [He|Ho].
  - specialize (IH (i + 1) mask). destruct (encode_chunk_loop _ _ _). simpl in *.
    constructor; [|done]. rewrite even_byte_succ by done. unfold uN in Hb. lia.
  - specialize (IH (i + 1) (Z.lor mask (wrap 8 (Z.shiftl 1 (i + 1))))).
    destruct (encode_chunk_loop _ _ _). simpl in *. constructor; [|done]. by intros ->.
Qed.

Lemma statstring_no_nul raw :
  Forall u8 raw → Forall (λ b, b ≠ 0) (encode_statstring raw).
Proof.
  intros Hu. unfold encode_statstring. apply Forall_concat, Forall_map.
  assert (Forall (λ c, zlen c <= 7 ∧ Forall u8 c) (chunks 7 raw)) as Hc.
  { induction raw as [raw IH] using list_length_ind.
    destruct (decide (raw = [])) as [->|Hne]; [constructor|].
    rewrite chunks_cons by (done || lia). constructor.
    - split; [unfold zlen; rewrite length_take; lia|by apply Forall_take].
    - apply IH; [|by apply Forall_drop]. rewrite length_drop.
      destruct raw; [done|]. simpl. lia. }
  eapply Forall_impl; [exact Hc|]. intros c [Hlen Hcu]. unfold encode_chunk.
  pose proof (encode_chunk_loop_no_nul 0 1 c Hcu) as Hn.
  pose proof (encode_chunk_loop_low 0 1 c 0) as Hlow.
  destruct (encode_chunk_loop 0 1 c) as [m out]. simpl in *.
  constructor; [|done]. intros ->. specialize (Hlow ltac:(lia) ltac:(lia) ltac:(lia)).
  done.
Qed.

(** An encoded stat string never contains the NUL that terminates it on the wire, and
    decoding it gives the raw bytes back, whatever they are. *)
Theorem statstring_wire raw :
  Forall u8 raw →
  Forall (λ b, b ≠ 0) (encode_statstring raw) ∧ decode_statstring (encode_statstring raw) = raw.
Proof. intros Hu. split; [by apply statstring_no_nul|by apply statstring_roundtrip]. Qed.

Lemma statstring_wire_witness :
  decode_statstring (encode_statstring [0; 255; 1; 0; 2; 7; 8; 0; 128]) = [0; 255; 1; 0; 2; 7; 8; 0; 128].
Proof. apply statstring_wire. repeat constructor; vm_compute; congruence. Defined.
