(* ===== verification/Frame.v ===== *)
(** Length-prefixed frames: [Frame::encode_with] and the [HeaderCodec] decoder of
    spectre-protocol (frame.rs), and the interface [DecoderLaws] through which the
    stream theorems are proved for every decoder of the program. *)
From S2P Require Import Prelude BytesExt.

Record Frame := mkFrame { fr_id : Z; fr_payload : bytes }.

#[export] Instance Frame_eq_dec : EqDecision Frame.
Proof. solve_decision. Defined.

Definition HEADER_LEN : Z := 4.

(** [Frame::encode_with]: header byte, id, total length, payload. *)
Definition encode_with (header : Z) (f : Frame) : result ProtoError bytes :=
  let total := HEADER_LEN + zlen (fr_payload f) in
  if 65535 <? total then Err (TooLarge total)
  else Ok ([header; fr_id f] ++ le_bytes 2 (wrap 16 total) ++ fr_payload f).

(** A frame whose size is fixed: [encode().expect(..)].  The panic of [expect] is
    the empty answer; [fixed_frame_fits] shows it does not happen. *)
Definition expect_frame (header : Z) (f : Frame) : bytes :=
  match encode_with header f with Ok b => b | Err _ => [] end.

(** ** The decoder

    One call of [Decoder::decode]: its result and the buffer it leaves. *)

(** Dropping what precedes the first header byte; [None] when there is none. *)
Definition resync (is_header : Z → bool) (src : bytes) : option bytes :=
  match src with
  | [] => Some []
  | b :: _ => if is_header b then Some src
              else match position is_header src with
                   | Some pos => Some (drop pos src)
                   | None => None
                   end
  end.

Definition below_header : ProtoError := BadValue "frame length below header size".

(** The part of [decode] after the resynchronisation. *)
Definition decode_at (src : bytes) : result ProtoError (option Frame) * bytes :=
  match src with
  | _ :: id :: l0 :: l1 :: rest =>
    let total := le_val [l0; l1] in
    if total <? HEADER_LEN then (Err below_header, drop 1 src)
    else if zlen src <? total then (Ok None, src)
    else let n := Z.to_nat (total - HEADER_LEN) in
         (Ok (Some (mkFrame id (take n rest))), drop n rest)
  | _ => (Ok None, src)
  end.

Definition header_decode (H : Z) (src : bytes) : result ProtoError (option Frame) * bytes :=
  match resync (Z.eqb H) src with
  | None => (Ok None, [])
  | Some src => decode_at src
  end.

(** ** What a stream decoder promises *)
Class DecoderLaws {F} (decode : bytes → result ProtoError (option F) * bytes) : Prop := {
  (** a decision is not revised when more bytes arrive *)
  dec_frame_app a b f s :
    decode a = (Ok (Some f), s) → decode (a ++ b) = (Ok (Some f), s ++ b);
  dec_err_app a b e s : decode a = (Err e, s) → decode (a ++ b) = (Err e, s ++ b);
  (** waiting keeps what the next call needs *)
  dec_more_app a b s : decode a = (Ok None, s) → decode (a ++ b) = decode (s ++ b);
  (** anything but waiting consumes a byte *)
  dec_progress a r s : decode a = (r, s) → r ≠ Ok None → (length s < length a)%nat;
}.

Section stream.
Context {F : Type} (decode : bytes → result ProtoError (option F) * bytes).
Context {laws : DecoderLaws decode}.

(** The decode calls a framed reader makes until the decoder asks for more. *)
Fixpoint drain_fuel (fuel : nat) (src : bytes) : list (result ProtoError F) * bytes :=
  match fuel with
  | O => ([], src)
  | S fuel =>
    match decode src with
    | (Ok None, s) => ([], s)
    | (Ok (Some f), s) => let '(out, t) := drain_fuel fuel s in (Ok f :: out, t)
    | (Err e, s) => let '(out, t) := drain_fuel fuel s in (Err e :: out, t)
    end
  end.

Definition drain (src : bytes) : list (result ProtoError F) * bytes :=
  drain_fuel (S (length src)) src.

(** The reader, given the stream in the pieces the socket delivered. *)
Fixpoint feed (buf : bytes) (pieces : list bytes) : list (result ProtoError F) * bytes :=
  match pieces with
  | [] => ([], buf)
  | p :: pieces =>
    let '(out, s) := drain (buf ++ p) in
    let '(out', t) := feed s pieces in (out ++ out', t)
  end.

Lemma drain_fuel_enough f g src :
  (length src < f)%nat → (length src < g)%nat → drain_fuel f src = drain_fuel g src.
Proof using laws.
  revert f g. induction src as [src IH] using list_length_ind. intros f g Hf Hg.
  destruct f as [|f], g as [|g]; try lia. simpl.
  destruct (decode src) as [r s] eqn:Hd. pose proof (dec_progress src r s Hd) as Hp.
  destruct r as [[fr|]|e]; [|done|];
    assert (length s < length src)%nat by (apply Hp; done);
    by rewrite (IH s ltac:(done) f g) by lia.
Qed.

Lemma drain_unfold src :
  drain src =
  match decode src with
  | (Ok None, s) => ([], s)
  | (Ok (Some f), s) => let '(out, t) := drain s in (Ok f :: out, t)
  | (Err e, s) => let '(out, t) := drain s in (Err e :: out, t)
  end.
Proof using laws.
  unfold drain at 1. simpl.
  destruct (decode src) as [r s] eqn:Hd. pose proof (dec_progress src r s Hd) as Hp.
  destruct r as [[fr|]|e]; [|done|];
    assert (length s < length src)%nat by (apply Hp; done);
    unfold drain; by rewrite (drain_fuel_enough (length src) (S (length s))) by lia.
Qed.

Lemma drain_app a b :
  drain (a ++ b) =
  let '(out, s) := drain a in let '(out', t) := drain (s ++ b) in (out ++ out', t).
Proof using laws.
  induction a as [a IH] using list_length_ind.
  rewrite (drain_unfold a). destruct (decode a) as [r s] eqn:Hd.
  pose proof (dec_progress a r s Hd) as Hp. destruct r as [[fr|]|e].
  - rewrite drain_unfold, (dec_frame_app _ _ _ _ Hd), IH by (apply Hp; done).
    destruct (drain s) as [out u]. by destruct (drain (u ++ b)).
  - rewrite (drain_unfold (a ++ b)), (dec_more_app _ _ _ Hd), <- drain_unfold.
    by destruct (drain (s ++ b)).
  - rewrite drain_unfold, (dec_err_app _ _ _ _ Hd), IH by (apply Hp; done).
    destruct (drain s) as [out u]. by destruct (drain (u ++ b)).
Qed.

Lemma drain_done a out s : drain a = (out, s) → drain s = ([], s).
Proof using laws.
  intros Ha. pose proof (drain_app a []) as H. rewrite app_nil_r, Ha, app_nil_r in H.
  destruct (drain s) as [out' t] eqn:Hs. injection H as Hout ->.
  symmetry in Hout. apply (f_equal length) in Hout.
  rewrite length_app in Hout. destruct out'; [done|simpl in *; lia].
Qed.

Lemma feed_drain buf pieces :
  drain buf = ([], buf) → feed buf pieces = drain (buf ++ concat pieces).
Proof using laws.
  revert buf. induction pieces as [|p pieces IH]; intros buf Hbuf; simpl.
  { by rewrite app_nil_r, Hbuf. }
  rewrite app_assoc, (drain_app (buf ++ p)). destruct (drain (buf ++ p)) as [out s] eqn:Hd.
  by rewrite IH by (by apply (drain_done (buf ++ p) out)).
Qed.
End stream.

(** ** The header codec satisfies the interface *)

Lemma resync_app p a b s :
  resync p a = Some s → s ≠ [] → resync p (a ++ b) = Some (s ++ b).
Proof.
  unfold resync. destruct a as [|x a]; [by intros [= <-]|].
  change ((x :: a) ++ b) with (x :: (a ++ b)). cbn iota. destruct (p x); [by intros [= <-]|].
  destruct (position p (x :: a)) as [i|] eqn:Hi; [|done].
  apply (position_app_l _ _ b) in Hi as Hi'. change ((x :: a) ++ b) with (x :: a ++ b) in Hi'.
  rewrite Hi'. intros [= <-] _. f_equal.
  apply position_lt in Hi. change (x :: a ++ b) with ((x :: a) ++ b).
  rewrite drop_app_le by lia. done.
Qed.

Lemma resync_app_None p a b :
  resync p a = None → b ≠ [] → resync p (a ++ b) = resync p b.
Proof.
  unfold resync at 1. destruct a as [|x a]; [done|].
  destruct (p x) eqn:Hx; [done|]. destruct (position p (x :: a)) eqn:Hi; [done|]. intros _ Hb.
  unfold resync. change ((x :: a) ++ b) with (x :: (a ++ b)). cbn iota. rewrite Hx.
  change (x :: a ++ b) with ((x :: a) ++ b). rewrite position_app_r by done.
  destruct b as [|y b]; [done|]. destruct (p y) eqn:Hy.
  - cbn [position]. rewrite Hy. cbn [fmap option_fmap option_map].
    f_equal. by rewrite Nat.add_0_r, drop_app_length.
  - destruct (position p (y :: b)) as [i|]; [|done]. simpl fmap. f_equal.
    change (x :: a ++ y :: b) with ((x :: a) ++ y :: b).
    apply (drop_app_add (x :: a)).
Qed.

Lemma resync_head p a s : resync p a = Some s → ∀ x, head s = Some x → p x = true.
Proof.
  unfold resync. destruct a as [|y a]; [naive_solver|]. destruct (p y) eqn:Hy.
  { intros [= <-]. naive_solver. }
  destruct (position p (y :: a)) as [i|] eqn:Hi; [|done]. intros [= <-] x Hx.
  apply position_Some in Hi as (z & Hz & Hpz & _). rewrite (drop_S _ _ _ Hz) in Hx.
  simpl in Hx. naive_solver.
Qed.

Lemma resync_length p a s : resync p a = Some s → (length s <= length a)%nat.
Proof.
  unfold resync. destruct a as [|y a]; [naive_solver|]. destruct (p y); [naive_solver|].
  destruct (position p (y :: a)); [|done]. intros [= <-]. rewrite length_drop. lia.
Qed.

Lemma resync_fix p s :
  (∀ x, head s = Some x → p x = true) → resync p s = Some s.
Proof. destruct s as [|x s]; [done|]. intros H. unfold resync. by rewrite (H x). Qed.

Lemma resync_nil p a : resync p a = Some [] → a = [].
Proof.
  unfold resync. destruct a as [|y a]; [done|]. destruct (p y); [done|].
  destruct (position p (y :: a)) as [i|] eqn:Hi; [|done]. intros [= Hd].
  apply position_lt in Hi. apply (f_equal length) in Hd. rewrite length_drop in Hd.
  simpl in *. lia.
Qed.

Lemma decode_at_wait_id a s : decode_at a = (Ok None, s) → s = a.
Proof.
  unfold decode_at. destruct a as [|h [|id [|l0 [|l1 rest]]]]; try naive_solver.
  cbv zeta. destruct (_ <? HEADER_LEN); [done|]. destruct (_ <? _); naive_solver.
Qed.

Lemma decode_at_app a b r s :
  decode_at a = (r, s) → r ≠ Ok None → decode_at (a ++ b) = (r, s ++ b).
Proof.
  unfold decode_at. destruct a as [|h [|id [|l0 [|l1 rest]]]]; try (intros [= <- <-]; congruence).
  change ((h :: id :: l0 :: l1 :: rest) ++ b) with (h :: id :: l0 :: l1 :: (rest ++ b)).
  cbv zeta. destruct (le_val [l0; l1] <? HEADER_LEN) eqn:Hlow.
  { intros [= <- <-] _. by rewrite Hlow. }
  rewrite Hlow.
  destruct (Z.ltb_spec (zlen (h :: id :: l0 :: l1 :: rest)) (le_val [l0; l1])) as [|Hlen];
    [intros [= <- <-]; congruence|].
  intros [= <- <-] _.
  destruct (Z.ltb_spec (zlen (h :: id :: l0 :: l1 :: rest ++ b)) (le_val [l0; l1])) as [Hlt|_].
  { exfalso. revert Hlen Hlt. generalize (le_val [l0; l1]). intros.
    autorewrite with zlen in *. pose proof (zlen_nonneg b). lia. }
  assert (Z.to_nat (le_val [l0; l1] - HEADER_LEN) <= length rest)%nat as Hn.
  { revert Hlen. generalize (le_val [l0; l1]). unfold HEADER_LEN, zlen. simpl length. lia. }
  by rewrite take_app_le, drop_app_le.
Qed.

Lemma decode_at_progress a r s :
  decode_at a = (r, s) → r ≠ Ok None → (length s < length a)%nat.
Proof.
  unfold decode_at. destruct a as [|h [|id [|l0 [|l1 rest]]]]; try (intros [= <- <-]; congruence).
  cbv zeta. destruct (_ <? HEADER_LEN); [intros [= <- <-] _; simpl; lia|].
  destruct (_ <? _); intros [= <- <-]; [congruence|]. intros _. rewrite length_drop. simpl. lia.
Qed.

Lemma decode_at_nil : decode_at [] = (Ok None, []).
Proof. done. Qed.

Lemma decode_at_nonempty a r s : decode_at a = (r, s) → r ≠ Ok None → a ≠ [].
Proof. intros H Hr ->. rewrite decode_at_nil in H. naive_solver. Qed.

#[export] Instance header_decode_laws H : DecoderLaws (header_decode H).
Proof.
  split; unfold header_decode.
  - intros a b f s Ha. destruct (resync (Z.eqb H) a) as [src|] eqn:Hr; [|done].
    rewrite (resync_app _ _ _ _ Hr) by (by eapply decode_at_nonempty).
    by apply decode_at_app.
  - intros a b e s Ha. destruct (resync (Z.eqb H) a) as [src|] eqn:Hr; [|done].
    rewrite (resync_app _ _ _ _ Hr) by (by eapply decode_at_nonempty).
    by apply decode_at_app.
  - intros a b s Ha. destruct (resync (Z.eqb H) a) as [src|] eqn:Hr.
    + apply decode_at_wait_id in Ha as ->. destruct src as [|x src].
      { apply resync_nil in Hr as ->. done. }
      rewrite (resync_app _ _ _ _ Hr) by done.
      rewrite resync_fix; [done|]. intros y Hy. by eapply resync_head.
    + injection Ha as <-. rewrite app_nil_l. destruct b as [|y b].
      * by rewrite app_nil_r, Hr.
      * by rewrite resync_app_None.
  - intros a r s Ha Hne. destruct (resync (Z.eqb H) a) as [src|] eqn:Hr; [|naive_solver].
    apply resync_length in Hr. apply decode_at_progress in Ha; [lia|done].
Qed.

(** ** Encoding and decoding *)

Lemma encode_with_ok header f bs :
  encode_with header f = Ok bs →
  zlen (fr_payload f) <= 65531 ∧
  bs = header :: fr_id f :: le_bytes 2 (4 + zlen (fr_payload f)) ++ fr_payload f.
Proof.
  unfold encode_with, HEADER_LEN. destruct (Z.ltb_spec 65535 (4 + zlen (fr_payload f))); [done|].
  intros [= <-]. split; [lia|]. rewrite wrap_small; [done|].
  pose proof (zlen_nonneg (fr_payload f)). unfold uN. change (2 ^ 16) with 65536. lia.
Qed.

Lemma encode_with_err header f e :
  encode_with header f = Err e →
  65531 < zlen (fr_payload f) ∧ e = TooLarge (4 + zlen (fr_payload f)).
Proof.
  unfold encode_with, HEADER_LEN. destruct (Z.ltb_spec 65535 (4 + zlen (fr_payload f))); [|done].
  intros [= <-]. split; [lia|done].
Qed.

Lemma encode_with_fits header id payload :
  zlen payload <= 65531 → ∃ bs, encode_with header (mkFrame id payload) = Ok bs.
Proof.
  intros H. unfold encode_with, HEADER_LEN. cbn [fr_payload].
  destruct (Z.ltb_spec 65535 (4 + zlen payload)); [lia|]. eauto.
Qed.

Lemma fixed_frame_fits header id payload :
  zlen payload <= 65531 →
  encode_with header (mkFrame id payload) = Ok (expect_frame header (mkFrame id payload)).
Proof. intros H. unfold expect_frame. by destruct (encode_with_fits header id payload H) as [bs ->]. Qed.

Lemma decode_at_encoded header f bs rest :
  encode_with header f = Ok bs → decode_at (bs ++ rest) = (Ok (Some f), rest).
Proof.
  intros [Hlen ->]%encode_with_ok. destruct f as [id payload]. cbn [fr_id fr_payload] in *.
  pose proof (zlen_nonneg payload) as Hp.
  assert (u16 (4 + zlen payload)) as Hu by (unfold uN; change (2 ^ 16) with 65536; lia).
  pose proof (le_val_round2 _ Hu) as Hv. pose proof (length_le_bytes 2 (4 + zlen payload)) as Hl.
  destruct (le_bytes 2 (4 + zlen payload)) as [|l0 [|l1 [|? ?]]]; try done.
  cbn [app decode_at]. rewrite Hv. unfold HEADER_LEN.
  destruct (Z.ltb_spec (4 + zlen payload) 4); [lia|].
  destruct (Z.ltb_spec (zlen (header :: id :: l0 :: l1 :: payload ++ rest)) (4 + zlen payload))
    as [Hlt|_].
  { autorewrite with zlen in Hlt. pose proof (zlen_nonneg rest). lia. }
  replace (4 + zlen payload - 4) with (zlen payload) by lia.
  unfold zlen. by rewrite Nat2Z.id, take_app_length, drop_app_length.
Qed.

Lemma header_decode_encoded H f bs rest :
  encode_with H f = Ok bs → header_decode H (bs ++ rest) = (Ok (Some f), rest).
Proof.
  intros Henc. unfold header_decode. rewrite resync_fix.
  - by eapply decode_at_encoded.
  - apply encode_with_ok in Henc as [_ ->]. intros x [= <-]. apply Z.eqb_refl.
Qed.

(** The stream of the encodings of [fs]. *)
Definition encodings (H : Z) (fs : list Frame) (stream : bytes) : Prop :=
  ∃ bss, Forall2 (λ f bs, encode_with H f = Ok bs) fs bss ∧ stream = concat bss.

Lemma drain_encodings H fs stream :
  encodings H fs stream → drain (header_decode H) stream = (map Ok fs, []).
Proof.
  intros (bss & Hall & ->). induction Hall as [|f bs fs bss Hf _ IH]; [done|].
  cbn [concat]. rewrite drain_unfold by apply _.
  by rewrite (header_decode_encoded _ _ _ _ Hf), IH.
Qed.

Lemma drain_nil H : drain (header_decode H) [] = ([], []).
Proof. done. Qed.

(** ** Properties *)

(** What a framed reader yields depends on the bytes of the stream only, never
    on how the socket cut them into pieces, for any bytes whatsoever. *)
Theorem reader_segmentation H pieces pieces' :
  concat pieces = concat pieces' →
  feed (header_decode H) [] pieces = feed (header_decode H) [] pieces'.
Proof.
  intros Heq. rewrite !feed_drain by (apply drain_nil || apply _). by rewrite Heq.
Qed.

Lemma reader_segmentation_witness :
  feed (header_decode 247) [] [[0; 247]; [39; 4; 0]] = feed (header_decode 247) [] [[0; 247; 39; 4]; [0]].
Proof. apply reader_segmentation. reflexivity. Defined.

(** However the stream of encoded frames is segmented, the reader yields exactly
    the frames that were encoded, in order, and keeps nothing back. *)
Theorem frames_roundtrip H fs stream pieces :
  encodings H fs stream → concat pieces = stream →
  feed (header_decode H) [] pieces = (map Ok fs, []).
Proof.
  intros Henc <-. rewrite feed_drain by (apply drain_nil || apply _).
  by apply drain_encodings.
Qed.

Lemma frames_roundtrip_witness :
  let fs := [mkFrame 30 [170; 187]; mkFrame 39 []] in
  let s := [247; 30; 6; 0; 170; 187; 247; 39; 4; 0] in
  encodings 247 fs s ∧ feed (header_decode 247) [] [[247; 30; 6]; [0; 170; 187; 247; 39]; [4; 0]]
                       = (map Ok fs, []).
Proof.
  assert (encodings 247 [mkFrame 30 [170; 187]; mkFrame 39 []]
            [247; 30; 6; 0; 170; 187; 247; 39; 4; 0]) as H.
  { exists [[247; 30; 6; 0; 170; 187]; [247; 39; 4; 0]]. split; [|reflexivity].
    repeat constructor. }
  split; [exact H|]. apply (frames_roundtrip 247 _ _ _ H). reflexivity.
Defined.

(** A call that does not wait consumes at least one byte, and a call that waits
    leaves a buffer on which it keeps waiting, so the reading loop terminates. *)
Theorem header_decode_terminates H src :
  match header_decode H src with
  | (Ok None, s) => header_decode H s = (Ok None, s) ∧ (length s <= length src)%nat
  | (_, s) => (length s < length src)%nat
  end.
Proof.
  destruct (header_decode H src) as [r s] eqn:Hd.
  destruct r as [[f|]|e]; [eapply dec_progress; done| |eapply dec_progress; done].
  split.
  - pose proof (dec_more_app src [] s Hd) as Hm. by rewrite !app_nil_r, Hd in Hm.
  - unfold header_decode in Hd. destruct (resync (Z.eqb H) src) as [a|] eqn:Hr.
    + apply decode_at_wait_id in Hd as ->. by eapply resync_length.
    + injection Hd as <-. simpl. lia.
Qed.

(** [encode_with] refuses exactly the payloads whose frame does not fit the
    16-bit length, and otherwise writes a length that is the frame's own. *)
Theorem encode_with_spec H f :
  match encode_with H f with
  | Ok bs => zlen bs = 4 + zlen (fr_payload f) ∧ le_val (take 2 (drop 2 bs)) = zlen bs
             ∧ zlen bs <= 65535
  | Err e => 65535 < 4 + zlen (fr_payload f) ∧ e = TooLarge (4 + zlen (fr_payload f))
  end.
Proof.
  destruct (encode_with H f) as [bs|e] eqn:He.
  - apply encode_with_ok in He as [Hlen ->]. pose proof (zlen_nonneg (fr_payload f)).
    assert (zlen (H :: fr_id f :: le_bytes 2 (4 + zlen (fr_payload f)) ++ fr_payload f)
            = 4 + zlen (fr_payload f)) as -> by (autorewrite with zlen; lia).
    split; [done|]. split; [|lia]. simpl. rewrite drop_0.
    rewrite take_app_length' by (by rewrite length_le_bytes).
    apply le_val_round2. unfold uN. change (2 ^ 16) with 65536. lia.
  - unfold encode_with, HEADER_LEN in He.
    destruct (Z.ltb_spec 65535 (4 + zlen (fr_payload f))); [|done]. by injection He as <-.
Qed.

(** Garbage without a header byte in front of a frame costs nothing but itself. *)
Theorem resyncs_after_garbage H garbage f bs rest :
  Forall (λ b, b ≠ H) garbage → encode_with H f = Ok bs →
  header_decode H (garbage ++ bs ++ rest) = (Ok (Some f), rest).
Proof.
  intros Hg Henc. rewrite <- (header_decode_encoded H f bs rest Henc).
  assert (header_decode H garbage = (Ok None, [])) as Hd.
  { unfold header_decode, resync. destruct garbage as [|b g]; [done|].
    assert ((H =? b) = false) as -> by (apply Forall_inv in Hg; by apply Z.eqb_neq).
    rewrite (proj2 (position_None _ _)); [done|].
    eapply Forall_impl; [exact Hg|]. intros x Hx. by apply Z.eqb_neq. }
  by rewrite (dec_more_app _ (bs ++ rest) _ Hd).
Qed.

Lemma resyncs_after_garbage_witness :
  header_decode 247 ([0; 17] ++ [247; 39; 4; 0] ++ [1]) = (Ok (Some (mkFrame 39 [])), [1]).
Proof.
  apply resyncs_after_garbage; [repeat constructor; done|vm_compute; reflexivity].
Defined.
