(* ===== verification/W3gs.v ===== *)
(** The Warcraft III game protocol (spectre-protocol, src/w3gs): packet ids, slot
    records, the decoders of client packets and the builders of host packets.
    The checksum of the [crc32fast] package is the parameter [crc32]. *)
From S2P Require Import Prelude Utf8 BytesExt Frame.

(** ** Packet ids (ids.rs) *)
Module ids.
Definition PING_FROM_HOST : Z := 1.
Definition SLOT_INFO_JOIN : Z := 4.
Definition REJECT_JOIN : Z := 5.
Definition PLAYER_INFO : Z := 6.
Definition PLAYER_LEAVE_OTHERS : Z := 7.
Definition GAME_LOADED_OTHERS : Z := 8.
Definition SLOT_INFO : Z := 9.
Definition COUNTDOWN_START : Z := 10.
Definition COUNTDOWN_END : Z := 11.
Definition INCOMING_ACTION : Z := 12.
Definition CHAT_FROM_HOST : Z := 15.
Definition START_LAG : Z := 16.
Definition STOP_LAG : Z := 17.
Definition HOST_KICK_PLAYER : Z := 28.
Definition REQ_JOIN : Z := 30.
Definition LEAVE_GAME : Z := 33.
Definition GAME_LOADED_SELF : Z := 35.
Definition OUTGOING_ACTION : Z := 38.
Definition OUTGOING_KEEPALIVE : Z := 39.
Definition CHAT_TO_HOST : Z := 40.
Definition DROP_REQ : Z := 41.
Definition SEARCH_GAME : Z := 47.
Definition GAME_INFO : Z := 48.
Definition CREATE_GAME : Z := 49.
Definition REFRESH_GAME : Z := 50.
Definition DECREATE_GAME : Z := 51.
Definition CHAT_OTHERS : Z := 52.
Definition PING_FROM_OTHERS : Z := 53.
Definition PONG_TO_OTHERS : Z := 54.
Definition MAP_CHECK : Z := 61.
Definition START_DOWNLOAD : Z := 63.
Definition MAP_SIZE : Z := 66.
Definition MAP_PART : Z := 67.
Definition MAP_PART_OK : Z := 68.
Definition MAP_PART_NOT_OK : Z := 69.
Definition PONG_TO_HOST : Z := 70.
Definition INCOMING_ACTION2 : Z := 72.
Definition REJOIN_TOKEN : Z := 119.
Definition PLAYERLEAVE_DISCONNECT : Z := 1.
Definition PLAYERLEAVE_LOST : Z := 7.
Definition PLAYERLEAVE_LOSTBUILDINGS : Z := 8.
Definition PLAYERLEAVE_WON : Z := 9.
Definition PLAYERLEAVE_DRAW : Z := 10.
Definition PLAYERLEAVE_OBSERVER : Z := 11.
Definition PLAYERLEAVE_LOBBY : Z := 13.
Definition PLAYERLEAVE_GPROXY : Z := 100.
End ids.

Definition W3GS_HEADER : Z := 247.

Definition encode (f : Frame) : result ProtoError bytes := encode_with W3GS_HEADER f.

Definition is_known_id (id : Z) : bool :=
  existsb (Z.eqb id)
    [ids.REQ_JOIN; ids.LEAVE_GAME; ids.GAME_LOADED_SELF; ids.OUTGOING_ACTION;
     ids.OUTGOING_KEEPALIVE; ids.CHAT_TO_HOST; ids.DROP_REQ; ids.SEARCH_GAME;
     ids.MAP_SIZE; ids.MAP_PART_OK; ids.MAP_PART_NOT_OK; ids.PONG_TO_HOST].

(** ** Slots (slot.rs) *)
Record SlotInfo := mkSlot {
  pid : Z; download_status : Z; slot_status : Z; computer : Z; team : Z;
  colour : Z; race : Z; computer_type : Z; handicap : Z }.

#[export] Instance SlotInfo_eq_dec : EqDecision SlotInfo.
Proof. solve_decision. Defined.

Definition WIRE_LEN : Z := 9.

Definition SlotInfo_encode (s : SlotInfo) : bytes :=
  [pid s; download_status s; slot_status s; computer s; team s; colour s; race s;
   computer_type s; handicap s].

Definition encode_slots (slots : list SlotInfo) : bytes := concat (map SlotInfo_encode slots).

Lemma zlen_encode_slots slots : zlen (encode_slots slots) = 9 * zlen slots.
Proof.
  unfold encode_slots. induction slots as [|s slots IH]; [done|].
  cbn [map concat]. rewrite zlen_app, IH, zlen_cons. change (zlen (SlotInfo_encode s)) with 9. lia.
Qed.

(** ** Packets from the client (incoming.rs) *)

Record ReqJoin := mkReqJoin {
  host_counter : Z; entry_key : Z; listen_port : Z; peer_key : Z; name : bytes;
  internal_ip : bytes }.

Definition ReqJoin_reader : reader ReqJoin :=
  host_counter ← try_get_u32_le;
  entry_key ← try_get_u32_le;
  _ ← try_get_u8;
  listen_port ← try_get_u16_le;
  peer_key ← try_get_u32_le;
  name ← try_get_cstring;
  if zlen name =? 0 then fail (BadValue "empty player name") else
  _ ← try_get_bytes 6;
  ip ← try_get_bytes 4;
  mret (mkReqJoin host_counter entry_key listen_port peer_key name ip).

Definition ReqJoin_decode (payload : bytes) : result ProtoError ReqJoin :=
  run ReqJoin_reader payload.

Record OutgoingAction := mkOutgoingAction { crc : Z; oa_data : bytes }.

Definition OutgoingAction_decode (payload : bytes) : result ProtoError OutgoingAction :=
  if zlen payload <? 4 then Err (Truncated 4 (zlen payload))
  else Ok (mkOutgoingAction (le_val (take 4 payload)) (drop 4 payload)).

Record ChatToHost := mkChatToHost {
  to_pids : bytes; from_pid : Z; flag : Z; extra : bytes; message : bytes; byte : Z }.

Definition ChatToHost_reader : reader ChatToHost :=
  count ← try_get_u8;
  to_pids ← try_get_bytes count;
  from_pid ← try_get_u8;
  flag ← try_get_u8;
  if flag =? 16 then
    message ← try_get_cstring;
    mret (mkChatToHost to_pids from_pid flag [] message 0)
  else if (17 <=? flag) && (flag <=? 20) then
    byte ← try_get_u8;
    mret (mkChatToHost to_pids from_pid flag [] [] byte)
  else if flag =? 32 then
    extra ← try_get_bytes 4;
    message ← try_get_cstring;
    mret (mkChatToHost to_pids from_pid flag extra message 0)
  else fail (BadValue "unknown chat-to-host flag").

Definition ChatToHost_decode (payload : bytes) : result ProtoError ChatToHost :=
  run ChatToHost_reader payload.

Record MapSizeReport := mkMapSizeReport { size_flag : Z; map_size : Z }.

Definition MapSizeReport_reader : reader MapSizeReport :=
  _ ← try_get_bytes 4;
  size_flag ← try_get_u8;
  map_size ← try_get_u32_le;
  mret (mkMapSizeReport size_flag map_size).

Definition MapSizeReport_decode (payload : bytes) : result ProtoError MapSizeReport :=
  run MapSizeReport_reader payload.

Definition decode_leave_game (payload : bytes) : result ProtoError Z := run try_get_u32_le payload.

Definition keepalive_reader : reader Z := _ ← try_get_u8; try_get_u32_le.
Definition decode_keepalive (payload : bytes) : result ProtoError Z := run keepalive_reader payload.

Definition decode_pong_to_host (payload : bytes) : result ProtoError Z :=
  run try_get_u32_le payload.

Definition map_part_ok_reader : reader Z :=
  _ ← try_get_u8; _ ← try_get_u8; _ ← try_get_bytes 4; try_get_u32_le.
Definition decode_map_part_ok (payload : bytes) : result ProtoError Z :=
  run map_part_ok_reader payload.

Definition decode_map_part_not_ok (payload : bytes) : result ProtoError Z :=
  if zlen payload <? 6 then Err (Truncated 6 (zlen payload))
  else Ok (le_val (if 10 <=? zlen payload then take 4 (drop 6 payload)
                   else take 4 (drop 2 payload))).

(** ** Packets to the client (outgoing.rs) *)

Record ActionBlock := mkActionBlock { ab_pid : Z; ab_data : bytes }.

#[export] Instance ActionBlock_eq_dec : EqDecision ActionBlock.
Proof. solve_decision. Defined.

Definition wire_len (a : ActionBlock) : Z := zlen (ab_data a) + 3.

Definition put (a : ActionBlock) : bytes :=
  ab_pid a :: le_bytes 2 (wrap 16 (zlen (ab_data a))) ++ ab_data a.

Definition encode_actions_raw (actions : list ActionBlock) : bytes := concat (map put actions).

(** The [for] loop that refuses an action whose length does not fit. *)
Fixpoint check_action_lens (actions : list ActionBlock) : result ProtoError () :=
  match actions with
  | [] => Ok ()
  | a :: actions =>
    if 65535 <? zlen (ab_data a) then Err (TooLarge (zlen (ab_data a)))
    else check_action_lens actions
  end.

Section outgoing.
Context (crc32 : bytes → Z).

Definition action_payload (actions : list ActionBlock) (send_interval : Z)
  : result ProtoError bytes :=
  _ ← check_action_lens actions;
  let sub := encode_actions_raw actions in
  match actions with
  | [] => Ok (le_bytes 2 send_interval)
  | _ =>
    let crc := crc32 sub in
    Ok (le_bytes 2 send_interval
          ++ [Z.land crc 255; Z.land (Z.shiftr crc 8) 255] ++ sub)
  end.

Definition incoming_action (actions : list ActionBlock) (send_interval : Z)
  : result ProtoError bytes :=
  payload ← action_payload actions send_interval;
  encode (mkFrame ids.INCOMING_ACTION payload).

Definition incoming_action2 (actions : list ActionBlock) : result ProtoError bytes :=
  payload ← action_payload actions 0;
  encode (mkFrame ids.INCOMING_ACTION2 payload).

Definition map_part (from_pid to_pid start : Z) (chunk : bytes) : result ProtoError bytes :=
  encode (mkFrame ids.MAP_PART
    ([to_pid; from_pid] ++ le_bytes 4 1 ++ le_bytes 4 start ++ le_bytes 4 (crc32 chunk) ++ chunk)).
End outgoing.

Definition ping_from_host (ticks : Z) : bytes :=
  expect_frame W3GS_HEADER (mkFrame ids.PING_FROM_HOST (le_bytes 4 ticks)).

Definition slot_block (slots : list SlotInfo) (random_seed layout_style player_slots : Z)
  : bytes :=
  let block_len := 1 + zlen slots * WIRE_LEN + 4 + 1 + 1 in
  le_bytes 2 (wrap 16 block_len) ++ [wrap 8 (zlen slots)] ++ encode_slots slots
    ++ le_bytes 4 random_seed ++ [layout_style; player_slots].

Definition slot_info (slots : list SlotInfo) (random_seed layout_style player_slots : Z)
  : result ProtoError bytes :=
  encode (mkFrame ids.SLOT_INFO (slot_block slots random_seed layout_style player_slots)).

Definition slot_info_join (pid port : Z) (external_ip : bytes) (slots : list SlotInfo)
    (random_seed layout_style player_slots : Z) : result ProtoError bytes :=
  encode (mkFrame ids.SLOT_INFO_JOIN
    (slot_block slots random_seed layout_style player_slots
       ++ [pid] ++ le_bytes 2 2 ++ le_bytes 2 port ++ external_ip ++ replicate 8 0)).

Definition reject_join (reason : Z) : bytes :=
  expect_frame W3GS_HEADER (mkFrame ids.REJECT_JOIN (le_bytes 4 reason)).

Definition player_info (pid : Z) (name external_ip internal_ip : bytes)
  : result ProtoError bytes :=
  encode (mkFrame ids.PLAYER_INFO
    (le_bytes 4 2 ++ [pid] ++ put_cstring name ++ [1; 0]
       ++ le_bytes 2 2 ++ le_bytes 2 0 ++ external_ip ++ replicate 8 0
       ++ le_bytes 2 2 ++ le_bytes 2 0 ++ internal_ip ++ replicate 8 0)).

Definition player_leave_others (pid left_code : Z) : bytes :=
  expect_frame W3GS_HEADER (mkFrame ids.PLAYER_LEAVE_OTHERS ([pid] ++ le_bytes 4 left_code)).

Definition game_loaded_others (pid : Z) : bytes :=
  expect_frame W3GS_HEADER (mkFrame ids.GAME_LOADED_OTHERS [pid]).

Definition countdown_start : bytes := expect_frame W3GS_HEADER (mkFrame ids.COUNTDOWN_START []).
Definition countdown_end : bytes := expect_frame W3GS_HEADER (mkFrame ids.COUNTDOWN_END []).

Definition chat_from_host (from_pid : Z) (to_pids : bytes) (flag : Z) (extra message : bytes)
  : result ProtoError bytes :=
  match to_pids with
  | [] => Err (BadValue "chat_from_host needs at least one recipient")
  | _ => encode (mkFrame ids.CHAT_FROM_HOST
           ([wrap 8 (zlen to_pids)] ++ to_pids ++ [from_pid; flag] ++ extra
              ++ put_cstring message))
  end.

Definition start_lag (laggers : list (Z * Z)) : result ProtoError bytes :=
  encode (mkFrame ids.START_LAG
    ([wrap 8 (zlen laggers)]
       ++ concat (map (λ '(pid, lag_ms), pid :: le_bytes 4 lag_ms) laggers))).

Definition stop_lag (pid lag_ms : Z) : bytes :=
  expect_frame W3GS_HEADER (mkFrame ids.STOP_LAG ([pid] ++ le_bytes 4 lag_ms)).

Definition map_check (map_path : bytes) (map_size map_info map_crc : Z) (map_sha1 : bytes)
  : result ProtoError bytes :=
  encode (mkFrame ids.MAP_CHECK
    (le_bytes 4 1 ++ put_cstring map_path ++ le_bytes 4 map_size ++ le_bytes 4 map_info
       ++ le_bytes 4 map_crc ++ map_sha1)).

Definition start_download (from_pid : Z) : bytes :=
  expect_frame W3GS_HEADER (mkFrame ids.START_DOWNLOAD (le_bytes 4 1 ++ [from_pid])).

Definition game_info (tft : bool) (war3_version host_counter entry_key : Z)
    (game_name stat_string : bytes) (slots_total : Z) (map_game_type : bytes)
    (slots_open up_time port : Z) : result ProtoError bytes :=
  encode (mkFrame ids.GAME_INFO
    ((if tft then [80; 88; 51; 87] else [51; 82; 65; 87])
       ++ [war3_version; 0; 0; 0] ++ le_bytes 4 host_counter ++ le_bytes 4 entry_key
       ++ put_cstring game_name ++ [0] ++ stat_string ++ [0] ++ le_bytes 4 slots_total
       ++ map_game_type ++ [1; 0; 0; 0] ++ le_bytes 4 slots_open ++ le_bytes 4 up_time
       ++ le_bytes 2 port)).

Definition rejoin_token (pid reconnect_key host_port map_crc : Z)
    (map_sha1 game_name map_name : bytes) : result ProtoError bytes :=
  encode (mkFrame ids.REJOIN_TOKEN
    ([pid] ++ le_bytes 4 reconnect_key ++ le_bytes 2 host_port ++ le_bytes 4 map_crc
       ++ map_sha1 ++ put_cstring game_name ++ put_cstring map_name)).

(** ** Lemmas *)


Lemma zlen_put a : zlen (put a) = wire_len a.
Proof. unfold put, wire_len. autorewrite with zlen. lia. Qed.

Lemma check_action_lens_ok actions :
  check_action_lens actions = Ok () ↔ Forall (λ a, zlen (ab_data a) <= 65535) actions.
Proof.
  induction actions as [|a actions IH]; simpl; [by split|]. rewrite Forall_cons, <- IH.
  destruct (Z.ltb_spec 65535 (zlen (ab_data a))); split; [done|lia|naive_solver|naive_solver].
Qed.

(** The client's reading of an action packet body: the blocks, one after another. *)
Definition block_reader : reader ActionBlock :=
  pid ← try_get_u8; len ← try_get_u16_le; data ← try_get_bytes len; mret (mkActionBlock pid data).

Fixpoint read_blocks (fuel : nat) (b : bytes) : result ProtoError (list ActionBlock) :=
  match fuel, b with
  | _, [] => Ok []
  | O, _ => Err (Truncated 1 0)
  | S fuel, _ => match block_reader b with
                 | Ok (a, b) => cons a <$> read_blocks fuel b
                 | Err e => Err e
                 end
  end.

Lemma exact_block a : zlen (ab_data a) <= 65535 → exact block_reader (put a) a.
Proof.
  intros Hlen. pose proof (zlen_nonneg (ab_data a)).
  assert (u16 (zlen (ab_data a))) as Hu by (unfold uN; change (2 ^ 16) with 65536; lia).
  unfold put. rewrite wrap_small by done.
  apply (exact_bind _ _ [ab_pid a] _ (ab_pid a)); [apply exact_u8|].
  eapply exact_bind; [by apply exact_u16|].
  rewrite <- (app_nil_r (ab_data a)) at 2. eapply exact_bind; [by apply exact_bytes|].
  destruct a. apply exact_ret.
Qed.

Lemma read_blocks_step fuel b :
  b ≠ [] →
  read_blocks (S fuel) b =
  match block_reader b with Ok (a, b) => cons a <$> read_blocks fuel b | Err e => Err e end.
Proof. by destruct b. Qed.

Lemma read_blocks_raw fuel actions :
  (length (encode_actions_raw actions) <= fuel)%nat →
  Forall (λ a, zlen (ab_data a) <= 65535) actions →
  read_blocks fuel (encode_actions_raw actions) = Ok actions.
Proof.
  revert fuel. induction actions as [|a actions IH]; intros fuel Hf Ha; [by destruct fuel|].
  apply Forall_cons in Ha as [Ha Has]. unfold encode_actions_raw in *. cbn [map concat] in *.
  rewrite length_app in Hf. destruct (exact_block a Ha) as [Hread _].
  pose proof (zlen_put a) as Hz. unfold wire_len, zlen in Hz.
  destruct fuel as [|fuel]; [lia|].
  rewrite read_blocks_step, Hread by (by unfold put).
  rewrite IH; [done| |done]. lia.
Qed.

Lemma action_payload_ok crc32 actions si p :
  action_payload crc32 actions si = Ok p →
  Forall (λ a, zlen (ab_data a) <= 65535) actions ∧
  p = le_bytes 2 si ++
      match actions with
      | [] => []
      | _ => let sub := encode_actions_raw actions in
             [Z.land (crc32 sub) 255; Z.land (Z.shiftr (crc32 sub) 8) 255] ++ sub
      end.
Proof.
  unfold action_payload. destruct (check_action_lens actions) as [[]|] eqn:Hc; [|done].
  apply check_action_lens_ok in Hc. cbn [mbind result_bind]. intros H. split; [done|].
  destruct actions; injection H as <-; [by rewrite app_nil_r|done].
Qed.

(** The wire layout of a join request; [u1], [u2] are the fields the decoder skips. *)
Definition ReqJoin_wire (r : ReqJoin) (u1 : Z) (u2 : bytes) : bytes :=
  le_bytes 4 (host_counter r) ++ le_bytes 4 (entry_key r) ++ [u1]
    ++ le_bytes 2 (listen_port r) ++ le_bytes 4 (peer_key r) ++ put_cstring (name r)
    ++ u2 ++ internal_ip r.

Definition ReqJoin_wf (r : ReqJoin) : Prop :=
  u32 (host_counter r) ∧ u32 (entry_key r) ∧ u16 (listen_port r) ∧ u32 (peer_key r) ∧
  cstring_ok (name r) ∧ name r ≠ [] ∧ zlen (internal_ip r) = 4.

Lemma exact_ReqJoin r u1 u2 :
  ReqJoin_wf r → zlen u2 = 6 → exact ReqJoin_reader (ReqJoin_wire r u1 u2) r.
Proof.
  intros (H1 & H2 & H3 & H4 & H5 & H6 & H7) H8. unfold ReqJoin_reader, ReqJoin_wire.
  eapply exact_bind; [by apply exact_u32|]. eapply exact_bind; [by apply exact_u32|].
  eapply exact_bind; [apply exact_u8|]. eapply exact_bind; [by apply exact_u16|].
  eapply exact_bind; [by apply exact_u32|]. eapply exact_bind; [by apply exact_cstring|].
  destruct (Z.eqb_spec (zlen (name r)) 0) as [H0|_].
  { destruct (name r); [done|]. rewrite zlen_cons in H0. pose proof (zlen_nonneg l). lia. }
  eapply exact_bind; [by apply exact_bytes|]. rewrite <- (app_nil_r (internal_ip r)) at 1.
  eapply exact_bind; [by apply exact_bytes|]. destruct r. apply exact_ret.
Qed.

(** ** Properties *)

(** A well-formed join request decodes to its fields whatever the skipped bytes
    hold, and every truncation of it is an error instead of a misread. *)
Theorem req_join_decode r u1 u2 :
  ReqJoin_wf r → zlen u2 = 6 →
  ReqJoin_decode (ReqJoin_wire r u1 u2) = Ok r ∧
  ∀ cut, (cut < length (ReqJoin_wire r u1 u2))%nat →
         is_err (ReqJoin_decode (take cut (ReqJoin_wire r u1 u2))).
Proof.
  intros Hr Hu. pose proof (exact_ReqJoin r u1 u2 Hr Hu) as H. split.
  - by apply exact_run.
  - intros cut Hc. by apply (exact_run_cut _ _ r).
Qed.

Lemma req_join_decode_witness :
  let r := mkReqJoin 7 3735928559 6112 305419896 (str "Slash") [192; 168; 1; 50] in
  ReqJoin_decode (ReqJoin_wire r 0 [0; 0; 0; 0; 0; 0]) = Ok r.
Proof.
  apply req_join_decode; [|reflexivity]. repeat split; try (vm_compute; congruence).
  - apply valid_utf8_ascii. repeat constructor; vm_compute; congruence.
  - repeat constructor; vm_compute; congruence.
Defined.

(** A tick's action packet is one frame whose body carries the send interval,
    the two low bytes of the blocks' checksum, and blocks that parse back to the
    actions in order; no checksum is present when there is no action. *)
Theorem incoming_action_roundtrip crc32 actions si framed rest :
  u16 si → incoming_action crc32 actions si = Ok framed →
  ∃ body, header_decode W3GS_HEADER (framed ++ rest)
          = (Ok (Some (mkFrame ids.INCOMING_ACTION (le_bytes 2 si ++ body))), rest) ∧
  match actions with
  | [] => body = []
  | _ => let sub := encode_actions_raw actions in
         body = [Z.land (crc32 sub) 255; Z.land (Z.shiftr (crc32 sub) 8) 255] ++ sub ∧
         read_blocks (length sub) sub = Ok actions
  end.
Proof.
  intros Hsi. unfold incoming_action.
  destruct (action_payload crc32 actions si) as [p|] eqn:Hp; [|done].
  cbn [mbind result_bind]. intros Henc. apply action_payload_ok in Hp as [Hlens ->].
  eexists. split; [by apply (header_decode_encoded W3GS_HEADER)|].
  destruct actions as [|a actions]; [done|]. cbv zeta. split; [done|].
  by apply read_blocks_raw.
Qed.

Lemma incoming_action_roundtrip_witness :
  let actions := [mkActionBlock 1 [16; 32]; mkActionBlock 2 [48]] in
  ∃ body, header_decode W3GS_HEADER
            (unwrap_or (incoming_action zlen actions 100) [] ++ [9])
          = (Ok (Some (mkFrame ids.INCOMING_ACTION (le_bytes 2 100 ++ body))), [9]).
Proof.
  destruct (incoming_action_roundtrip zlen [mkActionBlock 1 [16; 32]; mkActionBlock 2 [48]] 100
    (unwrap_or (incoming_action zlen [mkActionBlock 1 [16; 32]; mkActionBlock 2 [48]] 100) [])
    [9]) as (body & H & _).
  - split; vm_compute; congruence.
  - vm_compute. reflexivity.
  - exists body. exact H.
Defined.

(** A slot-info packet always fits for the slot counts the engine uses, its inner
    length field is that of the block it announces, and the slots sit at nine
    bytes each behind their count. *)
Theorem slot_info_layout slots seed style players rest :
  zlen slots <= 255 →
  ∃ framed, slot_info slots seed style players = Ok framed ∧
  zlen framed = 4 + 2 + 1 + 9 * zlen slots + 6 ∧
  header_decode W3GS_HEADER (framed ++ rest)
  = (Ok (Some (mkFrame ids.SLOT_INFO (slot_block slots seed style players))), rest) ∧
  le_val (take 2 (slot_block slots seed style players))
  = zlen (drop 2 (slot_block slots seed style players)) ∧
  take (9 * length slots) (drop 3 (slot_block slots seed style players)) = encode_slots slots.
Proof.
  intros Hn. pose proof (zlen_nonneg slots) as Hp. pose proof (zlen_encode_slots slots) as He.
  set (inner := [wrap 8 (zlen slots)] ++ encode_slots slots ++ le_bytes 4 seed ++ [style; players]).
  assert (zlen inner = 7 + 9 * zlen slots) as Hinner.
  { subst inner. autorewrite with zlen. rewrite He. lia. }
  assert (slot_block slots seed style players = le_bytes 2 (zlen inner) ++ inner) as Hb.
  { unfold slot_block, WIRE_LEN. rewrite wrap_small.
    - f_equal. rewrite Hinner. f_equal. lia.
    - unfold uN. change (2 ^ 16) with 65536. lia. }
  destruct (encode_with_fits W3GS_HEADER ids.SLOT_INFO (slot_block slots seed style players))
    as [framed Hf].
  { rewrite Hb. autorewrite with zlen. lia. }
  exists framed. split; [done|]. split.
  { apply encode_with_ok in Hf as [_ ->]. cbn [fr_payload fr_id].
    rewrite Hb. autorewrite with zlen. lia. }
  split; [by apply header_decode_encoded|]. rewrite Hb.
  rewrite take_app_length', drop_app_length' by (by rewrite length_le_bytes). split.
  { apply le_val_round2. unfold uN. change (2 ^ 16) with 65536. lia. }
  change 3%nat with (2 + 1)%nat. rewrite <- drop_drop.
  rewrite drop_app_length' by (by rewrite length_le_bytes).
  subst inner. cbn [app]. simpl drop. rewrite drop_0. apply take_app_length'.
  unfold zlen in He. lia.
Qed.

Lemma slot_info_layout_witness :
  ∃ framed, slot_info (replicate 12 (mkSlot 0 255 0 0 0 0 32 1 100)) 42 0 12 = Ok framed ∧
            zlen framed = 4 + 2 + 1 + 9 * 12 + 6.
Proof.
  destruct (slot_info_layout (replicate 12 (mkSlot 0 255 0 0 0 0 32 1 100)) 42 0 12 [])
    as (framed & H1 & H2 & _); [vm_compute; congruence|].
  exists framed. split; [exact H1|exact H2].
Defined.
