(* ===== verification/Gps.v ===== *)
(** The GProxy++ reconnect protocol and its iCCup variant (spectre-protocol,
    src/gps/mod.rs): the host's packets and the decoders of the client's. *)
From S2P Require Import Prelude BytesExt Frame W3gs.

Definition GPS_HEADER : Z := 248.
Definition GPS_ICCUP_HEADER : Z := 111.

Module gps_ids.
Definition INIT : Z := 1.
Definition RECONNECT : Z := 2.
Definition ACK : Z := 3.
Definition REJECT : Z := 4.
Definition FULL : Z := 5.
End gps_ids.

Module iccup_ids.
Definition INIT : Z := 8.
Definition RECONNECT : Z := 22.
Definition ACK : Z := 50.
Definition REJECT : Z := 100.
End iccup_ids.

Module reject_reason.
Definition NOT_FOUND : Z := 1.
Definition INVALID_KEY : Z := 2.
End reject_reason.

Definition init (version pid reconnect_key num_empty_actions : Z) : bytes :=
  expect_frame GPS_HEADER (mkFrame gps_ids.INIT
    (le_bytes 4 version ++ [pid] ++ le_bytes 4 reconnect_key ++ [num_empty_actions])).

Definition ack (last_packet : Z) : bytes :=
  expect_frame GPS_HEADER (mkFrame gps_ids.ACK (le_bytes 4 last_packet)).

Definition reconnect_ok (last_packet : Z) : bytes :=
  expect_frame GPS_HEADER (mkFrame gps_ids.RECONNECT (le_bytes 4 last_packet)).

Definition reject (reason : Z) : bytes :=
  expect_frame GPS_HEADER (mkFrame gps_ids.REJECT (le_bytes 4 reason)).

Definition full (pid reconnect_key : Z) : bytes :=
  expect_frame GPS_HEADER (mkFrame gps_ids.FULL ([pid] ++ le_bytes 4 reconnect_key)).

Definition iccup_init (reconn_port pid reconnect_key num_empty_actions : Z) : bytes :=
  expect_frame GPS_ICCUP_HEADER (mkFrame iccup_ids.INIT
    (le_bytes 2 reconn_port ++ le_bytes 4 0 ++ [pid] ++ le_bytes 4 reconnect_key
       ++ [num_empty_actions])).

Definition iccup_reconnect_ok (last_packet : Z) : bytes :=
  expect_frame GPS_ICCUP_HEADER
    (mkFrame iccup_ids.RECONNECT (le_bytes 4 last_packet ++ le_bytes 4 0)).

Definition iccup_ack (last_packet : Z) : bytes :=
  expect_frame GPS_ICCUP_HEADER (mkFrame iccup_ids.ACK (le_bytes 4 last_packet)).

Definition iccup_reject (reason : Z) : bytes :=
  expect_frame GPS_ICCUP_HEADER (mkFrame iccup_ids.REJECT (le_bytes 4 reason)).

Record ReconnectReq := mkReconnectReq { rr_pid : Z; rr_reconnect_key : Z; rr_last_packet : Z }.

Definition reconnect_reader : reader ReconnectReq :=
  pid ← try_get_u8; reconnect_key ← try_get_u32_le; last_packet ← try_get_u32_le;
  mret (mkReconnectReq pid reconnect_key last_packet).
Definition decode_reconnect (payload : bytes) : result ProtoError ReconnectReq :=
  run reconnect_reader payload.

Definition full_reader : reader (Z * Z) :=
  pid ← try_get_u8; key ← try_get_u32_le; mret (pid, key).
Definition decode_full (payload : bytes) : result ProtoError (Z * Z) := run full_reader payload.

Lemma expect_frame_decode header id payload rest :
  zlen payload <= 65531 →
  header_decode header (expect_frame header (mkFrame id payload) ++ rest)
  = (Ok (Some (mkFrame id payload)), rest).
Proof. intros. apply header_decode_encoded. by apply fixed_frame_fits. Qed.

Lemma exact_full pid key : u32 key → exact full_reader ([pid] ++ le_bytes 4 key) (pid, key).
Proof. intros. unfold full_reader. exact_reads. Qed.

Lemma exact_reconnect r :
  u32 (rr_reconnect_key r) → u32 (rr_last_packet r) →
  exact reconnect_reader
    ([rr_pid r] ++ le_bytes 4 (rr_reconnect_key r) ++ le_bytes 4 (rr_last_packet r)) r.
Proof. intros. unfold reconnect_reader. destruct r. exact_reads. Qed.

(** A FULL token packet frames and decodes back to its pid and key, a reconnect
    request decodes to its fields, and a truncated one of either is refused. *)
Theorem gps_token_roundtrip pid key r rest :
  u32 key → u32 (rr_reconnect_key r) → u32 (rr_last_packet r) →
  let fp := [pid] ++ le_bytes 4 key in
  let rp := [rr_pid r] ++ le_bytes 4 (rr_reconnect_key r) ++ le_bytes 4 (rr_last_packet r) in
  header_decode GPS_HEADER (full pid key ++ rest) = (Ok (Some (mkFrame gps_ids.FULL fp)), rest) ∧
  decode_full fp = Ok (pid, key) ∧ decode_reconnect rp = Ok r ∧
  (∀ n, (n < 5)%nat → is_err (decode_full (take n fp))) ∧
  (∀ n, (n < 9)%nat → is_err (decode_reconnect (take n rp))).
Proof.
  intros Hk Hr1 Hr2 fp rp. repeat split.
  - apply expect_frame_decode. subst fp. autorewrite with zlen. lia.
  - by apply exact_run, exact_full.
  - by apply exact_run, exact_reconnect.
  - intros n Hn. apply (exact_run_cut _ _ (pid, key)); [by apply exact_full|].
    subst fp. simpl. rewrite length_le_bytes. lia.
  - intros n Hn. apply (exact_run_cut _ _ r); [by apply exact_reconnect|].
    subst rp. simpl. rewrite length_app, !length_le_bytes. lia.
Qed.

Lemma gps_token_roundtrip_witness :
  decode_full ([7] ++ le_bytes 4 3735928559) = Ok (7, 3735928559).
Proof.
  refine (proj1 (proj2 (gps_token_roundtrip 7 3735928559 (mkReconnectReq 3 3405691582 1234) [] _ _ _)));
    split; vm_compute; congruence.
Defined.
