(* ===== verification/DotaTv.v ===== *)
(** The DotaTV spectator protocol (spectre-protocol, src/dotatv.rs): the relay's
    packets, the viewer's packets, and their decoders. *)
From S2P Require Import Prelude Utf8 BytesExt Frame W3gs.

Definition DOTATV_HEADER : Z := 253.

Module dotatv_ids.
Definition HELLO : Z := 1.
Definition GAME_START_SNAPSHOT : Z := 2.
Definition PLAYER : Z := 3.
Definition ACTION : Z := 4.
Definition CHAT : Z := 5.
Definition GAME_OVER : Z := 6.
Definition HISTORY_END : Z := 7.
Definition SUBSCRIBE : Z := 128.
Definition CLIENT_CHAT : Z := 129.
End dotatv_ids.

Record GameStartSnapshot := mkSnapshot {
  sn_game_name : bytes; sn_map_path : bytes; sn_map_size : Z; sn_map_info_crc : Z;
  sn_map_crc : Z; sn_map_sha1 : bytes; sn_stat_string : bytes; sn_random_seed : Z;
  sn_layout_style : Z; sn_player_slots : Z; sn_war3_version : Z; sn_is_tft : bool;
  sn_slots : list SlotInfo }.

Record PlayerInfo := mkPlayerInfo {
  pi_pid : Z; pi_name : bytes; pi_colour : Z; pi_team : Z; pi_race : Z }.

Record SpectatorChat := mkSpectatorChat { sc_sender : bytes; sc_text : bytes }.

Definition dtv_frame (id : Z) (payload : bytes) : result ProtoError bytes :=
  encode_with DOTATV_HEADER (mkFrame id payload).

Definition encode_hello (version : Z) (server_name : bytes) : result ProtoError bytes :=
  dtv_frame dotatv_ids.HELLO (le_bytes 2 version ++ put_cstring server_name).

Definition hello_reader : reader (Z * bytes) :=
  version ← try_get_u16_le; server_name ← try_get_cstring; mret (version, server_name).
Definition decode_hello (payload : bytes) : result ProtoError (Z * bytes) :=
  run hello_reader payload.

Definition snapshot_payload (snap : GameStartSnapshot) : bytes :=
  put_cstring (sn_game_name snap) ++ put_cstring (sn_map_path snap)
    ++ le_bytes 4 (sn_map_size snap) ++ le_bytes 4 (sn_map_info_crc snap)
    ++ le_bytes 4 (sn_map_crc snap) ++ sn_map_sha1 snap ++ (sn_stat_string snap ++ [0])
    ++ le_bytes 4 (sn_random_seed snap) ++ [sn_layout_style snap] ++ [sn_player_slots snap]
    ++ [sn_war3_version snap] ++ [if sn_is_tft snap then 1 else 0]
    ++ [wrap 8 (zlen (sn_slots snap))] ++ encode_slots (sn_slots snap).

Definition encode_snapshot (snap : GameStartSnapshot) : result ProtoError bytes :=
  if 255 <? zlen (sn_slots snap) then Err (BadValue "too many slots in snapshot")
  else dtv_frame dotatv_ids.GAME_START_SNAPSHOT (snapshot_payload snap).

(** The byte loop that reads the stat string up to its NUL. *)
Fixpoint stat_string_loop (out b : bytes) : result ProtoError (bytes * bytes) :=
  match b with
  | [] => Err UnterminatedString
  | x :: b => if x =? 0 then Ok (out, b) else stat_string_loop (out ++ [x]) b
  end.

Definition slot_reader : reader SlotInfo :=
  pid ← try_get_u8; download_status ← try_get_u8; slot_status ← try_get_u8;
  computer ← try_get_u8; team ← try_get_u8; colour ← try_get_u8; race ← try_get_u8;
  computer_type ← try_get_u8; handicap ← try_get_u8;
  mret (mkSlot pid download_status slot_status computer team colour race computer_type handicap).

(** [for _ in 0..num_slots]. *)
Fixpoint slots_reader (n : nat) : reader (list SlotInfo) :=
  match n with
  | O => mret []
  | S n => slot ← slot_reader; slots ← slots_reader n; mret (slot :: slots)
  end.

Definition snapshot_reader : reader GameStartSnapshot :=
  game_name ← try_get_cstring;
  map_path ← try_get_cstring;
  map_size ← try_get_u32_le;
  map_info_crc ← try_get_u32_le;
  map_crc ← try_get_u32_le;
  map_sha1 ← try_get_bytes 20;
  stat_string ← stat_string_loop [];
  random_seed ← try_get_u32_le;
  layout_style ← try_get_u8;
  player_slots ← try_get_u8;
  war3_version ← try_get_u8;
  is_tft ← try_get_u8;
  num_slots ← try_get_u8;
  slots ← slots_reader (Z.to_nat num_slots);
  mret (mkSnapshot game_name map_path map_size map_info_crc map_crc map_sha1 stat_string
          random_seed layout_style player_slots war3_version (negb (is_tft =? 0)) slots).
Definition decode_snapshot (payload : bytes) : result ProtoError GameStartSnapshot :=
  run snapshot_reader payload.

Definition player_payload (p : PlayerInfo) : bytes :=
  [pi_pid p] ++ put_cstring (pi_name p) ++ [pi_colour p] ++ [pi_team p] ++ [pi_race p].
Definition encode_player (pid : Z) (name : bytes) (colour team race : Z)
  : result ProtoError bytes :=
  dtv_frame dotatv_ids.PLAYER (player_payload (mkPlayerInfo pid name colour team race)).

Definition player_reader : reader PlayerInfo :=
  pid ← try_get_u8; name ← try_get_cstring; colour ← try_get_u8; team ← try_get_u8;
  race ← try_get_u8; mret (mkPlayerInfo pid name colour team race).
Definition decode_player (payload : bytes) : result ProtoError PlayerInfo :=
  run player_reader payload.

Definition encode_action (w3gs_raw_frame : bytes) : result ProtoError bytes :=
  dtv_frame dotatv_ids.ACTION w3gs_raw_frame.

Definition decode_action (payload : bytes) : result ProtoError bytes :=
  if zlen payload <? 4 then Err (Truncated 4 (zlen payload)) else
  if negb (default 0 (payload !! 0%nat) =? W3GS_HEADER)
  then Err (BadValue "action frame missing 0xF7 header") else
  let len := le_val [default 0 (payload !! 2%nat); default 0 (payload !! 3%nat)] in
  if len <? 4 then Err (BadValue "action frame length below header size") else
  if zlen payload <? len then Err (Truncated len (zlen payload)) else
  Ok (take (Z.to_nat len) payload).

Definition encode_chat (sender text : bytes) : result ProtoError bytes :=
  dtv_frame dotatv_ids.CHAT (put_cstring sender ++ put_cstring text).
Definition chat_reader : reader SpectatorChat :=
  sender ← try_get_cstring; text ← try_get_cstring; mret (mkSpectatorChat sender text).
Definition decode_chat (payload : bytes) : result ProtoError SpectatorChat :=
  run chat_reader payload.

Definition encode_game_over (winner : bytes) : result ProtoError bytes :=
  dtv_frame dotatv_ids.GAME_OVER (put_cstring winner).
Definition decode_game_over (payload : bytes) : result ProtoError bytes :=
  run try_get_cstring payload.

Definition encode_history_end (count : Z) : result ProtoError bytes :=
  dtv_frame dotatv_ids.HISTORY_END (le_bytes 4 count).
Definition decode_history_end (payload : bytes) : result ProtoError Z := run try_get_u32_le payload.

Definition encode_subscribe (client_version : Z) : result ProtoError bytes :=
  dtv_frame dotatv_ids.SUBSCRIBE (le_bytes 2 client_version).
Definition decode_subscribe (payload : bytes) : result ProtoError Z := run try_get_u16_le payload.

Definition encode_client_chat (text : bytes) : result ProtoError bytes :=
  dtv_frame dotatv_ids.CLIENT_CHAT (put_cstring text).
Definition decode_client_chat (payload : bytes) : result ProtoError bytes :=
  run try_get_cstring payload.

(** ** Layout lemmas *)

Lemma stat_string_loop_app out s rest :
  Forall (λ b, b ≠ 0) s → stat_string_loop out (s ++ [0] ++ rest) = Ok (out ++ s, rest).
Proof.
  intros Hs. revert out. induction Hs as [|x s Hx Hs IH]; intros out; simpl.
  - by rewrite app_nil_r.
  - destruct (Z.eqb_spec x 0); [done|]. setoid_rewrite IH. by rewrite <- app_assoc.
Qed.

Lemma stat_string_loop_cut out s :
  Forall (λ b, b ≠ 0) s → stat_string_loop out s = Err UnterminatedString.
Proof.
  intros Hs. revert out. induction Hs as [|x s Hx Hs IH]; intros out; simpl; [done|].
  destruct (Z.eqb_spec x 0); [done|apply IH].
Qed.

Lemma exact_stat_string s : Forall (λ b, b ≠ 0) s → exact (stat_string_loop []) (s ++ [0]) s.
Proof.
  intros Hs. split.
  - intros rest. rewrite <- app_assoc. by rewrite stat_string_loop_app.
  - intros p q Hpq Hq. exists UnterminatedString. apply stat_string_loop_cut.
    destruct q as [|y q _] using rev_ind; [done|].
    rewrite app_assoc in Hpq. apply app_inj_tail in Hpq as [-> _].
    by apply Forall_app in Hs as [Hp _].
Qed.

Lemma exact_slot s : exact slot_reader (SlotInfo_encode s) s.
Proof.
  destruct s as [a b c d e f g h i]. unfold slot_reader, SlotInfo_encode. cbn.
  change [a; b; c; d; e; f; g; h; i]
    with ([a] ++ [b] ++ [c] ++ [d] ++ [e] ++ [f] ++ [g] ++ [h] ++ [i]).
  exact_reads.
Qed.

Lemma exact_slots slots : exact (slots_reader (length slots)) (encode_slots slots) slots.
Proof.
  unfold encode_slots. induction slots as [|s slots IH]; [apply exact_ret|].
  cbn [length slots_reader map concat]. eapply exact_bind; [apply exact_slot|].
  eapply exact_bind_last; [exact IH|apply exact_ret].
Qed.
#[export] Hint Resolve exact_stat_string exact_slots : exact.

(** The values a [GameStartSnapshot] holds in the program. *)
Definition snapshot_wf (s : GameStartSnapshot) : Prop :=
  cstring_ok (sn_game_name s) ∧ cstring_ok (sn_map_path s) ∧ u32 (sn_map_size s) ∧
  u32 (sn_map_info_crc s) ∧ u32 (sn_map_crc s) ∧ zlen (sn_map_sha1 s) = 20 ∧
  Forall (λ b, b ≠ 0) (sn_stat_string s) ∧ u32 (sn_random_seed s) ∧ zlen (sn_slots s) <= 255.

Lemma exact_snapshot s : snapshot_wf s → exact snapshot_reader (snapshot_payload s) s.
Proof.
  intros (H1 & H2 & H3 & H4 & H5 & H6 & H7 & H8 & H9).
  unfold snapshot_reader, snapshot_payload. pose proof (zlen_nonneg (sn_slots s)).
  do 13 (eapply exact_bind; [exact_field|]).
  rewrite wrap_small by (unfold uN; change (2 ^ 8) with 256; lia).
  unfold zlen at 1. rewrite Nat2Z.id.
  eapply exact_bind_last; [apply exact_slots|]. destruct s as [? ? ? ? ? ? ? ? ? ? ? []]; apply exact_ret.
Qed.

Lemma exact_player p : cstring_ok (pi_name p) → exact player_reader (player_payload p) p.
Proof. intros. unfold player_reader, player_payload. destruct p. exact_reads. Qed.

Lemma exact_hello v n :
  u16 v → cstring_ok n → exact hello_reader (le_bytes 2 v ++ put_cstring n) (v, n).
Proof. intros. unfold hello_reader. exact_reads. Qed.

Lemma exact_chat s t :
  cstring_ok s → cstring_ok t →
  exact chat_reader (put_cstring s ++ put_cstring t) (mkSpectatorChat s t).
Proof. intros. unfold chat_reader. exact_reads. Qed.

(** A viewer's path from the wire to the decoded value. *)
Definition receive {A} (decode : bytes → result ProtoError A) (wire : bytes)
  : option (Z * result ProtoError A) :=
  match header_decode DOTATV_HEADER wire with
  | (Ok (Some f), _) => Some (fr_id f, decode (fr_payload f))
  | _ => None
  end.

Lemma receive_encoded {A} (decode : bytes → result ProtoError A) id payload wire v :
  dtv_frame id payload = Ok wire → decode payload = Ok v →
  receive decode wire = Some (id, Ok v).
Proof.
  intros Henc Hd. unfold receive. pose proof (header_decode_encoded _ _ _ [] Henc) as H.
  rewrite app_nil_r in H. rewrite H. cbn [fr_id fr_payload]. by rewrite Hd.
Qed.

Lemma frame_zlen header f bs : encode_with header f = Ok bs → zlen bs <= 65535.
Proof.
  intros [Hlen ->]%encode_with_ok. pose proof (zlen_nonneg (fr_payload f)).
  autorewrite with zlen. lia.
Qed.

(** [decode_action] accepts what [Frame::encode] built and gives it back, whatever
    follows it in the payload. *)
Lemma decode_action_encoded f bs rest :
  encode f = Ok bs → decode_action (bs ++ rest) = Ok bs.
Proof.
  intros Henc. pose proof (frame_zlen _ _ _ Henc) as Hmax.
  apply encode_with_ok in Henc as [Hlen ->]. pose proof (zlen_nonneg (fr_payload f)) as Hp.
  destruct f as [id payload]. cbn [fr_id fr_payload] in *.
  assert (u16 (4 + zlen payload)) as Hu by (unfold uN; change (2 ^ 16) with 65536; lia).
  pose proof (le_val_round2 _ Hu) as Hv. pose proof (length_le_bytes 2 (4 + zlen payload)) as Hl.
  destruct (le_bytes 2 (4 + zlen payload)) as [|l0 [|l1 [|? ?]]]; try done.
  unfold decode_action. cbn [app lookup list_lookup default]. pose proof (zlen_nonneg rest).
  rewrite !zlen_cons, zlen_app. destruct (Z.ltb_spec (1 + (1 + (1 + (1 + (zlen payload + zlen rest))))) 4); [lia|].
  rewrite Z.eqb_refl. cbn [negb]. unfold Datatypes.id. rewrite Hv.
  destruct (Z.ltb_spec (4 + zlen payload) 4); [lia|].
  destruct (Z.ltb_spec (1 + (1 + (1 + (1 + (zlen payload + zlen rest))))) (4 + zlen payload)); [lia|].
  f_equal. apply (take_app_length' (W3GS_HEADER :: id :: l0 :: l1 :: payload)).
  unfold zlen. cbn [length]. lia.
Qed.

(** A snapshot the relay sends reaches the viewer as it was, and a truncated one
    is an error; one with more than 255 slots is refused by the encoder. *)
Theorem snapshot_roundtrip snap wire :
  snapshot_wf snap → encode_snapshot snap = Ok wire →
  receive decode_snapshot wire = Some (dotatv_ids.GAME_START_SNAPSHOT, Ok snap) ∧
  ∀ cut, (cut < length (snapshot_payload snap))%nat →
         is_err (decode_snapshot (take cut (snapshot_payload snap))).
Proof.
  intros Hwf. pose proof (exact_snapshot snap Hwf) as He. unfold encode_snapshot.
  destruct (255 <? zlen (sn_slots snap)); [done|]. intros Henc. split.
  - eapply receive_encoded; [exact Henc|]. by apply exact_run.
  - intros cut Hc. by apply (exact_run_cut _ _ snap).
Qed.

Definition sample_snapshot : GameStartSnapshot :=
  mkSnapshot (str "DotA Live") (str "Maps\dota.w3x") 12345678 287454020 1432778632
    (replicate 20 7) [171; 187; 205] 42 0 10 26 true [mkSlot 0 255 2 0 0 1 1 0 100].

Lemma sample_snapshot_wf : snapshot_wf sample_snapshot.
Proof.
  assert (∀ s, forallb (λ b, (0 <? b) && (b <? 128)) s = true → cstring_ok s) as Hc.
  { intros s Hs. rewrite forallb_forall in Hs. split.
    - apply valid_utf8_ascii, Forall_forall. intros b Hb. apply list_elem_of_In in Hb.
      apply Hs in Hb. apply andb_true_iff in Hb as [_ Hb]. by apply Z.ltb_lt.
    - apply Forall_forall. intros b Hb. apply list_elem_of_In in Hb. apply Hs in Hb.
      apply andb_true_iff in Hb as [Hb _]. apply Z.ltb_lt in Hb. lia. }
  repeat split; try (apply Hc; vm_compute; reflexivity); try (vm_compute; congruence).
  repeat constructor; vm_compute; congruence.
Qed.

Lemma snapshot_roundtrip_witness :
  receive decode_snapshot (unwrap_or (encode_snapshot sample_snapshot) [])
  = Some (dotatv_ids.GAME_START_SNAPSHOT, Ok sample_snapshot).
Proof.
  refine (proj1 (snapshot_roundtrip sample_snapshot _ sample_snapshot_wf _)).
  vm_compute. reflexivity.
Defined.

(** Every other DotaTV message decodes to what was encoded. *)
Theorem dotatv_messages_roundtrip version count (nm text : bytes) p :
  u16 version → u32 count → cstring_ok nm → cstring_ok text → cstring_ok (pi_name p) →
  (∀ w, encode_hello version nm = Ok w →
        receive decode_hello w = Some (dotatv_ids.HELLO, Ok (version, nm))) ∧
  (∀ w, encode_player (pi_pid p) (pi_name p) (pi_colour p) (pi_team p) (pi_race p) = Ok w →
        receive decode_player w = Some (dotatv_ids.PLAYER, Ok p)) ∧
  (∀ w, encode_chat nm text = Ok w →
        receive decode_chat w = Some (dotatv_ids.CHAT, Ok (mkSpectatorChat nm text))) ∧
  (∀ w, encode_game_over nm = Ok w →
        receive decode_game_over w = Some (dotatv_ids.GAME_OVER, Ok nm)) ∧
  (∀ w, encode_history_end count = Ok w →
        receive decode_history_end w = Some (dotatv_ids.HISTORY_END, Ok count)) ∧
  (∀ w, encode_subscribe version = Ok w →
        receive decode_subscribe w = Some (dotatv_ids.SUBSCRIBE, Ok version)) ∧
  (∀ w, encode_client_chat text = Ok w →
        receive decode_client_chat w = Some (dotatv_ids.CLIENT_CHAT, Ok text)).
Proof.
  intros Hv Hc Hn Ht Hp.
  split_and!; intros w Hw; (eapply receive_encoded; [exact Hw|]; apply exact_run).
  - by apply exact_hello.
  - destruct p. by apply exact_player.
  - by apply exact_chat.
  - by apply exact_cstring.
  - by apply exact_u32.
  - by apply exact_u16.
  - by apply exact_cstring.
Qed.

Lemma dotatv_messages_roundtrip_witness :
  receive decode_hello (unwrap_or (encode_hello 42 []) []) = Some (dotatv_ids.HELLO, Ok (42, [])).
Proof.
  refine (proj1 (dotatv_messages_roundtrip 42 0 [] [] (mkPlayerInfo 0 [] 0 0 0) _ _ _ _ _) _ _);
    [split; vm_compute; congruence|split; vm_compute; congruence|repeat constructor..|].
  vm_compute. reflexivity.
Defined.

(** A game frame small enough to be relayed survives the DotaTV envelope byte for
    byte; one whose envelope would not fit is refused. *)
Theorem action_relay_roundtrip f bs :
  encode f = Ok bs →
  match encode_action bs with
  | Ok wire => receive decode_action wire = Some (dotatv_ids.ACTION, Ok bs)
  | Err e => e = TooLarge (4 + zlen bs) ∧ 65531 < zlen bs
  end.
Proof.
  intros Henc. destruct (encode_action bs) as [wire|e] eqn:Ha.
  - eapply receive_encoded; [exact Ha|]. rewrite <- (app_nil_r bs) at 1.
    by eapply decode_action_encoded.
  - unfold encode_action, dtv_frame in Ha.
    apply encode_with_err in Ha as [Hl ->]. done.
Qed.

Lemma action_relay_roundtrip_witness :
  match encode_action [247; 12; 6; 0; 100; 0] with
  | Ok wire => receive decode_action wire = Some (dotatv_ids.ACTION, Ok [247; 12; 6; 0; 100; 0])
  | Err e => e = TooLarge (4 + zlen [247; 12; 6; 0; 100; 0]) ∧ 65531 < zlen [247; 12; 6; 0; 100; 0]
  end.
Proof. apply (action_relay_roundtrip (mkFrame 12 [100; 0])). vm_compute. reflexivity. Defined.
