(* ===== verification/Conn.v ===== *)
(** Connections (spectre-net, src/conn.rs): the codec that separates the three
    protocols a game connection carries, and the bounded send queue behind a
    [PlayerLink]. *)
From S2P Require Import Prelude BytesExt Frame W3gs Gps DotaTv.

(** ** Codecs *)

Inductive AnyFrame :=
| FW3gs (f : Frame)
| FGps (f : Frame)
| FIccupGps (f : Frame)
| FDotaTv (f : Frame).

Definition map_decoded {A B} (g : A → B) (x : result ProtoError (option A) * bytes)
  : result ProtoError (option B) * bytes :=
  (match x.1 with Ok o => Ok (option_map g o) | Err e => Err e end, x.2).

Definition dotatv_conn_decode (src : bytes) : result ProtoError (option AnyFrame) * bytes :=
  map_decoded FDotaTv (header_decode DOTATV_HEADER src).

Definition is_dual_header (b : Z) : bool :=
  (b =? W3GS_HEADER) || (b =? GPS_HEADER) || (b =? GPS_ICCUP_HEADER).

(** [DualCodec::decode]: the skipping loop is [resync], then the codec of the header
    byte in front decodes. *)
Definition dual_decode (src : bytes) : result ProtoError (option AnyFrame) * bytes :=
  match resync is_dual_header src with
  | None => (Ok None, [])
  | Some [] => (Ok None, [])
  | Some (h :: rest) =>
    if h =? W3GS_HEADER then map_decoded FW3gs (header_decode W3GS_HEADER (h :: rest))
    else if h =? GPS_HEADER then map_decoded FGps (header_decode GPS_HEADER (h :: rest))
    else map_decoded FIccupGps (header_decode GPS_ICCUP_HEADER (h :: rest))
  end.

(** The constructor chosen by a header byte. *)
Definition dual_tag (h : Z) : Frame → AnyFrame :=
  if h =? W3GS_HEADER then FW3gs else if h =? GPS_HEADER then FGps else FIccupGps.

Definition head_tag (s : bytes) : Frame → AnyFrame :=
  match s with [] => FW3gs | h :: _ => dual_tag h end.

Lemma header_decode_front H s :
  header_decode H (H :: s) = decode_at (H :: s).
Proof.
  unfold header_decode. rewrite resync_fix; [done|]. intros x [= <-]. apply Z.eqb_refl.
Qed.

(** After the resynchronisation the codec is one decoder with a tag. *)
Lemma dual_decode_eq src :
  dual_decode src =
  match resync is_dual_header src with
  | None => (Ok None, [])
  | Some s => map_decoded (head_tag s) (decode_at s)
  end.
Proof.
  unfold dual_decode. destruct (resync is_dual_header src) as [[|h rest]|] eqn:Hr; try done.
  pose proof (resync_head _ _ _ Hr h eq_refl) as Hh. cbn [head_tag]. unfold dual_tag.
  destruct (Z.eqb_spec h W3GS_HEADER) as [->|H1]; [by rewrite header_decode_front|].
  destruct (Z.eqb_spec h GPS_HEADER) as [->|H2]; [by rewrite header_decode_front|].
  unfold is_dual_header in Hh. rewrite (proj2 (Z.eqb_neq _ _) H1), (proj2 (Z.eqb_neq _ _) H2) in Hh.
  apply Z.eqb_eq in Hh as ->. by rewrite header_decode_front.
Qed.

Lemma map_decoded_inv {A B} (g : A → B) x r s :
  map_decoded g x = (r, s) → ∃ r0, x = (r0, s) ∧
  r = match r0 with Ok o => Ok (option_map g o) | Err e => Err e end.
Proof. destruct x as [r0 s0]. unfold map_decoded. intros [= <- <-]. eauto. Qed.

Lemma head_tag_app s t : s ≠ [] → head_tag (s ++ t) = head_tag s.
Proof. by destruct s. Qed.

(** A resynchronised decoder with a tag satisfies the stream interface. *)
Lemma dual_decided src b r s :
  dual_decode src = (r, s) → r ≠ Ok None → dual_decode (src ++ b) = (r, s ++ b).
Proof.
  rewrite !dual_decode_eq. intros Hd Hne.
  destruct (resync is_dual_header src) as [a|] eqn:Hr; [|naive_solver].
  apply map_decoded_inv in Hd as (r0 & Hd & ->).
  assert (r0 ≠ Ok None) as Hr0 by (by intros ->).
  assert (a ≠ []) as Ha by (by eapply decode_at_nonempty).
  rewrite (resync_app _ _ _ _ Hr Ha), (decode_at_app _ b _ _ Hd Hr0).
  by rewrite head_tag_app.
Qed.

#[export] Instance dual_decode_laws : DecoderLaws dual_decode.
Proof.
  split.
  - intros. by apply dual_decided.
  - intros. by apply dual_decided.
  - intros a b s. rewrite !dual_decode_eq. intros Hd.
    destruct (resync is_dual_header a) as [src|] eqn:Hr.
    + apply map_decoded_inv in Hd as (r0 & Hd & Hn). destruct r0 as [[?|]|?]; try done.
      apply decode_at_wait_id in Hd as ->. destruct src as [|x src].
      { apply resync_nil in Hr as ->. done. }
      rewrite (resync_app _ _ _ _ Hr) by done. rewrite resync_fix; [done|].
      intros y Hy. by eapply resync_head.
    + injection Hd as <-. rewrite app_nil_l. destruct b as [|y b].
      * by rewrite app_nil_r, Hr.
      * by rewrite resync_app_None.
  - intros a r s. rewrite dual_decode_eq. intros Hd Hne.
    destruct (resync is_dual_header a) as [src|] eqn:Hr; [|naive_solver].
    apply map_decoded_inv in Hd as (r0 & Hd & ->). apply resync_length in Hr.
    apply decode_at_progress in Hd; [lia|]. by intros ->.
Qed.

(** The header byte and the frame behind a tagged frame. *)
Definition any_header (a : AnyFrame) : Z :=
  match a with
  | FW3gs _ => W3GS_HEADER | FGps _ => GPS_HEADER
  | FIccupGps _ => GPS_ICCUP_HEADER | FDotaTv _ => DOTATV_HEADER
  end.
Definition any_frame (a : AnyFrame) : Frame :=
  match a with FW3gs f | FGps f | FIccupGps f | FDotaTv f => f end.
Definition is_game_frame (a : AnyFrame) : Prop :=
  match a with FDotaTv _ => False | _ => True end.

Lemma dual_decode_encoded a bs rest :
  is_game_frame a → encode_with (any_header a) (any_frame a) = Ok bs →
  dual_decode (bs ++ rest) = (Ok (Some a), rest).
Proof.
  intros Hg Henc. rewrite dual_decode_eq.
  assert (∃ t, bs = any_header a :: t) as [t ->].
  { apply encode_with_ok in Henc as [_ ->]. eauto. }
  rewrite resync_fix by (intros x [= <-]; by destruct a).
  rewrite (decode_at_encoded _ _ _ _ Henc). by destruct a.
Qed.

(** C24: packets of the three protocols may be interleaved on one connection and cut
    anywhere by the socket: the reader yields each of them, tagged with its
    protocol, in order. *)
Theorem dual_stream_roundtrip frames bss pieces :
  Forall2 (λ a bs, is_game_frame a ∧ encode_with (any_header a) (any_frame a) = Ok bs)
          frames bss →
  concat pieces = concat bss →
  feed dual_decode [] pieces = (map Ok frames, []).
Proof.
  intros Hall Hp. rewrite feed_drain by (reflexivity || apply _). rewrite Hp. cbn [app].
  clear Hp. induction Hall as [|a bs frames bss [Hg Henc] _ IH]; [done|]. cbn [concat].
  rewrite drain_unfold by apply _. by rewrite (dual_decode_encoded _ _ _ Hg Henc), IH.
Qed.

Lemma dual_stream_roundtrip_witness :
  feed dual_decode [] [[247; 39; 4]; [0; 248; 3; 4; 0; 111]; [50; 4; 0]]
  = (map Ok [FW3gs (mkFrame 39 []); FGps (mkFrame 3 []); FIccupGps (mkFrame 50 [])], []).
Proof.
  apply (dual_stream_roundtrip _ [[247; 39; 4; 0]; [248; 3; 4; 0]; [111; 50; 4; 0]]).
  - repeat constructor.
  - reflexivity.
Defined.

(** ** Connection events *)

Inductive CloseReason :=
| PeerClosed
| Protocol (e : ProtoError)
| Io (e : bytes)
| WriterBackpressure.

Inductive ConnEventKind :=
| EvFrame (f : AnyFrame)
| EvClosed (reason : CloseReason).

Record ConnEvent := mkConnEvent { ev_conn_id : Z; ev_kind : ConnEventKind }.

(** ** Bounded channels

    A [tokio::sync::mpsc] channel as its sender sees it: every message accepted so
    far in order, how many of them the receiver has taken, the capacity, and
    whether the receiver is gone.  The queue is what was accepted and not taken.  How many
    messages it refused is counted for the statements about it; no operation looks at it. *)
Record Chan (A : Type) := mkChan {
  ch_cap : nat; ch_closed : bool; ch_sent : list A; ch_taken : nat; ch_refused : nat }.
Arguments mkChan {A}.
Arguments ch_cap {A}.
Arguments ch_closed {A}.
Arguments ch_sent {A}.
Arguments ch_taken {A}.
Arguments ch_refused {A}.

Inductive LinkError := Backpressure | Closed.

Definition ch_queue {A} (c : Chan A) : list A := drop (ch_taken c) (ch_sent c).

Definition note_refused {A} (c : Chan A) : Chan A :=
  mkChan (ch_cap c) (ch_closed c) (ch_sent c) (ch_taken c) (S (ch_refused c)).

(** [PlayerLink::try_send]: [TrySendError::Closed] when the receiver is gone,
    [TrySendError::Full] when the queue holds [capacity] messages. *)
Definition try_send {A} (c : Chan A) (m : A) : Chan A * result LinkError () :=
  if ch_closed c then (note_refused c, Err Closed)
  else if (ch_cap c <=? length (ch_queue c))%nat then (note_refused c, Err Backpressure)
  else (mkChan (ch_cap c) (ch_closed c) (ch_sent c ++ [m]) (ch_taken c) (ch_refused c), Ok ()).

(** The sender after a [try_send] whose answer is dropped. *)
Definition send_ignore {A} (c : Chan A) (m : A) : Chan A := (try_send c m).1.

(** The receiving side: it takes the oldest queued message, or it goes away. *)
Definition recv {A} (c : Chan A) : Chan A :=
  match ch_queue c with
  | [] => c
  | _ => mkChan (ch_cap c) (ch_closed c) (ch_sent c) (S (ch_taken c)) (ch_refused c)
  end.

Definition new_chan {A} (cap : nat) : Chan A := mkChan cap false [] 0 0.

Definition chan_wf {A} (c : Chan A) : Prop :=
  (ch_taken c <= length (ch_sent c))%nat ∧ (length (ch_queue c) <= ch_cap c)%nat.

Abbreviation PlayerLink := (Chan bytes).

Lemma try_send_cases {A} (c : Chan A) m :
  (try_send c m = (mkChan (ch_cap c) (ch_closed c) (ch_sent c ++ [m]) (ch_taken c) (ch_refused c), Ok ())
   ∧ ch_closed c = false ∧ (length (ch_queue c) < ch_cap c)%nat) ∨
  (try_send c m = (note_refused c, Err Backpressure) ∧ ch_closed c = false) ∨
  (try_send c m = (note_refused c, Err Closed) ∧ ch_closed c = true).
Proof.
  unfold try_send. destruct (ch_closed c); [naive_solver|].
  destruct (Nat.leb_spec (ch_cap c) (length (ch_queue c))); [naive_solver|].
  left. repeat split; auto.
Qed.

Lemma send_ignore_sent {A} (c : Chan A) m :
  ch_sent (send_ignore c m) = ch_sent c ∨ ch_sent (send_ignore c m) = ch_sent c ++ [m].
Proof.
  unfold send_ignore. destruct (try_send_cases c m) as [(->&_)|[(->&_)|(->&_)]]; naive_solver.
Qed.

(** A link never loses, reorders or invents a message it accepted, never queues
    more than its capacity, and refuses only when full or closed. *)
Theorem try_send_spec {A} (c : Chan A) m :
  chan_wf c →
  chan_wf (try_send c m).1 ∧ chan_wf (recv c) ∧ ch_sent (recv c) = ch_sent c ∧
  match try_send c m with
  | (c', Ok _) => ch_queue c' = ch_queue c ++ [m]
  | (c', Err e) => c' = note_refused c ∧ match e with
                            | Backpressure => length (ch_queue c) = ch_cap c
                            | Closed => ch_closed c = true
                            end
  end.
Proof.
  intros [Ht Hq].
  assert (chan_wf (recv c)) as Hr.
  { unfold recv. destruct (ch_queue c) as [|x q] eqn:E; [by split; rewrite ?E|].
    assert (length (ch_queue c) = S (length q)) as El by (by rewrite E).
    unfold chan_wf, ch_queue in *. cbn [ch_taken ch_sent ch_cap] in *.
    rewrite length_drop in *. simpl in Hq. lia. }
  assert (ch_sent (recv c) = ch_sent c) as Hs by (unfold recv; by destruct (ch_queue c)).
  unfold try_send. destruct (ch_closed c) eqn:Hc; [repeat split; auto; apply Hr|].
  destruct (Nat.leb_spec (ch_cap c) (length (ch_queue c))) as [Hle|Hlt].
  { repeat split; auto; [apply Hr..|]. lia. }
  unfold chan_wf, ch_queue in *. cbn [fst ch_taken ch_sent ch_cap].
  rewrite drop_app_le by lia. rewrite !length_app. cbn [length].
  repeat split; try apply Hr; try done; lia.
Qed.

Lemma try_send_spec_witness :
  ch_queue (try_send (mkChan 4 false [[1]; [2]] 1 0) [3]).1 = [[2]; [3]].
Proof.
  assert (chan_wf (mkChan 4 false [[1]; [2]] 1 0)) as H by (split; vm_compute; lia).
  pose proof (try_send_spec (mkChan 4 false [[1]; [2]] 1 0) [3] H) as (_ & _ & _ & Hq). exact Hq.
Defined.
