(* ===== verification/ConnTask.v ===== *)
(** The tasks of a connection (spectre-net, src/conn.rs: [spawn_conn_with_codec]): one reads frames
    from the socket and sends them on as events, one writes to the socket what a [PlayerLink]
    accepted.

    The framed reader of tokio-util is a parameter: what its [next] answers, given what the
    decoder yields on the whole stream.  The receiver of the events may go away at any time, a
    write may fail, and either task may be scheduled at any time: these are the inputs. *)
From S2P Require Import Prelude BytesExt Frame W3gs Gps DotaTv Conn.

Record ConnTask := mkTask {
  ct_link : PlayerLink;
  ct_link_dropped : bool;
  ct_reading : bool;
  ct_writing : bool;
  ct_cancelled : bool;
  ct_events : list ConnEvent;
  ct_written : list bytes }.

(** [spawn_conn_with_codec]. *)
Definition spawn_conn (write_capacity : nat) : ConnTask := mkTask (new_chan write_capacity) false true true false [] [].

(** What [FramedRead::next] answers: a frame, an error, or that there is no more. *)
Abbreviation Answer := (option (result ProtoError AnyFrame)).

Inductive ConnInput :=
| InNext (answer : Answer) (receiver_gone : bool)
| InWrite (succeeds : bool)
| InCancelSeen
| InSend (m : bytes)
| InDropLink.

(** ** The reader *)

Definition send_event (gone : bool) (ev : ConnEvent) (t : ConnTask) : ConnTask :=
  if gone then t else t <| ct_events ::= λ l, l ++ [ev] |>.

Definition stop_reading (t : ConnTask) : ConnTask := t <| ct_reading := false |> <| ct_cancelled := true |>.

(** [None] when the loop goes on. *)
Definition close_reason (answer : Answer) : option CloseReason :=
  match answer with
  | Some (Ok _) => None
  | Some (Err (BadValue _)) => None
  | Some (Err e) => Some (Protocol e)
  | None => Some PeerClosed
  end.

Definition reader_turn (conn_id : Z) (answer : Answer) (gone : bool) (t : ConnTask) : ConnTask :=
  match answer with
  | Some (Ok frame) =>
    if gone then stop_reading t else send_event gone (mkConnEvent conn_id (EvFrame frame)) t
  | _ =>
    match close_reason answer with
    | None => t
    | Some reason => send_event gone (mkConnEvent conn_id (EvClosed reason)) (stop_reading t)
    end
  end.

(** ** The writer *)

(** The receiver of the link goes with the task. *)
Definition close_link (c : PlayerLink) : PlayerLink := mkChan (ch_cap c) true (ch_sent c) (ch_taken c) (ch_refused c).
Definition stop_writing (t : ConnTask) : ConnTask := t <| ct_writing := false |> <| ct_link ::= close_link |>.

(** The branch of the queue: a message is written, or the link is gone and nothing is queued. *)
Definition writer_turn (succeeds : bool) (t : ConnTask) : ConnTask :=
  match ch_queue (ct_link t) with
  | m :: _ =>
    let t := t <| ct_link ::= recv |> in
    if succeeds then t <| ct_written ::= λ l, l ++ [m] |> else stop_writing t
  | [] => if ct_link_dropped t then stop_writing t else t
  end.

Definition conn_turn (conn_id : Z) (i : ConnInput) (t : ConnTask) : ConnTask :=
  match i with
  | InNext answer gone => if ct_reading t then reader_turn conn_id answer gone t else t
  | InWrite succeeds => if ct_writing t then writer_turn succeeds t else t
  | InCancelSeen => if ct_writing t && ct_cancelled t then stop_writing t else t
  | InSend m => if ct_link_dropped t then t else t <| ct_link ::= λ c, (try_send c m).1 |>
  | InDropLink => t <| ct_link_dropped := true |>
  end.

Definition run_conn (conn_id : Z) (inputs : list ConnInput) (t : ConnTask) : ConnTask := foldl (λ t i, conn_turn conn_id i t) t inputs.

(** ** The framed reader *)

(** [next_answers results rest]: the answers when the decoder yields [results] on the stream up to
    its end and leaves [rest] undecoded. *)
Class FramedRead := { next_answers : list (result ProtoError AnyFrame) → bytes → list Answer }.

(** As its documentation has it: frames are given in order; an error of the decoder is given once
    and the answer after it is that there is no more; bytes left at the end of the stream are an
    error, and without them the end is the end. *)
Class FramedReadLaws `{FramedRead} : Prop := {
  framed_end : ∀ fs, ∃ more, next_answers (map Ok fs) [] = map (λ f, Some (Ok f)) fs ++ None :: more;
  framed_left : ∀ fs rest, rest ≠ [] → ∃ kind more,
    next_answers (map Ok fs) rest = map (λ f, Some (Ok f)) fs ++ Some (Err (BytesExt.Io kind)) :: more;
  framed_error : ∀ fs e results rest, ∃ more,
    next_answers (map Ok fs ++ Err e :: results) rest = map (λ f, Some (Ok f)) fs ++ Some (Err e) :: None :: more }.

(** The answers of [next] among the inputs. *)
Definition answers_of (inputs : list ConnInput) : list Answer :=
  omap (λ i, match i with InNext a _ => Some a | _ => None end) inputs.
Definition receiver_stays (inputs : list ConnInput) : Prop :=
  Forall (λ i, match i with InNext _ gone => gone = false | _ => True end) inputs.
Definition frame_event (conn_id : Z) (f : AnyFrame) : ConnEvent := mkConnEvent conn_id (EvFrame f).

(** ** The reader's events *)

(** What the loop of the reader sends, given the answers it gets. *)
Fixpoint read_events (conn_id : Z) (answers : list Answer) : list ConnEvent :=
  match answers with
  | [] => []
  | a :: answers =>
    match a with
    | Some (Ok f) => frame_event conn_id f :: read_events conn_id answers
    | _ => match close_reason a with
           | None => read_events conn_id answers
           | Some r => [mkConnEvent conn_id (EvClosed r)]
           end
    end
  end.

(** Whether the loop has ended. *)
Definition read_ends (answers : list Answer) : bool := existsb (λ a, match close_reason a with Some _ => true | None => false end) answers.

Section reader.
Context (conn_id : Z).

Lemma other_turn i t :
  match i with InNext _ _ => False | _ => True end →
  ct_events (conn_turn conn_id i t) = ct_events t ∧ ct_reading (conn_turn conn_id i t) = ct_reading t.
Proof.
  intros Hi. destruct i; cbn [conn_turn]; [done|..].
  - destruct (ct_writing t); [|done]. unfold writer_turn. destruct (ch_queue _); [by destruct (ct_link_dropped t)|by destruct succeeds].
  - by destruct (_ && _).
  - by destruct (ct_link_dropped t).
  - done.
Qed.

Lemma not_reading inputs t :
  ct_reading t = false → ct_events (run_conn conn_id inputs t) = ct_events t ∧ ct_reading (run_conn conn_id inputs t) = false.
Proof.
  revert t. induction inputs as [|i inputs IH]; intros t Ht; [done|]. cbn [run_conn foldl].
  assert (ct_events (conn_turn conn_id i t) = ct_events t ∧ ct_reading (conn_turn conn_id i t) = false) as [<- Hr].
  { destruct i; try (rewrite <- Ht; by apply other_turn). cbn [conn_turn]. by rewrite Ht. }
  by apply IH.
Qed.

Lemma reader_events inputs t :
  receiver_stays inputs → ct_reading t = true →
  ct_events (run_conn conn_id inputs t) = ct_events t ++ read_events conn_id (answers_of inputs) ∧
  ct_reading (run_conn conn_id inputs t) = negb (read_ends (answers_of inputs)).
Proof.
  intros Hs. revert t. induction Hs as [|i inputs Hi Hs IH]; intros t Ht; [by rewrite app_nil_r|].
  change (run_conn conn_id (i :: inputs) t) with (run_conn conn_id inputs (conn_turn conn_id i t)).
  destruct i as [a gone| | | |]; cbn [answers_of omap list_omap].
  2-5: match goal with |- context [conn_turn conn_id ?i ?s] => destruct (other_turn i s I) as [E1 E2] end;
       rewrite <- E1; apply IH; congruence.
  subst gone. cbn [conn_turn]. rewrite Ht. cbn [read_events read_ends existsb]. destruct a as [[f|e]|].
  - destruct (IH (reader_turn conn_id (Some (Ok f)) false t) Ht) as [-> ->]. cbn. by rewrite <- app_assoc.
  - unfold reader_turn. destruct (close_reason (Some (Err e))) as [r|] eqn:Er.
    + destruct (not_reading inputs (send_event false (mkConnEvent conn_id (EvClosed r)) (stop_reading t)) eq_refl) as [-> ->]. done.
    + by apply IH.
  - destruct (not_reading inputs (reader_turn conn_id None false t) eq_refl) as [-> ->]. done.
Qed.

Lemma read_events_app fs answers :
  read_events conn_id (map (λ f, Some (Ok f)) fs ++ answers) = map (frame_event conn_id) fs ++ read_events conn_id answers
  ∧ read_ends (map (λ f, Some (Ok f)) fs ++ answers) = read_ends answers.
Proof.
  induction fs as [|f fs [IH1 IH2]]; [done|]. cbn [map app read_events]. rewrite IH1. split; [done|]. exact IH2.
Qed.
End reader.

(** ** What the decoder yields *)

Fixpoint frames_before_error (results : list (result ProtoError AnyFrame)) : list AnyFrame :=
  match results with
  | Ok f :: results => f :: frames_before_error results
  | _ => []
  end.
Definition has_error (results : list (result ProtoError AnyFrame)) : bool :=
  existsb (λ r, match r with Err _ => true | Ok _ => false end) results.

Lemma results_split results :
  (has_error results = false ∧ results = map Ok (frames_before_error results)) ∨
  (has_error results = true ∧ ∃ e more, results = map Ok (frames_before_error results) ++ Err e :: more).
Proof.
  induction results as [|[f|e] results IH]; [by left|..].
  - destruct IH as [[H1 H2]|(H1 & e & more & H2)]; [left|right]; (split; [exact H1|]); cbn [frames_before_error map app].
    + by f_equal.
    + exists e, more. by f_equal.
  - right. split; [done|]. by exists e, results.
Qed.

Section errors.
Context {F : Type} (decode : bytes → result ProtoError (option F) * bytes) (P : ProtoError → Prop).
Context (decode_errors : ∀ src e s, decode src = (Err e, s) → P e).

Let good (r : result ProtoError F) : Prop := match r with Err e => P e | Ok _ => True end.

Lemma drain_errors fuel src : Forall good (drain_fuel decode fuel src).1.
Proof using decode_errors.
  revert src. induction fuel as [|fuel IH]; intros src; [constructor|]. cbn [drain_fuel].
  destruct (decode src) as [[[f|]|e] s] eqn:Hd; [| constructor |]; specialize (IH s); destruct (drain_fuel decode fuel s);
    constructor; try done. exact (decode_errors _ _ _ Hd).
Qed.

Lemma feed_errors pieces buf : Forall good (feed decode buf pieces).1.
Proof using decode_errors.
  revert buf. induction pieces as [|p pieces IH]; intros buf; [constructor|]. cbn [feed].
  pose proof (drain_errors (S (length (buf ++ p))) (buf ++ p)) as Hd. unfold drain.
  destruct (drain_fuel decode _ _) as [out s]. specialize (IH s). destruct (feed decode s pieces) as [out' u].
  by apply Forall_app.
Qed.
End errors.

Lemma dual_decode_errors src e s : dual_decode src = (Err e, s) → e = below_header.
Proof.
  rewrite dual_decode_eq. destruct (resync is_dual_header src) as [a|]; [|done].
  intros (r0 & Hd & E)%map_decoded_inv. destruct r0 as [?|e0]; [done|]. injection E as ->.
  unfold decode_at in Hd. repeat case_match; congruence.
Qed.

(** C23: the events of a connection: however the socket cuts what the peer sends until it closes,
    the game gets an event for every frame up to the first one that the codec refuses, in order,
    and then one event that the connection is closed, after which nothing more is read.  A frame
    that is refused counts as the peer having closed, although the loop means to skip it: the
    framed reader ends with an error.  Otherwise the close is the peer's when no bytes are left
    over, and an error of the protocol when some are. *)
Theorem connection_events `{FramedReadLaws} (conn_id : Z) (write_capacity : nat) (pieces : list bytes)
    (results : list (result ProtoError AnyFrame)) (rest : bytes) (inputs : list ConnInput) :
  feed dual_decode [] pieces = (results, rest) → receiver_stays inputs → answers_of inputs = next_answers results rest →
  let t := run_conn conn_id inputs (spawn_conn write_capacity) in
  ∃ reason,
    ct_events t = map (frame_event conn_id) (frames_before_error results) ++ [mkConnEvent conn_id (EvClosed reason)] ∧
    ct_reading t = false ∧
    (if has_error results then reason = PeerClosed
     else if bool_decide (rest = []) then reason = PeerClosed else ∃ kind, reason = Protocol (BytesExt.Io kind)).
Proof.
  intros Hf Hs Ha t. destruct (reader_events conn_id inputs (spawn_conn write_capacity) Hs eq_refl) as [He Hr]. fold t in He, Hr.
  cbn [ct_events spawn_conn app] in He. rewrite He, Hr, Ha.
  pose proof (feed_errors dual_decode (λ e, e = below_header) dual_decode_errors pieces []) as Herr. rewrite Hf in Herr. cbn [fst] in Herr.
  set (fs := frames_before_error results).
  destruct (results_split results) as [[Hn E]|(Hn & e & more & E)]; fold fs in E; rewrite Hn.
  - rewrite E. case_bool_decide as Hrest.
    + subst rest. destruct (framed_end fs) as [more' ->].
      destruct (read_events_app conn_id fs (None :: more')) as [-> ->]. by exists PeerClosed.
    + destruct (framed_left fs rest Hrest) as (kind & more' & ->).
      destruct (read_events_app conn_id fs (Some (Err (BytesExt.Io kind)) :: more')) as [-> ->].
      exists (Protocol (BytesExt.Io kind)). eauto.
  - assert (e = below_header) as ->.
    { rewrite E in Herr. apply Forall_app in Herr as [_ Herr]. by apply Forall_cons in Herr as [Herr _]. }
    rewrite E. destruct (framed_error fs below_header more rest) as [more' ->].
    destruct (read_events_app conn_id fs (Some (Err below_header) :: None :: more')) as [-> ->]. by exists PeerClosed.
Qed.

(** ** The writer *)

Record link_ok (t : ConnTask) : Prop := {
  lo_taken : (ch_taken (ct_link t) <= length (ch_sent (ct_link t)))%nat;
  lo_written : ct_written t = take (length (ct_written t)) (ch_sent (ct_link t));
  lo_count : if ct_writing t then length (ct_written t) = ch_taken (ct_link t)
             else (length (ct_written t) <= ch_taken (ct_link t))%nat;
  lo_closed : ch_closed (ct_link t) = negb (ct_writing t) }.

Lemma prefix_length_take {A} (l k m : list A) : l = take (length l) k → l = take (length l) (k ++ m).
Proof.
  intros E. rewrite take_app. rewrite <- E. assert (length l <= length k)%nat by (rewrite E, length_take; lia).
  replace (length l - length k)%nat with 0%nat by lia. by rewrite take_0, app_nil_r.
Qed.

Lemma queue_head {A} (c : Chan A) m q :
  ch_queue c = m :: q → ch_sent c !! ch_taken c = Some m ∧ recv c = mkChan (ch_cap c) (ch_closed c) (ch_sent c) (S (ch_taken c)) (ch_refused c).
Proof.
  intros E. unfold recv. rewrite E. split; [|done]. unfold ch_queue in E.
  rewrite <- (Nat.add_0_r (ch_taken c)), <- lookup_drop, E. done.
Qed.

Lemma link_ok_turn conn_id i t : link_ok t → link_ok (conn_turn conn_id i t).
Proof.
  intros [Ht Hw Hc Hcl]. destruct i as [a gone|succeeds| |m|]; cbn [conn_turn].
  - destruct (ct_reading t); [|done]. unfold reader_turn. destruct a as [[f|e]|].
    + destruct gone; by split.
    + destruct (close_reason _); [|done]. destruct gone; by split.
    + destruct gone; by split.
  - destruct (ct_writing t) eqn:Hwr; [|by split; rewrite ?Hwr].
    unfold writer_turn. destruct (ch_queue (ct_link t)) as [|m q] eqn:Hq.
    + destruct (ct_link_dropped t); [|by split; rewrite ?Hwr]. split; cbn; try done. lia.
    + destruct (queue_head _ _ _ Hq) as [Hm Hrecv]. pose proof (lookup_lt_Some _ _ _ Hm) as Hlt.
      destruct succeeds; split; cbn; rewrite ?Hrecv; cbn; rewrite ?Hwr, ?length_app; cbn; try done; try lia.
      rewrite Hc, Nat.add_1_r. rewrite (take_S_r _ _ _ Hm), <- Hc. by f_equal.
  - destruct (ct_writing t && ct_cancelled t) eqn:Hb; [|by split].
    apply andb_true_iff in Hb as [Hwr _]. rewrite Hwr in Hc. split; cbn; try done. lia.
  - destruct (ct_link_dropped t); [by split|].
    destruct (try_send_cases (ct_link t) m) as [(E & _)|[(E & _)|(E & _)]]; split; cbn; rewrite E; cbn; try done.
    + rewrite length_app. lia.
    + by apply prefix_length_take.
  - by split.
Qed.

Lemma link_ok_run conn_id inputs t : link_ok t → link_ok (run_conn conn_id inputs t).
Proof. revert t. induction inputs as [|i inputs IH]; intros t Ht; [done|]. apply IH. by apply link_ok_turn. Qed.

Lemma link_ok_spawn cap : link_ok (spawn_conn cap).
Proof. split; cbn; done || lia. Qed.

Definition writes_succeed (inputs : list ConnInput) : Prop :=
  Forall (λ i, match i with InWrite succeeds => succeeds = true | _ => True end) inputs.

Lemma cancelled_stays conn_id i t : ct_cancelled t = true → ct_cancelled (conn_turn conn_id i t) = true.
Proof.
  intros Hc. destruct i as [a gone|succeeds| |m|]; cbn [conn_turn].
  - destruct (ct_reading t); [|done]. unfold reader_turn. destruct a as [[f|e]|]; [by destruct gone| |by destruct gone].
    destruct (close_reason _); [by destruct gone|done].
  - destruct (ct_writing t); [|done]. unfold writer_turn. destruct (ch_queue _); [by destruct (ct_link_dropped t)|by destruct succeeds].
  - by destruct (_ && _).
  - by destruct (ct_link_dropped t).
  - done.
Qed.

(** Without a failed write or an end of the reader, the writer ends only when all is written. *)
Definition nothing_lost (t : ConnTask) : Prop := ct_writing t = true ∨ ct_written t = ch_sent (ct_link t).

Lemma nothing_lost_turn conn_id i t :
  link_ok t → ct_cancelled t = false → (match i with InWrite succeeds => succeeds = true | _ => True end) →
  nothing_lost t → nothing_lost (conn_turn conn_id i t).
Proof.
  intros [Ht Hw Hcount Hcl] Hc Hi Hn. destruct i as [a gone|succeeds| |m|]; cbn [conn_turn].
  - destruct (ct_reading t); [|done]. unfold reader_turn. destruct a as [[f|e]|]; [by destruct gone| |by destruct gone].
    destruct (close_reason _); [by destruct gone|done].
  - subst succeeds. destruct (ct_writing t) eqn:Hwr; [|done]. unfold writer_turn.
    destruct (ch_queue (ct_link t)) as [|m q] eqn:Hq; [|by left].
    destruct (ct_link_dropped t); [right|by left]. cbn. rewrite Hw, Hcount. apply take_ge.
    unfold ch_queue in Hq. apply (f_equal length) in Hq. rewrite length_drop in Hq. cbn in Hq. lia.
  - by rewrite Hc, andb_false_r.
  - destruct (ct_link_dropped t); [done|]. destruct Hn as [Hn|Hn]; [by left|]. destruct (ct_writing t) eqn:Hwr; [by left|right].
    cbn. unfold try_send. by rewrite Hcl.
  - done.
Qed.

Lemma nothing_lost_run conn_id inputs t :
  link_ok t → nothing_lost t → writes_succeed inputs → ct_cancelled (run_conn conn_id inputs t) = false → nothing_lost (run_conn conn_id inputs t).
Proof.
  intros Hok Hn Hs. revert t Hok Hn. induction Hs as [|i inputs Hi Hs IH]; intros t Hok Hn Hc; [done|].
  change (run_conn conn_id (i :: inputs) t) with (run_conn conn_id inputs (conn_turn conn_id i t)) in *.
  assert (ct_cancelled t = false) as Hc0.
  { apply not_true_iff_false. intros Ht. apply not_true_iff_false in Hc. apply Hc. clear -Ht.
    assert (∀ t, ct_cancelled t = true → ct_cancelled (run_conn conn_id inputs t) = true) as H; [|by apply H, cancelled_stays].
    induction inputs as [|j inputs IH]; intros t0 H0; [done|]. by apply IH, cancelled_stays. }
  apply IH; [by apply link_ok_turn|by apply nothing_lost_turn|done].
Qed.

(** As many turns as messages are queued write them all. *)
Lemma writer_drains conn_id n t :
  link_ok t → ct_writing t = true → length (ch_queue (ct_link t)) = n →
  let t' := run_conn conn_id (replicate n (InWrite true)) t in
  ct_written t' = ch_sent (ct_link t') ∧ ch_sent (ct_link t') = ch_sent (ct_link t) ∧ ct_writing t' = true ∧
  ct_link_dropped t' = ct_link_dropped t ∧ ch_queue (ct_link t') = [].
Proof.
  revert t. induction n as [|n IH]; intros t Hok Hwr Hn t'.
  - apply nil_length_inv in Hn. destruct Hok as [Ht Hw Hc _]. rewrite Hwr in Hc. subst t'. cbn. split_and!; try done.
    rewrite Hw, Hc. apply take_ge. unfold ch_queue in Hn. apply (f_equal length) in Hn. rewrite length_drop in Hn. cbn in Hn. lia.
  - destruct (ch_queue (ct_link t)) as [|m q] eqn:Hq; [done|]. cbn in Hn. injection Hn as Hn.
    assert (conn_turn conn_id (InWrite true) t = (t <| ct_link ::= recv |>) <| ct_written ::= λ l, l ++ [m] |>) as E.
    { cbn [conn_turn]. rewrite Hwr. unfold writer_turn. by rewrite Hq. }
    destruct (queue_head _ _ _ Hq) as [Hm Hrecv].
    subst t'. change (replicate (S n) (InWrite true)) with (InWrite true :: replicate n (InWrite true)).
    change (run_conn conn_id (InWrite true :: ?l) t) with (run_conn conn_id l (conn_turn conn_id (InWrite true) t)).
    destruct (IH (conn_turn conn_id (InWrite true) t)) as (H1 & H2 & H3 & H4 & H5).
    + by apply link_ok_turn.
    + by rewrite E.
    + rewrite E. cbn. rewrite Hrecv. unfold ch_queue in *. cbn.
      rewrite <- Nat.add_1_r, <- drop_drop, Hq. done.
    + split_and!; [done| |done| |done].
      * rewrite H2, E. cbn. by rewrite Hrecv.
      * rewrite H4. by rewrite E.
Qed.

(** What is written to the socket: whatever the tasks and the other side do, the bytes written
    are those that the link accepted, whole, in order and without a gap.  As long as no write
    fails and the reader has not ended, the task does not end before everything accepted is
    written; and from any state in which the writer runs, as many turns as messages are queued
    write the rest, after which a link that has been dropped ends the task. *)
Theorem written_is_accepted (conn_id : Z) (write_capacity : nat) (inputs : list ConnInput) :
  let t := run_conn conn_id inputs (spawn_conn write_capacity) in
  ct_written t = take (length (ct_written t)) (ch_sent (ct_link t)) ∧
  (writes_succeed inputs → ct_cancelled t = false → ct_writing t = false → ct_written t = ch_sent (ct_link t)) ∧
  (ct_writing t = true →
   let t' := run_conn conn_id (replicate (length (ch_queue (ct_link t))) (InWrite true)) t in
   ct_written t' = ch_sent (ct_link t) ∧
   (ct_link_dropped t = true → ct_writing (conn_turn conn_id (InWrite true) t') = false)).
Proof.
  intros t. assert (link_ok t) as Hok by apply link_ok_run, link_ok_spawn. split; [|split].
  - apply (lo_written _ Hok).
  - intros Hs Hc Hw.
    destruct (nothing_lost_run conn_id inputs (spawn_conn write_capacity) (link_ok_spawn _) (or_introl eq_refl) Hs Hc) as [H|H]; [|exact H].
    fold t in H. congruence.
  - intros Hw t'. destruct (writer_drains conn_id _ t Hok Hw eq_refl) as (H1 & H2 & H3 & H4 & H5). fold t' in H1, H2, H3, H4, H5.
    split; [congruence|]. intros Hd. cbn [conn_turn]. rewrite H3. unfold writer_turn. by rewrite H5, H4, Hd.
Qed.

(** ** Examples *)

(** The simplest reader that the laws allow. *)
Definition plain_framed : FramedRead := {| next_answers := λ results rest,
  (fix go rs := match rs with
                | [] => match rest with [] => [None] | _ => [Some (Err (BytesExt.Io "bytes remaining on stream"%string))] end
                | Ok f :: rs => Some (Ok f) :: go rs
                | Err e :: rs => [Some (Err e); None]
                end) results |}.

Lemma plain_framed_laws : FramedReadLaws (H := plain_framed).
Proof.
  split.
  - intros fs. exists []. induction fs as [|f fs IH]; [done|]. cbn in *. by rewrite IH.
  - intros fs rest Hr. eexists _, []. induction fs as [|f fs IH]; [|cbn in *; by rewrite IH]. by destruct rest.
  - intros fs e results rest. exists []. induction fs as [|f fs IH]; [done|]. cbn in *. by rewrite IH.
Qed.

(** A frame, a header with a length of 3, a frame that is never read. *)
Definition broken_stream : list bytes := [[247; 39; 4]; [0; 247; 1; 3; 0; 247; 39; 4; 0]].
Definition broken_inputs : list ConnInput :=
  [InSend [1; 2]; InNext (Some (Ok (FW3gs (mkFrame 39 [])))) false; InWrite true; InNext (Some (Err below_header)) false;
   InNext None false; InNext (Some (Ok (FW3gs (mkFrame 39 [])))) false; InCancelSeen].

Lemma connection_events_witness :
  ct_events (run_conn 7 broken_inputs (spawn_conn 4)) = [mkConnEvent 7 (EvFrame (FW3gs (mkFrame 39 []))); mkConnEvent 7 (EvClosed PeerClosed)].
Proof.
  destruct (@connection_events plain_framed plain_framed_laws 7 4 broken_stream
              [Ok (FW3gs (mkFrame 39 [])); Err below_header; Ok (FW3gs (mkFrame 39 []))] [] (take 5 broken_inputs ++ [InCancelSeen]))
    as (reason & He & _ & Hr).
  - vm_compute. reflexivity.
  - repeat constructor.
  - reflexivity.
  - cbn in Hr. subst reason. exact He.
Defined.
