(* ===== verification/Slots.v ===== *)
(** The lobby's slot table (spectre-engine, src/slots.rs). *)
From S2P Require Import Prelude Utf8 BytesExt W3gs.

(** ** Slot statuses *)
Definition Open : Z := 0.
Definition Closed : Z := 1.
Definition Occupied : Z := 2.

Definition MAX_SLOTS : Z := 24.

(** A [SlotTable] is its [Vec<SlotInfo>]. *)
Abbreviation SlotTable := (list SlotInfo).

Definition is_status (st : Z) (s : SlotInfo) : bool := slot_status s =? st.

Definition new_table (num_slots : nat) : SlotTable :=
  map (λ i, mkSlot 0 255 Open 0 (wrap 8 (Z.of_nat i / 6)) (wrap 8 (Z.of_nat i)) 32 1 100)
      (seq 0 num_slots).

Definition as_wire_bytes (t : SlotTable) : bytes := encode_slots t.

(** [match self.get_mut(sid) { Some(s) => { ...; true } None => false }]. *)
Definition with_slot (sid : Z) (f : SlotInfo → SlotInfo) (t : SlotTable) : SlotTable * bool :=
  match t !! Z.to_nat sid with
  | Some s => (<[Z.to_nat sid := f s]> t, true)
  | None => (t, false)
  end.

Definition open (sid : Z) : SlotTable → SlotTable * bool :=
  with_slot sid (λ s, s <| slot_status := Open |> <| pid := 0 |>).
Definition close (sid : Z) : SlotTable → SlotTable * bool :=
  with_slot sid (λ s, s <| slot_status := Closed |> <| pid := 0 |>).

(** The two slots as [swap_slots] leaves them. *)
Definition exchanged (fixed_settings custom_forces : bool) (mine other : SlotInfo) : SlotInfo :=
  if fixed_settings then
    mine <| pid := pid other |> <| download_status := download_status other |>
         <| slot_status := slot_status other |> <| computer := computer other |>
         <| computer_type := computer_type other |>
  else if custom_forces then other <| team := team mine |>
  else other.

Definition swap_slots (a b : Z) (fixed_settings custom_forces : bool) (t : SlotTable)
  : SlotTable * bool :=
  let a := Z.to_nat a in
  let b := Z.to_nat b in
  match t !! a, t !! b with
  | Some slot_a, Some slot_b =>
    if Nat.eqb a b then (t, false) else
    (<[b := exchanged fixed_settings custom_forces slot_b slot_a]>
       (<[a := exchanged fixed_settings custom_forces slot_a slot_b]> t), true)
  | _, _ => (t, false)
  end.
Definition swap (a b : Z) : SlotTable → SlotTable * bool := swap_slots a b false false.

Definition occupy_slot (sid p : Z) : SlotTable → SlotTable * bool :=
  with_slot sid (λ s, s <| slot_status := Occupied |> <| pid := p |> <| computer := 0 |>
                        <| download_status := 100 |>).

Definition occupy (sid p tm col : Z) : SlotTable → SlotTable * bool :=
  with_slot sid (λ s, s <| slot_status := Occupied |> <| pid := p |> <| team := tm |>
                        <| colour := col |> <| computer := 0 |>).

Definition replace_slot (sid : Z) (info : SlotInfo) : SlotTable → SlotTable * bool :=
  with_slot sid (λ _, info).

(** [position(..).map(|i| i as u8)]. *)
Definition position_u8 (p : SlotInfo → bool) (t : SlotTable) : option Z :=
  (λ i, wrap 8 (Z.of_nat i)) <$> position p t.

Definition sid_of_pid (p : Z) : SlotTable → option Z :=
  position_u8 (λ s, is_status Occupied s && (pid s =? p)).

Definition release (p : Z) (t : SlotTable) : SlotTable * option Z :=
  match sid_of_pid p t with
  | None => (t, None)
  | Some sid => ((open sid t).1, Some sid)
  end.

Definition first_open : SlotTable → option Z := position_u8 (is_status Open).
Definition first_open_in_team (tm : Z) : SlotTable → option Z :=
  position_u8 (λ s, is_status Open s && (team s =? tm)).

(** The scan from [start] to the end, then from the beginning to [start]. *)
Definition first_open_in_team_from (start_sid tm : Z) (t : SlotTable) : option Z :=
  match t !! Z.to_nat start_sid with
  | None => None
  | Some s0 =>
    let p s := is_status Open s && (team s =? tm) in
    let start := if team s0 =? tm then Z.to_nat start_sid else 0%nat in
    match position p (drop start t) with
    | Some i => Some (wrap 8 (Z.of_nat (start + i)))
    | None => position_u8 p (take start t)
    end
  end.

(** [for c in 0..MAX_SLOTS]. *)
Definition unused_colour (t : SlotTable) : Z :=
  match position (λ c, negb (existsb (λ s, colour s =? c) t))
                 (map Z.of_nat (seq 0 (Z.to_nat MAX_SLOTS))) with
  | Some c => Z.of_nat c
  | None => MAX_SLOTS
  end.

Definition count_status (st : Z) (t : SlotTable) : Z := zlen (filter (λ s, is_status st s) t).
Definition count_open : SlotTable → Z := count_status Open.
Definition count_occupied : SlotTable → Z := count_status Occupied.

Definition is_open (sid : Z) (t : SlotTable) : bool :=
  match t !! Z.to_nat sid with Some s => is_status Open s | None => false end.

Definition open_slots : SlotTable → Z := count_open.

Definition set_colour (sid col : Z) : SlotTable → SlotTable * bool :=
  with_slot sid (λ s, s <| colour := col |>).

Definition open_all (t : SlotTable) : SlotTable :=
  map (λ s, if is_status Closed s then s <| slot_status := Open |> <| pid := 0 |> else s) t.
Definition close_all (t : SlotTable) : SlotTable :=
  map (λ s, if is_status Open s then s <| slot_status := Closed |> <| pid := 0 |> else s) t.

Definition add_computer (sid tm col rc ctype hcap : Z) (t : SlotTable) : SlotTable * bool :=
  match t !! Z.to_nat sid with
  | Some s =>
    if is_status Occupied s then (t, false) else
    (<[Z.to_nat sid := s <| slot_status := Occupied |> <| computer := 1 |> <| team := tm |>
        <| colour := col |> <| race := rc |> <| computer_type := ctype |>
        <| handicap := hcap |> <| download_status := 100 |>]> t, true)
  | None => (t, false)
  end.

(** ** The invariant: a player sits in one slot only

    A slot nobody occupies carries pid 0, as the slot of a computer does. *)
Definition seats (p : Z) (s : SlotInfo) : Prop := slot_status s = Occupied ∧ pid s = p.

Definition vacant_clean (s : SlotInfo) : Prop := slot_status s ≠ Occupied → pid s = 0.

Definition slots_wf (t : SlotTable) : Prop :=
  Forall vacant_clean t ∧
  ∀ i j s1 s2 p, p ≠ 0 → t !! i = Some s1 → t !! j = Some s2 →
                 seats p s1 → seats p s2 → i = j.

Lemma is_status_true st s : is_status st s = true ↔ slot_status s = st.
Proof. apply Z.eqb_eq. Qed.

Lemma with_slot_inv sid f t t' :
  with_slot sid f t = (t', true) →
  ∃ s, t !! Z.to_nat sid = Some s ∧ t' = <[Z.to_nat sid := f s]> t.
Proof. unfold with_slot. destruct (t !! Z.to_nat sid); [|done]. intros [= <-]. eauto. Qed.

Lemma with_slot_length sid f t : length (with_slot sid f t).1 = length t.
Proof. unfold with_slot. destruct (t !! Z.to_nat sid); [apply length_insert|done]. Qed.

(** An update that seats nobody new, or someone seated nowhere, keeps the invariant. *)
Lemma slots_wf_insert t i s0 s :
  slots_wf t → t !! i = Some s0 → vacant_clean s →
  (∀ p, p ≠ 0 → seats p s → seats p s0 ∨ ∀ j s', t !! j = Some s' → ¬ seats p s') →
  slots_wf (<[i := s]> t).
Proof.
  intros [Hclean Hwf] Hi Hc Hs. split; [by apply Forall_insert|].
  intros j k s1 s2 p Hp Hj Hk H1 H2.
  assert (i < length t)%nat as Hlt by (by eapply lookup_lt_Some).
  destruct (decide (i = j)) as [->|Hij], (decide (j = k)) as [->|Hjk]; try done;
    try (destruct (decide (i = k)) as [->|Hik]; try done).
  - rewrite list_lookup_insert_eq in Hj by done. injection Hj as <-.
    rewrite list_lookup_insert_ne in Hk by done.
    destruct (Hs p Hp H1) as [H|H]; [by eapply (Hwf j k s0 s2)|by destruct (H _ _ Hk)].
  - rewrite list_lookup_insert_eq in Hk by done. injection Hk as <-.
    rewrite list_lookup_insert_ne in Hj by done.
    destruct (Hs p Hp H2) as [H|H]; [by eapply (Hwf j k s1 s0)|by destruct (H _ _ Hj)].
  - rewrite list_lookup_insert_ne in Hj, Hk by done. by eapply (Hwf j k s1 s2).
Qed.

Lemma slots_wf_with_slot sid f t :
  slots_wf t →
  (∀ s, t !! Z.to_nat sid = Some s → vacant_clean (f s) ∧
     ∀ p, p ≠ 0 → seats p (f s) →
          seats p s ∨ ∀ j s', t !! j = Some s' → ¬ seats p s') →
  slots_wf (with_slot sid f t).1.
Proof.
  intros Hwf Hf. unfold with_slot. destruct (t !! Z.to_nat sid) as [s|] eqn:Hs; [|done].
  destruct (Hf s eq_refl). by eapply slots_wf_insert.
Qed.

(** An update of every slot that seats nobody new keeps it too. *)
Lemma slots_wf_map f t :
  slots_wf t → (∀ s, vacant_clean s → vacant_clean (f s)) →
  (∀ s p, p ≠ 0 → seats p (f s) → seats p s) → slots_wf (map f t).
Proof.
  intros [Hc Hwf] Hf Hs. split.
  - apply Forall_map. eapply Forall_impl; [done|]. apply Hf.
  - intros i j s1 s2 p Hp. change @map with (@fmap list _). rewrite !list_lookup_fmap.
    intros (x1 & Hx1 & ->)%fmap_Some (x2 & Hx2 & ->)%fmap_Some H1 H2. eauto.
Qed.

Lemma position_u8_Some p t i :
  (length t <= 256)%nat → position_u8 p t = Some i →
  ∃ s, t !! Z.to_nat i = Some s ∧ p s = true ∧ 0 <= i < zlen t ∧
       ∀ j s', (j < Z.to_nat i)%nat → t !! j = Some s' → p s' = false.
Proof.
  unfold position_u8. intros Hlen (k & Hk & ->)%fmap_Some.
  pose proof (position_lt _ _ _ Hk) as Hlt. apply position_Some in Hk as (s & Hs & Hp & Hmin).
  rewrite wrap_small by (unfold uN; change (2 ^ 8) with 256; lia).
  rewrite Nat2Z.id. exists s. repeat split; auto; unfold zlen; lia.
Qed.

Lemma sid_of_pid_Some p t i :
  (length t <= 256)%nat → sid_of_pid p t = Some i →
  ∃ s, t !! Z.to_nat i = Some s ∧ seats p s ∧ 0 <= i < zlen t.
Proof.
  intros Hlen (s & Hs & Hp & Hi & _)%position_u8_Some; [|done].
  apply andb_true_iff in Hp as [Ho%is_status_true Hp%Z.eqb_eq]. by exists s.
Qed.

Lemma sid_of_pid_None p t :
  sid_of_pid p t = None ↔ ∀ j s, t !! j = Some s → ¬ seats p s.
Proof.
  unfold sid_of_pid, position_u8. rewrite fmap_None, position_None, Forall_lookup.
  split; intros H j s Hj.
  - intros [Ho Hp]. specialize (H j s Hj). simpl in H.
    by rewrite (proj2 (is_status_true _ _) Ho), Hp, Z.eqb_refl in H.
  - specialize (H j s Hj). apply andb_false_iff.
    destruct (is_status Occupied s) eqn:Ho; [right|by left]. apply Z.eqb_neq. intros Hp.
    apply H. split; [by apply is_status_true|done].
Qed.

(** ** Every operation keeps the invariant *)

Lemma lookup_exchange (t : SlotTable) a b sa sb x y i :
  t !! a = Some sa → t !! b = Some sb →
  <[b := y]> (<[a := x]> t) !! i =
    if decide (i = b) then Some y else if decide (i = a) then Some x else t !! i.
Proof.
  intros Ha%lookup_lt_Some Hb%lookup_lt_Some.
  destruct (decide (i = b)) as [->|].
  { rewrite list_lookup_insert_eq; [done|]. by rewrite length_insert. }
  rewrite list_lookup_insert_ne by done. destruct (decide (i = a)) as [->|].
  - by rewrite list_lookup_insert_eq.
  - by rewrite list_lookup_insert_ne.
Qed.

Lemma exchanged_seat f c s o :
  slot_status (exchanged f c s o) = slot_status o ∧ pid (exchanged f c s o) = pid o.
Proof. unfold exchanged. by destruct f, c. Qed.

Lemma exchanged_seats f c s o p : seats p (exchanged f c s o) ↔ seats p o.
Proof. unfold seats. by destruct (exchanged_seat f c s o) as [-> ->]. Qed.

Lemma swap_slots_inv a b f c t :
  (swap_slots a b f c t).2 = true →
  ∃ sa sb, t !! Z.to_nat a = Some sa ∧ t !! Z.to_nat b = Some sb ∧ Z.to_nat a ≠ Z.to_nat b ∧
    (swap_slots a b f c t).1 =
      <[Z.to_nat b := exchanged f c sb sa]> (<[Z.to_nat a := exchanged f c sa sb]> t).
Proof.
  unfold swap_slots. destruct (t !! Z.to_nat a) as [sa|], (t !! Z.to_nat b) as [sb|]; try done.
  destruct (Nat.eqb_spec (Z.to_nat a) (Z.to_nat b)); [done|]. intros _. by exists sa, sb.
Qed.

Lemma swap_slots_false a b f c t :
  (swap_slots a b f c t).2 = false → (swap_slots a b f c t).1 = t.
Proof.
  unfold swap_slots. destruct (t !! Z.to_nat a), (t !! Z.to_nat b); try done.
  by destruct (Nat.eqb _ _).
Qed.

Lemma swap_slots_wf a b f c t : slots_wf t → slots_wf (swap_slots a b f c t).1.
Proof.
  intros Hwf. destruct (swap_slots a b f c t).2 eqn:E; [|by rewrite swap_slots_false].
  apply swap_slots_inv in E as (sa & sb & Ha & Hb & Hab & ->).
  destruct Hwf as [Hc Hu]. split.
  - assert (vacant_clean sa ∧ vacant_clean sb) as [Hca Hcb].
    { split; by eapply (Forall_lookup_1 _ t). }
    repeat apply Forall_insert; auto; unfold vacant_clean;
      by rewrite (proj1 (exchanged_seat _ _ _ _)), (proj2 (exchanged_seat _ _ _ _)).
  - intros i j s1 s2 p Hp.
    assert (∀ k s, <[Z.to_nat b := exchanged f c sb sa]>
              (<[Z.to_nat a := exchanged f c sa sb]> t) !! k = Some s → seats p s →
            ∃ k' s', t !! k' = Some s' ∧ seats p s' ∧
              k = (if decide (k' = Z.to_nat a) then Z.to_nat b else
                   if decide (k' = Z.to_nat b) then Z.to_nat a else k')) as Hlk.
    { intros k s Hk Hs. rewrite (lookup_exchange _ _ _ _ _ _ _ _ Ha Hb) in Hk.
      destruct (decide (k = Z.to_nat b)) as [->|].
      - injection Hk as <-. apply exchanged_seats in Hs. exists (Z.to_nat a), sa.
        by rewrite decide_True.
      - destruct (decide (k = Z.to_nat a)) as [->|].
        + injection Hk as <-. apply exchanged_seats in Hs. exists (Z.to_nat b), sb.
          by rewrite decide_False, decide_True by done.
        + exists k, s. by rewrite !decide_False by done. }
    intros H1 H2 Hs1 Hs2.
    destruct (Hlk _ _ H1 Hs1) as (k1 & x1 & Hk1 & Hx1 & ->).
    destruct (Hlk _ _ H2 Hs2) as (k2 & x2 & Hk2 & Hx2 & ->).
    assert (k1 = k2) as -> by (by eapply Hu). done.
Qed.

Lemma open_wf sid t : slots_wf t → slots_wf (open sid t).1.
Proof. intros. apply slots_wf_with_slot; [done|]. split; [done|by intros p _ [??]]. Qed.

(** The operations of the table; a player is seated only while seated nowhere. *)
Inductive slot_step (t : SlotTable) : SlotTable → Prop :=
| step_open sid : slot_step t (open sid t).1
| step_close sid : slot_step t (close sid t).1
| step_swap a b fixed custom : slot_step t (swap_slots a b fixed custom t).1
| step_occupy_slot sid p : sid_of_pid p t = None → slot_step t (occupy_slot sid p t).1
| step_occupy sid p tm col : sid_of_pid p t = None → slot_step t (occupy sid p tm col t).1
| step_replace sid info : slot_status info ≠ Occupied → pid info = 0 →
    slot_step t (replace_slot sid info t).1
| step_release p : slot_step t (release p t).1
| step_set_colour sid col : slot_step t (set_colour sid col t).1
| step_open_all : slot_step t (open_all t)
| step_close_all : slot_step t (close_all t)
| step_add_computer sid tm col rc ct hcap :
    slot_step t (add_computer sid tm col rc ct hcap t).1.

Lemma slot_step_wf t t' : slot_step t t' → slots_wf t → slots_wf t'.
Proof.
  destruct 1; intros Hwf; try (apply slots_wf_with_slot; [done|intros s Hs; split]);
    try by apply swap_slots_wf.
  - done.
  - by intros p _ [??].
  - done.
  - by intros p _ [??].
  - by intros [].
  - intros q _ [_ <-]. right. by apply sid_of_pid_None.
  - by intros [].
  - intros q _ [_ <-]. right. by apply sid_of_pid_None.
  - by intros _.
  - by intros p _ [??].
  - unfold release. destruct (sid_of_pid p t); [by apply open_wf|done].
  - change (vacant_clean s). by eapply (Forall_lookup_1 vacant_clean t); [apply Hwf|].
  - by left.
  - apply slots_wf_map; [done|..]; intros s; destruct (is_status _ s) eqn:E; try done.
    by intros p _ [??].
  - apply slots_wf_map; [done|..]; intros s; destruct (is_status _ s) eqn:E; try done.
    by intros p _ [??].
  - unfold add_computer. destruct (t !! Z.to_nat sid) as [s|] eqn:Hs; [|done].
    destruct (is_status Occupied s) eqn:E; [done|]. assert (vacant_clean s) as Hc by (by eapply (Forall_lookup_1 _ t); [apply Hwf|]).
    eapply slots_wf_insert; [done..|by intros []|].
    intros p Hp [_ Hpid]. exfalso. apply Hp. rewrite <- Hpid. apply Hc.
    intros Ho%is_status_true. congruence.
Qed.

Lemma slot_step_length t t' : slot_step t t' → length t' = length t.
Proof.
  destruct 1; try apply with_slot_length; try apply length_map.
  - unfold swap_slots. destruct (t !! Z.to_nat a), (t !! Z.to_nat b); try done.
    destruct (Nat.eqb _ _); [done|]. cbn [fst]. by rewrite !length_insert.
  - unfold release. destruct (sid_of_pid p t); [apply with_slot_length|done].
  - unfold add_computer. destruct (t !! Z.to_nat sid) as [s|]; [|done].
    destruct (is_status Occupied s); [done|]. apply length_insert.
Qed.

Lemma new_table_wf n : slots_wf (new_table n).
Proof.
  assert (Forall (λ s, slot_status s = Open ∧ pid s = 0) (new_table n)) as Hn.
  { unfold new_table. apply Forall_map, Forall_true. by intros. }
  split; [eapply Forall_impl; [done|]; by intros s [_ ?] ?|].
  intros i j s1 s2 p Hp Hi _ [Hs _] _.
  destruct (Forall_lookup_1 _ _ _ _ Hn Hi) as [Ho _]. rewrite Hs in Ho. discriminate Ho.
Qed.

(** Whatever sequence of slot operations a lobby goes through, no player is ever
    in two slots, a slot that nobody occupies names nobody, and the number of slots
    never changes. *)
Theorem slot_table_invariant n t :
  rtc slot_step (new_table n) t → slots_wf t ∧ length t = n.
Proof.
  intros Hr. apply rtc_ind_r with (P := λ t, slots_wf t ∧ length t = n) (x := new_table n) in Hr;
    [done|..].
  - split; [apply new_table_wf|]. unfold new_table. by rewrite length_map, length_seq.
  - intros y z _ Hs [Hw Hl]. split; [by eapply slot_step_wf|].
    by rewrite (slot_step_length _ _ Hs).
Qed.

Lemma slot_table_invariant_witness :
  slots_wf (occupy_slot 1 7 (swap 0 1 (new_table 3)).1).1 ∧
  length (occupy_slot 1 7 (swap 0 1 (new_table 3)).1).1 = 3%nat.
Proof.
  apply (slot_table_invariant 3). eapply rtc_l; [apply (step_swap _ 0 1 false false)|].
  eapply rtc_l; [apply (step_occupy_slot _ 1 7); reflexivity|apply rtc_refl].
Defined.

(** ** Moving and releasing players *)

Lemma swap_slots_ok a b fixed custom (t : SlotTable) :
  (swap_slots a b fixed custom t).2
  = bool_decide (Z.to_nat a < length t ∧ Z.to_nat b < length t ∧ Z.to_nat a ≠ Z.to_nat b)%nat.
Proof.
  unfold swap_slots. destruct (t !! Z.to_nat a) eqn:Ha, (t !! Z.to_nat b) eqn:Hb;
    try (rewrite bool_decide_false; [done|];
         first [apply lookup_ge_None in Ha; lia|apply lookup_ge_None in Hb; lia]).
  apply lookup_lt_Some in Ha, Hb.
  destruct (Nat.eqb_spec (Z.to_nat a) (Z.to_nat b)).
  - by rewrite bool_decide_false by lia.
  - by rewrite bool_decide_true by lia.
Qed.

Lemma swap_slots_eq a b f c (t : SlotTable) sa sb :
  t !! Z.to_nat a = Some sa → t !! Z.to_nat b = Some sb → Z.to_nat a ≠ Z.to_nat b →
  (swap_slots a b f c t).1
  = <[Z.to_nat b := exchanged f c sb sa]> (<[Z.to_nat a := exchanged f c sa sb]> t).
Proof.
  intros Ha Hb Hab. unfold swap_slots. by rewrite Ha, Hb, (proj2 (Nat.eqb_neq _ _) Hab).
Qed.

Lemma exchanged_twice f c sa sb :
  exchanged f c (exchanged f c sa sb) (exchanged f c sb sa) = sa.
Proof. by destruct f, c, sa, sb. Qed.

(** A swap succeeds exactly on two different existing slots; then the two
    occupants change places with their download and computer state, every other slot
    is untouched, the settings the map fixes stay with the slot, and the same swap
    again restores the table. *)
Theorem swap_slots_spec a b fixed custom (t : SlotTable) :
  (swap_slots a b fixed custom t).2
    = bool_decide (Z.to_nat a < length t ∧ Z.to_nat b < length t ∧ Z.to_nat a ≠ Z.to_nat b)%nat ∧
  ∀ sa sb, t !! Z.to_nat a = Some sa → t !! Z.to_nat b = Some sb → Z.to_nat a ≠ Z.to_nat b →
    let t' := (swap_slots a b fixed custom t).1 in
    ∃ sa' sb', t' !! Z.to_nat a = Some sa' ∧ t' !! Z.to_nat b = Some sb' ∧
      (∀ i, i ≠ Z.to_nat a → i ≠ Z.to_nat b → t' !! i = t !! i) ∧
      (pid sa', slot_status sa', download_status sa', computer sa', computer_type sa')
        = (pid sb, slot_status sb, download_status sb, computer sb, computer_type sb) ∧
      (pid sb', slot_status sb', download_status sb', computer sb', computer_type sb')
        = (pid sa, slot_status sa, download_status sa, computer sa, computer_type sa) ∧
      (if fixed || custom then team sa' = team sa ∧ team sb' = team sb
       else sa' = sb ∧ sb' = sa) ∧
      (fixed = true → (colour sa', race sa', handicap sa') = (colour sa, race sa, handicap sa)) ∧
      (swap_slots a b fixed custom t').1 = t.
Proof.
  split; [apply swap_slots_ok|]. intros sa sb Ha Hb Hab t'. subst t'.
  rewrite (swap_slots_eq _ _ _ _ _ _ _ Ha Hb Hab).
  assert (∀ i, _) as Hlk by (intros i; exact (lookup_exchange t _ _ _ _
    (exchanged fixed custom sa sb) (exchanged fixed custom sb sa) i Ha Hb)).
  exists (exchanged fixed custom sa sb), (exchanged fixed custom sb sa).
  split; [by rewrite Hlk, decide_False, decide_True by done|].
  split; [by rewrite Hlk, decide_True|].
  split; [intros i Hi1 Hi2; by rewrite Hlk, !decide_False by done|].
  split; [by destruct fixed, custom|]. split; [by destruct fixed, custom|].
  split; [by destruct fixed, custom|]. split; [by intros ->|].
  rewrite (swap_slots_eq _ _ _ _ _ (exchanged fixed custom sa sb) (exchanged fixed custom sb sa));
    [|by rewrite Hlk, decide_False, decide_True by done|by rewrite Hlk, decide_True|done].
  rewrite !exchanged_twice.
  apply list_eq. intros i.
  rewrite (lookup_exchange _ _ _ (exchanged fixed custom sa sb) (exchanged fixed custom sb sa));
    [|by rewrite Hlk, decide_False, decide_True by done|by rewrite Hlk, decide_True].
  destruct (decide (i = Z.to_nat b)) as [->|]; [done|].
  destruct (decide (i = Z.to_nat a)) as [->|]; [done|].
  by rewrite Hlk, !decide_False by done.
Qed.

Lemma swap_slots_spec_witness :
  (swap_slots 0 1 true true (swap_slots 0 1 true true (occupy_slot 0 4 (new_table 2)).1).1).1
  = (occupy_slot 0 4 (new_table 2)).1.
Proof.
  destruct (swap_slots_spec 0 1 true true (occupy_slot 0 4 (new_table 2)).1) as [_ H].
  destruct (H _ _ eq_refl eq_refl ltac:(done)) as (? & ? & _ & _ & _ & _ & _ & _ & _ & E).
  exact E.
Defined.

Lemma count_status_insert st t i s s' :
  t !! i = Some s →
  count_status st (<[i := s']> t)
  = count_status st t - (if is_status st s then 1 else 0) + (if is_status st s' then 1 else 0).
Proof.
  intros Hi. unfold count_status. rewrite <- (take_drop_middle t i s Hi) at 2.
  rewrite insert_take_drop by (by eapply lookup_lt_Some).
  rewrite !filter_app, !filter_cons, !zlen_app.
  destruct (is_status st s), (is_status st s'); cbn [decide Is_true_dec]; simpl;
    autorewrite with zlen; lia.
Qed.

(** Releasing a seated player frees exactly the slot they sat in: they are seated
    nowhere afterwards, that slot is open, the counts of open and occupied slots move
    by one; releasing anybody else changes nothing. *)
Theorem release_spec p (t : SlotTable) :
  p ≠ 0 → slots_wf t → (length t <= 256)%nat →
  match release p t with
  | (t', Some sid) =>
      sid_of_pid p t = Some sid ∧ sid_of_pid p t' = None ∧ is_open sid t' = true ∧
      (∀ i, i ≠ Z.to_nat sid → t' !! i = t !! i) ∧
      count_open t' = count_open t + 1 ∧ count_occupied t' = count_occupied t - 1
  | (t', None) => t' = t ∧ ∀ i s, t !! i = Some s → ¬ seats p s
  end.
Proof.
  intros Hp [_ Hu] Hlen. unfold release.
  destruct (sid_of_pid p t) as [sid|] eqn:Hsid; [|by rewrite sid_of_pid_None in Hsid].
  destruct (sid_of_pid_Some _ _ _ Hlen Hsid) as (s & Hs & Hseat & _).
  unfold open, with_slot. rewrite Hs. cbn [fst].
  pose proof (lookup_lt_Some _ _ _ Hs) as Hlt. destruct Hseat as [Ho Hpid].
  split; [done|]. split.
  { apply sid_of_pid_None. intros j s' Hj Hs'.
    destruct (decide (j = Z.to_nat sid)) as [->|Hne].
    - rewrite list_lookup_insert_eq in Hj by done. injection Hj as <-. by destruct Hs'.
    - rewrite list_lookup_insert_ne in Hj by done. apply Hne. by eapply (Hu j _ s' s p). }
  split; [unfold is_open; by rewrite list_lookup_insert_eq|].
  split; [intros; by rewrite list_lookup_insert_ne|].
  unfold count_open, count_occupied. rewrite !(count_status_insert _ _ _ _ _ Hs).
  unfold is_status. cbn. rewrite !Ho. cbn. lia.
Qed.

Lemma release_spec_witness :
  sid_of_pid 4 (release 4 (occupy_slot 1 4 (new_table 2)).1).1 = None.
Proof.
  assert (slots_wf (occupy_slot 1 4 (new_table 2)).1) as Hwf.
  { eapply slot_step_wf; [apply step_occupy_slot; reflexivity|apply new_table_wf]. }
  pose proof (release_spec 4 _ ltac:(done) Hwf ltac:(vm_compute; lia)) as (_ & H & _). exact H.
Defined.

(** ** Choosing a seat *)

Definition free_in_team (tm : Z) (s : SlotInfo) : Prop := slot_status s = Open ∧ team s = tm.

Lemma free_in_team_b tm s : is_status Open s && (team s =? tm) = true ↔ free_in_team tm s.
Proof. rewrite andb_true_iff, is_status_true, Z.eqb_eq. done. Qed.

(** The seat offered to a player who asks for another slot of a team is an open
    slot of that team, one after the player's own slot when there is one and the
    first of the team otherwise; none is offered only if the team has none. *)
Theorem first_open_in_team_from_spec start tm (t : SlotTable) :
  0 <= start < zlen t → (length t <= 256)%nat →
  match first_open_in_team_from start tm t with
  | Some sid =>
      ∃ s, t !! Z.to_nat sid = Some s ∧ free_in_team tm s ∧
      ∀ i s', t !! i = Some s' → free_in_team tm s' →
        (∀ s0, t !! Z.to_nat start = Some s0 → team s0 = tm → (Z.to_nat start <= i)%nat →
               (Z.to_nat start <= Z.to_nat sid <= i)%nat) ∧
        (∀ s0, t !! Z.to_nat start = Some s0 → team s0 ≠ tm → (Z.to_nat sid <= i)%nat)
  | None => ∀ i s, t !! i = Some s → ¬ free_in_team tm s
  end.
Proof.
  intros Hs Hlen. unfold first_open_in_team_from, zlen in *.
  destruct (lookup_lt_is_Some_2 t (Z.to_nat start)) as [s0 Hs0]; [lia|]. rewrite Hs0.
  set (p := λ s, is_status Open s && (team s =? tm)).
  set (st := if team s0 =? tm then Z.to_nat start else 0%nat).
  assert (st <= Z.to_nat start)%nat as Hst by (subst st; case_match; lia).
  destruct (position p (drop st t)) as [k|] eqn:Hk.
  - pose proof (position_lt _ _ _ Hk) as Hlt. rewrite length_drop in Hlt.
    apply position_Some in Hk as (s & Hl & Hp & Hmin). rewrite lookup_drop in Hl.
    rewrite wrap_small by (unfold uN; change (2 ^ 8) with 256; lia). rewrite Nat2Z.id.
    exists s. split; [done|]. split; [by apply free_in_team_b|].
    intros i s' Hi Hfree. assert (st <= i → st + k <= i)%nat as Hle.
    { intros Hsi. destruct (decide (st + k <= i)%nat); [done|]. exfalso.
      specialize (Hmin (i - st)%nat s' ltac:(lia)). rewrite lookup_drop in Hmin.
      replace (st + (i - st))%nat with i in Hmin by lia. specialize (Hmin Hi).
      apply free_in_team_b in Hfree. subst p. simpl in Hmin. congruence. }
    split; intros s1 Hs1 Ht.
    + assert (s1 = s0) as -> by congruence. revert Hle. subst st.
      rewrite Ht, Z.eqb_refl. lia.
    + assert (s1 = s0) as -> by congruence. revert Hle. subst st.
      rewrite (proj2 (Z.eqb_neq _ _) Ht). lia.
  - assert (∀ i s, (st <= i)%nat → t !! i = Some s → ¬ free_in_team tm s) as Hnone.
    { intros i s Hsi Hi Hf%free_in_team_b. apply position_None in Hk.
      eapply (Forall_lookup_1 _ _ (i - st)%nat) in Hk; [|rewrite lookup_drop, <- Hi; f_equal; lia].
      subst p. simpl in Hk. congruence. }
    destruct (position_u8 p (take st t)) as [sid|] eqn:Hsid.
    + apply position_u8_Some in Hsid as (s & Hl & Hp & Hi & Hmin); [|rewrite length_take; lia].
      apply lookup_take_Some in Hl as [Hl Hlst]. exists s. split; [done|].
      split; [by apply free_in_team_b|]. intros i s' Hi' Hfree.
      assert (i < st)%nat by (destruct (decide (i < st)%nat); [done|]; exfalso;
        eapply (Hnone i s'); [lia|done..]).
      split; intros s1 Hs1 Ht; assert (s1 = s0) as -> by congruence; subst st.
      * rewrite Ht, Z.eqb_refl in *. lia.
      * rewrite (proj2 (Z.eqb_neq _ _) Ht) in *. lia.
    + intros i s Hi Hf. destruct (decide (st <= i)%nat); [by eapply Hnone|].
      unfold position_u8 in Hsid. rewrite fmap_None, position_None in Hsid.
      eapply (Forall_lookup_1 _ _ i) in Hsid; [|rewrite lookup_take_lt by lia; done].
      apply free_in_team_b in Hf. subst p. simpl in Hsid. congruence.
Qed.

Lemma first_open_in_team_from_spec_witness :
  match first_open_in_team_from 1 0 (occupy_slot 1 4 (new_table 3)).1 with
  | Some sid => ∃ s, (occupy_slot 1 4 (new_table 3)).1 !! Z.to_nat sid = Some s
                     ∧ free_in_team 0 s
  | None => False
  end.
Proof.
  pose proof (first_open_in_team_from_spec 1 0 (occupy_slot 1 4 (new_table 3)).1
    ltac:(vm_compute; split; congruence) ltac:(vm_compute; lia)) as H.
  destruct (first_open_in_team_from 1 0 (occupy_slot 1 4 (new_table 3)).1) as [sid|] eqn:E.
  - destruct H as (s & H1 & H2 & _). by exists s.
  - vm_compute in E. discriminate E.
Defined.

(** The colour given to a newcomer is used by nobody, unless every colour is. *)
Lemma unused_colour_spec (t : SlotTable) :
  0 <= unused_colour t <= MAX_SLOTS ∧
  (unused_colour t < MAX_SLOTS → Forall (λ s, colour s ≠ unused_colour t) t) ∧
  (unused_colour t = MAX_SLOTS →
   ∀ c, 0 <= c < MAX_SLOTS → Exists (λ s, colour s = c) t).
Proof.
  unfold unused_colour. set (cs := map Z.of_nat (seq 0 (Z.to_nat MAX_SLOTS))).
  assert (length cs = 24%nat) as Hlen by done.
  assert (∀ k c, cs !! k = Some c ↔ (k < 24)%nat ∧ c = Z.of_nat k) as Hcs.
  { intros k c. subst cs. change @map with (@fmap list _). rewrite list_lookup_fmap, fmap_Some.
    setoid_rewrite lookup_seq. change (Z.to_nat MAX_SLOTS) with 24%nat. naive_solver lia. }
  assert (∀ c, existsb (λ s, colour s =? c) t = true ↔ Exists (λ s, colour s = c) t) as Hex.
  { intros c. rewrite existsb_exists, Exists_exists. setoid_rewrite Z.eqb_eq.
    split; intros (s & Hs & Hc); exists s; split; auto; by apply list_elem_of_In. }
  destruct (position _ cs) as [k|] eqn:Hk.
  - apply position_Some in Hk as (c & Hc & Hp & _). apply Hcs in Hc as [Hc ->].
    change MAX_SLOTS with 24. split; [lia|]. split; [intros _|lia].
    apply negb_true_iff in Hp. apply Forall_Exists_neg. rewrite <- Hex. by rewrite Hp.
  - split; [by change MAX_SLOTS with 24|]. split; [change MAX_SLOTS with 24; lia|].
    intros _ c Hc. apply position_None in Hk. change MAX_SLOTS with 24 in Hc.
    eapply (Forall_lookup_1 _ _ (Z.to_nat c)) in Hk; [|apply Hcs; split; [lia|done]].
    apply negb_false_iff in Hk. rewrite Z2Nat.id in Hk by lia. by apply Hex.
Qed.
