(* ===== verification/Hcl.v ===== *)
(** The HCL game mode, written into the handicaps of the occupied slots
    (spectre-engine, src/hcl.rs): the map script reads it back from there. *)
From S2P Require Import Prelude Utf8 Text BytesExt W3gs Slots.

Definition parse_mode `{Unicode} (word : bytes) : option bytes :=
  mode ← strip_prefix 45 word;
  if negb (zlen mode =? 0) && forallb is_alphanumeric (chars mode)
  then Some (to_lowercase mode) else None.

Fixpoint first_mode `{Unicode} (words : list bytes) : option bytes :=
  match words with
  | [] => None
  | w :: words => match parse_mode w with Some m => Some m | None => first_mode words end
  end.

Definition parse_from_gamename `{Unicode} (game_name : bytes) : option bytes :=
  first_mode (split_whitespace game_name).

Definition hcl_chars : bytes := str "abcdefghijklmnopqrstuvwxyz0123456789 -=,.".

(** The handicap percentages that stand for themselves are never used as codes. *)
Definition reserved_handicap (j : Z) : bool :=
  existsb (Z.eqb j) [0; 50; 60; 70; 80; 90; 100].

(** [for slot in &mut encoding_map { .. }] with its running [j: u8]. *)
Fixpoint encoding_map_from (n : nat) (j : Z) : list Z :=
  match n with
  | O => []
  | S n => let j := if reserved_handicap j then wrap 8 (j + 1) else j in
           j :: encoding_map_from n (wrap 8 (j + 1))
  end.
Definition encoding_map : list Z := encoding_map_from 256 0.

(** [hcl_chars.find(ch).unwrap_or(0)]. *)
Definition char_index (c : Z) : Z :=
  match position (Z.eqb c) hcl_chars with Some i => Z.of_nat i | None => 0 end.

Definition handicap_index (h : Z) : Z := sat_sub h 50 / 10.

Definition hcl_code (h c : Z) : Z :=
  nth (Z.to_nat (Z.min (handicap_index h + char_index c * 6) 255)) encoding_map 0.

(** The loop over the characters: the slots before [current_slot] are done with, the
    list is what is left of the table. *)
Fixpoint encode_hcl_chars (hcl : bytes) (slots : SlotTable) : SlotTable :=
  match slots with
  | [] => []
  | s :: slots =>
    match hcl with
    | [] => s :: slots
    | c :: hcl' =>
      if is_status Occupied s
      then s <| handicap := hcl_code (handicap s) c |> :: encode_hcl_chars hcl' slots
      else s :: encode_hcl_chars hcl slots
    end
  end.

Definition encode_hcl_into_slots (hcl : bytes) (slots : SlotTable) : SlotTable * bool :=
  let occupied_count := count_occupied slots in
  if (zlen hcl =? 0) || (occupied_count <? zlen hcl) then (slots, false)
  else if negb (forallb (λ c, existsb (Z.eqb c) hcl_chars) hcl) then (slots, false)
  else (encode_hcl_chars hcl slots, true).

Definition format_hcl_string (hcl : bytes) : bytes := hcl.

(** ** What the map script does with the handicaps

    It looks a handicap up among the codes; the position gives the character and the
    handicap the player really has, in steps of ten above fifty. *)
Definition hcl_read (h : Z) : option (Z * Z) :=
  i ← position (Z.eqb h) (take 246 encoding_map);
  c ← hcl_chars !! (i / 6)%nat;
  Some (c, 50 + 10 * Z.of_nat (i mod 6)%nat).

Definition occupied_slots (t : SlotTable) : SlotTable := List.filter (is_status Occupied) t.

Lemma encoding_map_sweep :
  forallb (λ ci, forallb (λ hi,
    match hcl_chars !! ci with
    | Some c =>
        let h := nth (Nat.min (hi + ci * 6) 255) encoding_map 0 in
        negb (reserved_handicap h) &&
        bool_decide (hcl_read h = Some (c, 50 + 10 * Z.of_nat hi))
    | None => false
    end) (seq 0 6)) (seq 0 41) = true.
Proof. vm_compute. reflexivity. Qed.

Lemma char_index_lookup c :
  existsb (Z.eqb c) hcl_chars = true →
  ∃ k, (k < 41)%nat ∧ hcl_chars !! k = Some c ∧ char_index c = Z.of_nat k.
Proof.
  intros Hin. unfold char_index. destruct (position (Z.eqb c) hcl_chars) as [k|] eqn:Hk.
  - exists k. pose proof (position_lt _ _ _ Hk).
    apply position_Some in Hk as (c' & Hc & <-%Z.eqb_eq & _). done.
  - rewrite position_None in Hk. apply existsb_exists in Hin as (c' & Hc' & He).
    rewrite Forall_forall in Hk. rewrite Hk in He; [done|by apply list_elem_of_In].
Qed.

Lemma hcl_code_read h c :
  50 <= h < 110 → existsb (Z.eqb c) hcl_chars = true →
  hcl_read (hcl_code h c) = Some (c, h / 10 * 10) ∧ reserved_handicap (hcl_code h c) = false.
Proof.
  intros Hh Hc. apply char_index_lookup in Hc as (k & Hk & Hl & Hci).
  pose proof encoding_map_sweep as Hsw. rewrite forallb_forall in Hsw.
  specialize (Hsw k). rewrite in_seq in Hsw. specialize (Hsw ltac:(lia)).
  rewrite forallb_forall in Hsw. set (hi := Z.to_nat (handicap_index h)).
  assert (handicap_index h = h / 10 - 5 ∧ 5 <= h / 10 < 11) as [Hhi Hrange].
  { unfold handicap_index, sat_sub. rewrite Z.max_r by lia.
    replace (h - 50) with (h + (-5) * 10) by lia. rewrite Z.div_add by lia.
    split; [lia|]. split; [apply Z.div_le_lower_bound|apply Z.div_lt_upper_bound]; lia. }
  specialize (Hsw hi). rewrite in_seq in Hsw. specialize (Hsw ltac:(lia)).
  rewrite Hl in Hsw. apply andb_true_iff in Hsw as [Hr Hd%bool_decide_eq_true].
  unfold hcl_code. rewrite Hci.
  replace (Z.to_nat (Z.min (handicap_index h + Z.of_nat k * 6) 255))
    with (Nat.min (hi + k * 6) 255) by lia.
  split; [|by apply negb_true_iff in Hr]. rewrite Hd. repeat f_equal. lia.
Qed.

Definition slot_in_range (s : SlotInfo) : Prop := 50 <= handicap s < 110.

Lemma encode_hcl_chars_read hcl t :
  Forall (λ c, existsb (Z.eqb c) hcl_chars = true) hcl →
  Forall slot_in_range t → (length hcl <= length (occupied_slots t))%nat →
  map (λ s, hcl_read (handicap s)) (take (length hcl) (occupied_slots (encode_hcl_chars hcl t)))
  = zip_with (λ c s, Some (c, handicap s / 10 * 10)) hcl (occupied_slots t) ∧
  drop (length hcl) (occupied_slots (encode_hcl_chars hcl t))
  = drop (length hcl) (occupied_slots t).
Proof.
  intros Hc Ht. revert hcl Hc. induction Ht as [|s t Hs Ht IH]; intros hcl Hc Hlen.
  { by destruct hcl; [|simpl in Hlen; lia]. }
  destruct hcl as [|c hcl]; [done|]. cbn [encode_hcl_chars].
  unfold occupied_slots in *. destruct (is_status Occupied s) eqn:Ho.
  - cbn [List.filter] in *. rewrite Ho in Hlen |- *.
    replace (is_status Occupied _) with true by (symmetry; exact Ho).
    apply Forall_cons in Hc as [Hc Hcs]. cbn [length] in Hlen.
    destruct (IH hcl Hcs ltac:(lia)) as [IH1 IH2].
    cbn [length take drop map zip_with handicap set]. simpl.
    split; [|exact IH2]. f_equal; [|exact IH1].
    by apply hcl_code_read.
  - cbn [List.filter] in *. rewrite Ho in Hlen |- *. by apply IH.
Qed.

Lemma occupied_slots_zlen t : zlen (occupied_slots t) = count_occupied t.
Proof.
  unfold count_occupied, count_status, occupied_slots. f_equal.
  induction t as [|s t IH]; [done|]. rewrite filter_cons. cbn [List.filter].
  destruct (is_status Occupied s); simpl; by rewrite IH.
Qed.

(** Only handicaps change, and only those of occupied slots. *)
Lemma encode_hcl_chars_frame hcl t i s :
  t !! i = Some s →
  ∃ s', encode_hcl_chars hcl t !! i = Some s' ∧ s' <| handicap := handicap s |> = s ∧
        (is_status Occupied s = false → s' = s).
Proof.
  revert hcl i. induction t as [|s0 t IH]; intros hcl i Hi; [done|].
  destruct hcl as [|c hcl].
  - exists s. repeat split; auto. by destruct s.
  - cbn [encode_hcl_chars]. destruct i as [|i].
    + injection Hi as <-. destruct (is_status Occupied s0) eqn:Ho; eexists; split;
        try reflexivity; split; try done; by destruct s0.
    + by destruct (is_status Occupied s0); apply IH.
Qed.

(** A game mode is accepted exactly when it fits the occupied slots and its alphabet;
    then the map script reads back from the handicaps every character of it and every
    occupied slot's own handicap, no code is mistaken for a plain handicap, and no
    other field of any slot changes. *)
Theorem hcl_roundtrip hcl (t : SlotTable) :
  Forall slot_in_range t →
  let ok := bool_decide (0 < zlen hcl <= count_occupied t) &&
            forallb (λ c, existsb (Z.eqb c) hcl_chars) hcl in
  (encode_hcl_into_slots hcl t).2 = ok ∧
  (ok = false → (encode_hcl_into_slots hcl t).1 = t) ∧
  (ok = true →
    let t' := (encode_hcl_into_slots hcl t).1 in
    map (λ s, hcl_read (handicap s)) (take (length hcl) (occupied_slots t'))
      = zip_with (λ c s, Some (c, handicap s / 10 * 10)) hcl (occupied_slots t) ∧
    drop (length hcl) (occupied_slots t') = drop (length hcl) (occupied_slots t)) ∧
  ∀ i s, t !! i = Some s →
    ∃ s', (encode_hcl_into_slots hcl t).1 !! i = Some s' ∧ s' <| handicap := handicap s |> = s.
Proof.
  intros Ht ok.
  assert (encode_hcl_into_slots hcl t = if ok then (encode_hcl_chars hcl t, true) else (t, false))
    as Heq.
  { unfold encode_hcl_into_slots. subst ok. case_bool_decide as Hl.
    - destruct (Z.eqb_spec (zlen hcl) 0); [lia|].
      destruct (Z.ltb_spec (count_occupied t) (zlen hcl)); [lia|]. cbn [orb andb].
      by destruct (forallb _ hcl).
    - destruct (Z.eqb_spec (zlen hcl) 0) as [|Hn]; [done|].
      destruct (Z.ltb_spec (count_occupied t) (zlen hcl)); [done|].
      pose proof (zlen_nonneg hcl). lia. }
  rewrite Heq. split; [by destruct ok|]. split; [by intros ->|]. split.
  - intros Hok. rewrite Hok. apply andb_true_iff in Hok as [Hl%bool_decide_eq_true Hc].
    apply encode_hcl_chars_read; [|done|].
    + apply Forall_forall. intros c Hin%list_elem_of_In. by eapply forallb_forall in Hc.
    + rewrite <- occupied_slots_zlen in Hl. unfold zlen in Hl. lia.
  - intros i s Hi. destruct ok; [|exists s; split; [done|by destruct s]].
    destruct (encode_hcl_chars_frame hcl _ _ _ Hi) as (s' & ? & ? & _). by exists s'.
Qed.

Lemma hcl_roundtrip_witness :
  map (λ s, hcl_read (handicap s))
      (take 2 (occupied_slots
        (encode_hcl_into_slots (str "ap") (occupy_slot 2 5 (occupy_slot 0 4 (new_table 3)).1).1).1))
  = [Some (97, 100); Some (112, 100)].
Proof.
  assert (Forall slot_in_range (occupy_slot 2 5 (occupy_slot 0 4 (new_table 3)).1).1) as H
    by (repeat constructor; vm_compute; congruence).
  destruct (hcl_roundtrip (str "ap") _ H) as (_ & _ & Hr & _).
  exact (proj1 (Hr eq_refl)).
Defined.
