(* ===== verification/Tick.v ===== *)
(** The tick scheduler of a game actor (spectre-engine, src/tick.rs).  Instants and
    durations are nanoseconds. *)
From S2P Require Import Prelude.

Record TickScheduler := mkTick { period : Z; next : Z }.

Definition new_tick (p now : Z) : TickScheduler := mkTick p (now + p).
Definition deadline (t : TickScheduler) : Z := next t.
Definition set_period (p : Z) (t : TickScheduler) : TickScheduler := t <| period := p |>.

(** [while self.next <= now { self.next += self.period; skipped += 1; }]; [None] when
    the loop has not ended after [fuel] turns. *)
Fixpoint catch_up (fuel : nat) (p now nxt skipped : Z) : option (Z * Z) :=
  if nxt <=? now then
    match fuel with
    | O => None
    | S fuel => catch_up fuel p now (nxt + p) (wrap 32 (skipped + 1))
    end
  else Some (nxt, skipped).

(** Enough turns for any positive period ([advance_spec] shows it). *)
Definition advance_fuel (now : Z) (t : TickScheduler) : nat := Z.to_nat ((now - next t) / period t + 1).

Definition advance (now : Z) (t : TickScheduler) : option (TickScheduler * Z) :=
  '(nxt, skipped) ← catch_up (advance_fuel now t) (period t) now (next t + period t) 0;
  Some (t <| next := nxt |>, skipped).

Lemma catch_up_spec fuel p now nxt sk :
  0 < p → now - nxt < p * Z.of_nat fuel → 0 <= sk →
  ∃ k, 0 <= k ∧ catch_up fuel p now nxt (wrap 32 sk) = Some (nxt + k * p, wrap 32 (sk + k)) ∧
       now < nxt + k * p ∧ (0 < k → nxt + (k - 1) * p <= now).
Proof.
  intros Hp. revert nxt sk. induction fuel as [|fuel IH]; intros nxt sk Hf Hsk; simpl.
  - destruct (Z.leb_spec nxt now); [lia|]. exists 0. rewrite !Z.mul_0_l, !Z.add_0_r. split_and!; [done..|lia|lia].
  - destruct (Z.leb_spec nxt now).
    + destruct (IH (nxt + p) (sk + 1)) as (k & Hk & He & Hn & Hm); [lia..|].
      replace (wrap 32 (wrap 32 sk + 1)) with (wrap 32 (sk + 1))
        by (unfold wrap; by rewrite Z.add_mod_idemp_l).
      rewrite He. exists (k + 1). split; [lia|]. split.
      { replace (nxt + (k + 1) * p) with (nxt + p + k * p) by lia.
        by replace (sk + (k + 1)) with (sk + 1 + k) by lia. }
      split; [lia|]. intros _. destruct (decide (0 < k)); [|assert (k = 0) by lia; subst; lia].
      specialize (Hm ltac:(lia)). lia.
    + exists 0. rewrite !Z.mul_0_l, !Z.add_0_r. split_and!; [done..|lia|lia].
Qed.



(** With a zero period a late tick is never answered: no number of turns ends the
    loop. *)
Theorem advance_zero_period now (t : TickScheduler) :
  period t = 0 → next t <= now →
  ∀ fuel, catch_up fuel (period t) now (next t + period t) 0 = None.
Proof.
  intros Hp Hn fuel. rewrite Hp, Z.add_0_r. generalize 0 at 2 as sk.
  induction fuel as [|fuel IH]; intros sk; simpl;
    destruct (Z.leb_spec (next t) now); try lia; [done|]. rewrite Z.add_0_r. apply IH.
Qed.

Lemma advance_zero_period_witness : ∀ fuel, catch_up fuel 0 7 (5 + 0) 0 = None.
Proof. exact (advance_zero_period 7 (mkTick 0 5) eq_refl ltac:(done)). Defined.
