(* ===== verification/History.v ===== *)
(** The two packet logs of a game: the per-player buffer a GProxy client reconnects
    from (spectre-engine, src/gproxy.rs) and the log of the whole game a cold restart
    is fed from (src/full_history.rs).  Both keep the end of an unbounded sequence of
    packets under absolute sequence numbers; [SeqLogLaws] is what their clients use. *)
From S2P Require Import Prelude.

(** ** [GProxyBuffer] *)
Record GProxyBuffer := mkGBuf { capacity : Z; first_packet_id : Z; packets : list bytes }.

Definition new_gbuf (cap : Z) : GProxyBuffer := mkGBuf cap 0 [].

Definition gbuf_push (p : bytes) (b : GProxyBuffer) : GProxyBuffer :=
  let b := if zlen (packets b) =? capacity b
           then b <| packets := match packets b with [] => [] | _ :: q => q end |>
                  <| first_packet_id := wrap 32 (first_packet_id b + 1) |>
           else b in
  b <| packets := packets b ++ [p] |>.

Definition total_sent (b : GProxyBuffer) : Z :=
  wrap 32 (first_packet_id b + wrap 32 (zlen (packets b))).

Definition replay_from (last_received : Z) (b : GProxyBuffer) : option (list bytes) :=
  if (total_sent b <? last_received) || (last_received <? first_packet_id b) then None
  else Some (drop (Z.to_nat (last_received - first_packet_id b)) (packets b)).

(** ** [FullHistory] *)
Record FullHistory := mkHist { inner : list bytes; cap : Z; evicted : Z }.

Definition new_with_cap (c : Z) : FullHistory := mkHist [] c 0.
Definition new_history : FullHistory := new_with_cap 216000.

Definition hist_push (pkt : bytes) (h : FullHistory) : FullHistory :=
  if cap h =? 0 then h else
  let h := if cap h <=? zlen (inner h)
           then h <| inner := match inner h with [] => [] | _ :: q => q end |>
                  <| evicted := wrap 64 (evicted h + 1) |>
           else h in
  h <| inner := inner h ++ [pkt] |>.

Definition first_seq (h : FullHistory) : Z := evicted h.
Definition next_seq (h : FullHistory) : Z := wrap 64 (evicted h + zlen (inner h)).

Definition snapshot_from_seq (seq : Z) (h : FullHistory) : list bytes :=
  drop (Z.to_nat (sat_sub seq (evicted h))) (inner h).

Definition hist_len (h : FullHistory) : Z := wrap 32 (zlen (inner h)).
Definition hist_is_empty (h : FullHistory) : bool := zlen (inner h) =? 0.
Definition bytes_estimate (h : FullHistory) : Z := foldr (λ b n, zlen b + n) 0 (inner h).

(** ** What both promise

    [log_of l all]: the log [l] holds the last packets of [all], which is everything
    ever pushed to it, in order. *)
Class SeqLogLaws (L : Type) (push : bytes → L → L) (first next : L → Z)
    (from : Z → L → option (list bytes)) (limit : L → Z) (bound : Z) := {
  log_of : L → list bytes → Prop;
  log_push l all p : log_of l all → zlen all + 1 < bound → log_of (push p l) (all ++ [p]);
  log_limit l p : limit (push p l) = limit l;
  log_first l all : log_of l all → first l = Z.max 0 (zlen all - limit l);
  log_next l all : log_of l all → next l = zlen all;
  log_from l all seq : log_of l all → first l <= seq <= zlen all →
    from seq l = Some (drop (Z.to_nat seq) all);
  log_from_outside l all seq : log_of l all → 0 <= seq → zlen all < seq →
    from seq l = None ∨ from seq l = Some [] }.

(** The window of [c > 0] packets that ends a sequence. *)
Definition window (c : Z) (all : list bytes) : list bytes :=
  drop (Z.to_nat (zlen all - c)) all.

Lemma window_zlen c all : 0 < c → zlen (window c all) = Z.min c (zlen all).
Proof. intros. unfold window, zlen. rewrite length_drop. lia. Qed.

Lemma window_push c all p :
  0 < c →
  window c (all ++ [p]) =
    (if c <=? zlen (window c all)
     then match window c all with [] => [] | _ :: q => q end
     else window c all) ++ [p].
Proof.
  intros Hc. rewrite window_zlen by done. unfold window. autorewrite with zlen.
  destruct (Z.leb_spec c (Z.min c (zlen all))) as [Hle|Hgt].
  - assert (c <= zlen all) as Hl by lia.
    replace (Z.to_nat (zlen all + (1 + 0) - c)) with (S (Z.to_nat (zlen all - c))) by lia.
    rewrite drop_app_le by (unfold zlen in *; lia). f_equal.
    destruct (drop (Z.to_nat (zlen all - c)) all) as [|x q] eqn:E.
    + apply drop_ge. apply (f_equal length) in E. rewrite length_drop in E. simpl in E. lia.
    + replace (S (Z.to_nat (zlen all - c))) with (Z.to_nat (zlen all - c) + 1)%nat by lia.
      rewrite <- drop_drop, E. done.
  - rewrite drop_app_le by (unfold zlen in *; lia). f_equal.
    replace (Z.to_nat (zlen all + (1 + 0) - c)) with (Z.to_nat (zlen all - c)) by lia. done.
Qed.

Lemma window_from c all seq :
  Z.max 0 (zlen all - c) <= seq →
  drop (Z.to_nat (seq - Z.max 0 (zlen all - c))) (window c all) = drop (Z.to_nat seq) all.
Proof. intros. unfold window. rewrite drop_drop. f_equal. lia. Qed.

Definition gbuf_log (b : GProxyBuffer) (all : list bytes) : Prop :=
  0 < capacity b ∧ zlen all < 2 ^ 32 ∧ packets b = window (capacity b) all ∧
  first_packet_id b = Z.max 0 (zlen all - capacity b).

Definition hist_log (h : FullHistory) (all : list bytes) : Prop :=
  0 < cap h ∧ zlen all < 2 ^ 64 ∧ inner h = window (cap h) all ∧
  evicted h = Z.max 0 (zlen all - cap h).

Lemma gbuf_log_total b all : gbuf_log b all → total_sent b = zlen all.
Proof.
  intros (Hc & Hb & Hp & Hf). unfold total_sent. rewrite Hp, Hf, window_zlen by done.
  pose proof (zlen_nonneg all). rewrite (wrap_small _ (Z.min _ _)) by (unfold uN; lia).
  rewrite wrap_small; unfold uN; lia.
Qed.

Lemma hist_log_next h all : hist_log h all → next_seq h = zlen all.
Proof.
  intros (Hc & Hb & Hp & Hf). unfold next_seq. rewrite Hp, Hf, window_zlen by done.
  pose proof (zlen_nonneg all). rewrite wrap_small; unfold uN; lia.
Qed.

#[export] Program Instance gbuf_laws :
  SeqLogLaws GProxyBuffer gbuf_push first_packet_id total_sent replay_from capacity (2 ^ 32) :=
  {| log_of := gbuf_log |}.
Next Obligation.
  intros b all p (Hc & Hb & Hp & Hf) Hn. pose proof (zlen_nonneg all).
  assert (zlen (packets b) = Z.min (capacity b) (zlen all)) as Hlen
    by (by rewrite Hp, window_zlen).
  unfold gbuf_push, gbuf_log. pose proof (window_push (capacity b) all p Hc) as Hw.
  rewrite <- Hp in Hw. autorewrite with zlen.
  destruct (Z.eqb_spec (zlen (packets b)) (capacity b)) as [He|He]; cbn.
  - rewrite (proj2 (Z.leb_le _ _)) in Hw by lia. rewrite Hw. split_and!; try done; try lia.
    unfold const. rewrite Hf, wrap_small; unfold uN; lia.
  - rewrite (proj2 (Z.leb_gt _ _)) in Hw by lia. rewrite Hw. split_and!; try done; lia.
Qed.
Next Obligation. intros b p. unfold gbuf_push. by case_match. Qed.
Next Obligation. by intros b all (_ & _ & _ & ?). Qed.
Next Obligation. intros. by apply gbuf_log_total. Qed.
Next Obligation.
  intros b all seq Hl Hs. pose proof (gbuf_log_total b all Hl) as Ht.
  destruct Hl as (Hc & Hb & Hp & Hf). unfold replay_from. rewrite Ht.
  rewrite (proj2 (Z.ltb_ge _ _)), (proj2 (Z.ltb_ge seq _)) by lia. cbn.
  rewrite Hp, Hf, window_from by lia. done.
Qed.
Next Obligation.
  intros b all seq Hl _ Hs. left. unfold replay_from. rewrite (gbuf_log_total b all Hl).
  by rewrite (proj2 (Z.ltb_lt _ _)).
Qed.

#[export] Program Instance hist_laws :
  SeqLogLaws FullHistory hist_push first_seq next_seq (λ s h, Some (snapshot_from_seq s h))
             cap (2 ^ 64) :=
  {| log_of := hist_log |}.
Next Obligation.
  intros h all p (Hc & Hb & Hp & Hf) Hn. pose proof (zlen_nonneg all).
  assert (zlen (inner h) = Z.min (cap h) (zlen all)) as Hlen by (by rewrite Hp, window_zlen).
  unfold hist_push, hist_log. pose proof (window_push (cap h) all p Hc) as Hw.
  rewrite <- Hp in Hw. autorewrite with zlen. rewrite (proj2 (Z.eqb_neq (cap h) 0)) by lia.
  destruct (Z.leb_spec (cap h) (zlen (inner h))) as [He|He]; cbn;
    rewrite Hw; split_and!; try done; try lia.
  unfold const. rewrite Hf, wrap_small; unfold uN; lia.
Qed.
Next Obligation. intros h p. unfold hist_push. by repeat case_match. Qed.
Next Obligation. by intros h all (_ & _ & _ & ?). Qed.
Next Obligation. intros. by apply hist_log_next. Qed.
Next Obligation.
  intros h all seq (Hc & Hb & Hp & Hf) Hs. unfold first_seq, snapshot_from_seq, sat_sub in *.
  rewrite Hp, Hf in *. f_equal. rewrite Z.max_r by lia. apply window_from. lia.
Qed.
Next Obligation.
  intros h all seq (Hc & Hb & Hp & Hf) Hz Hs. right. unfold snapshot_from_seq, sat_sub.
  rewrite Hp, Hf. f_equal. apply drop_ge. pose proof (window_zlen (cap h) all Hc) as Hw.
  unfold zlen in *. lia.
Qed.

Lemma new_gbuf_log c : 0 < c → gbuf_log (new_gbuf c) [].
Proof.
  intros. unfold new_gbuf, gbuf_log. cbn [capacity first_packet_id packets].
  change (zlen []) with 0. split_and!; [done|done|by unfold window; rewrite drop_nil|lia].
Qed.

Lemma new_hist_log c : 0 < c → hist_log (new_with_cap c) [].
Proof.
  intros. unfold new_with_cap, hist_log. cbn [cap evicted inner].
  change (zlen []) with 0. split_and!; [done|done|by unfold window; rewrite drop_nil|lia].
Qed.

(** The log that a fresh one becomes after [pkts]. *)
Section pushed.
Context {L : Type} {push : bytes → L → L} {first next : L → Z}
  {from : Z → L → option (list bytes)} {limit : L → Z} {bound : Z}.
Context `{Hlaws : !SeqLogLaws L push first next from limit bound}.

Definition push_all (l : L) (pkts : list bytes) : L := foldl (λ l p, push p l) l pkts.

Lemma push_all_log l all pkts :
  log_of l all → zlen all + zlen pkts < bound → log_of (push_all l pkts) (all ++ pkts).
Proof.
  revert l all. induction pkts as [|p pkts IH]; intros l all Hl Hb; simpl.
  - by rewrite app_nil_r.
  - rewrite cons_middle, app_assoc. apply IH; [apply log_push; [done|]|];
      autorewrite with zlen in *; pose proof (zlen_nonneg pkts); lia.
Qed.

Lemma push_all_limit l pkts : limit (push_all l pkts) = limit l.
Proof. revert l. induction pkts as [|p pkts IH]; intros l; [done|]. simpl. by rewrite IH, log_limit. Qed.

(** Everything a client of the log needs: it gets exactly the packets after [seq]. *)
Lemma push_all_from l pkts seq :
  log_of l [] → zlen pkts < bound →
  Z.max 0 (zlen pkts - limit l) <= seq <= zlen pkts →
  from seq (push_all l pkts) = Some (drop (Z.to_nat seq) pkts).
Proof.
  intros Hl Hb Hs. assert (log_of (push_all l pkts) pkts) as Hp
    by (apply (push_all_log l []); [done|]; rewrite zlen_nil; lia).
  apply log_from; [done|]. by rewrite (log_first _ _ Hp), push_all_limit.
Qed.
End pushed.

Lemma gbuf_pushed c pkts :
  0 < c → zlen pkts < 2 ^ 32 → gbuf_log (push_all (push := gbuf_push) (new_gbuf c) pkts) pkts.
Proof.
  intros Hc Hb. exact (push_all_log (Hlaws := gbuf_laws) (new_gbuf c) [] pkts
    (new_gbuf_log c Hc) Hb).
Qed.

Lemma hist_pushed c pkts :
  0 < c → zlen pkts < 2 ^ 64 →
  hist_log (push_all (push := hist_push) (new_with_cap c) pkts) pkts.
Proof.
  intros Hc Hb. exact (push_all_log (Hlaws := hist_laws) (new_with_cap c) [] pkts
    (new_hist_log c Hc) Hb).
Qed.

(** A GProxy client that has received any number of packets still retained gets
    exactly the packets it misses, in order; a client that claims more than was sent,
    or has fallen behind the window, gets none. *)
Theorem gproxy_replay c pkts seen :
  0 < c → zlen pkts < 2 ^ 32 → 0 <= seen →
  let b := push_all (push := gbuf_push) (new_gbuf c) pkts in
  total_sent b = zlen pkts ∧
  replay_from seen b =
    if bool_decide (zlen pkts - c <= seen <= zlen pkts)
    then Some (drop (Z.to_nat seen) pkts) else None.
Proof.
  intros Hc Hb Hs b. pose proof (new_gbuf_log c Hc) as H0.
  pose proof (zlen_nonneg pkts).
  assert (gbuf_log b pkts) as Hl by (by apply gbuf_pushed).
  assert (capacity b = c) as Hcap by apply (push_all_limit (Hlaws := gbuf_laws) (new_gbuf c)).
  split; [by apply gbuf_log_total|]. case_bool_decide as Hr.
  - apply (push_all_from (Hlaws := gbuf_laws) (new_gbuf c)); [done|done|]. cbn. lia.
  - unfold replay_from. rewrite (gbuf_log_total _ _ Hl).
    destruct Hl as (_ & _ & _ & Hf). rewrite Hf, Hcap.
    destruct (Z.ltb_spec (zlen pkts) seen); [done|].
    by rewrite (proj2 (Z.ltb_lt seen _)) by lia.
Qed.

Lemma gproxy_replay_witness :
  replay_from 2 (push_all (push := gbuf_push) (new_gbuf 2) [[1]; [2]; [3]; [4]])
  = Some [[3]; [4]].
Proof.
  destruct (gproxy_replay 2 [[1]; [2]; [3]; [4]] 2 ltac:(done) ltac:(done) ltac:(done)) as [_ H].
  exact H.
Defined.

(** The game's log numbers every packet it was ever given, keeps the newest ones up
    to its capacity, and hands out everything from a retained number on. *)
Theorem full_history_snapshot c pkts seq :
  0 < c → zlen pkts < 2 ^ 64 → 0 <= seq →
  let h := push_all (push := hist_push) (new_with_cap c) pkts in
  next_seq h = zlen pkts ∧ first_seq h = Z.max 0 (zlen pkts - c) ∧
  snapshot_from_seq seq h = drop (Z.to_nat (Z.max seq (first_seq h))) pkts.
Proof.
  intros Hc Hb Hs h. pose proof (zlen_nonneg pkts).
  assert (hist_log h pkts) as Hl by (by apply hist_pushed).
  assert (cap h = c) as Hcap by apply (push_all_limit (Hlaws := hist_laws) (new_with_cap c)).
  split; [by apply hist_log_next|]. destruct Hl as (_ & _ & Hi & He). rewrite Hcap in *.
  split; [done|]. unfold snapshot_from_seq, first_seq, sat_sub. rewrite Hi, He.
  unfold window. rewrite drop_drop. f_equal. lia.
Qed.

Lemma full_history_snapshot_witness :
  snapshot_from_seq 0 (push_all (push := hist_push) (new_with_cap 2) [[1]; [2]; [3]])
  = drop (Z.to_nat (Z.max 0 1)) [[1]; [2]; [3]].
Proof.
  destruct (full_history_snapshot 2 [[1]; [2]; [3]] 0 ltac:(done) ltac:(done) ltac:(done))
    as (_ & _ & H). exact H.
Defined.
