(* ===== verification/Players.v ===== *)
(** The players of a game (spectre-engine, src/players.rs).

    Instants are nanoseconds.  A player's [link] is the sending side of the channel of
    their connection.  Fields that no modelled operation reads are left out: the score,
    the packet totals and the mark that a whois was sent. *)
From S2P Require Import Prelude Utf8 Text BytesExt W3gs Conn Slots History.

Definition PING_HISTORY : Z := 10.

Inductive RejoinStage := RejoinNone | AwaitingMapSize | AwaitingLoaded.
#[export] Instance RejoinStage_eq_dec : EqDecision RejoinStage.
Proof. solve_decision. Defined.

Record ChecksumEntry := mkEntry { turn : Z; checksum : Z }.
#[export] Instance ChecksumEntry_eq_dec : EqDecision ChecksumEntry.
Proof. solve_decision. Defined.

Record Player := mkPlayer {
  p_pid : Z;
  p_name : bytes;
  p_conn_id : Z;
  p_link : PlayerLink;
  p_external_ip : bytes;
  p_internal_ip : bytes;
  p_joined_realm : bytes;
  p_spoofed : bool;
  p_sync_counter : Z;
  p_lagging : bool;
  p_started_lagging : option Z;
  p_loaded : bool;
  p_download_status : Z;
  p_ping_history : list Z;
  p_reconnect_key : Z;
  p_gproxy : bool;
  p_gproxy_buffer : option GProxyBuffer;
  p_disconnected_since : option Z;
  p_muted : bool;
  p_reserved : bool;
  p_checksums : list ChecksumEntry;
  p_consecutive_send_failures : Z;
  p_left_code : Z;
  p_left : option bytes;
  p_virtual_host : bool;
  p_finished_loading_at : option Z;
  p_download_allowed : bool;
  p_stats_sent_time : option Z;
  p_stats_dota_sent_time : option Z;
  p_last_gproxy_wait_notice : option Z;
  p_gproxy_disconnect_notice_sent : bool;
  p_rejoin : RejoinStage;
  p_catchup_cursor : option Z;
  p_catching_up : bool }.

(** [Player::new]. *)
Definition new_player (pid : Z) (name : bytes) (conn_id : Z) (link : PlayerLink) : Player :=
  {| p_pid := pid; p_name := name; p_conn_id := conn_id; p_link := link;
     p_external_ip := [0; 0; 0; 0]; p_internal_ip := [0; 0; 0; 0];
     p_joined_realm := []; p_spoofed := false;
     p_sync_counter := 0; p_lagging := false; p_started_lagging := None; p_loaded := false;
     p_download_status := 255; p_ping_history := []; p_reconnect_key := 0; p_gproxy := false;
     p_gproxy_buffer := None; p_disconnected_since := None; p_muted := false;
     p_reserved := false; p_checksums := []; p_consecutive_send_failures := 0;
     p_left_code := ids.PLAYERLEAVE_LOBBY; p_left := None; p_virtual_host := false;
     p_finished_loading_at := None; p_download_allowed := false;
     p_stats_sent_time := None; p_stats_dota_sent_time := None; p_last_gproxy_wait_notice := None; p_gproxy_disconnect_notice_sent := false;
     p_rejoin := RejoinNone; p_catchup_cursor := None; p_catching_up := false |}.

Definition record_ping (ping_ms : Z) (p : Player) : Player :=
  let h := if zlen (p_ping_history p) =? PING_HISTORY
           then match p_ping_history p with [] => [] | _ :: h => h end
           else p_ping_history p in
  p <| p_ping_history := h ++ [ping_ms] |>.

(** [iter().sum::<u32>()] wraps in a release build. *)
Definition sum_u32 (l : list Z) : Z := fold_left (λ s x, wrap 32 (s + x)) l 0.

Definition average_ping (p : Player) : option Z :=
  match p_ping_history p with
  | [] => None
  | h => Some (sum_u32 h / wrap 32 (zlen h))
  end.

(** ** The table: a [Vec<Player>] in joining order *)
Abbreviation PlayerTable := (list Player).

Definition has_pid (pid : Z) (p : Player) : bool := p_pid p =? pid.
Definition has_conn (conn_id : Z) (p : Player) : bool := p_conn_id p =? conn_id.
Definition has_left (p : Player) : bool := match p_left p with Some _ => true | None => false end.
Definition is_human (p : Player) : bool := negb (p_virtual_host p).
Definition is_live (p : Player) : bool := negb (p_virtual_host p) && negb (has_left p).

Definition insert_player (p : Player) (t : PlayerTable) : PlayerTable := t ++ [p].

(** [Vec::remove] of the first match. *)
Fixpoint remove_first (f : Player → bool) (t : PlayerTable) : PlayerTable :=
  match t with
  | [] => []
  | p :: t => if f p then t else p :: remove_first f t
  end.
Definition remove_pid (pid : Z) (t : PlayerTable) : PlayerTable := remove_first (has_pid pid) t.

Definition by_pid (pid : Z) (t : PlayerTable) : option Player := List.find (has_pid pid) t.
Definition by_conn (conn_id : Z) (t : PlayerTable) : option Player :=
  List.find (has_conn conn_id) t.

(** [if let Some(p) = players.by_pid_mut(pid) { *p = f(p) }]. *)
Fixpoint update_first (sel : Player → bool) (f : Player → Player) (t : PlayerTable)
  : PlayerTable :=
  match t with
  | [] => []
  | p :: t => if sel p then f p :: t else p :: update_first sel f t
  end.
Definition by_pid_mut (pid : Z) : (Player → Player) → PlayerTable → PlayerTable :=
  update_first (has_pid pid).
Definition by_conn_mut (conn_id : Z) : (Player → Player) → PlayerTable → PlayerTable :=
  update_first (has_conn conn_id).

Inductive NameMatch := NoMatch | Ambiguous (n : Z).

Definition by_name_partial `{Unicode} (needle : bytes) (t : PlayerTable)
  : result NameMatch Player :=
  match List.find (λ p, bytes_eqb (p_name p) needle) t with
  | Some p => Ok p
  | None =>
    let lower := to_lowercase needle in
    match List.filter (λ p, starts_with lower (to_lowercase (p_name p))) t with
    | [] => Err NoMatch
    | [p] => Ok p
    | hits => Err (Ambiguous (zlen hits))
    end
  end.

Definition iter_humans (t : PlayerTable) : list Player := List.filter is_human t.
Definition human_count (t : PlayerTable) : Z := zlen (iter_humans t).

(** [(1u8..=254).find(..)]. *)
Definition next_free_pid (t : PlayerTable) : option Z :=
  List.find (λ c, negb (existsb (has_pid c) t)) (map Z.of_nat (seq 1 254)).

Definition next_free_colour (slots : SlotTable) : Z :=
  match List.find (λ c, negb (existsb (λ s, colour s =? c) slots)) (map Z.of_nat (seq 0 12)) with
  | Some c => c
  | None => 0
  end.

Definition player_pids (t : PlayerTable) : list Z := map p_pid t.

(** ** Lemmas *)

Lemma has_pid_true pid p : has_pid pid p = true ↔ p_pid p = pid.
Proof. apply Z.eqb_eq. Qed.

Lemma find_Some_split {A} (f : A → bool) l x :
  List.find f l = Some x ↔ ∃ l1 l2, l = l1 ++ x :: l2 ∧ f x = true ∧ Forall (λ y, f y = false) l1.
Proof.
  split.
  - induction l as [|y l IH]; [done|]. simpl. destruct (f y) eqn:Hy.
    + intros [= <-]. by exists [], l.
    + intros (l1 & l2 & -> & Hx & Hl)%IH. exists (y :: l1), l2. auto.
  - intros (l1 & l2 & -> & Hx & Hl). induction Hl as [|y l1 Hy Hl IH]; simpl.
    + by rewrite Hx.
    + by rewrite Hy.
Qed.

Lemma find_None_Forall {A} (f : A → bool) l :
  List.find f l = None ↔ Forall (λ y, f y = false) l.
Proof.
  induction l as [|y l IH]; [done|]. simpl. rewrite Forall_cons.
  destruct (f y); [naive_solver|]. rewrite IH. naive_solver.
Qed.

Lemma update_first_split sel f l1 p l2 :
  Forall (λ q, sel q = false) l1 → sel p = true →
  update_first sel f (l1 ++ p :: l2) = l1 ++ f p :: l2.
Proof.
  intros Hl Hp. induction Hl as [|q l1 Hq Hl IH]; simpl; [by rewrite Hp|]. by rewrite Hq, IH.
Qed.

Lemma update_first_None sel f t :
  List.find sel t = None → update_first sel f t = t.
Proof.
  rewrite find_None_Forall. induction 1 as [|q t Hq Ht IH]; [done|]. simpl. by rewrite Hq, IH.
Qed.

Lemma update_first_map {A} (g : Player → A) sel f t :
  (∀ p, sel p = true → g (f p) = g p) → map g (update_first sel f t) = map g t.
Proof.
  intros Hg. induction t as [|p t IH]; [done|]. simpl.
  destruct (sel p) eqn:Hs; simpl; [by rewrite Hg|by rewrite IH].
Qed.

Lemma remove_first_split f l1 p l2 :
  Forall (λ q, f q = false) l1 → f p = true → remove_first f (l1 ++ p :: l2) = l1 ++ l2.
Proof.
  intros Hl Hp. induction Hl as [|q l1 Hq Hl IH]; simpl; [by rewrite Hp|]. by rewrite Hq, IH.
Qed.

Lemma remove_first_None f t : List.find f t = None → remove_first f t = t.
Proof.
  rewrite find_None_Forall. induction 1 as [|q t Hq Ht IH]; [done|]. simpl. by rewrite Hq, IH.
Qed.

Lemma by_pid_Some pid t p :
  by_pid pid t = Some p ↔
  ∃ t1 t2, t = t1 ++ p :: t2 ∧ p_pid p = pid ∧ Forall (λ q, p_pid q ≠ pid) t1.
Proof.
  unfold by_pid. rewrite find_Some_split. do 2 (apply exist_proper; intros ?).
  rewrite has_pid_true. assert (∀ q, has_pid pid q = false ↔ p_pid q ≠ pid) as H
    by (intros; apply Z.eqb_neq). by setoid_rewrite H.
Qed.

Lemma by_pid_None pid t : by_pid pid t = None ↔ pid ∉ player_pids t.
Proof.
  unfold by_pid. rewrite find_None_Forall. unfold player_pids. rewrite list_elem_of_fmap.
  rewrite Forall_forall. unfold has_pid. setoid_rewrite Z.eqb_neq. naive_solver.
Qed.

Lemma remove_pid_pids pid t :
  NoDup (player_pids t) →
  player_pids (remove_pid pid t) = List.filter (λ q, negb (q =? pid)) (player_pids t).
Proof.
  induction t as [|p t IH]; [done|]. unfold player_pids, remove_pid in *. simpl.
  rewrite NoDup_cons. intros [Hn Hd]. unfold has_pid. destruct (Z.eqb_spec (p_pid p) pid) as [<-|].
  - simpl. clear IH. assert (Forall (λ q, q ≠ p_pid p) (map p_pid t)) as Hall.
    { apply Forall_forall. intros q Hq ->. by apply Hn. }
    clear Hn Hd. induction Hall as [|q l Hq _ IHl]; [done|]. simpl.
    rewrite (proj2 (Z.eqb_neq _ _) Hq). simpl. by rewrite <- IHl.
  - simpl. f_equal. by apply IH.
Qed.

(** With distinct pids an update by pid is an update of every matching player. *)
Lemma by_pid_mut_nodup pid f t :
  NoDup (player_pids t) →
  by_pid_mut pid f t = map (λ p, if has_pid pid p then f p else p) t.
Proof.
  unfold by_pid_mut, player_pids. induction t as [|p t IH]; [done|]. cbn [map update_first].
  rewrite NoDup_cons. intros [Hn Hd]. destruct (has_pid pid p) eqn:Hp; [|by rewrite IH].
  f_equal. apply has_pid_true in Hp. rewrite <- (map_id t) at 1. apply map_ext_in.
  intros q Hq. destruct (has_pid pid q) eqn:Hq'; [|done]. apply has_pid_true in Hq'.
  destruct Hn. rewrite Hp, <- Hq'. apply list_elem_of_In. by apply in_map.
Qed.

Lemma by_pid_elem t p : NoDup (player_pids t) → p ∈ t → by_pid (p_pid p) t = Some p.
Proof.
  intros Hd Hp. apply by_pid_Some. apply list_elem_of_split in Hp as (t1 & t2 & ->).
  exists t1, t2. split_and!; [done|done|]. unfold player_pids in Hd.
  rewrite map_app, map_cons, NoDup_app in Hd. destruct Hd as (_ & Hdis & _).
  apply Forall_forall. intros q Hq E. eapply (Hdis (p_pid q)).
  - apply list_elem_of_fmap. by exists q.
  - rewrite E. set_solver.
Qed.

Lemma map_pids f t : (∀ p, p_pid (f p) = p_pid p) → player_pids (map f t) = player_pids t.
Proof. intros Hf. unfold player_pids. rewrite map_map. by apply map_ext. Qed.

(** A whole list of such updates, when they are distinct or repeating one is harmless. *)
Lemma fold_by_pid_mut l f t :
  NoDup (player_pids t) → (∀ p, p_pid (f p) = p_pid p) → NoDup l ∨ (∀ p, f (f p) = f p) →
  foldl (λ t pid, by_pid_mut pid f t) t l
  = map (λ p, if bool_decide (p_pid p ∈ l) then f p else p) t.
Proof.
  intros Hd Hf. revert t Hd. induction l as [|pid l IH]; intros t Hd Hl; cbn [foldl].
  - rewrite <- (map_id t) at 1. apply map_ext. intros p. by rewrite bool_decide_false by set_solver.
  - rewrite by_pid_mut_nodup by done. rewrite IH.
    + rewrite map_map. apply map_ext. intros p. destruct (has_pid pid p) eqn:Hp.
      * apply has_pid_true in Hp. rewrite Hf, Hp. rewrite (bool_decide_true (pid ∈ pid :: l)) by set_solver.
        case_bool_decide as Hin; [|done]. destruct Hl as [[? _]%NoDup_cons|Hl]; [done|apply Hl].
      * assert (p_pid p ≠ pid) by (intros E; apply has_pid_true in E; congruence).
        do 2 case_bool_decide; set_solver.
    + rewrite map_pids; [done|]. intros p. by destruct (has_pid pid p).
    + destruct Hl as [[? ?]%NoDup_cons|?]; auto.
Qed.

(** The first number of a range that satisfies a test. *)
Lemma find_range (f : Z → bool) (a n : nat) :
  match List.find f (map Z.of_nat (seq a n)) with
  | Some c => Z.of_nat a <= c < Z.of_nat (a + n) ∧ f c = true ∧
              ∀ d, Z.of_nat a <= d < c → f d = false
  | None => ∀ c, Z.of_nat a <= c < Z.of_nat (a + n) → f c = false
  end.
Proof.
  revert a. induction n as [|n IH]; intros a; simpl; [intros; lia|].
  destruct (f (Z.of_nat a)) eqn:Hf; [split_and!; [lia..|done|lia]|].
  specialize (IH (S a)). assert (∀ d, Z.of_nat a <= d → d ≠ Z.of_nat a → Z.of_nat (S a) <= d)
    as Hs by lia. destruct (List.find _ _) as [c|].
  - destruct IH as (Hc & Hfc & Hmin). split_and!; [lia..|done|].
    intros d Hd. destruct (decide (d = Z.of_nat a)) as [->|]; [done|]. apply Hmin. lia.
  - intros c Hc. destruct (decide (c = Z.of_nat a)) as [->|]; [done|]. apply IH. lia.
Qed.

Lemma existsb_has_pid c (t : PlayerTable) : existsb (has_pid c) t = true ↔ c ∈ player_pids t.
Proof.
  rewrite existsb_exists. unfold player_pids. rewrite list_elem_of_fmap.
  setoid_rewrite has_pid_true. setoid_rewrite <- list_elem_of_In. naive_solver.
Qed.

(** The pid handed to a newcomer is the smallest one that is nobody else's, lies
    between 1 and 254, and is refused only when all 254 are taken. *)
Theorem next_free_pid_spec (t : PlayerTable) :
  match next_free_pid t with
  | Some c => 1 <= c <= 254 ∧ c ∉ player_pids t ∧ ∀ d, 1 <= d < c → d ∈ player_pids t
  | None => ∀ c, 1 <= c <= 254 → c ∈ player_pids t
  end.
Proof.
  pose proof (find_range (λ c, negb (existsb (has_pid c) t)) 1 254) as H.
  unfold next_free_pid. destruct (List.find _ _) as [c|].
  - destruct H as (Hc & Hn & Hmin). split; [lia|]. rewrite <- existsb_has_pid.
    apply negb_true_iff in Hn. split; [by rewrite Hn|].
    intros d Hd. apply existsb_has_pid, negb_false_iff, Hmin. lia.
  - intros c Hc. apply existsb_has_pid, negb_false_iff, H. lia.
Qed.

Lemma record_ping_length ping p :
  zlen (p_ping_history p) <= PING_HISTORY →
  zlen (p_ping_history (record_ping ping p)) = Z.min PING_HISTORY (zlen (p_ping_history p) + 1).
Proof.
  unfold record_ping, PING_HISTORY. cbn [p_ping_history set]. unfold const. intros Hle.
  destruct (Z.eqb_spec (zlen (p_ping_history p)) 10) as [He|He].
  - destruct (p_ping_history p) as [|x h]; [done|]. rewrite zlen_cons in *.
    rewrite zlen_app. change (zlen [ping]) with 1. lia.
  - rewrite zlen_app. change (zlen [ping]) with 1. lia.
Qed.
