(* ===== verification/ReplayBody.v ===== *)
(** The body of a replay, as the game writes it block by block (spectre-spectator,
    src/body.rs), and what a reader of the block stream gets back. *)
From S2P Require Import Prelude Utf8 BytesExt W3gs.

Definition REPLAY_LEAVEGAME : Z := 23.
Definition REPLAY_FIRSTSTARTBLOCK : Z := 26.
Definition REPLAY_SECONDSTARTBLOCK : Z := 27.
Definition REPLAY_THIRDSTARTBLOCK : Z := 28.
Definition REPLAY_TIMESLOT2 : Z := 30.
Definition REPLAY_TIMESLOT : Z := 31.
Definition REPLAY_CHATMESSAGE : Z := 32.
Definition LANGUAGE_ID : Z := 1243312.
Definition REPLAY_GAME_TYPE : Z := 1.

Inductive ReplayBodyError := StartNeverSet | InvalidSlotsLength (n : Z).

Record ReplayBody := mkReplay {
  r_host_pid : Z;
  r_host_name : bytes;
  r_players : list (Z * bytes);
  r_slots : bytes;
  r_random_seed : Z;
  r_select_mode : Z;
  r_start_spots : Z;
  r_num_slots : Z;
  r_start_set : bool;
  r_game_name : bytes;
  r_stat_string : bytes;
  r_map_game_type : Z;
  r_loading_blocks : list bytes;
  r_blocks : bytes;
  r_replay_length_ms : Z;
  r_published : Z }.

Definition put_cstr (s : bytes) : bytes := s ++ [0].

Definition new_replay (host_pid : Z) (host_name : bytes) : ReplayBody :=
  mkReplay host_pid host_name [] [] 0 0 0 0 false [] [] 0 [] [] 0 0.

Definition set_host (host_pid : Z) (host_name : bytes) (r : ReplayBody) : ReplayBody :=
  r <| r_host_pid := host_pid |> <| r_host_name := host_name |>.

Definition set_game (game_name stat_string : bytes) (map_game_type : Z) (r : ReplayBody)
  : ReplayBody :=
  r <| r_game_name := game_name |> <| r_stat_string := stat_string |>
    <| r_map_game_type := map_game_type |>.

Definition add_player (pid : Z) (name : bytes) (r : ReplayBody) : ReplayBody :=
  if pid =? r_host_pid r then r else r <| r_players ::= λ ps, ps ++ [(pid, name)] |>.

Definition set_start (slots : bytes) (random_seed select_mode start_spots : Z) (r : ReplayBody)
  : ReplayBody * result ReplayBodyError () :=
  if negb (zlen slots mod 9 =? 0) then (r, Err (InvalidSlotsLength (zlen slots))) else
  (r <| r_num_slots := zlen slots / 9 |> <| r_slots := slots |>
     <| r_random_seed := random_seed |> <| r_select_mode := select_mode |>
     <| r_start_spots := start_spots |> <| r_start_set := true |>, Ok ()).

(** One block of the stream, as the [add_*] methods append it. *)
Definition timeslot_block (time_increment : Z) (actions : bytes) : bytes :=
  [REPLAY_TIMESLOT] ++ le_bytes 2 (wrap 16 (2 + zlen actions)) ++ le_bytes 2 time_increment
    ++ actions.
Definition timeslot2_block (actions : bytes) : bytes :=
  [REPLAY_TIMESLOT2] ++ le_bytes 2 (wrap 16 (2 + zlen actions)) ++ le_bytes 2 0 ++ actions.
Definition chat_block (pid flag extra : Z) (message : bytes) : bytes :=
  [REPLAY_CHATMESSAGE; pid] ++ le_bytes 2 (wrap 16 (1 + 4 + zlen message + 1)) ++ [flag]
    ++ le_bytes 4 extra ++ put_cstr message.
Definition leave_block (pid reason res : Z) : bytes :=
  [REPLAY_LEAVEGAME] ++ le_bytes 4 reason ++ [pid] ++ le_bytes 4 res ++ le_bytes 4 1.

Definition push_block (b : bytes) (r : ReplayBody) : ReplayBody :=
  r <| r_blocks ::= λ bs, bs ++ b |>.

Definition add_timeslot (time_increment : Z) (actions : bytes) (r : ReplayBody) : ReplayBody :=
  push_block (timeslot_block time_increment actions)
    (r <| r_replay_length_ms := wrap 32 (r_replay_length_ms r + time_increment) |>).

Definition add_timeslot2 (actions : bytes) : ReplayBody → ReplayBody :=
  push_block (timeslot2_block actions).

Definition add_chat (pid flag extra : Z) (message : bytes) : ReplayBody → ReplayBody :=
  push_block (chat_block pid flag extra message).

Definition add_leaver (pid reason res : Z) : ReplayBody → ReplayBody :=
  push_block (leave_block pid reason res).

Definition add_server_chat (pid : Z) (message : bytes) : ReplayBody → ReplayBody :=
  add_chat pid 32 0 message.

Definition add_leaver_loading (pid reason res : Z) (r : ReplayBody) : ReplayBody :=
  r <| r_loading_blocks ::= λ bs, bs ++ [leave_block pid reason res] |>.

Definition player_record (p : Z * bytes) : bytes :=
  [22; p.1] ++ put_cstr p.2 ++ [1; 0] ++ le_bytes 4 0.

Definition prologue (r : ReplayBody) : result ReplayBodyError bytes :=
  if negb (r_start_set r) then Err StartNeverSet else Ok (
  le_bytes 4 272 ++ [0; r_host_pid r] ++ put_cstr (r_host_name r) ++ [1; 0]
  ++ put_cstr (r_game_name r) ++ [0] ++ r_stat_string r ++ [0]
  ++ le_bytes 4 (wrap 32 (r_num_slots r))
  ++ le_bytes 4 REPLAY_GAME_TYPE ++ le_bytes 4 LANGUAGE_ID
  ++ concat (map player_record (r_players r))
  ++ [25] ++ le_bytes 2 (wrap 16 (7 + r_num_slots r * 9)) ++ [wrap 8 (r_num_slots r)]
  ++ r_slots r ++ le_bytes 4 (r_random_seed r) ++ [r_select_mode r; r_start_spots r]
  ++ [REPLAY_FIRSTSTARTBLOCK] ++ le_bytes 4 1 ++ [REPLAY_SECONDSTARTBLOCK] ++ le_bytes 4 1
  ++ concat (r_loading_blocks r)
  ++ [REPLAY_THIRDSTARTBLOCK] ++ le_bytes 4 1).

Definition finish (r : ReplayBody) : result ReplayBodyError (bytes * Z) :=
  p ← prologue r; Ok (p ++ r_blocks r, r_replay_length_ms r).

(** [self.blocks[self.published..]]. *)
Definition drain_new_blocks (r : ReplayBody) : bytes * ReplayBody :=
  (drop (Z.to_nat (r_published r)) (r_blocks r), r <| r_published := zlen (r_blocks r) |>).

(** ** Reading the block stream back *)

Inductive Block :=
| TimeSlot (time_increment : Z) (actions : bytes)
| TimeSlot2 (actions : bytes)
| Chat (pid flag extra : Z) (message : bytes)
| Leave (pid reason res : Z).

#[export] Instance Block_eq_dec : EqDecision Block.
Proof. solve_decision. Defined.

Definition block_bytes (b : Block) : bytes :=
  match b with
  | TimeSlot t a => timeslot_block t a
  | TimeSlot2 a => timeslot2_block a
  | Chat p f e m => chat_block p f e m
  | Leave p re rs => leave_block p re rs
  end.

Definition block_ok (b : Block) : Prop :=
  match b with
  | TimeSlot t a => u16 t ∧ zlen a < 65534
  | TimeSlot2 a => zlen a < 65534
  | Chat p f e m => u8 p ∧ u8 f ∧ u32 e ∧ zlen m < 65530 ∧ Forall (λ c, c ≠ 0) m
  | Leave p re rs => u8 p ∧ u32 re ∧ u32 rs
  end.

(** What the game did to the body: the operations of a running game. *)
Definition add_block (r : ReplayBody) (b : Block) : ReplayBody :=
  match b with
  | TimeSlot t a => add_timeslot t a r
  | TimeSlot2 a => add_timeslot2 a r
  | Chat p f e m => add_chat p f e m r
  | Leave p re rs => add_leaver p re rs r
  end.

Definition sized {A} (k : Z → bytes → option (A * bytes)) (l : bytes) : option (A * bytes) :=
  if zlen l <? 2 then None else
  let n := le_val (take 2 l) in
  if zlen (drop 2 l) <? n then None else
  '(a, rest) ← k n (take (Z.to_nat n) (drop 2 l)); 
  Some (a, drop (Z.to_nat n) (drop 2 l)).

(** A reader of one block, following the replay format. *)
Definition read_block (l : bytes) : option (Block * bytes) :=
  match l with
  | [] => None
  | tag :: l =>
    if tag =? REPLAY_TIMESLOT then
      sized (λ n body, Some (TimeSlot (le_val (take 2 body)) (drop 2 body), [])) l
    else if tag =? REPLAY_TIMESLOT2 then
      sized (λ n body, Some (TimeSlot2 (drop 2 body), [])) l
    else if tag =? REPLAY_CHATMESSAGE then
      match l with
      | [] => None
      | p :: l =>
        sized (λ n body, match body with
                         | f :: body => Some (Chat p f (le_val (take 4 body))
                             (take (Z.to_nat (zlen body - 5)) (drop 4 body)), [])
                         | [] => None
                         end) l
      end
    else if tag =? REPLAY_LEAVEGAME then
      if zlen l <? 13 then None else
      match drop 4 l with
      | p :: l' => Some (Leave p (le_val (take 4 l)) (le_val (take 4 l')), drop 8 l')
      | [] => None
      end
    else None
  end.

Fixpoint read_all (fuel : nat) (l : bytes) : list Block * bytes :=
  match fuel, read_block l with
  | S fuel, Some (b, rest) => let '(bs, r) := read_all fuel rest in (b :: bs, r)
  | _, _ => ([], l)
  end.

Lemma take_le_bytes n x l : take n (le_bytes n x ++ l) = le_bytes n x.
Proof. apply take_app_length'; by rewrite length_le_bytes. Qed.
Lemma drop_le_bytes n x l : drop n (le_bytes n x ++ l) = l.
Proof. apply drop_app_length'; by rewrite length_le_bytes. Qed.

Lemma sized_app {A} (k : Z → bytes → option (A * bytes)) n body rest a r :
  0 <= n < 65536 → zlen body = n → k n body = Some (a, r) →
  sized k (le_bytes 2 (wrap 16 n) ++ body ++ rest) = Some (a, rest).
Proof.
  intros Hn Hb Hk. unfold sized. rewrite wrap_small by (unfold uN; simpl; lia).
  autorewrite with zlen. pose proof (zlen_nonneg rest).
  destruct (Z.ltb_spec (Z.of_nat 2 + (zlen body + zlen rest)) 2); [lia|].
  rewrite take_le_bytes, drop_le_bytes, le_val_round2 by (unfold uN; simpl; lia).
  autorewrite with zlen. destruct (Z.ltb_spec (zlen body + zlen rest) n); [lia|].
  rewrite take_app_length', drop_app_length' by (unfold zlen in Hb; lia). by rewrite Hk.
Qed.

Lemma read_block_bytes b rest :
  block_ok b → read_block (block_bytes b ++ rest) = Some (b, rest).
Proof.
  destruct b as [t a|a|p f e m|p re rs]; cbn [block_ok block_bytes];
    unfold timeslot_block, timeslot2_block, chat_block, leave_block.
  - intros [Ht Ha]. pose proof (zlen_nonneg a). rewrite <- !app_assoc. cbn [app].
    unfold read_block. cbn [Z.eqb REPLAY_TIMESLOT Pos.eqb].
    rewrite (app_assoc (le_bytes 2 t)). eapply sized_app; [lia|zlen_lia|].
    by rewrite take_le_bytes, drop_le_bytes, le_val_round2.
  - intros Ha. pose proof (zlen_nonneg a). rewrite <- !app_assoc. cbn [app].
    unfold read_block. cbn. rewrite (app_assoc (le_bytes 2 0)).
    eapply sized_app; [lia|zlen_lia|]. by rewrite drop_le_bytes.
  - intros (Hp & Hf & He & Hm & _). pose proof (zlen_nonneg m).
    rewrite <- !app_assoc. cbn [app]. unfold read_block. cbn [Z.eqb Pos.eqb REPLAY_CHATMESSAGE
      REPLAY_TIMESLOT REPLAY_TIMESLOT2]. unfold put_cstr.
    replace (f :: le_bytes 4 e ++ (m ++ [0]) ++ rest)
      with ((f :: le_bytes 4 e ++ m ++ [0]) ++ rest) by (cbn; by rewrite <- !app_assoc).
    eapply sized_app; [lia|zlen_lia|]. cbn beta iota.
    rewrite take_le_bytes, drop_le_bytes, le_val_round4 by done.
    do 3 f_equal. apply take_app_length'. unfold zlen.
    rewrite !length_app, length_le_bytes. simpl. lia.
  - intros (Hp & Hre & Hrs). rewrite <- !app_assoc. cbn [app]. unfold read_block.
    cbn [Z.eqb Pos.eqb REPLAY_CHATMESSAGE REPLAY_TIMESLOT REPLAY_TIMESLOT2 REPLAY_LEAVEGAME].
    rewrite (proj2 (Z.ltb_ge _ _)) by zlen_lia.
    rewrite take_le_bytes, drop_le_bytes, take_le_bytes, !le_val_round4 by done.
    rewrite app_assoc, drop_app_length' by (rewrite length_app, !length_le_bytes; done).
    done.
Qed.

Lemma read_all_blocks bs rest fuel :
  Forall block_ok bs → read_block rest = None → (length bs <= fuel)%nat →
  read_all fuel (concat (map block_bytes bs) ++ rest) = (bs, rest).
Proof.
  intros Hbs Hr. revert fuel. induction Hbs as [|b bs Hb Hbs IH]; intros fuel Hf.
  - destruct fuel; cbn; by rewrite ?Hr.
  - destruct fuel as [|fuel]; simpl in Hf; [lia|]. cbn [map concat read_all].
    rewrite <- app_assoc, read_block_bytes by done. by rewrite IH by lia.
Qed.

Lemma add_block_blocks r b : r_blocks (add_block r b) = r_blocks r ++ block_bytes b.
Proof. by destruct b. Qed.
Lemma add_block_published r b : r_published (add_block r b) = r_published r.
Proof. by destruct b. Qed.

Lemma add_blocks_blocks bs r :
  r_blocks (foldl add_block r bs) = r_blocks r ++ concat (map block_bytes bs).
Proof.
  revert r. induction bs as [|b bs IH]; intros r; simpl; [by rewrite app_nil_r|].
  by rewrite IH, add_block_blocks, app_assoc.
Qed.

Definition block_ms (b : Block) : Z := match b with TimeSlot t _ => t | _ => 0 end.

Lemma add_blocks_length bs r :
  u32 (r_replay_length_ms r) →
  r_replay_length_ms (foldl add_block r bs)
  = wrap 32 (r_replay_length_ms r + foldr (λ b n, block_ms b + n) 0 bs).
Proof.
  revert r. induction bs as [|b bs IH]; intros r Hr; simpl.
  - by rewrite Z.add_0_r, wrap_small.
  - assert (r_replay_length_ms (add_block r b) = wrap 32 (r_replay_length_ms r + block_ms b)) as E.
    { destruct b; cbn [block_ms]; [done|..]; by rewrite Z.add_0_r, wrap_small. }
    rewrite IH, E by (rewrite E; by apply wrap_range).
    unfold wrap. rewrite Z.add_mod_idemp_l by done. f_equal. lia.
Qed.

(** Whatever blocks a game writes into its replay, a reader of the block stream gets
    back the same time slots, chat lines and departures, in order and nothing else,
    and the recorded length is the sum of the time slots' increments (modulo 2^32). *)
Theorem replay_blocks_roundtrip bs host_pid host_name :
  Forall block_ok bs →
  let r := foldl add_block (new_replay host_pid host_name) bs in
  read_all (length bs) (r_blocks r) = (bs, []) ∧
  r_replay_length_ms r = wrap 32 (foldr (λ b n, block_ms b + n) 0 bs).
Proof.
  intros Hbs r. subst r. rewrite add_blocks_blocks, add_blocks_length by done. split; [|done].
  cbn [r_blocks new_replay app]. rewrite <- (app_nil_r (concat _)). by apply read_all_blocks.
Qed.

Lemma replay_blocks_roundtrip_witness :
  read_all 3 (r_blocks (foldl add_block (new_replay 1 (str "h"))
    [TimeSlot 100 [1; 2]; Chat 1 32 0 (str "gg"); Leave 2 1 7]))
  = ([TimeSlot 100 [1; 2]; Chat 1 32 0 (str "gg"); Leave 2 1 7], []).
Proof.
  assert (Forall block_ok [TimeSlot 100 [1; 2]; Chat 1 32 0 (str "gg"); Leave 2 1 7]) as H.
  { repeat constructor; vm_compute; congruence. }
  exact (proj1 (replay_blocks_roundtrip _ 1 (str "h") H)).
Defined.

(** A running game adds blocks while the live stream drains them. *)
Inductive replay_op := Add (b : Block) | Drain.

Definition replay_step (s : ReplayBody * bytes) (o : replay_op) : ReplayBody * bytes :=
  match o with
  | Add b => (add_block s.1 b, s.2)
  | Drain => let '(out, r) := drain_new_blocks s.1 in (r, s.2 ++ out)
  end.

Definition added (ops : list replay_op) : list Block :=
  omap (λ o, match o with Add b => Some b | Drain => None end) ops.

Lemma replay_step_stream s o :
  0 <= r_published s.1 <= zlen (r_blocks s.1) →
  s.2 ++ drop (Z.to_nat (r_published s.1)) (r_blocks s.1) = r_blocks s.1 →
  let s' := replay_step s o in
  0 <= r_published s'.1 <= zlen (r_blocks s'.1) ∧
  s'.2 ++ drop (Z.to_nat (r_published s'.1)) (r_blocks s'.1) = r_blocks s'.1 ∧
  r_blocks s'.1 = r_blocks s.1 ++ concat (map block_bytes (added [o])).
Proof.
  intros Hp Hs s'. destruct o as [b|]; subst s'; cbn [replay_step added omap list_omap map concat fst snd].
  - rewrite add_block_published, add_block_blocks, app_nil_r. pose proof (zlen_nonneg (block_bytes b)).
    split; [rewrite zlen_app; lia|]. split; [|done].
    rewrite drop_app_le by (clear -Hp; unfold zlen in Hp; lia). by rewrite app_assoc, Hs.
  - unfold drain_new_blocks. cbn. unfold const. pose proof (zlen_nonneg (r_blocks s.1)).
    rewrite (drop_ge (r_blocks s.1) (Z.to_nat (zlen _))) by (unfold zlen; lia).
    rewrite !app_nil_r. split_and!; auto; lia.
Qed.

(** The live stream publishes every block of the replay exactly once and in order,
    however publishing interleaves with the game: what was drained plus what is left to
    drain is all that was ever added. *)
Theorem drain_exactly_once ops host_pid host_name :
  let '(r, out) := foldl replay_step (new_replay host_pid host_name, []) ops in
  r_blocks r = concat (map block_bytes (added ops)) ∧
  out ++ (drain_new_blocks r).1 = r_blocks r.
Proof.
  assert (∀ ops s, 0 <= r_published s.1 <= zlen (r_blocks s.1) →
    s.2 ++ drop (Z.to_nat (r_published s.1)) (r_blocks s.1) = r_blocks s.1 →
    let s' := foldl replay_step s ops in
    s'.2 ++ drop (Z.to_nat (r_published s'.1)) (r_blocks s'.1) = r_blocks s'.1 ∧
    r_blocks s'.1 = r_blocks s.1 ++ concat (map block_bytes (added ops))) as H.
  { clear. induction ops as [|o ops IH]; intros s Hp Hs; [by rewrite app_nil_r|]. cbn [foldl].
    destruct (replay_step_stream s o Hp Hs) as (Hp' & Hs' & Hb).
    destruct (IH _ Hp' Hs') as [H1 H2]. split; [exact H1|]. rewrite H2, Hb, <- app_assoc. f_equal.
    rewrite <- concat_app, <- map_app. do 2 f_equal. by destruct o. }
  specialize (H ops (new_replay host_pid host_name, [])).
  destruct (foldl replay_step _ ops) as [r out]. cbn [fst snd] in H.
  destruct H as [H1 H2]; [done|done|]. by split.
Qed.
