(* ===== verification/StatsDota.v ===== *)
(** The DotA statistics a map reports through its actions (spectre-engine,
    src/stats_dota.rs): records [kdr.x DATA \0 KEY \0 VALUE] anywhere in the action data. *)
From S2P Require Import Prelude Utf8 Text BytesExt.

Record DotAPlayerStats := mkDPS {
  d_colour : Z; d_new_colour : Z; d_name : bytes; d_hero : bytes; d_kills : Z; d_deaths : Z;
  d_assists : Z; d_creep_kills : Z; d_creep_denies : Z; d_neutral_kills : Z; d_gold : Z;
  d_items : list bytes; d_courier_kills : Z; d_tower_kills : Z; d_rax_kills : Z }.

Definition new_stats (col : Z) : DotAPlayerStats :=
  mkDPS col col [] [] 0 0 0 0 0 0 0 [[]; []; []; []; []; []] 0 0 0.

Record StatsDotA := mkDota {
  ds_players : gmap Z DotAPlayerStats; ds_winner : Z; ds_duration_min : Z;
  ds_duration_sec : Z; ds_tree_hp : Z; ds_throne_hp : Z; ds_game_name : bytes }.

Definition new_dota (game_name : bytes) : StatsDotA := mkDota ∅ 0 0 0 100 100 game_name.

Definition add_dota_player (col : Z) (name : bytes) (s : StatsDotA) : StatsDotA :=
  let p := (new_stats col) <| d_name := name |> in
  s <| ds_players ::= λ m, <[col := p]> m |>.

Definition dota_sig : bytes := [107; 100; 114; 46; 120; 0].

(** [(1..=5).contains(&v) || (7..=11).contains(&v)]. *)
Definition is_dota_player (v : Z) : bool :=
  ((1 <=? v) && (v <=? 5)) || ((7 <=? v) && (v <=? 11)).

(** [players.entry(id).or_insert_with(..)], then the update. *)
Definition with_player (id : Z) (f : DotAPlayerStats → DotAPlayerStats) (s : StatsDotA)
  : StatsDotA :=
  s <| ds_players ::= λ m, <[id := f (default (new_stats id) (m !! id))]> m |>.

(** The statistic [key] of one player. *)
Definition player_stat (key value_raw : bytes) (v : Z) (p : DotAPlayerStats) : DotAPlayerStats :=
  let text := from_utf8_lossy (rev value_raw) in
  if bytes_eqb key (str "1") then p <| d_kills := v |>
  else if bytes_eqb key (str "2") then p <| d_deaths := v |>
  else if bytes_eqb key (str "3") then p <| d_creep_kills := v |>
  else if bytes_eqb key (str "4") then p <| d_creep_denies := v |>
  else if bytes_eqb key (str "5") then p <| d_assists := v |>
  else if bytes_eqb key (str "6") then p <| d_gold := v |>
  else if bytes_eqb key (str "7") then p <| d_neutral_kills := v |>
  else if bytes_eqb key (str "8_0") then p <| d_items ::= <[0%nat := text]> |>
  else if bytes_eqb key (str "8_1") then p <| d_items ::= <[1%nat := text]> |>
  else if bytes_eqb key (str "8_2") then p <| d_items ::= <[2%nat := text]> |>
  else if bytes_eqb key (str "8_3") then p <| d_items ::= <[3%nat := text]> |>
  else if bytes_eqb key (str "8_4") then p <| d_items ::= <[4%nat := text]> |>
  else if bytes_eqb key (str "8_5") then p <| d_items ::= <[5%nat := text]> |>
  else if bytes_eqb key (str "9") then p <| d_hero := text |>
  else if bytes_eqb key (str "id") then
    p <| d_new_colour := if 6 <=? v then wrap 32 (v + 1) else v |>
  else p.

(** One record. *)
Definition dota_record (data_bytes key_bytes value_raw : bytes) (s : StatsDotA) : StatsDotA :=
  let v := le_val value_raw in
  let data_str := from_utf8_lossy data_bytes in
  let key_str := from_utf8_lossy key_bytes in
  if bytes_eqb data_str (str "Data") then
    if starts_with (str "Courier") key_str then
      if is_dota_player v
      then with_player v (λ p, p <| d_courier_kills := wrap 32 (d_courier_kills p + 1) |>) s else s
    else if starts_with (str "Tower") key_str then
      if is_dota_player v
      then with_player v (λ p, p <| d_tower_kills := wrap 32 (d_tower_kills p + 1) |>) s else s
    else if starts_with (str "Rax") key_str then
      if is_dota_player v
      then with_player v (λ p, p <| d_rax_kills := wrap 32 (d_rax_kills p + 1) |>) s else s
    else if starts_with (str "Throne") key_str then s <| ds_throne_hp := Z.min v 100 |>
    else if starts_with (str "Tree") key_str then s <| ds_tree_hp := Z.min v 100 |>
    else s
  else if bytes_eqb data_str (str "Global") then
    if bytes_eqb key_str (str "Winner") then s <| ds_winner := v |>
    else if bytes_eqb key_str (str "m") then s <| ds_duration_min := v |>
    else if bytes_eqb key_str (str "s") then s <| ds_duration_sec := v |>
    else s
  else match parse_uint 32 data_str with
       | Some id => if is_dota_player id
                    then with_player id (player_stat key_str value_raw v) s else s
       | None => s
       end.

(** The scan: [l] is [action_data[i..]]. *)
Fixpoint dota_scan (fuel : nat) (l : bytes) (s : StatsDotA) : StatsDotA :=
  match fuel, l with
  | S fuel, _ :: l' =>
    if zlen l <? 6 then s
    else if bytes_eqb (take 6 l) dota_sig then
      let data := drop 6 l in
      match position (Z.eqb 0) data with
      | None => dota_scan fuel l' s
      | Some data_null =>
        let keyp := drop (S data_null) data in
        match position (Z.eqb 0) keyp with
        | None => dota_scan fuel l' s
        | Some key_null =>
          let valp := drop (S key_null) keyp in
          if zlen valp <? 4 then dota_scan fuel l' s
          else dota_scan fuel (drop 4 valp)
                 (dota_record (take data_null data) (take key_null keyp) (take 4 valp) s)
        end
      end
    else dota_scan fuel l' s
  | _, _ => s
  end.

Definition process_action (action_data : bytes) (s : StatsDotA) : StatsDotA * bool :=
  let s := dota_scan (length action_data) action_data s in
  (s, negb (ds_winner s =? 0)).

Definition format_winner (s : StatsDotA) : bytes :=
  if ds_winner s =? 1 then str "Sentinel"
  else if ds_winner s =? 2 then str "Scourge" else str "Unfinished".

(** The players are a hash map: [dota_order] is the order [values()] happens to have. *)
Definition format_player_stats (dota_order : gmap Z DotAPlayerStats → list (Z * DotAPlayerStats))
    (name : bytes) (s : StatsDotA) : option bytes :=
  p ← List.find (λ p, eq_ignore_ascii_case (d_name p) name) (map snd (dota_order (ds_players s)));
  let hero := if zlen (d_hero p) =? 0 then str "None" else d_hero p in
  Some (str "[" ++ d_name p ++ str "] Hero: " ++ hero ++ str ", K/D/A: " ++ dec (d_kills p)
        ++ str "/" ++ dec (d_deaths p) ++ str "/" ++ dec (d_assists p) ++ str ", CS: "
        ++ dec (d_creep_kills p) ++ str "/" ++ dec (d_creep_denies p) ++ str ", Neutrals: "
        ++ dec (d_neutral_kills p) ++ str ", Gold: " ++ dec (d_gold p)).

(** ** What a map writes *)
Definition dota_entry (e : bytes * bytes * Z) : bytes :=
  dota_sig ++ put_cstring e.1.1 ++ put_cstring e.1.2 ++ le_bytes 4 e.2.

Definition entry_ok (e : bytes * bytes * Z) : Prop := cstring_ok e.1.1 ∧ cstring_ok e.1.2.

Definition apply_entry (s : StatsDotA) (e : bytes * bytes * Z) : StatsDotA :=
  dota_record e.1.1 e.1.2 (le_bytes 4 e.2) s.

Lemma position_nul s rest :
  Forall (λ b, b ≠ 0) s → position (Z.eqb 0) (s ++ 0 :: rest) = Some (length s).
Proof.
  induction 1 as [|b s Hb Hs IH]; [done|]. simpl.
  destruct (Z.eqb_spec 0 b); [congruence|]. destruct b; [done|by rewrite IH..].
Qed.

Lemma drop_cstring s rest : drop (S (length s)) (put_cstring s ++ rest) = rest.
Proof.
  unfold put_cstring. apply drop_app_length'. rewrite length_app. simpl. lia.
Qed.

Lemma take_cstring s rest : take (length s) (put_cstring s ++ rest) = s.
Proof. unfold put_cstring. rewrite <- app_assoc. by apply take_app_length'. Qed.

(** What is left of the scan does not depend on how much fuel is left, if enough. *)
Lemma dota_scan_fuel f g l s :
  (length l <= f)%nat → (length l <= g)%nat → dota_scan f l s = dota_scan g l s.
Proof.
  revert f g s. induction l as [l IH] using list_length_ind. intros f g s Hf Hg.
  destruct l as [|x l]; [by destruct f, g|].
  destruct f as [|f], g as [|g]; simpl in Hf, Hg; try lia. cbn [dota_scan].
  assert (dota_scan f l s = dota_scan g l s) as E by (apply IH; simpl; lia).
  destruct (zlen (x :: l) <? 6); [done|]. destruct (bytes_eqb _ _); [|done].
  destruct (position _ _) as [dn|]; [|done]. destruct (position _ _) as [kn|]; [|done].
  destruct (_ <? 4); [done|].
  assert (length (drop 4 (drop (S kn) (drop (S dn) (drop 6 (x :: l))))) <= length l)%nat
    by (rewrite !length_drop; cbn [length]; lia).
  apply IH; [cbn [length]|..]; lia.
Qed.

Lemma dota_scan_entry e rest s :
  entry_ok e →
  dota_scan (length (dota_entry e ++ rest)) (dota_entry e ++ rest) s
  = dota_scan (length rest) rest (apply_entry s e).
Proof.
  intros [[_ Hd] [_ Hk]]. destruct e as [[d k] v]. cbn [fst snd] in *.
  unfold dota_entry, apply_entry. cbn [fst snd].
  set (tail := put_cstring d ++ put_cstring k ++ le_bytes 4 v ++ rest).
  replace ((dota_sig ++ put_cstring d ++ put_cstring k ++ le_bytes 4 v) ++ rest)
    with (dota_sig ++ tail) by (subst tail; by rewrite <- !app_assoc).
  change (dota_sig ++ tail) with (107 :: ([100; 114; 46; 120; 0] ++ tail)) at 2.
  change (length (dota_sig ++ tail)) with (S (length ([100; 114; 46; 120; 0] ++ tail))).
  cbn [dota_scan]. change (107 :: [100; 114; 46; 120; 0] ++ tail) with (dota_sig ++ tail).
  rewrite (proj2 (Z.ltb_ge _ _)) by (rewrite zlen_app; change (zlen dota_sig) with 6; zlen_lia).
  rewrite (take_app_length' dota_sig), (drop_app_length' dota_sig) by done.
  change (bytes_eqb dota_sig dota_sig) with true. cbv iota. subst tail.
  assert (∀ s r, put_cstring s ++ r = s ++ 0 :: r) as Hput
    by (intros; unfold put_cstring; by rewrite <- app_assoc).
  rewrite (Hput d) at 1. rewrite position_nul, drop_cstring by done.
  rewrite (Hput k) at 1. rewrite position_nul, drop_cstring by done.
  rewrite (proj2 (Z.ltb_ge _ _)) by zlen_lia.
  rewrite !take_cstring.
  rewrite (take_app_length' (le_bytes 4 v)), (drop_app_length' (le_bytes 4 v))
    by (by rewrite length_le_bytes).
  apply dota_scan_fuel; [|done]. rewrite !length_app. lia.
Qed.

(** Every statistics record a map writes in an action is taken into account once, in
    order, wherever the record boundaries fall, and the game is reported over exactly
    when a winner has been announced. *)
Theorem dota_records es s :
  Forall entry_ok es →
  process_action (concat (map dota_entry es)) s
  = (foldl apply_entry s es, negb (ds_winner (foldl apply_entry s es) =? 0)).
Proof.
  intros Hes. unfold process_action.
  assert (dota_scan (length (concat (map dota_entry es))) (concat (map dota_entry es)) s
          = foldl apply_entry s es) as ->; [|done].
  revert s. induction Hes as [|e es He Hes IH]; intros s; [done|].
  cbn [map concat foldl]. by rewrite dota_scan_entry, IH.
Qed.

Lemma dota_records_witness :
  let s := (process_action (concat (map dota_entry
     [(str "7", str "1", 12); (str "Data", str "Tower010", 3); (str "Global", str "Winner", 2)]))
     (new_dota [])).1 in
  (d_kills <$> ds_players s !! 7, d_tower_kills <$> ds_players s !! 3, ds_winner s)
  = (Some 12, Some 1, 2).
Proof.
  cbv zeta. rewrite (dota_records
     [(str "7", str "1", 12); (str "Data", str "Tower010", 3); (str "Global", str "Winner", 2)]).
  - vm_compute. reflexivity.
  - repeat (apply Forall_cons; split); try by apply Forall_nil.
    all: split; (split; [apply valid_utf8_ascii|]); cbn.
    all: repeat (apply Forall_cons; split); by try apply Forall_nil.
Defined.
