(* ===== verification/Relay.v ===== *)
(** The spectator relay (spectre-spectator, src/relay.rs): the actor that delays a
    game's packets and shows them to viewers.  Its task's [select!] loop is
    [relay_event]: a command from its channel, or the release timer.  Opening the
    listening socket is left out. *)
From S2P Require Import Prelude Utf8 BytesExt Frame W3gs DotaTv Conn.

Definition MAX_CONSECUTIVE_DROPS : Z := 200.

Record RelayConfig := mkRelayConfig {
  rc_delay : Z; rc_max_viewers : Z; rc_game_name : bytes; rc_history_max_mb : Z }.

Inductive RelayError := RelayFull | HistoryLimitExceeded.

Inductive RelayCmd :=
| GameBlock (block : bytes)
| GameStart (snap : GameStartSnapshot)
| RelayPlayer (pid : Z) (name : bytes) (colour team race : Z)
| ViewerJoined (conn_id : Z) (link : PlayerLink)
| ViewerLeft (conn_id : Z)
| RelayConn (ev : ConnEvent)
| ViewerChat (sender text : bytes)
| RelayGameOver
| DebugGetReleasedCount.

(** [RelayHandle]: the sending side; a refused command is dropped. *)
Abbreviation RelayHandle := (Chan RelayCmd).
Definition rh_push (block : bytes) (h : RelayHandle) : RelayHandle :=
  send_ignore h (GameBlock block).
Definition send_game_start (snap : GameStartSnapshot) (h : RelayHandle) : RelayHandle :=
  send_ignore h (GameStart snap).
Definition send_player_info (pid : Z) (name : bytes) (colour team race : Z) (h : RelayHandle)
  : RelayHandle := send_ignore h (RelayPlayer pid name colour team race).
Definition rh_send_chat (sender text : bytes) (h : RelayHandle) : RelayHandle :=
  send_ignore h (ViewerChat sender text).
Definition send_game_over (h : RelayHandle) : RelayHandle := send_ignore h RelayGameOver.

Record Relay := mkRelay {
  rl_cfg : RelayConfig;
  rl_viewers : list (Z * PlayerLink);
  rl_drop_counts : gmap Z Z;
  rl_delayed_blocks : list (Z * bytes);
  rl_released_count : Z;
  rl_snapshot : option GameStartSnapshot;
  rl_players : list PlayerInfo;
  rl_history : list bytes;
  rl_history_bytes : Z }.

Definition new_relay (cfg : RelayConfig) : Relay := mkRelay cfg [] ∅ [] 0 None [] [] 0.

Definition add_viewer (conn_id : Z) (link : PlayerLink) (r : Relay)
  : Relay * result RelayError () :=
  if rc_max_viewers (rl_cfg r) <=? zlen (rl_viewers r) then (r, Err RelayFull) else
  let max_history_bytes := sat_mul 64 (rc_history_max_mb (rl_cfg r)) (1024 * 1024) in
  if max_history_bytes <? rl_history_bytes r then (r, Err HistoryLimitExceeded) else
  (r <| rl_drop_counts ::= delete conn_id |> <| rl_viewers ::= λ vs, vs ++ [(conn_id, link)] |>,
   Ok ()).

Definition remove_viewer (conn_id : Z) (r : Relay) : Relay :=
  r <| rl_drop_counts ::= delete conn_id |>
    <| rl_viewers ::= List.filter (λ v, negb (v.1 =? conn_id)) |>.

(** [viewers.retain(|..| match link.try_send(bytes) { .. })]. *)
Fixpoint send_viewers (bs : bytes) (vs : list (Z * PlayerLink)) (drops : gmap Z Z)
  : list (Z * PlayerLink) * gmap Z Z :=
  match vs with
  | [] => ([], drops)
  | (conn_id, link) :: vs =>
    let '(link, answer) := try_send link bs in
    let '(keep, drops) :=
      match answer with
      | Ok _ => (true, delete conn_id drops)
      | Err Backpressure =>
        let n := wrap 32 (default 0 (drops !! conn_id) + 1) in
        if MAX_CONSECUTIVE_DROPS <? n then (false, delete conn_id drops)
        else (true, <[conn_id := n]> drops)
      | Err Conn.Closed => (false, delete conn_id drops)
      end in
    let '(vs, drops) := send_viewers bs vs drops in
    (if keep then (conn_id, link) :: vs else vs, drops)
  end.

Definition relay_broadcast (bs : bytes) (r : Relay) : Relay :=
  let '(vs, drops) := send_viewers bs (rl_viewers r) (rl_drop_counts r) in
  r <| rl_viewers := vs |> <| rl_drop_counts := drops |>.

Definition handle_conn_event (ev : ConnEvent) (r : Relay) : Relay :=
  match ev_kind ev with
  | EvClosed _ => remove_viewer (ev_conn_id ev) r
  | EvFrame (FDotaTv f) | EvFrame (FW3gs f) =>
    if fr_id f =? dotatv_ids.CLIENT_CHAT then
      match decode_client_chat (fr_payload f) with
      | Ok text =>
        match encode_chat (str "Viewer-" ++ dec (ev_conn_id ev)) text with
        | Ok pkt => relay_broadcast pkt r
        | Err _ => r
        end
      | Err _ => r
      end
    else r
  | _ => r
  end.

(** The packet a block is shown as: framed, or as it is when it cannot be framed. *)
Definition framed (block : bytes) : bytes :=
  match encode_action block with Ok f => f | Err _ => block end.

Definition release_block (block : bytes) (r : Relay) : Relay :=
  let r := r <| rl_history_bytes := sat_add 64 (rl_history_bytes r) (zlen block) |>
             <| rl_history ::= λ h, h ++ [block] |> in
  let r := relay_broadcast (framed block) r in
  r <| rl_released_count := wrap 64 (rl_released_count r + 1) |>.

(** [while let Some((release_at, _)) = delayed_blocks.front()]: [blocks] is the queue. *)
Fixpoint release_due (now : Z) (blocks : list (Z * bytes)) (r : Relay) : Relay :=
  match blocks with
  | (release_at, block) :: blocks' =>
    if release_at <=? now
    then release_due now blocks' (release_block block (r <| rl_delayed_blocks := blocks' |>))
    else r
  | [] => r
  end.
Definition release_due_blocks (now : Z) (r : Relay) : Relay :=
  release_due now (rl_delayed_blocks r) r.

Definition send_ok (m : result ProtoError bytes) (link : PlayerLink) : PlayerLink :=
  match m with Ok b => send_ignore link b | Err _ => link end.

(** What a new viewer is sent: everything up to now. *)
Definition welcome (r : Relay) (link : PlayerLink) : PlayerLink :=
  let link := send_ok (encode_hello 1 (str "spectre")) link in
  let link := match rl_snapshot r with Some s => send_ok (encode_snapshot s) link | None => link end in
  let link := foldl (λ l p, send_ok (encode_player (pi_pid p) (pi_name p) (pi_colour p)
                                                   (pi_team p) (pi_race p)) l)
                    link (rl_players r) in
  let link := foldl (λ l action, send_ok (encode_action action) l) link (rl_history r) in
  send_ok (encode_history_end (wrap 32 (zlen (rl_history r)))) link.

Fixpoint set_player_info (p : PlayerInfo) (ps : list PlayerInfo) : list PlayerInfo :=
  match ps with
  | [] => [p]
  | q :: ps => if pi_pid q =? pi_pid p then p :: ps else q :: set_player_info p ps
  end.

(** The blocks that are left when the game ends go out at once. *)
Fixpoint flush_blocks (blocks : list (Z * bytes)) (r : Relay) : Relay :=
  match blocks with
  | (_, block) :: blocks =>
    let r := relay_broadcast (framed block) (r <| rl_delayed_blocks := blocks |>) in
    flush_blocks blocks (r <| rl_released_count := wrap 64 (rl_released_count r + 1) |>)
  | [] => r
  end.

Definition relay_cmd (now : Z) (c : RelayCmd) (r : Relay) : Relay :=
  match c with
  | ViewerJoined conn_id link =>
    match add_viewer conn_id (welcome r link) r with
    | (r', Ok _) => r'
    | (_, Err _) => r
    end
  | ViewerLeft conn_id => remove_viewer conn_id r
  | RelayConn ev => handle_conn_event ev r
  | ViewerChat sender text =>
    match encode_chat sender text with Ok pkt => relay_broadcast pkt r | Err _ => r end
  | GameBlock block =>
    release_due_blocks now
      (r <| rl_delayed_blocks ::= λ q, q ++ [(now + rc_delay (rl_cfg r), block)] |>)
  | GameStart snap => r <| rl_snapshot := Some snap |>
  | RelayPlayer pid name col tm rc =>
    r <| rl_players ::= set_player_info (mkPlayerInfo pid name col tm rc) |>
  | RelayGameOver =>
    (flush_blocks (rl_delayed_blocks r) r) <| rl_history := [] |> <| rl_history_bytes := 0 |>
  | DebugGetReleasedCount => release_due_blocks now r
  end.

(** One turn of the task's loop. *)
Inductive RelayEvent := Cmd (c : RelayCmd) | Timer.

Definition relay_event (now : Z) (e : RelayEvent) (r : Relay) : Relay :=
  match e with Cmd c => relay_cmd now c r | Timer => release_due_blocks now r end.

(** What happens on the other end of the links: every writer takes a packet, a viewer
    goes away. *)
Inductive RelayEnv := WritersRun | PeerGone (conn_id : Z).

Definition relay_env (e : RelayEnv) (r : Relay) : Relay :=
  match e with
  | WritersRun => r <| rl_viewers ::= map (λ v, (v.1, recv v.2)) |>
  | PeerGone conn_id =>
    r <| rl_viewers ::= map (λ v, if v.1 =? conn_id
                                  then (v.1, v.2 <| ch_closed := true |>) else v) |>
  end.

(** A run: timed turns of the task, interleaved with what its peers do. *)
Fixpoint relay_run (evs : list (Z * (RelayEvent + RelayEnv))) (r : Relay) : Relay :=
  match evs with
  | [] => r
  | (now, inl e) :: evs => relay_run evs (relay_event now e r)
  | (_, inr e) :: evs => relay_run evs (relay_env e r)
  end.

(** The game blocks that arrive during a run, with their arrival times. *)
Definition arrivals (evs : list (Z * (RelayEvent + RelayEnv))) : list (Z * bytes) :=
  omap (λ e, match e.2 with inl (Cmd (GameBlock b)) => Some (e.1, b) | _ => None end) evs.

Definition no_game_over (evs : list (Z * (RelayEvent + RelayEnv))) : Prop :=
  Forall (λ e, e.2 ≠ inl (Cmd RelayGameOver)) evs.

(** The clock does not run backwards. *)
Fixpoint clocked (t : Z) (evs : list (Z * (RelayEvent + RelayEnv))) : Prop :=
  match evs with
  | [] => True
  | (now, _) :: evs => t <= now ∧ clocked now evs
  end.

Definition last_time (t : Z) (evs : list (Z * (RelayEvent + RelayEnv))) : Z :=
  foldl (λ _ e, e.1) t evs.

(** ** The delay *)

(** [broadcast] and the operations on viewers touch neither queue nor history. *)
Definition stream_of (r : Relay) : RelayConfig * list (Z * bytes) * Z * list bytes :=
  (rl_cfg r, rl_delayed_blocks r, rl_released_count r, rl_history r).

Lemma relay_broadcast_stream bs r : stream_of (relay_broadcast bs r) = stream_of r.
Proof. unfold relay_broadcast. by destruct (send_viewers _ _ _). Qed.

Lemma handle_conn_event_stream ev r : stream_of (handle_conn_event ev r) = stream_of r.
Proof.
  unfold handle_conn_event. repeat case_match; try done; apply relay_broadcast_stream.
Qed.

Lemma add_viewer_stream id link r : stream_of (add_viewer id link r).1 = stream_of r.
Proof. unfold add_viewer. by repeat case_match. Qed.

(** The queue holds the arrivals from the [n]-th on, the history those before. *)
Record relay_inv (arr : list (Z * bytes)) (n : nat) (t : Z) (r : Relay) : Prop := {
  ri_n : (n <= length arr)%nat;
  ri_history : rl_history r = map snd (take n arr);
  ri_delayed : rl_delayed_blocks r
               = map (λ a, (a.1 + rc_delay (rl_cfg r), a.2)) (drop n arr);
  ri_due : Forall (λ a, a.1 + rc_delay (rl_cfg r) <= t) (take n arr);
  ri_count : rl_released_count r = wrap 64 (Z.of_nat n) }.

Lemma relay_inv_stream arr n t r r' :
  relay_inv arr n t r → stream_of r' = stream_of r → relay_inv arr n t r'.
Proof. intros [? ? ? ? ?] [= E1 E2 E3 E4]. split; rewrite ?E1, ?E2, ?E3, ?E4; auto. Qed.

Lemma release_block_inv arr n t r a :
  relay_inv arr n t r → arr !! n = Some a → a.1 + rc_delay (rl_cfg r) <= t →
  relay_inv arr (S n) t (release_block a.2 (r <| rl_delayed_blocks :=
    map (λ a, (a.1 + rc_delay (rl_cfg r), a.2)) (drop (S n) arr) |>)).
Proof.
  intros [Hn Hh Hd Hdue Hc] Ha Ht. unfold release_block. cbv zeta.
  set (r0 := _ <| rl_history ::= _ |>).
  pose proof (relay_broadcast_stream (framed a.2) r0) as [= E1 E2 E3 E4].
  pose proof (lookup_lt_Some _ _ _ Ha). split; cbn; unfold const; rewrite ?E1, ?E2, ?E3, ?E4.
  - lia.
  - subst r0. cbn. rewrite Hh, (take_S_r _ _ _ Ha), map_app. done.
  - done.
  - rewrite (take_S_r _ _ _ Ha). apply Forall_app. by repeat constructor.
  - subst r0. cbn. rewrite Hc. unfold wrap. rewrite Z.add_mod_idemp_l by done. f_equal. lia.
Qed.

Lemma release_due_inv arr n t r :
  relay_inv arr n t r →
  ∃ m, (n <= m)%nat ∧ relay_inv arr m t (release_due_blocks t r) ∧
       rl_cfg (release_due_blocks t r) = rl_cfg r ∧
       ∀ a, arr !! m = Some a → t < a.1 + rc_delay (rl_cfg r).
Proof.
  intros Hinv. unfold release_due_blocks. remember (drop n arr) as rest eqn:Er.
  revert n r Hinv Er. induction rest as [|a rest IH]; intros n r Hinv Er.
  - exists n. rewrite (ri_delayed _ _ _ _ Hinv), <- Er. cbn. split_and!; try done.
    intros a Ha%lookup_lt_Some. symmetry in Er. apply (f_equal length) in Er.
    rewrite length_drop in Er. simpl in Er. lia.
  - rewrite (ri_delayed _ _ _ _ Hinv), <- Er. cbn [map release_due].
    assert (arr !! n = Some a) as Ha
      by (rewrite <- (Nat.add_0_r n), <- lookup_drop, <- Er; done).
    assert (rest = drop (S n) arr) as Er' by (rewrite <- Nat.add_1_r, <- drop_drop, <- Er; done).
    destruct (Z.leb_spec (a.1 + rc_delay (rl_cfg r)) t) as [Hle|Hgt].
    + pose proof (release_block_inv _ _ _ _ _ Hinv Ha Hle) as Hinv'. rewrite <- Er' in Hinv'.
      set (r' := release_block _ _) in *.
      assert (rl_cfg r' = rl_cfg r) as Hcfg.
      { subst r'. unfold release_block. cbv zeta.
        match goal with |- context [relay_broadcast ?b ?x] =>
          pose proof (relay_broadcast_stream b x) as [= E1 E2 E3 E4] end. cbn. by rewrite E1. }
      destruct (IH _ _ Hinv' Er') as (m & Hm & Hi & Hc & Hlast).
      rewrite (ri_delayed _ _ _ _ Hinv'), <- Er', Hcfg in Hi, Hc. rewrite Hcfg in *.
      exists m. split_and!; [lia|done|congruence|done].
    + exists n. split_and!; [lia| |done|].
      * eapply relay_inv_stream; [exact Hinv|done].
      * intros b Hb. assert (b = a) as -> by congruence. done.
Qed.

Lemma relay_inv_later arr n t t' r : relay_inv arr n t r → t <= t' → relay_inv arr n t' r.
Proof.
  intros [? ? ? Hdue ?] Ht. split; auto. eapply Forall_impl; [exact Hdue|]. simpl. lia.
Qed.

Lemma relay_inv_arrive arr n t r now b :
  relay_inv arr n t r →
  relay_inv (arr ++ [(now, b)]) n t
    (r <| rl_delayed_blocks ::= λ q, q ++ [(now + rc_delay (rl_cfg r), b)] |>).
Proof.
  intros [Hn Hh Hd Hdue Hc]. split; cbn.
  - rewrite length_app. lia.
  - by rewrite take_app_le.
  - by rewrite drop_app_le, map_app, Hd by done.
  - by rewrite take_app_le.
  - done.
Qed.

Lemma relay_event_inv arr n t r now e :
  relay_inv arr n t r → t <= now → e ≠ Cmd RelayGameOver →
  ∃ m, (n <= m)%nat ∧ relay_inv (arr ++ arrivals [(now, inl e)]) m now (relay_event now e r) ∧
       rl_cfg (relay_event now e r) = rl_cfg r ∧
       ((∃ b, e = Cmd (GameBlock b)) ∨ e = Timer →
        ∀ a, (arr ++ arrivals [(now, inl e)]) !! m = Some a → now < a.1 + rc_delay (rl_cfg r)).
Proof.
  intros Hinv0 Hle He. pose proof (relay_inv_later _ _ _ now _ Hinv0 Hle) as Hinv.
  clear Hinv0.
  assert (∀ r', stream_of r' = stream_of r → (∀ b, e ≠ Cmd (GameBlock b)) → e ≠ Timer →
    arrivals [(now, inl e)] = [] → relay_event now e r = r' →
    ∃ m, (n <= m)%nat ∧ relay_inv (arr ++ arrivals [(now, inl e)]) m now (relay_event now e r) ∧
       rl_cfg (relay_event now e r) = rl_cfg r ∧
       ((∃ b, e = Cmd (GameBlock b)) ∨ e = Timer →
        ∀ a, (arr ++ arrivals [(now, inl e)]) !! m = Some a →
             now < a.1 + rc_delay (rl_cfg r))) as Hsame.
  { intros r' Hr' Hb Ht Ha Hev. exists n. rewrite Ha, app_nil_r, Hev. split_and!; [done|..].
    - by eapply relay_inv_stream.
    - unfold stream_of in Hr'. congruence.
    - intros [[b ?]|?]; naive_solver. }
  assert (∀ r0, relay_inv (arr ++ arrivals [(now, inl e)]) n now r0 → rl_cfg r0 = rl_cfg r →
    relay_event now e r = release_due_blocks now r0 →
    ∃ m, (n <= m)%nat ∧ relay_inv (arr ++ arrivals [(now, inl e)]) m now (relay_event now e r) ∧
       rl_cfg (relay_event now e r) = rl_cfg r ∧
       ((∃ b, e = Cmd (GameBlock b)) ∨ e = Timer →
        ∀ a, (arr ++ arrivals [(now, inl e)]) !! m = Some a →
             now < a.1 + rc_delay (rl_cfg r))) as Hrel.
  { intros r0 Hi Hc Hev. destruct (release_due_inv _ _ _ _ Hi) as (m & Hm & Hi' & Hc' & Hl).
    exists m. rewrite Hev, Hc', Hc. split_and!; auto. intros _. by rewrite <- Hc. }
  destruct e as [c|]; [destruct c|].
  1: eapply (Hrel (r <| rl_delayed_blocks ::= λ q, q ++ [(now + rc_delay (rl_cfg r), block)] |>));
    [by apply relay_inv_arrive|done|done].
  8, 9: apply (Hrel r); [cbn; by rewrite app_nil_r|done|done].
  all: eapply Hsame; [|naive_solver..|reflexivity].
  - reflexivity.
  - reflexivity.
  - cbn. pose proof (add_viewer_stream conn_id (welcome r link) r) as Hs.
    by destruct (add_viewer _ _ _) as [r' []].
  - reflexivity.
  - apply handle_conn_event_stream.
  - cbn. case_match; [apply relay_broadcast_stream|done].
  - done.
Qed.

Lemma relay_run_inv evs arr n t r :
  relay_inv arr n t r → clocked t evs → no_game_over evs →
  ∃ m, relay_inv (arr ++ arrivals evs) m (last_time t evs) (relay_run evs r) ∧
       rl_cfg (relay_run evs r) = rl_cfg r.
Proof.
  revert arr n t r. induction evs as [|[now e] evs IH]; intros arr n t r Hinv Hclk Hno.
  { exists n. by rewrite app_nil_r. }
  destruct Hclk as [Hle Hclk]. apply Forall_cons in Hno as [He Hno]. destruct e as [e|e].
  - destruct (relay_event_inv _ _ _ _ now e Hinv Hle) as (m & _ & Hi & Hc & _);
      [intros ->; by apply He|].
    destruct (IH _ _ _ _ Hi Hclk Hno) as (m' & Hi' & Hc'). exists m'.
    cbn [relay_run last_time foldl fst]. rewrite <- app_assoc in Hi'. split; [|congruence].
    replace (arrivals ((now, inl e) :: evs)) with (arrivals [(now, inl e)] ++ arrivals evs);
      [exact Hi'|]. cbn. by case_match.
  - assert (relay_inv arr n now (relay_env e r)) as Hi.
    { eapply relay_inv_stream; [by eapply relay_inv_later|by destruct e]. }
    destruct (IH _ _ _ _ Hi Hclk Hno) as (m' & Hi' & Hc'). exists m'. split; [exact Hi'|].
    cbn [relay_run]. rewrite Hc'. by destruct e.
Qed.

Lemma new_relay_inv cfg t : relay_inv [] 0 t (new_relay cfg).
Proof. by split. Qed.

(** The relay releases a game's blocks in the order they came, none before its delay
    has passed, and after a timer turn none that is due is still held back; nothing
    that arrived is lost. *)
Theorem relay_delay cfg evs now :
  clocked 0 (evs ++ [(now, inl Timer)]) → no_game_over evs →
  let r := relay_run (evs ++ [(now, inl Timer)]) (new_relay cfg) in
  let arr := arrivals evs in
  ∃ n, rl_history r = map snd (take n arr) ∧
       map snd (rl_delayed_blocks r) = map snd (drop n arr) ∧
       rl_released_count r = wrap 64 (Z.of_nat n) ∧
       Forall (λ a, a.1 + rc_delay cfg <= now) (take n arr) ∧
       (∀ a, arr !! n = Some a → now < a.1 + rc_delay cfg).
Proof.
  intros Hclk Hno. cbv zeta.
  assert (∀ evs t, clocked t (evs ++ [(now, inl Timer)]) →
            clocked t evs ∧ last_time t evs <= now) as Hsplit.
  { clear. induction evs as [|[t' e] evs IH]; intros t; cbn; [naive_solver|].
    intros [? [? ?]%IH]. done. }
  apply Hsplit in Hclk as [Hclk Hlast].
  destruct (relay_run_inv evs _ _ _ _ (new_relay_inv cfg 0) Hclk Hno) as (n & Hi & Hc).
  assert (∀ r, relay_run (evs ++ [(now, inl Timer)]) r
               = release_due_blocks now (relay_run evs r)) as ->.
  { clear. induction evs as [|[t [e|e]] evs IH]; intros r; cbn; [done|apply IH..]. }
  apply (relay_inv_later _ _ _ now) in Hi; [|done].
  destruct (release_due_inv _ _ _ _ Hi) as (m & _ & [Hm Hh Hd Hdue Hcnt] & Hcfg & Hnext).
  cbn [app new_relay rl_cfg] in *. rewrite Hcfg, Hc in *. exists m. split_and!; try done.
  rewrite Hd, map_map. done.
Qed.

Lemma relay_delay_witness :
  ∃ n, rl_history (relay_run [(1, inl (Cmd (GameBlock [7]))); (3, inl (Cmd (GameBlock [8])));
                              (12, inl Timer)] (new_relay (mkRelayConfig 10 8 [] 64)))
       = map snd (take n [(1, [7]); (3, [8])]).
Proof.
  destruct (relay_delay (mkRelayConfig 10 8 [] 64)
    [(1, inl (Cmd (GameBlock [7]))); (3, inl (Cmd (GameBlock [8])))] 12) as (n & H & _).
  - cbn. lia.
  - repeat constructor; discriminate.
  - by exists n.
Defined.

(** ** What a viewer is shown *)

(** The game packets among what was put on a link. *)
Definition is_action (wire : bytes) : bool :=
  match wire with _ :: id :: _ => id =? dotatv_ids.ACTION | _ => false end.
Definition shown (link : PlayerLink) : list bytes := List.filter is_action (ch_sent link).

Definition shows (acts : list bytes) (link : PlayerLink) : Prop :=
  sublist (shown link) acts ∧ (ch_refused link = 0%nat → shown link = acts).

Lemma filter_app_l {A} (f : A → bool) l k :
  List.filter f (l ++ k) = List.filter f l ++ List.filter f k.
Proof. induction l as [|x l IH]; [done|]. simpl. destruct (f x); simpl; by rewrite IH. Qed.

Lemma shows_send acts link m :
  shows acts link →
  shows (acts ++ (if is_action m then [m] else [])) (send_ignore link m).
Proof.
  intros [Hs Hr]. unfold send_ignore.
  destruct (try_send_cases link m) as [(-> & _)|[(-> & _)|(-> & _)]]; unfold shows, shown in *; cbn [fst ch_sent ch_refused note_refused].
  - rewrite filter_app_l. replace (List.filter is_action [m]) with (if is_action m then [m] else [])
      by (simpl; by destruct (is_action m)). split; [by apply sublist_app|]. intros H0. by rewrite Hr.
  - split; [by apply sublist_inserts_r|done].
  - split; [by apply sublist_inserts_r|done].
Qed.

Lemma shows_recv acts link : shows acts link → shows acts (recv link).
Proof.
  unfold recv. destruct (ch_queue link); [done|]. intros [Hs Hr]. by split.
Qed.

Lemma shows_close acts link : shows acts link → shows acts (link <| ch_closed := true |>).
Proof. done. Qed.

(** Every viewer of the relay is shown [acts]. *)
Definition all_shown (acts : list bytes) (vs : list (Z * PlayerLink)) : Prop :=
  Forall (λ v, shows acts v.2) vs.

Lemma send_viewers_shown acts bs vs drops :
  all_shown acts vs →
  all_shown (acts ++ (if is_action bs then [bs] else [])) (send_viewers bs vs drops).1.
Proof.
  intros Hvs. revert drops. induction Hvs as [|[id link] vs Hv Hvs IH]; intros drops; [constructor|].
  cbn [snd] in Hv. cbn [send_viewers]. pose proof (shows_send _ _ bs Hv) as Hs.
  unfold send_ignore in Hs.
  destruct (try_send link bs) as [link' answer]. cbn [fst snd] in Hs.
  destruct (match answer with Ok _ => _ | Err _ => _ end) as [keep drops'].
  specialize (IH drops'). destruct (send_viewers bs vs drops') as [vs' drops''].
  cbn [fst] in *. destruct keep; [by constructor|done].
Qed.

Lemma relay_broadcast_shown acts bs r :
  all_shown acts (rl_viewers r) →
  all_shown (acts ++ (if is_action bs then [bs] else [])) (rl_viewers (relay_broadcast bs r)).
Proof.
  intros H. unfold relay_broadcast.
  pose proof (send_viewers_shown acts bs _ (rl_drop_counts r) H) as Hs.
  by destruct (send_viewers _ _ _).
Qed.

Lemma encode_with_is_action h id payload w :
  encode_with h (mkFrame id payload) = Ok w → is_action w = (id =? dotatv_ids.ACTION).
Proof. intros [_ ->]%encode_with_ok. done. Qed.

Lemma relay_broadcast_other id payload w r acts :
  dtv_frame id payload = Ok w → id ≠ dotatv_ids.ACTION →
  all_shown acts (rl_viewers r) → all_shown acts (rl_viewers (relay_broadcast w r)).
Proof.
  intros Hw Hm Ha. pose proof (relay_broadcast_shown acts w r Ha) as H.
  rewrite (encode_with_is_action _ _ _ _ Hw), (proj2 (Z.eqb_neq _ _) Hm), app_nil_r in H. done.
Qed.

(** A message that is no game packet is sent to a link. *)
Lemma shows_send_ok acts id payload link :
  id ≠ dotatv_ids.ACTION → shows acts link → shows acts (send_ok (dtv_frame id payload) link).
Proof.
  intros Hid Hs. unfold send_ok. destruct (dtv_frame id payload) as [w|] eqn:Hw; [|done].
  pose proof (shows_send _ _ w Hs) as H.
  by rewrite (encode_with_is_action _ _ _ _ Hw), (proj2 (Z.eqb_neq _ _) Hid), app_nil_r in H.
Qed.

Lemma framed_ok block :
  zlen block <= 65531 → encode_action block = Ok (framed block) ∧ is_action (framed block) = true.
Proof.
  intros Hb. unfold framed. destruct (encode_with_fits DOTATV_HEADER dotatv_ids.ACTION block Hb)
    as [w Hw]. unfold encode_action, dtv_frame. rewrite Hw. split; [done|].
  by apply encode_with_is_action in Hw.
Qed.

Lemma welcome_shows r link :
  ch_sent link = [] → Forall (λ b, zlen b <= 65531) (rl_history r) →
  shows (map framed (rl_history r)) (welcome r link).
Proof.
  intros Hl Hh. unfold welcome.
  assert (shows [] link) as H0 by (unfold shows, shown; rewrite Hl; by split).
  apply shows_send_ok; [done|].
  assert (∀ acts l, shows acts l →
    shows (acts ++ map framed (rl_history r))
          (foldl (λ l action, send_ok (encode_action action) l) l (rl_history r))) as Hact.
  { clear -Hh. induction Hh as [|b h Hb Hh IH]; intros acts l Hl; cbn [map foldl].
    - by rewrite app_nil_r.
    - rewrite cons_middle, app_assoc. apply IH. destruct (framed_ok b Hb) as [He Ha].
      unfold send_ok. rewrite He. pose proof (shows_send _ _ (framed b) Hl) as H.
      by rewrite Ha in H. }
  apply (Hact []).
  assert (∀ ps l, shows [] l → shows [] (foldl (λ l p, send_ok (encode_player (pi_pid p) (pi_name p)
     (pi_colour p) (pi_team p) (pi_race p)) l) l ps)) as Hps.
  { clear. induction ps as [|p ps IH]; intros l Hl; [done|]. cbn [foldl]. apply IH.
    by apply shows_send_ok. }
  apply Hps. destruct (rl_snapshot r) as [s|]; [|by apply shows_send_ok].
  unfold encode_snapshot. destruct (_ <? _); [by apply shows_send_ok|].
  by apply shows_send_ok, shows_send_ok.
Qed.

(** Blocks small enough to be framed, and links nothing was sent on yet. *)
Definition event_ok (e : Z * (RelayEvent + RelayEnv)) : Prop :=
  match e.2 with
  | inl (Cmd (GameBlock b)) => zlen b <= 65531
  | inl (Cmd (ViewerJoined _ link)) => ch_sent link = []
  | inl (Cmd RelayGameOver) => False
  | _ => True
  end.

Record shown_inv (r : Relay) : Prop := {
  si_shown : all_shown (map framed (rl_history r)) (rl_viewers r);
  si_history : Forall (λ b, zlen b <= 65531) (rl_history r);
  si_delayed : Forall (λ b, zlen b.2 <= 65531) (rl_delayed_blocks r) }.

Lemma release_due_shown now blocks r :
  shown_inv r → rl_delayed_blocks r = blocks → shown_inv (release_due now blocks r).
Proof.
  revert r. induction blocks as [|[t b] blocks IH]; intros r Hi Hd; cbn [release_due]; [done|].
  destruct (t <=? now); [|done]. destruct Hi as [Hs Hh Hdl].
  rewrite Hd in Hdl. apply Forall_cons in Hdl as [Hb Hdl]. cbn [snd] in Hb.
  apply IH; unfold release_block; cbv zeta; set (r0 := _ <| rl_history ::= _ |>);
    pose proof (relay_broadcast_stream (framed b) r0) as [= E1 E2 E3 E4].
  - destruct (framed_ok b Hb) as [_ Ha].
    pose proof (relay_broadcast_shown (map framed (rl_history r)) (framed b) r0 Hs) as H.
    rewrite Ha in H. split; cbn; unfold const; rewrite ?E2, ?E4; subst r0; cbn.
    + by rewrite map_app.
    + apply Forall_app. by repeat constructor.
    + done.
  - cbn. by rewrite E2.
Qed.

Lemma shown_inv_same r r' :
  shown_inv r → stream_of r' = stream_of r →
  all_shown (map framed (rl_history r)) (rl_viewers r') → shown_inv r'.
Proof. intros [Hs Hh Hd] [= E1 E2 E3 E4] H. split; by rewrite ?E2, ?E4. Qed.

Lemma remove_viewer_inv id r : shown_inv r → shown_inv (remove_viewer id r).
Proof.
  intros Hi. eapply shown_inv_same; [exact Hi|done|]. destruct Hi as [Hs _ _].
  cbn. unfold all_shown in *. rewrite Forall_forall in *. intros v Hv.
  apply Hs. apply list_elem_of_In in Hv. apply filter_In in Hv as [Hv _].
  by apply list_elem_of_In.
Qed.

Lemma chat_inv sender text pkt r :
  encode_chat sender text = Ok pkt → shown_inv r → shown_inv (relay_broadcast pkt r).
Proof.
  intros Hp Hi. eapply shown_inv_same; [exact Hi|apply relay_broadcast_stream|].
  by eapply relay_broadcast_other; [exact Hp| |apply Hi].
Qed.

Lemma relay_event_shown now e r :
  event_ok (now, inl e) → shown_inv r → shown_inv (relay_event now e r).
Proof.
  intros He Hi. destruct e as [c|]; [|by apply release_due_shown].
  destruct c; cbn [relay_event relay_cmd].
  - apply release_due_shown; [|done]. destruct Hi as [Hs Hh Hd]. split; [done|done|].
    cbn. apply Forall_app. by repeat constructor.
  - by eapply shown_inv_same; [exact Hi|done|apply Hi].
  - by eapply shown_inv_same; [exact Hi|done|apply Hi].
  - unfold add_viewer. repeat case_match; try done; simplify_eq.
    eapply shown_inv_same; [exact Hi|done|]. cbn. apply Forall_app. split; [apply Hi|].
    constructor; [|constructor]. apply welcome_shows; [done|apply Hi].
  - by apply remove_viewer_inv.
  - unfold handle_conn_event. destruct (ev_kind ev) as [[f|f|f|f]|]; try done.
    1, 2: destruct (fr_id f =? dotatv_ids.CLIENT_CHAT); [|done];
      destruct (decode_client_chat (fr_payload f)) as [text|]; [|done];
      destruct (encode_chat _ text) eqn:Hp; [by eapply chat_inv|done].
    by apply remove_viewer_inv.
  - destruct (encode_chat sender text) eqn:Hp; [by eapply chat_inv|done].
  - done.
  - by apply release_due_shown.
Qed.

Lemma relay_env_shown e r : shown_inv r → shown_inv (relay_env e r).
Proof.
  intros Hi. eapply shown_inv_same; [exact Hi|by destruct e|].
  destruct Hi as [Hs _ _]. destruct e; cbn; apply Forall_map; eapply Forall_impl; try exact Hs;
    intros v Hv; cbn; [by apply shows_recv|]. case_match; [by apply shows_close|done].
Qed.

(** C15: until the game is over, and while its blocks are of a size that can be framed, no viewer,
    whenever it joined and however slow it is, is ever shown a game packet twice, out of order or
    before its release; and a viewer whose link never refused a packet, however many it was sent
    and took, has been shown exactly every packet released so far: the history when it joined,
    then each live one. *)
Theorem relay_viewer_exactly_once cfg evs :
  Forall event_ok evs →
  let r := relay_run evs (new_relay cfg) in
  ∀ id link, (id, link) ∈ rl_viewers r →
    sublist (shown link) (map framed (rl_history r)) ∧
    (ch_refused link = 0%nat → shown link = map framed (rl_history r)).
Proof.
  intros He. cbv zeta. assert (shown_inv (new_relay cfg)) as H0 by (repeat constructor).
  assert (shown_inv (relay_run evs (new_relay cfg))) as [Hs _ _].
  { revert H0. generalize (new_relay cfg).
    induction He as [|[t [e|e]] evs He _ IH]; intros r Hr; [done|..]; cbn [relay_run]; apply IH.
    - by apply relay_event_shown.
    - by apply relay_env_shown. }
  intros id link Hv. unfold all_shown in Hs. rewrite Forall_forall in Hs. exact (Hs _ Hv).
Qed.

(** The queue of the viewer holds four packets, and it is sent six. *)
Definition sample_relay_events : list (Z * (RelayEvent + RelayEnv)) :=
  [(0, inl (Cmd (GameBlock [247; 12; 6; 0; 100; 0]))); (5, inl Timer);
   (6, inl (Cmd (ViewerJoined 1 (new_chan 4)))); (7, inr WritersRun); (7, inr WritersRun);
   (8, inl (Cmd (GameBlock [247; 12; 6; 0; 101; 0]))); (20, inl Timer); (21, inr WritersRun);
   (22, inl (Cmd (GameBlock [247; 12; 6; 0; 102; 0]))); (29, inl Timer); (30, inr WritersRun);
   (32, inl (Cmd (GameBlock [247; 12; 6; 0; 103; 0]))); (39, inl Timer)].

Lemma relay_viewer_exactly_once_witness :
  map (λ v, (shown v.2, ch_cap v.2, (ch_cap v.2 <? length (ch_sent v.2))%nat))
    (rl_viewers (relay_run sample_relay_events (new_relay (mkRelayConfig 5 8 [] 64))))
  = [(map framed [[247; 12; 6; 0; 100; 0]; [247; 12; 6; 0; 101; 0]; [247; 12; 6; 0; 102; 0]; [247; 12; 6; 0; 103; 0]], 4%nat, true)].
Proof.
  assert (Forall event_ok sample_relay_events) as He
    by (repeat constructor; vm_compute; congruence).
  pose proof (relay_viewer_exactly_once (mkRelayConfig 5 8 [] 64) _ He) as Hall.
  cbv zeta in Hall.
  destruct (rl_viewers (relay_run sample_relay_events (new_relay (mkRelayConfig 5 8 [] 64))))
    as [|[id link] [|v l]] eqn:E; [vm_compute in E; discriminate E| |vm_compute in E; discriminate E].
  destruct (Hall id link (proj2 (list_elem_of_singleton _ _) eq_refl)) as [_ H]. cbn [map snd].
  rewrite H; vm_compute in E; injection E as _ <-; reflexivity.
Defined.

(** A viewer that joins when the relay has released more than its link can queue is
    sent a history with a hole: with a queue of [c] packets and nobody draining it during
    the welcome, at most the first [c] packets of the welcome are delivered. *)
Theorem welcome_truncated r link :
  ch_sent link = [] → ch_taken link = 0%nat →
  (length (ch_sent (welcome r link)) <= ch_cap link)%nat.
Proof.
  intros Hs Ht.
  set (P := λ l : PlayerLink, ch_cap l = ch_cap link ∧ ch_taken l = 0%nat ∧
                              (length (ch_sent l) <= ch_cap link)%nat).
  assert (∀ l m, P l → P (send_ok m l)) as Hsend.
  { intros l [b|e] (Hc & Htk & Hl); [|done]. cbn [send_ok]. unfold send_ignore, try_send.
    destruct (ch_closed l); [done|]. unfold ch_queue. rewrite Htk, drop_0.
    destruct (Nat.leb_spec (ch_cap l) (length (ch_sent l))); [done|].
    unfold P. cbn. rewrite length_app. cbn. split_and!; [done|done|lia]. }
  assert (∀ {A} (f : A → result ProtoError bytes) (xs : list A) l,
            P l → P (foldl (λ l x, send_ok (f x) l) l xs)) as Hfold.
  { intros A f xs. induction xs as [|x xs IH]; intros l Hl; [done|]. cbn [foldl]. auto. }
  assert (P link) as H0 by (unfold P; rewrite Hs; cbn; split_and!; [done|done|lia]).
  enough (P (welcome r link)) as (_ & _ & H) by done.
  unfold welcome. apply Hsend, Hfold, (Hfold _ (λ p, encode_player (pi_pid p) (pi_name p)
    (pi_colour p) (pi_team p) (pi_race p))). destruct (rl_snapshot r); auto.
Qed.

Lemma welcome_truncated_witness :
  let r := (new_relay (mkRelayConfig 0 8 [] 64)) <| rl_history := [[1]; [2]; [3]] |> in
  map (λ w, is_action w) (ch_sent (welcome r (new_chan 2))) = [false; true] ∧
  (length (ch_sent (welcome r (new_chan 2))) <= 2)%nat.
Proof. cbv zeta. split; [reflexivity|]. apply welcome_truncated; reflexivity. Defined.
