(* ===== verification/Game.v ===== *)
(** The state of a hosted game and how it talks to its players (spectre-engine,
    src/state.rs, and [send_chat_to] of src/chat.rs).

    Every operation of [GameState] is a function from the state to the state it leaves;
    [Instant::now()] is the argument [now] (nanoseconds), the same one throughout a
    handler.  An operation that can panic returns [None] when it does: the only panics
    of these operations are slices of a message inside a character.  Logging and the
    DotaTV publisher are left out. *)
From S2P Require Import Prelude Utf8 Text Store BytesExt Frame W3gs Gps DotaTv Conn Slots Hcl History.
From S2P Require Import Players ReplayBody StatsDota W3mmd Relay Tick.

Definition MS : Z := 10 ^ 6.
Definition SEC : Z := 10 ^ 9.

(** [Instant::elapsed], [Duration::as_millis], [Duration::as_secs]. *)
Definition elapsed (now since : Z) : Z := sat_sub now since.
Definition as_millis (d : Z) : Z := d / MS.
Definition as_secs (d : Z) : Z := d / SEC.

(** ** Configuration *)

Record MapInfo := mkMapInfo {
  m_path : bytes; m_size : Z; m_info : Z; m_crc : Z; m_sha1 : bytes; m_num_players : Z;
  m_num_teams : Z; m_width : Z; m_height : Z; m_game_type : Z; m_flags : Z; m_data : option bytes;
  m_layout_style : Z; m_options : Z; m_map_type : bytes; m_matchmaking_category : bytes;
  m_default_hcl : bytes; m_default_player_score : Z; m_loading_in_game : bool; m_local_path : bytes;
  m_max_slots : Z }.

Definition MAPOPT_FIXEDPLAYERSETTINGS : Z := 32.
Definition MAPOPT_CUSTOMFORCES : Z := 64.
Definition MAPOBS_NONE : Z := 1.
Definition MAPOBS_ONDEFEAT : Z := 2.
Definition MAPOBS_ALLOWED : Z := 3.
Definition MAPOBS_REFEREES : Z := 4.

Definition has_fixed_player_settings (m : MapInfo) : bool :=
  negb (Z.land (m_options m) MAPOPT_FIXEDPLAYERSETTINGS =? 0).
Definition has_custom_forces (m : MapInfo) : bool :=
  negb (Z.land (m_options m) MAPOPT_CUSTOMFORCES =? 0).
Definition observers (m : MapInfo) : Z :=
  if negb (Z.land (m_flags m) 1073741824 =? 0) then MAPOBS_REFEREES
  else if Z.land (m_flags m) 12288 =? 12288 then MAPOBS_ALLOWED
  else if negb (Z.land (m_flags m) 8192 =? 0) then MAPOBS_ONDEFEAT
  else MAPOBS_NONE.
Definition has_random_races (m : MapInfo) : bool := negb (Z.land (m_flags m) 67108864 =? 0).

(** The three refusals, with what their texts mention. *)
Inductive MapError := InvalidPath (p : bytes) | InvalidDimensions | SizeMismatch (size len : Z).

Definition check_valid (m : MapInfo) : result MapError () :=
  if (zlen (m_path m) =? 0) || (53 <? zlen (m_path m)) then Err (InvalidPath (m_path m))
  else if (m_width m =? 0) || (m_height m =? 0) then Err InvalidDimensions
  else match m_data m with
       | Some d => if m_size m =? wrap 32 (zlen d) then Ok ()
                   else Err (SizeMismatch (m_size m) (zlen d))
       | None => Ok ()
       end.

Record GameConfig := mkConfig {
  c_name : bytes; c_num_slots : nat; c_latency : Z; c_sync_limit : Z; c_map : MapInfo;
  c_virtual_host_name : bytes; c_reconnect_wait : Z; c_custom_slots : option SlotTable;
  c_max_downloaders : Z; c_max_download_speed : Z; c_allow_downloads : Z;
  c_autokick_ping : Z; c_lc_pings : bool; c_spoof_checks : Z; c_host_port : Z;
  c_gproxy_reconnect_port : Z; c_lobby_time_limit : Z;
  c_owner : bytes; c_host_counter : Z; c_require_spoof_checks : bool; c_store : option Store;
  c_hcl_from_game_name : bool; c_votekick_allowed : bool; c_votekick_percentage : Z;
  c_event_tx : bool }.

Definition COUNTDOWN_STEP : Z := 500 * MS.
Definition COUNTDOWN_STEPS : Z := 10.
Definition COUNTDOWN_TOTAL : Z := 500 * COUNTDOWN_STEPS * MS.

Inductive GamePhase :=
| Lobby
| Countdown (started_at total_duration last_announced_step : Z)
| Loading
| Playing
| Over.

#[export] Instance GamePhase_eq_dec : EqDecision GamePhase.
Proof. solve_decision. Defined.

(** A map transfer (src/mapxfer.rs). *)
Record Download := mkDownload { dl_pid : Z; dl_sent_upto : Z; dl_acked_upto : Z; dl_started : Z }.

(** [GameEvent::LobbyStatus], what the supervisor is told (src/handle.rs). *)
Record LobbyStatus := mkStatus {
  ls_host_counter : Z; ls_slots_open : Z; ls_slots_total : Z; ls_human_players : Z }.

(** ** State

    [g_events] is what was offered on [cfg.event_tx] so far, if the game has one. *)

Record GameState := mkGame {
  g_cfg : GameConfig;
  g_phase : GamePhase;
  g_slots : SlotTable;
  g_players : PlayerTable;
  g_tick : TickScheduler;
  g_pending : list (Z * PlayerLink * bytes);
  g_actions : list ActionBlock;
  g_sync_counter : Z;
  g_game_ticks : Z;
  g_random_seed : Z;
  g_created_at : Z;
  g_lagging : bool;
  g_finished : bool;
  g_downloads : list Download;
  g_download_counter : Z;
  g_last_download_counter_reset : Z;
  g_relay : option RelayHandle;
  g_replay : option ReplayBody;
  g_jitter_histogram : list Z;
  g_last_jitter_report : Z;
  g_dota : option StatsDotA;
  g_w3mmd : option W3Mmd;
  g_game_over_time : option Z;
  g_hcl : option bytes;
  g_last_player_left : option (bytes * bytes);
  g_last_player_left_time : option Z;
  g_holds : gmap Z bytes;
  g_autostart_players : option Z;
  g_announce_message : option bytes;
  g_announce_interval : Z;
  g_last_announce_time : option Z;
  g_virtual_host_pid : Z;
  g_started_loading_at : option Z;
  g_last_ping_at : Z;
  g_last_lag_screen_reset : Z;
  g_last_reserved_seen : Z;
  g_start_players : Z;
  g_fake_player_pid : option Z;
  g_full_history : FullHistory;
  g_pending_full : gmap Z (Z * Z);
  g_store : option Store;
  g_muted_all : bool;
  g_locked : bool;
  g_draw_votes : list Z;
  g_start_votes : list Z;
  g_votekick_target : option Z;
  g_votekick_votes : list Z;
  g_mute_lobby : bool;
  g_local_admin_messages : bool;
  g_last_game_name : bytes;
  g_refresh_rehosted : bool;
  g_events : list LobbyStatus }.

Definition map_stat_raw (cfg : GameConfig) : bytes :=
  let m := c_map cfg in
  le_bytes 4 (m_flags m) ++ [0] ++ le_bytes 2 (m_width m) ++ le_bytes 2 (m_height m)
  ++ le_bytes 4 (m_crc m) ++ m_path m ++ [0] ++ c_virtual_host_name cfg ++ [0].

Definition build_replay_stat_string (cfg : GameConfig) : bytes :=
  encode_statstring (map_stat_raw cfg).

(** What the game asks the world outside the program: the tables of Unicode, the time of
    day (in seconds, when the monotonic clock shows an instant), the order in which the hash
    map of the statistics lists its players. *)
Class World := {
  world_unicode :: Unicode;
  unix_secs : Z → Z;
  dota_order : gmap Z DotAPlayerStats → list (Z * DotAPlayerStats) }.

Definition plain_world : World :=
  {| world_unicode := plain_unicode; unix_secs := as_secs; dota_order := map_to_list |}.

(** The statistics collector and the game mode that [new] starts with. *)
Definition initial_dota `{Unicode} (cfg : GameConfig) : option StatsDotA :=
  let map_type := m_map_type (c_map cfg) in
  if bytes_eqb map_type (str "dota")
     || ((zlen map_type =? 0) && contains (str "dota") (to_lowercase (c_name cfg)))
  then Some (new_dota (c_name cfg)) else None.

Definition initial_mmd (cfg : GameConfig) : option W3Mmd :=
  let map_type := m_map_type (c_map cfg) in
  if bytes_eqb map_type (str "w3mmd") || (negb (zlen map_type =? 0) && negb (bytes_eqb map_type (str "dota"))) || (zlen map_type =? 0)
  then Some new_mmd else None.

Definition initial_hcl `{Unicode} (cfg : GameConfig) : option bytes :=
  match (if c_hcl_from_game_name cfg then parse_from_gamename (c_name cfg) else None) with
  | Some mode => Some mode
  | None => if zlen (m_default_hcl (c_map cfg)) =? 0 then None else Some (m_default_hcl (c_map cfg))
  end.

(** [GameState::new]: [seed] is the random number it draws. *)
Definition new_game `{Unicode} (now seed : Z) (relay : option RelayHandle) (cfg : GameConfig)
  : GameState :=
  {| g_cfg := cfg; g_phase := Lobby;
     g_slots := match c_custom_slots cfg with Some cs => cs | None => new_table (c_num_slots cfg) end;
     g_players := []; g_tick := new_tick (c_latency cfg) now; g_pending := []; g_actions := [];
     g_sync_counter := 0; g_game_ticks := 0; g_random_seed := seed; g_created_at := now;
     g_lagging := false; g_finished := false; g_downloads := []; g_download_counter := 0;
     g_last_download_counter_reset := now; g_relay := relay;
     g_replay := Some (set_game (c_name cfg) (build_replay_stat_string cfg)
                                (m_game_type (c_map cfg))
                                (new_replay 255 (c_virtual_host_name cfg)));
     g_jitter_histogram := [0; 0; 0; 0; 0]; g_last_jitter_report := now; g_dota := initial_dota cfg;
     g_w3mmd := initial_mmd cfg;
     g_game_over_time := None; g_hcl := initial_hcl cfg; g_last_player_left := None;
     g_last_player_left_time := None; g_holds := ∅; g_autostart_players := None;
     g_announce_message := None; g_announce_interval := 0; g_last_announce_time := None;
     g_virtual_host_pid := 255; g_started_loading_at := None; g_last_ping_at := now;
     g_last_lag_screen_reset := now; g_last_reserved_seen := now; g_start_players := 0;
     g_fake_player_pid := None; g_full_history := new_history; g_pending_full := ∅;
     g_store := c_store cfg; g_muted_all := false; g_locked := false; g_draw_votes := [];
     g_start_votes := []; g_votekick_target := None; g_votekick_votes := [];
     g_mute_lobby := false; g_local_admin_messages := true; g_last_game_name := c_name cfg;
     g_refresh_rehosted := false; g_events := [] |}.

Definition add_conn (conn_id : Z) (link : PlayerLink) (external_ip : bytes) (g : GameState)
  : GameState := g <| g_pending ::= λ ps, ps ++ [(conn_id, link, external_ip)] |>.

Definition host_pid (g : GameState) : Z :=
  if negb (g_virtual_host_pid g =? 255) then g_virtual_host_pid g
  else match List.find (λ p, negb (has_left p)) (g_players g) with
       | Some p => p_pid p
       | None => 255
       end.

Definition lobby_status (g : GameState) : LobbyStatus :=
  mkStatus (c_host_counter (g_cfg g)) (open_slots (g_slots g)) (wrap 32 (zlen (g_slots g)))
           (wrap 32 (human_count (g_players g))).

Definition report_status (g : GameState) : GameState :=
  if c_event_tx (g_cfg g) then g <| g_events ::= λ es, es ++ [lobby_status g] |> else g.

(** ** Sending *)

Definition MAX_CONSECUTIVE_DROPS : Z := 100.

Definition is_playing (g : GameState) : bool :=
  match g_phase g with Playing => true | _ => false end.
Definition is_loading (g : GameState) : bool :=
  match g_phase g with Loading => true | _ => false end.
Definition is_lobby (g : GameState) : bool :=
  match g_phase g with Lobby => true | _ => false end.
Definition is_countdown (g : GameState) : bool :=
  match g_phase g with Countdown _ _ _ => true | _ => false end.
Definition in_lobby (g : GameState) : bool := is_lobby g || is_countdown g.

(** The [match p.link.try_send(bytes)] that [broadcast] and [send_to] share. *)
Definition offer (now : Z) (bs : bytes) (p : Player) : Player :=
  let '(link, answer) := try_send (p_link p) bs in
  let p := p <| p_link := link |> in
  match answer with
  | Ok _ => p <| p_consecutive_send_failures := 0 |>
  | Err Backpressure =>
    let p := p <| p_consecutive_send_failures ::= λ n, sat_add 32 n 1 |> in
    if MAX_CONSECUTIVE_DROPS <=? p_consecutive_send_failures p
    then p <| p_left := Some (str "lagged out (write queue full)") |> else p
  | Err Conn.Closed =>
    if p_gproxy p then
      match p_disconnected_since p with
      | None => p <| p_disconnected_since := Some now |>
      | Some _ => p
      end
    else p <| p_left := Some (str "connection closed") |>
  end.

Definition buffer_packet (bs : bytes) (p : Player) : Player :=
  p <| p_gproxy_buffer ::= fmap (gbuf_push bs) |>.

Definition is_some {A} (o : option A) : bool := match o with Some _ => true | None => false end.

(** The body of [broadcast]'s loop. *)
Definition deliver (now : Z) (bs : bytes) (p : Player) : Player :=
  if has_left p || p_virtual_host p then p else
  let p := buffer_packet bs p in
  if negb (bool_decide (p_rejoin p = RejoinNone)) then p
  else if is_some (p_catchup_cursor p) then p
  else if is_some (p_disconnected_since p) then p
  else offer now bs p.

Definition broadcast (now : Z) (bs : bytes) (g : GameState) : GameState :=
  let g := if is_playing g then g <| g_full_history ::= hist_push bs |> else g in
  g <| g_players ::= map (deliver now bs) |>.

(** [for pkt in pending { match p.link.try_send(pkt) { .. } }], with the cursor [cur]. *)
Fixpoint pump_packets (now : Z) (pending : list bytes) (cur : Z) (p : Player) : Player * Z :=
  match pending with
  | [] => (p, cur)
  | pkt :: pending =>
    let '(link, answer) := try_send (p_link p) pkt in
    match answer with
    | Ok _ => pump_packets now pending (wrap 64 (cur + 1))
                (p <| p_link := link |> <| p_consecutive_send_failures := 0 |>)
    | Err Backpressure => (p, cur)
    | Err Conn.Closed =>
      let p := if p_gproxy p && negb (is_some (p_disconnected_since p))
               then p <| p_disconnected_since := Some now |>
               else p <| p_left := Some (str "connection closed during catch-up") |> in
      (p <| p_catchup_cursor := None |>, cur)
    end
  end.

(** The body of [pump_rejoin_catchup]'s loop. *)
Definition pump_player (now : Z) (h : FullHistory) (p : Player) : Player :=
  match p_catchup_cursor p with
  | None => p
  | Some cursor =>
    if has_left p then p <| p_catchup_cursor := None |> else
    if cursor <? first_seq h then
      p <| p_left := Some (str "catch-up fell behind history eviction") |>
        <| p_catchup_cursor := None |>
    else
    let '(p, cur) := pump_packets now (snapshot_from_seq cursor h) cursor p in
    if is_some (p_catchup_cursor p) then
      if next_seq h <=? cur then p <| p_catchup_cursor := None |> <| p_catching_up := true |>
      else p <| p_catchup_cursor := Some cur |>
    else p
  end.

Definition pump_rejoin_catchup (now : Z) (g : GameState) : GameState :=
  g <| g_players ::= map (pump_player now (g_full_history g)) |>.

Definition send_to_player (now : Z) (bs : bytes) (p : Player) : Player :=
  if has_left p then p else
  let p := buffer_packet bs p in
  if is_some (p_disconnected_since p) then p else offer now bs p.

Definition send_to (now pid : Z) (bs : bytes) (g : GameState) : GameState :=
  g <| g_players ::= by_pid_mut pid (send_to_player now bs) |>.

Definition kick_player (pid : Z) (reason : bytes) (left_code : Z) (g : GameState) : GameState :=
  g <| g_players ::= by_pid_mut pid
    (λ p, p <| p_left := Some reason |> <| p_left_code := left_code |>) |>.

(** A message cut to its first [n] bytes when it is longer: [&message[..n]]. *)
Definition cut_message (n : nat) (message : bytes) : option bytes :=
  if Z.of_nat n <? zlen message then str_prefix message n else Some message.

Definition broadcast_ok (now : Z) (m : result ProtoError bytes) (g : GameState) : GameState :=
  match m with Ok b => broadcast now b g | Err _ => g end.
Definition send_to_ok (now pid : Z) (m : result ProtoError bytes) (g : GameState) : GameState :=
  match m with Ok b => send_to now pid b g | Err _ => g end.

Definition with_relay (f : RelayHandle → RelayHandle) (g : GameState) : GameState :=
  g <| g_relay ::= fmap f |>.
Definition with_replay (f : ReplayBody → ReplayBody) (g : GameState) : GameState :=
  g <| g_replay ::= fmap f |>.

Definition with_store (f : Store → Store) (g : GameState) : GameState :=
  g <| g_store ::= fmap f |>.

Definition send_chat_all (now : Z) (message : bytes) (g : GameState) : option GameState :=
  let from := host_pid g in
  if from =? 255 then Some g else
  let pids := player_pids (List.filter is_live (g_players g)) in
  match pids with
  | [] => Some g
  | _ =>
    let g := with_relay (rh_send_chat (c_virtual_host_name (g_cfg g)) message) g in
    if in_lobby g then
      msg ← cut_message 254 message;
      Some (broadcast_ok now (chat_from_host from pids 16 [] msg) g)
    else
      msg ← cut_message 127 message;
      let g := with_replay (add_chat from 32 0 msg) g in
      Some (broadcast_ok now (chat_from_host from pids 32 [0; 0; 0; 0] msg) g)
  end.

Definition send_chat_to (now pid : Z) (message : bytes) (g : GameState) : option GameState :=
  let from := host_pid g in
  if from =? 255 then Some g else
  if in_lobby g then
    msg ← cut_message 254 message;
    Some (send_to_ok now pid (chat_from_host from [pid] 16 [] msg) g)
  else
    msg ← cut_message 127 message;
    let col := match sid_of_pid pid (g_slots g) with
               | Some sid => match g_slots g !! Z.to_nat sid with
                             | Some s => colour s | None => 0 end
               | None => 0
               end in
    Some (send_to_ok now pid (chat_from_host from [pid] 32 [wrap 8 (3 + col); 0; 0; 0] msg) g).

Definition send_all_slot_info (now : Z) (g : GameState) : GameState :=
  broadcast_ok now (slot_info (g_slots g) (g_random_seed g) (m_layout_style (c_map (g_cfg g)))
                              (m_num_players (c_map (g_cfg g)))) g.

(** The histogram bucket of a tick's jitter. *)
Definition jitter_bucket (jitter : Z) : nat :=
  let ms := as_millis jitter in
  if ms <? 1 then 0%nat else if ms <? 2 then 1%nat else if ms <? 5 then 2%nat
  else if ms <? 20 then 3%nat else 4%nat.

Definition record_jitter (now jitter : Z) (g : GameState) : GameState :=
  let g := g <| g_jitter_histogram ::= alter (λ n, wrap 64 (n + 1)) (jitter_bucket jitter) |> in
  if 60 * SEC <=? elapsed now (g_last_jitter_report g)
  then g <| g_last_jitter_report := now |> else g.

(** The link of a player nobody is behind: its receiver is gone at once. *)
Definition dead_link : PlayerLink := mkChan 1 true [] 0 0.

Definition create_virtual_host (now : Z) (g : GameState) : GameState :=
  if negb (g_virtual_host_pid g =? 255) then g else
  match next_free_pid (g_players g) with
  | None => g
  | Some pid =>
    let name := c_virtual_host_name (g_cfg g) in
    let p := (new_player pid name (2 ^ 64 - 1) dead_link)
               <| p_virtual_host := true |> <| p_loaded := true |> in
    let g := g <| g_virtual_host_pid := pid |> in
    let g := broadcast_ok now (player_info pid name [0; 0; 0; 0] [0; 0; 0; 0]) g in
    g <| g_players ::= insert_player p |>
  end.

Definition delete_virtual_host (now : Z) (g : GameState) : GameState :=
  if g_virtual_host_pid g =? 255 then g else
  let pid := g_virtual_host_pid g in
  let g := g <| g_virtual_host_pid := 255 |> in
  let g := g <| g_players ::= remove_pid pid |> in
  broadcast now (player_leave_others pid ids.PLAYERLEAVE_LOBBY) g.
