(* ===== verification/CatchUp.v ===== *)
(** How a packet reaches the players: the broadcast of a game, and the catch-up of a
    player who restarted their client and rejoined (FULL rejoin: [broadcast] and
    [pump_rejoin_catchup] of spectre-engine, src/state.rs). *)
From S2P Require Import Prelude Utf8 Text BytesExt Frame W3gs Conn Slots History Players Game.

(** ** Lookups in an updated table *)

Lemma by_pid_map pid f t :
  (∀ p, p_pid (f p) = p_pid p) → by_pid pid (map f t) = f <$> by_pid pid t.
Proof.
  intros Hf. unfold by_pid. induction t as [|p t IH]; [done|]. cbn [map List.find].
  unfold has_pid at 1 3. rewrite Hf. by destruct (p_pid p =? pid).
Qed.

Lemma by_pid_mut_same pid f t :
  (∀ p, p_pid (f p) = p_pid p) → by_pid pid (by_pid_mut pid f t) = f <$> by_pid pid t.
Proof.
  intros Hf. unfold by_pid, by_pid_mut. induction t as [|p t IH]; [done|].
  cbn [update_first List.find]. destruct (has_pid pid p) eqn:E; cbn [List.find].
  - unfold has_pid in *. by rewrite Hf, E.
  - by rewrite E.
Qed.

Lemma by_pid_mut_other pid pid' f t :
  (∀ p, p_pid (f p) = p_pid p) → pid ≠ pid' → by_pid pid (by_pid_mut pid' f t) = by_pid pid t.
Proof.
  intros Hf Hne. unfold by_pid, by_pid_mut. induction t as [|p t IH]; [done|].
  cbn [update_first List.find]. destruct (has_pid pid' p) eqn:E; cbn [List.find].
  - unfold has_pid in *. apply Z.eqb_eq in E. rewrite Hf. by rewrite (proj2 (Z.eqb_neq _ _)) by lia.
  - by destruct (has_pid pid p).
Qed.

Lemma by_pid_pid pid t p : by_pid pid t = Some p → p_pid p = pid.
Proof. by intros (? & ? & _ & ? & _)%by_pid_Some. Qed.

(** ** One player *)

Lemma offer_ok now bs p :
  ch_closed (p_link p) = false → (length (ch_queue (p_link p)) < ch_cap (p_link p))%nat →
  offer now bs p = p <| p_link := mkChan (ch_cap (p_link p)) false (ch_sent (p_link p) ++ [bs])
                                    (ch_taken (p_link p)) (ch_refused (p_link p)) |>
                     <| p_consecutive_send_failures := 0 |>.
Proof.
  intros Hc Hq. unfold offer, try_send. rewrite Hc.
  destruct (Nat.leb_spec (ch_cap (p_link p)) (length (ch_queue (p_link p)))); [lia|]. done.
Qed.

(** What an offered packet can change, whatever the link answers. *)
Lemma offer_frame now bs p :
  let p' := offer now bs p in
  p_pid p' = p_pid p ∧ p_rejoin p' = p_rejoin p ∧ p_catchup_cursor p' = p_catchup_cursor p ∧
  p_gproxy_buffer p' = p_gproxy_buffer p ∧ p_catching_up p' = p_catching_up p ∧
  p_sync_counter p' = p_sync_counter p ∧ p_checksums p' = p_checksums p ∧
  p_loaded p' = p_loaded p ∧ p_virtual_host p' = p_virtual_host p ∧
  p_conn_id p' = p_conn_id p ∧ p_name p' = p_name p ∧ p_left_code p' = p_left_code p ∧
  p_gproxy p' = p_gproxy p ∧ p_reconnect_key p' = p_reconnect_key p ∧
  (p_left p ≠ None → p_left p' ≠ None) ∧ p_lagging p' = p_lagging p.
Proof.
  unfold offer. destruct (try_send (p_link p) bs) as [link [[]|[|]]]; cbn.
  - by split_and!.
  - destruct (_ <=? _); cbn; split_and!; naive_solver.
  - destruct (p_gproxy p) eqn:E; [destruct (p_disconnected_since p)|]; cbn; split_and!; done.
Qed.

Lemma deliver_pid now bs p : p_pid (deliver now bs p) = p_pid p.
Proof.
  unfold deliver. repeat (case_match; try done).
  all: by rewrite (proj1 (offer_frame _ _ _)).
Qed.

Lemma send_to_player_pid now bs p : p_pid (send_to_player now bs p) = p_pid p.
Proof.
  unfold send_to_player. repeat (case_match; try done).
  all: by rewrite (proj1 (offer_frame _ _ _)).
Qed.

Lemma pump_packets_pid now pend cur p : p_pid (pump_packets now pend cur p).1 = p_pid p.
Proof.
  revert cur p. induction pend as [|pkt pend IH]; intros cur p; [done|]. cbn [pump_packets].
  destruct (try_send (p_link p) pkt) as [link [[]|[|]]]; [by rewrite IH|done|].
  by destruct (_ && _).
Qed.

Lemma pump_player_pid now h p : p_pid (pump_player now h p) = p_pid p.
Proof.
  unfold pump_player. destruct (p_catchup_cursor p) as [c|]; [|done].
  destruct (has_left p); [done|]. destruct (c <? first_seq h); [done|].
  pose proof (pump_packets_pid now (snapshot_from_seq c h) c p) as H.
  destruct (pump_packets _ _ _ _) as [p' cur]. cbn [fst] in H.
  destruct (is_some _); [|done]. by destruct (_ <=? _).
Qed.

(** ** The broadcast *)

(** Players a broadcast reaches at once. *)
Definition hears (p : Player) : bool :=
  is_live p && bool_decide (p_rejoin p = RejoinNone) && negb (is_some (p_catchup_cursor p))
  && negb (is_some (p_disconnected_since p)).

(** A broadcast keeps the table of players and who they are, is logged in the game's
    history exactly while the game is playing, enters the reconnect buffer of every
    GProxy player still in the game, and is offered to the links of exactly those who
    are connected and not catching up: an open link with room takes it as its newest
    packet, every other link is left as it was. *)
Theorem broadcast_spec now bs g pid :
  let g' := broadcast now bs g in
  player_pids (g_players g') = player_pids (g_players g) ∧
  g_full_history g' = (if is_playing g then hist_push bs (g_full_history g) else g_full_history g) ∧
  by_pid pid (g_players g') = deliver now bs <$> by_pid pid (g_players g) ∧
  ∀ p, by_pid pid (g_players g) = Some p →
    p_gproxy_buffer (deliver now bs p)
      = (if is_live p then gbuf_push bs <$> p_gproxy_buffer p else p_gproxy_buffer p) ∧
    ch_sent (p_link (deliver now bs p))
      = (if hears p && negb (ch_closed (p_link p))
            && bool_decide (length (ch_queue (p_link p)) < ch_cap (p_link p))%nat
         then ch_sent (p_link p) ++ [bs] else ch_sent (p_link p)).
Proof.
  cbv zeta. unfold broadcast. split_and!.
  - destruct (is_playing g); cbn; unfold player_pids; rewrite map_map; apply map_ext;
      intros; apply deliver_pid.
  - by destruct (is_playing g).
  - destruct (is_playing g); cbn; apply by_pid_map; intros; apply deliver_pid.
  - intros p _. unfold deliver, hears, is_live.
    destruct (p_virtual_host p), (has_left p); cbn; try done.
    destruct (bool_decide (p_rejoin p = RejoinNone)); cbn; [|done].
    destruct (is_some (p_catchup_cursor p)); cbn; [done|].
    destruct (is_some (p_disconnected_since p)); cbn; [done|].
    destruct (offer_frame now bs (buffer_packet bs p)) as (_ & _ & _ & Hb & _). rewrite Hb.
    split; [done|]. unfold offer. cbn [p_link buffer_packet set].
    change (p_link (buffer_packet bs p)) with (p_link p). unfold try_send.
    destruct (ch_closed (p_link p)); cbn.
    { destruct (p_gproxy p); [destruct (p_disconnected_since p)|]; done. }
    case_bool_decide; destruct (Nat.leb_spec (ch_cap (p_link p)) (length (ch_queue (p_link p))));
      try lia; [done|]. cbn. by destruct (_ <=? _).
Qed.



(** ** What sending leaves alone

    A packet sent to a player changes their link, their buffer and whether they are
    gone; nothing about their turns, and nothing once they have left. *)
Record inert (p p' : Player) : Prop := {
  in_pid : p_pid p' = p_pid p;
  in_conn : p_conn_id p' = p_conn_id p;
  in_name : p_name p' = p_name p;
  in_checksums : p_checksums p' = p_checksums p;
  in_sync : p_sync_counter p' = p_sync_counter p;
  in_loaded : p_loaded p' = p_loaded p;
  in_host : p_virtual_host p' = p_virtual_host p;
  in_catching_up : p_catching_up p' = p_catching_up p;
  in_rejoin : p_rejoin p' = p_rejoin p;
  in_cursor : p_catchup_cursor p' = p_catchup_cursor p;
  in_lagging : p_lagging p' = p_lagging p;
  in_gproxy : p_gproxy p' = p_gproxy p;
  in_left_code : p_left_code p' = p_left_code p;
  in_left : p_left p ≠ None → p_left p' = p_left p }.

#[export] Instance inert_preorder : PreOrder inert.
Proof.
  split; [by intros p; split|]. intros p q r [] []. split; try congruence.
  intros Hl. rewrite in_left1; [by apply in_left0|]. rewrite in_left0; done.
Qed.

Lemma offer_inert now bs p : p_left p = None → inert p (offer now bs p).
Proof.
  intros Hl. destruct (offer_frame now bs p) as (?&?&?&?&?&?&?&?&?&?&?&?&?&?&?&?).
  by split.
Qed.

Lemma buffer_packet_inert bs p : inert p (buffer_packet bs p).
Proof. by split. Qed.

Lemma deliver_inert now bs p : inert p (deliver now bs p).
Proof.
  unfold deliver. destruct (has_left p) eqn:Hl; [done|]. cbn [orb].
  destruct (p_virtual_host p); [done|].
  assert (p_left p = None) as Hn by (unfold has_left in Hl; by destruct (p_left p)).
  repeat (case_match; try apply buffer_packet_inert).
  etrans; [apply buffer_packet_inert|by apply offer_inert].
Qed.

Lemma send_to_player_inert now bs p : inert p (send_to_player now bs p).
Proof.
  unfold send_to_player. destruct (has_left p) eqn:Hl; [done|].
  assert (p_left p = None) as Hn by (unfold has_left in Hl; by destruct (p_left p)).
  case_match; [apply buffer_packet_inert|].
  etrans; [apply buffer_packet_inert|by apply offer_inert].
Qed.

Lemma broadcast_players now bs g :
  g_players (broadcast now bs g) = map (deliver now bs) (g_players g).
Proof. unfold broadcast. by destruct (is_playing g). Qed.

Lemma inert_map_pids f t : (∀ p, inert p (f p)) → player_pids (map f t) = player_pids t.
Proof. intros Hf. apply map_pids. intros p. apply Hf. Qed.

(** [send_chat_all] changes players by sending, logs, and nothing else. *)
Lemma cut_message_short n message :
  zlen message <= Z.of_nat n → cut_message n message = Some message.
Proof. intros H. unfold cut_message. by rewrite (proj2 (Z.ltb_ge _ _)). Qed.

Lemma broadcast_ok_players now m g :
  ∃ f, g_players (broadcast_ok now m g) = map f (g_players g) ∧ ∀ p, inert p (f p).
Proof.
  destruct m as [b|e]; cbn [broadcast_ok].
  - exists (deliver now b). split; [apply broadcast_players|apply deliver_inert].
  - exists id. split; [by rewrite map_id|done].
Qed.

Lemma send_chat_all_short now message g :
  zlen message <= 127 → ∃ g', send_chat_all now message g = Some g'.
Proof.
  intros Hm. unfold send_chat_all. destruct (host_pid g =? 255); [eauto|].
  destruct (player_pids _); [eauto|]. destruct (in_lobby _); rewrite cut_message_short by lia; eauto.
Qed.

Lemma send_chat_all_players now message g g' :
  send_chat_all now message g = Some g' →
  (∃ f, g_players g' = map f (g_players g) ∧ ∀ p, inert p (f p)) ∧
  g_slots g' = g_slots g ∧ g_phase g' = g_phase g ∧ g_cfg g' = g_cfg g ∧
  g_sync_counter g' = g_sync_counter g.
Proof.
  assert (∀ m g0, g_slots (broadcast_ok now m g0) = g_slots g0 ∧
    g_phase (broadcast_ok now m g0) = g_phase g0 ∧ g_cfg (broadcast_ok now m g0) = g_cfg g0 ∧
    g_sync_counter (broadcast_ok now m g0) = g_sync_counter g0) as Hb.
  { intros [b|e] g0; [|done]. cbn. unfold broadcast. by destruct (is_playing g0). }
  assert (∃ f, g_players g = map f (g_players g) ∧ ∀ p, inert p (f p)) as Hid
    by (exists id; by rewrite map_id).
  unfold send_chat_all. destruct (host_pid g =? 255); [by intros [= <-]|].
  destruct (player_pids _) as [|pid pids]; [by intros [= <-]|].
  destruct (in_lobby _); destruct (cut_message _ _) as [msg|]; try done; intros [= <-];
    (split; [edestruct broadcast_ok_players as (f & Hf & Hi); exists f; split; [exact Hf|exact Hi]
            |match goal with |- context [broadcast_ok now ?m ?g0] =>
               destruct (Hb m g0) as (E1 & E2 & E3 & E4) end;
             split_and!; [exact E1|exact E2|exact E3|exact E4]]).
Qed.

Definition sample_map : MapInfo :=
  mkMapInfo (str "Maps\Download\test.w3x") 10 1 305419896 (replicate 20 0) 12 2 128 128 1 0
            (Some (replicate 10 5)) 0 0 (str "w3mmd") [] [] 1000 false [] 24.
Definition sample_config : GameConfig :=
  mkConfig (str "test") 12 (100 * MS) 50 sample_map (str "Spectre") (180 * SEC) None 3 100 1 400
           true 0 6112 6114 10 (str "slash") 1 false None true true 60 false.
Definition sample_player (pid : Z) : Player :=
  (new_player pid (str "player") pid (new_chan 8)) <| p_loaded := true |>.
(** Players 1 and 2 are playing; player 2 has just reported that the map is loaded again. *)
Definition sample_rejoin : GameState :=
  (new_game (H := plain_unicode) 0 42 None sample_config)
    <| g_phase := Playing |>
    <| g_players := [sample_player 1; (sample_player 2) <| p_catchup_cursor := Some 0 |>
                                                        <| p_catching_up := true |>] |>
    <| g_full_history := push_all (push := hist_push) new_history [[10]; [11]; [12]] |>.

(** ** Catching up

    What happens to a playing game between two turns of its clock, as far as packets go:
    it broadcasts, it feeds the players who are catching up, and the writer of a player
    puts a packet on the wire. *)
Inductive PlayEvent :=
| EvBroadcast (now : Z) (bs : bytes)
| EvPump (now : Z)
| EvWriter (pid : Z).

Definition play_event (e : PlayEvent) (g : GameState) : GameState :=
  match e with
  | EvBroadcast now bs => broadcast now bs g
  | EvPump now => pump_rejoin_catchup now g
  | EvWriter pid => g <| g_players ::= by_pid_mut pid (λ p, p <| p_link ::= recv |>) |>
  end.

Definition broadcasts (es : list PlayEvent) : list bytes :=
  omap (λ e, match e with EvBroadcast _ bs => Some bs | _ => None end) es.

(** When player [pid] is live again, their queue has room for each broadcast. *)
Definition has_room (pid : Z) (e : PlayEvent) (g : GameState) : Prop :=
  match e, by_pid pid (g_players g) with
  | EvBroadcast _ _, Some p =>
      p_catchup_cursor p = None → (length (ch_queue (p_link p)) < ch_cap (p_link p))%nat
  | _, _ => True
  end.

Inductive play_run (pid : Z) : GameState → list PlayEvent → GameState → Prop :=
| run_nil g : play_run pid g [] g
| run_cons g e es g' :
    has_room pid e g → play_run pid (play_event e g) es g' → play_run pid g (e :: es) g'.

(** The player is connected and out of every handshake. *)
Definition connected (p : Player) : Prop :=
  p_left p = None ∧ p_virtual_host p = false ∧ p_rejoin p = RejoinNone ∧
  p_disconnected_since p = None ∧ ch_closed (p_link p) = false.

(** While not dropped, the player has been sent a prefix of everything the game ever
    broadcast ([all]), behind what the link held before ([base]). *)
Definition fed (base : list bytes) (all : list bytes) (p : Player) : Prop :=
  p_left p = None →
  connected p ∧
  match p_catchup_cursor p with
  | Some c => 0 <= c <= zlen all ∧ ch_sent (p_link p) = base ++ take (Z.to_nat c) all
  | None => ch_sent (p_link p) = base ++ all
  end.

Lemma has_left_None p : has_left p = false ↔ p_left p = None.
Proof. unfold has_left. by destruct (p_left p). Qed.

Lemma fed_deliver now bs base all p :
  fed base all p →
  (p_catchup_cursor p = None → (length (ch_queue (p_link p)) < ch_cap (p_link p))%nat) →
  fed base (all ++ [bs]) (deliver now bs p).
Proof.
  intros Hf Hroom Hleft.
  assert (p_left p = None) as Hl.
  { destruct (p_left p) eqn:E; [|done]. exfalso. revert Hleft. unfold deliver, has_left.
    rewrite E. cbn. congruence. }
  destruct (Hf Hl) as [(_ & Hv & Hr & Hd & Hc) Hcur]. unfold deliver in *.
  rewrite (proj2 (has_left_None p) Hl), Hv, bool_decide_true in * by done.
  change (p_catchup_cursor (buffer_packet bs p)) with (p_catchup_cursor p) in *.
  change (p_disconnected_since (buffer_packet bs p)) with (p_disconnected_since p) in *.
  rewrite Hd in *. cbn [orb negb is_some] in *.
  destruct (p_catchup_cursor p) as [c|] eqn:Ec; cbn [is_some] in *.
  - split; [done|]. change (p_catchup_cursor (buffer_packet bs p)) with (p_catchup_cursor p).
    change (p_link (buffer_packet bs p)) with (p_link p). rewrite Ec. destruct Hcur as [Hb Hs].
    split; [zlen_lia|]. rewrite take_app_le; [done|]. unfold zlen in Hb. lia.
  - rewrite offer_ok in * by (try done; by apply Hroom). split; [done|].
    cbn. unfold const. rewrite Ec. cbn. change (p_link (buffer_packet bs p)) with (p_link p).
    by rewrite Hcur, app_assoc.
Qed.

Lemma fed_pump_packets now all base pend cur p :
  pend = drop (Z.to_nat cur) all → 0 <= cur <= zlen all → zlen all < 2 ^ 64 →
  ch_closed (p_link p) = false → ch_sent (p_link p) = base ++ take (Z.to_nat cur) all →
  let '(p', cur') := pump_packets now pend cur p in
  cur <= cur' <= zlen all ∧ ch_closed (p_link p') = false ∧
  ch_sent (p_link p') = base ++ take (Z.to_nat cur') all ∧
  p_left p' = p_left p ∧ p_virtual_host p' = p_virtual_host p ∧ p_rejoin p' = p_rejoin p ∧
  p_disconnected_since p' = p_disconnected_since p ∧ p_catchup_cursor p' = p_catchup_cursor p.
Proof.
  revert cur p. induction pend as [|pkt pend IH]; intros cur p Hp Hc Hb Ho Hs; cbn [pump_packets].
  { split_and!; auto; lia. }
  assert (cur < zlen all) as Hlt.
  { destruct (decide (cur < zlen all)); [done|]. rewrite drop_ge in Hp; [done|].
    unfold zlen in *. lia. }
  assert (all !! Z.to_nat cur = Some pkt) as Hpkt.
  { rewrite <- (Nat.add_0_r (Z.to_nat cur)), <- lookup_drop, <- Hp. done. }
  unfold try_send. rewrite Ho. destruct (_ <=? _)%nat.
  { split_and!; auto; lia. }
  rewrite wrap_small by (unfold uN; lia).
  match goal with |- context [pump_packets now pend (cur + 1) ?q] =>
    specialize (IH (cur + 1) q) end.
  assert (Z.to_nat (cur + 1) = S (Z.to_nat cur)) as E by lia.
  destruct (pump_packets _ _ _ _) as [p' cur']. destruct IH as (H1 & H); [|lia|done|done| |].
  - rewrite E, <- Nat.add_1_r, <- drop_drop, <- Hp. done.
  - rewrite E, (take_S_r _ _ _ Hpkt). cbn. by rewrite Hs, app_assoc.
  - split; [lia|]. exact H.
Qed.

Lemma fed_pump now base all h p :
  hist_log h all → fed base all p → fed base all (pump_player now h p).
Proof.
  intros Hlog Hf. pose proof (hist_log_next _ _ Hlog) as Hnext.
  unfold pump_player. destruct (p_catchup_cursor p) as [c|] eqn:Ec; [|done].
  destruct (has_left p) eqn:Hl; [intros Hl'; exfalso; unfold has_left in Hl; cbn in Hl'; by rewrite Hl' in Hl|].
  apply has_left_None in Hl. destruct (Hf Hl) as [(_ & Hv & Hr & Hd & Ho) Hcur].
  rewrite Ec in Hcur. destruct Hcur as [Hc Hs].
  destruct (Z.ltb_spec c (first_seq h)) as [|Hfirst]; [by intros ?|].
  assert (snapshot_from_seq c h = drop (Z.to_nat c) all) as Hsnap.
  { pose proof (log_from (SeqLogLaws := hist_laws) h all c Hlog ltac:(split; [exact Hfirst|lia])) as H.
    by injection H. }
  destruct Hlog as (_ & Hb & _).
  pose proof (fed_pump_packets now all base _ c p Hsnap Hc Hb Ho Hs) as H.
  destruct (pump_packets _ _ _ _) as [p' cur']. destruct H as (H1 & H2 & H3 & H4 & H5 & H6 & H7 & H8).
  rewrite H8, Ec. cbn [is_some]. rewrite Hnext. destruct (Z.leb_spec (zlen all) cur').
  - intros _. split; [split_and!; cbn; congruence|]. cbn. rewrite H3.
    rewrite take_ge; [done|]. unfold zlen in *. lia.
  - intros _. split; [split_and!; cbn; congruence|]. cbn. split; [lia|exact H3].
Qed.

Lemma play_event_fed pid e g base all p :
  g_phase g = Playing → hist_log (g_full_history g) all → zlen all + 1 < 2 ^ 64 →
  by_pid pid (g_players g) = Some p → fed base all p → has_room pid e g →
  ∃ p', by_pid pid (g_players (play_event e g)) = Some p' ∧
        fed base (all ++ broadcasts [e]) p' ∧
        g_phase (play_event e g) = Playing ∧
        hist_log (g_full_history (play_event e g)) (all ++ broadcasts [e]).
Proof.
  intros Hph Hlog Hb Hp Hf Hroom. destruct e as [now bs|now|q]; cbn [play_event].
  - exists (deliver now bs p). unfold broadcast, is_playing. rewrite Hph. split_and!.
    + change (by_pid pid (map (deliver now bs) (g_players g)) = Some (deliver now bs p)).
      rewrite by_pid_map by (intros; apply deliver_pid). by rewrite Hp.
    + apply fed_deliver; [done|]. unfold has_room in Hroom. by rewrite Hp in Hroom.
    + done.
    + by apply (log_push (SeqLogLaws := hist_laws) _ _ bs).
  - exists (pump_player now (g_full_history g) p). cbn [broadcasts omap list_omap].
    rewrite app_nil_r. split_and!; [|by apply fed_pump|done|done].
    change (by_pid pid (map (pump_player now (g_full_history g)) (g_players g))
            = Some (pump_player now (g_full_history g) p)).
    rewrite by_pid_map by (intros; apply pump_player_pid). by rewrite Hp.
  - cbn [broadcasts omap list_omap]. rewrite app_nil_r.
    destruct (decide (pid = q)) as [<-|Hne].
    + exists (p <| p_link ::= recv |>). split_and!; [|..|done|done].
      { change (by_pid pid (by_pid_mut pid (λ p, p <| p_link ::= recv |>) (g_players g))
                = Some (p <| p_link ::= recv |>)).
        rewrite by_pid_mut_same by done. by rewrite Hp. }
      assert (∀ c : PlayerLink, ch_closed (recv c) = ch_closed c ∧ ch_sent (recv c) = ch_sent c)
        as Hrecv by (intros c; unfold recv; by destruct (ch_queue c)).
      intros Hl. destruct (Hf Hl) as [(?&?&?&?&?) Hcur]. destruct (Hrecv (p_link p)) as [E1 E2].
      split; [split_and!; try done; cbn; by rewrite E1|]. cbn. rewrite E2.
      exact Hcur.
    + exists p. split_and!; try done.
      change (by_pid pid (by_pid_mut q (λ p, p <| p_link ::= recv |>) (g_players g)) = Some p).
      by rewrite by_pid_mut_other.
Qed.

Lemma play_run_fed pid g es g' base all p :
  play_run pid g es g' →
  g_phase g = Playing → hist_log (g_full_history g) all →
  zlen all + zlen (broadcasts es) + 1 < 2 ^ 64 →
  by_pid pid (g_players g) = Some p → fed base all p →
  ∃ p', by_pid pid (g_players g') = Some p' ∧ fed base (all ++ broadcasts es) p'.
Proof.
  intros Hrun. revert all p.
  induction Hrun as [g|g e es g' Hroom _ IH]; intros all p Hph Hlog Hb Hp Hf.
  { exists p. by rewrite app_nil_r. }
  assert (broadcasts (e :: es) = broadcasts [e] ++ broadcasts es) as E
    by (destruct e; reflexivity).
  rewrite E, zlen_app in Hb. pose proof (zlen_nonneg (broadcasts es)).
  pose proof (zlen_nonneg (broadcasts [e])).
  destruct (play_event_fed pid e g base all p Hph Hlog ltac:(lia) Hp Hf Hroom)
    as (p' & Hp' & Hf' & Hph' & Hlog').
  rewrite E, app_assoc. eapply IH; [done|done| |done|done]. rewrite zlen_app. lia.
Qed.


