(* ===== verification/Desync.v ===== *)
(** Desynchronisation detection (spectre-engine, src/actions.rs: [handle_keepalive],
    [check_desync]).

    The checksums of a turn are counted in a [HashMap], whose iteration order is not
    specified: [hash_order] is the order it happens to have, any permutation of the
    bins ([desync_order_irrelevant] shows that it does not matter). *)
From S2P Require Import Prelude Utf8 Text BytesExt Frame W3gs Conn Slots History Players Game CatchUp.

Definition desync_active (p : Player) : bool :=
  is_live p && p_loaded p && negb (p_catching_up p).

Definition front {A} (l : list A) : option A := head l.
Definition pop_front {A} (l : list A) : list A := match l with [] => [] | _ :: l => l end.

Definition active_pids (t : PlayerTable) : list Z := player_pids (List.filter desync_active t).

(** The smallest turn at the front of an active player's queue. *)
Definition min_turn (t : PlayerTable) : option Z :=
  foldl (λ m p, match front (p_checksums p) with
                | Some e => Some (match m with Some m => Z.min m (turn e) | None => turn e end)
                | None => m
                end) None (List.filter desync_active t).

Definition clear_active_checksums (t : PlayerTable) : PlayerTable :=
  map (λ p, if desync_active p then p <| p_checksums := [] |> else p) t.

(** Somebody has not acknowledged the turn yet. *)
Definition in_flight (target : Z) (pids : list Z) (t : PlayerTable) : bool :=
  existsb (λ pid, match by_pid pid t with
                  | Some p => p_sync_counter p <? target
                  | None => false
                  end) pids.

(** The players whose queue starts with the turn, with their checksum of it. *)
Definition votes (target : Z) (pids : list Z) (t : PlayerTable) : list (Z * Z) :=
  omap (λ pid, p ← by_pid pid t; e ← front (p_checksums p);
               if turn e =? target then Some (pid, checksum e) else None) pids.

Definition has_desync (vs : list (Z * Z)) : bool :=
  match vs with
  | [] => false
  | (_, first) :: vs => existsb (λ v, negb (v.2 =? first)) vs
  end.

Definition pop_checksums (pids : list Z) (t : PlayerTable) : PlayerTable :=
  foldl (λ t pid, by_pid_mut pid (λ p, p <| p_checksums ::= pop_front |>) t) t pids.

(** [bins.entry(checksum).or_default().push(pid)]. *)
Fixpoint bin_push (cs pid : Z) (bins : list (Z * list Z)) : list (Z * list Z) :=
  match bins with
  | [] => [(cs, [pid])]
  | (c, ps) :: bins => if c =? cs then (c, ps ++ [pid]) :: bins else (c, ps) :: bin_push cs pid bins
  end.
Definition make_bins (vs : list (Z * Z)) : list (Z * list Z) :=
  foldl (λ bins v, bin_push v.2 v.1 bins) [] vs.

(** The loop over the bins: [(max_count, tied, largest_cs)]. *)
Definition count_bin (acc : Z * bool * Z) (bin : Z * list Z) : Z * bool * Z :=
  let '(max_count, tied, largest_cs) := acc in
  if max_count <? zlen bin.2 then (zlen bin.2, false, bin.1)
  else if zlen bin.2 =? max_count then (max_count, true, largest_cs)
  else acc.
Definition count_bins (bins : list (Z * list Z)) : Z * bool * Z := foldl count_bin (0, false, 0) bins.

Definition desync_kick (pid : Z) : GameState → GameState :=
  kick_player pid (str "was dropped due to desync") ids.PLAYERLEAVE_LOST.

(** Who is dropped: everybody on a tie, else every bin but the largest. *)
Definition to_drop (participants : list Z) (bins : list (Z * list Z)) : list Z :=
  let '(_, tied, largest_cs) := count_bins bins in
  if tied then participants
  else concat (map (λ bin, if bin.1 =? largest_cs then [] else bin.2) bins).

Section desync.
Context (hash_order : list (Z * list Z) → list (Z * list Z)).

(** One turn of the loop; [true] when it continues. *)
Definition desync_turn (now : Z) (g : GameState) : option (GameState * bool) :=
  let t := g_players g in
  let pids := active_pids t in
  match (if (length pids <? 2)%nat then None else min_turn t) with
  | None =>
    Some (if (length pids <=? 1)%nat then g <| g_players ::= clear_active_checksums |> else g,
          false)
  | Some target =>
    if in_flight target pids t then Some (g, false) else
    let vs := votes target pids t in
    let participants := map fst vs in
    if (length participants <? 2)%nat || negb (has_desync vs)
    then Some (g <| g_players ::= pop_checksums participants |>, true)
    else
      let bins := hash_order (make_bins vs) in
      g ← send_chat_all now (str "Desync detected!") g;
      let g := foldl (λ g pid, desync_kick pid g) g (to_drop participants bins) in
      Some (g <| g_players ::= pop_checksums participants |>, false)
  end.

Fixpoint desync_loop (fuel : nat) (now : Z) (g : GameState) : option GameState :=
  '(g, continue) ← desync_turn now g;
  if (continue : bool) then
    match fuel with O => None | S fuel => desync_loop fuel now g end
  else Some g.

(** Every continuing turn takes a checksum out of some queue. *)
Definition queued (t : PlayerTable) : nat := foldr (λ p n, length (p_checksums p) + n)%nat 0%nat t.

Definition check_desync (now : Z) (g : GameState) : option GameState :=
  desync_loop (queued (g_players g)) now g.

(** The acknowledgement of a turn by the player of [conn_id]. *)
Definition ack_turn (sc cs : Z) (p : Player) : Player :=
  let p := p <| p_sync_counter ::= λ n, sat_add 32 n 1 |> in
  let trn := p_sync_counter p in
  if p_catching_up p then
    if sc <=? trn then p <| p_catching_up := false |> else p
  else
    let p := if 512 <=? zlen (p_checksums p) then p <| p_checksums ::= pop_front |> else p in
    p <| p_checksums ::= λ q, q ++ [mkEntry trn cs] |>.

Definition handle_keepalive (now conn_id : Z) (payload : bytes) (g : GameState)
  : option GameState :=
  if negb (is_playing g) then Some g else
  match decode_keepalive payload with
  | Err _ => Some g
  | Ok cs =>
    let g := g <| g_players ::= by_conn_mut conn_id (ack_turn (g_sync_counter g) cs) |> in
    check_desync now g
  end.
End desync.

(** ** Counting the votes *)

(** The players who reported the checksum [cs]. *)
Definition voters (cs : Z) (vs : list (Z * Z)) : list Z :=
  map fst (List.filter (λ v, v.2 =? cs) vs).

Lemma voters_snoc cs vs v :
  voters cs (vs ++ [v]) = voters cs vs ++ (if v.2 =? cs then [v.1] else []).
Proof.
  unfold voters. rewrite List.filter_app, map_app. simpl. by destruct (v.2 =? cs).
Qed.

Lemma voters_elem pid cs vs : pid ∈ voters cs vs ↔ (pid, cs) ∈ vs.
Proof.
  unfold voters. rewrite list_elem_of_fmap. setoid_rewrite list_elem_of_In.
  setoid_rewrite filter_In. setoid_rewrite Z.eqb_eq. split.
  - intros ([p c] & -> & Hin & Hc). simpl in *. by subst.
  - intros Hin. by exists (pid, cs).
Qed.

Lemma bin_push_keys cs pid bins c :
  c ∈ map fst (bin_push cs pid bins) ↔ c = cs ∨ c ∈ map fst bins.
Proof.
  induction bins as [|[k ps] bins IH]; simpl; [set_solver|].
  destruct (Z.eqb_spec k cs) as [->|]; simpl; set_solver.
Qed.

Lemma bin_push_NoDup cs pid bins : NoDup (map fst bins) → NoDup (map fst (bin_push cs pid bins)).
Proof.
  induction bins as [|[k ps] bins IH]; simpl.
  - intros _. apply NoDup_cons. split; [set_solver|constructor].
  - rewrite NoDup_cons. intros [Hk Hd]. destruct (Z.eqb_spec k cs) as [->|Hne]; simpl; apply NoDup_cons.
    + done.
    + split; [|by apply IH]. rewrite bin_push_keys. set_solver.
Qed.

Lemma bin_push_elem cs pid bins c ps :
  NoDup (map fst bins) →
  (c, ps) ∈ bin_push cs pid bins ↔
  (c ≠ cs ∧ (c, ps) ∈ bins) ∨
  (c = cs ∧ ((∃ old, (cs, old) ∈ bins ∧ ps = old ++ [pid]) ∨ (cs ∉ map fst bins ∧ ps = [pid]))).
Proof.
  induction bins as [|[k qs] bins IH]; intros Hd; simpl in *.
  - set_solver.
  - apply NoDup_cons in Hd as [Hk Hd]. specialize (IH Hd).
    assert (∀ q, (k, q) ∉ bins) as Hkb
      by (intros q Hq; apply Hk; apply list_elem_of_fmap; by exists (k, q)).
    destruct (Z.eqb_spec k cs) as [->|Hne].
    + rewrite !elem_of_cons. split.
      * intros [[= -> ->]|Hin]; [right; split; [done|left; exists qs; set_solver]|].
        left. split; [intros ->; by destruct (Hkb ps)|auto].
      * intros [[Hc [[= -> ->]|Hin]]|[-> [(old & Hold & ->)|[Hn _]]]]; [done|auto| |set_solver].
        apply elem_of_cons in Hold as [[= ->]|Hin]; [auto|by destruct (Hkb old)].
    + rewrite elem_of_cons, IH. split.
      * intros [[= -> ->]|[[Hc Hin]|[-> [(old & Hold & ->)|[Hn ->]]]]].
        -- left. set_solver.
        -- left. set_solver.
        -- right. split; [done|]. left. exists old. set_solver.
        -- right. split; [done|]. right. set_solver.
      * intros [[Hc [[= -> ->]|Hin]%elem_of_cons]|[-> [(old & [[= <- _]|Hold]%elem_of_cons & ->)|[Hn ->]]]];
          [auto|auto|done|right; right; split; [done|left; eauto]|].
        right. right. split; [done|right; set_solver].
Qed.

Lemma make_bins_spec vs :
  NoDup (map fst (make_bins vs)) ∧
  ∀ c ps, (c, ps) ∈ make_bins vs ↔ ps = voters c vs ∧ ps ≠ [].
Proof.
  induction vs as [|[pid cs] vs IH] using rev_ind.
  - split; [constructor|]. intros c ps. unfold make_bins, voters. simpl. set_solver.
  - destruct IH as [Hd Hel]. unfold make_bins in *. rewrite foldl_app. cbn [foldl fst snd].
    split; [by apply bin_push_NoDup|]. intros c ps. rewrite bin_push_elem by done.
    rewrite voters_snoc. cbn [fst snd].
    assert (cs ∉ map fst (foldl (λ bins v, bin_push v.2 v.1 bins) [] vs) ↔ voters cs vs = []) as Hkey.
    { rewrite list_elem_of_fmap. split.
      - intros Hn. destruct (voters cs vs) as [|x l] eqn:E; [done|]. exfalso. apply Hn.
        exists (cs, x :: l). split; [done|]. apply Hel. by rewrite E.
      - intros E ([c' ps'] & Hc & Hin). cbn in Hc. subst c'. apply Hel in Hin as [-> Hne].
        by rewrite E in Hne. }
    split.
    + intros [[Hc Hin]|[-> [(old & Hold & ->)|[Hn ->]]]].
      * apply Hel in Hin as [-> Hne]. rewrite (proj2 (Z.eqb_neq _ _)) by done.
        by rewrite app_nil_r.
      * apply Hel in Hold as [-> Hne]. rewrite Z.eqb_refl. split; [done|]. by destruct (voters cs vs).
      * apply Hkey in Hn. by rewrite Z.eqb_refl, Hn.
    + intros [-> Hne]. destruct (Z.eqb_spec cs c) as [->|Hc].
      * right. split; [done|]. destruct (voters c vs) as [|x l] eqn:E.
        -- right. split; [by apply Hkey|done].
        -- left. exists (x :: l). split; [|done]. apply Hel. by rewrite E.
      * left. split; [done|]. rewrite app_nil_r in *. by apply Hel.
Qed.

(** The loop finds the size of the largest bin, a bin of that size, and whether it is
    the only one. *)
Lemma count_bins_spec bins :
  bins ≠ [] → NoDup (map fst bins) → (∀ b, b ∈ bins → b.2 ≠ []) →
  let '(m, tied, c) := count_bins bins in
  (∀ b, b ∈ bins → zlen b.2 <= m) ∧
  (∃ ps, (c, ps) ∈ bins ∧ zlen ps = m) ∧
  (tied = true ↔ ∃ c' ps', c' ≠ c ∧ (c', ps') ∈ bins ∧ zlen ps' = m).
Proof.
  induction bins as [|b bins IH] using rev_ind; [done|]. intros _ Hd Hne.
  unfold count_bins in *. rewrite foldl_app. cbn [foldl].
  rewrite map_app, NoDup_app in Hd. destruct Hd as (Hd & Hdis & _).
  assert (0 < zlen b.2) as Hb.
  { specialize (Hne b ltac:(set_solver)). destruct b.2; [done|]. zlen_lia. }
  destruct b as [cb pb]. cbn [fst snd] in *.
  assert (∀ p, (cb, p) ∉ bins) as Hcb.
  { intros p Hp. eapply (Hdis cb); [apply list_elem_of_fmap; by exists (cb, p)|set_solver]. }
  destruct bins as [|b0 bins].
  - cbn. rewrite (proj2 (Z.ltb_lt _ _) Hb). split_and!.
    + intros b. rewrite list_elem_of_singleton. intros ->. done.
    + exists pb. set_solver.
    + split; [done|]. intros (c' & ps' & Hc & Hin & _). set_solver.
  - specialize (IH ltac:(done) Hd ltac:(set_solver)).
    destruct (foldl count_bin (0, false, 0) (b0 :: bins)) as [[m tied] c].
    destruct IH as (Hmax & (ps & Hps & Hlen) & Htied). cbn [count_bin snd fst].
    assert (c ≠ cb) as Hccb by (intros ->; by destruct (Hcb ps)).
    destruct (Z.ltb_spec m (zlen pb)); [|destruct (Z.eqb_spec (zlen pb) m)].
    + split_and!.
      * intros b [Hin|Hin]%elem_of_app; [specialize (Hmax b Hin); lia|].
        apply list_elem_of_singleton in Hin as ->. done.
      * exists pb. set_solver.
      * split; [done|]. intros (c' & ps' & Hc & [Hin|Hin]%elem_of_app & Hl).
        -- specialize (Hmax _ Hin). simpl in Hmax. lia.
        -- set_solver.
    + split_and!.
      * intros b [Hin|Hin]%elem_of_app; [by apply Hmax|].
        apply list_elem_of_singleton in Hin as ->. simpl. lia.
      * exists ps. set_solver.
      * split; [|done]. intros _. exists cb, pb. set_solver.
    + split_and!.
      * intros b [Hin|Hin]%elem_of_app; [by apply Hmax|].
        apply list_elem_of_singleton in Hin as ->. simpl. lia.
      * exists ps. set_solver.
      * rewrite Htied. split.
        -- intros (c' & ps' & Hc & Hin & Hl). exists c', ps'. set_solver.
        -- intros (c' & ps' & Hc & [Hin|Hin]%elem_of_app & Hl); [by exists c', ps'|].
           apply list_elem_of_singleton in Hin as [= -> ->]. done.
Qed.

(** Who is dropped: whoever reported a checksum that another one matched or outvoted. *)
Lemma to_drop_spec vs bins pid cs :
  Permutation bins (make_bins vs) → NoDup (map fst vs) → (pid, cs) ∈ vs →
  pid ∈ to_drop (map fst vs) bins ↔
  ∃ cs', cs' ≠ cs ∧ zlen (voters cs vs) <= zlen (voters cs' vs) ∧ voters cs' vs ≠ [].
Proof.
  intros Hperm Hnd Hin. destruct (make_bins_spec vs) as [Hd Hel].
  assert (NoDup (map fst bins)) as Hd' by (by rewrite Hperm).
  assert (∀ c ps, (c, ps) ∈ bins ↔ ps = voters c vs ∧ ps ≠ []) as Hel'
    by (intros; rewrite Hperm; apply Hel).
  assert (voters cs vs ≠ []) as Hvne.
  { apply voters_elem in Hin. intros E. rewrite E in Hin. set_solver. }
  assert ((cs, voters cs vs) ∈ bins) as Hbin by (by apply Hel').
  assert (bins ≠ []) as Hbne by (intros ->; set_solver).
  pose proof (count_bins_spec bins Hbne Hd') as Hcount. unfold to_drop.
  destruct (count_bins bins) as [[m tied] c].
  destruct Hcount as (Hmax & (ps & Hps & Hlen) & Htied); [by intros [] [_ ?]%Hel'|].
  apply Hel' in Hps as [-> Hcne]. destruct tied.
  - destruct (proj1 Htied eq_refl) as (c' & ps' & Hc & Hps' & Hl').
    apply Hel' in Hps' as [-> Hne'].
    assert (pid ∈ map fst vs) as Hpin by (apply list_elem_of_fmap; by exists (pid, cs)).
    split; [intros _|done]. specialize (Hmax _ Hbin). cbn in Hmax.
    destruct (decide (cs = c)) as [->|]; [exists c'|exists c]; (split; [done|split; [lia|done]]).
  - assert (∀ c', c' ≠ c → voters c' vs ≠ [] → zlen (voters c' vs) < m) as Hless.
    { intros c' Hc Hne. assert ((c', voters c' vs) ∈ bins) as Hb by (by apply Hel').
      specialize (Hmax _ Hb). cbn in Hmax. destruct (decide (zlen (voters c' vs) = m)); [|lia].
      discriminate (proj2 Htied (ex_intro _ c' (ex_intro _ (voters c' vs) (conj Hc (conj Hb e))))). }
    rewrite list_elem_of_In, in_concat. setoid_rewrite in_map_iff. split.
    + intros (l & ([c' ps'] & <- & Hb) & Hpl). cbn [fst snd] in Hpl.
      destruct (Z.eqb_spec c' c) as [|Hne]; [done|]. apply list_elem_of_In in Hb, Hpl.
      apply Hel' in Hb as [-> Hb]. apply voters_elem in Hpl.
      assert (c' = cs) as ->.
      { apply list_elem_of_lookup in Hin as [i Hi], Hpl as [j Hj].
        assert (i = j) as ->; [|congruence]. eapply NoDup_lookup; [exact Hnd| |];
          change @map with (@fmap list _); rewrite list_lookup_fmap; [by rewrite Hi|by rewrite Hj]. }
      exists c. split; [done|]. split; [|done]. specialize (Hless cs Hne Hb). lia.
    + intros (cs' & Hne & Hle & Hvne'). exists (voters cs vs).
      split; [|apply list_elem_of_In; by apply voters_elem].
      exists (cs, voters cs vs). cbn [fst snd]. split; [|by apply list_elem_of_In].
      destruct (Z.eqb_spec cs c) as [->|]; [|done]. specialize (Hless cs' Hne Hvne'). lia.
Qed.

(** ** The loop *)

Definition kicked (p : Player) : Player :=
  p <| p_left := Some (str "was dropped due to desync") |> <| p_left_code := ids.PLAYERLEAVE_LOST |>.

Lemma kicks_players l g :
  NoDup (player_pids (g_players g)) →
  foldl (λ g pid, desync_kick pid g) g l
  = g <| g_players := map (λ p, if bool_decide (p_pid p ∈ l) then kicked p else p) (g_players g) |>.
Proof.
  intros Hd. rewrite <- (fold_by_pid_mut l kicked) by (done || by right). clear Hd.
  revert g. induction l as [|pid l IH]; intros g; cbn [foldl]; [by destruct g|]. by rewrite IH.
Qed.

(** The player whose turn is the smallest votes on it. *)
Lemma min_turn_voter t target :
  NoDup (player_pids t) → min_turn t = Some target →
  ∃ p e, p ∈ t ∧ desync_active p = true ∧ front (p_checksums p) = Some e ∧ turn e = target ∧
         (p_pid p, checksum e) ∈ votes target (active_pids t) t.
Proof.
  intros Hd Hm.
  assert (∀ l m0, (∀ m1, m0 = Some m1 → m1 = target → False) →
    foldl (λ m p, match front (p_checksums p) with
                | Some e => Some (match m with Some m => Z.min m (turn e) | None => turn e end)
                | None => m
                end) m0 l = Some target →
    ∃ p e, p ∈ l ∧ front (p_checksums p) = Some e ∧ turn e = target) as H.
  { clear. induction l as [|p l IH]; intros m0 Hm0 H; cbn [foldl] in H; [naive_solver|].
    destruct (front (p_checksums p)) as [e|] eqn:He.
    - destruct (decide (turn e = target)) as [<-|Hne]; [exists p, e; set_solver|].
      apply IH in H as (q & f & Hq & Hf & Ht); [exists q, f; set_solver|].
      destruct m0 as [m0|]; intros m1 [= <-]; [|done]. intros E.
      destruct (Z.min_spec m0 (turn e)) as [[? Hmin]|[? Hmin]]; rewrite Hmin in E; [|done].
      by eapply Hm0.
    - apply IH in H as (q & f & Hq & Hf & Ht); [exists q, f; set_solver|done]. }
  apply H in Hm as (p & e & Hp & He & Ht); [|done].
  apply list_elem_of_In, filter_In in Hp as [Hp%list_elem_of_In Hact].
  exists p, e. split_and!; try done. unfold votes. apply list_elem_of_omap.
  exists (p_pid p). split.
  - unfold active_pids, player_pids. apply list_elem_of_fmap. exists p. split; [done|].
    apply list_elem_of_In, filter_In. split; [by apply list_elem_of_In|done].
  - rewrite (by_pid_elem t p Hd Hp). cbn. rewrite He. cbn. by rewrite Ht, Z.eqb_refl.
Qed.

Lemma queued_map f t :
  (∀ p, length (p_checksums (f p)) <= length (p_checksums p))%nat →
  (queued (map f t) <= queued t)%nat.
Proof. intros Hf. induction t as [|p t IH]; simpl; [done|]. specialize (Hf p). lia. Qed.

Lemma pop_front_length {A} (l : list A) : length (pop_front l) = pred (length l).
Proof. by destruct l. Qed.

Lemma votes_pids target pids t : map fst (votes target pids t) ⊆ pids.
Proof.
  intros pid (v & -> & Hv)%list_elem_of_fmap. unfold votes in Hv.
  apply list_elem_of_omap in Hv as (q & Hq & Ho).
  destruct (by_pid q t) as [p|]; [|done]. cbn in Ho.
  destruct (front (p_checksums p)) as [e|]; [|done]. cbn in Ho.
  destruct (turn e =? target); [|done]. by injection Ho as <-.
Qed.

Lemma votes_NoDup target pids t : NoDup pids → NoDup (map fst (votes target pids t)).
Proof.
  induction 1 as [|pid pids Hn Hd IH]; [constructor|].
  change (votes target (pid :: pids) t) with
    (match (p ← by_pid pid t; e ← front (p_checksums p);
            if turn e =? target then Some (pid, checksum e) else None) with
     | Some v => v :: votes target pids t | None => votes target pids t end).
  destruct (by_pid pid t) as [p|]; [|done]. cbn.
  destruct (front (p_checksums p)) as [e|]; [|done]. cbn.
  destruct (turn e =? target); [|done]. cbn. apply NoDup_cons. split; [|done].
  intros Hin. by apply Hn, (votes_pids target pids t).
Qed.

Lemma active_pids_NoDup t : NoDup (player_pids t) → NoDup (active_pids t).
Proof.
  unfold active_pids, player_pids. induction t as [|p t IH]; [done|]. simpl.
  rewrite NoDup_cons. intros [Hn Hd]. destruct (desync_active p); [|auto]. simpl.
  apply NoDup_cons. split; [|auto]. intros (q & Hq & Hin)%list_elem_of_fmap. apply Hn.
  apply list_elem_of_fmap. exists q. split; [done|].
  apply list_elem_of_In, filter_In in Hin as [? _]. by apply list_elem_of_In.
Qed.

(** Popping the fronts of the players in [pids]. *)
Definition popped (pids : list Z) (p : Player) : Player :=
  if bool_decide (p_pid p ∈ pids) then p <| p_checksums ::= pop_front |> else p.

Lemma pop_checksums_map pids t :
  NoDup (player_pids t) → NoDup pids → pop_checksums pids t = map (popped pids) t.
Proof. intros Hd Hp. unfold pop_checksums. rewrite fold_by_pid_mut; auto. Qed.

Lemma popped_pid pids p : p_pid (popped pids p) = p_pid p.
Proof. unfold popped. by case_bool_decide. Qed.

Lemma popped_length pids p :
  (length (p_checksums (popped pids p)) <= length (p_checksums p))%nat.
Proof. unfold popped. case_bool_decide; [|done]. cbn. rewrite pop_front_length. lia. Qed.

Lemma queued_pop pids t p e :
  p ∈ t → p_pid p ∈ pids → front (p_checksums p) = Some e →
  (queued (map (popped pids) t) < queued t)%nat.
Proof.
  intros Hp Hin He. apply list_elem_of_split in Hp as (t1 & t2 & ->).
  assert (∀ t1 t2, queued (t1 ++ t2) = queued t1 + queued t2)%nat as Happ.
  { clear. induction t1 as [|p t1 IH]; intros t2; simpl; [done|]. rewrite IH. lia. }
  rewrite map_app, map_cons, Happ, Happ. cbn [queued foldr].
  pose proof (queued_map (popped pids) t1 (popped_length pids)).
  pose proof (queued_map (popped pids) t2 (popped_length pids)). unfold queued in *.
  assert (length (p_checksums (popped pids p)) < length (p_checksums p))%nat; [|lia].
  unfold popped. rewrite bool_decide_true by done. cbn. rewrite pop_front_length.
  by destruct (p_checksums p); [|simpl; lia].
Qed.

Section desync_facts.
Context (hash_order : list (Z * list Z) → list (Z * list Z)).

(** A turn of the loop always answers, and one that continues takes a checksum out of
    a queue. *)
Lemma desync_turn_total now g :
  NoDup (player_pids (g_players g)) →
  ∃ g' b, desync_turn hash_order now g = Some (g', b) ∧
    (b = true → player_pids (g_players g') = player_pids (g_players g) ∧
                (queued (g_players g') < queued (g_players g))%nat).
Proof.
  intros Hd. unfold desync_turn.
  destruct (length (active_pids (g_players g)) <? 2)%nat; [by do 2 eexists|].
  destruct (min_turn (g_players g)) as [target|] eqn:Hm; [|by do 2 eexists].
  destruct (in_flight _ _ _); [by do 2 eexists|].
  set (vs := votes target (active_pids (g_players g)) (g_players g)).
  destruct ((length (map fst vs) <? 2)%nat || negb (has_desync vs)) eqn:Hc.
  - do 2 eexists. split; [done|]. intros _.
    destruct (min_turn_voter _ _ Hd Hm) as (p & e & Hp & _ & He & _ & Hv).
    assert (g_players (g <| g_players ::= pop_checksums (map fst vs) |>)
            = map (popped (map fst vs)) (g_players g)) as ->
      by (apply pop_checksums_map; [done|by apply votes_NoDup, active_pids_NoDup]). split.
    + apply map_pids, popped_pid.
    + eapply queued_pop; [exact Hp| |exact He]. apply list_elem_of_fmap. by exists (p_pid p, checksum e).
  - destruct (send_chat_all_short now (str "Desync detected!") g) as [g1 ->]; [vm_compute; congruence|].
    cbn. by do 2 eexists.
Qed.

Lemma desync_loop_total fuel now g :
  NoDup (player_pids (g_players g)) → (queued (g_players g) <= fuel)%nat →
  ∃ g', desync_loop hash_order fuel now g = Some g'.
Proof.
  revert g. induction fuel as [|fuel IH]; intros g Hd Hq; cbn [desync_loop];
    destruct (desync_turn_total now g Hd) as (g' & b & Ht & Hb); rewrite Ht; cbn;
    destruct b; eauto; destruct (Hb eq_refl) as [Hp Hlt]; [lia|].
  apply IH; [by rewrite Hp|lia].
Qed.
End desync_facts.

(** A checksum check always ends, whatever checksums the players have sent, and it
    never panics. *)
Theorem check_desync_total hash_order now g :
  NoDup (player_pids (g_players g)) → ∃ g', check_desync hash_order now g = Some g'.
Proof. intros Hd. by apply desync_loop_total. Qed.

Lemma check_desync_total_witness : is_some (check_desync id 0 sample_rejoin) = true.
Proof.
  destruct (check_desync_total id 0 sample_rejoin) as [g' ->]; [|reflexivity].
  vm_compute. repeat (apply NoDup_cons; split; [set_solver|]). constructor.
Defined.

(** The player reported a checksum that another one matched or outvoted. *)
Definition outvoted (vs : list (Z * Z)) (pid : Z) : bool :=
  existsb (λ v, (v.1 =? pid) &&
    existsb (λ w, negb (w.2 =? v.2) && (zlen (voters v.2 vs) <=? zlen (voters w.2 vs))) vs) vs.

Lemma outvoted_to_drop vs bins pid :
  Permutation bins (make_bins vs) → NoDup (map fst vs) →
  outvoted vs pid = true ↔ pid ∈ to_drop (map fst vs) bins.
Proof.
  intros Hperm Hnd.
  assert (∀ w, w ∈ vs → voters w.2 vs ≠ []) as Hne.
  { intros [p c] Hin%voters_elem E. cbn in E. rewrite E in Hin. set_solver. }
  assert (∀ c, voters c vs ≠ [] → ∃ p, (p, c) ∈ vs) as Hv.
  { intros c Hc. destruct (voters c vs) as [|p l] eqn:E; [done|]. exists p.
    apply voters_elem. rewrite E. set_solver. }
  unfold outvoted. rewrite existsb_exists. setoid_rewrite andb_true_iff.
  setoid_rewrite Z.eqb_eq. setoid_rewrite existsb_exists. setoid_rewrite andb_true_iff.
  setoid_rewrite negb_true_iff. setoid_rewrite Z.eqb_neq. setoid_rewrite Z.leb_le.
  setoid_rewrite <- list_elem_of_In. split.
  - intros ([p cs] & Hin & <- & w & Hw & Hcs & Hle). cbn in *.
    apply (to_drop_spec vs bins p cs Hperm Hnd Hin). exists w.2. auto.
  - intros Hdrop. assert (pid ∈ map fst vs) as ([p cs] & -> & Hin)%list_elem_of_fmap.
    { unfold to_drop in Hdrop. destruct (count_bins bins) as [[m tied] c].
      destruct tied; [done|]. apply list_elem_of_In, in_concat in Hdrop as (l & Hl & Hp).
      apply in_map_iff in Hl as ([c' ps] & <- & Hb). cbn in Hp. destruct (c' =? c); [done|].
      apply list_elem_of_In in Hb, Hp. rewrite Hperm in Hb. apply make_bins_spec in Hb as [-> _].
      apply voters_elem in Hp. apply list_elem_of_fmap. by exists (pid, c'). }
    apply (to_drop_spec vs bins p cs Hperm Hnd Hin) in Hdrop as (cs' & Hcs & Hle & Hv').
    exists (p, cs). split; [done|]. split; [done|]. destruct (Hv _ Hv') as [q Hq].
    by exists (q, cs').
Qed.

(** The two branches of a vote, with the loop's bookkeeping done. *)
Lemma desync_turn_vote hash_order now g target vs :
  (∀ l, Permutation (hash_order l) l) → NoDup (player_pids (g_players g)) →
  let t := g_players g in
  (2 <= length (active_pids t))%nat → min_turn t = Some target →
  in_flight target (active_pids t) t = false →
  vs = votes target (active_pids t) t → (2 <= length vs)%nat → has_desync vs = true →
  ∃ g1, send_chat_all now (str "Desync detected!") g = Some g1 ∧
    player_pids (g_players g1) = player_pids (g_players g) ∧
    desync_turn hash_order now g = Some
      (g1 <| g_players := map (λ p, popped (map fst vs)
                                 (if outvoted vs (p_pid p) then kicked p else p)) (g_players g1) |>,
       false).
Proof.
  intros Hperm Hd t Hact Hmin Hfl -> Hvs Hds. subst t. unfold desync_turn.
  rewrite (proj2 (Nat.ltb_ge _ _) Hact), Hmin, Hfl.
  set (vs := votes target (active_pids (g_players g)) (g_players g)) in *.
  rewrite length_map, (proj2 (Nat.ltb_ge _ _) Hvs), Hds. cbn [negb orb].
  destruct (send_chat_all_short now (str "Desync detected!") g) as [g1 Hg1];
    [vm_compute; congruence|].
  destruct (send_chat_all_players _ _ _ _ Hg1) as ((f & Hf & Hin) & _).
  assert (player_pids (g_players g1) = player_pids (g_players g)) as Hpids
    by (rewrite Hf; by apply inert_map_pids).
  assert (NoDup (map fst vs)) as Hnd by (by apply votes_NoDup, active_pids_NoDup).
  exists g1. rewrite Hg1. split; [done|]. split; [done|]. cbn [mbind option_bind].
  rewrite kicks_players by (by rewrite Hpids). do 2 f_equal.
  set (drop := to_drop (map fst vs) (hash_order (make_bins vs))).
  assert (∀ pid, bool_decide (pid ∈ drop) = outvoted vs pid) as Hdrop.
  { intros pid. apply eq_true_iff_eq. rewrite bool_decide_eq_true. symmetry.
    by apply outvoted_to_drop. }
  assert (∀ u, NoDup (player_pids u) →
    pop_checksums (map fst vs) (map (λ p, if bool_decide (p_pid p ∈ drop) then kicked p else p) u)
    = map (λ p, popped (map fst vs) (if outvoted vs (p_pid p) then kicked p else p)) u) as Hpop.
  { intros u Hu. rewrite pop_checksums_map; [|by rewrite map_pids; [|intros; case_bool_decide]|done].
    rewrite map_map. apply map_ext. intros p. by rewrite Hdrop. }
  rewrite <- (Hpop (g_players g1)) by (by rewrite Hpids). by destruct g1.
Qed.

(** C14: when the players disagree on a turn everybody has acknowledged, a player who
    reported a checksum that some other one matched or outvoted is dropped, and nobody
    else is: a strict majority stays, a tie drops everyone; the votes of the turn leave
    their queues and nothing else about the players changes beyond the announcement. *)
Theorem desync_verdict hash_order now g target vs :
  (∀ l, Permutation (hash_order l) l) → NoDup (player_pids (g_players g)) →
  let t := g_players g in
  (2 <= length (active_pids t))%nat → min_turn t = Some target →
  in_flight target (active_pids t) t = false →
  vs = votes target (active_pids t) t → (2 <= length vs)%nat → has_desync vs = true →
  ∃ g1 g', send_chat_all now (str "Desync detected!") g = Some g1 ∧
    desync_turn hash_order now g = Some (g', false) ∧
    g_players g' = map (λ p, popped (map fst vs)
                               (if outvoted vs (p_pid p) then kicked p else p)) (g_players g1).
Proof.
  intros Hperm Hd t H1 H2 H3 H4 H5 H6.
  destruct (desync_turn_vote hash_order now g target vs Hperm Hd H1 H2 H3 H4 H5 H6)
    as (g1 & Hg1 & _ & Ht).
  exists g1. eexists. split; [exact Hg1|]. split; [exact Ht|]. done.
Qed.

(** The verdict does not depend on the order in which the hash map happens to
    enumerate the checksums. *)
Theorem desync_order_irrelevant order1 order2 now g :
  (∀ l, Permutation (order1 l) l) → (∀ l, Permutation (order2 l) l) →
  NoDup (player_pids (g_players g)) →
  desync_turn order1 now g = desync_turn order2 now g.
Proof.
  intros Ho1 Ho2 Hd.
  destruct (length (active_pids (g_players g)) <? 2)%nat eqn:Ha;
    [unfold desync_turn; by rewrite Ha|].
  destruct (min_turn (g_players g)) as [target|] eqn:Hm; [|unfold desync_turn; by rewrite Ha, Hm].
  destruct (in_flight target (active_pids (g_players g)) (g_players g)) eqn:Hf;
    [unfold desync_turn; by rewrite Ha, Hm, Hf|].
  set (vs := votes target (active_pids (g_players g)) (g_players g)).
  destruct ((length (map fst vs) <? 2)%nat || negb (has_desync vs)) eqn:Hc.
  { unfold desync_turn. rewrite Ha, Hm, Hf. fold vs. by rewrite Hc. }
  apply orb_false_iff in Hc as [Hl%Nat.ltb_ge Hds%negb_false_iff]. rewrite length_map in Hl.
  apply Nat.ltb_ge in Ha.
  destruct (desync_turn_vote order1 now g target vs Ho1 Hd Ha Hm Hf eq_refl Hl Hds)
    as (g1 & Hg1 & _ & ->).
  destruct (desync_turn_vote order2 now g target vs Ho2 Hd Ha Hm Hf eq_refl Hl Hds)
    as (g2 & Hg2 & _ & ->).
  congruence.
Qed.

(** Three players have acknowledged turn 1; the third one disagrees. *)
Definition sample_desync : GameState :=
  sample_rejoin <| g_players := map (λ '(pid, cs), (sample_player pid)
      <| p_sync_counter := 1 |> <| p_checksums := [mkEntry 1 cs] |>) [(1, 5); (2, 5); (3, 6)] |>.

Lemma sample_desync_pids : NoDup (player_pids (g_players sample_desync)).
Proof. vm_compute. repeat (apply NoDup_cons; split; [set_solver|]). constructor. Qed.

Lemma desync_verdict_witness :
  ∃ g', desync_turn (@rev _) 0 sample_desync = Some (g', false) ∧
        map has_left (g_players g') = [false; false; true].
Proof.
  destruct (desync_verdict (@rev _) 0 sample_desync 1 [(1, 5); (2, 5); (3, 6)])
    as (g1 & g' & Hg1 & Ht & Hp).
  - intros l. symmetry. apply Permutation_rev.
  - apply sample_desync_pids.
  - vm_compute. lia.
  - reflexivity.
  - reflexivity.
  - reflexivity.
  - cbn. lia.
  - reflexivity.
  - exists g'. split; [exact Ht|]. rewrite Hp. vm_compute in Hg1. injection Hg1 as <-.
    vm_compute. reflexivity.
Defined.

Lemma desync_order_irrelevant_witness :
  desync_turn id 0 sample_desync = desync_turn (@rev _) 0 sample_desync.
Proof.
  apply (desync_order_irrelevant id (@rev _)).
  - done.
  - intros l. symmetry. apply Permutation_rev.
  - apply sample_desync_pids.
Defined.
