(* ===== verification/Turns.v ===== *)
(** The turns of a running game (spectre-engine, src/actions.rs: [handle_action],
    [send_all_actions]): the actions of the players are queued and every tick sends them
    to everybody.  [crc32] is the checksum of the crc32fast package. *)
From S2P Require Import Prelude Utf8 Text BytesExt Frame W3gs Conn Slots History Players.
From S2P Require Import ReplayBody StatsDota W3mmd Relay Tick Game CatchUp.

Definition MAX_ACTION_PAYLOAD : Z := 1452.

Definition handle_action (conn_id : Z) (payload : bytes) (g : GameState) : GameState :=
  match by_conn conn_id (g_players g) with
  | None => g
  | Some p =>
    let pid := p_pid p in
    if negb (is_loading g || is_playing g)
    then kick_player pid (str "Invalid action packet") ids.PLAYERLEAVE_LOST g
    else match OutgoingAction_decode payload with
         | Ok a =>
           if 1027 <? zlen (oa_data a) + 3
           then kick_player pid (str "Invalid action packet") ids.PLAYERLEAVE_LOST g
           else g <| g_actions ::= λ acts, acts ++ [mkActionBlock pid (oa_data a)] |>
         | Err _ => g
         end
  end.

Section turns.
Context `{U : Unicode} (crc32 : bytes → Z).

(** One packet of actions: to the relay, into the replay, to the players. *)
Definition send_batch (now : Z) (packet : result ProtoError bytes)
    (record : ReplayBody → ReplayBody) (g : GameState) : GameState :=
  match packet with
  | Ok b => broadcast now b (with_replay record (with_relay (rh_push b) g))
  | Err _ => g
  end.

Definition send_overflow (now : Z) (batch : list ActionBlock) : GameState → GameState :=
  send_batch now (incoming_action2 crc32 batch) (add_timeslot2 (encode_actions_raw batch)).

Definition send_timeslot (now send_interval : Z) (batch : list ActionBlock)
  : GameState → GameState :=
  send_batch now (incoming_action crc32 batch send_interval)
             (add_timeslot send_interval (encode_actions_raw batch)).

(** The state of the loop over the queued actions. *)
Record TurnLoop := mkLoop {
  tl_game : GameState; tl_batch : list ActionBlock; tl_batch_len : Z;
  tl_winner : option bytes }.

(** The statistics see every action; the first one that ends the game names a winner. *)
Definition observe_dota (data : bytes) (l : TurnLoop) : TurnLoop :=
  match g_dota (tl_game l) with
  | None => l
  | Some dota =>
    let '(dota, over) := process_action data dota in
    let l := l <| tl_game ::= λ g, g <| g_dota := Some dota |> |> in
    if over && negb (is_some (g_game_over_time (tl_game l))) && negb (is_some (tl_winner l))
    then l <| tl_winner := Some (format_winner dota) |> else l
  end.

Definition observe_mmd (data : bytes) (l : TurnLoop) : TurnLoop :=
  match g_w3mmd (tl_game l) with
  | None => l
  | Some mmd => l <| tl_game ::= λ g, g <| g_w3mmd := Some (process_mmd_action data mmd).2 |> |>
  end.

Definition observe_action (data : bytes) (l : TurnLoop) : TurnLoop := observe_mmd data (observe_dota data l).

Definition queue_action (now : Z) (l : TurnLoop) (action : ActionBlock) : TurnLoop :=
  let l := observe_action (ab_data action) l in
  let len := wire_len action in
  let l := if (MAX_ACTION_PAYLOAD <? tl_batch_len l + len) && negb (zlen (tl_batch l) =? 0)
           then mkLoop (send_overflow now (tl_batch l) (tl_game l)) [] 0 (tl_winner l)
           else l in
  l <| tl_batch_len := tl_batch_len l + len |> <| tl_batch := tl_batch l ++ [action] |>.

Definition announce_winner (now : Z) (winner : option bytes) (g : GameState)
  : option GameState :=
  match winner with
  | None => Some g
  | Some w =>
    g ← send_chat_all now (str "Game over detected! Winner: " ++ w
                             ++ str ". Game will close in 60s.") g;
    Some (g <| g_game_over_time := Some now |>)
  end.

Definition send_all_actions (now skipped : Z) (g : GameState) : option GameState :=
  let latency_ms := wrap 32 (as_millis (period (g_tick g))) in
  let elapsed := sat_mul 32 latency_ms (wrap 32 (skipped + 1)) in
  let send_interval := Z.min elapsed 65535 in
  let queued := g_actions g in
  let g := g <| g_game_ticks := wrap 32 (g_game_ticks g + elapsed) |>
             <| g_sync_counter := wrap 32 (g_sync_counter g + 1) |>
             <| g_actions := [] |> in
  let l := foldl (queue_action now) (mkLoop g [] 0 None) queued in
  g ← announce_winner now (tl_winner l) (tl_game l);
  Some (send_timeslot now send_interval (tl_batch l) g).

(** ** How the queue is cut into packets *)

(** The batches of a queue: the full ones, and the last. *)
Fixpoint batches (batch : list ActionBlock) (acts : list ActionBlock)
  : list (list ActionBlock) * list ActionBlock :=
  match acts with
  | [] => ([], batch)
  | a :: acts =>
    if (MAX_ACTION_PAYLOAD <? zlen (encode_actions_raw batch) + wire_len a)
       && negb (zlen batch =? 0)
    then let '(bs, last) := batches [a] acts in (batch :: bs, last)
    else batches (batch ++ [a]) acts
  end.

Lemma encode_actions_snoc batch a :
  zlen (encode_actions_raw (batch ++ [a])) = zlen (encode_actions_raw batch) + wire_len a.
Proof.
  unfold encode_actions_raw. rewrite map_app, concat_app, zlen_app. cbn [map concat].
  by rewrite app_nil_r, zlen_put.
Qed.

Lemma encode_actions_zlen_pos batch :
  batch ≠ [] → 0 < zlen (encode_actions_raw batch).
Proof.
  destruct batch as [|a batch]; [done|]. intros _. unfold encode_actions_raw. cbn [map concat].
  rewrite zlen_app, zlen_put. unfold wire_len. pose proof (zlen_nonneg (ab_data a)).
  pose proof (zlen_nonneg (concat (map put batch))). lia.
Qed.

(** A batch that respects the limit: at most the limit, or a single action. *)
Definition batch_ok (batch : list ActionBlock) : Prop :=
  zlen (encode_actions_raw batch) <= MAX_ACTION_PAYLOAD ∨ ∃ a, batch = [a].

Lemma batches_spec batch acts :
  batch_ok batch →
  let '(bs, last) := batches batch acts in
  concat bs ++ last = batch ++ acts ∧ Forall (λ b, batch_ok b ∧ b ≠ []) bs ∧ batch_ok last.
Proof.
  revert batch. induction acts as [|a acts IH]; intros batch Hb; cbn [batches].
  { by rewrite app_nil_r. }
  destruct (Z.ltb_spec MAX_ACTION_PAYLOAD (zlen (encode_actions_raw batch) + wire_len a)) as [Hlt|Hle];
    cbn [andb]; [destruct (Z.eqb_spec (zlen batch) 0) as [H0|H0]; cbn [negb]|].
  - destruct batch as [|x batch]; [|rewrite zlen_cons in H0; pose proof (zlen_nonneg batch); lia].
    specialize (IH [a] ltac:(right; eauto)). by destruct (batches _ _).
  - specialize (IH [a] ltac:(right; eauto)). destruct (batches [a] acts) as [bs last].
    destruct IH as (Hc & Hbs & Hl). cbn [concat]. rewrite <- app_assoc, Hc. split; [done|].
    split; [|done]. constructor; [|done]. split; [done|]. by intros ->.
  - specialize (IH (batch ++ [a]) ltac:(left; by rewrite encode_actions_snoc)).
    destruct (batches _ acts) as [bs last]. by rewrite <- app_assoc in IH.
Qed.

(** Every action is small enough for a packet of its own. *)
Definition action_ok (a : ActionBlock) : Prop := zlen (ab_data a) <= 65000.

Lemma batch_packet si batch :
  Forall action_ok batch → batch_ok batch →
  ∃ p, action_payload crc32 batch si = Ok p ∧ zlen p <= 65531.
Proof.
  intros Ha Hb. unfold action_payload.
  rewrite (proj2 (check_action_lens_ok batch)).
  2: { eapply Forall_impl; [exact Ha|]. unfold action_ok. intros; lia. }
  cbn [mbind result_bind].
  assert (zlen (encode_actions_raw batch) <= 65003) as Hz.
  { destruct Hb as [Hb|[a ->]]; [unfold MAX_ACTION_PAYLOAD in Hb; lia|].
    apply Forall_cons in Ha as [Ha _]. unfold encode_actions_raw, action_ok in *. cbn [map concat].
    rewrite app_nil_r, zlen_put. unfold wire_len. lia. }
  destruct batch; eexists; (split; [reflexivity|]); [rewrite zlen_le_bytes; lia|].
  rewrite !zlen_app, zlen_le_bytes. change (zlen [_; _]) with 2. lia.
Qed.

(** The packets of a turn. *)
Definition overflow_packet (batch : list ActionBlock) : bytes :=
  unwrap_or (incoming_action2 crc32 batch) [].
Definition timeslot_packet (send_interval : Z) (batch : list ActionBlock) : bytes :=
  unwrap_or (incoming_action crc32 batch send_interval) [].

Lemma batch_framed si batch :
  Forall action_ok batch → batch_ok batch →
  incoming_action2 crc32 batch = Ok (overflow_packet batch) ∧
  incoming_action crc32 batch si = Ok (timeslot_packet si batch).
Proof.
  intros Ha Hb. unfold overflow_packet, timeslot_packet, incoming_action2, incoming_action.
  destruct (batch_packet 0 batch Ha Hb) as (p & -> & Hp).
  destruct (batch_packet si batch Ha Hb) as (q & -> & Hq). cbn [mbind result_bind].
  destruct (encode_with_fits W3GS_HEADER ids.INCOMING_ACTION2 p Hp) as [w Hw].
  destruct (encode_with_fits W3GS_HEADER ids.INCOMING_ACTION q Hq) as [v Hv].
  unfold encode. rewrite Hw, Hv. done.
Qed.

(** ** The loop follows the batches *)

(** The packets a playing game has sent since [g] are [ps]; only players, streams,
    statistics and history have changed. *)
Record sent_since (g : GameState) (ps : list bytes) (g' : GameState) : Prop := {
  ss_playing : is_playing g' = true;
  ss_history : g_full_history g' = push_all (push := hist_push) (g_full_history g) ps;
  ss_actions : g_actions g' = g_actions g;
  ss_sync : g_sync_counter g' = g_sync_counter g;
  ss_ticks : g_game_ticks g' = g_game_ticks g;
  ss_tick : g_tick g' = g_tick g;
  ss_slots : g_slots g' = g_slots g;
  ss_players : ∃ f, g_players g' = map f (g_players g) ∧ ∀ p, inert p (f p) }.

Lemma sent_since_refl g : is_playing g = true → sent_since g [] g.
Proof. split; try done. exists id. by rewrite map_id. Qed.

Lemma sent_since_trans g ps g1 qs g2 :
  sent_since g ps g1 → sent_since g1 qs g2 → sent_since g (ps ++ qs) g2.
Proof.
  intros [? ? ? ? ? ? ? (f1 & Hf1 & Hi1)] [? ? ? ? ? ? ? (f2 & Hf2 & Hi2)]. split; try congruence.
  - unfold push_all in *. rewrite foldl_app. congruence.
  - exists (f2 ∘ f1). rewrite Hf2, Hf1, map_map. split; [done|]. intros p. etrans; [apply Hi1|apply Hi2].
Qed.

Lemma broadcast_sent now b g : is_playing g = true → sent_since g [b] (broadcast now b g).
Proof.
  intros Hp. split; unfold broadcast; rewrite Hp; try done.
  exists (deliver now b). split; [done|apply deliver_inert].
Qed.

Lemma send_batch_sent now b record g :
  is_playing g = true → sent_since g [b] (send_batch now (Ok b) record g).
Proof.
  intros Hp. unfold send_batch.
  destruct (broadcast_sent now b (with_replay record (with_relay (rh_push b) g)) Hp)
    as [H1 H2 H3 H4 H5 H6 H7 H8].
  split; [exact H1|exact H2|exact H3|exact H4|exact H5|exact H6|exact H7|exact H8].
Qed.

Lemma send_chat_all_sent now message g g' :
  is_playing g = true → send_chat_all now message g = Some g' →
  ∃ ps, (length ps <= 1)%nat ∧ sent_since g ps g'.
Proof.
  intros Hp. unfold send_chat_all. destruct (host_pid g =? 255).
  { intros [= <-]. exists []. split; [simpl; lia|by apply sent_since_refl]. }
  destruct (player_pids _) as [|pid pids].
  { intros [= <-]. exists []. split; [simpl; lia|by apply sent_since_refl]. }
  assert (in_lobby (with_relay (rh_send_chat (c_virtual_host_name (g_cfg g)) message) g) = false)
    as ->.
  { unfold is_playing in Hp. unfold in_lobby, is_lobby, is_countdown. cbn.
    by destruct (g_phase g). }
  destruct (cut_message 127 message) as [msg|]; [|done]. cbn [mbind option_bind].
  intros [= <-].
  destruct (encode _) as [b|]; cbn [broadcast_ok].
  - exists [b]. split; [done|].
    match goal with |- sent_since g _ (broadcast _ _ ?g0) =>
      destruct (broadcast_sent now b g0 Hp) as [H1 H2 H3 H4 H5 H6 H7 H8] end.
    split; [exact H1|exact H2|exact H3|exact H4|exact H5|exact H6|exact H7|exact H8].
  - exists []. split; [simpl; lia|]. split; try done. exists id. by rewrite map_id.
Qed.

(** What sees the actions touches only the statistics. *)
Definition only_observes (f : TurnLoop → TurnLoop) : Prop := ∀ l,
  tl_batch (f l) = tl_batch l ∧ tl_batch_len (f l) = tl_batch_len l ∧
  (is_playing (tl_game l) = true → sent_since (tl_game l) [] (tl_game (f l))).

Lemma observe_dota_game data : only_observes (observe_dota data).
Proof.
  intros l. unfold observe_dota. destruct (g_dota (tl_game l)) as [d|].
  - destruct (process_action data d) as [d' over].
    destruct (over && _ && _); split_and!; try done; intros Hp; split; try done; exists id;
      by rewrite map_id.
  - split_and!; try done. apply sent_since_refl.
Qed.

Lemma observe_mmd_game data : only_observes (observe_mmd data).
Proof.
  intros l. unfold observe_mmd. destruct (g_w3mmd (tl_game l)) as [m|]; split_and!; try done; [|apply sent_since_refl].
  intros Hp; split; try done; exists id; by rewrite map_id.
Qed.

Lemma observe_action_game data : only_observes (observe_action data).
Proof.
  intros l. destruct (observe_dota_game data l) as (E1 & E2 & H12). unfold observe_action.
  destruct (observe_mmd_game data (observe_dota data l)) as (E3 & E4 & H34). rewrite E3, E4. split_and!; [done|done|].
  intros Hp. specialize (H12 Hp). exact (sent_since_trans _ _ _ _ _ H12 (H34 (ss_playing _ _ _ H12))).
Qed.

Lemma loop_batches now acts l :
  is_playing (tl_game l) = true → Forall action_ok (tl_batch l) → Forall action_ok acts →
  batch_ok (tl_batch l) → tl_batch_len l = zlen (encode_actions_raw (tl_batch l)) →
  let l' := foldl (queue_action now) l acts in
  let '(bs, last) := batches (tl_batch l) acts in
  tl_batch l' = last ∧ Forall action_ok last ∧ Forall (Forall action_ok) bs ∧
  sent_since (tl_game l) (map overflow_packet bs) (tl_game l').
Proof.
  revert l. induction acts as [|a acts IH]; intros l Hp Hl Ha Hb Hlen; cbn [foldl batches].
  { split_and!; auto. by apply sent_since_refl. }
  apply Forall_cons in Ha as [Ha Has].
  destruct (observe_action_game (ab_data a) l) as (E1 & E2 & Hobs). specialize (Hobs Hp).
  remember (queue_action now l a) as x eqn:Hx. unfold queue_action in Hx. cbv zeta in Hx.
  rewrite E1, E2, Hlen in Hx. set (l1 := observe_action (ab_data a) l) in *.
  destruct ((MAX_ACTION_PAYLOAD <? zlen (encode_actions_raw (tl_batch l)) + wire_len a)
            && negb (zlen (tl_batch l) =? 0)) eqn:Hfull; cbn [tl_batch tl_batch_len] in Hx;
    specialize (IH x).
  - destruct (batch_framed 0 (tl_batch l) Hl Hb) as [Hpk _].
    set (g2 := send_overflow now (tl_batch l) (tl_game l1)) in *.
    assert (sent_since (tl_game l1) [overflow_packet (tl_batch l)] g2) as H2.
    { subst g2. unfold send_overflow. rewrite Hpk. apply send_batch_sent. apply Hobs. }
    assert (tl_batch x = [a] ∧ tl_game x = g2 ∧ tl_batch_len x = 0 + wire_len a)
      as (Ex1 & Ex2 & Ex3) by (by rewrite Hx).
    rewrite Ex1, Ex2, Ex3 in IH. destruct (batches [a] acts) as [bs last].
    destruct IH as (H1 & H3 & H4 & H5); [apply H2|by repeat constructor|done|right; eauto|..].
    { unfold encode_actions_raw. cbn [map concat]. rewrite app_nil_r, zlen_put. lia. }
    split_and!; [done|done|by constructor|].
    exact (sent_since_trans _ _ _ _ _ Hobs (sent_since_trans _ _ _ _ _ H2 H5)).
  - assert (tl_batch x = tl_batch l1 ++ [a] ∧ tl_game x = tl_game l1 ∧
            tl_batch_len x = zlen (encode_actions_raw (tl_batch l)) + wire_len a)
      as (Ex1 & Ex2 & Ex3).
    { rewrite Hx. split_and!; [done..|]. by rewrite <- Hlen, <- E2. }
    rewrite Ex1, Ex2, Ex3, E1 in IH. destruct (batches (tl_batch l ++ [a]) acts) as [bs last].
    destruct IH as (H1 & H3 & H4 & H5); [apply Hobs|apply Forall_app; by repeat constructor|done|..].
    { apply andb_false_iff in Hfull as [Hle%Z.ltb_ge|H0%negb_false_iff%Z.eqb_eq].
      - left. by rewrite encode_actions_snoc.
      - right. exists a. destruct (tl_batch l); [done|]. rewrite zlen_cons in H0.
        pose proof (zlen_nonneg l0). lia. }
    { by rewrite encode_actions_snoc. }
    split_and!; try done. exact (sent_since_trans _ _ _ _ _ Hobs H5).
Qed.

(** The interval a tick announces. *)
Definition turn_interval (g : GameState) (skipped : Z) : Z :=
  Z.min (sat_mul 32 (wrap 32 (as_millis (period (g_tick g)))) (wrap 32 (skipped + 1))) 65535.
End turns.

Lemma format_winner_short d : zlen (format_winner d) <= 10.
Proof. unfold format_winner. repeat case_match; vm_compute; congruence. Qed.

Lemma loop_winner_short `{Unicode} crc32 now acts l :
  (∀ w, tl_winner l = Some w → zlen w <= 10) →
  ∀ w, tl_winner (foldl (queue_action crc32 now) l acts) = Some w → zlen w <= 10.
Proof.
  revert l. induction acts as [|a acts IH]; intros l Hl; [done|]. cbn [foldl]. apply IH.
  intros w. unfold queue_action. cbv zeta.
  assert (∀ w, tl_winner (observe_action (ab_data a) l) = Some w → zlen w <= 10) as Ho.
  { clear w. intros w. assert (tl_winner (observe_action (ab_data a) l) = tl_winner (observe_dota (ab_data a) l)) as ->
      by (unfold observe_action, observe_mmd; by destruct (g_w3mmd _)).
    unfold observe_dota. destruct (g_dota (tl_game l)) as [d|]; [|apply Hl].
    destruct (process_action (ab_data a) d) as [d' over].
    destruct (_ && _); [|apply Hl]. cbn. intros [= <-]. apply format_winner_short. }
  destruct (_ && _); apply Ho.
Qed.

Lemma announce_winner_sent now winner g :
  is_playing g = true → (∀ w, winner = Some w → zlen w <= 10) →
  ∃ ps g', announce_winner now winner g = Some g' ∧ (length ps <= 1)%nat ∧
           sent_since g ps g' ∧ (winner = None → ps = []).
Proof.
  intros Hp Hw. destruct winner as [w|]; cbn [announce_winner].
  - set (msg := str "Game over detected! Winner: " ++ w ++ str ". Game will close in 60s.").
    assert (zlen msg <= 127) as Hm.
    { subst msg. rewrite !zlen_app. specialize (Hw w eq_refl).
      change (zlen (str "Game over detected! Winner: ")) with 28.
      change (zlen (str ". Game will close in 60s.")) with 25. lia. }
    destruct (send_chat_all_short now msg g Hm) as [g1 Hg1]. rewrite Hg1.
    destruct (send_chat_all_sent now msg g g1 Hp Hg1) as (ps & Hl & [H1 H2 H3 H4 H5 H6 H7 H8]).
    exists ps. eexists. split; [reflexivity|]. split; [done|]. split; [|done].
    split; [exact H1|exact H2|exact H3|exact H4|exact H5|exact H6|exact H7|exact H8].
  - exists [], g. split_and!; [done|simpl; lia|by apply sent_since_refl|done].
Qed.

(** C13: every tick of a playing game sends the queued actions of the players, all of them,
    in the order they came and each exactly once: in packets of at most 1452 bytes of
    actions (one action alone may be longer), the last of which carries the elapsed time
    and is sent even when there is nothing to say; the packets enter the history in that
    order, the queue is empty and the turn counter one further. *)
Theorem turn_delivers_actions `{Unicode} crc32 now skipped g :
  is_playing g = true → Forall action_ok (g_actions g) →
  let si := turn_interval g skipped in
  ∃ g' bs last chat, send_all_actions crc32 now skipped g = Some g' ∧
    concat bs ++ last = g_actions g ∧
    Forall (λ b, batch_ok b ∧ b ≠ [] ∧ incoming_action2 crc32 b = Ok (overflow_packet crc32 b)) bs ∧
    batch_ok last ∧ incoming_action crc32 last si = Ok (timeslot_packet crc32 si last) ∧
    g_full_history g' = push_all (push := hist_push) (g_full_history g)
      (map (overflow_packet crc32) bs ++ chat ++ [timeslot_packet crc32 si last]) ∧
    (length chat <= 1)%nat ∧ g_actions g' = [] ∧
    g_sync_counter g' = wrap 32 (g_sync_counter g + 1) ∧
    player_pids (g_players g') = player_pids (g_players g).
Proof.
  intros Hp Ha si. unfold send_all_actions. cbv zeta.
  set (g0 := g <| g_game_ticks := _ |> <| g_sync_counter := _ |> <| g_actions := [] |>).
  assert (is_playing g0 = true) as Hp0 by exact Hp.
  pose proof (loop_batches crc32 now (g_actions g) (mkLoop g0 [] 0 None) Hp0
    ltac:(constructor) Ha ltac:(by left) ltac:(done)) as Hloop.
  pose proof (batches_spec [] (g_actions g) ltac:(by left)) as Hbs.
  pose proof (loop_winner_short crc32 now (g_actions g) (mkLoop g0 [] 0 None) ltac:(done)) as Hw.
  cbn [tl_batch tl_game] in Hloop.
  destruct (batches [] (g_actions g)) as [bs last].
  destruct Hbs as (Hcat & Hbok & Hlok), Hloop as (Hlast & Hlact & Hbact & Hsent).
  set (l := foldl (queue_action crc32 now) (mkLoop g0 [] 0 None) (g_actions g)) in *.
  destruct (announce_winner_sent now (tl_winner l) (tl_game l)) as (chat & g1 & Hg1 & Hch & Hs1 & _);
    [apply Hsent|exact Hw|]. rewrite Hg1, Hlast. cbn [mbind option_bind].
  destruct (batch_framed crc32 si last Hlact Hlok) as [_ Hlp].
  assert (sent_since g0 (map (overflow_packet crc32) bs ++ chat ++ [timeslot_packet crc32 si last])
           (send_timeslot crc32 now si last g1)) as Hall.
  { eapply sent_since_trans; [exact Hsent|]. eapply sent_since_trans; [exact Hs1|].
    unfold send_timeslot. rewrite Hlp. apply send_batch_sent. apply Hs1. }
  eexists _, bs, last, chat. split; [reflexivity|]. change (send_timeslot crc32 now _ last g1)
    with (send_timeslot crc32 now si last g1).
  destruct Hall as [_ Hh Hact Hsync _ _ _ (f & Hf & Hi)].
  split; [exact Hcat|]. split.
  { apply Forall_forall. intros b Hb. rewrite Forall_forall in Hbok, Hbact.
    destruct (Hbok b Hb) as [H1 H2]. split_and!; [done|done|].
    by destruct (batch_framed crc32 si b (Hbact b Hb) H1). }
  split_and!; [done|done|exact Hh|done|exact Hact|exact Hsync|].
  rewrite Hf. by rewrite inert_map_pids.
Qed.

Lemma turn_delivers_actions_witness :
  is_some (send_all_actions (U := plain_unicode) (λ _, 0) 5 0 (sample_rejoin <| g_actions := [mkActionBlock 1 [7]] |>))
  = true.
Proof.
  destruct (turn_delivers_actions (H := plain_unicode) (λ _, 0) 5 0 (sample_rejoin <| g_actions := [mkActionBlock 1 [7]] |>))
    as (g' & _ & _ & _ & -> & _); [reflexivity|repeat constructor; vm_compute; congruence|reflexivity].
Defined.

(** ** The statistics *)

Section statistics.
Context `{U : Unicode} (crc32 : bytes → Z).

Lemma send_batch_stats now packet record g :
  g_w3mmd (send_batch now packet record g) = g_w3mmd g ∧ g_dota (send_batch now packet record g) = g_dota g.
Proof. destruct packet; [|done]. cbn [send_batch]. unfold broadcast. by destruct (is_playing _). Qed.

Lemma send_chat_all_stats now message g g' :
  send_chat_all now message g = Some g' → g_w3mmd g' = g_w3mmd g ∧ g_dota g' = g_dota g.
Proof.
  assert (∀ m g, g_w3mmd (broadcast_ok now m g) = g_w3mmd g ∧ g_dota (broadcast_ok now m g) = g_dota g) as Hb.
  { intros m g0. destruct m; [|done]. cbn [broadcast_ok]. unfold broadcast. by destruct (is_playing _). }
  unfold send_chat_all. destruct (_ =? 255); [by intros [= <-]|]. destruct (player_pids _); [by intros [= <-]|].
  destruct (in_lobby _); intros (msg & _ & [= <-])%bind_Some.
  - match goal with |- context [broadcast_ok now ?m ?g0] => exact (Hb m g0) end.
  - match goal with |- context [broadcast_ok now ?m ?g0] => exact (Hb m g0) end.
Qed.

Definition dota_sees (d : StatsDotA) (a : ActionBlock) : StatsDotA := (process_action (ab_data a) d).1.
Definition mmd_sees (m : W3Mmd) (a : ActionBlock) : W3Mmd := (process_mmd_action (ab_data a) m).2.

Lemma queue_action_stats now l a :
  g_w3mmd (tl_game (queue_action crc32 now l a)) = (λ m, mmd_sees m a) <$> g_w3mmd (tl_game l) ∧
  g_dota (tl_game (queue_action crc32 now l a)) = (λ d, dota_sees d a) <$> g_dota (tl_game l).
Proof.
  set (l1 := observe_action (ab_data a) l).
  assert (g_w3mmd (tl_game l1) = (λ m, mmd_sees m a) <$> g_w3mmd (tl_game l) ∧ g_dota (tl_game l1) = (λ d, dota_sees d a) <$> g_dota (tl_game l)) as [E1 E2].
  { subst l1. unfold observe_action. set (l0 := observe_dota (ab_data a) l).
    assert (g_w3mmd (tl_game l0) = g_w3mmd (tl_game l) ∧ g_dota (tl_game l0) = (λ d, dota_sees d a) <$> g_dota (tl_game l)) as [H1 H2].
    { subst l0. unfold observe_dota, dota_sees. destruct (g_dota (tl_game l)) as [d|] eqn:Ed; [|by rewrite Ed].
      cbn [fmap option_fmap option_map]. destruct (process_action (ab_data a) d) as [d' over]. by destruct (over && _ && _). }
    rewrite <- H1, <- H2. unfold observe_mmd. by destruct (g_w3mmd (tl_game l0)) as [m|] eqn:Em; rewrite ?Em. }
  rewrite <- E1, <- E2. unfold queue_action. fold l1. cbv zeta. destruct (_ && _); [|done]. apply send_batch_stats.
Qed.

Lemma loop_stats now acts l :
  g_w3mmd (tl_game (foldl (queue_action crc32 now) l acts)) = (λ m, foldl mmd_sees m acts) <$> g_w3mmd (tl_game l) ∧
  g_dota (tl_game (foldl (queue_action crc32 now) l acts)) = (λ d, foldl dota_sees d acts) <$> g_dota (tl_game l).
Proof.
  revert l. induction acts as [|a acts IH]; intros l; cbn [foldl].
  - by destruct (g_w3mmd _), (g_dota _).
  - destruct (IH (queue_action crc32 now l a)) as [-> ->]. destruct (queue_action_stats now l a) as [-> ->].
    by destruct (g_w3mmd _), (g_dota _).
Qed.

(** Every action that a tick takes from the queue is seen by both collectors, once and in order. *)
Lemma statistics_see_actions now skipped g g' :
  send_all_actions crc32 now skipped g = Some g' →
  g_w3mmd g' = (λ m, foldl mmd_sees m (g_actions g)) <$> g_w3mmd g ∧ g_dota g' = (λ d, foldl dota_sees d (g_actions g)) <$> g_dota g.
Proof.
  unfold send_all_actions. cbv zeta. intros (g1 & Hw & [= <-])%bind_Some. unfold send_timeslot.
  match goal with |- context [send_batch now ?p ?r ?g0] => destruct (send_batch_stats now p r g0) as [-> ->] end.
  match type of Hw with context [foldl (queue_action crc32 now) ?l ?acts] => destruct (loop_stats now acts l) as [E1 E2];
    rewrite <- (E1 : _ = (λ m, foldl mmd_sees m (g_actions g)) <$> g_w3mmd g), <- (E2 : _ = (λ d, foldl dota_sees d (g_actions g)) <$> g_dota g) end.
  unfold announce_winner in Hw. destruct (tl_winner _); [|by injection Hw as ->].
  apply bind_Some in Hw as (g2 & [Ha Hb]%send_chat_all_stats & [= <-]). by rewrite <- Ha, <- Hb.
Qed.
End statistics.
