(* ===== verification/Lag.v ===== *)
(** The lag screen (spectre-engine, src/lagcheck.rs): players who fall behind the game by
    more than the limit stop the clock until they are within half of it, and are dropped
    when they take too long. *)
From S2P Require Import Prelude Utf8 Text BytesExt Frame W3gs Conn Slots History Players Game CatchUp.

(** Whose turns are compared: nobody gone, rejoining or catching up. *)
Definition lag_checked (p : Player) : bool :=
  is_live p && bool_decide (p_rejoin p = RejoinNone) && negb (is_some (p_catchup_cursor p))
  && negb (p_catching_up p).

Definition turns_behind (sc : Z) (p : Player) : Z := sat_sub sc (p_sync_counter p).

(** [t.elapsed().as_millis() as u32]. *)
Definition lag_millis (now : Z) (since : option Z) : Z :=
  match since with Some t => wrap 32 (as_millis (elapsed now t)) | None => 0 end.

(** The body of the first loop. *)
Definition update_lag (now sc limit : Z) (p : Player) : Player :=
  if negb (lag_checked p) then p else
  let behind := turns_behind sc p in
  if p_lagging p then
    if behind <? limit / 2 then p <| p_lagging := false |> <| p_started_lagging := None |> else p
  else if limit <? behind then p <| p_lagging := true |> <| p_started_lagging := Some now |>
  else p.

(** Whom the loop pushes to [recovered] and to [newly_lagging]. *)
Definition recovers (sc limit : Z) (p : Player) : bool :=
  lag_checked p && p_lagging p && (turns_behind sc p <? limit / 2).
Definition falls_behind (sc limit : Z) (p : Player) : bool :=
  lag_checked p && negb (p_lagging p) && (limit <? turns_behind sc p).

Definition any_lagging (t : PlayerTable) : bool :=
  existsb p_lagging (List.filter is_human t).

(** The players shown on the lag screen. *)
Definition laggers (now : Z) (t : PlayerTable) : list (Z * Z) :=
  map (λ p, (p_pid p, lag_millis now (p_started_lagging p)))
      (List.filter (λ p, p_lagging p && is_live p) t).

Definition LAG_SCREEN_RESET : Z := 60 * SEC.

Definition send_stop_lags (now : Z) (l : list (Z * Z)) (g : GameState) : GameState :=
  foldl (λ g e, broadcast now (stop_lag e.1 e.2) g) g l.

Section lag.
Context (crc32 : bytes → Z).

(** The lag screen is taken down and put up again. *)
Definition reset_lag_screen (now : Z) (g : GameState) : GameState :=
  match laggers now (g_players g) with
  | [] => g
  | ls =>
    let g := send_stop_lags now ls g in
    let g := broadcast_ok now (incoming_action crc32 [] 0) g in
    let g := broadcast_ok now (start_lag ls) g in
    g <| g_last_lag_screen_reset := now |>
  end.

Definition raise_lag_screen (now : Z) (was_lagging : bool) (newly : list (Z * Z))
    (g : GameState) : GameState :=
  match newly with
  | [] => g
  | _ =>
    let g := broadcast_ok now (start_lag newly) g in
    if was_lagging then g else g <| g_last_lag_screen_reset := now |>
  end.

Definition check_lag (now : Z) (g : GameState) : GameState * bool :=
  let limit := c_sync_limit (g_cfg g) in
  let game_sync := g_sync_counter g in
  let was_lagging := g_lagging g in
  let t := g_players g in
  let newly := map (λ p, (p_pid p, 0)) (List.filter (falls_behind game_sync limit) t) in
  let recovered := map (λ p, (p_pid p, lag_millis now (p_started_lagging p)))
                       (List.filter (recovers game_sync limit) t) in
  let g := g <| g_players ::= map (update_lag now game_sync limit) |> in
  let g := send_stop_lags now recovered g in
  let g := raise_lag_screen now was_lagging newly g in
  let g := g <| g_lagging := any_lagging (g_players g) |> in
  let g := if g_lagging g && (LAG_SCREEN_RESET <=? elapsed now (g_last_lag_screen_reset g))
           then reset_lag_screen now g else g in
  (g, g_lagging g).
End lag.

Definition overdue (now max_lag : Z) (p : Player) : bool :=
  lag_checked p && p_lagging p && negb (is_some (p_disconnected_since p))
  && match p_started_lagging p with Some t => max_lag <=? elapsed now t | None => false end.

Definition drop_reason (max_lag : Z) : bytes :=
  str "was dropped after lagging for " ++ dec (as_secs max_lag) ++ str "s".

Definition drop_lagging_players (now max_lag : Z) (g : GameState) : GameState :=
  foldl (λ g pid, kick_player pid (drop_reason max_lag) ids.PLAYERLEAVE_DISCONNECT g) g
        (player_pids (List.filter (overdue now max_lag) (g_players g))).

(** ** The screen shows what the counters say

    The packets sent along the way change nothing about who lags. *)
Definition same_lag (g g' : GameState) : Prop :=
  ∃ f, g_players g' = map f (g_players g) ∧ (∀ p, inert p (f p)) ∧ g_lagging g' = g_lagging g ∧
       g_sync_counter g' = g_sync_counter g ∧ g_phase g' = g_phase g.

#[export] Instance same_lag_preorder : PreOrder same_lag.
Proof.
  split.
  - intros g. exists id. by rewrite map_id.
  - intros g1 g2 g3 (f1 & E1 & I1 & ? & ? & ?) (f2 & E2 & I2 & ? & ? & ?).
    exists (λ p, f2 (f1 p)). split_and!; [by rewrite E2, E1, map_map| |congruence..].
    intros p. etrans; [apply I1|apply I2].
Qed.

Lemma same_lag_broadcast now b g : same_lag g (broadcast now b g).
Proof.
  exists (deliver now b). split_and!; [apply broadcast_players|apply deliver_inert|..];
    unfold broadcast; by destruct (is_playing g).
Qed.
Lemma same_lag_broadcast_ok now m g : same_lag g (broadcast_ok now m g).
Proof. destruct m; [apply same_lag_broadcast|done]. Qed.
Lemma same_lag_stops now l g : same_lag g (send_stop_lags now l g).
Proof.
  revert g. induction l as [|e l IH]; intros g; [done|]. cbn.
  etrans; [apply same_lag_broadcast|apply IH].
Qed.
Lemma same_lag_raise now was newly g : same_lag g (raise_lag_screen now was newly g).
Proof.
  unfold raise_lag_screen. destruct newly as [|e l]; [done|].
  destruct (same_lag_broadcast_ok now (start_lag (e :: l)) g) as (f & H). exists f. by destruct was.
Qed.
Lemma same_lag_reset crc32 now g : same_lag g (reset_lag_screen crc32 now g).
Proof.
  unfold reset_lag_screen. destruct (laggers now _) as [|e l]; [done|].
  assert (same_lag g (broadcast_ok now (start_lag (e :: l)) (broadcast_ok now
    (incoming_action crc32 [] 0) (send_stop_lags now (e :: l) g)))) as (f & H); [|by exists f].
  etrans; [apply same_lag_stops|]. etrans; apply same_lag_broadcast_ok.
Qed.

Lemma any_lagging_map f t :
  (∀ p, p_lagging (f p) = p_lagging p ∧ p_virtual_host (f p) = p_virtual_host p) →
  any_lagging (map f t) = any_lagging t.
Proof.
  intros Hf. unfold any_lagging. induction t as [|p t IH]; [done|]. cbn [map List.filter].
  destruct (Hf p) as [Hl Hv]. assert (is_human (f p) = is_human p) as -> by (unfold is_human; by rewrite Hv).
  destruct (is_human p); [|done]. cbn [existsb]. by rewrite Hl, IH.
Qed.

(** How a player's lag flag follows the turns: a hysteresis between the limit and half of
    it, for those whose turns are compared. *)
Definition lag_flag (sc limit : Z) (p : Player) : bool :=
  if lag_checked p
  then if p_lagging p then negb (turns_behind sc p <? limit / 2) else limit <? turns_behind sc p
  else p_lagging p.

Lemma update_lag_spec now sc limit p :
  let p' := update_lag now sc limit p in
  p_lagging p' = lag_flag sc limit p ∧ p_pid p' = p_pid p ∧ p_virtual_host p' = p_virtual_host p ∧
  p_left p' = p_left p ∧
  (p_started_lagging p' = if p_lagging p' then if p_lagging p then p_started_lagging p else Some now
                          else if p_lagging p then if lag_checked p then None else p_started_lagging p
                               else p_started_lagging p).
Proof.
  unfold update_lag, lag_flag. destruct (lag_checked p); cbn [negb]; [|by destruct (p_lagging p)].
  destruct (p_lagging p) eqn:El; [destruct (_ <? _) eqn:E|destruct (_ <? _) eqn:E]; cbn;
    unfold const; rewrite ?El; done.
Qed.

(** C20: the answer of the lag check is whether some human player lags, and after it every
    player lags exactly as the turn counters say: a player whose turns are compared starts
    to when more than the limit behind, stops when less than half of it behind, and stays
    as they were in between; nobody else's flag moves.  The check never removes anybody
    from the table and touches neither the turn counter nor the phase. *)
Theorem check_lag_spec crc32 now g :
  let '(g', answer) := check_lag crc32 now g in
  answer = any_lagging (g_players g') ∧ g_lagging g' = answer ∧
  player_pids (g_players g') = player_pids (g_players g) ∧
  g_sync_counter g' = g_sync_counter g ∧ g_phase g' = g_phase g ∧
  ∀ pid p, by_pid pid (g_players g) = Some p →
    ∃ p', by_pid pid (g_players g') = Some p' ∧
          p_lagging p' = lag_flag (g_sync_counter g) (c_sync_limit (g_cfg g)) p.
Proof.
  unfold check_lag. set (sc := g_sync_counter g). set (limit := c_sync_limit (g_cfg g)).
  set (g0 := g <| g_players ::= map (update_lag now sc limit) |>).
  match goal with |- context [raise_lag_screen now ?w ?n ?x] =>
    set (g1 := raise_lag_screen now w n x) end.
  set (g2 := g1 <| g_lagging := any_lagging (g_players g1) |>).
  match goal with |- context [if ?b then ?x else g2] => set (g3 := if b then x else g2) end.
  assert (same_lag g0 g1) as (f1 & E1 & I1 & _ & S1 & P1)
    by (etrans; [apply same_lag_stops|apply same_lag_raise]).
  assert (same_lag g2 g3) as (f2 & E2 & I2 & L2 & S2 & P2)
    by (unfold g3; destruct (_ && _); [apply same_lag_reset|done]).
  assert (g_players g3 = map (λ p, f2 (f1 (update_lag now sc limit p))) (g_players g)) as Hpl.
  { rewrite E2. change (g_players g2) with (g_players g1). rewrite E1. 
    change (g_players g0) with (map (update_lag now sc limit) (g_players g)). by rewrite !map_map. }
  assert (∀ p, p_pid (f2 (f1 (update_lag now sc limit p))) = p_pid p ∧
               p_lagging (f2 (f1 (update_lag now sc limit p))) = lag_flag sc limit p) as Hf.
  { intros p. destruct (update_lag_spec now sc limit p) as (Hl & Hp & _).
    rewrite (in_pid _ _ (I2 _)), (in_pid _ _ (I1 _)), (in_lagging _ _ (I2 _)), (in_lagging _ _ (I1 _)).
    auto. }
  assert (g_lagging g3 = any_lagging (g_players g3)) as Hl.
  { rewrite L2, E2. change (g_lagging g2) with (any_lagging (g_players g1)).
    change (g_players g2) with (g_players g1). symmetry. apply any_lagging_map. intros p. split;
      [apply (in_lagging _ _ (I2 p))|apply (in_host _ _ (I2 p))]. }
  split; [done|]. split; [done|]. split; [rewrite Hpl; apply map_pids; intros; apply Hf|].
  split; [rewrite S2; exact S1|]. split; [rewrite P2; exact P1|].
  intros pid p Hp. exists (f2 (f1 (update_lag now sc limit p))). split; [|apply Hf].
  rewrite Hpl, by_pid_map by (intros; apply Hf). by rewrite Hp.
Qed.

(** ** Nobody can stop the clock for ever *)

Definition lag_timed (p : Player) : Prop := p_lagging p = true → p_started_lagging p ≠ None.

Lemma update_lag_timed now sc limit p : lag_timed p → lag_timed (update_lag now sc limit p).
Proof.
  unfold lag_timed. destruct (update_lag_spec now sc limit p) as (Hl & _ & _ & _ & ->). intros Ht H.
  rewrite H. destruct (p_lagging p); [by apply Ht|done].
Qed.

Lemma kick_players l reason code g :
  g_players (foldl (λ g pid, kick_player pid reason code g) g l)
  = foldl (λ t pid, by_pid_mut pid (λ p, p <| p_left := Some reason |> <| p_left_code := code |>) t)
          (g_players g) l.
Proof. revert g. induction l as [|pid l IH]; intros g; [done|]. cbn. by rewrite IH. Qed.

(** When the screen has been up for a player for the time allowed and they are
    connected, they are dropped: after the drop, whoever still stops the clock has left
    it, is waiting for a GProxy reconnection, has been behind for less than that time, or
    is not playing yet (rejoining).  Nobody else is touched. *)
Theorem drop_lagging_spec now max_lag g pid p :
  NoDup (player_pids (g_players g)) → by_pid pid (g_players g) = Some p →
  by_pid pid (g_players (drop_lagging_players now max_lag g))
  = Some (if overdue now max_lag p
          then p <| p_left := Some (drop_reason max_lag) |>
                 <| p_left_code := ids.PLAYERLEAVE_DISCONNECT |>
          else p) ∧
  (lag_timed p → p_lagging p = true → overdue now max_lag p = false →
   lag_checked p = false ∨ p_disconnected_since p ≠ None ∨
   ∃ t, p_started_lagging p = Some t ∧ elapsed now t < max_lag).
Proof.
  intros Hd Hp. split.
  - unfold drop_lagging_players. rewrite kick_players, fold_by_pid_mut; [|done|done|right; done].
    rewrite by_pid_map by (intros; by case_bool_decide). rewrite Hp. cbn. f_equal.
    assert (p_pid p ∈ player_pids (List.filter (overdue now max_lag) (g_players g))
            ↔ overdue now max_lag p = true) as Hin.
    { unfold player_pids. rewrite list_elem_of_fmap. setoid_rewrite list_elem_of_In.
      setoid_rewrite filter_In. setoid_rewrite <- list_elem_of_In. split.
      - intros (q & Eq & Hq & Ho). assert (by_pid (p_pid q) (g_players g) = Some q) as Hq'
          by by apply by_pid_elem. rewrite <- Eq, (by_pid_pid _ _ _ Hp) in Hq'. congruence.
      - intros Ho. exists p. split_and!; [done| |done].
        apply by_pid_Some in Hp as (t1 & t2 & -> & _ & _). set_solver. }
    case_bool_decide as Hb; rewrite Hin in Hb; [by rewrite Hb|].
    by destruct (overdue now max_lag p).
  - intros Ht Hl Ho. unfold overdue in Ho. rewrite Hl in Ho. specialize (Ht Hl).
    destruct (lag_checked p); [|by left]. destruct (p_disconnected_since p); [by right; left|].
    destruct (p_started_lagging p) as [t|]; [|done]. right. right. exists t. split; [done|].
    cbn in Ho. by apply Z.leb_gt in Ho.
Qed.

Definition sample_lag : GameState :=
  sample_rejoin <| g_players := [sample_player 1;
    (sample_player 2) <| p_lagging := true |> <| p_started_lagging := Some 5 |>] |>.

Lemma drop_lagging_spec_witness :
  p_left <$> by_pid 2 (g_players (drop_lagging_players (70 * SEC) (60 * SEC) sample_lag))
  = Some (Some (drop_reason (60 * SEC))).
Proof.
  assert (NoDup (player_pids (g_players sample_lag))) as Hd
    by (apply (bool_decide_unpack _); vm_compute; reflexivity).
  destruct (drop_lagging_spec (70 * SEC) (60 * SEC) sample_lag 2
    ((sample_player 2) <| p_lagging := true |> <| p_started_lagging := Some 5 |>) Hd eq_refl) as [-> _].
  reflexivity.
Defined.
