(* ===== verification/Phases.v ===== *)
(** From the lobby to the game and out of it (spectre-engine, src/actions.rs:
    [handle_loaded], [begin_loading], [begin_playing], [toggle_fake_player]; src/state.rs:
    [reap_left_players]).  [fmt_secs] is Rust's formatting of a duration in seconds with
    two decimals ([{:.2}] of an [f64]). *)
From S2P Require Import Prelude Utf8 Text BytesExt Frame W3gs DotaTv Conn Slots Hcl History Players.
From S2P Require Import ReplayBody Relay Tick Game CatchUp.

(** ** Starting to play *)

(** The player's loading time, in nanoseconds. *)
Definition load_time (started : Z) (p : Player) : Z :=
  match p_finished_loading_at p with Some t => sat_sub t started | None => 0 end.

(** The scan for the shortest ([lt] is [<]) or longest ([>]) loading time. *)
Definition best_load (better : Z → Z → bool) (started : Z) (ps : list Player)
  : option (bytes * Z) :=
  foldl (λ best p, let t := load_time started p in
                   match best with
                   | Some (_, b) => if better t b then Some (p_name p, t) else best
                   | None => Some (p_name p, t)
                   end) None ps.

Definition host_name (g : GameState) : bytes :=
  let host := host_pid g in
  if negb (g_virtual_host_pid g =? 255) && (host =? g_virtual_host_pid g)
  then c_virtual_host_name (g_cfg g)
  else match by_pid host (g_players g) with
       | Some p => p_name p
       | None => c_virtual_host_name (g_cfg g)
       end.

Definition game_snapshot (g : GameState) : GameStartSnapshot :=
  let m := c_map (g_cfg g) in
  {| sn_game_name := c_name (g_cfg g); sn_map_path := m_path m; sn_map_size := m_size m;
     sn_map_info_crc := m_info m; sn_map_crc := m_crc m; sn_map_sha1 := m_sha1 m;
     sn_stat_string := encode_statstring (map_stat_raw (g_cfg g) ++ [0] ++ m_sha1 m);
     sn_random_seed := g_random_seed g; sn_layout_style := m_layout_style m;
     sn_player_slots := m_num_players m; sn_war3_version := 26; sn_is_tft := true;
     sn_slots := g_slots g |}.

(** The slot data of a player, as the relay is told. *)
Definition relay_player (slots : SlotTable) (p : Player) : RelayHandle → RelayHandle :=
  match List.find (λ s, pid s =? p_pid p) slots with
  | Some s => send_player_info (p_pid p) (p_name p) (colour s) (team s) (race s)
  | None => send_player_info (p_pid p) (p_name p) 0 0 32
  end.

Section phases.
Context (fmt_secs : Z → bytes).

Definition report_load_times (now started : Z) (g : GameState) : option GameState :=
  let humans := iter_humans (g_players g) in
  g ← match best_load Z.ltb started humans, best_load Z.gtb started humans with
      | Some (s_name, s_time), Some (l_name, l_time) =>
        g ← send_chat_all now (str "Shortest load by player [" ++ s_name ++ str "] was "
                                 ++ fmt_secs s_time ++ str " seconds.") g;
        send_chat_all now (str "Longest load by player [" ++ l_name ++ str "] was "
                             ++ fmt_secs l_time ++ str " seconds.") g
      | _, _ => Some g
      end;
  foldl (λ og p, g ← og;
           send_chat_to now (p_pid p) (str "Your loading time was "
             ++ fmt_secs (load_time started p) ++ str " seconds.") g)
        (Some g) humans.

Definition begin_playing (now : Z) (g : GameState) : option GameState :=
  let g := g <| g_phase := Playing |> in
  let started_at := g_started_loading_at g in
  let g := g <| g_started_loading_at := None |>
             <| g_players ::= map (λ p, p <| p_loaded := true |> <| p_sync_counter := 0 |>
                                          <| p_checksums := [] |>) |>
             <| g_sync_counter := 0 |> <| g_game_ticks := 0 |> in
  g ← match started_at with
      | Some started => report_load_times now started g
      | None => Some g
      end;
  let humans := iter_humans (g_players g) in
  let m := c_map (g_cfg g) in
  let g := with_replay (λ rep,
             (set_start (as_wire_bytes (g_slots g)) (g_random_seed g) (m_layout_style m)
                (m_num_players m)
                (foldl (λ r p, add_player (p_pid p) (p_name p) r)
                       (set_host (host_pid g) (host_name g) rep) humans)).1) g in
  Some (with_relay (λ h, foldl (λ h p, relay_player (g_slots g) p h)
                               (send_game_start (game_snapshot g) h) humans) g).

Definition all_loaded (t : PlayerTable) : bool := forallb p_loaded t.

(** The game mode goes into the handicaps. *)
Definition put_hcl (now : Z) (g : GameState) : GameState :=
  match g_hcl g with
  | Some hcl =>
    let '(slots, ok) := encode_hcl_into_slots hcl (g_slots g) in
    let g := g <| g_slots := slots |> in
    if ok then send_all_slot_info now g else g
  | None => g
  end.

Definition begin_loading (now : Z) (g : GameState) : option GameState :=
  let g := g <| g_phase := Loading |> <| g_started_loading_at := Some now |>
             <| g_start_players := human_count (g_players g) |> in
  let g := put_hcl now g in
  let g := broadcast now countdown_start g in
  let g := delete_virtual_host now g in
  let g := broadcast now countdown_end g in
  let g := match g_fake_player_pid g with
           | Some fpid =>
             broadcast now (game_loaded_others fpid)
               (g <| g_players ::= by_pid_mut fpid (λ p, p <| p_loaded := true |>) |>)
           | None => g
           end in
  if all_loaded (g_players g) then begin_playing now g else Some g.

(** ** Loaded *)

Definition handle_loaded (now conn_id : Z) (g : GameState) : option GameState :=
  match by_conn conn_id (g_players g) with
  | None => Some g
  | Some p =>
    let pid := p_pid p in
    if bool_decide (p_rejoin <$> by_pid pid (g_players g) = Some AwaitingLoaded) then
      let start_seq := first_seq (g_full_history g) in
      if 0 <? start_seq then
        Some (g <| g_players ::= by_pid_mut pid (λ p, p <| p_rejoin := RejoinNone |>
          <| p_left := Some (str "cannot rejoin: game history too long to replay") |>
          <| p_left_code := ids.PLAYERLEAVE_DISCONNECT |>) |>)
      else
        let others := player_pids (List.filter (λ q, negb (p_pid q =? pid) && is_live q)
                                               (g_players g)) in
        let g := foldl (λ g opid, send_to now pid (game_loaded_others opid) g) g others in
        let g := g <| g_players ::= by_pid_mut pid (λ p, p <| p_loaded := true |>
                   <| p_rejoin := RejoinNone |> <| p_catchup_cursor := Some start_seq |>
                   <| p_catching_up := true |>) |> in
        Some (broadcast now (game_loaded_others pid) g)
    else
      let g := g <| g_players ::= by_pid_mut pid (λ p, p <| p_loaded := true |>
                                     <| p_finished_loading_at := Some now |>) |> in
      let g := broadcast now (game_loaded_others pid) g in
      if all_loaded (g_players g) then begin_playing now g else Some g
  end.

(** ** Leaving *)

Definition ip_text (ip : bytes) : bytes :=
  let at_ i := dec (default 0 (ip !! i)) in
  at_ 0%nat ++ str "." ++ at_ 1%nat ++ str "." ++ at_ 2%nat ++ str "." ++ at_ 3%nat.

(** The body of the loop over the players who are gone. *)
Definition reap_player (now : Z) (g : GameState) (gone : Z * Z) : GameState :=
  let '(pid, left_code) := gone in
  let g := match by_pid pid (g_players g) with
           | Some p => g <| g_last_player_left := Some (p_name p, ip_text (p_external_ip p)) |>
           | None => g
           end in
  let g := with_replay (if is_loading g then add_leaver_loading pid 1 left_code
                        else add_leaver pid 1 left_code) g in
  let g := g <| g_players ::= remove_pid pid |>
             <| g_slots ::= λ t, (release pid t).1 |> in
  let g := broadcast now (player_leave_others pid left_code) g in
  if is_lobby g then send_all_slot_info now g else g.

Definition gone_players (t : PlayerTable) : list (Z * Z) :=
  map (λ p, (p_pid p, p_left_code p)) (List.filter (λ p, is_human p && has_left p) t).

Definition reap_left_players (now : Z) (g : GameState) : option GameState :=
  match gone_players (g_players g) with
  | [] => Some g
  | gone =>
    g ← if is_countdown g
        then send_chat_all now (str "Countdown aborted.") (g <| g_phase := Lobby |>)
        else Some g;
    let g := g <| g_last_player_left_time := Some now |> in
    let g := foldl (reap_player now) g gone in
    if is_loading g && negb (zlen (g_players g) =? 0)
       && forallb p_loaded (iter_humans (g_players g))
    then begin_playing now g else Some g
  end.

(** ** The fake player

    The task that drains its link runs between the turns of the loop, as the writers of the other
    links do ([Dispatch.LinkWrites]). *)

Definition toggle_fake_player (now : Z) (g : GameState) : GameState * option bytes :=
  if negb (is_lobby g) then (g, None) else
  match g_fake_player_pid g with
  | Some fpid =>
    let g := g <| g_fake_player_pid := None |> <| g_players ::= remove_pid fpid |>
               <| g_slots ::= λ t, (release fpid t).1 |> in
    let g := broadcast now (player_leave_others fpid ids.PLAYERLEAVE_LOBBY) g in
    (send_all_slot_info now g, Some (str "Fake player removed."))
  | None =>
    match next_free_pid (g_players g), first_open (g_slots g) with
    | Some fpid, Some slot_idx =>
      let p := (new_player fpid (str "FakePlayer") 0 (new_chan 128)) <| p_loaded := true |> in
      let g := g <| g_players ::= insert_player p |>
                 <| g_slots ::= λ t, (occupy_slot slot_idx fpid t).1 |>
                 <| g_fake_player_pid := Some fpid |> in
      let g := broadcast_ok now (player_info fpid (str "FakePlayer") [0; 0; 0; 0] [0; 0; 0; 0]) g in
      (send_all_slot_info now g, Some (str "Fake player added."))
    | _, _ => (g, None)
    end
  end.
End phases.
