(* ===== verification/MapXfer.v ===== *)
(** Map downloads and the lobby's pings (spectre-engine, src/mapxfer.rs).  [crc32] is the
    checksum of the crc32fast package; the statistics of finished downloads go to the
    database and are left out. *)
From S2P Require Import Prelude Utf8 Text Store BytesExt Frame W3gs Conn Slots History Players.
From S2P Require Import ReplayBody Relay Tick Game CatchUp Phases.

Definition MAP_CHUNK : Z := 1442.

Definition new_download (pid now : Z) : Download := mkDownload pid 0 0 now.

(** [iter_mut().find(|d| d.pid == pid)]. *)
Fixpoint update_download (pid : Z) (f : Download → Download) (ds : list Download)
  : list Download :=
  match ds with
  | [] => []
  | d :: ds => if dl_pid d =? pid then f d :: ds else d :: update_download pid f ds
  end.

(** [((pos as u64 * 100) / total as u64).min(100) as u8]. *)
Definition percent (pos total : Z) : Z := Z.min (pos * 100 / total) 100.

Section map_size.
Context (fmt_secs : Z → bytes).

Definition handle_map_size (now conn_id : Z) (payload : bytes) (g : GameState)
  : option GameState :=
  match p_pid <$> by_conn conn_id (g_players g) with
  | None => Some g
  | Some pid =>
    if bool_decide (p_rejoin <$> by_pid pid (g_players g) = Some AwaitingMapSize) then
      let g := send_to now pid countdown_start g in
      let g := send_to now pid countdown_end g in
      Some (g <| g_players ::= by_pid_mut pid (λ p, p <| p_rejoin := AwaitingLoaded |>) |>)
    else
    match MapSizeReport_decode payload with
    | Err _ => Some g
    | Ok report =>
      if m_size (c_map (g_cfg g)) <=? map_size report then
        Some (g <| g_players ::= by_pid_mut pid (λ p, p <| p_download_status := 100 |>) |>)
      else if negb (is_some (m_data (c_map (g_cfg g)))) || (c_allow_downloads (g_cfg g) =? 0) then
        reap_left_players fmt_secs now
          (kick_player pid (str "lacks map and downloads are disabled")
                       ids.PLAYERLEAVE_DISCONNECT g)
      else if (c_allow_downloads (g_cfg g) =? 2)
              && negb (default false (p_download_allowed <$> by_pid pid (g_players g))) then
        Some g
      else if existsb (λ d, dl_pid d =? pid) (g_downloads g) then Some g
      else
        let host := host_pid g in
        let d := (new_download pid now) <| dl_sent_upto := map_size report |>
                                        <| dl_acked_upto := map_size report |> in
        Some (send_to now pid (start_download host) (g <| g_downloads ::= λ ds, ds ++ [d] |>))
    end
  end.
End map_size.

Definition handle_map_part_ok (conn_id : Z) (payload : bytes) (g : GameState) : GameState :=
  match p_pid <$> by_conn conn_id (g_players g), decode_map_part_ok payload with
  | Some pid, Ok acked =>
    let total := Z.max (m_size (c_map (g_cfg g))) 1 in
    g <| g_downloads ::= update_download pid (λ d, d <| dl_acked_upto := acked |>) |>
      <| g_players ::= by_pid_mut pid (λ p, p <| p_download_status := percent acked total |>) |>
  | _, _ => g
  end.

Definition handle_map_part_not_ok (conn_id : Z) (payload : bytes) (g : GameState) : GameState :=
  match p_pid <$> by_conn conn_id (g_players g), decode_map_part_not_ok payload with
  | Some pid, Ok nack_pos =>
    let total := Z.max (m_size (c_map (g_cfg g))) 1 in
    g <| g_downloads ::= update_download pid (λ d, d <| dl_sent_upto := nack_pos |>
                                                     <| dl_acked_upto := nack_pos |>) |>
      <| g_players ::= by_pid_mut pid (λ p, p <| p_download_status := percent nack_pos total |>) |>
  | _, _ => g
  end.

Definition autokick_reason (avg limit : Z) : bytes :=
  str "autokicked for high ping (" ++ dec avg ++ str "ms > " ++ dec limit ++ str "ms)".

(** Whether the pings of a player in the lobby are too high, with the average. *)
Definition ping_too_high (g : GameState) (p : Player) : option Z :=
  if is_lobby g && negb (p_reserved p) && (0 <? c_autokick_ping (g_cfg g))
     && (3 <=? zlen (p_ping_history p))
  then match average_ping p with
       | Some avg => if c_autokick_ping (g_cfg g) <? avg then Some avg else None
       | None => None
       end
  else None.

Definition handle_pong (now conn_id : Z) (payload : bytes) (g : GameState) : GameState :=
  match decode_pong_to_host payload with
  | Err _ => g
  | Ok pong =>
    if pong =? 1 then g else
    let ms := wrap 32 (as_millis (elapsed now (g_created_at g))) in
    let latency_raw := sat_sub ms pong in
    let ping := if c_lc_pings (g_cfg g) then latency_raw / 2 else latency_raw in
    let g := g <| g_players ::= by_conn_mut conn_id (record_ping ping) |> in
    match by_conn conn_id (g_players g) with
    | None => g
    | Some p =>
      match ping_too_high g p with
      | Some avg => kick_player (p_pid p) (autokick_reason avg (c_autokick_ping (g_cfg g)))
                                ids.PLAYERLEAVE_DISCONNECT g
      | None => g
      end
    end
  end.

Definition handle_drop_request (g : GameState) : GameState :=
  if negb (g_lagging g) then g else
  foldl (λ g pid, kick_player pid (str "was dropped by vote") ids.PLAYERLEAVE_DISCONNECT g) g
        (player_pids (List.filter (λ p, p_lagging p && negb (has_left p)) (g_players g))).

(** ** Sending the map *)

Section pump.
Context (crc32 : bytes → Z).

(** What the loop over the downloads carries: the bytes sent in this second and the
    packets built so far, with whom they are for. *)
Record Pump := mkPump { pu_counter : Z; pu_packets : list (Z * bytes) }.

Definition burst_limit (d : Download) : Z := sat_add 32 (dl_acked_upto d) (MAP_CHUNK * 100).

(** The [while] loop of one download; [None] when the fuel runs out. *)
Fixpoint pump_parts (fuel : nat) (host : Z) (data : bytes) (max_speed : Z) (d : Download)
    (pu : Pump) : option (Download * Pump) :=
  let total := wrap 32 (zlen data) in
  if negb ((dl_sent_upto d <? burst_limit d) && (dl_sent_upto d <? total)) then Some (d, pu)
  else if (0 <? max_speed) && (max_speed <=? pu_counter pu) then Some (d, pu)
  else
    let start := dl_sent_upto d in
    let end_ := Z.min (start + MAP_CHUNK) (zlen data) in
    let chunk := take (Z.to_nat (end_ - start)) (drop (Z.to_nat start) data) in
    match map_part crc32 host (dl_pid d) start chunk with
    | Err _ => Some (d, pu)
    | Ok b =>
      match fuel with
      | O => None
      | S fuel =>
        pump_parts fuel host data max_speed (d <| dl_sent_upto := wrap 32 end_ |>)
                   (mkPump (pu_counter pu + (end_ - start)) (pu_packets pu ++ [(dl_pid d, b)]))
      end
    end.

Definition parts_fuel (data : bytes) : nat := S (Z.to_nat (zlen data / MAP_CHUNK)).

(** The [for] loop; [count] counts the players who are still downloading. *)
Fixpoint pump_all (host : Z) (data : bytes) (max_downloaders max_speed count : Z)
    (ds : list Download) (pu : Pump) : option (list Download * Pump) :=
  match ds with
  | [] => Some ([], pu)
  | d :: ds =>
    if wrap 32 (zlen data) <=? dl_acked_upto d then
      '(ds, pu) ← pump_all host data max_downloaders max_speed count ds pu; Some (d :: ds, pu)
    else
      let count := count + 1 in
      if (0 <? max_downloaders) && (max_downloaders <? count) then Some (d :: ds, pu) else
      '(d, pu) ← pump_parts (parts_fuel data) host data max_speed d pu;
      '(ds, pu) ← pump_all host data max_downloaders max_speed count ds pu;
      Some (d :: ds, pu)
  end.

(** A transfer that is complete is recorded in the database. *)
Definition record_finished (now total : Z) (g : GameState) (d : Download) : GameState :=
  match by_pid (dl_pid d) (g_players g) with
  | Some p => with_store (record_download (m_path (c_map (g_cfg g))) (m_size (c_map (g_cfg g)))
                (p_name p) (ip_text (p_external_ip p)) (if p_spoofed p then 1 else 0) total
                (as_secs (elapsed now (dl_started d)))) g
  | None => g
  end.

Definition pump_downloads (now : Z) (g : GameState) : option GameState :=
  if negb (is_lobby g) then Some g else
  match m_data (c_map (g_cfg g)) with
  | None => Some (g <| g_downloads := [] |>)
  | Some data =>
    let total := wrap 32 (zlen data) in
    let g := if SEC <=? elapsed now (g_last_download_counter_reset g)
             then g <| g_download_counter := 0 |> <| g_last_download_counter_reset := now |>
             else g in
    '(ds, pu) ← pump_all (host_pid g) data (c_max_downloaders (g_cfg g))
                         (c_max_download_speed (g_cfg g) * 1024) 0 (g_downloads g)
                         (mkPump (g_download_counter g) []);
    let g := g <| g_download_counter := pu_counter pu |> in
    let g := foldl (record_finished now total) g
               (List.filter (λ d, total <=? dl_acked_upto d) ds) in
    let g := g <| g_downloads := List.filter (λ d, negb (total <=? dl_acked_upto d)) ds |> in
    Some (foldl (λ g e, send_to now e.1 e.2 g) g (pu_packets pu))
  end.
End pump.

(** ** What one download receives *)

Section transfer.
Context (crc32 : bytes → Z).

(** The pieces of the map from [start], as they are framed. *)
Fixpoint part_packets (host pid start : Z) (chunks : list bytes) : list (Z * bytes) :=
  match chunks with
  | [] => []
  | c :: chunks =>
    match map_part crc32 host pid start c with
    | Ok b => [(pid, b)]
    | Err _ => []
    end ++ part_packets host pid (start + zlen c) chunks
  end.

Lemma map_part_fits host pid start c :
  zlen c <= MAP_CHUNK → ∃ b, map_part crc32 host pid start c = Ok b.
Proof.
  unfold MAP_CHUNK. intros Hc. apply encode_with_fits.
  change (zlen ([pid; host] ++ le_bytes 4 1 ++ le_bytes 4 start ++ le_bytes 4 (crc32 c) ++ c)
          <= 65531). zlen_lia.
Qed.

Lemma zlen_chunk (data : bytes) a b :
  0 <= a <= b → b <= zlen data →
  zlen (take (Z.to_nat (b - a)) (drop (Z.to_nat a) data)) = b - a.
Proof. intros. unfold zlen in *. rewrite length_take, length_drop. lia. Qed.

(** Everything the loop does to one download. *)
Lemma pump_parts_spec fuel host data max_speed d pu :
  zlen data < 2 ^ 32 → 0 <= dl_sent_upto d →
  zlen data - dl_sent_upto d <= Z.of_nat fuel * MAP_CHUNK →
  ∃ d' pu' chunks, pump_parts crc32 fuel host data max_speed d pu = Some (d', pu') ∧
    (dl_pid d', dl_acked_upto d', dl_started d') = (dl_pid d, dl_acked_upto d, dl_started d) ∧
    pu_packets pu' = pu_packets pu ++ part_packets host (dl_pid d) (dl_sent_upto d) chunks ∧
    pu_counter pu' = pu_counter pu + zlen (concat chunks) ∧
    dl_sent_upto d' = dl_sent_upto d + zlen (concat chunks) ∧
    (chunks ≠ [] → concat chunks = take (Z.to_nat (dl_sent_upto d' - dl_sent_upto d))
                                       (drop (Z.to_nat (dl_sent_upto d)) data)) ∧
    Forall (λ c, 0 < zlen c <= MAP_CHUNK) chunks ∧
    dl_sent_upto d' <= Z.max (dl_sent_upto d)
                             (Z.min (zlen data) (burst_limit d + MAP_CHUNK - 1)) ∧
    (0 < max_speed → pu_counter pu' <= Z.max (pu_counter pu) (max_speed + MAP_CHUNK - 1)) ∧
    (dl_sent_upto d' < burst_limit d → dl_sent_upto d' < zlen data →
     0 < max_speed <= pu_counter pu').
Proof.
  intros Hlen. assert (wrap 32 (zlen data) = zlen data) as Htot
    by (apply wrap_small; unfold uN; pose proof (zlen_nonneg data); lia).
  revert d pu. induction fuel as [|fuel IH]; intros d pu Hs Hf; cbn [pump_parts]; rewrite Htot.
  { exists d, pu, []. rewrite (proj2 (Z.ltb_ge (dl_sent_upto d) (zlen data))) by (unfold MAP_CHUNK in *; lia).
    rewrite andb_false_r. cbn. rewrite app_nil_r. change (zlen []) with 0.
    split_and!; try done; unfold MAP_CHUNK in *; lia. }
  destruct (Z.ltb_spec (dl_sent_upto d) (burst_limit d)) as [Hb|Hb]; cbn [andb negb]; cycle 1.
  { exists d, pu, []. cbn. rewrite app_nil_r. change (zlen []) with 0. split_and!; try done; lia. }
  destruct (Z.ltb_spec (dl_sent_upto d) (zlen data)) as [Hl|Hl]; cbn [negb]; cycle 1.
  { exists d, pu, []. cbn. rewrite app_nil_r. change (zlen []) with 0. split_and!; try done; lia. }
  destruct ((0 <? max_speed) && (max_speed <=? pu_counter pu)) eqn:Hsp.
  { apply andb_true_iff in Hsp as [?%Z.ltb_lt ?%Z.leb_le].
    exists d, pu, []. cbn. rewrite app_nil_r. change (zlen []) with 0. split_and!; try done; lia. }
  set (start := dl_sent_upto d) in *. set (end_ := Z.min (start + MAP_CHUNK) (zlen data)).
  set (c := take (Z.to_nat (end_ - start)) (drop (Z.to_nat start) data)).
  assert (start < end_ <= zlen data ∧ end_ <= start + MAP_CHUNK) as He by (unfold end_, MAP_CHUNK; lia).
  assert (zlen c = end_ - start) as Hc by (apply zlen_chunk; lia).
  destruct (map_part_fits host (dl_pid d) start c ltac:(lia)) as [b Hm]. rewrite Hm.
  rewrite (wrap_small 32 end_) by (unfold uN; lia).
  destruct (IH (d <| dl_sent_upto := end_ |>)
               (mkPump (pu_counter pu + (end_ - start)) (pu_packets pu ++ [(dl_pid d, b)])))
    as (d' & pu' & cs & Hrun & Hsame & Hpk & Hcnt & Hsent & Hcat & Hsz & Hup & Hspd & Hend).
  { cbn. unfold const. lia. }
  { cbn. unfold const, end_, MAP_CHUNK in *. lia. }
  change (burst_limit (d <| dl_sent_upto := end_ |>)) with (burst_limit d) in *.
  cbn in Hsame, Hpk, Hcnt, Hsent, Hcat, Hup, Hspd, Hend. unfold const in *.
  exists d', pu', (c :: cs). cbn [part_packets concat]. rewrite Hm, zlen_app, Hc.
  replace (start + (end_ - start)) with end_ by lia.
  pose proof (zlen_nonneg (concat cs)) as Hnn.
  split_and!.
  - exact Hrun.
  - exact Hsame.
  - rewrite Hpk, <- app_assoc. done.
  - lia.
  - lia.
  - intros _. destruct cs as [|c' cs].
    + cbn in Hsent. change (zlen []) with 0 in Hsent. cbn. rewrite app_nil_r. unfold c. f_equal. lia.
    + rewrite Hcat by done. unfold c.
      replace (Z.to_nat (dl_sent_upto d' - start))
        with (Z.to_nat (end_ - start) + Z.to_nat (dl_sent_upto d' - end_))%nat by lia.
      rewrite <- take_take_drop, drop_drop. do 3 f_equal. lia.
  - constructor; [lia|exact Hsz].
  - unfold MAP_CHUNK in *. lia.
  - intros H0. specialize (Hspd H0). apply andb_false_iff in Hsp as [?%Z.ltb_ge|?%Z.leb_gt];
      unfold MAP_CHUNK in *; lia.
  - exact Hend.
Qed.
(** A client that acknowledges whatever it was sent before the next second starts. *)
Fixpoint transfer (rounds : nat) (host : Z) (data : bytes) (max_speed : Z) (d : Download)
  : option (Download * list (Z * bytes)) :=
  match rounds with
  | O => Some (d, [])
  | S rounds =>
    '(d, pu) ← pump_parts crc32 (parts_fuel data) host data max_speed d (mkPump 0 []);
    '(d, later) ← transfer rounds host data max_speed (d <| dl_acked_upto := dl_sent_upto d |>);
    Some (d, pu_packets pu ++ later)
  end.

Lemma part_packets_app host pid start cs1 cs2 :
  part_packets host pid start (cs1 ++ cs2)
  = part_packets host pid start cs1 ++ part_packets host pid (start + zlen (concat cs1)) cs2.
Proof.
  revert start. induction cs1 as [|c cs1 IH]; intros start; cbn [app part_packets concat].
  - change (zlen []) with 0. by rewrite Z.add_0_r.
  - rewrite IH, <- app_assoc, zlen_app. do 3 f_equal. lia.
Qed.

Lemma parts_fuel_enough data s :
  0 <= s → zlen data - s <= Z.of_nat (parts_fuel data) * MAP_CHUNK.
Proof.
  unfold parts_fuel. pose proof (zlen_nonneg data). pose proof (Z.mod_pos_bound (zlen data) MAP_CHUNK ltac:(done)).
  pose proof (Z.div_mod (zlen data) MAP_CHUNK ltac:(done)).
  pose proof (Z.div_pos (zlen data) MAP_CHUNK ltac:(lia) ltac:(done)). intros.
  rewrite Nat2Z.inj_succ, Z2Nat.id by lia. unfold MAP_CHUNK in *. lia.
Qed.

Lemma transfer_spec rounds host data max_speed d :
  zlen data < 2 ^ 32 → 0 <= max_speed → 0 <= dl_sent_upto d <= zlen data →
  dl_acked_upto d = dl_sent_upto d →
  ∃ d' chunks, transfer rounds host data max_speed d
               = Some (d', part_packets host (dl_pid d) (dl_sent_upto d) chunks) ∧
    dl_pid d' = dl_pid d ∧ dl_acked_upto d' = dl_sent_upto d' ∧
    concat chunks = take (Z.to_nat (dl_sent_upto d' - dl_sent_upto d))
                         (drop (Z.to_nat (dl_sent_upto d)) data) ∧
    Forall (λ c, 0 < zlen c <= MAP_CHUNK) chunks ∧
    Z.min (zlen data) (dl_sent_upto d + Z.of_nat rounds) <= dl_sent_upto d' <= zlen data.
Proof.
  intros Hlen Hm. revert d. induction rounds as [|rounds IH]; intros d Hs Ha; cbn [transfer].
  { exists d, []. rewrite Z.sub_diag. split_and!; try done; lia. }
  destruct (pump_parts_spec (parts_fuel data) host data max_speed d (mkPump 0 []) Hlen
              (proj1 Hs) (parts_fuel_enough _ _ (proj1 Hs)))
    as (d1 & pu & cs & -> & [= E1 E2 _] & Hpk & Hcnt & Hsent & Hcat & Hsz & Hup & _ & Hend).
  cbn [pu_counter pu_packets] in *. cbn [mbind option_bind].
  pose proof (zlen_nonneg (concat cs)) as Hnn.
  assert (dl_sent_upto d1 <= zlen data) as Hd1 by lia.
  assert (Z.min (zlen data) (dl_sent_upto d + 1) <= dl_sent_upto d1) as Hprog.
  { unfold burst_limit, sat_add, MAP_CHUNK in Hend. lia. }
  destruct (IH (d1 <| dl_acked_upto := dl_sent_upto d1 |>)) as (d' & cs' & -> & Hp & Hak & Hc & Hf & Hr).
  { cbn. lia. }
  { done. }
  cbn in Hp, Hc, Hr. exists d', (cs ++ cs'). cbn [mbind option_bind].
  assert (concat cs = take (Z.to_nat (dl_sent_upto d1 - dl_sent_upto d))
                           (drop (Z.to_nat (dl_sent_upto d)) data)) as Hcat'.
  { destruct cs as [|c cs]; [|by apply Hcat]. cbn in Hsent. change (zlen []) with 0 in Hsent.
    by replace (dl_sent_upto d1 - dl_sent_upto d) with 0 by lia. }
  split_and!.
  - rewrite Hpk, part_packets_app, <- Hsent. cbn. by rewrite E1.
  - congruence.
  - done.
  - rewrite concat_app, Hc, Hcat'.
    replace (Z.to_nat (dl_sent_upto d' - dl_sent_upto d))
      with (Z.to_nat (dl_sent_upto d1 - dl_sent_upto d)
            + Z.to_nat (dl_sent_upto d' - dl_sent_upto d1))%nat by lia.
    rewrite <- take_take_drop, drop_drop. do 3 f_equal. lia.
  - by apply Forall_app.
  - lia.
  - lia.
Qed.
End transfer.

(** C21: whatever the speed limit, a client that has the first [start] bytes of the map and
    acknowledges what it gets ends up with all of it: every second the host sends some
    more, until nothing is missing; the parts are at most 1442 bytes, framed with their
    offsets, follow one another without gap or repetition, and put together they are
    exactly the rest of the file. *)
Theorem map_transfer_complete crc32 rounds host data max_speed d :
  zlen data < 2 ^ 32 → 0 <= max_speed → 0 <= dl_sent_upto d <= zlen data →
  dl_acked_upto d = dl_sent_upto d → zlen data <= Z.of_nat rounds →
  ∃ d' chunks, transfer crc32 rounds host data max_speed d
               = Some (d', part_packets crc32 host (dl_pid d) (dl_sent_upto d) chunks) ∧
    dl_acked_upto d' = zlen data ∧ concat chunks = drop (Z.to_nat (dl_sent_upto d)) data ∧
    Forall (λ c, 0 < zlen c <= MAP_CHUNK) chunks.
Proof.
  intros Hlen Hm Hs Ha Hr.
  destruct (transfer_spec crc32 rounds host data max_speed d Hlen Hm Hs Ha)
    as (d' & cs & Hrun & Hp & Hak & Hc & Hf & Hb).
  assert (dl_sent_upto d' = zlen data) as E by lia.
  exists d', cs. split_and!; [done|congruence| |done].
  rewrite Hc, take_ge; [done|]. rewrite length_drop. unfold zlen in *. lia.
Qed.

Lemma map_transfer_complete_witness :
  ∃ d' chunks, transfer (λ _, 0) 10 1 (replicate 10 5) 1 (mkDownload 2 4 4 0)
               = Some (d', part_packets (λ _, 0) 1 2 4 chunks) ∧
    dl_acked_upto d' = 10 ∧ concat chunks = replicate 6 5.
Proof.
  destruct (map_transfer_complete (λ _, 0) 10 1 (replicate 10 5) 1 (mkDownload 2 4 4 0))
    as (d' & cs & H1 & H2 & H3 & _); try (vm_compute; intuition congruence).
  exists d', cs. split_and!; [exact H1|exact H2|exact H3].
Defined.

(** Pumping the downloads always finishes, and one call sends a player at most what
    the limits allow: never past the end of the map, never more than the burst of a
    hundred parts (and one) ahead of what they acknowledged, and the bytes of a second
    exceed the speed limit by less than one part. *)
Theorem pump_bounded crc32 host data max_speed d pu :
  zlen data < 2 ^ 32 → 0 <= dl_sent_upto d →
  ∃ d' pu', pump_parts crc32 (parts_fuel data) host data max_speed d pu = Some (d', pu') ∧
    dl_sent_upto d <= dl_sent_upto d' ∧
    dl_sent_upto d' <= Z.max (dl_sent_upto d)
                             (Z.min (zlen data) (burst_limit d + MAP_CHUNK - 1)) ∧
    (0 < max_speed → pu_counter pu' <= Z.max (pu_counter pu) (max_speed + MAP_CHUNK - 1)).
Proof.
  intros Hlen Hs.
  destruct (pump_parts_spec crc32 (parts_fuel data) host data max_speed d pu Hlen Hs
              (parts_fuel_enough _ _ Hs))
    as (d' & pu' & cs & Hrun & _ & _ & _ & Hsent & _ & _ & Hup & Hspd & _).
  exists d', pu'. pose proof (zlen_nonneg (concat cs)). split_and!; [done|lia|done|done].
Qed.

Lemma pump_bounded_witness :
  ∃ d' pu', pump_parts (λ _, 0) (parts_fuel (replicate 10 5)) 1 (replicate 10 5) 0
              (mkDownload 2 4 4 0) (mkPump 0 []) = Some (d', pu') ∧ dl_sent_upto d' <= 10.
Proof.
  destruct (pump_bounded (λ _, 0) 1 (replicate 10 5) 0 (mkDownload 2 4 4 0) (mkPump 0 []))
    as (d' & pu' & H1 & _ & H3 & _); try (vm_compute; intuition congruence).
  exists d', pu'. split; [exact H1|]. vm_compute in H3. vm_compute. exact H3.
Defined.
