(* ===== verification/Lobby.v ===== *)
(** Joining, leaving and rejoining (spectre-engine, src/lobby.rs and src/full_rejoin.rs).

    A join request consumes the connection's pending entry.  When the link is not kept
    by a player, the handler lets it go: it is the second component of the result, with
    what was written on it.  [key] is the random reconnect key the handler draws. *)
From S2P Require Import Prelude Utf8 Text BytesExt Frame W3gs Gps Conn Slots History Players.
From S2P Require Import ReplayBody Tick Game CatchUp.

Definition REJECT_FULL : Z := 9.
Definition REJECT_STARTED : Z := 10.
Definition REJECT_WRONG_PASSWORD : Z := 27.

Definition pending_of (conn_id : Z) (g : GameState) : option (PlayerLink * bytes) :=
  (λ e, (e.1.2, e.2)) <$> List.find (λ e, e.1.1 =? conn_id) (g_pending g).

(** [Vec::remove] of the connection's entry. *)
Fixpoint remove_pending (conn_id : Z) (ps : list (Z * PlayerLink * bytes))
  : list (Z * PlayerLink * bytes) :=
  match ps with
  | [] => []
  | e :: ps => if e.1.1 =? conn_id then ps else e :: remove_pending conn_id ps
  end.

(** ** FULL rejoin *)

(** The player record after the link has been handed over. *)
Definition reattach (conn_id : Z) (link : PlayerLink) (p : Player) : Player :=
  p <| p_conn_id := conn_id |> <| p_link := link |> <| p_disconnected_since := None |>
    <| p_left := None |> <| p_consecutive_send_failures := 0 |> <| p_loaded := false |>
    <| p_rejoin := AwaitingMapSize |> <| p_sync_counter := 0 |> <| p_checksums := [] |>
    <| p_lagging := false |> <| p_started_lagging := None |>.

(** Who may take the place over: the holder of the token, under the same name, while the
    place is held. *)
Definition may_rejoin (name : bytes) (key : Z) (p : Player) : bool :=
  is_some (p_disconnected_since p) && negb (has_left p)
  && eq_ignore_ascii_case (p_name p) name && (p_reconnect_key p =? key).

Definition send_map_check (now pid : Z) (g : GameState) : GameState :=
  let m := c_map (g_cfg g) in
  send_to_ok now pid (map_check (m_path m) (m_size m) (m_info m) (m_crc m) (m_sha1 m)) g.

Definition try_full_rejoin (now conn_id : Z) (req : ReqJoin) (external_ip : bytes)
    (link : PlayerLink) (g : GameState) : GameState * bool :=
  if negb (is_playing g || is_loading g) then (g, false) else
  match g_pending_full g !! conn_id with
  | None => (g, false)
  | Some (token_pid, token_key) =>
    match by_pid token_pid (g_players g) with
    | None => (g, false)
    | Some p =>
      if negb (may_rejoin (name req) token_key p) then (g, false) else
      let pid := token_pid in
      let m := c_map (g_cfg g) in
      let g := g <| g_players ::= by_pid_mut pid (reattach conn_id link) |>
                 <| g_pending_full ::= delete conn_id |> in
      let g := send_to_ok now pid
                 (slot_info_join pid (listen_port req) external_ip (g_slots g) (g_random_seed g)
                                 (m_layout_style m) (m_num_players m)) g in
      let others := List.filter (λ q, negb (p_pid q =? pid) && is_live q) (g_players g) in
      let g := foldl (λ g q, send_to_ok now pid
                 (player_info (p_pid q) (p_name q) (p_external_ip q) (p_internal_ip q)) g)
                 g others in
      (send_map_check now pid g, true)
    end
  end.

(** ** Joining the lobby *)

(** The first open slot nobody holds. *)
Definition unheld_open_slot (g : GameState) : option Z :=
  (λ e, wrap 8 (Z.of_nat e.1)) <$>
  List.find (λ e, is_status Open e.2 && negb (is_some (g_holds g !! wrap 8 (Z.of_nat e.1))))
            (imap pair (g_slots g)).

(** The slots held by name are a [HashMap]: it is scanned in the order [holds_order]
    happens to give, some permutation of its entries. *)
Abbreviation HoldsOrder := (gmap Z bytes → list (Z * bytes)).

Definition reserved_slot (holds_order : HoldsOrder) (nm : bytes) (g : GameState) : option Z :=
  fst <$> List.find (λ e, eq_ignore_ascii_case e.2 nm) (holds_order (g_holds g)).

Definition target_slot (holds_order : HoldsOrder) (nm : bytes) (g : GameState) : option Z :=
  match reserved_slot holds_order nm g with
  | Some rsid => if Slots.is_open rsid (g_slots g) then Some rsid else unheld_open_slot g
  | None => unheld_open_slot g
  end.

Definition reconnect_port (cfg : GameConfig) : Z :=
  if negb (c_gproxy_reconnect_port cfg =? 0) then c_gproxy_reconnect_port cfg
  else if negb (c_host_port cfg =? 0) then c_host_port cfg else 6114.

Definition trusted_address (cfg : GameConfig) (ip : bytes) : bool :=
  (c_spoof_checks cfg =? 0) || bytes_eqb ip [127; 0; 0; 1]
  || (default 0 (ip !! 0%nat) =? 192) || (default 0 (ip !! 0%nat) =? 10).

Definition send_result (m : result ProtoError bytes) (link : PlayerLink) : PlayerLink :=
  match m with Ok b => send_ignore link b | Err _ => link end.

Definition joined_player (pid : Z) (req : ReqJoin) (conn_id : Z) (link : PlayerLink)
    (external_ip : bytes) (key : Z) (reserved : bool) (cfg : GameConfig) : Player :=
  (new_player pid (name req) conn_id link)
    <| p_external_ip := external_ip |> <| p_internal_ip := internal_ip req |>
    <| p_reconnect_key := key |> <| p_reserved := reserved |>
    <| p_spoofed := trusted_address cfg external_ip |>.

(** What the newcomer is told besides the slots: the others, the map, the token. *)
Definition introduce (p : Player) (g : GameState) (link : PlayerLink) : PlayerLink :=
  let m := c_map (g_cfg g) in
  let link := foldl (λ l q, send_result (player_info (p_pid q) (p_name q) (p_external_ip q)
                                                     (p_internal_ip q)) l)
                    link (g_players g) in
  let link := send_result (map_check (m_path m) (m_size m) (m_info m) (m_crc m) (m_sha1 m)) link in
  send_result (rejoin_token (p_pid p) (p_reconnect_key p) (reconnect_port (g_cfg g)) (m_crc m)
                            (m_sha1 m) (c_name (g_cfg g)) (m_path m)) link.

(** The others learn of the newcomer: a direct send to every other link. *)
Definition announce_player (p : Player) (t : PlayerTable) : PlayerTable :=
  match player_info (p_pid p) (p_name p) (p_external_ip p) (p_internal_ip p) with
  | Ok b => map (λ q, if p_pid q =? p_pid p then q else q <| p_link ::= λ l, send_ignore l b |>) t
  | Err _ => t
  end.

(** The newcomer is seated at [sid]; the answer is the link when that fails. *)
Definition seat_player (now key sid pid : Z) (reserved : bool) (conn_id : Z) (req : ReqJoin)
    (external_ip : bytes) (link : PlayerLink) (g : GameState) : GameState * option PlayerLink :=
  let m := c_map (g_cfg g) in
  let g := g <| g_slots ::= λ t, (occupy_slot sid pid t).1 |> in
  let refused link := (g <| g_slots ::= λ t, (release pid t).1 |>, Some link) in
  match slot_info_join pid (listen_port req) external_ip (g_slots g) (g_random_seed g)
                       (m_layout_style m) (m_num_players m) with
  | Err _ => refused link
  | Ok b =>
    match try_send link b with
    | (link, Err _) => refused link
    | (link, Ok _) =>
      let p := joined_player pid req conn_id link external_ip key reserved (g_cfg g) in
      let p := p <| p_link := introduce p g link |> in
      let g := g <| g_players ::= insert_player p |> in
      let g := g <| g_players ::= announce_player p |> in
      let g := send_all_slot_info now g in
      let g := if MAX_SLOTS - 1 <=? human_count (g_players g)
               then delete_virtual_host now g else g in
      (g, None)
    end
  end.

Definition handle_req_join (holds_order : HoldsOrder) (now key conn_id : Z) (payload : bytes) (g : GameState)
  : GameState * option PlayerLink :=
  match pending_of conn_id g with
  | None => (g, None)
  | Some (link, external_ip) =>
    let g := g <| g_pending ::= remove_pending conn_id |> in
    match ReqJoin_decode payload with
    | Err _ => (g, Some link)
    | Ok req =>
      if negb (is_lobby g) then
        match try_full_rejoin now conn_id req external_ip link g with
        | (g, true) => (g, None)
        | (g, false) => (g, Some (send_ignore link (reject_join REJECT_STARTED)))
        end
      else if existsb (λ p, eq_ignore_ascii_case (p_name p) (name req)) (g_players g)
      then (g, Some (send_ignore link (reject_join REJECT_FULL)))
      else
        match target_slot holds_order (name req) g, next_free_pid (g_players g) with
        | Some sid, Some pid =>
          seat_player now key sid pid (is_some (reserved_slot holds_order (name req) g)) conn_id req
                      external_ip link g
        | _, _ => (g, Some (send_ignore link (reject_join REJECT_FULL)))
        end
    end
  end.

(** ** Leaving *)

Definition leave_code (g : GameState) (in_game : Z) : Z :=
  if in_lobby g then ids.PLAYERLEAVE_LOBBY else in_game.

Definition drop_pending (conn_id : Z) (g : GameState) : GameState :=
  g <| g_pending ::= List.filter (λ e, negb (e.1.1 =? conn_id)) |>.

Definition handle_leave (conn_id reason_code : Z) (g : GameState) : GameState :=
  match by_conn conn_id (g_players g) with
  | Some _ =>
    g <| g_players ::= by_conn_mut conn_id (λ p,
      p <| p_left := Some (str "left the game voluntarily (code " ++ dec reason_code ++ str ")") |>
        <| p_left_code := leave_code g ids.PLAYERLEAVE_LOST |>) |>
  | None => drop_pending conn_id g
  end.

Definition handle_conn_closed (now conn_id : Z) (reason : bytes) (g : GameState) : GameState :=
  let g := g <| g_pending_full ::= delete conn_id |> in
  match by_conn conn_id (g_players g) with
  | Some _ =>
    g <| g_players ::= by_conn_mut conn_id (λ p,
      if p_gproxy p then
        match p_disconnected_since p with
        | None => p <| p_disconnected_since := Some now |>
        | Some _ => p
        end
      else if has_left p then p
      else p <| p_left := Some reason |>
             <| p_left_code := leave_code g ids.PLAYERLEAVE_DISCONNECT |>) |>
  | None => drop_pending conn_id g
  end.

(** ** The host's slot commands (src/chat.rs: [!open], [!close], [!swap]) *)

Definition slot_command (now : Z) (op : SlotTable → SlotTable * bool) (g : GameState) : GameState :=
  match op (g_slots g) with
  | (t, true) => send_all_slot_info now (g <| g_slots := t |>)
  | (t, false) => g <| g_slots := t |>
  end.

Definition cmd_open (now sid : Z) : GameState → GameState := slot_command now (Slots.open sid).
Definition cmd_close (now sid : Z) : GameState → GameState := slot_command now (close sid).
Definition cmd_swap (now a b : Z) (g : GameState) : GameState :=
  let m := c_map (g_cfg g) in
  slot_command now (swap_slots a b (has_fixed_player_settings m) (has_custom_forces m)) g.

(** ** What a FULL rejoin does *)

(** The conditions, as a proposition. *)
Definition rejoin_allowed (conn_id : Z) (req : ReqJoin) (g : GameState) : Prop :=
  (g_phase g = Playing ∨ g_phase g = Loading) ∧
  ∃ token_pid key p, g_pending_full g !! conn_id = Some (token_pid, key) ∧
    by_pid token_pid (g_players g) = Some p ∧ p_reconnect_key p = key ∧
    eq_ignore_ascii_case (p_name p) (name req) = true ∧
    p_disconnected_since p ≠ None ∧ p_left p = None.

Lemma may_rejoin_true nm key p :
  may_rejoin nm key p = true ↔
  p_reconnect_key p = key ∧ eq_ignore_ascii_case (p_name p) nm = true ∧
  p_disconnected_since p ≠ None ∧ p_left p = None.
Proof.
  unfold may_rejoin. rewrite !andb_true_iff, negb_true_iff, has_left_None, Z.eqb_eq.
  destruct (p_disconnected_since p); naive_solver.
Qed.

(** Sending to one player changes that player only, and inertly. *)
Record only_sent_to (pid : Z) (g g' : GameState) : Prop := {
  os_same : ∀ q, q ≠ pid → by_pid q (g_players g') = by_pid q (g_players g);
  os_player : ∀ p, by_pid pid (g_players g) = Some p →
    ∃ p', by_pid pid (g_players g') = Some p' ∧ inert p p';
  os_rest : (g_phase g', g_slots g', g_pending_full g', g_full_history g', g_virtual_host_pid g')
            = (g_phase g, g_slots g, g_pending_full g, g_full_history g, g_virtual_host_pid g) }.

#[export] Instance only_sent_to_preorder pid : PreOrder (only_sent_to pid).
Proof.
  split; [split; [done|intros p Hp; by exists p|done]|]. intros g1 g2 g3 [] [].
  split; [|intros p Hp|congruence].
  - intros q Hq. by rewrite os_same1, os_same0.
  - destruct (os_player0 p Hp) as (p2 & Hp2 & ?). destruct (os_player1 p2 Hp2) as (p3 & ? & ?).
    exists p3. split; [done|]. by trans p2.
Qed.

Lemma send_to_only now pid bs g : only_sent_to pid g (send_to now pid bs g).
Proof.
  split; [|intros p Hp|done].
  - intros q Hq. apply by_pid_mut_other; [|done]. intros. apply send_to_player_pid.
  - exists (send_to_player now bs p). split; [|apply send_to_player_inert].
    unfold send_to. change (by_pid pid (by_pid_mut pid (send_to_player now bs) (g_players g))
                            = Some (send_to_player now bs p)).
    rewrite by_pid_mut_same by (intros; apply send_to_player_pid). by rewrite Hp.
Qed.

Lemma send_to_ok_only now pid m g : only_sent_to pid g (send_to_ok now pid m g).
Proof. destruct m; [apply send_to_only|done]. Qed.

Lemma foldl_only {A} pid (f : GameState → A → GameState) l g :
  (∀ g a, only_sent_to pid g (f g a)) → only_sent_to pid g (foldl f g l).
Proof.
  intros Hf. revert g. induction l as [|a l IH]; intros g; [done|]. cbn.
  etrans; [apply Hf|apply IH].
Qed.

(** C17: a client that lost everything gets its place back exactly when the game is
    loading or playing, the connection presented a token whose pid is in the game with
    that reconnect key and name, and the place is held and not given up.  A refusal
    changes nothing.  An acceptance spends the token and touches that player only: they
    are on the new connection, not loaded, waiting for the map report, with no turn
    counter, checksum or lag left from the lost client that a later check could compare;
    phase, slots, history and every other player are as they were. *)
Theorem full_rejoin_spec now conn_id req ip link g :
  let '(g', ok) := try_full_rejoin now conn_id req ip link g in
  (ok = true ↔ rejoin_allowed conn_id req g) ∧
  (ok = false → g' = g) ∧
  (ok = true → ∃ token_pid key p p', g_pending_full g !! conn_id = Some (token_pid, key) ∧
     by_pid token_pid (g_players g) = Some p ∧ by_pid token_pid (g_players g') = Some p' ∧
     inert (reattach conn_id link p) p' ∧
     (∀ q, q ≠ token_pid → by_pid q (g_players g') = by_pid q (g_players g)) ∧
     (g_phase g', g_slots g', g_full_history g') = (g_phase g, g_slots g, g_full_history g) ∧
     g_pending_full g' = delete conn_id (g_pending_full g)).
Proof.
  unfold try_full_rejoin, rejoin_allowed.
  destruct (is_playing g || is_loading g) eqn:Hph; cbn [negb]; cycle 1.
  { split_and!; [|done..]. split; [done|]. intros [[E|E] _];
      unfold is_playing, is_loading in Hph; by rewrite E in Hph. }
  assert (g_phase g = Playing ∨ g_phase g = Loading) as Hphase
    by (unfold is_playing, is_loading in Hph; destruct (g_phase g); auto; done).
  destruct (g_pending_full g !! conn_id) as [[tp tk]|] eqn:Ht; cycle 1.
  { split_and!; [naive_solver|done..]. }
  destruct (by_pid tp (g_players g)) as [p|] eqn:Hp; cycle 1.
  { split_and!; [naive_solver|done..]. }
  pose proof (may_rejoin_true (name req) tk p) as Hm.
  destruct (may_rejoin (name req) tk p); cbn [negb]; cycle 1.
  { split_and!; [|done..]. split; [done|].
    intros [_ (? & ? & ? & [= <- <-] & E & Hr)]. rewrite Hp in E. injection E as <-. tauto. }
  split; [split; [intros _|done]|split; [done|intros _]].
  { split; [done|]. exists tp, tk, p. tauto. }
  match goal with |- context [foldl ?f ?g1 ?l] =>
    assert (only_sent_to tp (g <| g_players ::= by_pid_mut tp (reattach conn_id link) |>
                               <| g_pending_full ::= delete conn_id |>) (foldl f g1 l)) as H0 end.
  { etrans; [|apply foldl_only; intros; apply send_to_ok_only]. apply send_to_ok_only. }
  unfold send_map_check.
  match goal with |- context [send_to_ok now tp ?m ?g1] =>
    pose proof (send_to_ok_only now tp m g1) as H1 end.
  pose proof (transitivity H0 H1) as [Hs Hpl [= E1 E2 E3 E4 _]].
  destruct (Hpl (reattach conn_id link p)) as (p' & Hp' & Hi).
  { change (by_pid tp (by_pid_mut tp (reattach conn_id link) (g_players g))
            = Some (reattach conn_id link p)). rewrite by_pid_mut_same by done. by rewrite Hp. }
  exists tp, tk, p, p'. do 4 (split; [done|]).
  split; [intros q Hq; rewrite (Hs q Hq); by apply by_pid_mut_other|].
  split; [exact (f_equal2 pair (f_equal2 pair E1 E2) E4)|exact E3].
Qed.
