(* ===== verification/Seating.v ===== *)
(** Who sits where: the invariant that ties a game's players to its slots, and the
    operations that keep it. *)
From S2P Require Import Prelude Utf8 Text BytesExt Frame W3gs Gps DotaTv Conn Slots Hcl History.
From S2P Require Import Players ReplayBody Relay Tick Game CatchUp Phases Lobby.

(** Every human player sits in a slot, and in one only; every occupied slot that names a
    player names a human player of the game; the virtual host is the player the game
    thinks it is and has no slot; the fake player is a player; pids are distinct and between 1 and 254. *)
Record seating_wf (g : GameState) : Prop := {
  sw_pids : NoDup (player_pids (g_players g));
  sw_range : ∀ p, p ∈ g_players g → 1 <= p_pid p <= 254;
  sw_slots : slots_wf (g_slots g);
  sw_len : (length (g_slots g) <= 256)%nat;
  sw_host : ∀ p, p ∈ g_players g → p_virtual_host p = true ↔ p_pid p = g_virtual_host_pid g;
  sw_seated : ∀ s, s ∈ g_slots g → slot_status s = Occupied → pid s ≠ 0 →
    ∃ p, p ∈ g_players g ∧ is_human p = true ∧ p_pid p = pid s;
  sw_human : ∀ p, p ∈ g_players g → is_human p = true → ∃ s, s ∈ g_slots g ∧ seats (p_pid p) s;
  sw_host_in : g_virtual_host_pid g ≠ 255 → g_virtual_host_pid g ∈ player_pids (g_players g) }.

(** ** The stages of a game

    From the lobby a countdown leads to loading, and can be aborted; play begins when
    everybody has loaded, and also at a report of having loaded at any other time; a game
    can be over at any time. *)
Inductive Stage := InLobby | InCountdown | InLoading | InPlaying | IsOver.

Definition stage (ph : GamePhase) : Stage :=
  match ph with
  | Game.Lobby => InLobby
  | Countdown _ _ _ => InCountdown
  | Loading => InLoading
  | Playing => InPlaying
  | Over => IsOver
  end.

Inductive stage_step : Stage → Stage → Prop :=
| stage_start : stage_step InLobby InCountdown
| stage_abort : stage_step InCountdown InLobby
| stage_load : stage_step InCountdown InLoading
| stage_play s : stage_step s InPlaying
| stage_over s : stage_step s IsOver.

Create HintDb stages.
#[export] Hint Constructors stage_step : stages.
#[export] Hint Resolve rtc_once : stages.

(** ** Operations that move nobody *)

Definition seat_key (p : Player) : Z * bool * bytes := (p_pid p, p_virtual_host p, p_name p).
Definition slot_key (s : SlotInfo) : Z * Z := (slot_status s, pid s).

Record same_seats (g g' : GameState) : Prop := {
  ss_players : map seat_key (g_players g') = map seat_key (g_players g);
  ss_slots : map slot_key (g_slots g') = map slot_key (g_slots g);
  ss_host : g_virtual_host_pid g' = g_virtual_host_pid g;
  ss_stage : rtc stage_step (stage (g_phase g)) (stage (g_phase g')) }.

#[export] Instance same_seats_preorder : PreOrder same_seats.
Proof. split; [by split|]. intros g1 g2 g3 [] []. split; [congruence..|by etrans]. Qed.

Lemma map_eq_elem {A B} (f : A → B) l l' x :
  map f l = map f l' → x ∈ l → ∃ y, y ∈ l' ∧ f x = f y.
Proof.
  intros E Hx. assert (f x ∈ map f l') as H.
  { rewrite <- E. apply list_elem_of_fmap. by exists x. }
  apply list_elem_of_fmap in H as (y & Hy & Hin). by exists y.
Qed.

Lemma slots_wf_key t t' : map slot_key t' = map slot_key t → slots_wf t → slots_wf t'.
Proof.
  intros E [Hc Hu].
  assert (∀ i s', t' !! i = Some s' → ∃ s, t !! i = Some s ∧ slot_key s' = slot_key s) as Hl.
  { intros i s' Hi. assert (map slot_key t' !! i = Some (slot_key s')) as H
      by (change @map with (@fmap list _); by rewrite list_lookup_fmap, Hi).
    rewrite E in H. change @map with (@fmap list _) in H. rewrite list_lookup_fmap in H.
    apply fmap_Some in H as (s & Hs & ->). by exists s. }
  split.
  - apply Forall_lookup. intros i s' Hi. destruct (Hl i s' Hi) as (s & Hs & Hk).
    eapply Forall_lookup_1 in Hc; [|done]. injection Hk as E1 E2. unfold vacant_clean.
    by rewrite E1, E2.
  - intros i j s1 s2 p Hp (x1 & Hx1 & [= K1 K1'])%Hl (x2 & Hx2 & [= K2 K2'])%Hl [] [].
    eapply Hu; try done; split; congruence.
Qed.

Lemma keys_pids t t' : map seat_key t' = map seat_key t → player_pids t' = player_pids t.
Proof.
  intros E. assert (∀ t, player_pids t = map (λ k, k.1.1) (map seat_key t)) as Hk
    by (intros; unfold player_pids; by rewrite map_map). by rewrite !Hk, E.
Qed.

Lemma seating_wf_same g g' : same_seats g g' → seating_wf g → seating_wf g'.
Proof.
  intros [Ep Es Eh _] [Hd Hr Hs Hl Hv Ht Hm Hvi].
  assert (∀ p', p' ∈ g_players g' → ∃ p, p ∈ g_players g ∧ seat_key p' = seat_key p) as Hp
    by (intros; by eapply map_eq_elem).
  assert (player_pids (g_players g') = player_pids (g_players g)) as Epid by by apply keys_pids.
  split.
  - by rewrite Epid.
  - intros p' (p & Hin & [= -> _ _])%Hp. by apply Hr.
  - by eapply slots_wf_key.
  - by rewrite <- (length_map slot_key), Es, length_map.
  - intros p' (p & Hin & [= -> -> _])%Hp. rewrite Eh. by apply Hv.
  - intros s' Hin Ho Hn. destruct (map_eq_elem _ _ _ _ Es Hin) as (s & Hs' & [= E1 E2]).
    destruct (Ht s Hs') as (p & Hpin & Hh & Hpid); [congruence..|].
    destruct (map_eq_elem _ _ _ _ (eq_sym Ep) Hpin) as (p' & Hp' & [= E3 E4 _]).
    exists p'. unfold is_human in *. split_and!; congruence.
  - intros p' (p & Hin & [= E1 E2 _])%Hp Hh. unfold is_human in *. rewrite E2 in Hh.
    destruct (Hm p Hin Hh) as (s & Hsin & Hseat).
    destruct (map_eq_elem _ _ _ _ (eq_sym Es) Hsin) as (s' & Hs' & [= E3 E4]).
    exists s'. split; [done|]. destruct Hseat. split; congruence.
  - by rewrite Eh, Epid.
Qed.

(** The stage is not part of the invariant. *)
Lemma seating_wf_keep g g' :
  g_players g' = g_players g → g_slots g' = g_slots g →
  g_virtual_host_pid g' = g_virtual_host_pid g → seating_wf g → seating_wf g'.
Proof. intros Ep Es Eh []. split; rewrite ?Ep, ?Es, ?Eh; done. Qed.

Lemma map_key_map {A} (k : Player → A) f t :
  (∀ p, k (f p) = k p) → map k (map f t) = map k t.
Proof. intros Hf. rewrite map_map. by apply map_ext. Qed.

Lemma same_map f g :
  (∀ p, seat_key (f p) = seat_key p) → same_seats g (g <| g_players ::= map f |>).
Proof. intros Hf. split; [|done..]. by apply map_key_map. Qed.

Lemma same_update sel f g :
  (∀ p, seat_key (f p) = seat_key p) → same_seats g (g <| g_players ::= update_first sel f |>).
Proof. intros Hf. split; [|done..]. by apply update_first_map. Qed.

Lemma same_over g g' :
  g_players g' = g_players g → g_slots g' = g_slots g →
  g_virtual_host_pid g' = g_virtual_host_pid g → g_phase g' = Over → same_seats g g'.
Proof. intros Ep Es Eh Eph. split; [congruence..|]. rewrite Eph. apply rtc_once, stage_over. Qed.

Lemma inert_key f p : inert p (f p) → seat_key (f p) = seat_key p.
Proof. intros []. unfold seat_key. congruence. Qed.

Lemma same_broadcast now bs g : same_seats g (broadcast now bs g).
Proof.
  unfold broadcast. destruct (is_playing g); (split; [|done..]); apply map_key_map;
    intros; by apply inert_key, deliver_inert.
Qed.
Lemma same_send_to now pid bs g : same_seats g (send_to now pid bs g).
Proof. apply same_update. intros. apply inert_key, send_to_player_inert. Qed.
Lemma same_broadcast_ok now m g : same_seats g (broadcast_ok now m g).
Proof. destruct m; [apply same_broadcast|done]. Qed.
Lemma same_send_to_ok now pid m g : same_seats g (send_to_ok now pid m g).
Proof. destruct m; [apply same_send_to|done]. Qed.
Lemma same_slot_info now g : same_seats g (send_all_slot_info now g).
Proof. apply same_broadcast_ok. Qed.
Lemma same_kick pid reason code g : same_seats g (kick_player pid reason code g).
Proof. by apply same_update. Qed.
Lemma same_with_replay f g : same_seats g (with_replay f g).
Proof. done. Qed.
Lemma same_with_relay f g : same_seats g (with_relay f g).
Proof. done. Qed.

Lemma same_chat_all now msg g g' : send_chat_all now msg g = Some g' → same_seats g g'.
Proof.
  unfold send_chat_all. destruct (host_pid g =? 255); [by intros [= <-]|].
  destruct (player_pids _); [by intros [= <-]|].
  destruct (in_lobby _); destruct (cut_message _ _); try done; intros [= <-];
    (etrans; [|apply same_broadcast_ok]); done.
Qed.
Lemma same_chat_to now pid msg g g' : send_chat_to now pid msg g = Some g' → same_seats g g'.
Proof.
  unfold send_chat_to. destruct (host_pid g =? 255); [by intros [= <-]|].
  destruct (in_lobby _); destruct (cut_message _ _); try done; intros [= <-];
    apply same_send_to_ok.
Qed.

Lemma same_foldl {A} (f : GameState → A → GameState) l g :
  (∀ g a, same_seats g (f g a)) → same_seats g (foldl f g l).
Proof.
  intros Hf. revert g. induction l as [|a l IH]; intros g; [done|]. cbn.
  etrans; [apply Hf|apply IH].
Qed.

Create HintDb seats.
#[export] Hint Resolve same_broadcast same_send_to same_broadcast_ok same_send_to_ok
  same_slot_info same_kick same_with_replay same_with_relay same_chat_all same_chat_to : seats.




(** ** Operations that move somebody *)

Lemma elem_remove_pid pid t p :
  NoDup (player_pids t) → p ∈ remove_pid pid t ↔ p ∈ t ∧ p_pid p ≠ pid.
Proof.
  unfold remove_pid, player_pids. induction t as [|q t IH]; [cbn; set_solver|].
  cbn [map remove_first]. rewrite NoDup_cons. intros [Hn Hd]. unfold has_pid.
  destruct (Z.eqb_spec (p_pid q) pid) as [<-|Hne].
  - split; [|set_solver]. intros Hin. split; [set_solver|]. intros E. apply Hn.
    rewrite <- E. by apply list_elem_of_fmap_2.
  - rewrite !elem_of_cons, (IH Hd). naive_solver.
Qed.

Lemma sid_of_pid_elem q t : sid_of_pid q t = None ↔ ∀ s, s ∈ t → ¬ seats q s.
Proof.
  rewrite sid_of_pid_None. split.
  - intros H s (i & Hi)%list_elem_of_lookup. by eapply H.
  - intros H i s Hi. apply H. by eapply list_elem_of_lookup_2.
Qed.

(** What [release] leaves in the table. *)
Lemma release_elem q (t : SlotTable) (s : SlotInfo) :
  slots_wf t → (length t <= 256)%nat → pid s ≠ 0 →
  s ∈ (release q t).1 ∧ slot_status s = Occupied ↔ s ∈ t ∧ slot_status s = Occupied ∧ pid s ≠ q.
Proof.
  intros Hwf Hlen Hs. unfold release. destruct (sid_of_pid q t) as [sid|] eqn:E; cycle 1.
  { rewrite sid_of_pid_elem in E. unfold seats in E. cbn. naive_solver. }
  destruct (sid_of_pid_Some _ _ _ Hlen E) as (s0 & Hs0 & [Ho0 Hp0] & _). unfold open, with_slot.
  rewrite Hs0. cbn [fst]. pose proof (lookup_lt_Some _ _ _ Hs0) as Hlt.
  rewrite !list_elem_of_lookup. split.
  - intros [(i & Hi) Ho]. destruct (decide (i = Z.to_nat sid)) as [->|Hne].
    + rewrite list_lookup_insert_eq in Hi by done. injection Hi as <-. discriminate Ho.
    + rewrite list_lookup_insert_ne in Hi by done. split_and!; [by exists i|done|].
      intros Hpq. apply Hne. destruct Hwf as [_ Hu]. assert (q ≠ 0) by congruence. by eapply (Hu i _ s s0 q).
  - intros ((i & Hi) & Ho & Hpq). split; [|done]. exists i.
    rewrite list_lookup_insert_ne; [done|]. intros <-. congruence.
Qed.

Lemma length_release q t : length (release q t).1 = length t.
Proof. unfold release. destruct (sid_of_pid q t); [apply with_slot_length|done]. Qed.

(** A player is removed and their slot released. *)
Lemma seating_remove q g g' :
  seating_wf g → q ≠ g_virtual_host_pid g →
  g_players g' = remove_pid q (g_players g) →
  g_slots g' = (release q (g_slots g)).1 → g_virtual_host_pid g' = g_virtual_host_pid g →
  seating_wf g'.
Proof.
  intros [Hd Hr Hs Hl Hv Ht Hm Hvi] Hqv Ep Es Eh.
  assert (∀ p, p ∈ g_players g' ↔ p ∈ g_players g ∧ p_pid p ≠ q) as Hin
    by (intros; rewrite Ep; by apply elem_remove_pid).
  assert (∀ s, pid s ≠ 0 → s ∈ g_slots g' ∧ slot_status s = Occupied
                ↔ s ∈ g_slots g ∧ slot_status s = Occupied ∧ pid s ≠ q) as Hsl
    by (intros; rewrite Es; by apply release_elem).
  split.
  - rewrite Ep, remove_pid_pids by done.
    apply (NoDup_ListNoDup _), List.NoDup_filter. by apply NoDup_ListNoDup.
  - intros p [? _]%Hin. by apply Hr.
  - rewrite Es. apply (slot_step_wf (g_slots g)); [constructor|done].
  - by rewrite Es, length_release.
  - intros p [? _]%Hin. rewrite Eh. by apply Hv.
  - intros s Hsin Ho Hn. destruct (proj1 (Hsl s Hn) (conj Hsin Ho)) as (Hs1 & _ & Hne).
    destruct (Ht s Hs1 Ho Hn) as (p & Hp & Hh & E). exists p. split_and!; [|done..].
    apply Hin. split; [done|congruence].
  - intros p [Hp Hne]%Hin Hh. destruct (Hm p Hp Hh) as (s & Hsin & Ho & E).
    assert (pid s ≠ 0) as Hn by (specialize (Hr p Hp); lia).
    exists s. split; [|done]. apply (Hsl s Hn). split_and!; [done..|congruence].
  - rewrite Eh. unfold player_pids in *. rewrite list_elem_of_fmap.
    intros (p & E & Hp)%Hvi%list_elem_of_fmap. exists p. rewrite Hin. split_and!; [done..|congruence].
Qed.

(** A new human player is seated in an open slot. *)
Lemma seating_add p sid g g' :
  seating_wf g → is_human p = true → 1 <= p_pid p <= 254 → p_pid p ∉ player_pids (g_players g) →
  Slots.is_open sid (g_slots g) = true →
  g_players g' = g_players g ++ [p] →
  g_slots g' = (occupy_slot sid (p_pid p) (g_slots g)).1 →
  g_virtual_host_pid g' = g_virtual_host_pid g →
  seating_wf g'.
Proof.
  intros [Hd Hr Hs Hl Hv Ht Hm Hvi] Hh Hp Hfresh Hopen Ep Es Eh.
  assert (p_pid p ≠ g_virtual_host_pid g) as Hnv.
  { destruct (decide (g_virtual_host_pid g = 255)); [lia|]. intros E. apply Hfresh. rewrite E. auto. }
  assert (is_human p = true) as Hhp by done.
  unfold Slots.is_open in Hopen. destruct (g_slots g !! Z.to_nat sid) as [s0|] eqn:Hs0; [|done].
  apply is_status_true in Hopen. pose proof (lookup_lt_Some _ _ _ Hs0) as Hlt.
  assert (sid_of_pid (p_pid p) (g_slots g) = None) as Hnone.
  { apply sid_of_pid_elem. intros s Hsin [Ho E]. destruct (Ht s Hsin Ho) as (q & Hq & _ & Eq); [lia|].
    apply Hfresh. rewrite <- E, <- Eq. by apply list_elem_of_fmap_2. }
  assert (g_slots g' = (with_slot sid (λ s, s <| slot_status := Occupied |> <| pid := p_pid p |>
    <| computer := 0 |> <| download_status := 100 |>) (g_slots g)).1) as Es' by done.
  unfold with_slot in Es'. rewrite Hs0 in Es'. cbn [fst] in Es'. unfold is_human in Hh.
  apply negb_true_iff in Hh. split.
  - rewrite Ep. unfold player_pids in *. rewrite map_app, NoDup_app. split_and!; [done|set_solver|].
    apply NoDup_singleton.
  - intros q. rewrite Ep, elem_of_app, list_elem_of_singleton. intros [?| ->]; auto.
  - rewrite Es. apply (slot_step_wf (g_slots g)); [by constructor|done].
  - by rewrite Es', length_insert.
  - intros q. rewrite Ep, elem_of_app, list_elem_of_singleton, Eh. intros [?| ->]; [by apply Hv|].
    rewrite Hh. done.
  - intros s Hsin Ho Hn. rewrite Es' in Hsin. rewrite Ep. setoid_rewrite elem_of_app.
    apply list_elem_of_lookup in Hsin as (i & Hi). destruct (decide (i = Z.to_nat sid)) as [->|].
    + rewrite list_lookup_insert_eq in Hi by done. injection Hi as <-. exists p.
      unfold is_human. rewrite Hh. split_and!; [set_solver|done|done].
    + rewrite list_lookup_insert_ne in Hi by done.
      destruct (Ht s) as (q & ? & ? & ?); [by eapply list_elem_of_lookup_2|done..|]. eauto.
  - intros q. rewrite Ep, elem_of_app, list_elem_of_singleton, Es'. intros [Hq| ->] Hqh.
    + destruct (Hm q Hq Hqh) as (s & (i & Hi)%list_elem_of_lookup & Ho & E). exists s.
      split; [|done]. apply list_elem_of_lookup. exists i. rewrite list_lookup_insert_ne; [done|].
      intros <-. assert (s = s0) by congruence. subst. rewrite Ho in Hopen. discriminate Hopen.
    + eexists. split; [eapply list_elem_of_lookup_2, list_lookup_insert_eq; done|done].
  - rewrite Eh, Ep. unfold player_pids in *. rewrite map_app, elem_of_app. auto.
Qed.

(** ** The virtual host *)

Lemma next_free_pid_fresh t c :
  next_free_pid t = Some c → 1 <= c <= 254 ∧ c ∉ player_pids t.
Proof.
  unfold next_free_pid. pose proof (find_range (λ c, negb (existsb (has_pid c) t)) 1 254) as H.
  intros E. rewrite E in H. destruct H as (Hc & Hn & _). split; [lia|].
  apply negb_true_iff in Hn. by rewrite <- existsb_has_pid, Hn.
Qed.

Lemma seating_create_host now g : seating_wf g → seating_wf (create_virtual_host now g).
Proof.
  unfold create_virtual_host. intros Hwf. destruct (Z.eqb_spec (g_virtual_host_pid g) 255) as [Hn|];
    [cbn [negb]|done].
  destruct (next_free_pid (g_players g)) as [c|] eqn:Hc; [|done].
  apply next_free_pid_fresh in Hc as [Hr Hf].
  match goal with |- context [broadcast_ok now ?m ?g0] =>
    destruct (same_broadcast_ok now m g0) as [Ep Es Eh]; set (g1 := broadcast_ok now m g0) in * end.
  change (g_players (g <| g_virtual_host_pid := c |>)) with (g_players g) in Ep.
  change (g_slots (g <| g_virtual_host_pid := c |>)) with (g_slots g) in Es.
  change (g_virtual_host_pid (g <| g_virtual_host_pid := c |>)) with c in Eh.
  set (g2 := g1 <| g_virtual_host_pid := 255 |>).
  assert (seating_wf g2) as [Hd Hr2 Hs Hl Hv Ht Hm Hvi].
  { eapply seating_wf_same; [|exact Hwf]. by split. }
  set (p := (new_player c (c_virtual_host_name (g_cfg g)) (2 ^ 64 - 1) dead_link)
              <| p_virtual_host := true |> <| p_loaded := true |>).
  assert (player_pids (g_players g1) = player_pids (g_players g)) as Epid.
  { by apply keys_pids. }
  assert (∀ q, q ∈ g_players g1 → p_virtual_host q = false ∧ p_pid q ≠ c) as Hold.
  { intros q Hq. split.
    - destruct (p_virtual_host q) eqn:E; [|done]. apply (Hv q Hq) in E. cbn in E.
      specialize (Hr2 q Hq). unfold const in E. lia.
    - intros <-. apply Hf. rewrite <- Epid. by apply list_elem_of_fmap_2. }
  split.
  - change (NoDup (player_pids (g_players g1 ++ [p]))). unfold player_pids in *.
    rewrite map_app, Epid, NoDup_app. split_and!; [apply Hwf|cbn; set_solver|apply NoDup_singleton].
  - intros q Hq. change (q ∈ g_players g1 ++ [p]) in Hq.
    rewrite elem_of_app, list_elem_of_singleton in Hq. destruct Hq as [?| ->]; [by apply Hr2|done].
  - exact Hs.
  - exact Hl.
  - intros q Hq. change (q ∈ g_players g1 ++ [p]) in Hq. change (g_virtual_host_pid _) with (g_virtual_host_pid g1).
    rewrite elem_of_app, list_elem_of_singleton, Eh in *. destruct Hq as [Hq| ->]; [|done].
    destruct (Hold q Hq) as [-> ?]. done.
  - intros s Hsin Ho Hne. destruct (Ht s Hsin Ho Hne) as (q & Hq & ?). exists q. split; [|done].
    change (q ∈ g_players g1 ++ [p]). apply elem_of_app. by left.
  - intros q Hq Hh. change (q ∈ g_players g1 ++ [p]) in Hq.
    rewrite elem_of_app, list_elem_of_singleton in Hq. destruct Hq as [Hq| ->]; [by apply Hm|done].
  - intros _. change (g_virtual_host_pid g1 ∈ player_pids (g_players g1 ++ [p])). rewrite Eh.
    unfold player_pids. rewrite map_app, elem_of_app. right. cbn. set_solver.
Qed.

Lemma seating_delete_host now g : seating_wf g → seating_wf (delete_virtual_host now g).
Proof.
  unfold delete_virtual_host. intros Hwf. destruct (g_virtual_host_pid g =? 255); [done|].
  eapply seating_wf_same; [apply same_broadcast|]. destruct Hwf as [Hd Hr Hs Hl Hv Ht Hm Hvi].
  match goal with |- seating_wf ?g1 => set (g' := g1) end.
  assert (∀ p, p ∈ g_players g' ↔ p ∈ g_players g ∧ p_pid p ≠ g_virtual_host_pid g) as Hin
    by (intros; by apply elem_remove_pid).
  assert (∀ p, p ∈ g_players g → is_human p = true → p_pid p ≠ g_virtual_host_pid g) as Hne.
  { intros p Hp Hh E. apply (Hv p Hp) in E. unfold is_human in Hh. by rewrite E in Hh. }
  split.
  - change (g_players g') with (remove_pid (g_virtual_host_pid g) (g_players g)).
    rewrite remove_pid_pids by done. apply (NoDup_ListNoDup _), List.NoDup_filter.
    by apply NoDup_ListNoDup.
  - intros p [? _]%Hin. by apply Hr.
  - exact Hs.
  - exact Hl.
  - intros p [Hp Hn]%Hin. change (g_virtual_host_pid g') with 255. specialize (Hr p Hp).
    split; [by intros ?%(Hv p Hp)|lia].
  - intros s Hsin Ho Hn. destruct (Ht s Hsin Ho Hn) as (p & Hp & Hh & E). exists p.
    split_and!; [|done..]. apply Hin. auto.
  - intros p [Hp _]%Hin. by apply Hm.
  - done.
Qed.

(** ** Starting to play *)

Lemma hcl_keys hcl t : map slot_key (encode_hcl_into_slots hcl t).1 = map slot_key t.
Proof.
  unfold encode_hcl_into_slots. destruct (_ || _); [done|]. destruct (negb _); [done|]. cbn [fst].
  generalize hcl. induction t as [|s t IH]; intros [|c h]; try done. cbn [encode_hcl_chars].
  destruct (is_status Occupied s); cbn [map]; by rewrite IH.
Qed.

Section playing.
Context (fmt_secs : Z → bytes).

(** Whatever holds of saying something holds of the report on the loading times. *)
Lemma report_rel (R : relation GameState) `{!PreOrder R} now started g g' :
  (∀ msg g g', send_chat_all now msg g = Some g' → R g g') →
  (∀ pid msg g g', send_chat_to now pid msg g = Some g' → R g g') →
  report_load_times fmt_secs now started g = Some g' → R g g'.
Proof.
  intros Hall Hto. unfold report_load_times.
  assert (∀ l og, (∀ g1, og = Some g1 → R g g1) → ∀ g1,
    foldl (λ og p, g ← og;
           send_chat_to now (p_pid p) (str "Your loading time was "
             ++ fmt_secs (load_time started p) ++ str " seconds.") g) og l = Some g1 →
    R g g1) as Hl.
  { intros l. induction l as [|p l IH]; intros og Hog g1 H; [by apply Hog|]. cbn in H.
    eapply IH; [|exact H]. intros g2. destruct og as [g0|]; [|done]. cbn. intros H2.
    etrans; [by apply Hog|by eapply Hto]. }
  intros (g1 & H1 & H)%bind_Some. eapply Hl; [|exact H]. intros ? [= <-].
  destruct (best_load Z.ltb started _) as [[n1 t1]|]; [|by injection H1 as <-].
  destruct (best_load Z.gtb started _) as [[n2 t2]|]; [|by injection H1 as <-].
  apply bind_Some in H1 as (g2 & H2 & H1).
  etrans; by eapply Hall.
Qed.

Lemma same_report now started g g' :
  report_load_times fmt_secs now started g = Some g' → same_seats g g'.
Proof. apply report_rel; [tc_solve|intros; by eapply same_chat_all|intros; by eapply same_chat_to]. Qed.

Lemma same_begin_playing now g g' : begin_playing fmt_secs now g = Some g' → same_seats g g'.
Proof.
  unfold begin_playing. intros (g1 & H1 & [= <-])%bind_Some.
  match type of H1 with context [report_load_times _ _ _ ?g0] =>
    assert (same_seats g g0) as H0 end.
  { split; [by apply map_key_map|done|done|]. apply rtc_once, stage_play. }
  trans g1; [|done]. destruct (g_started_loading_at _); [|by injection H1 as <-].
  etrans; [exact H0|by eapply same_report].
Qed.

Lemma same_hcl now g : same_seats g (put_hcl now g).
Proof.
  unfold put_hcl. destruct (g_hcl g) as [h|]; [|done]. pose proof (hcl_keys h (g_slots g)) as Hk.
  destruct (encode_hcl_into_slots _ _) as [t ok].
  assert (same_seats g (g <| g_slots := t |>)) as H by by split.
  destruct ok; [|done]. etrans; [exact H|apply same_slot_info].
Qed.

Lemma same_fake_loaded now g :
  same_seats g (match g_fake_player_pid g with
                | Some fpid =>
                  broadcast now (game_loaded_others fpid)
                    (g <| g_players ::= by_pid_mut fpid (λ p, p <| p_loaded := true |>) |>)
                | None => g
                end).
Proof.
  destruct (g_fake_player_pid g); [|done]. etrans; [|apply same_broadcast]. by apply same_update.
Qed.

Lemma seating_begin_loading now g g' :
  begin_loading fmt_secs now g = Some g' → seating_wf g → seating_wf g'.
Proof.
  unfold begin_loading. intros H Hwf. revert H.
  match goal with |- context [all_loaded (g_players ?g0)] => assert (seating_wf g0) as H0 end.
  { eapply seating_wf_same; [apply same_fake_loaded|].
    eapply seating_wf_same; [apply same_broadcast|]. apply seating_delete_host.
    eapply seating_wf_same; [apply same_broadcast|]. eapply seating_wf_same; [apply same_hcl|].
    by apply (seating_wf_keep g). }
  destruct (all_loaded _); [|intros H; apply (inj Some) in H; subst g'; exact H0]. intros H.
  eapply seating_wf_same; [by eapply same_begin_playing|exact H0].
Qed.

Lemma same_handle_loaded now conn_id g g' :
  handle_loaded fmt_secs now conn_id g = Some g' → same_seats g g'.
Proof.
  unfold handle_loaded. destruct (by_conn _ _) as [p|]; [|by intros [= <-]].
  destruct (bool_decide _).
  - destruct (0 <? _).
    + intros [= <-]. by apply same_update.
    + intros [= <-]. etrans; [|apply same_broadcast]. etrans; [|by apply same_update].
      apply same_foldl. intros. apply same_send_to.
  - match goal with |- context [all_loaded (g_players ?g0)] => assert (same_seats g g0) as H0 end.
    { etrans; [|apply same_broadcast]. by apply same_update. }
    destruct (all_loaded _); [|by intros [= <-]].
    intros H. etrans; [exact H0|by eapply same_begin_playing].
Qed.

(** ** Leaving *)

(** Those who are gone when a reaping starts can be removed one after another. *)
Definition removable (g : GameState) (q : Z) : Prop :=
  q ≠ 0 ∧ q ≠ g_virtual_host_pid g.

Lemma removable_same g g' q :
  g_virtual_host_pid g' = g_virtual_host_pid g → removable g q → removable g' q.
Proof. unfold removable. by intros ->. Qed.

Lemma reap_player_marks now gone g :
  g_virtual_host_pid (reap_player now g gone) = g_virtual_host_pid g.
Proof.
  destruct gone as [q code]. unfold reap_player.
  match goal with |- context [if is_lobby ?g0 then _ else _] =>
    assert (g_virtual_host_pid g0 = g_virtual_host_pid g) as H0 end.
  { rewrite (ss_host _ _ (same_broadcast _ _ _)). by destruct (by_pid q (g_players g)). }
  destruct (is_lobby _); [|done]. by rewrite (ss_host _ _ (same_slot_info _ _)).
Qed.

Lemma seating_reap_player now gone g :
  removable g gone.1 → seating_wf g → seating_wf (reap_player now g gone).
Proof.
  destruct gone as [q code]. cbn [fst]. intros [Hq Hv] Hwf. unfold reap_player.
  match goal with |- seating_wf (if is_lobby ?g0 then _ else _) => assert (seating_wf g0) as H0 end.
  { eapply seating_wf_same; [apply same_broadcast|].
    apply (seating_remove q g); try done; by destruct (by_pid q (g_players g)). }
  destruct (is_lobby _); [|done]. eapply seating_wf_same; [apply same_slot_info|done].
Qed.

Lemma seating_reap_all now gone g :
  Forall (λ e, removable g e.1) gone → seating_wf g → seating_wf (foldl (reap_player now) g gone).
Proof.
  revert g. induction gone as [|e gone IH]; intros g Hall Hwf; [done|].
  apply Forall_cons in Hall as [He Hall]. cbn. apply IH; [|by apply seating_reap_player].
  eapply Forall_impl; [exact Hall|]. intros e'. by apply removable_same, reap_player_marks.
Qed.

Lemma gone_removable g :
  seating_wf g → Forall (λ e, removable g e.1) (gone_players (g_players g)).
Proof.
  intros Hwf. unfold gone_players. apply Forall_map, Forall_forall. intros p Hp.
  apply list_elem_of_In, filter_In in Hp as [Hp%list_elem_of_In [Hh Hl]%andb_true_iff].
  pose proof (sw_range _ Hwf p Hp). cbn. split; [lia|].
  intros E. apply (sw_host _ Hwf p Hp) in E. unfold is_human in Hh. by rewrite E in Hh.
Qed.

Lemma seating_reap now g g' :
  reap_left_players fmt_secs now g = Some g' → seating_wf g → seating_wf g'.
Proof.
  unfold reap_left_players. intros H Hwf. pose proof (gone_removable g Hwf) as Hall.
  destruct (gone_players (g_players g)) as [|e gone] eqn:Hg; [by injection H as <-|].
  apply bind_Some in H as (g1 & H1 & H).
  assert (same_seats g g1) as Hs1.
  { destruct (is_countdown g) eqn:Hc; [|by injection H1 as <-].
    trans (g <| g_phase := Lobby |>); [|by eapply same_chat_all].
    split; [done..|]. unfold is_countdown in Hc. destruct (g_phase g); try done.
    apply rtc_once, stage_abort. }
  revert H. match goal with |- context [foldl (reap_player now) ?g0 ?l] =>
    assert (seating_wf (foldl (reap_player now) g0 l)) as H0 end.
  { apply seating_reap_all.
    - eapply Forall_impl; [exact Hall|]. intros e'. apply removable_same, Hs1.
    - eapply seating_wf_same; [|exact Hwf]. etrans; [exact Hs1|done]. }
  destruct (_ && _); [|by intros [= <-]].
  intros H. eapply seating_wf_same; [by eapply same_begin_playing|exact H0].
Qed.
End playing.

(** ** The fake player *)

Lemma first_open_is_open t i : (length t <= 256)%nat → first_open t = Some i → Slots.is_open i t = true.
Proof.
  intros Hl (s & Hs & Hp & _)%position_u8_Some; [|done]. unfold Slots.is_open. by rewrite Hs.
Qed.

(** The pid kept for the fake player is that of the virtual host. *)
Definition fake_is_host (g : GameState) : bool := bool_decide (g_fake_player_pid g = Some (g_virtual_host_pid g)).

Lemma seating_toggle now g :
  fake_is_host g = false → seating_wf g → seating_wf (toggle_fake_player now g).1.
Proof.
  intros Hfp%bool_decide_eq_false Hwf. unfold toggle_fake_player. destruct (negb (is_lobby g)); [done|].
  destruct (g_fake_player_pid g) as [f|] eqn:Hf.
  - cbn [fst]. eapply seating_wf_same; [apply same_slot_info|].
    eapply seating_wf_same; [apply same_broadcast|].
    apply (seating_remove f g); [done|congruence|done..].
  - destruct (next_free_pid (g_players g)) as [c|] eqn:Hc; [|done].
    destruct (first_open (g_slots g)) as [sid|] eqn:Hs; [|done]. cbn [fst].
    apply next_free_pid_fresh in Hc as [Hr Hfresh].
    apply first_open_is_open in Hs; [|apply Hwf].
    eapply seating_wf_same; [apply same_slot_info|].
    eapply seating_wf_same; [apply same_broadcast_ok|].
    by eapply (seating_add ((new_player c (str "FakePlayer") 0 (new_chan 128)) <| p_loaded := true |>)
                           sid g).
Qed.

(** ** Joining *)

Lemma unheld_open_slot_open g sid :
  (length (g_slots g) <= 256)%nat → unheld_open_slot g = Some sid →
  Slots.is_open sid (g_slots g) = true ∧ g_holds g !! sid = None.
Proof.
  intros Hl. unfold unheld_open_slot. intros ([i s] & Hf & ->)%fmap_Some.
  apply find_some in Hf as [Hin [Ho Hh]%andb_true_iff].
  apply list_elem_of_In, list_elem_of_lookup in Hin as (k & Hk).
  rewrite list_lookup_imap in Hk. apply fmap_Some in Hk as (s' & Hs & [= -> ->]).
  pose proof (lookup_lt_Some _ _ _ Hs) as Hlt. cbn [fst snd] in *.
  rewrite wrap_small in * by (unfold uN; change (2 ^ 8) with 256; lia).
  unfold Slots.is_open. rewrite Nat2Z.id, Hs. split; [done|].
  by destruct (g_holds g !! Z.of_nat k).
Qed.

Lemma target_slot_open order nm g sid :
  (length (g_slots g) <= 256)%nat → target_slot order nm g = Some sid →
  Slots.is_open sid (g_slots g) = true.
Proof.
  intros Hl. unfold target_slot. destruct (reserved_slot order nm g) as [r|].
  - destruct (Slots.is_open r (g_slots g)) eqn:E; [by intros [= <-]|].
    intros H. by apply unheld_open_slot_open.
  - intros H. by apply unheld_open_slot_open.
Qed.

Lemma announce_keys p t : map seat_key (announce_player p t) = map seat_key t.
Proof.
  unfold announce_player. destruct (player_info _ _ _ _); [|done]. apply map_key_map.
  intros q. by destruct (p_pid q =? p_pid p).
Qed.

(** Giving the seat back. *)
Lemma occupy_release sid p t :
  p ≠ 0 → (length t <= 256)%nat → slots_wf t → Slots.is_open sid t = true →
  sid_of_pid p t = None →
  map slot_key (release p (occupy_slot sid p t).1).1 = map slot_key t.
Proof.
  intros Hp Hl Hwf Ho Hn. unfold Slots.is_open in Ho. unfold occupy_slot, with_slot.
  destruct (t !! Z.to_nat sid) as [s0|] eqn:Hs0; [|done]. cbn [fst]. apply is_status_true in Ho.
  pose proof (lookup_lt_Some _ _ _ Hs0) as Hlt.
  set (s1 := s0 <| slot_status := Occupied |> <| pid := p |> <| computer := 0 |>
                <| download_status := 100 |>). set (t1 := <[Z.to_nat sid := s1]> t).
  assert (t1 !! Z.to_nat sid = Some s1) as H1 by by apply list_lookup_insert_eq.
  assert (slots_wf t1) as Hwf1.
  { eapply slots_wf_insert; [done..|by intros []|]. intros q Hq [_ <-]. right.
    by apply sid_of_pid_None. }
  unfold release. destruct (sid_of_pid p t1) as [i|] eqn:Hi; cycle 1.
  { exfalso. rewrite sid_of_pid_None in Hi. by apply (Hi _ _ H1). }
  apply sid_of_pid_Some in Hi as (s & Hs & Hseat & _); [|by unfold t1; rewrite length_insert].
  assert (Z.to_nat i = Z.to_nat sid) as Ei by (destruct Hwf1 as [_ Hu]; by eapply (Hu _ _ s s1 p)).
  unfold open, with_slot. rewrite Ei, H1. cbn [fst]. unfold t1. rewrite list_insert_insert_eq.
  destruct Hwf as [Hc _]. eapply Forall_lookup_1 in Hc; [|exact Hs0].
  change @map with (@fmap list _). rewrite list_fmap_insert. apply list_insert_id.
  rewrite list_lookup_fmap, Hs0. cbn. f_equal. unfold slot_key. cbn. unfold const.
  rewrite Ho, Hc; [done|]. by rewrite Ho.
Qed.

Lemma seating_seat_player now key sid pid reserved conn_id req ip link g :
  seating_wf g → 1 <= pid <= 254 → pid ∉ player_pids (g_players g) →
  Slots.is_open sid (g_slots g) = true →
  seating_wf (seat_player now key sid pid reserved conn_id req ip link g).1.
Proof.
  intros Hwf Hr Hfresh Ho. unfold seat_player.
  set (g1 := g <| g_slots ::= λ t, (occupy_slot sid pid t).1 |>).
  assert (seating_wf (g1 <| g_slots ::= λ t, (release pid t).1 |>)) as Hback.
  { eapply seating_wf_same; [|exact Hwf]. split; [done| |done..].
    apply occupy_release; [lia|apply Hwf|apply Hwf|done|].
    apply sid_of_pid_elem. intros s Hs [Hoc E].
    destruct (sw_seated _ Hwf s Hs Hoc) as (q & Hq & _ & Eq); [lia|].
    apply Hfresh. rewrite <- E, <- Eq. by apply list_elem_of_fmap_2. }
  destruct (slot_info_join _ _ _ _ _ _ _) as [b|]; [|done].
  destruct (try_send link b) as [link' [[]|]]; [|done]. cbn [fst].
  match goal with |- seating_wf (if _ then _ else ?x) => assert (seating_wf x) as H0 end.
  { eapply seating_wf_same; [apply same_slot_info|].
    set (p := (joined_player pid req conn_id link' ip key reserved (g_cfg g1))
                <| p_link := introduce (joined_player pid req conn_id link' ip key reserved (g_cfg g1))
                               g1 link' |>).
    apply (seating_wf_same (g1 <| g_players ::= insert_player p |>)).
    { split; [|done..]. apply announce_keys. }
    by apply (seating_add p sid g). }
  destruct (_ <=? _); [by apply seating_delete_host|done].
Qed.

Lemma same_try_full_rejoin now conn_id req ip link g :
  same_seats g (try_full_rejoin now conn_id req ip link g).1.
Proof.
  unfold try_full_rejoin. destruct (negb _); [done|].
  destruct (g_pending_full g !! conn_id) as [[tp tk]|]; [|done].
  destruct (by_pid tp (g_players g)) as [p|]; [|done]. destruct (negb _); [done|]. cbn [fst].
  etrans; [|apply same_send_to_ok]. etrans; [|apply same_foldl; intros; apply same_send_to_ok].
  etrans; [|apply same_send_to_ok].
  trans (g <| g_players ::= by_pid_mut tp (reattach conn_id link) |>); [|done].
  by apply same_update.
Qed.

Lemma seating_req_join order now key conn_id payload g :
  seating_wf g → seating_wf (handle_req_join order now key conn_id payload g).1.
Proof.
  intros Hwf. unfold handle_req_join. destruct (pending_of conn_id g) as [[link ip]|]; [|done].
  set (g1 := g <| g_pending ::= remove_pending conn_id |>).
  assert (seating_wf g1) as Hwf1 by (eapply seating_wf_same; [|exact Hwf]; done).
  destruct (ReqJoin_decode payload) as [req|]; [|done].
  destruct (negb (is_lobby g1)).
  { pose proof (same_try_full_rejoin now conn_id req ip link g1) as Hs.
    destruct (try_full_rejoin now conn_id req ip link g1) as [g2 ok].
    destruct ok; by eapply seating_wf_same. }
  destruct (existsb _ _); [done|].
  destruct (target_slot order (name req) g1) as [sid|] eqn:Hsid; [|done].
  destruct (next_free_pid (g_players g1)) as [c|] eqn:Hc; [|done].
  apply next_free_pid_fresh in Hc as [Hr Hf].
  apply target_slot_open in Hsid; [|apply Hwf1]. by apply seating_seat_player.
Qed.

Lemma same_handle_leave conn_id code g : same_seats g (handle_leave conn_id code g).
Proof. unfold handle_leave. destruct (by_conn _ _); [by apply same_update|done]. Qed.

Lemma same_conn_closed now conn_id reason g : same_seats g (handle_conn_closed now conn_id reason g).
Proof.
  unfold handle_conn_closed. destruct (by_conn _ _) as [q|]; [|done].
  trans (g <| g_pending_full ::= delete conn_id |>); [done|]. apply same_update.
  intros p. by destruct (p_gproxy p), (p_disconnected_since p), (has_left p).
Qed.

(** ** Slot commands *)

Lemma seating_slots g t :
  seating_wf g → slots_wf t → length t = length (g_slots g) →
  (∀ q, q ≠ 0 → (∃ s, s ∈ t ∧ seats q s) ↔ (∃ s, s ∈ g_slots g ∧ seats q s)) →
  seating_wf (g <| g_slots := t |>).
Proof.
  intros [Hd Hr Hs Hl Hv Ht Hm Hvi] Hwf Hlen Hq. split; try done.
  - change (length t <= 256)%nat. lia.
  - intros s Hin Ho Hn. destruct (proj1 (Hq (pid s) Hn)) as (s' & Hs' & Ho' & E); [by exists s|].
    rewrite <- E in *. by apply Ht.
  - intros p Hp Hh. apply Hq; [specialize (Hr p Hp); lia|]. by apply Hm.
Qed.

Lemma seating_slot_command now op g :
  seating_wf g → slots_wf (op (g_slots g)).1 → length (op (g_slots g)).1 = length (g_slots g) →
  (∀ q, q ≠ 0 → (∃ s, s ∈ (op (g_slots g)).1 ∧ seats q s) ↔ (∃ s, s ∈ g_slots g ∧ seats q s)) →
  seating_wf (slot_command now op g).
Proof.
  intros Hwf Ht Hl Hq. unfold slot_command.
  pose proof (seating_slots g (op (g_slots g)).1 Hwf Ht Hl Hq) as H.
  destruct (op (g_slots g)) as [t []]; [|done]. eapply seating_wf_same; [apply same_slot_info|done].
Qed.

(** The slot has a player in it. *)
Definition seats_player (sid : Z) (g : GameState) : bool :=
  match g_slots g !! Z.to_nat sid with Some s => is_status Occupied s && negb (pid s =? 0) | None => false end.

Lemma seats_player_false sid g s :
  seats_player sid g = false → g_slots g !! Z.to_nat sid = Some s → slot_status s = Occupied → pid s = 0.
Proof.
  unfold seats_player. intros H Hs Ho%is_status_true. rewrite Hs, Ho in H. cbn in H.
  by apply negb_false_iff, Z.eqb_eq in H.
Qed.

Lemma seats_vacate sid f (t : SlotTable) q :
  (∀ s, t !! Z.to_nat sid = Some s → slot_status s = Occupied → pid s = 0) →
  (∀ s, slot_status (f s) ≠ Occupied) → q ≠ 0 →
  (∃ s, s ∈ (with_slot sid f t).1 ∧ seats q s) ↔ (∃ s, s ∈ t ∧ seats q s).
Proof.
  intros Hn Hf Hq. unfold with_slot. destruct (t !! Z.to_nat sid) as [s0|] eqn:Hs0; [|done].
  cbn [fst]. pose proof (lookup_lt_Some _ _ _ Hs0) as Hlt. setoid_rewrite list_elem_of_lookup.
  split; intros (s & (i & Hi) & Ho & E); exists s; (split; [|by split]); exists i.
  - destruct (decide (i = Z.to_nat sid)) as [->|]; [|by rewrite list_lookup_insert_ne in Hi].
    rewrite list_lookup_insert_eq in Hi by done. injection Hi as <-. by destruct (Hf s0).
  - rewrite list_lookup_insert_ne; [done|]. intros <-. assert (s = s0) as -> by congruence.
    specialize (Hn s0 eq_refl Ho). congruence.
Qed.

Lemma seats_swap a b f c (t : SlotTable) q :
  (∃ s, s ∈ (swap_slots a b f c t).1 ∧ seats q s) ↔ (∃ s, s ∈ t ∧ seats q s).
Proof.
  destruct (swap_slots a b f c t).2 eqn:E; [|by rewrite swap_slots_false].
  apply swap_slots_inv in E as (sa & sb & Ha & Hb & Hab & ->).
  setoid_rewrite list_elem_of_lookup.
  assert (∀ i, _) as Hlk by (intros i; exact (lookup_exchange t _ _ _ _
    (exchanged f c sa sb) (exchanged f c sb sa) i Ha Hb)).
  split.
  - intros (s & (i & Hi) & Hs). rewrite Hlk in Hi. destruct (decide (i = Z.to_nat b)).
    { injection Hi as <-. apply exchanged_seats in Hs. eauto. }
    destruct (decide (i = Z.to_nat a)); [|eauto].
    injection Hi as <-. apply exchanged_seats in Hs. eauto.
  - intros (s & (i & Hi) & Hs). destruct (decide (i = Z.to_nat b)) as [->|].
    { assert (s = sb) as -> by congruence. exists (exchanged f c sa sb).
      split; [|by apply exchanged_seats]. exists (Z.to_nat a). rewrite Hlk.
      by rewrite decide_False, decide_True by done. }
    destruct (decide (i = Z.to_nat a)) as [->|].
    { assert (s = sa) as -> by congruence. exists (exchanged f c sb sa).
      split; [|by apply exchanged_seats]. exists (Z.to_nat b). rewrite Hlk. by rewrite decide_True. }
    exists s. split; [|done]. exists i. by rewrite Hlk, !decide_False.
Qed.

Lemma seating_open now sid g : seats_player sid g = false → seating_wf g → seating_wf (cmd_open now sid g).
Proof.
  intros Hu Hwf. apply seating_slot_command; [done|apply (slot_step_wf (g_slots g)); [constructor|apply Hwf]
    |apply with_slot_length|]. intros q Hq. apply seats_vacate; [intros s; by apply seats_player_false|done..].
Qed.
Lemma seating_close now sid g : seats_player sid g = false → seating_wf g → seating_wf (cmd_close now sid g).
Proof.
  intros Hu Hwf. apply seating_slot_command; [done|apply (slot_step_wf (g_slots g)); [constructor|apply Hwf]
    |apply with_slot_length|]. intros q Hq. apply seats_vacate; [intros s; by apply seats_player_false|done..].
Qed.
Lemma seating_swap now a b g : seating_wf g → seating_wf (cmd_swap now a b g).
Proof.
  intros Hwf. apply seating_slot_command; [done|apply swap_slots_wf, Hwf|..].
  - apply (slot_step_length (g_slots g)). constructor.
  - intros. apply seats_swap.
Qed.
