(* ===== verification/Reconnect.v ===== *)
(** Reconnection of GProxy clients (spectre-engine, src/gproxy.rs, and the GPS frames of
    src/actor.rs).  A handler that gives a link away returns the one it lets go. *)
From S2P Require Import Prelude Utf8 Text BytesExt Frame W3gs Gps Conn Slots History Players.
From S2P Require Import ReplayBody Relay Tick Game CatchUp Phases Lobby.

Definition gproxy_empty_actions (g : GameState) : Z :=
  let secs := as_secs (c_reconnect_wait (g_cfg g)) in
  if secs =? 0 then 0 else
  let mins := if 60 <=? secs then secs / 60 else secs in
  Z.min (sat_sub mins 1) 9.

(** [for packet in replay { if p.link.try_send(packet).is_err() { break; } }]. *)
Fixpoint send_until_refused (pkts : list bytes) (link : PlayerLink) : PlayerLink :=
  match pkts with
  | [] => link
  | b :: pkts =>
    match try_send link b with
    | (link, Ok _) => send_until_refused pkts link
    | (link, Err _) => link
    end
  end.

(** The player back on the new link, with what they missed. *)
Definition resume (conn_id received : Z) (replay : list bytes) (link : PlayerLink) (p : Player)
  : Player :=
  p <| p_conn_id := conn_id |> <| p_disconnected_since := None |> <| p_left := None |>
    <| p_link := send_until_refused replay (send_ignore link (reconnect_ok received)) |>.

Definition handle_gps_reconnect (conn_id : Z) (req : ReconnectReq) (link : PlayerLink)
    (g : GameState) : GameState * bool * option PlayerLink :=
  let refuse reason := (g, false, Some (send_ignore link (reject reason))) in
  match by_pid (rr_pid req) (g_players g) with
  | None => refuse reject_reason.NOT_FOUND
  | Some p =>
    if negb (p_gproxy p) || negb (p_reconnect_key p =? rr_reconnect_key req)
    then refuse reject_reason.INVALID_KEY else
    match p_gproxy_buffer p ≫= replay_from (rr_last_packet req) with
    | None => refuse reject_reason.NOT_FOUND
    | Some replay =>
      let received := match p_gproxy_buffer p with Some b => total_sent b | None => 0 end in
      (g <| g_players ::= by_pid_mut (rr_pid req) (resume conn_id received replay link) |>,
       true, None)
    end
  end.

(** ** Waiting for a reconnection *)

Definition lost_notice (nm : bytes) : bytes :=
  str "Player [" ++ nm ++ str "] has lost connection but is using GProxy++ and may reconnect.".
Definition wait_notice (remaining : Z) : bytes :=
  str "Waiting for reconnect (" ++ dec remaining ++ str " seconds remain)...".

(** The body of the loop, with the notice it adds. *)
Definition reap_gproxy (now grace : Z) (p : Player) : Player * list bytes :=
  match p_disconnected_since p with
  | None => (p, [])
  | Some since =>
    let gone := elapsed now since in
    if grace <=? gone then
      (p <| p_left := Some (str "failed to reconnect in time") |>
         <| p_left_code := ids.PLAYERLEAVE_GPROXY |> <| p_disconnected_since := None |>, [])
    else if negb (p_gproxy_disconnect_notice_sent p) then
      (p <| p_gproxy_disconnect_notice_sent := true |> <| p_last_gproxy_wait_notice := Some now |>,
       [lost_notice (p_name p)])
    else if match p_last_gproxy_wait_notice p with
            | Some t => 20 * SEC <=? elapsed now t
            | None => false
            end then
      (p <| p_last_gproxy_wait_notice := Some now |>, [wait_notice (as_secs (sat_sub grace gone))])
    else (p, [])
  end.

Definition send_notices (now : Z) (notices : list bytes) (g : GameState) : option GameState :=
  foldl (λ og m, g ← og; send_chat_all now m g) (Some g) notices.

Definition reap_gproxy_timeouts (now grace : Z) (g : GameState) : option GameState :=
  let notices := concat (map (λ p, (reap_gproxy now grace p).2) (g_players g)) in
  send_notices now notices (g <| g_players ::= map (λ p, (reap_gproxy now grace p).1) |>).

(** ** GPS frames *)

(** [if p.gproxy_buffer.is_none() { p.gproxy_buffer = Some(GProxyBuffer::new(500)) }]. *)
Definition use_gproxy (p : Player) : Player :=
  p <| p_gproxy := true |>
    <| p_gproxy_buffer ::= λ b, match b with Some b => Some b | None => Some (new_gbuf 500) end |>.

Definition gps_init (port empty_actions : Z) (p : Player) : Player :=
  (use_gproxy p) <| p_link ::= λ l,
    send_ignore l (init port (p_pid p) (p_reconnect_key p) empty_actions) |>.

Definition iccup_gps_init (port empty_actions : Z) (g : GameState) (p : Player) : Player :=
  let m := c_map (g_cfg g) in
  (use_gproxy p) <| p_link ::= λ l,
    send_result (rejoin_token (p_pid p) (p_reconnect_key p) port (m_crc m) (m_sha1 m)
                              (c_name (g_cfg g)) (m_path m))
      (send_ignore l (iccup_init port (p_pid p) (p_reconnect_key p) empty_actions)) |>.

(** The RECONNECT frame of a connection that is nobody's yet. *)
Definition gps_reconnect (conn_id : Z) (payload : bytes) (g : GameState)
  : GameState * option PlayerLink :=
  match decode_reconnect payload, pending_of conn_id g with
  | Ok req, Some (link, _) =>
    let '(g, _, link) :=
      handle_gps_reconnect conn_id req link (g <| g_pending ::= remove_pending conn_id |>) in
    (g, link)
  | _, _ => (g, None)
  end.

Definition on_gps_frame (conn_id : Z) (frame : Frame) (g : GameState)
  : GameState * option PlayerLink :=
  let id := fr_id frame in
  if id =? gps_ids.INIT then
    (g <| g_players ::= by_conn_mut conn_id
        (gps_init (reconnect_port (g_cfg g)) (gproxy_empty_actions g)) |>, None)
  else if id =? gps_ids.ACK then (g <| g_players ::= by_conn_mut conn_id use_gproxy |>, None)
  else if id =? gps_ids.RECONNECT then gps_reconnect conn_id (fr_payload frame) g
  else if id =? gps_ids.FULL then
    match decode_full (fr_payload frame) with
    | Ok token => (g <| g_pending_full ::= <[conn_id := token]> |>, None)
    | Err _ => (g, None)
    end
  else (g, None).

Definition on_iccup_gps_frame (conn_id : Z) (frame : Frame) (g : GameState)
  : GameState * option PlayerLink :=
  let id := fr_id frame in
  if id =? iccup_ids.INIT then
    (g <| g_players ::= by_conn_mut conn_id
        (iccup_gps_init (reconnect_port (g_cfg g)) (gproxy_empty_actions g) g) |>, None)
  else if id =? iccup_ids.ACK then (g <| g_players ::= by_conn_mut conn_id use_gproxy |>, None)
  else if id =? iccup_ids.RECONNECT then gps_reconnect conn_id (fr_payload frame) g
  else (g, None).

(** ** What a reconnected client has received *)

Lemma send_until_refused_room pkts link :
  ch_closed link = false → (length (ch_queue link) + length pkts <= ch_cap link)%nat →
  (ch_taken link <= length (ch_sent link))%nat →
  send_until_refused pkts link
  = mkChan (ch_cap link) false (ch_sent link ++ pkts) (ch_taken link) (ch_refused link).
Proof.
  revert link. induction pkts as [|b pkts IH]; intros link Hc Hq Ht; cbn [send_until_refused].
  { rewrite app_nil_r. destruct link. by cbn in *; subst. }
  unfold try_send. rewrite Hc. destruct (Nat.leb_spec (ch_cap link) (length (ch_queue link))) as [|_].
  { cbn [length] in Hq. lia. }
  rewrite IH.
  - cbn. by rewrite <- app_assoc.
  - done.
  - unfold ch_queue in *. cbn [length ch_sent ch_taken ch_cap] in *.
    rewrite length_drop in *. rewrite length_app. cbn [length]. lia.
  - cbn. rewrite length_app. lia.
Qed.

(** C16: a GProxy client that lost its connection gets its place back on a new link exactly
    when it names a player who uses GProxy, with that player's key, and a number of packets
    the buffer can continue from; it is then told how many packets the host has sent and
    gets precisely those it misses, in order, so that what it had and what it gets are
    everything the host ever sent it.  A refusal changes nothing and gives the link back
    with the reason. *)
Theorem gps_reconnect_spec conn_id req link g p buf all :
  by_pid (rr_pid req) (g_players g) = Some p → p_gproxy_buffer p = Some buf → gbuf_log buf all →
  0 <= rr_last_packet req → chan_wf link →
  ch_closed link = false →
  Z.of_nat (length (ch_queue link)) + capacity buf + 1 <= Z.of_nat (ch_cap link) →
  let '(g', ok, back) := handle_gps_reconnect conn_id req link g in
  ok = p_gproxy p && (p_reconnect_key p =? rr_reconnect_key req)
       && bool_decide (zlen all - capacity buf <= rr_last_packet req <= zlen all) ∧
  (ok = false → g' = g ∧ ∃ reason, back = Some (send_ignore link (reject reason))) ∧
  (ok = true → back = None ∧ ∃ p', by_pid (rr_pid req) (g_players g') = Some p' ∧
     p_conn_id p' = conn_id ∧ p_disconnected_since p' = None ∧ p_left p' = None ∧
     ∃ replay, ch_sent (p_link p') = ch_sent link ++ reconnect_ok (zlen all) :: replay ∧
               take (Z.to_nat (rr_last_packet req)) all ++ replay = all).
Proof.
  intros Hp Hbuf Hlog Hl Hwf Hc Hroom. unfold handle_gps_reconnect. rewrite Hp.
  destruct (p_gproxy p); cbn [negb orb andb]; [|split_and!; [done|eauto|done]].
  destruct (p_reconnect_key p =? rr_reconnect_key req); cbn [negb andb]; [|split_and!; [done|eauto|done]].
  rewrite Hbuf. cbn [mbind option_bind]. rewrite (gbuf_log_total _ _ Hlog).
  pose proof Hlog as (Hcap & Hb & Hpk & Hf). pose proof (zlen_nonneg all) as Hnn.
  case_bool_decide as Hr; cycle 1.
  { unfold replay_from. rewrite (gbuf_log_total _ _ Hlog), Hf.
    destruct (Z.ltb_spec (zlen all) (rr_last_packet req)); cbn [orb]; [split_and!; [done|eauto|done]|].
    rewrite (proj2 (Z.ltb_lt (rr_last_packet req) _)) by lia. split_and!; [done|eauto|done]. }
  pose proof (log_from (SeqLogLaws := gbuf_laws) buf all (rr_last_packet req) Hlog
                ltac:(cbn; lia)) as ->.
  split; [done|]. split; [done|]. intros _. split; [done|].
  set (replay := drop (Z.to_nat (rr_last_packet req)) all).
  exists (resume conn_id (zlen all) replay link p). split.
  { change (by_pid (rr_pid req) (by_pid_mut (rr_pid req) (resume conn_id (zlen all) replay link)
              (g_players g)) = Some (resume conn_id (zlen all) replay link p)).
    rewrite by_pid_mut_same by done. by rewrite Hp. }
  do 3 (split; [done|]). exists replay. split; [|apply take_drop].
  change (p_link (resume conn_id (zlen all) replay link p))
    with (send_until_refused replay (send_ignore link (reconnect_ok (zlen all)))).
  assert (Z.of_nat (length replay) <= capacity buf) as Hlen.
  { unfold replay. rewrite length_drop. unfold zlen in *. lia. }
  unfold send_ignore, try_send. rewrite Hc.
  destruct (Nat.leb_spec (ch_cap link) (length (ch_queue link))) as [|_]; [lia|]. cbn [fst].
  destruct Hwf as [Ht _].
  rewrite send_until_refused_room; [cbn; by rewrite <- app_assoc|done| |].
  - unfold ch_queue in *. cbn [ch_sent ch_taken ch_cap] in *. rewrite length_drop in *.
    rewrite length_app. cbn [length]. lia.
  - cbn. rewrite length_app. lia.
Qed.

Definition sample_buffer : GProxyBuffer :=
  push_all (push := gbuf_push) (new_gbuf 3) [[10]; [11]; [12]; [13]].
(** Player 1 is on GProxy and lost the connection a second in. *)
Definition sample_lost : Player :=
  (sample_player 1) <| p_gproxy := true |> <| p_gproxy_buffer := Some sample_buffer |>
    <| p_reconnect_key := 7 |> <| p_disconnected_since := Some SEC |>.
Definition sample_gproxy : GameState :=
  sample_rejoin <| g_players := [sample_lost; sample_player 2] |>.

Lemma gps_reconnect_spec_witness :
  ∃ p', by_pid 1 (g_players (handle_gps_reconnect 9 (mkReconnectReq 1 7 2) (new_chan 8)
                               sample_gproxy).1.1) = Some p' ∧
        ch_sent (p_link p') = [reconnect_ok 4; [12]; [13]].
Proof.
  assert (gbuf_log sample_buffer [[10]; [11]; [12]; [13]]) as Hlog
    by (apply gbuf_pushed; vm_compute; reflexivity).
  assert (chan_wf (new_chan 8 : PlayerLink)) as Hwf by (split; vm_compute; lia).
  pose proof (gps_reconnect_spec 9 (mkReconnectReq 1 7 2) (new_chan 8) sample_gproxy
    sample_lost sample_buffer _ eq_refl eq_refl Hlog ltac:(done) Hwf eq_refl ltac:(vm_compute; congruence)) as H.
  destruct (handle_gps_reconnect 9 (mkReconnectReq 1 7 2) (new_chan 8) sample_gproxy)
    as [[g' ok] back] eqn:E.
  destruct H as (_ & _ & H). destruct H as (_ & p' & Hp' & _ & _ & _ & replay & Hs & Ht).
  { change ok with (g', ok, back).1.2. rewrite <- E. vm_compute. reflexivity. }
  exists p'. split; [exact Hp'|]. rewrite Hs. injection Ht as ->. reflexivity.
Defined.

(** ** Waiting, and giving up *)

Lemma send_notices_players now ms g g' :
  send_notices now ms g = Some g' →
  ∃ f, g_players g' = map f (g_players g) ∧ ∀ p, inert p (f p).
Proof.
  unfold send_notices. revert g. induction ms as [|m ms IH]; intros g; cbn.
  { intros [= <-]. exists id. by rewrite map_id. }
  destruct (send_chat_all now m g) as [g1|] eqn:E; cycle 1.
  { intros H. exfalso. clear -H. induction ms as [|m' ms IH]; [done|by apply IH]. }
  intros (f2 & E2 & I2)%IH. destruct (send_chat_all_players _ _ _ _ E) as [(f1 & E1 & I1) _].
  exists (λ p, f2 (f1 p)). rewrite E2, E1, map_map. split; [done|].
  intros p. etrans; [apply I1|apply I2].
Qed.

Lemma send_notices_short now ms g :
  Forall (λ m, zlen m <= 127) ms → ∃ g', send_notices now ms g = Some g'.
Proof.
  unfold send_notices. intros Hall. revert g.
  induction Hall as [|m ms Hm _ IH]; intros g; cbn; [eauto|].
  destruct (send_chat_all_short now m g Hm) as [g1 ->]. apply IH.
Qed.

Lemma reap_gproxy_pid now grace p : p_pid (reap_gproxy now grace p).1 = p_pid p.
Proof. unfold reap_gproxy. repeat (case_match; try done). Qed.


(** Once the time allowed for a reconnection is over the player has failed to come
    back; before that nobody is removed, whatever notices are sent.  The loop changes
    nothing about players who are connected, and no chat message can fail when every name
    is short enough ([long_name_panics] shows that it can otherwise). *)
Theorem reap_gproxy_spec now grace g g' pid p :
  reap_gproxy_timeouts now grace g = Some g' → by_pid pid (g_players g) = Some p →
  ∃ p', by_pid pid (g_players g') = Some p' ∧
  match p_disconnected_since p with
  | Some since =>
      if grace <=? elapsed now since
      then p_left p' = Some (str "failed to reconnect in time") ∧
           p_left_code p' = ids.PLAYERLEAVE_GPROXY
      else p_left p ≠ None → p_left p' = p_left p
  | None => inert p p'
  end.
Proof.
  unfold reap_gproxy_timeouts. intros H Hp.
  destruct (send_notices_players _ _ _ _ H) as (f & Hf & Hi).
  change (g_players (g <| g_players ::= map (λ p, (reap_gproxy now grace p).1) |>))
    with (map (λ p, (reap_gproxy now grace p).1) (g_players g)) in Hf.
  exists (f (reap_gproxy now grace p).1). split.
  { rewrite Hf, map_map, by_pid_map by (intros; rewrite (in_pid _ _ (Hi _)); apply reap_gproxy_pid).
    by rewrite Hp. }
  unfold reap_gproxy. destruct (p_disconnected_since p) as [since|]; [|apply Hi].
  destruct (grace <=? elapsed now since).
  - cbn [fst]. rewrite (in_left _ _ (Hi _)) by done. by rewrite (in_left_code _ _ (Hi _)).
  - intros Hl. repeat case_match; cbn [fst]; by rewrite (in_left _ _ (Hi _)).
Qed.

Lemma reap_gproxy_spec_witness :
  ∃ g' p', reap_gproxy_timeouts (200 * SEC) (180 * SEC) sample_gproxy = Some g' ∧
    by_pid 1 (g_players g') = Some p' ∧ p_left_code p' = ids.PLAYERLEAVE_GPROXY.
Proof.
  destruct (reap_gproxy_timeouts (200 * SEC) (180 * SEC) sample_gproxy) as [g'|] eqn:E;
    [|vm_compute in E; discriminate E].
  destruct (reap_gproxy_spec _ _ _ _ 1 sample_lost E eq_refl) as (p' & Hp' & H).
  exists g', p'. split; [reflexivity|]. split; [exact Hp'|]. exact (proj2 H).
Defined.

Definition long_name : bytes := concat (replicate 60 [195; 169]).

(** A player whose name is sixty two-byte characters makes the host panic by losing a
    GProxy connection in a running game: the notice is cut at its 127th byte, inside a
    character of the name. *)
Theorem long_name_panics :
  from_utf8_lossy long_name = long_name ∧
  reap_gproxy_timeouts (2 * SEC) (180 * SEC)
    (sample_gproxy <| g_players ::= map (λ p, p <| p_name := long_name |>) |>) = None.
Proof. split; vm_compute; reflexivity. Qed.
