(* ===== verification/Actor.v ===== *)
(** The clock of a game (spectre-engine, src/actions.rs: [on_tick]; src/actor.rs: the timer
    of [run], [start_countdown]).  The parameters are those of the parts it uses: the
    checksum of packets, the order of a hash map, the text of a duration. *)
From S2P Require Import Prelude Utf8 Text Store BytesExt Frame W3gs Gps Conn Slots History Players.
From S2P Require Import ReplayBody StatsDota Relay Tick Game CatchUp Desync Turns Lag Phases MapXfer.
From S2P Require Import Lobby Seating Reconnect.

Definition start_countdown (now : Z) (g : GameState) : GameState :=
  if is_lobby g then g <| g_phase := Countdown now COUNTDOWN_TOTAL (COUNTDOWN_STEPS + 1) |> else g.

Definition LOADING_TIMEOUT : Z := 60 * SEC.
Definition MAX_LAG : Z := 60 * SEC.
Definition GAME_OVER_WAIT : Z := 60 * SEC.

(** Everybody still in the game who meets the condition leaves it. *)
Definition leave_all (sel : Player → bool) (reason : bytes) (g : GameState) : GameState :=
  g <| g_players ::= map (λ p, if sel p && is_live p
         then p <| p_left := Some reason |> <| p_left_code := ids.PLAYERLEAVE_DISCONNECT |>
         else p) |>.

Definition ping_interval : Z := 5 * SEC.

Definition send_pings (now : Z) (g : GameState) : GameState :=
  if (in_lobby g || is_loading g) && (ping_interval <=? elapsed now (g_last_ping_at g))
  then (broadcast now (ping_from_host (wrap 32 (as_millis (elapsed now (g_created_at g))))) g)
         <| g_last_ping_at := now |>
  else g.

(** ** A tick in the lobby *)

Definition lobby_announce (now : Z) (g : GameState) : option GameState :=
  match g_announce_message g with
  | Some msg =>
    if (0 <? g_announce_interval g)
       && match g_last_announce_time g with
          | Some t => g_announce_interval g <=? elapsed now t
          | None => true
          end
    then g ← send_chat_all now msg g; Some (g <| g_last_announce_time := Some now |>)
    else Some g
  | None => Some g
  end.

Definition lobby_time_limit (now : Z) (g : GameState) : GameState :=
  if (default 0 (g_autostart_players g) =? 0) && (0 <? c_lobby_time_limit (g_cfg g)) then
    let g := if existsb (λ p, is_live p && p_reserved p) (g_players g)
             then g <| g_last_reserved_seen := now |> else g in
    if c_lobby_time_limit (g_cfg g) * 60 * SEC <=? elapsed now (g_last_reserved_seen g)
    then g <| g_phase := Over |> else g
  else g.

(** ** A tick of the countdown *)

Definition countdown_step (gone : Z) : Z :=
  sat_sub COUNTDOWN_STEPS (wrap 8 (as_millis gone / as_millis COUNTDOWN_STEP)).

(** ** The end of a game: what the database is told of it *)

Definition dota_record_of (p : DotAPlayerStats) : DotAPlayerRecord :=
  mkDotARecord (d_colour p) (d_name p) (d_hero p) (d_kills p) (d_deaths p) (d_assists p)
    (d_creep_kills p) (d_creep_denies p) (d_neutral_kills p) (d_tower_kills p) (d_rax_kills p)
    (d_courier_kills p).

Definition save_game_data `{W : World} (now : Z) (g : GameState) : GameState :=
  let now_sec := unix_secs now in
  let started_sec := now_sec - as_secs (elapsed now (g_created_at g)) in
  let g := with_store (log_game (c_name (g_cfg g)) (m_path (c_map (g_cfg g))) started_sec now_sec
                         (map p_name (iter_humans (g_players g)))) g in
  match g_dota g with
  | Some dota =>
    let duration_sec := wrap 32 (ds_duration_min dota * 60 + ds_duration_sec dota) in
    let records := map (λ e, dota_record_of e.2) (dota_order (ds_players dota)) in
    with_store (log_dota_game (c_name (g_cfg g)) (ds_winner dota) duration_sec (ds_tree_hp dota)
                  (ds_throne_hp dota) records) g
  | None => g
  end.

Section tick.
Context `{W : World} (crc32 : bytes → Z) (hash_order : list (Z * list Z) → list (Z * list Z))
        (fmt_secs : Z → bytes).

Definition countdown_tick (now started_at total last : Z) (g : GameState) : option GameState :=
  let gone := elapsed now started_at in
  if total <=? gone then begin_loading fmt_secs now g
  else
    let step := countdown_step gone in
    if (step <? last) && (1 <=? step) && (step <=? COUNTDOWN_STEPS)
    then send_chat_all now (dec step ++ str ". . .")
                       (g <| g_phase := Countdown started_at total step |>)
    else Some g.

Definition loading_tick (now : Z) (g : GameState) : option GameState :=
  match g_started_loading_at g with
  | Some started =>
    if LOADING_TIMEOUT <=? elapsed now started
    then reap_left_players fmt_secs now
           (leave_all (λ p, negb (p_loaded p)) (str "loading timed out (60s)") g)
    else Some g
  | None => Some g
  end.

(** ** A tick of the game; [true] when the clock stands still *)

Definition real_players (g : GameState) : Z := zlen (List.filter is_live (g_players g)).

Definition game_over_timer (now : Z) (g : GameState) : GameState :=
  let g := if (real_players g =? 1) && (1 <? g_start_players g)
              && negb (is_some (g_game_over_time g))
           then g <| g_game_over_time := Some now |> else g in
  match g_game_over_time g with
  | Some over_at =>
    if GAME_OVER_WAIT <=? elapsed now over_at
    then leave_all (λ _, true) (str "was disconnected (gameover timer finished)") g else g
  | None => g
  end.

Definition playing_tick (now skipped : Z) (g : GameState) : option (GameState * bool) :=
  let g := pump_rejoin_catchup now g in
  let g := match g_fake_player_pid g with
           | Some fpid => g <| g_players ::=
               by_pid_mut fpid (λ p, p <| p_sync_counter := g_sync_counter g |>) |>
           | None => g
           end in
  g ← check_desync hash_order now g;
  let '(g, lagging) := check_lag crc32 now g in
  if lagging then Some (drop_lagging_players now MAX_LAG g, true) else
  g ← send_all_actions crc32 now skipped g;
  Some (game_over_timer now g, false).

Definition any_reconnectable (now : Z) (g : GameState) : bool :=
  existsb (λ p, is_human p && p_gproxy p
                && match p_disconnected_since p with
                   | Some t => elapsed now t <? c_reconnect_wait (g_cfg g)
                   | None => false
                   end) (g_players g).

(** What every tick but that of a standing clock ends with. *)
Definition end_tick (now : Z) (g : GameState) : GameState :=
  if (real_players g =? 0) && negb (any_reconnectable now g) && (is_playing g || is_loading g)
  then save_game_data now
         ((with_relay send_game_over (g <| g_phase := Over |>)) <| g_finished := true |>)
  else g.

Definition on_tick (now skipped : Z) (g : GameState) : option GameState :=
  g ← pump_downloads crc32 now g;
  g ← reap_gproxy_timeouts now (c_reconnect_wait (g_cfg g)) g;
  let g := send_pings now g in
  match g_phase g with
  | Lobby => g ← lobby_announce now g; Some (end_tick now (lobby_time_limit now g))
  | Countdown started_at total last =>
    g ← countdown_tick now started_at total last g; Some (end_tick now g)
  | Loading => g ← loading_tick now g; Some (end_tick now g)
  | Playing =>
    '(g, standing) ← playing_tick now skipped g;
    Some (if standing : bool then g else end_tick now g)
  | Over => Some (end_tick now (g <| g_finished := true |>))
  end.

(** The branch of [run] for the timer. *)
Definition timer_branch (now : Z) (g : GameState) : option GameState :=
  let g := record_jitter now (sat_sub now (deadline (g_tick g))) g in
  '(t, skipped) ← advance now (g_tick g);
  on_tick now skipped (g <| g_tick := t |>).
End tick.

(** ** A rejoin while the others are still loading *)

Lemma broadcast_phase now b g : g_phase (broadcast now b g) = g_phase g.
Proof. unfold broadcast. by destruct (is_playing g). Qed.

Definition load_key (p : Player) : Z * bool := (p_pid p, p_loaded p).

(** Sending changes nothing about who has loaded. *)
Record same_load (g g' : GameState) : Prop := {
  sl_players : map load_key (g_players g') = map load_key (g_players g);
  sl_phase : g_phase g' = g_phase g;
  sl_history : is_playing g = false → g_full_history g' = g_full_history g }.

#[export] Instance same_load_preorder : PreOrder same_load.
Proof.
  split; [by split|]. intros g1 g2 g3 [] []. split; [congruence..|]. intros H.
  rewrite sl_history1, sl_history0; [done..|]. unfold is_playing in *. by rewrite sl_phase0.
Qed.

Lemma inert_load f p : inert p (f p) → load_key (f p) = load_key p.
Proof. intros []. unfold load_key. congruence. Qed.

Lemma same_load_broadcast now b g : same_load g (broadcast now b g).
Proof.
  split; [|apply broadcast_phase|].
  - rewrite broadcast_players, map_map. apply map_ext. intros. by apply inert_load, deliver_inert.
  - unfold broadcast. by intros ->.
Qed.

Lemma same_load_send_to now pid b g : same_load g (send_to now pid b g).
Proof.
  split; [|done..]. apply update_first_map. intros. apply inert_load, send_to_player_inert.
Qed.

Lemma all_loaded_keys t t' : map load_key t' = map load_key t → all_loaded t' = all_loaded t.
Proof.
  intros E. assert (∀ t, all_loaded t = forallb snd (map load_key t)) as H.
  { intros u. induction u as [|p u IH]; [done|]. cbn. by rewrite <- IH. }
  by rewrite !H, E.
Qed.

Lemma all_loaded_set pid f t :
  (∀ p, p_loaded (f p) = true) →
  (∀ p, p ∈ t → p_pid p ≠ pid → p_loaded p = true) → NoDup (player_pids t) →
  all_loaded (by_pid_mut pid f t) = true.
Proof.
  intros Hf Hall Hd. rewrite by_pid_mut_nodup by done. unfold all_loaded.
  apply forallb_forall. intros q (p & <- & Hp)%in_map_iff.
  destruct (has_pid pid p) eqn:E; [apply Hf|]. apply Hall; [by apply list_elem_of_In|].
  intros Hpid. apply has_pid_true in Hpid. congruence.
Qed.

(** When the last player to report the map loaded is one who came back with a fresh
    client while the others were loading, the report is taken as the end of a rejoin and
    the game is not started: everybody has loaded and it stays in its loading phase. *)
Theorem rejoin_misses_start fmt_secs now conn_id g p :
  g_phase g = Loading → NoDup (player_pids (g_players g)) →
  by_conn conn_id (g_players g) = Some p → p_rejoin p = AwaitingLoaded →
  (∀ q, q ∈ g_players g → p_pid q ≠ p_pid p → p_loaded q = true) →
  first_seq (g_full_history g) = 0 →
  ∃ g', handle_loaded fmt_secs now conn_id g = Some g' ∧
        all_loaded (g_players g') = true ∧ g_phase g' = Loading.
Proof.
  intros Hph Hd Hc Hrj Hall Hseq. unfold handle_loaded. rewrite Hc.
  assert (by_pid (p_pid p) (g_players g) = Some p) as Hp.
  { apply by_pid_elem; [done|]. unfold by_conn in Hc. by apply find_some in Hc as [?%list_elem_of_In _]. }
  rewrite bool_decide_true by (by rewrite Hp, <- Hrj). rewrite Hseq. cbn [Z.ltb].
  match goal with |- context [foldl ?f g ?l] => set (g1 := foldl f g l) end.
  assert (same_load g g1) as [Hk Hph1 _].
  { unfold g1. generalize (player_pids (List.filter (λ q, negb (p_pid q =? p_pid p) && is_live q) (g_players g))).
    intros l. generalize g. induction l as [|m l IH]; intros g0; [done|]. cbn.
    etrans; [apply (same_load_send_to now (p_pid p) (game_loaded_others m))|apply IH]. }
  eexists. split; [reflexivity|].
  rewrite (all_loaded_keys _ _ (sl_players _ _ (same_load_broadcast _ _ _))), broadcast_phase.
  split; [|by change (g_phase g1 = Loading); rewrite Hph1].
  assert (∀ q, q ∈ g_players g1 → p_pid q ≠ p_pid p → p_loaded q = true) as Hall1.
  { intros q Hq Hne. assert (load_key q ∈ map load_key (g_players g)) as Hin
      by (rewrite <- Hk; by apply list_elem_of_fmap_2).
    apply list_elem_of_fmap in Hin as (q' & [= E1 E2] & Hq'). rewrite E2. apply Hall; congruence. }
  apply all_loaded_set; [done|done|].
  assert (∀ t, player_pids t = map fst (map load_key t)) as E
    by (intros; unfold player_pids; by rewrite map_map).
  by rewrite E, Hk, <- E.
Qed.

(** Player 2 came back while player 1 was loading; player 1 has loaded by now. *)
Definition sample_returned : Player :=
  (sample_player 2) <| p_loaded := false |> <| p_rejoin := AwaitingLoaded |>.
Definition sample_loading : GameState :=
  (new_game (H := plain_unicode) 0 42 None sample_config) <| g_phase := Loading |>
    <| g_started_loading_at := Some 0 |> <| g_players := [sample_player 1; sample_returned] |>.

Definition phase_of (og : option GameState) : option GamePhase := g_phase <$> og.

(** An hour later the game is still loading. *)
Lemma rejoin_misses_start_witness :
  ∃ g', handle_loaded (λ _, []) SEC 2 sample_loading = Some g' ∧ g_phase g' = Loading ∧
        phase_of (on_tick (W := plain_world) (λ _, 0) id (λ _, []) (3600 * SEC) 0 g') = Some Loading.
Proof.
  destruct (rejoin_misses_start (λ _, []) SEC 2 sample_loading sample_returned) as (g' & Hg & _ & Hph).
  - reflexivity.
  - apply (bool_decide_unpack _). vm_compute. reflexivity.
  - reflexivity.
  - reflexivity.
  - intros q Hq Hne. change (q ∈ [sample_player 1; sample_returned]) in Hq.
    apply elem_of_cons in Hq as [->|Hq]; [reflexivity|].
    apply list_elem_of_singleton in Hq. subst q. by destruct Hne.
  - reflexivity.
  - exists g'. split; [exact Hg|]. split; [exact Hph|].
    assert (handle_loaded (λ _, []) SEC 2 sample_loading ≫= (λ g', phase_of
      (on_tick (W := plain_world) (λ _, 0) id (λ _, []) (3600 * SEC) 0 g') ) = Some Loading) as H
      by (vm_compute; reflexivity).
    rewrite Hg in H. exact H.
Defined.
