(* ===== verification/Database.v ===== *)
(** The database (spectre-store, src/writer.rs, src/queries.rs, src/schema.rs): the worker that
    executes the commands of [Store], and the answers to queries.

    A table is the list of its rows, the oldest first; a column that nothing reads back is kept
    where the worker writes it.  SQLite is taken as its documentation has it: a new rowid is one
    more than the largest, COLLATE NOCASE folds the case of ASCII letters, and a row that
    violates a foreign key is not inserted when foreign keys are enforced. *)
From S2P Require Import Prelude F64 Utf8 Text Conn Slots Players Store StatsDota Game Actor.

(** ** Tables *)

Record GameRow := mkGameRow { gr_id : Z; gr_name : bytes; gr_map : bytes; gr_started : Z; gr_ended : Z; gr_duration : Z }.
Record DotAGameRow := mkDotAGameRow { dg_game_id : Z; dg_winner : Z; dg_duration : Z; dg_tree_hp : Z; dg_throne_hp : Z }.
Record DownloadRow := mkDownloadRow {
  dl_map : bytes; dl_map_size : Z; dl_name : bytes; dl_ip : bytes; dl_spoofed : Z; dl_downloaded : Z; dl_duration : Z;
  dl_created : Z }.
Record MmdRow := mkMmdRow { mr_game_id : Z; mr_pid : Z; mr_var_name : bytes; mr_val_num : option f64; mr_val_str : option bytes }.

Record Db := mkDb {
  db_bans : list Ban;
  db_admins : list (bytes * bytes);
  db_games : list GameRow;
  db_game_players : list (Z * bytes);
  db_dotagames : list DotAGameRow;
  db_dotaplayers : list (Z * DotAPlayerRecord);
  db_downloads : list DownloadRow;
  db_w3mmd_vars : list MmdRow }.

(** [init_schema] on a new file. *)
Definition empty_db : Db := mkDb [] [] [] [] [] [] [] [].

Definition nocase (a b : bytes) : bool := eq_ignore_ascii_case a b.
(** [i64::saturating_sub] *)
Definition sat_sub_i64 (a b : Z) : Z := Z.max (- 2 ^ 63) (Z.min (2 ^ 63 - 1) (a - b)).
Definition as_i64 (n : Z) : Z := let m := wrap 64 n in if m <? 2 ^ 63 then m else m - 2 ^ 64.

(** ** The worker *)

(** [SELECT id FROM games WHERE name = ?1 ORDER BY id DESC LIMIT 1] *)
Definition latest_game (name : bytes) (db : Db) : option Z :=
  match map gr_id (filter (λ r, gr_name r = name) (db_games db)) with
  | [] => None
  | i :: l => Some (foldr Z.max i l)
  end.

Definition next_rowid (ids : list Z) : Z := foldr Z.max 0 ids + 1.

Section worker.
Context (foreign_keys : bool).

(** Whether a row that refers to this game can be inserted. *)
Definition may_refer (game_id : Z) (db : Db) : bool :=
  negb foreign_keys || existsb (λ r, gr_id r =? game_id) (db_games db).

Definition insert_game (name map_path : bytes) (started ended : Z) (players : list bytes) (db : Db) : Db :=
  let duration := sat_sub_i64 ended started in
  let game_id := next_rowid (map gr_id (db_games db)) in
  db <| db_games ::= λ l, l ++ [mkGameRow game_id name map_path started ended duration] |>
     <| db_game_players ::= λ l, l ++ map (λ p, (game_id, p)) players |>.

Definition insert_dota_game (game_name : bytes) (winner duration tree_hp throne_hp : Z) (players : list DotAPlayerRecord) (db : Db) : Db :=
  let game_id := default 0 (latest_game game_name db) in
  if may_refer game_id db then
    db <| db_dotagames ::= λ l, l ++ [mkDotAGameRow game_id winner duration tree_hp throne_hp] |>
       <| db_dotaplayers ::= λ l, l ++ map (λ p, (game_id, p)) players |>
  else db.

(** [now] is the time in seconds. *)
Definition insert_download (now : Z) (map_path : bytes) (map_size : Z) (name ip : bytes) (spoofed downloaded duration : Z) (db : Db) : Db :=
  db <| db_downloads ::= λ l, l ++ [mkDownloadRow map_path (as_i64 map_size) name ip spoofed (as_i64 downloaded) (as_i64 duration) now] |>.

(** One command of [run_worker]. *)
Definition run_command (now : Z) (cmd : StoreCmd) (db : Db) : Db :=
  match cmd with
  | AddBan name ip admin reason => db <| db_bans ::= λ l, l ++ [mkBan name ip admin reason now] |>
  | RemoveBan name => db <| db_bans ::= filter (λ b, nocase (bn_name b) name = false) |>
  | AddAdmin name server => db <| db_admins ::= λ l, filter (λ a, a.1 ≠ name) l ++ [(name, server)] |>
  | RemoveAdmin name => db <| db_admins ::= filter (λ a, nocase a.1 name = false) |>
  | LogGame name map_path started ended players => insert_game name map_path started ended players db
  | LogDotAGame game_name winner duration tree_hp throne_hp players =>
    insert_dota_game game_name winner duration tree_hp throne_hp players db
  | RecordDownload map_path map_size name ip spoofed downloaded duration =>
    insert_download now map_path map_size name ip spoofed downloaded duration db
  | LogW3MmdVar game_name pid var_name val_num val_str =>
    match latest_game game_name db with
    | Some gid => db <| db_w3mmd_vars ::= λ l, l ++ [mkMmdRow gid pid var_name val_num val_str] |>
    | None => db
    end
  end.

(** Commands with the times at which they are executed. *)
Definition run_worker (cmds : list (Z * StoreCmd)) (db : Db) : Db := foldl (λ db c, run_command c.1 c.2 db) db cmds.
End worker.

(** ** Queries *)

(** Which of the rows that match [LIMIT 1] keeps is for SQLite to choose, which says only that it
    is one of them. *)
Class Sqlite := { first_row : list Ban → option Ban }.
Class SqliteLaws `{Sqlite} : Prop := {
  first_row_in : ∀ l b, first_row l = Some b → b ∈ l;
  first_row_none : ∀ l, first_row l = None ↔ l = [] }.

Definition ban_matches (name ip : bytes) (b : Ban) : bool :=
  (nocase (bn_name b) name && negb (bytes_eqb (bn_name b) [])) || (bytes_eqb (bn_ip b) ip && negb (bytes_eqb (bn_ip b) [])).
Definition is_banned `{Sqlite} (name ip : bytes) (db : Db) : option Ban :=
  first_row (filter (λ b, ban_matches name ip b = true) (db_bans db)).

Definition is_admin (name : bytes) (db : Db) : bool := existsb (λ a, nocase a.1 name) (db_admins db).

(** [COALESCE(SUM(..), 0)] *)
Definition sum_of (f : DotAPlayerRecord → Z) (l : list DotAPlayerRecord) : Z := foldr (λ p acc, f p + acc) 0 l.

(** A sum that is no [u32] makes reading the row fail, and the query answer nothing. *)
Definition query_dota_stats (name : bytes) (db : Db) : option DotAStatsSummary :=
  let rows := filter (λ p, nocase (dr_name p) name = true) (map snd (db_dotaplayers db)) in
  let games := zlen rows in
  let s := mkSummary games 0 0 (sum_of dr_kills rows) (sum_of dr_deaths rows) (sum_of dr_assists rows) (sum_of dr_creep_kills rows)
             (sum_of dr_creep_denies rows) (sum_of dr_neutral_kills rows) (sum_of dr_tower_kills rows) (sum_of dr_rax_kills rows) in
  if forallb (λ n, (0 <=? n) && (n <? 2 ^ 32)) [games; ss_kills s; ss_deaths s; ss_assists s; ss_creep_kills s; ss_creep_denies s; ss_neutral_kills s;
                                 ss_tower_kills s; ss_rax_kills s]
  then if 0 <? games then Some s else None else None.

(** The players of the games of a name, counted by the join of the two tables. *)
Definition game_player_count (game_name : bytes) (db : Db) : Z :=
  zlen (filter (λ pg : (Z * bytes) * GameRow, gr_id pg.2 = pg.1.1 ∧ gr_name pg.2 = game_name)
          (p ← db_game_players db; map (λ r, (p, r)) (db_games db))).

(** What the worker replies to a query; the journal mode is SQLite's own. *)
Inductive StoreQuery :=
| IsBanned (name ip : bytes)
| IsAdmin (name : bytes)
| GamePlayerCount (game_name : bytes)
| GetDotAStats (name : bytes).

Inductive StoreReply :=
| BanReply (ban : option Ban)
| AdminReply (is_admin : bool)
| CountReply (count : Z)
| StatsReply (stats : option DotAStatsSummary).

Definition answer_query `{Sqlite} (q : StoreQuery) (db : Db) : StoreReply :=
  match q with
  | IsBanned name ip => BanReply (is_banned name ip db)
  | IsAdmin name => AdminReply (is_admin name db)
  | GamePlayerCount game_name => CountReply (game_player_count game_name db)
  | GetDotAStats name => StatsReply (query_dota_stats name db)
  end.

(** ** What a history of commands leaves standing *)

(** An item stands that some command added and no later command removed. *)
Definition stands {C X} (adds : C → X → Prop) (removes : C → X → Prop) (cmds : list C) (x : X) : Prop :=
  ∃ l1 c l2, cmds = l1 ++ c :: l2 ∧ adds c x ∧ Forall (λ d, ¬ removes d x) l2.

Definition adds_ban (c : Z * StoreCmd) (b : Ban) : Prop :=
  c.2 = AddBan (bn_name b) (bn_ip b) (bn_admin b) (bn_reason b) ∧ bn_created b = c.1.
Definition removes_ban (c : Z * StoreCmd) (b : Ban) : Prop := ∃ name, c.2 = RemoveBan name ∧ nocase (bn_name b) name = true.
Definition adds_admin (c : Z * StoreCmd) (name : bytes) : Prop := ∃ server, c.2 = AddAdmin name server.
Definition removes_admin (c : Z * StoreCmd) (name : bytes) : Prop := ∃ n, c.2 = RemoveAdmin n ∧ nocase name n = true.

Section standing.
Context {C X : Type} (adds removes : C → X → Prop).

Lemma stands_nil x : ¬ stands adds removes [] x.
Proof. intros (l1 & c & l2 & E & _). by destruct l1. Qed.

Lemma stands_snoc l c x : stands adds removes (l ++ [c]) x ↔ (stands adds removes l x ∧ ¬ removes c x) ∨ adds c x.
Proof.
  split.
  - intros (l1 & d & l2 & E & Hd & Hl). destruct l2 as [|e l2 _] using rev_ind.
    + apply app_inj_tail in E as [_ ->]. by right.
    + rewrite app_comm_cons, app_assoc in E. apply app_inj_tail in E as [-> ->].
      apply Forall_app in Hl as [Hl [He _]%Forall_cons]. left. split; [|exact He]. exists l1, d, l2. auto.
  - intros [[(l1 & d & l2 & -> & Hd & Hl) Hc]|Hc]; [|exists l, c, []; auto].
    exists l1, d, (l2 ++ [c]). rewrite <- app_assoc. split; [done|]. split; [done|].
    apply Forall_app. split; [done|by apply Forall_singleton].
Qed.
End standing.

Section history.
Context (foreign_keys : bool).

Notation run cmds := (run_worker foreign_keys cmds empty_db).

Lemma run_worker_app l1 l2 db : run_worker foreign_keys (l1 ++ l2) db = run_worker foreign_keys l2 (run_worker foreign_keys l1 db).
Proof. apply foldl_app. Qed.

(** A set of rows that each command changes as [adds] and [removes] say holds what stands. *)
Lemma standing_rows {X} (rows : Db → X → Prop) (adds removes : Z * StoreCmd → X → Prop) cmds x :
  (∀ x, ¬ rows empty_db x) →
  (∀ c db x, rows (run_command foreign_keys c.1 c.2 db) x ↔ (rows db x ∧ ¬ removes c x) ∨ adds c x) →
  rows (run cmds) x ↔ stands adds removes cmds x.
Proof.
  intros H0 Hstep. induction cmds as [|c cmds IH] using rev_ind.
  - split; [intros []%H0|intros []%stands_nil].
  - rewrite run_worker_app, stands_snoc, <- IH. apply Hstep.
Qed.

Lemma bans_step c db b :
  b ∈ db_bans (run_command foreign_keys c.1 c.2 db) ↔ (b ∈ db_bans db ∧ ¬ removes_ban c b) ∨ adds_ban c b.
Proof.
  assert (∀ db', db_bans db' = db_bans db → b ∈ db_bans db' ↔ b ∈ db_bans db) as Hsame by (by intros ? ->).
  destruct c as [now cmd]. unfold removes_ban, adds_ban. cbn [fst snd]. destruct cmd; cbn [run_command].
  2: { cbn. rewrite list_elem_of_filter, <- not_true_iff_false. split.
       - intros [Hn Hb]. left. split; [done|]. intros (n & [= <-] & Hn'). done.
       - intros [[Hb Hn]|[? _]]; [|done]. split; [|done]. intros Ht. apply Hn. eauto. }
  1: { cbn. rewrite elem_of_app, list_elem_of_singleton. split.
       - intros [Hb| ->]; [left; split; [done|by intros (? & [=] & _)]|by right].
       - intros [[Hb _]|[[= -> -> -> ->] <-]]; [by left|right; by destruct b]. }
  all: rewrite Hsame; [naive_solver|]; clear.
  all: unfold insert_game, insert_dota_game, insert_download; by repeat case_match.
Qed.

Lemma admins_step c db n :
  n ∈ map fst (db_admins (run_command foreign_keys c.1 c.2 db)) ↔ (n ∈ map fst (db_admins db) ∧ ¬ removes_admin c n) ∨ adds_admin c n.
Proof.
  assert (∀ db', db_admins db' = db_admins db → n ∈ map fst (db_admins db') ↔ n ∈ map fst (db_admins db)) as Hsame
    by (by intros ? ->).
  destruct c as [now cmd]. unfold removes_admin, adds_admin. cbn [fst snd]. destruct cmd; cbn [run_command].
  3: { cbn. rewrite map_app, elem_of_app. cbn. rewrite list_elem_of_singleton. split.
       - intros [(x & -> & [_ Hx]%list_elem_of_filter)%list_elem_of_fmap| ->]; [left|right; eauto].
         split; [by apply (list_elem_of_fmap_2 fst)|by intros (? & [=] & _)].
       - intros [[(x & -> & Hx)%list_elem_of_fmap _]|[s [= -> _]]]; [|by right].
         destruct (decide (x.1 = name)) as [E|E]; [by right|left]. apply (list_elem_of_fmap_2 fst).
         by apply list_elem_of_filter. }
  3: { cbn. split.
       - intros (x & -> & [Hn Hx]%list_elem_of_filter)%list_elem_of_fmap. left.
         split; [by apply (list_elem_of_fmap_2 fst)|]. intros (? & [= <-] & Ht). congruence.
       - intros [[(x & -> & Hx)%list_elem_of_fmap Hn]|[s ?]]; [|done]. apply (list_elem_of_fmap_2 fst).
         apply list_elem_of_filter. split; [|done]. apply not_true_iff_false. intros Ht. apply Hn. eauto. }
  all: rewrite Hsame; [naive_solver|]; clear.
  all: unfold insert_game, insert_dota_game, insert_download; by repeat case_match.
Qed.

Lemma bans_stand cmds b : b ∈ db_bans (run cmds) ↔ stands adds_ban removes_ban cmds b.
Proof. apply (standing_rows (λ db b, b ∈ db_bans db)); [intros x; inversion 1|apply bans_step]. Qed.

Lemma admins_stand cmds n : n ∈ map fst (db_admins (run cmds)) ↔ stands adds_admin removes_admin cmds n.
Proof. apply (standing_rows (λ db n, n ∈ map fst (db_admins db))); [intros x; inversion 1|apply admins_step]. Qed.
End history.

(** C10: the lists of bans and of admins follow the history of commands: a name or an address is
    reported as banned exactly when a ban that matches it was recorded and no later command
    removed a ban of that ban's name, the report being one of those bans with the time at which
    it was recorded; and a name is an admin's exactly when it was added, in any mix of capital
    letters, and not removed later. *)
Theorem lists_follow_history `{SqliteLaws} (foreign_keys : bool) (cmds : list (Z * StoreCmd)) (name ip : bytes) :
  let db := run_worker foreign_keys cmds empty_db in
  (∀ b, is_banned name ip db = Some b → ban_matches name ip b = true ∧ stands adds_ban removes_ban cmds b) ∧
  (is_banned name ip db = None ↔ ∀ b, stands adds_ban removes_ban cmds b → ban_matches name ip b = false) ∧
  (is_admin name db = true ↔ ∃ n, stands adds_admin removes_admin cmds n ∧ nocase n name = true).
Proof.
  intros db. unfold is_banned, is_admin. split; [|split].
  - intros b [Hm Hb]%first_row_in%list_elem_of_filter. split; [done|]. by apply (bans_stand foreign_keys).
  - rewrite first_row_none. split.
    + intros E b Hb%(bans_stand foreign_keys). apply not_true_iff_false. intros Hm.
      assert (b ∈ filter (λ b, ban_matches name ip b = true) (db_bans db)) as Hin by (by apply list_elem_of_filter).
      rewrite E in Hin. inversion Hin.
    + intros Hall. apply elem_of_nil_inv. intros b [Hm Hb]%list_elem_of_filter.
      apply (bans_stand foreign_keys), Hall in Hb. congruence.
  - rewrite existsb_exists. split.
    + intros (x & Hx%list_elem_of_In & Hn). exists x.1. split; [|done].
      apply (admins_stand foreign_keys). by apply (list_elem_of_fmap_2 fst).
    + intros (n & (x & -> & Hx)%(admins_stand foreign_keys)%list_elem_of_fmap & Hn).
      exists x. split; [by apply list_elem_of_In|done].
Qed.

(** ** The records of games *)

(** Every row names a game that is there; without enforcement the records of DotA may name game
    0, which is none. *)
Record db_ok (foreign_keys : bool) (db : Db) : Prop := {
  ok_ids : NoDup (map gr_id (db_games db));
  ok_pos : Forall (λ i, 0 < i) (map gr_id (db_games db));
  ok_players : Forall (λ p, p.1 ∈ map gr_id (db_games db)) (db_game_players db);
  ok_dotagames : Forall (λ d, dg_game_id d ∈ map gr_id (db_games db) ∨ (foreign_keys = false ∧ dg_game_id d = 0)) (db_dotagames db);
  ok_dotaplayers : Forall (λ p, p.1 ∈ map gr_id (db_games db) ∨ (foreign_keys = false ∧ p.1 = 0)) (db_dotaplayers db);
  ok_mmd : Forall (λ r, mr_game_id r ∈ map gr_id (db_games db)) (db_w3mmd_vars db) }.

Lemma foldr_max_le l z : z ∈ l → z <= foldr Z.max 0 l.
Proof. induction 1; cbn; lia. Qed.

Lemma foldr_max_in i l : foldr Z.max i l ∈ i :: l.
Proof.
  induction l as [|x l IH]; cbn; [by left|]. destruct (Z.max_spec x (foldr Z.max i l)) as [[_ ->]|[_ ->]].
  - apply elem_of_cons in IH as [->|IH]; [by left|]. right. by right.
  - right. by left.
Qed.

Lemma next_rowid_fresh ids : next_rowid ids ∉ ids.
Proof. intros Hin%foldr_max_le. unfold next_rowid in Hin. lia. Qed.

Lemma next_rowid_pos ids : 0 < next_rowid ids.
Proof.
  unfold next_rowid. enough (0 <= foldr Z.max 0 ids) by lia. induction ids as [|i ids IH]; cbn; lia.
Qed.

Lemma latest_game_in name db i : latest_game name db = Some i → ∃ r, r ∈ db_games db ∧ gr_id r = i ∧ gr_name r = name.
Proof.
  unfold latest_game. destruct (map gr_id _) as [|x l] eqn:E; intros [= <-].
  pose proof (foldr_max_in x l) as Hin. rewrite <- E in Hin.
  apply list_elem_of_fmap in Hin as (r & -> & [Hn Hr]%list_elem_of_filter). by exists r.
Qed.

Lemma latest_game_id name db i : latest_game name db = Some i → i ∈ map gr_id (db_games db).
Proof. intros (r & Hr & <- & _)%latest_game_in. by apply (list_elem_of_fmap_2 gr_id). Qed.

(** The game that was added last is the one that its name denotes. *)
Lemma latest_game_new name db row :
  gr_name row = name → gr_id row = next_rowid (map gr_id (db_games db)) → (∀ l, db_games l = db_games db ++ [row] → latest_game name l = Some (gr_id row)).
Proof.
  intros Hn Hi db' E. unfold latest_game. rewrite E, filter_app, map_app, filter_cons_True, filter_nil by done. cbn [map].
  assert (∀ z, z ∈ map gr_id (filter (λ r, gr_name r = name) (db_games db)) → z < gr_id row) as Hlt.
  { intros z (r & -> & [_ Hr]%list_elem_of_filter)%list_elem_of_fmap. rewrite Hi. unfold next_rowid.
    enough (gr_id r <= foldr Z.max 0 (map gr_id (db_games db))) by lia.
    apply foldr_max_le. by apply (list_elem_of_fmap_2 gr_id). }
  destruct (map gr_id (filter _ (db_games db))) as [|x l]; [done|]. cbn [app]. f_equal. rewrite foldr_app. cbn.
  assert (x < gr_id row) as Hx by (apply Hlt; by left). rewrite Z.max_l by lia.
  assert (∀ z, z ∈ l → z < gr_id row) as Hl by (intros z Hz; apply Hlt; by right). clear Hlt Hx.
  induction l as [|y l IH]; [done|]. cbn. rewrite IH by (intros z Hz; apply Hl; by right).
  assert (y < gr_id row) by (apply Hl; by left). lia.
Qed.

Section records.
Context (foreign_keys : bool).

Lemma db_ok_more_games db db' :
  db_ok foreign_keys db → map gr_id (db_games db) ⊆ map gr_id (db_games db') →
  Forall (λ p, p.1 ∈ map gr_id (db_games db')) (db_game_players db) ∧
  Forall (λ d, dg_game_id d ∈ map gr_id (db_games db') ∨ (foreign_keys = false ∧ dg_game_id d = 0)) (db_dotagames db) ∧
  Forall (λ p, p.1 ∈ map gr_id (db_games db') ∨ (foreign_keys = false ∧ p.1 = 0)) (db_dotaplayers db) ∧
  Forall (λ r, mr_game_id r ∈ map gr_id (db_games db')) (db_w3mmd_vars db).
Proof.
  intros [_ _ Hp Hd Hdp Hm] Hsub.
  split; [|split; [|split]]; eapply Forall_impl; eauto; cbn; naive_solver.
Qed.

Lemma insert_game_ok name map_path started ended players db :
  db_ok foreign_keys db → db_ok foreign_keys (insert_game name map_path started ended players db).
Proof.
  intros Hok. unfold insert_game. set (id := next_rowid _). set (row := mkGameRow _ _ _ _ _ _).
  assert (map gr_id (db_games db ++ [row]) = map gr_id (db_games db) ++ [id]) as E by (by rewrite map_app).
  destruct (db_ok_more_games db (db <| db_games ::= λ l, l ++ [row] |>) Hok) as (Hp & Hd & Hdp & Hm).
  { cbn. rewrite E. set_solver. }
  cbn in Hp, Hd, Hdp, Hm. destruct Hok as [Hi Hz _ _ _ _]. split; cbn; rewrite ?E in *; try done.
  - apply NoDup_app. split; [done|]. split; [|apply NoDup_singleton].
    intros z Hz' ->%list_elem_of_singleton. by apply (next_rowid_fresh (map gr_id (db_games db))).
  - apply Forall_app. split; [done|]. apply Forall_singleton, next_rowid_pos.
  - apply Forall_app. split; [done|]. apply Forall_forall.
    intros p (n & -> & _)%list_elem_of_fmap. cbn. set_solver.
Qed.

Lemma insert_dota_game_ok game_name winner duration tree_hp throne_hp players db :
  db_ok foreign_keys db → db_ok foreign_keys (insert_dota_game foreign_keys game_name winner duration tree_hp throne_hp players db).
Proof.
  intros Hok. unfold insert_dota_game. set (id := default 0 _).
  destruct (may_refer _ _ _) eqn:Href; [|done].
  assert (id ∈ map gr_id (db_games db) ∨ (foreign_keys = false ∧ id = 0)) as Hid.
  { unfold id in *. destruct (latest_game game_name db) as [i|] eqn:E; [left; by apply latest_game_id in E|].
    cbn in *. unfold may_refer in Href. apply orb_true_iff in Href as [Hf%negb_true_iff|Hf]; [by right|].
    apply existsb_exists in Hf as (r & Hr%list_elem_of_In & Er%Z.eqb_eq). left. rewrite <- Er. by apply (list_elem_of_fmap_2 gr_id). }
  destruct Hok as [Hi Hz Hp Hd Hdp Hm]. split; cbn; try done; apply Forall_app; (split; [done|]).
  - by apply Forall_singleton.
  - apply Forall_forall. by intros p (n & -> & _)%list_elem_of_fmap.
Qed.

Lemma run_command_ok now cmd db : db_ok foreign_keys db → db_ok foreign_keys (run_command foreign_keys now cmd db).
Proof.
  intros Hok. destruct cmd; cbn [run_command].
  5: by apply insert_game_ok.
  5: by apply insert_dota_game_ok.
  6: { destruct (latest_game _ _) as [gid|] eqn:E; [|done]. apply latest_game_id in E. destruct Hok as [? ? ? ? ? Hm].
       split; cbn; try done. apply Forall_app. split; [done|]. by apply Forall_singleton. }
  all: destruct Hok; split; done.
Qed.

Lemma run_worker_ok cmds db : db_ok foreign_keys db → db_ok foreign_keys (run_worker foreign_keys cmds db).
Proof. revert db. induction cmds as [|c cmds IH]; intros db Hok; [done|]. apply IH. by apply run_command_ok. Qed.

Lemma empty_db_ok : db_ok foreign_keys empty_db.
Proof. split; cbn; constructor. Qed.
End records.

Section statistics.
Context (foreign_keys : bool).

(** The records of a history that the database keeps: those of games that were logged before. *)
Fixpoint kept_records (games : list bytes) (cmds : list (Z * StoreCmd)) : list DotAPlayerRecord :=
  match cmds with
  | [] => []
  | (_, LogGame n _ _ _ _) :: cmds => kept_records (n :: games) cmds
  | (_, LogDotAGame n _ _ _ _ players) :: cmds =>
    (if negb foreign_keys || bool_decide (n ∈ games) then players else []) ++ kept_records games cmds
  | _ :: cmds => kept_records games cmds
  end.

Lemma latest_game_none name db : latest_game name db = None ↔ name ∉ map gr_name (db_games db).
Proof.
  unfold latest_game. split.
  - destruct (map gr_id _) as [|x l] eqn:E; [|done]. intros _ (r & -> & Hr)%list_elem_of_fmap.
    assert (gr_id r ∈ map gr_id (filter (λ r', gr_name r' = gr_name r) (db_games db))) as Hin
      by (apply (list_elem_of_fmap_2 gr_id), list_elem_of_filter; done).
    rewrite E in Hin. inversion Hin.
  - intros Hn. destruct (filter _ _) as [|r l] eqn:E; [done|]. exfalso. apply Hn.
    assert (r ∈ filter (λ r', gr_name r' = name) (db_games db)) as [<- Hr]%list_elem_of_filter by (rewrite E; by left).
    by apply (list_elem_of_fmap_2 gr_name).
Qed.

Lemma may_refer_latest name db :
  db_ok foreign_keys db →
  may_refer foreign_keys (default 0 (latest_game name db)) db = negb foreign_keys || bool_decide (name ∈ map gr_name (db_games db)).
Proof.
  intros [_ Hpos _ _ _ _]. unfold may_refer. f_equal. apply eq_bool_prop_intro. rewrite bool_decide_spec, Is_true_true, existsb_exists.
  destruct (latest_game name db) as [i|] eqn:E.
  - apply latest_game_in in E as (r & Hr & <- & <-). split; intros _; [by apply (list_elem_of_fmap_2 gr_name)|].
    exists r. split; [by apply list_elem_of_In|apply Z.eqb_refl].
  - apply latest_game_none in E. split; [|done]. intros (r & Hr%list_elem_of_In & Hz%Z.eqb_eq). cbn in Hz.
    apply (list_elem_of_fmap_2 gr_id) in Hr. rewrite Hz in Hr. rewrite Forall_forall in Hpos. by apply Hpos in Hr.
Qed.

Lemma kept_records_spec cmds db games :
  db_ok foreign_keys db → (∀ n, n ∈ map gr_name (db_games db) ↔ n ∈ games) →
  map snd (db_dotaplayers (run_worker foreign_keys cmds db)) = map snd (db_dotaplayers db) ++ kept_records games cmds.
Proof.
  revert db games. induction cmds as [|[now cmd] cmds IH]; intros db games Hok Hn; [by rewrite app_nil_r|].
  pose proof (run_command_ok foreign_keys now cmd db Hok) as Hok'. 
  change (run_worker foreign_keys ((now, cmd) :: cmds) db) with (run_worker foreign_keys cmds (run_command foreign_keys now cmd db)).
  destruct cmd; cbn [kept_records run_command] in *.
  5: { rewrite (IH _ (name :: games)); [done|done|]. intros n. cbn. rewrite map_app, elem_of_app, Hn. cbn. set_solver. }
  5: { revert Hok'. unfold insert_dota_game. rewrite may_refer_latest by done.
       rewrite (bool_decide_ext (game_name ∈ map gr_name (db_games db)) (game_name ∈ games)) by apply Hn.
       destruct (_ || _); intros Hok'; [|by apply IH]. rewrite (IH _ games) by done. cbn. rewrite map_app, <- app_assoc. f_equal. f_equal.
       rewrite map_map. apply map_id. }
  6: { destruct (latest_game _ _); by rewrite (IH _ games). }
  all: by rewrite (IH _ games).
Qed.
End statistics.

Lemma sum_of_1 l : sum_of (λ _, 1) l = zlen l.
Proof. induction l as [|p l IH]; [done|]. rewrite zlen_cons, <- IH. reflexivity. Qed.

(** What is answered about a player is the sum over the games of DotA that were saved: of all
    the records sent to the database for a game that was logged before (for any game, where
    references are not enforced), those under the player's name in any mix of capital letters
    are counted and added up, and there is no answer exactly when there are none or a total
    does not fit 32 bits. *)
Theorem stats_are_totals (foreign_keys : bool) (cmds : list (Z * StoreCmd)) (name : bytes) :
  let rows := filter (λ p, nocase (dr_name p) name = true) (kept_records foreign_keys [] cmds) in
  let total f := sum_of f rows in
  let s := mkSummary (zlen rows) 0 0 (total dr_kills) (total dr_deaths) (total dr_assists) (total dr_creep_kills)
             (total dr_creep_denies) (total dr_neutral_kills) (total dr_tower_kills) (total dr_rax_kills) in
  let fits := Forall (λ f, 0 <= total f < 2 ^ 32)
                [λ _, 1; dr_kills; dr_deaths; dr_assists; dr_creep_kills; dr_creep_denies; dr_neutral_kills; dr_tower_kills; dr_rax_kills] in
  let answer := query_dota_stats name (run_worker foreign_keys cmds empty_db) in
  (answer = Some s ↔ rows ≠ [] ∧ fits) ∧ (answer = None ↔ rows = [] ∨ ¬ fits).
Proof.
  cbv zeta. unfold query_dota_stats.
  rewrite (kept_records_spec foreign_keys cmds empty_db []); [|apply empty_db_ok|by intros n].
  cbn [empty_db db_dotaplayers map app]. set (rows := filter _ _).
  pose proof (sum_of_1 rows) as Hcount.
  match goal with |- context [if ?b then _ else _] => set (fit := b) end.
  match goal with |- (_ ↔ _ ∧ ?F) ∧ _ => assert (fit = true ↔ F) as <- end.
  { subst fit. cbn [ss_kills ss_deaths ss_assists ss_creep_kills ss_creep_denies ss_neutral_kills ss_tower_kills ss_rax_kills forallb].
    rewrite !Forall_cons, Forall_nil, Hcount, !andb_true_iff. unfold is_true. rewrite !Z.leb_le, !Z.ltb_lt. tauto. }
  destruct fit.
  - destruct rows as [|p rows]; [naive_solver|]. rewrite (proj2 (Z.ltb_lt 0 (zlen (p :: rows)))) by (rewrite zlen_cons; pose proof (zlen_nonneg rows); lia).
    naive_solver.
  - naive_solver.
Qed.

(** ** One game in the tables *)

(** What the tables hold under a game's id. *)
Definition rows_of (id : Z) (db : Db) : list GameRow * list bytes * list DotAGameRow * list DotAPlayerRecord :=
  (filter (λ r, gr_id r = id) (db_games db), map snd (filter (λ p, p.1 = id) (db_game_players db)),
   filter (λ d, dg_game_id d = id) (db_dotagames db), map snd (filter (λ p, p.1 = id) (db_dotaplayers db))).

Definition about_game (name : bytes) (cmd : StoreCmd) : bool :=
  match cmd with
  | LogGame n _ _ _ _ | LogDotAGame n _ _ _ _ _ => bool_decide (n = name)
  | _ => false
  end.

Lemma filter_none {A} (P : A → Prop) `{!∀ x, Decision (P x)} (l : list A) : (∀ x, x ∈ l → ¬ P x) → filter P l = [].
Proof.
  induction l as [|x l IH]; [done|]. intros Hl. rewrite filter_cons_False by (apply Hl; by left).
  apply IH. intros y Hy. apply Hl. by right.
Qed.

Lemma filter_pairs_all {A} (id : Z) (l : list A) : filter (λ p : Z * A, p.1 = id) (map (λ x, (id, x)) l) = map (λ x, (id, x)) l.
Proof. induction l as [|x l IH]; [done|]. cbn [map]. rewrite filter_cons_True by done. by rewrite IH. Qed.

Lemma filter_pairs_none {A} (id i : Z) (l : list A) : i ≠ id → filter (λ p : Z * A, p.1 = id) (map (λ x, (i, x)) l) = [].
Proof. intros Hi. apply filter_none. by intros p (x & -> & _)%list_elem_of_fmap. Qed.

Lemma map_snd_pairs {A} (id : Z) (l : list A) : map snd (map (λ x, (id, x)) l) = l.
Proof. rewrite map_map. apply map_id. Qed.

Section one_game.
Context (foreign_keys : bool).

Lemma latest_game_other name n db db' row :
  n ≠ name → gr_name row = n → db_games db' = db_games db ++ [row] → latest_game name db' = latest_game name db.
Proof.
  intros Hne Hn E. unfold latest_game. rewrite E, filter_app, map_app, filter_cons_False, filter_nil by congruence. apply (f_equal (λ l, match l with [] => None | i :: l => Some (foldr Z.max i l) end)), app_nil_r.
Qed.

(** A command that is not about games of this name leaves the game alone. *)
Lemma rows_of_frame now cmd name id db :
  db_ok foreign_keys db → latest_game name db = Some id → about_game name cmd = false →
  rows_of id (run_command foreign_keys now cmd db) = rows_of id db
  ∧ latest_game name (run_command foreign_keys now cmd db) = Some id.
Proof.
  intros Hok Hid Hcmd. assert (id ∈ map gr_id (db_games db)) as Hin by (by apply latest_game_id in Hid).
  destruct cmd; cbn [run_command about_game] in *; try done.
  - rename map into map_path. apply bool_decide_eq_false in Hcmd. split.
    + assert (next_rowid (map gr_id (db_games db)) ≠ id) as Hne by (intros <-; by apply next_rowid_fresh in Hin).
      unfold rows_of, insert_game. cbn. rewrite !filter_app, filter_pairs_none, filter_cons_False, filter_nil, !app_nil_r by done. done.
    + rewrite <- Hid. by apply (latest_game_other name name0 db _ (mkGameRow (next_rowid (map gr_id (db_games db))) name0 map_path started ended (sat_sub_i64 ended started))).
  - apply bool_decide_eq_false in Hcmd. unfold insert_dota_game.
    assert (default 0 (latest_game game_name db) ≠ id) as Hne.
    { apply latest_game_in in Hid as (r & Hr & <- & <-). destruct (latest_game game_name db) as [i|] eqn:E; cbn.
      - apply latest_game_in in E as (r' & Hr' & <- & <-). intros Ei. apply Hcmd. f_equal.
        apply list_elem_of_lookup_1 in Hr as [k Hk]. apply list_elem_of_lookup_1 in Hr' as [j Hj].
        assert (j = k) as ->; [|congruence]. apply (NoDup_lookup (map gr_id (db_games db)) j k (gr_id r')).
        + apply (ok_ids _ _ Hok).
        + pose proof (list_lookup_fmap gr_id (db_games db) j) as Hf. rewrite Hj in Hf. exact Hf.
        + pose proof (list_lookup_fmap gr_id (db_games db) k) as Hf. rewrite Hk in Hf. cbn in Hf. rewrite <- Ei in Hf. exact Hf.
      - pose proof (ok_pos _ _ Hok) as Hpos. rewrite Forall_forall in Hpos. apply Hpos in Hin. lia. }
    destruct (may_refer _ _ _); [|done]. split; [|done].
    unfold rows_of. cbn. rewrite !filter_app, filter_pairs_none, filter_cons_False, filter_nil, !app_nil_r by done. done.
  - by destruct (latest_game game_name db).
Qed.

Lemma rows_of_frame_all cmds name id db :
  db_ok foreign_keys db → latest_game name db = Some id → Forall (λ c, about_game name c.2 = false) cmds →
  rows_of id (run_worker foreign_keys cmds db) = rows_of id db
  ∧ latest_game name (run_worker foreign_keys cmds db) = Some id.
Proof.
  revert db. induction cmds as [|c cmds IH]; intros db Hok Hid Hc; [done|].
  apply Forall_cons in Hc as [Hc Hcs]. destruct (rows_of_frame c.1 c.2 name id db Hok Hid Hc) as [E Hid'].
  rewrite <- E. apply IH; [by apply run_command_ok|done|done].
Qed.

(** Logging a game puts it and its players under a new id, which its name then denotes. *)
Lemma insert_game_rows name map_path started ended players db :
  db_ok foreign_keys db →
  let id := next_rowid (map gr_id (db_games db)) in
  let db' := insert_game name map_path started ended players db in
  rows_of id db' = ([mkGameRow id name map_path started ended (sat_sub_i64 ended started)], players, [], [])
  ∧ latest_game name db' = Some id.
Proof.
  intros Hok id db'. pose proof (next_rowid_fresh (map gr_id (db_games db))) as Hnew.
  pose proof (next_rowid_pos (map gr_id (db_games db))) as Hpos. fold id in Hnew, Hpos. destruct Hok as [_ _ Hp Hd Hdp _].
  rewrite Forall_forall in Hp. rewrite Forall_forall in Hd. rewrite Forall_forall in Hdp.
  split; [|by apply (latest_game_new name db (mkGameRow id name map_path started ended (sat_sub_i64 ended started)))].
  unfold rows_of, db', insert_game. cbn. fold id.
  assert (filter (λ d, dg_game_id d = id) (db_dotagames db) = []) as ->.
  { apply filter_none. intros d Hin E. apply Hd in Hin as [Hin|[_ Hz]]; [congruence|lia]. }
  assert (filter (λ p, p.1 = id) (db_dotaplayers db) = []) as ->.
  { apply filter_none. intros p Hin E. apply Hdp in Hin as [Hin|[_ Hz]]; [congruence|lia]. }
  assert (filter (λ p, p.1 = id) (db_game_players db) = []) as Hnone.
  { apply filter_none. intros p Hin E. apply Hp in Hin. congruence. }
  assert (filter (λ r, gr_id r = id) (db_games db) = []) as Hnone'.
  { apply filter_none. intros r Hin E. apply Hnew. rewrite <- E. by apply (list_elem_of_fmap_2 gr_id). }
  rewrite !filter_app, Hnone, Hnone', filter_pairs_all, filter_cons_True, filter_nil, map_app, map_snd_pairs by done. done.
Qed.

(** The record of a game of DotA goes to the game that its name denotes. *)
Lemma insert_dota_game_rows name winner duration tree_hp throne_hp players db id rows names dotas records :
  latest_game name db = Some id → rows_of id db = (rows, names, dotas, records) →
  rows_of id (insert_dota_game foreign_keys name winner duration tree_hp throne_hp players db)
  = (rows, names, dotas ++ [mkDotAGameRow id winner duration tree_hp throne_hp], records ++ players).
Proof.
  intros Hid. unfold rows_of. intros [= <- <- <- <-]. unfold insert_dota_game, may_refer. rewrite Hid. change (default 0 (Some id)) with id.
  assert (existsb (λ r, gr_id r =? id) (db_games db) = true) as ->.
  { apply latest_game_in in Hid as (r & Hr & <- & _). apply existsb_exists. exists r. split; [by apply list_elem_of_In|apply Z.eqb_refl]. }
  rewrite orb_true_r. cbn. rewrite !filter_app, filter_pairs_all, filter_cons_True, filter_nil, map_app, map_snd_pairs by done. done.
Qed.
(** A command that logs a game of this name, which the name then denotes. *)
Definition logs_game (name : bytes) (cmd : StoreCmd) : bool :=
  match cmd with LogGame n _ _ _ _ => bool_decide (n = name) | _ => false end.

Lemma latest_game_step now cmd name db :
  latest_game name (run_command foreign_keys now cmd db) =
  if logs_game name cmd then Some (next_rowid (map gr_id (db_games db))) else latest_game name db.
Proof.
  destruct cmd; cbn [run_command logs_game]; try done.
  - rename map into map_path. unfold insert_game. set (row := mkGameRow _ _ _ _ _ _). case_bool_decide as E.
    + by apply (latest_game_new name db row).
    + by apply (latest_game_other name name0 db _ row).
  - unfold insert_dota_game. by destruct (may_refer _ _ _).
  - by destruct (latest_game game_name db).
Qed.

(** What was written of a game that is there, and of its players, stays. *)
Lemma game_kept now cmd id db :
  id ∈ map gr_id (db_games db) →
  (rows_of id (run_command foreign_keys now cmd db)).1.1 = (rows_of id db).1.1 ∧
  id ∈ map gr_id (db_games (run_command foreign_keys now cmd db)).
Proof.
  intros Hin. destruct cmd; cbn [run_command]; try done.
  - rename map into map_path. assert (next_rowid (map gr_id (db_games db)) ≠ id) as Hne by (intros <-; by apply next_rowid_fresh in Hin).
    unfold rows_of, insert_game. cbn. rewrite map_app, !filter_app, filter_pairs_none, filter_cons_False, filter_nil, !app_nil_r by done.
    set_solver.
  - unfold insert_dota_game. by destruct (may_refer _ _ _).
  - by destruct (latest_game game_name db).
Qed.

(** The game that a name denotes in the end is the one it denotes now, unless another is logged. *)
Lemma latest_game_kept cmds name id i db :
  latest_game name db = Some i → id ∈ map gr_id (db_games db) →
  let db' := run_worker foreign_keys cmds db in
  (rows_of id db').1.1 = (rows_of id db).1.1 ∧
  ∃ owner, latest_game name db' = Some owner ∧ (owner = id ↔ i = id ∧ Forall (λ c, logs_game name c.2 = false) cmds).
Proof.
  revert db i. induction cmds as [|c cmds IH]; intros db i Hi Hin.
  - split; [done|]. exists i. split; [done|]. by split; [intros ->|intros [-> _]].
  - destruct (game_kept c.1 c.2 id db Hin) as [<- Hin']. pose proof (latest_game_step c.1 c.2 name db) as Hstep.
    cbv zeta. setoid_rewrite Forall_cons. destruct (logs_game name c.2) eqn:El.
    + destruct (IH _ _ Hstep Hin') as (E & owner & Ho & Hiff). split; [exact E|]. exists owner. split; [exact Ho|]. rewrite Hiff. split.
      * intros [<- _]. by apply next_rowid_fresh in Hin.
      * by intros (_ & [=] & _).
    + rewrite Hi in Hstep. destruct (IH _ _ Hstep Hin') as (E & owner & Ho & Hiff). split; [exact E|]. exists owner. split; [exact Ho|].
      rewrite Hiff. tauto.
Qed.
End one_game.

(** C9: what the end of a game puts in the tables. Without a database nothing is offered to the
    worker. With one, a game that has no statistics of DotA offers one command and a game of DotA
    offers two, the second of which the worker finds the game for by its name. Whatever the worker
    executes before, between and after, the game stands under a new id with its name, map, times
    and human players. Its DotA record, result and statistics, is added to the rows of the game
    that its name denotes when the second command is executed: that is this game exactly when the
    worker did not log another game of the same name in between; and as long as nothing else about
    a game of that name is executed in between, what stands under the id of the game is that
    record alone (or none, for the game without statistics). *)
Theorem saved_game_recorded `{W : World} (foreign_keys : bool) (now t1 t2 : Z) (g : GameState) (before between : list (Z * StoreCmd)) :
  let name := c_name (g_cfg g) in
  let ended := unix_secs now in
  let started := ended - as_secs (elapsed now (g_created_at g)) in
  let row id := mkGameRow id name (m_path (c_map (g_cfg g))) started ended (sat_sub_i64 ended started) in
  let humans := map p_name (iter_humans (g_players g)) in
  let db0 := run_worker foreign_keys before empty_db in
  let quiet := Forall (λ c, about_game name c.2 = false) between in
  match g_store g, g_dota g with
  | None, _ => g_store (save_game_data now g) = None
  | Some s, None =>
    ∃ c1, g_store (save_game_data now g) = Some (s ++ [c1]) ∧
    let db := run_worker foreign_keys (before ++ (t1, c1) :: between) empty_db in
    ∃ id, id ∉ map gr_id (db_games db0) ∧ (rows_of id db).1.1 = ([row id], humans) ∧
      (quiet → rows_of id db = ([row id], humans, [], []))
  | Some s, Some dota =>
    let result id := mkDotAGameRow id (ds_winner dota) (wrap 32 (ds_duration_min dota * 60 + ds_duration_sec dota)) (ds_tree_hp dota)
                       (ds_throne_hp dota) in
    let records := map (λ e, dota_record_of e.2) (dota_order (ds_players dota)) in
    ∃ c1 c2, g_store (save_game_data now g) = Some (s ++ [c1; c2]) ∧
    let db1 := run_worker foreign_keys (before ++ (t1, c1) :: between) empty_db in
    let db := run_worker foreign_keys (before ++ (t1, c1) :: between ++ [(t2, c2)]) empty_db in
    ∃ id owner, id ∉ map gr_id (db_games db0) ∧ (rows_of id db).1.1 = ([row id], humans) ∧
      latest_game name db = Some owner ∧ (owner = id ↔ Forall (λ c, logs_game name c.2 = false) between) ∧
      rows_of owner db = ((rows_of owner db1).1.1, (rows_of owner db1).1.2 ++ [result owner], (rows_of owner db1).2 ++ records) ∧
      (quiet → rows_of id db = ([row id], humans, [result id], records))
  end.
Proof.
  cbv zeta. unfold save_game_data, with_store. cbn.
  pose proof (run_worker_ok foreign_keys before empty_db (empty_db_ok _)) as Hok. set (db0 := run_worker foreign_keys before empty_db) in *.
  destruct (g_store g) as [s|] eqn:Hs; [|destruct (g_dota g); cbn; by rewrite Hs].
  set (humans := map p_name _). set (name := c_name _). set (started := _ - _). set (ended := unix_secs now).
  set (c1 := LogGame name (m_path (c_map (g_cfg g))) started ended humans).
  destruct (insert_game_rows foreign_keys name (m_path (c_map (g_cfg g))) started ended humans db0 Hok) as [E Hid].
  set (id := next_rowid _) in E, Hid. change (insert_game _ _ _ _ _ db0) with (run_command foreign_keys t1 c1 db0) in E, Hid.
  set (row := mkGameRow id _ _ _ _ _) in E. pose proof (run_command_ok foreign_keys t1 c1 db0 Hok) as Hok1.
  assert (∀ l, run_worker foreign_keys (before ++ (t1, c1) :: l) empty_db = run_worker foreign_keys l (run_command foreign_keys t1 c1 db0)) as Hrun
    by (intros l; by rewrite run_worker_app).
  pose proof (next_rowid_fresh (map gr_id (db_games db0))) as Hnew. fold id in Hnew.
  destruct (latest_game_kept foreign_keys between name id id _ Hid (latest_game_id _ _ _ Hid)) as (E1 & owner & Ho & Hiff).
  assert (Forall (λ c, about_game name c.2 = false) between →
          rows_of id (run_worker foreign_keys between (run_command foreign_keys t1 c1 db0)) = ([row], humans, [], []) ∧ owner = id) as Hquiet.
  { intros Hq. destruct (rows_of_frame_all foreign_keys between _ _ _ Hok1 Hid Hq) as [E' Hid']. rewrite E', E. split; [reflexivity|]. congruence. }
  destruct (g_dota g) as [dota|]; cbn; rewrite Hs; cbn.
  - unfold log_dota_game, log_game. rewrite <- app_assoc. eexists c1, _. split; [reflexivity|].
    exists id, owner. rewrite (app_comm_cons between), (app_assoc before), run_worker_app, !Hrun.
    set (db1 := run_worker foreign_keys between _) in *. cbn [run_worker foldl run_command fst snd].
    set (rs := map _ (dota_order _)). set (db := insert_dota_game _ _ _ _ _ _ _ _).
    pose proof (insert_dota_game_rows foreign_keys name (ds_winner dota) (wrap 32 (ds_duration_min dota * 60 + ds_duration_sec dota))
                  (ds_tree_hp dota) (ds_throne_hp dota) rs db1 owner _ _ _ _ Ho eq_refl) as Hrows. fold db in Hrows.
    split; [done|]. split; [|split; [|split; [|split]]].
    + transitivity ((rows_of id db1).1.1); [|exact (eq_trans E1 (f_equal (λ x, x.1.1) E))]. unfold db, insert_dota_game. by destruct (may_refer _ _ _).
    + rewrite <- Ho. unfold db, insert_dota_game. by destruct (may_refer _ _ _).
    + rewrite Hiff. tauto.
    + exact Hrows.
    + intros Hq. destruct (Hquiet Hq) as [E' ->]. rewrite Hrows.
      unfold rows_of in E'. injection E' as Ea Eb Ec Ed. by rewrite Ea, Eb, Ec, Ed.
  - exists c1. split; [reflexivity|]. exists id. rewrite Hrun. split; [done|].
    set (db1 := run_worker foreign_keys between _) in *. split; [exact (eq_trans E1 (f_equal (λ x, x.1.1) E))|]. intros Hq. by destruct (Hquiet Hq) as [-> _].
Qed.

(** ** Examples *)

Definition any_first : Sqlite := {| first_row := head |}.

Lemma any_first_laws : SqliteLaws (H := any_first).
Proof. split; intros l; destruct l as [|x l]; cbn; try done. intros b [= <-]. by left. Qed.

Definition ban_history : list (Z * StoreCmd) :=
  [(10, AddBan (str "Slash") (str "1.2.3.4") (str "root") (str "flaming"));
   (11, AddBan (str "Other") (str "1.2.3.4") (str "root") (str "too"));
   (12, AddAdmin (str "RootAdmin") (str "pvpgn")); (13, AddAdmin (str "Second") []);
   (14, RemoveBan (str "OTHER")); (15, RemoveAdmin (str "second"))].

Lemma lists_follow_history_witness :
  let db := run_worker true ban_history empty_db in
  (∃ b, is_banned (H := any_first) (str "nobody") (str "1.2.3.4") db = Some b ∧ stands adds_ban removes_ban ban_history b) ∧
  is_banned (H := any_first) (str "other") [] db = None ∧
  (∀ b, stands adds_ban removes_ban ban_history b → ban_matches (str "other") [] b = false) ∧
  (∃ n, stands adds_admin removes_admin ban_history n ∧ nocase n (str "rootadmin") = true).
Proof.
  intros db.
  pose proof (λ name ip, @lists_follow_history any_first any_first_laws true ban_history name ip) as T. split; [|split; [|split]].
  - exists (mkBan (str "Slash") (str "1.2.3.4") (str "root") (str "flaming") 10).
    split; [vm_compute; reflexivity|]. destruct (T (str "nobody") (str "1.2.3.4")) as [Hb _].
    apply Hb. vm_compute. reflexivity.
  - vm_compute. reflexivity.
  - destruct (T (str "other") []) as (_ & Hn & _). apply Hn. vm_compute. reflexivity.
  - destruct (T (str "rootadmin") []) as (_ & _ & Ha). apply Ha. vm_compute. reflexivity.
Defined.

Definition saving_dota : StatsDotA :=
  mkDota {[ 1 := (new_stats 1) <| d_name := str "Slash" |> <| d_kills := 10 |> ]} 1 25 30 100 0 (str "game").
Definition saving_game : GameState := sample_loading <| g_store := Some [] |> <| g_dota := Some saving_dota |>.
Definition earlier_cmds : list (Z * StoreCmd) :=
  [(1, LogGame (str "another") (str "dota.w3x") 100 200 [str "Slash"]);
   (1, LogDotAGame (str "another") 2 1500 0 100 [dota_record_of ((new_stats 1) <| d_name := str "slash" |> <| d_kills := 7 |>)])].
Definition other_cmds : list (Z * StoreCmd) := [(2, LogGame (str "third") (str "dota.w3x") 100 200 []); (2, RemoveBan (str "Slash"))].

(** The game and its record under one id; and the statistics are those of both games. *)
Lemma saved_game_recorded_witness :
  match g_store (save_game_data (W := plain_world) (100 * SEC) saving_game) with
  | Some [c1; c2] =>
    let db := run_worker true (earlier_cmds ++ (3, c1) :: other_cmds ++ [(3, c2)]) empty_db in
    (∃ id, latest_game (c_name (g_cfg saving_game)) db = Some id ∧ length (rows_of id db).1.2 = 1%nat) ∧
    option_map (λ st, (ss_games st, ss_kills st)) (query_dota_stats (str "SLASH") db) = Some (2, 17)
  | _ => False
  end.
Proof.
  destruct (saved_game_recorded (W := plain_world) true (100 * SEC) 3 3 saving_game earlier_cmds other_cmds)
    as (c1 & c2 & Hs & id & owner & _ & _ & Ho & Hiff & _ & Hq).
  rewrite Hs. cbn [app]. split.
  - exists id. split; [rewrite Ho; f_equal; apply Hiff; repeat constructor|]. rewrite Hq by repeat constructor. reflexivity.
  - vm_compute in Hs. injection Hs as <- <-. vm_compute. reflexivity.
Defined.
