(* ===== verification/Commands.v ===== *)
(** The chat commands of a game (spectre-engine, src/chat.rs): what a command is, and how
    a message is read as one.  A [String] is the list of its bytes; reading never fails. *)
From S2P Require Import Prelude Utf8 Text.

Module ChatCommand.
Inductive t :=
| Start (force : bool)
| Abort
| Open (sid : Z)
| Close (sid : Z)
| OpenAll
| CloseAll
| Swap (a b : Z)
| Hold (name : bytes) (slot : option Z)
| ClearHold
| Kick (name : bytes)
| Ban (name reason : bytes)
| Unban (name : bytes)
| CheckBan (name : bytes)
| BanLast (reason : bytes)
| CheckAdmin (name : bytes)
| AddAdmin (name : bytes)
| DelAdmin (name : bytes)
| Ping
| Mute (name : bytes)
| Unmute (name : bytes)
| MuteAll
| UnmuteAll
| VoteStart
| VoteCancel
| VoteKick (name : bytes)
| Yes
| SyncLimit (limit : option Z)
| Latency (lat : option Z)
| ShufflePlayers
| Version
| Say (msg : bytes)
| Whisper (user message : bytes)
| Stats (name : bytes)
| StatsDotA (name : bytes)
| Drop
| Draw
| Hcl (mode : bytes)
| ClearHcl
| Owner (name : option bytes)
| Unhost
| End
| Lock
| Unlock
| Check (name : bytes)
| CheckMe
| Announce (msg : bytes)
| AutoStart (num : option Z)
| Refresh
| VirtualHost (name : bytes)
| Comp (slot team colour race computer_type handicap : Z)
| CompColour (slot colour : Z)
| CompRace (slot race : Z)
| CompHandicap (slot handicap : Z)
| CompTeam (slot team : Z)
| Download (name : bytes)
| DbStatus
| FakePlayer
| FpPause
| FpResume
| From
| Messages (on : option bool)
| SendLan (ip : bytes) (port : option Z)
| Pub (name : bytes)
| Priv (name : bytes)
| MuteLobby (on : option bool)
| Unknown (verb : bytes).
End ChatCommand.

(** ** Reading a command *)

(** [let n: u8 = s.parse().ok()?; n.checked_sub(1)]. *)
Definition slot_arg (s : bytes) : option Z :=
  n ← parse_uint 8 s; if n =? 0 then None else Some (n - 1).

Definition on_off (s : bytes) : option bool :=
  if eq_ignore_ascii_case s (str "on") || eq_ignore_ascii_case s (str "1") then Some true
  else if eq_ignore_ascii_case s (str "off") || eq_ignore_ascii_case s (str "0") then Some false
  else None.

Definition is_force (s : bytes) : bool :=
  eq_ignore_ascii_case s (str "force") || eq_ignore_ascii_case s (str "f").

Definition or_default (o : option bytes) : bytes := default [] o.
Definition words (ws : list bytes) : bytes := join [32] ws.

(** The arguments of [!comp] and of its four variants. *)
Definition parse_comp (args : list bytes) : option ChatCommand.t :=
  slot ← args !! 0%nat ≫= slot_arg;
  let num i d := default d (args !! i ≫= parse_uint 8) in
  Some (ChatCommand.Comp slot (num 1%nat 1) (num 2%nat (slot + 1)) (num 3%nat 32) 1 (num 4%nat 100)).

Definition parse_slot_value (make : Z → Z → ChatCommand.t) (args : list bytes)
  : option ChatCommand.t :=
  slot ← args !! 0%nat ≫= slot_arg;
  value ← args !! 1%nat ≫= parse_uint 8;
  Some (make slot value).

Definition parse_hold (args : list bytes) : option ChatCommand.t :=
  name ← args !! 0%nat; Some (ChatCommand.Hold name (args !! 1%nat ≫= slot_arg)).

Definition parse_swap (args : list bytes) : option ChatCommand.t :=
  a ← args !! 0%nat ≫= slot_arg;
  b ← args !! 1%nat ≫= slot_arg;
  Some (ChatCommand.Swap a b).

(** [args.get(1..)] is the empty list when there is one argument. *)
Definition parse_ban (args : list bytes) : option ChatCommand.t :=
  name ← args !! 0%nat;
  Some (ChatCommand.Ban name (if (1 <=? length args)%nat then words (drop 1 args)
                              else str "banned by host")).

Definition parse_banlast (args : list bytes) : ChatCommand.t :=
  let reason := words args in
  ChatCommand.BanLast (if zlen reason =? 0 then str "banned by host" else reason).

Definition parse_whisper (args : list bytes) : option ChatCommand.t :=
  user ← args !! 0%nat; Some (ChatCommand.Whisper user (words (drop 1 args))).

Definition parse_sendlan (args : list bytes) : option ChatCommand.t :=
  ip ← args !! 0%nat; Some (ChatCommand.SendLan ip (args !! 1%nat ≫= parse_uint 16)).

(** The [match] on the verb. *)
Definition parse_verb (verb : bytes) (args : list bytes) : option ChatCommand.t :=
  let on s := bytes_eqb verb (str s) in
  let arg := args !! 0%nat in
  let named make := (name ← arg; Some (make name)) in
  let slotted make := (sid ← arg ≫= slot_arg; Some (make sid)) in
  if on "start" || on "s" then
    Some (ChatCommand.Start (default false (is_force <$> arg)))
  else if on "sf" || on "startforce" then Some (ChatCommand.Start true)
  else if on "abort" || on "a" then Some ChatCommand.Abort
  else if on "ping" || on "p" then Some ChatCommand.Ping
  else if on "unhost" then Some ChatCommand.Unhost
  else if on "end" then Some ChatCommand.End
  else if on "lock" then Some ChatCommand.Lock
  else if on "unlock" then Some ChatCommand.Unlock
  else if on "open" || on "o" then slotted ChatCommand.Open
  else if on "close" || on "c" then slotted ChatCommand.Close
  else if on "openall" then Some ChatCommand.OpenAll
  else if on "closeall" then Some ChatCommand.CloseAll
  else if on "swap" then parse_swap args
  else if on "hold" || on "h" then parse_hold args
  else if on "clearhold" then Some ChatCommand.ClearHold
  else if on "kick" || on "k" then named ChatCommand.Kick
  else if on "ban" then parse_ban args
  else if on "unban" then named ChatCommand.Unban
  else if on "checkban" then named ChatCommand.CheckBan
  else if on "banlast" then Some (parse_banlast args)
  else if on "checkadmin" then named ChatCommand.CheckAdmin
  else if on "addadmin" then named ChatCommand.AddAdmin
  else if on "deladmin" then named ChatCommand.DelAdmin
  else if on "mute" then named ChatCommand.Mute
  else if on "unmute" then named ChatCommand.Unmute
  else if on "muteall" then Some ChatCommand.MuteAll
  else if on "unmuteall" then Some ChatCommand.UnmuteAll
  else if on "votestart" then Some ChatCommand.VoteStart
  else if on "votecancel" then Some ChatCommand.VoteCancel
  else if on "votekick" || on "vk" then named ChatCommand.VoteKick
  else if on "synclimit" || on "sl" then Some (ChatCommand.SyncLimit (arg ≫= parse_uint 32))
  else if on "latency" || on "lat" || on "l" then
    Some (ChatCommand.Latency (arg ≫= parse_uint 32))
  else if on "sp" then Some ChatCommand.ShufflePlayers
  else if on "version" then Some ChatCommand.Version
  else if on "say" then Some (ChatCommand.Say (words args))
  else if on "w" || on "whisper" then parse_whisper args
  else if on "check" then named ChatCommand.Check
  else if on "checkme" then Some ChatCommand.CheckMe
  else if on "announce" then Some (ChatCommand.Announce (words args))
  else if on "autostart" then Some (ChatCommand.AutoStart (arg ≫= parse_uint 64))
  else if on "refresh" then Some ChatCommand.Refresh
  else if on "virtualhost" then named ChatCommand.VirtualHost
  else if on "dl" || on "download" then Some (ChatCommand.Download (or_default arg))
  else if on "comp" then parse_comp args
  else if on "compcolour" then parse_slot_value ChatCommand.CompColour args
  else if on "comprace" then parse_slot_value ChatCommand.CompRace args
  else if on "comphandicap" then parse_slot_value ChatCommand.CompHandicap args
  else if on "compteam" then parse_slot_value ChatCommand.CompTeam args
  else if on "stats" then Some (ChatCommand.Stats (or_default arg))
  else if on "statsdota" || on "sd" then Some (ChatCommand.StatsDotA (or_default arg))
  else if on "drop" then Some ChatCommand.Drop
  else if on "draw" then Some ChatCommand.Draw
  else if on "hcl" then Some (ChatCommand.Hcl (words args))
  else if on "clearhcl" then Some ChatCommand.ClearHcl
  else if on "owner" then Some (ChatCommand.Owner arg)
  else if on "dbstatus" then Some ChatCommand.DbStatus
  else if on "fakeplayer" || on "fp" then Some ChatCommand.FakePlayer
  else if on "fppause" then Some ChatCommand.FpPause
  else if on "fpresume" then Some ChatCommand.FpResume
  else if on "from" then Some ChatCommand.From
  else if on "messages" then Some (ChatCommand.Messages (arg ≫= on_off))
  else if on "sendlan" then parse_sendlan args
  else if on "pub" then Some (ChatCommand.Pub (words args))
  else if on "priv" then Some (ChatCommand.Priv (words args))
  else if on "mutelobby" then Some (ChatCommand.MuteLobby (arg ≫= on_off))
  else Some (ChatCommand.Unknown verb).

Definition parse_command `{Unicode} (trigger : Z) (msg : bytes) : option ChatCommand.t :=
  rest ← strip_prefix trigger msg;
  match split_whitespace rest with
  | [] => None
  | word :: args => parse_verb (to_lowercase word) args
  end.

(** What anybody may use. *)
Definition public_cmd (cmd : ChatCommand.t) : bool :=
  match cmd with
  | ChatCommand.Ping | ChatCommand.VoteStart | ChatCommand.VoteCancel | ChatCommand.VoteKick _
  | ChatCommand.Yes | ChatCommand.Draw | ChatCommand.Stats _ | ChatCommand.StatsDotA _
  | ChatCommand.Version | ChatCommand.CheckMe | ChatCommand.Whisper _ _ => true
  | _ => false
  end.
