(* ===== verification/Chat.v ===== *)
(** The chat of a game (spectre-engine, src/chat.rs): who may run which command, what each
    command does, what becomes of a plain message, and the requests of a player about
    their own slot, which come as chat packets too.

    [draws] are the random numbers the handler draws.  [None] is the panic of a text that
    is cut inside a character. *)
From S2P Require Import Prelude Utf8 Text Store BytesExt Frame W3gs Gps Conn Slots History Players.
From S2P Require Import ReplayBody StatsDota Relay Tick Game CatchUp Desync Turns Lag Phases MapXfer.
From S2P Require Import Lobby Seating Reconnect Actor Commands.

Definition clamp (lo hi x : Z) : Z := if x <? lo then lo else if hi <? x then hi else x.

(** ** Starting the game *)

Definition names (ps : list Player) : bytes := join (str ", ") (map p_name ps).

Definition downloading (g : GameState) : list Player :=
  omap (λ d, if dl_sent_upto d <? m_size (c_map (g_cfg g)) then by_pid (dl_pid d) (g_players g)
             else None) (g_downloads g).

Definition unverified (g : GameState) : list Player :=
  List.filter (λ p, is_human p && negb (p_spoofed p)) (g_players g).
Definition ping_unverified (g : GameState) : list Player :=
  List.filter (λ p, is_human p && negb (p_reserved p) && (zlen (p_ping_history p) <? 3))
              (g_players g).

(** Why [!start] is refused, by the first check that fails. *)
Definition start_refusal (now : Z) (g : GameState) : option bytes :=
  if human_count (g_players g) <? 1 then
    Some (str "Unable to start: only " ++ dec (human_count (g_players g))
          ++ str " player(s) in the lobby.")
  else if match g_hcl g with Some hcl => zlen (g_slots g) <? zlen hcl | None => false end then
    Some (str "Unable to start: HCL string is too long for map slots. Use !start force to bypass.")
  else if negb (zlen (downloading g) =? 0) then
    Some (str "Unable to start: players still downloading map: " ++ names (downloading g)
          ++ str ". Use !start force to bypass.")
  else if c_require_spoof_checks (g_cfg g) && negb (zlen (unverified g) =? 0) then
    Some (str "Unable to start: unverified spoofcheck: " ++ names (unverified g)
          ++ str ". Use !start force to bypass.")
  else if negb (zlen (ping_unverified g) =? 0) then
    Some (str "Unable to start: players ping not checked: " ++ names (ping_unverified g)
          ++ str ". Use !start force to bypass.")
  else match g_last_player_left_time g with
       | Some left_time =>
         if elapsed now left_time <? 2 * SEC then
           Some (str "Unable to start: a player left within the last 2 seconds. Use !start force to bypass.")
         else None
       | None => None
       end.

Definition cmd_start (now pid : Z) (force : bool) (g : GameState) : option GameState :=
  match (if force then None else start_refusal now g) with
  | Some why => send_chat_to now pid why g
  | None => Some (start_countdown now g)
  end.

Definition cmd_abort (now : Z) (g : GameState) : option GameState :=
  if is_countdown g then send_chat_all now (str "Countdown aborted.") (g <| g_phase := Lobby |>)
  else Some g.

(** ** Slots *)

Definition cmd_open_all (now : Z) (g : GameState) : option GameState :=
  send_chat_all now (str "Opened all closed slots.")
    (send_all_slot_info now (g <| g_slots ::= open_all |>)).
Definition cmd_close_all (now : Z) (g : GameState) : option GameState :=
  send_chat_all now (str "Closed all open slots.")
    (send_all_slot_info now (g <| g_slots ::= close_all |>)).

(** [for i in 0..len { swap(i as u8, (random::<u16>() as usize % len) as u8) }]. *)
Definition shuffle_slots (draws : nat → Z) (t : SlotTable) : SlotTable :=
  foldl (λ t' i, (swap (wrap 8 (Z.of_nat i)) (wrap 8 (draws i mod zlen t)) t').1)
        t (seq 0 (length t)).

Definition cmd_shuffle (now : Z) (draws : nat → Z) (g : GameState) : option GameState :=
  if is_lobby g then
    send_chat_all now (str "Slots shuffled.")
      (send_all_slot_info now (g <| g_slots ::= shuffle_slots draws |>))
  else Some g.

Definition cmd_comp (now slot tm col rc ctype hcap : Z) : GameState → GameState :=
  slot_command now (add_computer slot tm col rc ctype hcap).

(** [!compcolour], [!comprace], [!comphandicap], [!compteam]: only of a computer. *)
Definition cmd_comp_set (now slot : Z) (f : SlotInfo → SlotInfo) (g : GameState) : GameState :=
  match g_slots g !! Z.to_nat slot with
  | Some s => if computer s =? 1
              then send_all_slot_info now (g <| g_slots ::= <[Z.to_nat slot := f s]> |>) else g
  | None => g
  end.

Definition cmd_hold (now : Z) (name : bytes) (slot : option Z) (g : GameState) : option GameState :=
  let g := match slot with
           | Some s => g <| g_holds ::= λ m, <[s := name]> m |>
           | None => g
           end in
  send_chat_all now (str "Slot reserved for [" ++ name ++ str "].") g.
Definition cmd_clear_hold (now : Z) (g : GameState) : option GameState :=
  send_chat_all now (str "Held slots cleared.") (g <| g_holds := ∅ |>).

(** ** Rehosting: [!pub] and [!priv] *)
Definition cmd_rehost (now : Z) (what name : bytes) (g : GameState) : option GameState :=
  if is_lobby g && negb (zlen name =? 0) then
    let g := g <| g_last_game_name := c_name (g_cfg g) |> in
    let g := g <| g_cfg ::= λ c, c <| c_name := name |>
                                   <| c_host_counter ::= λ n, wrap 32 (n + 1) |> |>
               <| g_refresh_rehosted := true |> in
    g ← send_chat_all now (str "Rehosted game as " ++ what ++ str " [" ++ name ++ str "].") g;
    Some (report_status g)
  else Some g.

(** ** The fake player's pause and resume *)
Definition cmd_fake_action (now pid action : Z) (said : bytes) (g : GameState) : option GameState :=
  match g_fake_player_pid g with
  | Some fake_pid =>
    if is_playing g then
      send_chat_to now pid said (g <| g_actions ::= λ q, q ++ [mkActionBlock fake_pid [action]] |>)
    else Some g
  | None => Some g
  end.

Definition spoofed_text (p : Player) : bytes := if p_spoofed p then str "Yes" else str "No".
Definition realm_text (p : Player) : bytes :=
  if zlen (p_joined_realm p) =? 0 then str "LAN" else p_joined_realm p.
Definition player_text (who : bytes) (p : Player) : bytes :=
  who ++ str " [" ++ p_name p ++ str "]: Ping: " ++ dec (default 0 (average_ping p))
  ++ str "ms, Spoofed: " ++ spoofed_text p ++ str ", Realm: [" ++ realm_text p ++ str "]".

Definition no_match (name : bytes) : bytes := str "No player matching [" ++ name ++ str "].".

Definition location_text (p : Player) : bytes :=
  str "Player [" ++ p_name p ++ str "] is from ["
  ++ (if zlen (p_joined_realm p) =? 0 then ip_text (p_external_ip p) else p_joined_realm p)
  ++ str "]".

(** One message after the other to the same player. *)
Definition tell_all (now pid : Z) (msgs : list bytes) (g : GameState) : option GameState :=
  foldl (λ og m, g ← og; send_chat_to now pid m g) (Some g) msgs.

(** ** Votes *)

Definition start_needed (g : GameState) : Z := human_count (g_players g) / 2 + 1.

Definition cmd_vote_start (now pid : Z) (g : GameState) : option GameState :=
  if existsb (Z.eqb pid) (g_start_votes g) then Some g else
  let g := g <| g_start_votes ::= λ v, v ++ [pid] |> in
  let votes := zlen (g_start_votes g) in
  let needed := start_needed g in
  g ← send_chat_all now (str "Vote start: " ++ dec votes ++ str "/" ++ dec needed ++ str " votes.") g;
  Some (if needed <=? votes then start_countdown now g else g).

Definition cmd_vote_cancel (now : Z) (g : GameState) : option GameState :=
  send_chat_all now (str "Active votes cancelled.")
    (g <| g_start_votes := [] |> <| g_votekick_target := None |> <| g_votekick_votes := [] |>).

(** [(total * pct).div_ceil(100).max(1)]. *)
Definition votekick_needed (g : GameState) : Z :=
  let pct := clamp 1 100 (c_votekick_percentage (g_cfg g)) in
  Z.max ((wrap 32 (human_count (g_players g)) * pct + 99) / 100) 1.

Definition cmd_draw (now pid : Z) (g : GameState) : option GameState :=
  if existsb (Z.eqb pid) (g_draw_votes g) then Some g else
  let g := g <| g_draw_votes ::= λ v, v ++ [pid] |> in
  let votes := zlen (g_draw_votes g) in
  let total := human_count (g_players g) in
  g ← send_chat_all now (str "Draw vote: " ++ dec votes ++ str "/" ++ dec total
                           ++ str " players agreed.") g;
  if total <=? votes then
    g ← send_chat_all now (str "Game ended in a draw.") g; Some (g <| g_finished := true |>)
  else Some g.

Definition cmd_yes (now pid : Z) (g : GameState) : option GameState :=
  match g_votekick_target g with
  | Some target_pid =>
    if existsb (Z.eqb pid) (g_votekick_votes g) then Some g else
    let g := g <| g_votekick_votes ::= λ v, v ++ [pid] |> in
    let votes := zlen (g_votekick_votes g) in
    let needed := votekick_needed g in
    g ← send_chat_all now (str "Votekick: " ++ dec votes ++ str "/" ++ dec needed ++ str " votes.") g;
    Some (if needed <=? votes
          then (kick_player target_pid (str "voted out") (leave_code g ids.PLAYERLEAVE_LOST) g)
                 <| g_votekick_target := None |> <| g_votekick_votes := [] |>
          else g)
  | None => Some g
  end.

(** ** Announcements *)
Definition cmd_announce (now pid : Z) (msg : bytes) (g : GameState) : option GameState :=
  match split_whitespace msg with
  | first :: rest =>
    if eq_ignore_ascii_case first (str "off") then
      send_chat_to now pid (str "Announcement disabled.")
        (g <| g_announce_message := None |> <| g_announce_interval := 0 |>)
    else match parse_uint 64 first with
         | Some interval_sec =>
           let text := words rest in
           send_chat_all now (str "Announcement (every " ++ dec interval_sec ++ str "s): " ++ text)
             (g <| g_announce_interval := interval_sec * SEC |>
                <| g_announce_message := Some text |> <| g_last_announce_time := Some now |>)
         | None =>
           send_chat_all now (str "Announcement: " ++ msg) (g <| g_announce_message := Some msg |>)
         end
  | [] =>
    send_chat_to now pid (str "Announcement cleared.")
      (g <| g_announce_message := None |> <| g_announce_interval := 0 |>)
  end.

Section chat.
Context `{W : World}.

(** ** Commands about one player *)

Definition find_player (name : bytes) (g : GameState) : result NameMatch Player :=
  by_name_partial name (g_players g).

Definition cmd_kick (now pid : Z) (name : bytes) (g : GameState) : option GameState :=
  match find_player name g with
  | Ok p => Some (kick_player (p_pid p) (str "was kicked") (leave_code g ids.PLAYERLEAVE_LOST) g)
  | Err NoMatch => send_chat_to now pid (no_match name) g
  | Err (Ambiguous n) =>
    send_chat_to now pid (str "[" ++ name ++ str "] matches " ++ dec n
                            ++ str " players, be more specific.") g
  end.

Definition cmd_ban (now : Z) (caller name reason : bytes) (g : GameState) : option GameState :=
  let g := with_store (ban name [] caller reason) g in
  g ← send_chat_all now (str "Banned [" ++ name ++ str "]: " ++ reason ++ str ".") g;
  Some match find_player name g with
       | Ok p => kick_player (p_pid p) (str "banned: " ++ reason)
                   (leave_code g ids.PLAYERLEAVE_LOST) g
       | Err _ => g
       end.

Definition cmd_ban_last (now pid : Z) (caller reason : bytes) (g : GameState) : option GameState :=
  match g_last_player_left g with
  | Some (name, ip) =>
    send_chat_all now (str "Banned last leaver [" ++ name ++ str "]: " ++ reason ++ str ".")
      (with_store (ban name ip caller reason) g)
  | None => send_chat_to now pid (str "No player has left the game yet.") g
  end.

Definition cmd_mute (now : Z) (name : bytes) (muted : bool) (g : GameState) : option GameState :=
  match find_player name g with
  | Ok p =>
    send_chat_all now (str "[" ++ p_name p
                         ++ (if muted then str "] has been muted." else str "] has been unmuted."))
      (g <| g_players ::= by_pid_mut (p_pid p) (λ p, p <| p_muted := muted |>) |>)
  | Err _ => Some g
  end.

Definition cmd_vote_kick (now pid : Z) (name : bytes) (g : GameState) : option GameState :=
  if negb (c_votekick_allowed (g_cfg g)) then send_chat_to now pid (str "Votekick is disabled.") g
  else match find_player name g with
       | Ok p =>
         let g := g <| g_votekick_target := Some (p_pid p) |> <| g_votekick_votes := [pid] |> in
         send_chat_all now (str "Votekick started against [" ++ p_name p ++ str "] (1/"
                              ++ dec (votekick_needed g) ++ str " votes). Type !yes to vote.") g
       | Err _ => send_chat_to now pid (no_match name) g
       end.

Definition cmd_ping (now pid : Z) (g : GameState) : option GameState :=
  let entry p := p_name p ++ str ": "
                 ++ match average_ping p with Some ms => dec ms ++ str "ms" | None => str "N/A" end in
  send_chat_to now pid
    (str "Pings: " ++ join (str ", ") (map entry (iter_humans (g_players g)))) g.

Definition cmd_check (now pid : Z) (name : bytes) (g : GameState) : option GameState :=
  match find_player name g with
  | Ok p => send_chat_to now pid (player_text (str "Player") p) g
  | Err _ => send_chat_to now pid (no_match name) g
  end.

Definition cmd_check_me (now pid : Z) (g : GameState) : option GameState :=
  match by_pid pid (g_players g) with
  | Some p => send_chat_to now pid (player_text (str "You") p) g
  | None => Some g
  end.

Definition cmd_download (now pid : Z) (name : bytes) (g : GameState) : option GameState :=
  let target := if zlen name =? 0 then Some pid else p_pid <$> result_ok (find_player name g) in
  match target with
  | Some tpid =>
    g ← match by_pid tpid (g_players g) with
        | Some p => send_chat_to now pid
                      (str "Map download allowed for player [" ++ p_name p ++ str "].")
                      (g <| g_players ::= by_pid_mut tpid (λ p, p <| p_download_allowed := true |>) |>)
        | None => Some g
        end;
    Some (send_to now tpid (start_download (host_pid g)) g)
  | None => send_chat_to now pid (no_match name) g
  end.

Definition cmd_whisper (now pid : Z) (caller user message : bytes) (g : GameState)
  : option GameState :=
  match find_player user g with
  | Ok p =>
    g ← send_chat_to now (p_pid p) (str "[Whisper from " ++ caller ++ str "]: " ++ message) g;
    send_chat_to now pid (str "[Whisper to " ++ p_name p ++ str "]: " ++ message) g
  | Err _ => send_chat_to now pid (no_match user) g
  end.

(** *** Statistics: one question in five seconds *)
Definition STATS_INTERVAL : Z := 5 * SEC.

Definition too_soon (now : Z) (sent : option Z) : bool :=
  match sent with Some t => elapsed now t <? STATS_INTERVAL | None => false end.

Definition cmd_stats (now pid : Z) (caller name : bytes) (g : GameState) : option GameState :=
  if match by_pid pid (g_players g) with Some p => too_soon now (p_stats_sent_time p) | None => false end
  then Some g else
  send_chat_to now pid (str "Querying stats for ["
                          ++ (if zlen name =? 0 then caller else name) ++ str "]...")
    (g <| g_players ::= by_pid_mut pid (λ p, p <| p_stats_sent_time := Some now |>) |>).

Definition cmd_stats_dota (now pid : Z) (caller name : bytes) (g : GameState) : option GameState :=
  if match by_pid pid (g_players g) with
     | Some p => too_soon now (p_stats_dota_sent_time p) | None => false end
  then Some g else
  let g := g <| g_players ::= by_pid_mut pid (λ p, p <| p_stats_dota_sent_time := Some now |>) |> in
  let target := if zlen name =? 0 then caller else name in
  send_chat_to now pid
    match g_dota g with
    | Some dota =>
      match format_player_stats dota_order target dota with
      | Some summary => summary
      | None => str "No DotA stats found for [" ++ target ++ str "]."
      end
    | None => str "Not a DotA map."
    end g.

(** ** [run_command] *)

Definition set_cfg (f : GameConfig → GameConfig) (g : GameState) : GameState := g <| g_cfg ::= f |>.

(** [!latency] *)
Definition cmd_latency (now pid : Z) (lat : option Z) (g : GameState) : option GameState :=
  match lat with
  | Some lat =>
    let clamped := clamp 10 500 lat in
    let d := clamped * MS in
    send_chat_to now pid (str "Latency set to " ++ dec clamped ++ str " ms.")
      (set_cfg (λ c, c <| c_latency := d |>) (g <| g_tick ::= set_period d |>))
  | None =>
    send_chat_to now pid (str "Current latency is " ++ dec (as_millis (c_latency (g_cfg g)))
                            ++ str " ms.") g
  end.

Definition cmd_sync_limit (now pid : Z) (limit : option Z) (g : GameState) : option GameState :=
  match limit with
  | Some limit =>
    let g := set_cfg (λ c, c <| c_sync_limit := clamp 10 500 limit |>) g in
    send_chat_to now pid (str "Sync limit set to " ++ dec (c_sync_limit (g_cfg g)) ++ str ".") g
  | None =>
    send_chat_to now pid (str "Current sync limit is " ++ dec (c_sync_limit (g_cfg g)) ++ str ".") g
  end.

Definition cmd_fake_player (now pid : Z) (g : GameState) : option GameState :=
  match toggle_fake_player now g with
  | (g, Some msg) => send_chat_to now pid msg g
  | (g, None) => Some g
  end.

Definition cmd_messages (now pid : Z) (on : option bool) (g : GameState) : option GameState :=
  match on with
  | Some true =>
    send_chat_to now pid (str "Local admin messages enabled.") (g <| g_local_admin_messages := true |>)
  | Some false =>
    send_chat_to now pid (str "Local admin messages disabled.") (g <| g_local_admin_messages := false |>)
  | None =>
    send_chat_to now pid (str "Local admin messages are "
      ++ (if g_local_admin_messages g then str "enabled" else str "disabled") ++ str ".") g
  end.

Definition cmd_mute_lobby (now : Z) (on : option bool) (g : GameState) : option GameState :=
  let new_state := default (negb (g_mute_lobby g)) on in
  send_chat_all now (if new_state then str "Lobby chat has been muted."
                     else str "Lobby chat has been unmuted.") (g <| g_mute_lobby := new_state |>).

Definition run_command (now : Z) (draws : nat → Z) (pid : Z) (caller : bytes)
    (cmd : ChatCommand.t) (g : GameState) : option GameState :=
  let tell msg := send_chat_to now pid msg g in
  match cmd with
  | ChatCommand.Start force => cmd_start now pid force g
  | ChatCommand.Abort => cmd_abort now g
  | ChatCommand.Open sid => Some (cmd_open now sid g)
  | ChatCommand.Close sid => Some (cmd_close now sid g)
  | ChatCommand.OpenAll => cmd_open_all now g
  | ChatCommand.CloseAll => cmd_close_all now g
  | ChatCommand.Swap a b => Some (cmd_swap now a b g)
  | ChatCommand.Hold name slot => cmd_hold now name slot g
  | ChatCommand.ClearHold => cmd_clear_hold now g
  | ChatCommand.Kick name => cmd_kick now pid name g
  | ChatCommand.Ban name reason => cmd_ban now caller name reason g
  | ChatCommand.Unban name =>
    send_chat_to now pid (str "Unbanned [" ++ name ++ str "].") (with_store (unban name) g)
  | ChatCommand.CheckBan name => tell (str "Checking ban for [" ++ name ++ str "]...")
  | ChatCommand.BanLast reason => cmd_ban_last now pid caller reason g
  | ChatCommand.CheckAdmin name => tell (str "Checking admin status for [" ++ name ++ str "]...")
  | ChatCommand.AddAdmin name =>
    send_chat_to now pid (str "Added admin [" ++ name ++ str "].") (with_store (add_admin name []) g)
  | ChatCommand.DelAdmin name =>
    send_chat_to now pid (str "Removed admin [" ++ name ++ str "].") (with_store (remove_admin name) g)
  | ChatCommand.Mute name => cmd_mute now name true g
  | ChatCommand.Unmute name => cmd_mute now name false g
  | ChatCommand.MuteAll =>
    send_chat_all now (str "Global chat mute enabled.") (g <| g_muted_all := true |>)
  | ChatCommand.UnmuteAll =>
    send_chat_all now (str "Global chat mute disabled.") (g <| g_muted_all := false |>)
  | ChatCommand.VoteStart => cmd_vote_start now pid g
  | ChatCommand.VoteCancel => cmd_vote_cancel now g
  | ChatCommand.VoteKick name => cmd_vote_kick now pid name g
  | ChatCommand.Yes => cmd_yes now pid g
  | ChatCommand.SyncLimit limit => cmd_sync_limit now pid limit g
  | ChatCommand.Latency lat => cmd_latency now pid lat g
  | ChatCommand.ShufflePlayers => cmd_shuffle now draws g
  | ChatCommand.Version => tell (str "Spectre v0.2.0 (High-Performance Async Warcraft III Hostbot)")
  | ChatCommand.Ping => cmd_ping now pid g
  | ChatCommand.Check name => cmd_check now pid name g
  | ChatCommand.CheckMe => cmd_check_me now pid g
  | ChatCommand.Announce msg => cmd_announce now pid msg g
  | ChatCommand.AutoStart num =>
    send_chat_all now match num with
                      | Some n => str "Autostart enabled when " ++ dec n ++ str " players join."
                      | None => str "Autostart disabled."
                      end (g <| g_autostart_players := num |>)
  | ChatCommand.Refresh => send_chat_to now pid (str "Refreshed slot info.") (send_all_slot_info now g)
  | ChatCommand.VirtualHost vname =>
    send_chat_all now (str "Virtual host name set to [" ++ vname ++ str "].")
      (set_cfg (λ c, c <| c_virtual_host_name := vname |>) g)
  | ChatCommand.Comp slot tm col rc ctype hcap => Some (cmd_comp now slot tm col rc ctype hcap g)
  | ChatCommand.CompColour slot col => Some (cmd_comp_set now slot (λ s, s <| colour := col |>) g)
  | ChatCommand.CompRace slot rc => Some (cmd_comp_set now slot (λ s, s <| race := rc |>) g)
  | ChatCommand.CompHandicap slot hcap =>
    Some (cmd_comp_set now slot (λ s, s <| handicap := hcap |>) g)
  | ChatCommand.CompTeam slot tm => Some (cmd_comp_set now slot (λ s, s <| team := tm |>) g)
  | ChatCommand.Download name => cmd_download now pid name g
  | ChatCommand.Stats name => cmd_stats now pid caller name g
  | ChatCommand.StatsDotA name => cmd_stats_dota now pid caller name g
  | ChatCommand.Drop => Some (handle_drop_request g)
  | ChatCommand.Draw => cmd_draw now pid g
  | ChatCommand.Hcl mode =>
    send_chat_all now (str "HCL set to [" ++ mode ++ str "].") (g <| g_hcl := Some mode |>)
  | ChatCommand.ClearHcl => send_chat_all now (str "HCL settings cleared.") (g <| g_hcl := None |>)
  | ChatCommand.Owner (Some o) =>
    send_chat_all now (str "Game owner transferred to [" ++ o ++ str "].")
      (set_cfg (λ c, c <| c_owner := o |>) g)
  | ChatCommand.Owner None => tell (str "Current owner is [" ++ c_owner (g_cfg g) ++ str "].")
  | ChatCommand.Lock => send_chat_all now (str "Game locked.") (g <| g_locked := true |>)
  | ChatCommand.Unlock => send_chat_all now (str "Game unlocked.") (g <| g_locked := false |>)
  | ChatCommand.End =>
    g ← send_chat_all now (str "Game ended by host.") g;
    Some (g <| g_phase := Over |> <| g_finished := true |>)
  | ChatCommand.Unhost => Some (if is_lobby g then g <| g_finished := true |> else g)
  | ChatCommand.DbStatus => tell (str "DB STATUS --- OK")
  | ChatCommand.FakePlayer => cmd_fake_player now pid g
  | ChatCommand.FpPause => cmd_fake_action now pid 1 (str "Game paused by fake player.") g
  | ChatCommand.FpResume => cmd_fake_action now pid 2 (str "Game resumed by fake player.") g
  | ChatCommand.From =>
    tell_all now pid (map location_text (List.filter is_live (g_players g))) g
  | ChatCommand.Messages on => cmd_messages now pid on g
  | ChatCommand.SendLan ip port =>
    tell (str "Sending LAN broadcast to [" ++ ip ++ str ":" ++ dec (default 6112 port) ++ str "].")
  | ChatCommand.Pub name => cmd_rehost now (str "public") name g
  | ChatCommand.Priv name => cmd_rehost now (str "private") name g
  | ChatCommand.MuteLobby on => cmd_mute_lobby now on g
  | ChatCommand.Say msg => send_chat_all now msg g
  | ChatCommand.Whisper user message => cmd_whisper now pid caller user message g
  | ChatCommand.Unknown v => tell (str "Unknown command [" ++ v ++ str "].")
  end.

(** ** A player's requests about their slot *)

(** The last slot of that colour. *)
Definition slot_of_colour (col : Z) (t : SlotTable) : option nat :=
  fst <$> last (filter (λ e, colour e.2 = col) (imap pair t)).

Definition colour_slot (sid col : Z) (t : SlotTable) : SlotTable * bool :=
  match t !! Z.to_nat sid with
  | None => (t, false)
  | Some mine =>
    if MAX_SLOTS <=? col then (t, false) else
    match slot_of_colour col t with
    | Some tsid =>
      if match t !! tsid with Some s => is_status Occupied s | None => false end then (t, false)
      else ((set_colour sid col (set_colour (wrap 8 (Z.of_nat tsid)) (colour mine) t).1).1, true)
    | None => ((set_colour sid col t).1, true)
    end
  end.

(** 0x11: another team. *)
Definition request_team (m : MapInfo) (pid sid target_team : Z) (t : SlotTable) : SlotTable * bool :=
  if has_custom_forces m then
    match first_open_in_team_from sid target_team t with
    | Some target_sid =>
      ((swap_slots sid target_sid (has_fixed_player_settings m) true t).1, true)
    | None => (t, false)
    end
  else if MAX_SLOTS <? target_team then (t, false)
  else if (if target_team =? MAX_SLOTS
           then negb (observers m =? MAPOBS_ALLOWED) && negb (observers m =? MAPOBS_REFEREES)
           else (m_num_players m <=? target_team)
                || (m_num_players m <=?
                    wrap 8 (zlen (List.filter (λ s, is_status Occupied s
                      && negb (team s =? MAX_SLOTS) && negb (W3gs.pid s =? pid)) t))))
  then (t, false)
  else match t !! Z.to_nat sid with
       | None => (t, false)
       | Some s =>
         let s := s <| team := target_team |> in
         let s := if target_team =? MAX_SLOTS then s <| colour := MAX_SLOTS |>
                  else if colour s =? MAX_SLOTS then s <| colour := unused_colour t |> else s in
         ((replace_slot sid s t).1, true)
       end.

(** 0x12: another colour. *)
Definition request_colour (m : MapInfo) (sid col : Z) (t : SlotTable) : SlotTable * bool :=
  if has_fixed_player_settings m then (t, false)
  else if MAX_SLOTS - 1 <? col then (t, false)
  else match t !! Z.to_nat sid with
       | None => (t, false)
       | Some s => if team s =? MAX_SLOTS then (t, false) else colour_slot sid col t
       end.

(** 0x13: another race. *)
Definition request_race (m : MapInfo) (sid value : Z) (t : SlotTable) : SlotTable * bool :=
  if has_fixed_player_settings m || has_random_races m
     || negb (existsb (Z.eqb value) [1; 2; 4; 8; 32])
  then (t, false)
  else match t !! Z.to_nat sid with
       | None => (t, false)
       | Some s => ((replace_slot sid (s <| race := Z.lor value 64 |>) t).1, true)
       end.

(** 0x14: another handicap. *)
Definition request_handicap (m : MapInfo) (sid value : Z) (t : SlotTable) : SlotTable * bool :=
  if has_fixed_player_settings m || negb (existsb (Z.eqb value) [50; 60; 70; 80; 90; 100])
  then (t, false)
  else match t !! Z.to_nat sid with
       | None => (t, false)
       | Some s => ((replace_slot sid (s <| handicap := value |>) t).1, true)
       end.

Definition slot_request (m : MapInfo) (pid flag value : Z) (t : SlotTable) : SlotTable * bool :=
  match sid_of_pid pid t with
  | None => (t, false)
  | Some sid =>
    if flag =? 17 then request_team m pid sid value t
    else if flag =? 18 then request_colour m sid value t
    else if flag =? 19 then request_race m sid value t
    else if flag =? 20 then request_handicap m sid value t
    else (t, false)
  end.

Definition apply_slot_request (pid flag value : Z) (g : GameState) : GameState * bool :=
  let '(t, ok) := slot_request (c_map (g_cfg g)) pid flag value (g_slots g) in
  (g <| g_slots := t |>, ok).

(** ** A chat packet *)

Definition CHAT_TRIGGER : Z := 33.

Definition is_owner (name : bytes) (cfg : GameConfig) : bool :=
  eq_ignore_ascii_case name (c_owner cfg) || eq_ignore_ascii_case (c_owner cfg) (str "BOT")
  || (zlen (c_owner cfg) =? 0).

(** [players.by_pid(to).map(|p| !p.virtual_host).unwrap_or(false)]. *)
Definition can_be_told (g : GameState) (to : Z) : bool :=
  match by_pid to (g_players g) with Some p => is_human p | None => false end.

(** Whom a plain message is for. *)
Definition recipients (pid : Z) (asked : bytes) (g : GameState) : bytes :=
  match asked with
  | [] => player_pids (List.filter (λ p, is_live p && negb (p_pid p =? pid)) (g_players g))
  | _ => List.filter (can_be_told g) asked
  end.

Definition extra_u32 (extra : bytes) : Z :=
  if 4 <=? zlen extra then le_val (take 4 extra) else 0.

(** The recording of a message that is part of the game. *)
Definition record_chat (p : Player) (chat : ChatToHost) (g : GameState) : GameState :=
  if is_loading g || is_playing g then
    with_relay (rh_send_chat (p_name p) (message chat))
      (with_replay (add_chat (p_pid p) (flag chat) (extra_u32 (extra chat)) (message chat)) g)
  else g.

Definition plain_message (now : Z) (p : Player) (chat : ChatToHost) (g : GameState) : GameState :=
  if (p_muted p || g_muted_all g) && negb (is_owner (p_name p) (g_cfg g)) then g else
  let g := record_chat p chat g in
  if is_lobby g && g_mute_lobby g then g else
  let pids := recipients (p_pid p) (to_pids chat) g in
  match chat_from_host (p_pid p) pids (flag chat) (extra chat) (message chat) with
  | Ok b => if in_lobby g then foldl (λ g to, send_to now to b g) g pids else broadcast now b g
  | Err _ => g
  end.

(** The trigger is told to who asks for it; the message is then handled like any other. *)
Definition answer_trigger (now : Z) (p : Player) (chat : ChatToHost) (g : GameState)
  : option GameState :=
  if bytes_eqb (message chat) (str "?trigger")
  then send_chat_to now (p_pid p) (str "Command trigger: !") g else Some g.

Definition is_slot_flag (f : Z) : bool := (17 <=? f) && (f <=? 20).

Definition handle_slot_request (now : Z) (p : Player) (chat : ChatToHost) (g : GameState)
  : GameState :=
  if is_lobby g then
    match apply_slot_request (p_pid p) (flag chat) (byte chat) g with
    | (g, true) => send_all_slot_info now g
    | (g, false) => g
    end
  else g.

Definition not_owner : bytes := str "You are not the owner of this game.".

Definition handle_chat_to_host (now : Z) (draws : nat → Z) (conn_id : Z) (payload : bytes)
    (g : GameState) : option GameState :=
  match by_conn conn_id (g_players g), ChatToHost_decode payload with
  | Some p, Ok chat =>
    if negb (from_pid chat =? p_pid p) then Some g else
    g ← answer_trigger now p chat g;
    if is_slot_flag (flag chat) then Some (handle_slot_request now p chat g) else
    match parse_command CHAT_TRIGGER (message chat) with
    | Some cmd =>
      if negb (is_owner (p_name p) (g_cfg g)) && negb (public_cmd cmd)
      then send_chat_to now (p_pid p) not_owner g
      else run_command now draws (p_pid p) (p_name p) cmd g
    | None => Some (plain_message now p chat g)
    end
  | _, _ => Some g
  end.
End chat.
