(* ===== verification/Dispatch.v ===== *)
(** The actor of a game (spectre-engine, src/actor.rs): commands and frames are handed to
    their handlers, and the loop takes one of them, or the timer, at a time.

    A link that a handler lets go of is dropped with what was written on it.  What a
    handler draws from the random number generator comes with the event. *)
From S2P Require Import Prelude Utf8 Text Store BytesExt Frame W3gs Gps Conn Slots History Players.
From S2P Require Import ReplayBody StatsDota Relay Tick Game CatchUp Desync Turns Lag Phases MapXfer.
From S2P Require Import Lobby Seating Reconnect Actor Commands Chat.

(** The commands of a game (src/handle.rs); the DotaTV stream is left out. *)
Inductive GameCmd :=
| NewConn (conn_id : Z) (link : PlayerLink) (external_ip : bytes)
| AdoptReconnect (conn_id pid reconnect_key last_packet : Z) (link : PlayerLink)
| ConnFrame (conn_id : Z) (frame : AnyFrame)
| ConnClosed (conn_id : Z) (reason : bytes)
| CmdStart
| CmdChat (msg : bytes)
| CmdUnhost
| ToggleFakePlayer
| Shutdown
| CreateVirtualHost.

(** What a handler may draw: a reconnect key, and the numbers of a shuffle. *)
Record Draws := mkDraws { dw_key : Z; dw_shuffle : nat → Z }.

Section dispatch.
Context `{W : World} (crc32 : bytes → Z) (hash_order : list (Z * list Z) → list (Z * list Z))
        (holds_order : HoldsOrder) (fmt_secs : Z → bytes).

Definition on_w3gs_frame (now : Z) (dw : Draws) (conn_id : Z) (frame : Frame) (g : GameState)
  : option GameState :=
  let id := fr_id frame in
  let payload := fr_payload frame in
  if id =? ids.REQ_JOIN then Some (handle_req_join holds_order now (dw_key dw) conn_id payload g).1
  else if id =? ids.LEAVE_GAME then
    Some (handle_leave conn_id (unwrap_or (decode_leave_game payload) 0) g)
  else if id =? ids.OUTGOING_ACTION then Some (handle_action conn_id payload g)
  else if id =? ids.OUTGOING_KEEPALIVE then handle_keepalive hash_order now conn_id payload g
  else if id =? ids.CHAT_TO_HOST then handle_chat_to_host now (dw_shuffle dw) conn_id payload g
  else if id =? ids.GAME_LOADED_SELF then handle_loaded fmt_secs now conn_id g
  else if id =? ids.PONG_TO_HOST then Some (handle_pong now conn_id payload g)
  else if id =? ids.MAP_SIZE then handle_map_size fmt_secs now conn_id payload g
  else if id =? ids.MAP_PART_OK then Some (handle_map_part_ok conn_id payload g)
  else if id =? ids.MAP_PART_NOT_OK then Some (handle_map_part_not_ok conn_id payload g)
  else if id =? ids.DROP_REQ then Some (handle_drop_request g)
  else Some g.

Definition on_frame (now : Z) (dw : Draws) (conn_id : Z) (frame : AnyFrame) (g : GameState)
  : option GameState :=
  match frame with
  | FW3gs f => on_w3gs_frame now dw conn_id f g
  | FGps f => Some (on_gps_frame conn_id f g).1
  | FIccupGps f => Some (on_iccup_gps_frame conn_id f g).1
  | FDotaTv _ => Some g
  end.

Definition handle_cmd (now : Z) (dw : Draws) (cmd : GameCmd) (g : GameState) : option GameState :=
  match cmd with
  | NewConn conn_id link external_ip => Some (add_conn conn_id link external_ip g)
  | AdoptReconnect conn_id pid key last link =>
    Some (handle_gps_reconnect conn_id (mkReconnectReq pid key last) link g).1.1
  | ConnFrame conn_id frame => on_frame now dw conn_id frame g
  | ConnClosed conn_id reason => Some (handle_conn_closed now conn_id reason g)
  | CmdStart => Some (start_countdown now g)
  | CmdChat msg => send_chat_all now msg g
  | CmdUnhost => Some (if is_lobby g then g <| g_finished := true |> else g)
  | ToggleFakePlayer => Some (toggle_fake_player now g).1
  | Shutdown => Some (g <| g_finished := true |>)
  | CreateVirtualHost => Some (create_virtual_host now g)
  end.

(** ** The loop *)

(** The state of [run]; [ru_last] is the lobby status that was reported last. *)
Record Run := mkRun { ru_game : GameState; ru_last : option (Z * Z * Z); ru_stopped : bool }.

Inductive RunEvent :=
| EvCmd (dw : Draws) (cmd : GameCmd)
| EvTimer
| EvClosed.

Definition status_key (g : GameState) : Z * Z * Z :=
  (wrap 32 (open_slots (g_slots g)), wrap 32 (zlen (g_slots g)), wrap 32 (human_count (g_players g))).

Definition report_lobby (r : Run) : Run :=
  let g := ru_game r in
  if is_lobby g && negb (bool_decide (ru_last r = Some (status_key g)))
  then mkRun (report_status g) (Some (status_key g)) (ru_stopped r) else r.

(** The branch of [select!] that is taken; the inner [None] breaks the loop. *)
Definition run_branch (now : Z) (ev : RunEvent) (g : GameState) : option (option GameState) :=
  match ev with
  | EvClosed | EvCmd _ Shutdown => Some None
  | EvCmd dw cmd => Some <$> handle_cmd now dw cmd g
  | EvTimer => Some <$> timer_branch crc32 hash_order fmt_secs now g
  end.

(** One turn of the loop; [None] is a panic. *)
Definition run_step (now : Z) (ev : RunEvent) (r : Run) : option Run :=
  if ru_stopped r then Some r else
  og ← run_branch now ev (ru_game r);
  match og with
  | None => Some (mkRun (ru_game r) (ru_last r) true)
  | Some g =>
    g ← reap_left_players fmt_secs now g;
    let r := report_lobby (mkRun g (ru_last r) false) in
    Some (if g_finished (ru_game r) then mkRun (ru_game r) (ru_last r) true else r)
  end.

(** ** What goes on between the turns

    The tasks at the other ends of the game's channels run at any time: the writer of a
    connection takes a packet off its link (src/conn.rs of spectre-net), the task that drains the
    fake player's link takes one off that, the relay takes a command; or they end. *)
Inductive LinkOwner := OfPlayer (i : nat) | OfPending (i : nat).

Definition on_link (o : LinkOwner) (f : PlayerLink → PlayerLink) (g : GameState) : GameState :=
  match o with
  | OfPlayer i => g <| g_players ::= alter (λ p, p <| p_link ::= f |>) i |>
  | OfPending i => g <| g_pending ::= alter (λ c, (c.1.1, f c.1.2, c.2)) i |>
  end.

Definition hang_up {A} (c : Chan A) : Chan A := c <| ch_closed := true |>.

Inductive WorldEvent :=
| Turn (ev : RunEvent)
| LinkWrites (o : LinkOwner)
| LinkEnds (o : LinkOwner)
| RelayTakes
| RelayEnds.

(** A turn of the loop, or a step of one of those tasks. *)
Definition world_step (now : Z) (e : WorldEvent) (r : Run) : option Run :=
  let moved g := Some (mkRun g (ru_last r) (ru_stopped r)) in
  match e with
  | Turn ev => run_step now ev r
  | LinkWrites o => moved (on_link o recv (ru_game r))
  | LinkEnds o => moved (on_link o hang_up (ru_game r))
  | RelayTakes => moved (with_relay recv (ru_game r))
  | RelayEnds => moved (with_relay hang_up (ru_game r))
  end.

(** A run: steps at their times, one after the other; [None] is a panic. *)
Fixpoint run_world (evs : list (Z * WorldEvent)) (r : Run) : option Run :=
  match evs with
  | [] => Some r
  | (now, e) :: evs => r ← world_step now e r; run_world evs r
  end.
End dispatch.
