(* ===== verification/ChatRules.v ===== *)
(** What the chat of a game can and cannot do: what sending leaves alone, the commands of
    a player who does not own the game, the bounds of the clock, votes, and the requests
    about a slot. *)
From S2P Require Import Prelude Utf8 Text Store BytesExt Frame W3gs Gps Conn Slots History Players.
From S2P Require Import ReplayBody StatsDota Relay Tick Game CatchUp Desync Turns Lag Phases MapXfer.
From S2P Require Import Lobby Seating Reconnect Actor Commands Chat.

Create HintDb cmds.

(** ** What sending leaves alone

    [settings g] is [g] without what sending a packet writes: the links and buffers of the
    players, whether they were found gone, the recordings. *)
Definition still (p : Player) : Player :=
  p <| p_link := dead_link |> <| p_gproxy_buffer := None |> <| p_consecutive_send_failures := 0 |>
    <| p_left := None |> <| p_disconnected_since := None |>.

Definition settings (g : GameState) : GameState :=
  g <| g_players ::= map still |> <| g_relay := None |> <| g_replay := None |>
    <| g_full_history := new_history |>.

(** A player is found gone for two reasons only. *)
Definition lost_link (r : option bytes) : Prop :=
  r = Some (str "lagged out (write queue full)") ∨ r = Some (str "connection closed").

Definition left_ok (p p' : Player) : Prop := p_left p' = p_left p ∨ lost_link (p_left p').

#[export] Instance left_ok_preorder : PreOrder left_ok.
Proof. split; [by left|]. unfold left_ok. intros p q r [->|Hq] [->|Hr]; auto. Qed.

Record quiet (g g' : GameState) : Prop := {
  qu_settings : settings g' = settings g;
  qu_left : Forall2 left_ok (g_players g) (g_players g') }.

#[export] Instance quiet_preorder : PreOrder quiet.
Proof.
  split; [done|]. intros g1 g2 g3 [E1 L1] [E2 L2]. split; [congruence|].
  by trans (g_players g2).
Qed.

(** Whatever can be read off the settings is the same after a quiet step. *)
Lemma quiet_field {A} (f : GameState → A) g g' :
  (∀ g, f (settings g) = f g) → quiet g g' → f g' = f g.
Proof. intros Hf [E _]. by rewrite <- (Hf g'), E. Qed.

Definition quiet_player (p p' : Player) : Prop := still p' = still p ∧ left_ok p p'.

Lemma quiet_players t g :
  map still t = map still (g_players g) → Forall2 left_ok (g_players g) t →
  quiet g (g <| g_players := t |>).
Proof.
  intros E L. split; [|done].
  exact (f_equal (λ ps, g <| g_players := ps |> <| g_relay := None |> <| g_replay := None |>
                          <| g_full_history := new_history |>) E).
Qed.

Lemma quiet_map f g :
  (∀ p, quiet_player p (f p)) → quiet g (g <| g_players ::= map f |>).
Proof.
  intros Hf. apply (quiet_players (map f (g_players g))).
  - rewrite map_map. apply map_ext, Hf.
  - change @map with (@fmap list _). apply Forall2_fmap_r, Forall_Forall2_diag, Forall_true, Hf.
Qed.

Lemma quiet_update sel f g :
  (∀ p, quiet_player p (f p)) → quiet g (g <| g_players ::= update_first sel f |>).
Proof.
  intros Hf. apply (quiet_players (update_first sel f (g_players g))).
  - apply update_first_map. intros p _. apply Hf.
  - generalize (g_players g). intros t. induction t as [|p t IH]; [done|]. cbn.
    destruct (sel p); constructor; [apply Hf|reflexivity|reflexivity|exact IH].
Qed.

(** *** Sending *)

Lemma quiet_offer now bs p : p_left p = None → quiet_player p (offer now bs p).
Proof.
  intros Hl. unfold offer. destruct (try_send (p_link p) bs) as [link [[]|[|]]].
  - split; [done|by left].
  - destruct (_ <=? _); (split; [done|]); [by right; left|by left].
  - change (p_gproxy (p <| p_link := link |>)) with (p_gproxy p).
    change (p_disconnected_since (p <| p_link := link |>)) with (p_disconnected_since p).
    destruct (p_gproxy p); [destruct (p_disconnected_since p)|]; (split; [done|]);
      [by left..|by right; right].
Qed.

Lemma quiet_buffer bs p : quiet_player p (buffer_packet bs p).
Proof. split; [done|by left]. Qed.

Lemma quiet_player_trans p q r : quiet_player p q → quiet_player q r → quiet_player p r.
Proof. intros [E1 L1] [E2 L2]. split; [congruence|by trans q]. Qed.

Lemma quiet_player_refl p : quiet_player p p.
Proof. by split; [|left]. Qed.

Lemma quiet_deliver now bs p : quiet_player p (deliver now bs p).
Proof.
  unfold deliver. destruct (has_left p) eqn:Hl; [apply quiet_player_refl|]. cbn [orb].
  apply has_left_None in Hl. destruct (p_virtual_host p); [apply quiet_player_refl|].
  destruct (negb _); [apply quiet_buffer|]. destruct (is_some _); [apply quiet_buffer|].
  destruct (is_some _); [apply quiet_buffer|].
  eapply quiet_player_trans; [apply quiet_buffer|by apply quiet_offer].
Qed.

Lemma quiet_send_to_player now bs p : quiet_player p (send_to_player now bs p).
Proof.
  unfold send_to_player. destruct (has_left p) eqn:Hl; [apply quiet_player_refl|].
  apply has_left_None in Hl. case_match; [apply quiet_buffer|].
  eapply quiet_player_trans; [apply quiet_buffer|by apply quiet_offer].
Qed.

Lemma quiet_broadcast now bs g : quiet g (broadcast now bs g).
Proof.
  unfold broadcast. destruct (is_playing g).
  - etrans; [|apply quiet_map, quiet_deliver]. by split.
  - apply quiet_map, quiet_deliver.
Qed.
Lemma quiet_send_to now pid bs g : quiet g (send_to now pid bs g).
Proof. apply quiet_update, quiet_send_to_player. Qed.
Lemma quiet_broadcast_ok now m g : quiet g (broadcast_ok now m g).
Proof. destruct m; [apply quiet_broadcast|done]. Qed.
Lemma quiet_send_to_ok now pid m g : quiet g (send_to_ok now pid m g).
Proof. destruct m; [apply quiet_send_to|done]. Qed.
Lemma quiet_slot_info now g : quiet g (send_all_slot_info now g).
Proof. apply quiet_broadcast_ok. Qed.
Lemma quiet_with_relay f g : quiet g (with_relay f g).
Proof. by split. Qed.
Lemma quiet_with_replay f g : quiet g (with_replay f g).
Proof. by split. Qed.

Lemma quiet_foldl {A} (f : GameState → A → GameState) l g :
  (∀ g x, quiet g (f g x)) → quiet g (foldl f g l).
Proof.
  intros Hf. revert g. induction l as [|x l IH]; intros g; [done|]. cbn. etrans; [apply Hf|apply IH].
Qed.

Lemma quiet_chat_all now msg g g' : send_chat_all now msg g = Some g' → quiet g g'.
Proof.
  unfold send_chat_all. destruct (host_pid g =? 255); [by intros [= <-]|].
  destruct (player_pids _) as [|pid pids]; [by intros [= <-]|].
  destruct (in_lobby _); destruct (cut_message _ _) as [m|]; try done; intros [= <-].
  - etrans; [apply quiet_with_relay|apply quiet_broadcast_ok].
  - etrans; [apply quiet_with_relay|]. etrans; [apply quiet_with_replay|apply quiet_broadcast_ok].
Qed.

Lemma quiet_chat_to now pid msg g g' : send_chat_to now pid msg g = Some g' → quiet g g'.
Proof.
  unfold send_chat_to. destruct (host_pid g =? 255); [by intros [= <-]|].
  destruct (in_lobby _); destruct (cut_message _ _) as [m|]; try done; intros [= <-];
    apply quiet_send_to_ok.
Qed.

Lemma quiet_tell_all now pid msgs g g' : tell_all now pid msgs g = Some g' → quiet g g'.
Proof.
  unfold tell_all. revert g. induction msgs as [|m msgs IH]; intros g; cbn; [by intros [= <-]|].
  destruct (send_chat_to now pid m g) as [g1|] eqn:E.
  - intros H. etrans; [by eapply quiet_chat_to|by apply IH].
  - intros H. exfalso. clear -H. induction msgs as [|m' msgs IH]; [done|by apply IH].
Qed.

(** ** A player who does not own the game

    What they cannot change: everything but the votes, the time of their last question
    about statistics, and what the votes decide. *)
Definition forget_questions (p : Player) : Player :=
  p <| p_stats_sent_time := None |> <| p_stats_dota_sent_time := None |>.

Definition forget_votes (g : GameState) : GameState :=
  g <| g_players ::= map forget_questions |>
    <| g_phase := Lobby |> <| g_finished := false |> <| g_start_votes := [] |>
    <| g_votekick_target := None |> <| g_votekick_votes := [] |> <| g_draw_votes := [] |>.
Definition ruled (g : GameState) : GameState := forget_votes (settings g).

Record guest_step (g g' : GameState) : Prop := {
  gu_ruled : ruled g' = ruled g;
  gu_left : Forall2 left_ok (g_players g) (g_players g');
  gu_phase : g_phase g' = g_phase g ∨
    g_phase g = Lobby ∧ is_countdown g' = true ∧ start_needed g <= zlen (g_start_votes g');
  gu_finished : g_finished g' = g_finished g ∨
    g_finished g' = true ∧ human_count (g_players g) <= zlen (g_draw_votes g') }.

Lemma quiet_phase g g' : quiet g g' → g_phase g' = g_phase g.
Proof. by apply (quiet_field g_phase). Qed.
Lemma settings_players g : g_players (settings g) = map still (g_players g).
Proof. reflexivity. Qed.

Lemma filter_map_inv {A} (f : A → bool) h (l : list A) :
  (∀ x, f (h x) = f x) → List.filter f (map h l) = map h (List.filter f l).
Proof.
  intros Hf. induction l as [|x l IH]; [done|]. cbn. rewrite Hf, IH. by destruct (f x).
Qed.

Lemma still_human p : is_human (still p) = is_human p.
Proof. reflexivity. Qed.

Lemma still_humans t : human_count (map still t) = human_count t.
Proof. unfold human_count, iter_humans. by rewrite (filter_map_inv _ _ _ still_human), zlen_map. Qed.

Definition humans (g : GameState) : Z := human_count (g_players g).
Lemma humans_settings g : humans (settings g) = humans g.
Proof. unfold humans. by rewrite settings_players, still_humans. Qed.

Lemma quiet_humans g g' :
  quiet g g' → human_count (g_players g') = human_count (g_players g).
Proof. exact (quiet_field humans g g' humans_settings). Qed.

Lemma ruled_settings g g' : settings g' = settings g → ruled g' = ruled g.
Proof. intros E. exact (f_equal forget_votes E). Qed.

Lemma guest_refl g : guest_step g g.
Proof. split; [done|reflexivity|by left..]. Qed.

Lemma guest_quiet g g1 g' : guest_step g g1 → quiet g1 g' → guest_step g g'.
Proof.
  intros [E L P F] Hq. pose proof (quiet_phase _ _ Hq) as Hph. split.
  - rewrite <- E. apply ruled_settings, Hq.
  - etrans; [exact L|apply Hq].
  - unfold is_countdown in *. rewrite Hph. rewrite (quiet_field g_start_votes _ _ ltac:(done) Hq).
    exact P.
  - rewrite (quiet_field g_finished _ _ ltac:(done) Hq), (quiet_field g_draw_votes _ _ ltac:(done) Hq).
    exact F.
Qed.

Lemma guest_of_quiet g g' : quiet g g' → guest_step g g'.
Proof. apply guest_quiet, guest_refl. Qed.

Definition ruled_with (g : GameState) (ps : PlayerTable) : GameState :=
  g <| g_players := ps |> <| g_relay := None |> <| g_replay := None |>
    <| g_full_history := new_history |> <| g_phase := Lobby |> <| g_finished := false |>
    <| g_start_votes := [] |> <| g_votekick_target := None |> <| g_votekick_votes := [] |>
    <| g_draw_votes := [] |>.

Lemma guest_asked f g pid :
  (∀ p, forget_questions (f p) = forget_questions p ∧ p_left (f p) = p_left p ∧
        still (f p) = f (still p)) →
  guest_step g (g <| g_players ::= by_pid_mut pid f |>).
Proof.
  intros Hf. set (t := by_pid_mut pid f (g_players g)).
  assert (map forget_questions (map still t) = map forget_questions (map still (g_players g))) as E.
  { rewrite !map_map. apply update_first_map. intros p _. destruct (Hf p) as (_ & _ & ->).
    apply Hf. }
  split; [|..|by left|by left].
  - exact (f_equal (ruled_with g) E).
  - change (Forall2 left_ok (g_players g) t). unfold t. generalize (g_players g). clear -Hf. intros t.
    induction t as [|p t IH]; [done|]. cbn. destruct (has_pid pid p); constructor;
      [left; apply Hf|reflexivity|reflexivity|exact IH].
Qed.

Section rules.
Context `{W : World}.

Lemma guest_vote_start now pid g g' : cmd_vote_start now pid g = Some g' → guest_step g g'.
Proof.
  unfold cmd_vote_start. destruct (existsb _ _); [intros [= <-]; apply guest_refl|].
  set (g1 := g <| g_start_votes ::= λ v, v ++ [pid] |>).
  intros (g2 & Hq%quiet_chat_all & [= <-])%bind_Some.
  assert (guest_step g g1) as Hg by (split; [done|reflexivity|by left..]).
  pose proof (guest_quiet _ _ _ Hg Hq) as [E L P F].
  destruct (Z.leb_spec (start_needed g1) (zlen (g_start_votes g ++ [pid]))) as [Hn|]; [|done].
  unfold start_countdown. destruct (is_lobby g2) eqn:Hl; [|done]. split; [done|done| |done].
  right. assert (g_phase g2 = Lobby) as Hph by (unfold is_lobby in Hl; by destruct (g_phase g2)).
  split; [by rewrite <- Hph, (quiet_phase _ _ Hq)|]. split; [done|].
  change (start_needed g <= zlen (g_start_votes g2)).
  rewrite (quiet_field g_start_votes _ _ ltac:(done) Hq). exact Hn.
Qed.

Lemma guest_draw now pid g g' : cmd_draw now pid g = Some g' → guest_step g g'.
Proof.
  unfold cmd_draw. destruct (existsb _ _); [intros [= <-]; apply guest_refl|].
  set (g1 := g <| g_draw_votes ::= λ v, v ++ [pid] |>).
  intros (g2 & Hq%quiet_chat_all & H)%bind_Some.
  assert (guest_step g g1) as Hg by (split; [done|reflexivity|by left..]).
  destruct (Z.leb_spec (human_count (g_players g1)) (zlen (g_draw_votes g1))) as [Hn|].
  - apply bind_Some in H as (g3 & Hq3%quiet_chat_all & [= <-]).
    assert (quiet g1 g3) as Hq13 by (by trans g2).
    pose proof (guest_quiet _ _ _ Hg Hq13) as [E L P F]. split; [done..|].
    right. split; [done|]. change (human_count (g_players g) <= zlen (g_draw_votes g3)).
    rewrite (quiet_field g_draw_votes _ _ ltac:(done) Hq13). exact Hn.
  - injection H as <-. by eapply guest_quiet.
Qed.

Lemma guest_vote_kick now pid name g g' : cmd_vote_kick now pid name g = Some g' → guest_step g g'.
Proof.
  unfold cmd_vote_kick. destruct (negb _); [intros H%quiet_chat_to; by apply guest_of_quiet|].
  destruct (find_player name g) as [p|e]; [|intros H%quiet_chat_to; by apply guest_of_quiet].
  intros H%quiet_chat_all. eapply guest_quiet; [|exact H]. split; [done|reflexivity|by left..].
Qed.

Ltac say_quiet :=
  match goal with
  | |- send_chat_to _ _ _ _ = Some _ → _ =>
    let H := fresh in intros H%quiet_chat_to; by apply guest_of_quiet
  end.

Lemma guest_vote_cancel now g g' : cmd_vote_cancel now g = Some g' → guest_step g g'.
Proof.
  intros H%quiet_chat_all. eapply guest_quiet; [|exact H]. split; [done|reflexivity|by left..].
Qed.

Lemma guest_whisper now pid caller user msg g g' :
  cmd_whisper now pid caller user msg g = Some g' → guest_step g g'.
Proof.
  unfold cmd_whisper. destruct (find_player user g); [|say_quiet].
  intros (g1 & H1%quiet_chat_to & H2%quiet_chat_to)%bind_Some. apply guest_of_quiet. by trans g1.
Qed.

Ltac destruct_if := match goal with |- (if ?c then _ else _) = _ → _ => destruct c end.

Lemma guest_stats now pid caller name g g' :
  cmd_stats now pid caller name g = Some g' → guest_step g g'.
Proof.
  unfold cmd_stats. destruct_if; [intros [= <-]; apply guest_refl|].
  intros H%quiet_chat_to. eapply guest_quiet; [|exact H]. by apply guest_asked.
Qed.

Lemma guest_stats_dota now pid caller name g g' :
  cmd_stats_dota now pid caller name g = Some g' → guest_step g g'.
Proof.
  unfold cmd_stats_dota. destruct_if; [intros [= <-]; apply guest_refl|].
  intros H%quiet_chat_to. eapply guest_quiet; [|exact H]. by apply guest_asked.
Qed.

Lemma guest_check_me now pid g g' : cmd_check_me now pid g = Some g' → guest_step g g'.
Proof. unfold cmd_check_me. destruct (by_pid _ _); [say_quiet|intros [= <-]; apply guest_refl]. Qed.

Lemma guest_public now draws pid caller cmd g g' :
  public_cmd cmd = true → cmd ≠ ChatCommand.Yes →
  run_command now draws pid caller cmd g = Some g' → guest_step g g'.
Proof.
  destruct cmd; try done; cbn [run_command]; intros _ Hyes;
    first [done | say_quiet | apply guest_vote_start | apply guest_vote_cancel | apply guest_vote_kick
          | apply guest_whisper | apply guest_stats | apply guest_stats_dota | apply guest_draw
          | apply guest_check_me | unfold cmd_ping; say_quiet].
Qed.
Lemma quiet_plain_message now p chat g : quiet g (plain_message now p chat g).
Proof.
  unfold plain_message. destruct (_ && _); [done|].
  assert (quiet g (record_chat p chat g)) as Hr.
  { unfold record_chat. destruct (_ || _); [|done]. etrans; [apply quiet_with_replay|apply quiet_with_relay]. }
  destruct (_ && _); [done|]. etrans; [exact Hr|].
  destruct (chat_from_host _ _ _ _ _) as [b|e]; [|done].
  destruct (in_lobby _); [|apply quiet_broadcast].
  apply (quiet_foldl (λ g to, send_to now to b g)). intros. apply quiet_send_to.
Qed.

Lemma quiet_answer now p chat g g' : answer_trigger now p chat g = Some g' → quiet g g'.
Proof. unfold answer_trigger. destruct (bytes_eqb _ _); [apply quiet_chat_to|by intros [= <-]]. Qed.
End rules.

(** *** [!yes] is not read as a vote *)

Ltac verb_chain tac :=
  repeat match goal with
  | |- context [if ?c then _ else _] => destruct c; [solve [tac]|]
  end; try solve [tac].

Lemma parse_verb_not_yes verb args : parse_verb verb args ≠ Some ChatCommand.Yes.
Proof.
  unfold parse_verb. cbv zeta.
  verb_chain ltac:(unfold parse_swap, parse_hold, parse_ban, parse_banlast, parse_whisper, parse_comp,
    parse_slot_value, parse_sendlan; try done;
    repeat match goal with |- context [?o ≫= _] => destruct o; cbn; try done end).
Qed.

Lemma parse_command_not_yes `{Unicode} trigger msg :
  parse_command trigger msg ≠ Some ChatCommand.Yes.
Proof.
  unfold parse_command. destruct (strip_prefix trigger msg) as [rest|]; cbn; [|done].
  destruct (split_whitespace rest) as [|w args]; [done|apply parse_verb_not_yes].
Qed.

(** ** What a command leaves as it was

    [inv_cmd] takes [cmd = Some g'] apart: its tests, its steps and what it says. *)
Ltac inv_cmd :=
  repeat match goal with
  | H : _ ≫= _ = Some _ |- _ => apply bind_Some in H as (? & ? & H)
  | H : Some _ = Some _ |- _ => apply (inj Some) in H; subst
  | H : None = Some _ |- _ => discriminate H
  | H : send_chat_all _ _ _ = Some _ |- _ => apply quiet_chat_all in H
  | H : send_chat_to _ _ _ _ = Some _ |- _ => apply quiet_chat_to in H
  | H : tell_all _ _ _ _ = Some _ |- _ => apply quiet_tell_all in H
  | H : (if ?c then _ else _) = Some _ |- _ => destruct c
  | H : match ?o with _ => _ end = Some _ |- _ => destruct o
  end.

(** The dials of the game's clock, and the votes against a player. *)
Definition dials (g : GameState) : Z * Z * Z * list Z :=
  (c_latency (g_cfg g), period (g_tick g), c_sync_limit (g_cfg g), g_votekick_votes g).

Lemma quiet_dials g g' : quiet g g' → dials g' = dials g.
Proof. by apply (quiet_field dials). Qed.

Lemma dials_slot_command now op g : dials (slot_command now op g) = dials g.
Proof.
  unfold slot_command. destruct (op (g_slots g)) as [t []]; [|done].
  etrans; [apply quiet_dials, quiet_slot_info|done].
Qed.

Lemma dials_kicks (l : list Z) reason code g :
  dials (foldl (λ g pid, kick_player pid reason code g) g l) = dials g.
Proof. revert g. induction l as [|x l IH]; intros g; [done|]. cbn. by rewrite IH. Qed.

Lemma dials_toggle now g : dials (toggle_fake_player now g).1 = dials g.
Proof.
  unfold toggle_fake_player. destruct (negb _); [done|]. destruct (g_fake_player_pid g) as [f|].
  - cbn [fst].
    etrans; [apply quiet_dials, quiet_slot_info|]. etrans; [apply quiet_dials, quiet_broadcast|done].
  - destruct (next_free_pid _) as [fpid|], (first_open (g_slots g)) as [i|]; try done. cbn [fst].
    etrans; [apply quiet_dials, quiet_slot_info|].
    etrans; [apply quiet_dials, quiet_broadcast_ok|done].
Qed.

Lemma dials_comp_set now slot f g : dials (cmd_comp_set now slot f g) = dials g.
Proof.
  unfold cmd_comp_set. destruct (_ !! _) as [s|]; [|done]. destruct (_ =? _); [|done].
  etrans; [apply quiet_dials, quiet_slot_info|done].
Qed.

Lemma dials_report g : dials (report_status g) = dials g.
Proof. unfold report_status. by destruct (c_event_tx (g_cfg g)). Qed.

Lemma dials_drop g : dials (handle_drop_request g) = dials g.
Proof. unfold handle_drop_request. destruct (negb _); [done|apply dials_kicks]. Qed.

Lemma dials_countdown now g : dials (start_countdown now g) = dials g.
Proof. unfold start_countdown. by destruct (is_lobby g). Qed.

#[export] Hint Unfold cmd_start cmd_abort cmd_open cmd_close cmd_swap cmd_comp cmd_open_all cmd_close_all cmd_shuffle cmd_hold
  cmd_clear_hold cmd_rehost cmd_fake_action cmd_vote_start cmd_vote_cancel cmd_draw cmd_yes
  cmd_announce cmd_kick cmd_ban cmd_ban_last cmd_mute cmd_vote_kick cmd_ping cmd_check
  cmd_check_me cmd_download cmd_whisper cmd_stats cmd_stats_dota cmd_latency cmd_sync_limit
  cmd_fake_player cmd_messages cmd_mute_lobby : cmds.

Ltac same_dials :=
  repeat match goal with Hq : quiet _ _ |- _ => apply quiet_dials in Hq end;
  repeat match goal with
  | |- dials (match ?o with _ => _ end) = _ => destruct o
  | |- dials (start_countdown _ _) = _ => rewrite dials_countdown
  | |- dials (handle_drop_request _) = _ => apply dials_drop
  | |- dials (report_status _) = _ => rewrite dials_report
  | |- dials (cmd_comp_set _ _ _ _) = _ => apply dials_comp_set
  | |- dials (send_all_slot_info _ _) = _ => etrans; [apply quiet_dials, quiet_slot_info|]
  | |- dials (send_to _ _ _ _) = _ => etrans; [apply quiet_dials, quiet_send_to|]
  | |- dials (slot_command _ _ _) = _ => rewrite dials_slot_command
  | Hq : dials ?x = _ |- dials ?y = _ => etrans; [transitivity (dials x); [reflexivity|exact Hq]|]; clear Hq
  | |- _ => reflexivity
  end.

(** The commands that turn a dial. *)
Definition turns_dial (cmd : ChatCommand.t) : bool :=
  match cmd with
  | ChatCommand.VoteKick _ | ChatCommand.VoteCancel | ChatCommand.Yes
  | ChatCommand.Latency _ | ChatCommand.SyncLimit _ => true
  | _ => false
  end.

Section dials.
Context `{W : World}.

Lemma run_command_dials now draws pid caller cmd g g' :
  turns_dial cmd = false → run_command now draws pid caller cmd g = Some g' → dials g' = dials g.
Proof.
  destruct cmd; try done; cbn [run_command turns_dial]; intros _ H; autounfold with cmds in H.
  all: try (inv_cmd; same_dials; done).
  pose proof (dials_toggle now g) as Ht. destruct (toggle_fake_player now g) as [g1 msg].
  cbn [fst] in Ht. inv_cmd; same_dials.
Qed.

Lemma clamp_bounds lo hi x : lo <= hi → lo <= clamp lo hi x <= hi.
Proof. unfold clamp. intros. destruct (Z.ltb_spec x lo), (Z.ltb_spec hi x); lia. Qed.

(** What a packet may make of the dials. *)
Definition dials_step (d d' : Z * Z * Z * list Z) : Prop :=
  let '(lat, per, sync, votes) := d in
  let '(lat', per', sync', votes') := d' in
  (per' = per ∧ lat' = lat ∨ lat' = per' ∧ 10 * MS <= per' <= 500 * MS) ∧
  (sync' = sync ∨ 10 <= sync' <= 500) ∧
  (zlen votes <= 1 → zlen votes' <= 1).

Lemma dials_step_refl d : dials_step d d.
Proof. destruct d as [[[lat per] sync] votes]. split_and!; auto. Qed.

Lemma run_command_step now draws pid caller cmd g g' :
  cmd ≠ ChatCommand.Yes →
  run_command now draws pid caller cmd g = Some g' → dials_step (dials g) (dials g').
Proof.
  intros Hyes H. destruct (turns_dial cmd) eqn:Ht; cycle 1.
  { rewrite (run_command_dials _ _ _ _ _ _ _ Ht H). apply dials_step_refl. }
  destruct cmd; try done; cbn [run_command] in H;
    autounfold with cmds in H; inv_cmd;
    repeat match goal with Hq : quiet _ _ |- _ => apply quiet_dials in Hq; rewrite Hq; clear Hq end;
    try apply dials_step_refl.
  all: unfold dials, dials_step; split_and!; try (by left); try (by intros);
    try (right; split; [done|]); try right.
  - apply (clamp_bounds 10 500). lia.
  - match goal with |- context [clamp 10 500 ?z] => change (10 * MS <= clamp 10 500 z * MS <= 500 * MS);
      pose proof (clamp_bounds 10 500 z ltac:(lia)) end.
    unfold MS. lia.
Qed.

(** Nothing that is read as a command asks for the trigger. *)
Lemma answer_command now p chat g cmd :
  parse_command CHAT_TRIGGER (message chat) = Some cmd → answer_trigger now p chat g = Some g.
Proof.
  intros Hcmd. unfold answer_trigger. destruct (bytes_eqb _ _) eqn:E; [|done].
  apply bytes_eqb_eq in E. rewrite E in Hcmd. discriminate Hcmd.
Qed.

(** A chat packet is nothing but a quiet exchange, a slot request, or a command. *)
Lemma chat_cases now draws conn_id payload g g' :
  handle_chat_to_host now draws conn_id payload g = Some g' →
  g' = g ∨
  ∃ p chat g1, by_conn conn_id (g_players g) = Some p ∧ ChatToHost_decode payload = Ok chat ∧
    from_pid chat = p_pid p ∧ quiet g g1 ∧
    ((is_slot_flag (flag chat) = true ∧ g' = handle_slot_request now p chat g1) ∨
     (is_slot_flag (flag chat) = false ∧ quiet g g') ∨
     (is_slot_flag (flag chat) = false ∧ ∃ cmd,
        parse_command CHAT_TRIGGER (message chat) = Some cmd ∧
        (is_owner (p_name p) (g_cfg g) = true ∨ public_cmd cmd = true) ∧
        run_command now draws (p_pid p) (p_name p) cmd g = Some g')).
Proof.
  unfold handle_chat_to_host. destruct (by_conn conn_id (g_players g)) as [p|] eqn:Hp; [|by intros [= <-]; left].
  destruct (ChatToHost_decode payload) as [chat|] eqn:Hc; [|by intros [= <-]; left].
  destruct (Z.eqb_spec (from_pid chat) (p_pid p)) as [Hpid|]; [|by intros [= <-]; left]. cbn [negb].
  intros (g1 & Ha & H)%bind_Some. pose proof (quiet_answer _ _ _ _ _ Ha) as H1.
  right. exists p, chat, g1. split_and!; try done.
  destruct (is_slot_flag (flag chat)); [left; by apply (inj Some) in H as <-|]. right.
  destruct (parse_command _ _) as [cmd|] eqn:Hcmd; [|left; apply (inj Some) in H as <-]; cycle 1.
  { split; [done|]. etrans; [exact H1|apply quiet_plain_message]. }
  rewrite (answer_command _ _ _ _ _ Hcmd) in Ha. injection Ha as <-.
  destruct (is_owner (p_name p) (g_cfg g)) eqn:Ho; cbn [negb andb] in H; [right; eauto 6|].
  destruct (public_cmd cmd) eqn:Hpub; cbn [negb] in H; [right; eauto 6|].
  left. split; [done|]. etrans; [exact H1|by eapply quiet_chat_to].
Qed.

Lemma dials_slot_request now p chat g : dials (handle_slot_request now p chat g) = dials g.
Proof.
  unfold handle_slot_request. destruct (is_lobby g); [|done]. unfold apply_slot_request.
  destruct (slot_request _ _ _ _ _) as [t []]; [|done].
  etrans; [apply quiet_dials, quiet_slot_info|done].
Qed.

Lemma chat_dials now draws conn_id payload g g' :
  handle_chat_to_host now draws conn_id payload g = Some g' → dials_step (dials g) (dials g').
Proof.
  intros [->|(p & chat & g1 & _ & _ & _ & Hq & [[_ ->]|[[_ Hq']|(_ & cmd & Hcmd & _ & Hrun)]])]%chat_cases.
  - apply dials_step_refl.
  - rewrite dials_slot_request, (quiet_dials _ _ Hq). apply dials_step_refl.
  - rewrite (quiet_dials _ _ Hq'). apply dials_step_refl.
  - eapply run_command_step; [|exact Hrun]. intros ->.
    by eapply parse_command_not_yes.
Qed.

(** No chat message stops or floods the clock: after any packet of any player, in any
    state, the period of the game's clock and the latency, and the number of turns a player
    may be behind, are as they were or within 10 and 500 (milliseconds, turns). *)
Theorem chat_keeps_clock now draws conn_id payload g g' :
  handle_chat_to_host now draws conn_id payload g = Some g' →
  (period (g_tick g') = period (g_tick g) ∧ c_latency (g_cfg g') = c_latency (g_cfg g) ∨
   c_latency (g_cfg g') = period (g_tick g') ∧ 10 * MS <= period (g_tick g') <= 500 * MS) ∧
  (c_sync_limit (g_cfg g') = c_sync_limit (g_cfg g) ∨ 10 <= c_sync_limit (g_cfg g') <= 500).
Proof. intros H%chat_dials. by destruct H as (? & ? & _). Qed.

(** A vote to kick a player is never carried: there is no message that is read as the
    vote it asks for ([!yes] is not a command), and no packet of any player makes the
    votes more than the one of the player who started it. *)
Theorem votekick_never_passes now draws conn_id payload g g' :
  zlen (g_votekick_votes g) <= 1 →
  handle_chat_to_host now draws conn_id payload g = Some g' →
  zlen (g_votekick_votes g') <= 1 ∧ ∀ msg, parse_command CHAT_TRIGGER msg ≠ Some ChatCommand.Yes.
Proof.
  intros Hv H%chat_dials. destruct H as (_ & _ & H). split; [by apply H|]. apply parse_command_not_yes.
Qed.

(** C18: a player who does not own the game, whatever they write, changes nothing but the
    votes and the time of their last question about statistics; nobody is thrown out for it
    (links may be found dead while it is answered).  The game starts only from the lobby and
    with a majority of votes, and ends only when as many players agreed to a draw as are in
    the game. *)
Theorem guest_cannot_rule now draws conn_id payload g g' p chat :
  by_conn conn_id (g_players g) = Some p → is_owner (p_name p) (g_cfg g) = false →
  ChatToHost_decode payload = Ok chat → is_slot_flag (flag chat) = false →
  handle_chat_to_host now draws conn_id payload g = Some g' →
  ruled g' = ruled g ∧ Forall2 left_ok (g_players g) (g_players g') ∧
  (g_phase g' = g_phase g ∨
   g_phase g = Lobby ∧ is_countdown g' = true ∧
   human_count (g_players g) / 2 + 1 <= zlen (g_start_votes g')) ∧
  (g_finished g' = g_finished g ∨
   g_finished g' = true ∧ human_count (g_players g) <= zlen (g_draw_votes g')).
Proof.
  intros Hp Ho Hc Hf H. assert (guest_step g g') as [E L P F]; [|done].
  apply chat_cases in H as [->|(p' & chat' & g1 & Hp' & Hc' & _ & Hq & Hcase)]; [apply guest_refl|].
  rewrite Hp in Hp'. rewrite Hc in Hc'. injection Hp' as <-. injection Hc' as <-.
  destruct Hcase as [[Hs _]|[[_ Hq']|(_ & cmd & Hcmd & [Ho'|Hpub] & Hrun)]]; try congruence.
  - by apply guest_of_quiet.
  - eapply guest_public; [exact Hpub| |exact Hrun].
    intros ->. by eapply parse_command_not_yes.
Qed.
End dials.

(** ** Examples *)

(** A lobby of the players 1 and 2, both called "player"; [owner] owns the game. *)
Definition chat_room (owner : bytes) : GameState :=
  sample_rejoin <| g_phase := Lobby |> <| g_cfg ::= λ c, c <| c_owner := owner |> |>.

(** Player 1 writes [msg] to player 2. *)
Definition says (msg : string) : bytes := [1; 2; 1; 16] ++ str msg ++ [0].

Abbreviation after_chat owner msg :=
  (handle_chat_to_host (W := plain_world) 5 (λ _, 0) 1 (says msg) (chat_room owner)).

(** What an example leaves, as seen by [f]. *)
Lemma seen {A} (og : option GameState) (g : GameState) (f : GameState → A) a :
  og = Some g → option_map f og = Some a → f g = a.
Proof. intros ->. by intros [= <-]. Qed.

Lemma chat_keeps_clock_witness :
  ∃ g', after_chat (str "player") "!latency 1" = Some g' ∧ period (g_tick g') = 10 * MS ∧
        10 <= c_sync_limit (g_cfg g') <= 500.
Proof.
  destruct (after_chat (str "player") "!latency 1") as [g'|] eqn:E; [|vm_compute in E; discriminate E].
  exists g'. split; [reflexivity|]. split.
  { eapply (seen _ _ (λ g, period (g_tick g))); [exact E|]. vm_compute. reflexivity. }
  apply chat_keeps_clock in E as [_ [Hs|Hs]]; [|exact Hs].
  rewrite Hs. vm_compute. split; discriminate.
Defined.

(** A vote against player 2 is started, and player 1 "votes" again. *)
Abbreviation voted :=
  (after_chat (str "slash") "!votekick player" ≫=
   handle_chat_to_host (W := plain_world) 6 (λ _, 0) 2 ([1; 1; 2; 16] ++ str "!yes" ++ [0])).

Lemma votekick_never_passes_witness :
  ∃ g', voted = Some g' ∧ zlen (g_votekick_votes g') <= 1 ∧ g_votekick_target g' = Some 1.
Proof.
  destruct voted as [g'|] eqn:E; [|vm_compute in E; discriminate E].
  exists g'. split; [reflexivity|]. split.
  - apply bind_Some in E as (g & E & E').
    eapply votekick_never_passes; [|exact E'].
    eapply votekick_never_passes; [|exact E]. vm_compute. discriminate.
  - eapply (seen _ _ g_votekick_target); [exact E|]. vm_compute. reflexivity.
Defined.

(** Player 1 cannot rename the game. *)
Lemma guest_cannot_rule_witness :
  ∃ g', after_chat (str "slash") "!pub mine" = Some g' ∧ ruled g' = ruled (chat_room (str "slash")).
Proof.
  destruct (after_chat (str "slash") "!pub mine") as [g'|] eqn:E; [|vm_compute in E; discriminate E].
  exists g'. split; [reflexivity|].
  destruct (ChatToHost_decode (says "!pub mine")) as [chat|] eqn:Hc; [|vm_compute in Hc; discriminate Hc].
  refine (proj1 (guest_cannot_rule _ _ _ _ _ _ (sample_player 1) chat _ _ Hc _ E)).
  - reflexivity.
  - vm_compute. reflexivity.
  - vm_compute in Hc. injection Hc as <-. reflexivity.
Defined.

(** ** A whisper that kills the game *)

Lemma send_chat_to_panics now pid msg g :
  host_pid g ≠ 255 → in_lobby g = true → 254 < zlen msg → is_char_boundary msg 254 = false →
  send_chat_to now pid msg g = None.
Proof.
  intros Hh Hl Hm Hb. unfold send_chat_to. rewrite (proj2 (Z.eqb_neq _ _) Hh), Hl.
  unfold cut_message. rewrite (proj2 (Z.ltb_lt _ _)) by done. unfold str_prefix. by rewrite Hb.
Qed.

(** Whispering is open to everybody, and the text of a whisper is cut at its 254th byte:
    any player of a lobby, with one packet that puts a character there, makes the game
    panic. *)
Theorem whisper_panics `{W : World} now draws conn_id payload g p chat user msg q :
  by_conn conn_id (g_players g) = Some p → ChatToHost_decode payload = Ok chat →
  from_pid chat = p_pid p → is_slot_flag (flag chat) = false →
  parse_command CHAT_TRIGGER (message chat) = Some (ChatCommand.Whisper user msg) →
  by_name_partial user (g_players g) = Ok q →
  host_pid g ≠ 255 → in_lobby g = true →
  254 < zlen (str "[Whisper from " ++ p_name p ++ str "]: " ++ msg) →
  is_char_boundary (str "[Whisper from " ++ p_name p ++ str "]: " ++ msg) 254 = false →
  handle_chat_to_host now draws conn_id payload g = None.
Proof.
  intros Hp Hc Hf Hs Hcmd Hq Hh Hl Hm Hb. unfold handle_chat_to_host.
  rewrite Hp, Hc, (proj2 (Z.eqb_eq _ _) Hf). cbn [negb].
  rewrite (answer_command _ _ _ _ _ Hcmd). cbn [mbind option_bind]. rewrite Hs, Hcmd.
  rewrite andb_false_r. cbn [run_command]. unfold cmd_whisper, find_player. rewrite Hq.
  by rewrite send_chat_to_panics.
Qed.

Definition whisper_text : bytes := str "!w player " ++ concat (replicate 130 [195; 169]).

Lemma whisper_panics_witness :
  handle_chat_to_host (W := plain_world) 5 (λ _, 0) 1 ([1; 2; 1; 16] ++ whisper_text ++ [0])
    (chat_room (str "slash")) = None.
Proof.
  destruct (ChatToHost_decode ([1; 2; 1; 16] ++ whisper_text ++ [0])) as [chat|] eqn:Hc;
    [|vm_compute in Hc; discriminate Hc].
  vm_compute in Hc. injection Hc as <-.
  eapply (whisper_panics (W := plain_world) 5 (λ _, 0) 1 _ (chat_room (str "slash")) (sample_player 1)
    _ (str "player") (concat (replicate 130 [195; 169]))); vm_compute; (reflexivity || discriminate).
Defined.

(** ** What becomes of a plain message *)

Lemma by_pid_send_all now b pids g q :
  NoDup pids →
  by_pid q (g_players (foldl (λ g to, send_to now to b g) g pids)) =
  (if bool_decide (q ∈ pids) then send_to_player now b <$> by_pid q (g_players g)
   else by_pid q (g_players g)).
Proof.
  intros Hd. revert g. induction Hd as [|x pids Hx Hd IH]; intros g; [done|]. cbn [foldl].
  rewrite IH. clear IH.
  change (g_players (send_to now x b g)) with (by_pid_mut x (send_to_player now b) (g_players g)).
  destruct (decide (q = x)) as [->|Hne].
  - rewrite bool_decide_false by done. rewrite (bool_decide_true (x ∈ x :: pids)) by set_solver.
    apply by_pid_mut_same. intros. apply send_to_player_pid.
  - rewrite by_pid_mut_other by (done || intros; apply send_to_player_pid).
    destruct (decide (q ∈ pids)); [rewrite !bool_decide_true by set_solver
                                  |rewrite !bool_decide_false by set_solver]; done.
Qed.

(** May the player's plain messages not be heard? *)
Definition silenced (p : Player) (g : GameState) : bool :=
  ((p_muted p || g_muted_all g) && negb (is_owner (p_name p) (g_cfg g)))
  || (is_lobby g && g_mute_lobby g).

Lemma elem_filter_list {A} (f : A → bool) l x : x ∈ List.filter f l ↔ x ∈ l ∧ f x = true.
Proof. rewrite !list_elem_of_In. apply filter_In. Qed.

(** In the lobby and during the countdown a plain message reaches exactly whom it is
    for: the players it names that are people and in the game, or everybody else when it
    names nobody.  A player who is muted, and is not the owner, is heard by nobody; nor is
    anybody in a muted lobby. *)
Theorem lobby_chat_spec now p chat g :
  in_lobby g = true →
  let g' := plain_message now p chat g in
  let pids := recipients (p_pid p) (to_pids chat) g in
  (∀ q, q ∈ pids ↔
     if zlen (to_pids chat) =? 0 then ∃ r, r ∈ g_players g ∧ p_pid r = q ∧ is_live r = true ∧ q ≠ p_pid p
     else q ∈ to_pids chat ∧ ∃ r, by_pid q (g_players g) = Some r ∧ is_human r = true) ∧
  if silenced p g then g' = g else
  ∀ b, chat_from_host (p_pid p) pids (flag chat) (extra chat) (message chat) = Ok b →
       NoDup pids → ∀ q,
       by_pid q (g_players g') =
       (if bool_decide (q ∈ pids) then send_to_player now b <$> by_pid q (g_players g)
        else by_pid q (g_players g)).
Proof.
  intros Hl g' pids. split.
  - intros q. unfold pids, recipients. destruct (to_pids chat) as [|x l] eqn:Ht.
    + change (zlen [] =? 0) with true. cbv iota. unfold player_pids. rewrite list_elem_of_fmap.
      split.
      * intros (r & -> & [Hin [Hr Hne%negb_true_iff%Z.eqb_neq]%andb_true_iff]%elem_filter_list). eauto.
      * intros (r & Hin & <- & Hr & Hne). exists r. split; [done|]. apply elem_filter_list.
        split; [done|]. by apply andb_true_iff; split; [|apply negb_true_iff, Z.eqb_neq].
    + rewrite (proj2 (Z.eqb_neq _ _)) by (rewrite zlen_cons; pose proof (zlen_nonneg l); lia).
      rewrite elem_filter_list. unfold can_be_told. apply and_iff_compat_l.
      destruct (by_pid q (g_players g)) as [r|]; naive_solver.
  - assert (record_chat p chat g = g) as Hr.
    { unfold record_chat, is_loading, is_playing. unfold in_lobby, is_lobby, is_countdown in Hl.
      by destruct (g_phase g). }
    unfold silenced, g', plain_message. destruct (_ && negb _); [done|]. rewrite Hr.
    destruct (is_lobby g && g_mute_lobby g); [done|]. cbn [orb]. intros b Hb Hd q.
    fold pids. rewrite Hb, Hl. by apply by_pid_send_all.
Qed.

(** Player 1 speaks to player 2, and to a player who is not there. *)
Definition hi_chat : ChatToHost := mkChatToHost [2; 9] 1 16 [] (str "hi") 0.

Lemma lobby_chat_spec_witness :
  by_pid 1 (g_players (plain_message 5 (sample_player 1) hi_chat (chat_room (str "slash"))))
  = by_pid 1 (g_players (chat_room (str "slash"))).
Proof.
  destruct (lobby_chat_spec 5 (sample_player 1) hi_chat (chat_room (str "slash"))) as [_ H].
  - vm_compute. reflexivity.
  - match type of H with if ?c then _ else _ => assert (c = false) as Hs by (vm_compute; reflexivity) end.
    rewrite Hs in H. clear Hs.
    match type of H with ∀ b, ?m = Ok b → _ => destruct m as [b|e] eqn:E; [|vm_compute in E; discriminate E] end.
    specialize (H b eq_refl). clear E.
    match type of H with NoDup ?l → _ =>
      assert (l = [2]) as Hl by (vm_compute; reflexivity); rewrite Hl in H end.
    specialize (H (NoDup_singleton 2) 1). rewrite bool_decide_false in H by set_solver. exact H.
Defined.
