(* ===== verification/SlotRequests.v ===== *)
(** The requests of a player about their own slot (spectre-engine, src/chat.rs:
    apply_slot_request, colour_slot): what is granted, and that nobody else's slot is
    touched. *)
From S2P Require Import Prelude Utf8 Text BytesExt W3gs Conn Slots Players Game Seating Commands Chat.

(** Two slots have the same colour only if it is the observers'. *)
Definition distinct_colours (t : SlotTable) : Prop :=
  ∀ i j a b, t !! i = Some a → t !! j = Some b → colour a = colour b → colour a ≠ MAX_SLOTS → i = j.

(** What a request that is granted does to the table: the slot of the player [p] becomes one
    that has what was asked for ([granted]); or the player moves to a slot nobody
    occupies; or the two slots exchange their colours. *)
Inductive own_change (p : Z) (granted : SlotInfo → Prop) (t : SlotTable) : SlotTable → Prop :=
| own_slot i s s' :
    t !! i = Some s → seats p s → slot_key s' = slot_key s → granted s' →
    (colour s' = colour s ∨ colour s' = MAX_SLOTS ∨ Forall (λ x, colour x ≠ colour s') t) →
    own_change p granted t (<[i := s']> t)
| own_move i j s o s' o' :
    t !! i = Some s → t !! j = Some o → seats p s → slot_status o ≠ Occupied →
    slot_key s' = slot_key o → slot_key o' = slot_key s → granted o' →
    (colour s' = colour s ∧ colour o' = colour o ∨ colour s' = colour o ∧ colour o' = colour s) →
    own_change p granted t (<[j := o']> (<[i := s']> t))
| own_colour i j s o s' o' :
    t !! i = Some s → t !! j = Some o → seats p s → slot_status o ≠ Occupied →
    slot_key s' = slot_key s → slot_key o' = slot_key o → granted s' →
    colour s' = colour o → colour o' = colour s →
    own_change p granted t (<[i := s']> (<[j := o']> t)).

(** ** Every granted request is such a change *)

Lemma lookup_keys (t : SlotTable) i s s' :
  t !! i = Some s → slot_key s' = slot_key s → map slot_key (<[i := s']> t) = map slot_key t.
Proof.
  intros Hi E. change @map with (@fmap list _). rewrite list_fmap_insert, E.
  apply list_insert_id. by rewrite list_lookup_fmap, Hi.
Qed.

Lemma slot_of_colour_Some col t i :
  slot_of_colour col t = Some i → ∃ s, t !! i = Some s ∧ colour s = col.
Proof.
  unfold slot_of_colour. intros ([k s] & Hl & ->)%fmap_Some. cbn [fst].
  apply last_Some_elem_of in Hl. apply list_elem_of_filter in Hl as [Hc Hin].
  apply elem_of_lookup_imap in Hin as (k' & s' & [= -> ->] & Hk). by exists s'.
Qed.

Lemma slot_of_colour_None col t : slot_of_colour col t = None → Forall (λ s, colour s ≠ col) t.
Proof.
  unfold slot_of_colour. rewrite fmap_None, last_None. intros H. apply Forall_lookup.
  intros i s Hi Hc. assert ((i, s) ∈ filter (λ e, colour e.2 = col) (imap pair t)) as Hin.
  { apply list_elem_of_filter. split; [done|]. apply elem_of_lookup_imap. eauto. }
  rewrite H in Hin. by apply elem_of_nil in Hin.
Qed.

Lemma with_slot_eq sid f (t : SlotTable) s :
  t !! Z.to_nat sid = Some s → (with_slot sid f t).1 = <[Z.to_nat sid := f s]> t.
Proof. unfold with_slot. by intros ->. Qed.

Lemma first_open_team_free start tm (t : SlotTable) sid :
  (length t <= 256)%nat → first_open_in_team_from start tm t = Some sid →
  ∃ s, t !! Z.to_nat sid = Some s ∧ free_in_team tm s.
Proof.
  intros Hlen. unfold first_open_in_team_from. destruct (t !! Z.to_nat start) as [s0|]; [|done].
  cbv zeta. set (st := if _ : bool then _ else _).
  destruct (position _ (drop st t)) as [k|] eqn:Hk.
  - pose proof (position_lt _ _ _ Hk) as Hlt. rewrite length_drop in Hlt.
    apply position_Some in Hk as (s & Hl & Hp & _). rewrite lookup_drop in Hl. intros [= <-].
    rewrite wrap_small by (unfold uN; change (2 ^ 8) with 256; lia). rewrite Nat2Z.id.
    exists s. split; [done|by apply free_in_team_b].
  - intros (s & Hl & Hp & _)%position_u8_Some; [|rewrite length_take; lia].
    apply lookup_take_Some in Hl as [Hl _]. exists s. split; [done|by apply free_in_team_b].
Qed.

(** What each kind of request asks of the slot. *)
Definition asked (flag value : Z) (s : SlotInfo) : Prop :=
  if flag =? 17 then team s = value
  else if flag =? 18 then colour s = value
  else if flag =? 19 then race s = Z.lor value 64
  else handicap s = value.

Lemma request_team_change m p sid value t s :
  (length t <= 256)%nat → t !! Z.to_nat sid = Some s → seats p s →
  match request_team m p sid value t with
  | (t', true) => own_change p (λ s, team s = value) t t'
  | (t', false) => t' = t
  end.
Proof.
  intros Hlen Hs Hp. unfold request_team. destruct (has_custom_forces m).
  - destruct (first_open_in_team_from sid value t) as [o|] eqn:Ho; [|done].
    apply first_open_team_free in Ho as (so & Hso & Hst & Htm); [|done].
    assert (slot_status so ≠ Occupied) as Hno by (by rewrite Hst).
    assert (Z.to_nat sid ≠ Z.to_nat o) as Hne.
    { intros E. rewrite E, Hso in Hs. injection Hs as ->. by destruct Hp. }
    rewrite (swap_slots_eq _ _ _ _ _ _ _ Hs Hso Hne).
    apply (own_move _ _ _ _ _ s so); try done; unfold exchanged;
      destruct (has_fixed_player_settings m); try done; [by left|by right].
  - destruct (_ <? _); [done|].
    match goal with |- context [if ?c then (t, false) else _] => destruct c end; [done|].
    rewrite Hs. unfold replace_slot. rewrite (with_slot_eq _ _ _ _ Hs).
    eapply own_slot; [exact Hs|exact Hp|..].
    + destruct (value =? MAX_SLOTS); [done|by destruct (_ =? _)].
    + destruct (value =? MAX_SLOTS); [done|by destruct (_ =? _)].
    + destruct (Z.eqb_spec value MAX_SLOTS); [by right; left|].
      change (colour (s <| team := value |>)) with (colour s).
      destruct (Z.eqb_spec (colour s) MAX_SLOTS); [|by left].
      destruct (unused_colour_spec t) as (Hr & Hu & _). right.
      destruct (decide (unused_colour t = MAX_SLOTS)); [by left|right]. apply Hu. lia.
Qed.

Lemma request_colour_change m p sid value t s :
  (length t <= 256)%nat → t !! Z.to_nat sid = Some s → seats p s →
  match request_colour m sid value t with
  | (t', true) => own_change p (λ s, colour s = value) t t'
  | (t', false) => t' = t
  end.
Proof.
  intros Hlen Hs Hp. unfold request_colour. destruct (has_fixed_player_settings m); [done|].
  destruct (_ <? _); [done|]. rewrite Hs. destruct (_ =? _); [done|].
  unfold colour_slot. rewrite Hs. destruct (_ <=? _); [done|].
  destruct (slot_of_colour value t) as [j|] eqn:Hj.
  - apply slot_of_colour_Some in Hj as (o & Ho & Hc). rewrite Ho.
    destruct (is_status Occupied o) eqn:Hst; [done|].
    assert (slot_status o ≠ Occupied) as Hno by (intros E%is_status_true; congruence).
    pose proof (lookup_lt_Some _ _ _ Ho) as Hlt. unfold set_colour.
    assert (Z.to_nat (wrap 8 (Z.of_nat j)) = j) as Ej.
    { rewrite wrap_small by (unfold uN; change (2 ^ 8) with 256; lia). lia. }
    rewrite (with_slot_eq (wrap 8 (Z.of_nat j)) _ _ o) by (by rewrite Ej). rewrite Ej.
    assert (Z.to_nat sid ≠ j) as Hne by (intros <-; rewrite Ho in Hs; injection Hs as ->; by destruct Hp).
    rewrite (with_slot_eq sid _ _ s) by (by rewrite list_lookup_insert_ne).
    by apply (own_colour _ _ _ _ _ s o).
  - apply slot_of_colour_None in Hj. unfold set_colour. rewrite (with_slot_eq _ _ _ _ Hs).
    apply (own_slot _ _ _ _ s); try done. by right; right.
Qed.

Lemma slot_request_change m p flag value t :
  (length t <= 256)%nat →
  match slot_request m p flag value t with
  | (t', true) => own_change p (asked flag value) t t'
  | (t', false) => t' = t
  end.
Proof.
  intros Hlen. unfold slot_request. destruct (sid_of_pid p t) as [sid|] eqn:Hsid; [|done].
  apply sid_of_pid_Some in Hsid as (s & Hs & Hp & _); [|done]. unfold asked.
  destruct (flag =? 17); [by eapply request_team_change|].
  destruct (flag =? 18); [by eapply request_colour_change|].
  destruct (flag =? 19).
  { unfold request_race. destruct (_ || _); [done|]. rewrite Hs. unfold replace_slot.
    rewrite (with_slot_eq _ _ _ _ Hs). apply (own_slot _ _ _ _ s); try done. by left. }
  destruct (flag =? 20); [|done].
  unfold request_handicap. destruct (_ || _); [done|]. rewrite Hs. unfold replace_slot.
  rewrite (with_slot_eq _ _ _ _ Hs). apply (own_slot _ _ _ _ s); try done. by left.
Qed.

(** ** What such a change preserves *)

Lemma own_change_length p granted t t' : own_change p granted t t' → length t' = length t.
Proof. destruct 1; by rewrite ?length_insert. Qed.

Lemma own_change_others p granted t t' i s :
  own_change p granted t t' → t !! i = Some s → slot_status s = Occupied → pid s ≠ p →
  t' !! i = Some s.
Proof.
  intros H Hi Ho Hne. assert (∀ k x, t !! k = Some x → slot_status x ≠ Occupied ∨ seats p x → k ≠ i) as Hk.
  { intros k x Hx Hcase ->. rewrite Hi in Hx. injection Hx as ->. destruct Hcase as [Hx|[_ Hx]]; done. }
  destruct H as [k x x' Hx Hp _ _ _|k l x y x' y' Hx Hy Hp Hn _ _ _ _|k l x y x' y' Hx Hy Hp Hn _ _ _ _ _];
    rewrite !list_lookup_insert_ne; eauto.
Qed.

Lemma own_change_granted p granted t t' :
  own_change p granted t t' → ∃ i s, t' !! i = Some s ∧ seats p s ∧ granted s.
Proof.
  destruct 1 as [k x x' Hx Hp [= E1 E2] Hg _|k l x y x' y' Hx Hy Hp Hn _ [= E1 E2] Hg _
                |k l x y x' y' Hx Hy Hp Hn [= E1 E2] _ Hg _ _]; unfold seats in *.
  - exists k, x'. split; [by eapply list_lookup_insert_eq, lookup_lt_Some|].
    rewrite E1, E2. by split.
  - exists l, y'. split; [apply list_lookup_insert_eq; rewrite length_insert; by eapply lookup_lt_Some|].
    rewrite E1, E2. by split.
  - exists k, x'. split; [apply list_lookup_insert_eq; rewrite length_insert; by eapply lookup_lt_Some|].
    rewrite E1, E2. by split.
Qed.

Lemma own_change_wf p granted t t' : own_change p granted t t' → slots_wf t → slots_wf t'.
Proof.
  intros H Hwf.
  destruct H as [k x x' Hx Hp Ek _ _|k l x y x' y' Hx Hy Hp Hn Ex Ey _ _|k l x y x' y' Hx Hy Hp Hn Ex Ey _ _ _].
  - eapply slots_wf_key; [by eapply lookup_keys|done].
  - assert (k ≠ l) as Hkl by (intros ->; rewrite Hy in Hx; injection Hx as ->; by destruct Hp).
    apply (slots_wf_key (<[l := x]> (<[k := y]> t))).
    + change @map with (@fmap list _). by rewrite !list_fmap_insert, Ex, Ey.
    + pose proof (swap_slots_wf (Z.of_nat k) (Z.of_nat l) false false t Hwf) as H.
      rewrite (swap_slots_eq _ _ _ _ _ x y) in H by (rewrite ?Nat2Z.id; done).
      by rewrite !Nat2Z.id in H.
  - assert (k ≠ l) as Hkl by (intros ->; rewrite Hy in Hx; injection Hx as ->; by destruct Hp).
    eapply slots_wf_key; [|done]. erewrite lookup_keys; [by eapply lookup_keys| |exact Ex].
    by rewrite list_lookup_insert_ne.
Qed.

Lemma insert_Some_inv {A} (l : list A) i x j y :
  <[i := x]> l !! j = Some y → (i = j ∧ y = x) ∨ (i ≠ j ∧ l !! j = Some y).
Proof.
  destruct (decide (i = j)) as [->|Hne].
  - intros H. left. split; [done|]. pose proof (lookup_lt_Some _ _ _ H) as Hl.
    rewrite length_insert in Hl. rewrite list_lookup_insert_eq in H by done. congruence.
  - rewrite list_lookup_insert_ne by done. by right.
Qed.

Lemma distinct_exchange t k l x y x' y' :
  t !! k = Some x → t !! l = Some y → k ≠ l →
  (colour x' = colour x ∧ colour y' = colour y ∨ colour x' = colour y ∧ colour y' = colour x) →
  distinct_colours t → distinct_colours (<[l := y']> (<[k := x']> t)).
Proof.
  intros Hx Hy Hkl Hc Hd i j a b Ha Hb E Hm.
  assert (∀ i a, <[l := y']> (<[k := x']> t) !! i = Some a →
    ∃ i0 a0, t !! i0 = Some a0 ∧ colour a = colour a0 ∧
      ((i = i0 ∧ (i ≠ k ∧ i ≠ l ∨ colour x' = colour x)) ∨
       (colour x' = colour y ∧ (i = k ∧ i0 = l ∨ i = l ∧ i0 = k)))) as Hinv.
  { clear -Hx Hy Hc Hkl. intros i a [[<- ->]|[Hl [[<- ->]|[Hk H]]%insert_Some_inv]]%insert_Some_inv.
    - destruct Hc as [[E1 E2]|[E1 E2]]; [exists l, y|exists k, x]; eauto 9.
    - destruct Hc as [[E1 E2]|[E1 E2]]; [exists k, x|exists l, y]; eauto 9.
    - exists i, a. eauto 9. }
  apply Hinv in Ha as (i0 & a0 & Ha & Ea & Hi). apply Hinv in Hb as (j0 & b0 & Hb & Eb & Hj).
  assert (i0 = j0) as <- by (eapply Hd; [exact Ha|exact Hb|congruence..]).
  rewrite Ha in Hb. injection Hb as <-.
  assert (∀ c, colour x' = colour y → colour x' = colour x → c = colour x → c ≠ MAX_SLOTS → False) as Hxy.
  { intros c E1 E2 E3 Hc'. apply Hkl. eapply Hd; [exact Hx|exact Hy|congruence..]. }
  destruct Hi as [[-> Hi]|[E1 Hi]], Hj as [[-> Hj]|[E2 Hj]]; try done.
  - destruct Hi as [[Hi1 Hi2]|Hi]; [intuition congruence|]. exfalso.
    destruct Hj as [[-> ->]|[-> ->]]; [rewrite Hy in Ha|rewrite Hx in Ha]; injection Ha as <-;
      eapply (Hxy (colour a)); congruence.
  - destruct Hj as [[Hi1 Hi2]|Hj]; [intuition congruence|]. exfalso.
    destruct Hi as [[-> ->]|[-> ->]]; [rewrite Hy in Ha|rewrite Hx in Ha]; injection Ha as <-;
      eapply (Hxy (colour a)); congruence.
  - intuition congruence.
Qed.

Lemma own_change_colours p granted t t' :
  own_change p granted t t' → distinct_colours t → distinct_colours t'.
Proof.
  intros H Hd.
  destruct H as [k x x' Hx Hp _ _ Hc|k l x y x' y' Hx Hy Hp Hn _ _ _ Hc|k l x y x' y' Hx Hy Hp Hn _ _ _ E1 E2].
  - intros i j a b [[<- ->]|[Hi Ha]]%insert_Some_inv [[<- ->]|[Hj Hb]]%insert_Some_inv E Hm; [done|..].
    + destruct Hc as [Hc|[Hc|Hc]]; [rewrite Hc in E, Hm; by eapply Hd|done|].
      eapply Forall_lookup_1 in Hc; [|exact Hb]. by rewrite E in Hc.
    + destruct Hc as [Hc|[Hc|Hc]]; [rewrite Hc in E; by eapply Hd|congruence|].
      eapply Forall_lookup_1 in Hc; [|exact Ha]. by rewrite E in Hc.
    + by eapply Hd.
  - eapply distinct_exchange; try done. intros ->. rewrite Hy in Hx. injection Hx as ->. by destruct Hp.
  - eapply distinct_exchange; try done; [|by right].
    intros ->. rewrite Hy in Hx. injection Hx as ->. by destruct Hp.
Qed.

(** C22: a player's request for a team, a colour, a race or a handicap is granted or changes
    nothing.  Granted, the player still sits in exactly one slot, which is now as they
    asked; the slots of everybody else are as they were; and two slots never come to share
    a colour, but for the observers'. *)
Theorem slot_request_own m p flag value t :
  (length t <= 256)%nat → p ≠ 0 → slots_wf t →
  match slot_request m p flag value t with
  | (t', true) =>
      length t' = length t ∧ slots_wf t' ∧
      (∃ i s, t' !! i = Some s ∧ seats p s ∧ asked flag value s ∧
              ∀ j s', t' !! j = Some s' → seats p s' → j = i) ∧
      (∀ i s, t !! i = Some s → slot_status s = Occupied → pid s ≠ p → t' !! i = Some s) ∧
      (distinct_colours t → distinct_colours t')
  | (t', false) => t' = t
  end.
Proof.
  intros Hlen Hp Hwf. pose proof (slot_request_change m p flag value t Hlen) as H.
  destruct (slot_request m p flag value t) as [t' []]; [|done].
  pose proof (own_change_wf _ _ _ _ H Hwf) as Hwf'.
  split; [by eapply own_change_length|]. split; [done|]. split; [|split].
  - destruct (own_change_granted _ _ _ _ H) as (i & s & Hi & Hs & Ha). exists i, s.
    split_and!; try done. intros j s' Hj Hs'. by eapply Hwf'.
  - intros i s. by eapply own_change_others.
  - by eapply own_change_colours.
Qed.

(** Player 2 of a lobby of four slots asks for colour 3, which an open slot has. *)
Definition sample_seats : SlotTable := (occupy_slot 1 2 (occupy_slot 0 1 (new_table 4)).1).1.

Lemma slot_request_own_witness :
  ∃ s, (slot_request (mkMapInfo [] 0 0 0 [] 4 1 1 1 0 0 None 0 0 [] [] [] 0 false [] 24) 2 18 3 sample_seats).1 !! 1%nat = Some s
       ∧ colour s = 3 ∧
       (slot_request (mkMapInfo [] 0 0 0 [] 4 1 1 1 0 0 None 0 0 [] [] [] 0 false [] 24) 2 18 3 sample_seats).1 !! 0%nat
         = sample_seats !! 0%nat.
Proof.
  assert (slots_wf sample_seats) as Hwf.
  { repeat (eapply slot_step_wf; [apply step_occupy_slot; reflexivity|]). apply new_table_wf. }
  pose proof (slot_request_own (mkMapInfo [] 0 0 0 [] 4 1 1 1 0 0 None 0 0 [] [] [] 0 false [] 24) 2 18 3 sample_seats
    ltac:(vm_compute; lia) ltac:(done) Hwf) as H.
  destruct (slot_request _ 2 18 3 sample_seats) as [t' ok] eqn:E. vm_compute in E. injection E as <- <-.
  destruct H as (_ & _ & (i & s & Hi & Hs & Ha & _) & Ho & _).
  eexists. split; [reflexivity|]. split; [reflexivity|]. by eapply Ho.
Defined.
