(* ===== verification/ChatSeats.v ===== *)
(** The chat commands and the seats: which commands keep every player in their slot. *)
From S2P Require Import Prelude Utf8 Text Store BytesExt Frame W3gs Gps Conn Slots History Players.
From S2P Require Import ReplayBody StatsDota Relay Tick Game CatchUp Desync Turns Lag Phases MapXfer.
From S2P Require Import Lobby Seating Reconnect Actor Commands Chat ChatRules SlotRequests.

Lemma same_drop_request g : same_seats g (handle_drop_request g).
Proof. unfold handle_drop_request. destruct (negb _); [done|]. apply same_foldl. intros. apply same_kick. Qed.

Lemma quiet_same g g' : quiet g g' → same_seats g g'.
Proof.
  intros H. split.
  - apply (quiet_field (λ g, map seat_key (g_players g))); [|done]. intros g0.
    rewrite settings_players. by apply map_key_map.
  - by rewrite (quiet_field g_slots _ _ ltac:(done) H).
  - by apply (quiet_field g_virtual_host_pid).
  - by rewrite (quiet_phase _ _ H).
Qed.

(** The commands that move the game to another stage. *)
Lemma same_start_countdown now g : same_seats g (start_countdown now g).
Proof.
  unfold start_countdown, is_lobby. destruct (g_phase g) eqn:Hph; try done.
  split; [done..|]. rewrite Hph. apply rtc_once, stage_start.
Qed.

Lemma same_abort g : is_countdown g = true → same_seats g (g <| g_phase := Lobby |>).
Proof.
  unfold is_countdown. intros Hc. split; [done..|]. destruct (g_phase g); try done.
  apply rtc_once, stage_abort.
Qed.

Lemma same_cmd_abort now g g' : cmd_abort now g = Some g' → same_seats g g'.
Proof.
  unfold cmd_abort. destruct (is_countdown g) eqn:Hc; [|by intros [= <-]].
  intros H%quiet_chat_all%quiet_same. etrans; [by apply same_abort|exact H].
Qed.

(** The same players in slots that seat the same. *)
Lemma seating_table t g g' :
  seating_wf g → slots_wf t → length t = length (g_slots g) →
  (∀ q, q ≠ 0 → (∃ s, s ∈ t ∧ seats q s) ↔ (∃ s, s ∈ g_slots g ∧ seats q s)) →
  same_seats (g <| g_slots := t |>) g' → seating_wf g'.
Proof. intros Hwf Ht Hl Hq Hs. eapply seating_wf_same; [exact Hs|]. by apply seating_slots. Qed.

(** *** All slots *)

Lemma seats_map f (t : SlotTable) q :
  (∀ s, seats q (f s) ↔ seats q s) → (∃ s, s ∈ map f t ∧ seats q s) ↔ (∃ s, s ∈ t ∧ seats q s).
Proof.
  intros Hf. split.
  - intros (s & (s0 & -> & H0)%list_elem_of_fmap & Hs). exists s0. split; [done|by apply Hf].
  - intros (s & Hin & Hs). exists (f s). split; [by apply list_elem_of_fmap_2|by apply Hf].
Qed.

Lemma seats_reopened from to q s :
  from ≠ Occupied → to ≠ Occupied →
  seats q (if is_status from s then s <| slot_status := to |> <| pid := 0 |> else s) ↔ seats q s.
Proof.
  intros Hf Ht. destruct (is_status from s) eqn:E; [|done]. apply is_status_true in E.
  split; intros [Ho _]; [by destruct Ht|]. by destruct Hf; rewrite <- E.
Qed.

(** *** The shuffle *)

Lemma shuffle_spec draws (t : SlotTable) :
  slots_wf t → slots_wf (shuffle_slots draws t) ∧ length (shuffle_slots draws t) = length t ∧
  ∀ q, (∃ s, s ∈ shuffle_slots draws t ∧ seats q s) ↔ (∃ s, s ∈ t ∧ seats q s).
Proof.
  intros Hwf. unfold shuffle_slots. generalize (seq 0 (length t)). intros idx.
  assert (∀ t', slots_wf t' → length t' = length t →
    (∀ q, (∃ s, s ∈ t' ∧ seats q s) ↔ (∃ s, s ∈ t ∧ seats q s)) →
    let t2 := foldl (λ t' i, (swap (wrap 8 (Z.of_nat i)) (wrap 8 (draws i mod zlen t)) t').1) t' idx in
    slots_wf t2 ∧ length t2 = length t ∧ ∀ q, (∃ s, s ∈ t2 ∧ seats q s) ↔ (∃ s, s ∈ t ∧ seats q s)) as H;
    [|by apply H].
  induction idx as [|i idx IH]; intros t' Hwf' Hl Hq; [done|]. cbn [foldl]. apply IH.
  - by apply swap_slots_wf.
  - unfold swap. by rewrite (slot_step_length t') by constructor.
  - intros q. unfold swap. rewrite seats_swap. apply Hq.
Qed.

(** *** Computers *)

Lemma add_computer_seats slot tm col rc ct hcap (t : SlotTable) q :
  slots_wf t → q ≠ 0 →
  (∃ s, s ∈ (add_computer slot tm col rc ct hcap t).1 ∧ seats q s) ↔ (∃ s, s ∈ t ∧ seats q s).
Proof.
  intros [Hc _] Hq. unfold add_computer. destruct (t !! Z.to_nat slot) as [s|] eqn:Hs; [|done].
  destruct (is_status Occupied s) eqn:Ho; [done|]. cbn [fst].
  assert (slot_status s ≠ Occupied) as Hno by (intros E%is_status_true; congruence).
  assert (pid s = 0) as Hp by (eapply Forall_lookup_1 in Hc; [|exact Hs]; by apply Hc).
  setoid_rewrite list_elem_of_lookup. split; intros (x & (i & Hi) & Hx).
  - apply insert_Some_inv in Hi as [[<- ->]|[_ Hi]]; [|eauto]. destruct Hx as [_ Hx].
    change (pid s = q) in Hx. congruence.
  - exists x. split; [|done]. exists i. rewrite list_lookup_insert_ne; [done|].
    intros <-. rewrite Hs in Hi. injection Hi as <-. by destruct Hx.
Qed.

Lemma seating_comp now slot tm col rc ct hcap g :
  seating_wf g → seating_wf (cmd_comp now slot tm col rc ct hcap g).
Proof.
  intros Hwf. apply seating_slot_command; [done|..].
  - apply (slot_step_wf (g_slots g)); [constructor|apply Hwf].
  - apply (slot_step_length (g_slots g)). constructor.
  - intros q Hq. apply add_computer_seats; [apply Hwf|done].
Qed.

Lemma same_comp_set now slot f g :
  (∀ s, slot_key (f s) = slot_key s) → same_seats g (cmd_comp_set now slot f g).
Proof.
  intros Hf. unfold cmd_comp_set. destruct (g_slots g !! Z.to_nat slot) as [s|] eqn:Hs; [|done].
  destruct (_ =? _); [|done]. etrans; [|apply same_slot_info]. split; [done| |done..].
  change (map slot_key (<[Z.to_nat slot := f s]> (g_slots g)) = map slot_key (g_slots g)).
  by eapply lookup_keys.
Qed.

(** *** A player's requests *)

Lemma seats_keys (t t' : SlotTable) q :
  map slot_key t' = map slot_key t → (∃ s, s ∈ t' ∧ seats q s) ↔ (∃ s, s ∈ t ∧ seats q s).
Proof.
  assert (∀ t t' : SlotTable, map slot_key t' = map slot_key t →
    (∃ s, s ∈ t' ∧ seats q s) → ∃ s, s ∈ t ∧ seats q s) as H; [|intros E; split; by apply H].
  clear t t'. intros t t' E (s & Hin & Ho & Hp).
  destruct (map_eq_elem _ _ _ _ E Hin) as (s' & Hs' & [= E1 E2]).
  exists s'. split; [done|]. split; congruence.
Qed.

Lemma own_change_seats p granted t t' q :
  own_change p granted t t' → (∃ s, s ∈ t' ∧ seats q s) ↔ (∃ s, s ∈ t ∧ seats q s).
Proof.
  destruct 1 as [k x x' Hx Hp Ek _ _|k l x y x' y' Hx Hy Hp Hn Ex Ey _ _|k l x y x' y' Hx Hy Hp Hn Ex Ey _ _ _].
  - apply seats_keys. by eapply lookup_keys.
  - assert (k ≠ l) as Hkl by (intros ->; rewrite Hy in Hx; injection Hx as ->; by destruct Hp).
    rewrite <- (seats_swap (Z.of_nat k) (Z.of_nat l) false false t q).
    rewrite (swap_slots_eq _ _ _ _ _ x y) by (rewrite ?Nat2Z.id; done). rewrite !Nat2Z.id.
    apply seats_keys. change @map with (@fmap list _). by rewrite !list_fmap_insert, Ex, Ey.
  - assert (k ≠ l) as Hkl by (intros ->; rewrite Hy in Hx; injection Hx as ->; by destruct Hp).
    apply seats_keys. erewrite lookup_keys; [by eapply lookup_keys| |exact Ex].
    by rewrite list_lookup_insert_ne.
Qed.

Lemma seating_slot_request now p chat g :
  seating_wf g → seating_wf (handle_slot_request now p chat g).
Proof.
  intros Hwf. unfold handle_slot_request. destruct (is_lobby g); [|done]. unfold apply_slot_request.
  pose proof (slot_request_change (c_map (g_cfg g)) (p_pid p) (flag chat) (byte chat) (g_slots g)
    (sw_len _ Hwf)) as H.
  destruct (slot_request _ _ _ _ _) as [t []].
  - eapply (seating_table t g); [done|by eapply own_change_wf, Hwf|by eapply own_change_length|
      |apply same_slot_info]. intros q _. by eapply own_change_seats.
  - subst t. eapply seating_wf_same; [|exact Hwf]. done.
Qed.

(** ** The commands *)

(** The commands that break up players and seats: [!open] and [!close] of a slot that a player is
    in, and the fake player's toggle when the virtual host has the pid that was the fake player's. *)
Definition cmd_unseats (cmd : ChatCommand.t) (g : GameState) : bool :=
  match cmd with
  | ChatCommand.Open sid | ChatCommand.Close sid => seats_player sid g
  | ChatCommand.FakePlayer => fake_is_host g
  | _ => false
  end.

Ltac same_step :=
  repeat match goal with Hq : quiet _ _ |- _ => apply quiet_same in Hq end;
  repeat match goal with
  | |- same_seats _ (match ?o with _ => _ end) => destruct o
  | |- same_seats _ (kick_player _ _ _ _) => etrans; [|apply same_kick]
  | |- same_seats _ (send_all_slot_info _ _) => etrans; [|apply same_slot_info]
  | |- same_seats _ (send_to _ _ _ _) => etrans; [|apply same_send_to]
  | |- same_seats _ (start_countdown _ ?x) => etrans; [|apply same_start_countdown]
  | |- same_seats _ (report_status ?x) => trans x; [|unfold report_status; by destruct (c_event_tx (g_cfg x))]
  | Hq : same_seats ?x ?y |- same_seats _ ?y => etrans; [|exact Hq]; clear Hq
  | |- same_seats _ _ => reflexivity
  | |- same_seats _ _ => by apply same_update
  | |- same_seats _ (?x <| g_votekick_target := None |> <| g_votekick_votes := [] |>) =>
    trans x; [|split; reflexivity]
  | |- same_seats _ (handle_drop_request _) => apply same_drop_request
  | Hq : same_seats _ ?y |- same_seats _ _ => trans y; [|split; reflexivity]
  end.

Section commands.
Context `{W : World}.

(** The other commands leave the seats alone. *)
Definition moves_seats (cmd : ChatCommand.t) : bool :=
  match cmd with
  | ChatCommand.Open _ | ChatCommand.Close _ | ChatCommand.OpenAll | ChatCommand.CloseAll
  | ChatCommand.Swap _ _ | ChatCommand.ShufflePlayers | ChatCommand.Comp _ _ _ _ _ _
  | ChatCommand.FakePlayer => true
  | _ => false
  end.

Lemma same_command now draws pid caller cmd g g' :
  moves_seats cmd = false → run_command now draws pid caller cmd g = Some g' → same_seats g g'.
Proof.
  destruct cmd; try done; cbn [run_command]; intros _ H; try (by eapply same_cmd_abort);
    autounfold with cmds in H; try (inv_cmd; same_step; done).
  - apply bind_Some in H as (g1 & Hq%quiet_chat_all%quiet_same & [= <-]).
    etrans; [exact Hq|by apply same_over].
  - injection H as <-. by apply same_comp_set.
  - injection H as <-. by apply same_comp_set.
  - injection H as <-. by apply same_comp_set.
  - injection H as <-. by apply same_comp_set.
Qed.

Lemma seating_command now draws pid caller cmd g g' :
  cmd_unseats cmd g = false → run_command now draws pid caller cmd g = Some g' → seating_wf g → seating_wf g'.
Proof.
  intros Hsafe H Hwf. destruct (moves_seats cmd) eqn:Hm; cycle 1.
  { eapply seating_wf_same; [by eapply same_command|exact Hwf]. }
  destruct cmd; try discriminate Hm; cbn [run_command cmd_unseats] in *; autounfold with cmds in H.
  - injection H as <-. by apply (seating_open now).
  - injection H as <-. by apply (seating_close now).
  - apply quiet_chat_all, quiet_same in H. eapply (seating_table (open_all (g_slots g)) g); [done|..].
    + eapply slot_step_wf; [apply step_open_all|apply Hwf].
    + apply length_map.
    + intros q _. apply seats_map. intros s. by apply seats_reopened.
    + etrans; [|exact H]. apply same_slot_info.
  - apply quiet_chat_all, quiet_same in H. eapply (seating_table (close_all (g_slots g)) g); [done|..].
    + eapply slot_step_wf; [apply step_close_all|apply Hwf].
    + apply length_map.
    + intros q _. apply seats_map. intros s. by apply seats_reopened.
    + etrans; [|exact H]. apply same_slot_info.
  - injection H as <-. by apply (seating_swap now).
  - destruct (is_lobby g); [|by injection H as <-]. apply quiet_chat_all, quiet_same in H.
    destruct (shuffle_spec draws (g_slots g) (sw_slots _ Hwf)) as (Hw & Hl & Hq).
    eapply (seating_table (shuffle_slots draws (g_slots g)) g); [done..| |].
    + intros q _. apply Hq.
    + etrans; [|exact H]. apply same_slot_info.
  - injection H as <-. by apply (seating_comp now).
  - pose proof (seating_toggle now g Hsafe Hwf) as Ht.
    destruct (toggle_fake_player now g) as [g1 [msg|]]; [|by injection H as <-].
    apply quiet_chat_to, quiet_same in H. eapply seating_wf_same; [exact H|done].
Qed.

(** A packet of chat with such a command. *)
Definition chat_unseats (payload : bytes) (g : GameState) : bool :=
  match ChatToHost_decode payload with
  | Ok chat => match parse_command CHAT_TRIGGER (message chat) with Some cmd => cmd_unseats cmd g | None => false end
  | Err _ => false
  end.

Lemma seating_chat now draws conn_id payload g g' :
  chat_unseats payload g = false → handle_chat_to_host now draws conn_id payload g = Some g' →
  seating_wf g → seating_wf g'.
Proof.
  intros Hsafe H Hwf. apply chat_cases in H as
    [->|(p & chat & g1 & _ & Hc & _ & Hq & [[_ ->]|[[_ Hq']|(_ & cmd & Hcmd & _ & Hrun)]])]; [done|..].
  - apply seating_slot_request. eapply seating_wf_same; [by apply quiet_same|done].
  - eapply seating_wf_same; [by apply quiet_same|done].
  - eapply seating_command; [|exact Hrun|done]. unfold chat_unseats in Hsafe. by rewrite Hc, Hcmd in Hsafe.
Qed.
End commands.
