(* ===== verification/Invariant.v ===== *)
(** The seating invariant over the whole life of a game: whatever the actor handles, in any
    order. *)
From S2P Require Import Prelude Utf8 Text BytesExt Frame W3gs Gps Conn Slots History Players.
From S2P Require Import ReplayBody StatsDota Relay Tick Game CatchUp Desync Turns Lag Phases MapXfer.
From S2P Require Import Lobby Seating Reconnect Actor Commands Chat Dispatch ChatRules SlotRequests.
From S2P Require Import ChatSeats.

(** ** Handlers that move nobody *)

Lemma same_update_conn conn_id f g :
  (∀ p, seat_key (f p) = seat_key p) → same_seats g (g <| g_players ::= by_conn_mut conn_id f |>).
Proof. apply same_update. Qed.

Lemma same_kicks (l : list Z) reason code g :
  same_seats g (foldl (λ g pid, kick_player pid reason code g) g l).
Proof. apply same_foldl. intros. apply same_kick. Qed.

Lemma same_handle_action conn_id payload g : same_seats g (handle_action conn_id payload g).
Proof.
  unfold handle_action. destruct (by_conn _ _) as [p|]; [|done]. destruct (negb _); [apply same_kick|].
  destruct (OutgoingAction_decode payload); [|done]. destruct (_ <? _); [apply same_kick|done].
Qed.

Lemma pop_checksums_keys pids t : map seat_key (pop_checksums pids t) = map seat_key t.
Proof.
  unfold pop_checksums. revert t. induction pids as [|pid pids IH]; intros t; [done|]. cbn.
  rewrite IH. by apply update_first_map.
Qed.

Lemma same_add_conn conn_id link ip g : same_seats g (add_conn conn_id link ip g).
Proof. done. Qed.

Section seats.
Context `{W : World} (crc32 : bytes → Z) (hash_order : list (Z * list Z) → list (Z * list Z))
        (fmt_secs : Z → bytes).

Lemma same_desync_turn now g g' c :
  desync_turn hash_order now g = Some (g', c) → same_seats g g'.
Proof.
  unfold desync_turn. destruct (if _ : bool then _ else _) as [target|]; cycle 1.
  { intros [= <- _]. destruct (_ <=? _)%nat; [|done]. apply same_map.
    intros p. by destruct (desync_active p). }
  destruct (in_flight _ _ _); [by intros [= <- _]|].
  destruct (_ || _).
  { intros [= <- _]. split; [|done..]. apply pop_checksums_keys. }
  intros (g1 & H1 & [= <- _])%bind_Some. etrans; [by eapply same_chat_all|].
  match goal with |- context [foldl ?f g1 ?l] => trans (foldl f g1 l); [apply same_kicks|] end.
  split; [|done..]. apply pop_checksums_keys.
Qed.

Lemma same_desync_loop fuel now g g' :
  desync_loop hash_order fuel now g = Some g' → same_seats g g'.
Proof.
  revert g. induction fuel as [|fuel IH]; intros g; cbn [desync_loop];
    intros ([g1 []] & H1 & H)%bind_Some; try done; try (injection H as <-);
    apply same_desync_turn in H1; [done| |done]. etrans; [exact H1|by apply IH].
Qed.

Lemma same_keepalive now conn_id payload g g' :
  handle_keepalive hash_order now conn_id payload g = Some g' → same_seats g g'.
Proof.
  unfold handle_keepalive. destruct (negb _); [by intros [= <-]|].
  destruct (decode_keepalive payload) as [cs|]; [|by intros [= <-]]. intros H.
  etrans; [|by eapply same_desync_loop]. apply same_update_conn. intros p. unfold ack_turn.
  by repeat case_match.
Qed.

Lemma same_check_lag now g : same_seats g (check_lag crc32 now g).1.
Proof.
  assert (∀ l g0, same_seats g0 (send_stop_lags now l g0)) as Hstop
    by (intros; apply same_foldl; intros; apply same_broadcast).
  unfold check_lag. cbn [fst].
  match goal with |- context [raise_lag_screen now ?w ?n ?x] =>
    assert (same_seats g (raise_lag_screen now w n x)) as H0 end.
  { etrans; [apply (same_map (update_lag now (g_sync_counter g) (c_sync_limit (g_cfg g))))|].
    { intros p. unfold update_lag. destruct (negb _); [done|]. by repeat case_match. }
    etrans; [apply Hstop|]. unfold raise_lag_screen. destruct (map _ _) as [|e l]; [done|].
    etrans; [apply (same_broadcast_ok now (start_lag (e :: l)))|]. by destruct (g_lagging g). }
  etrans; [exact H0|]. destruct (_ && _); [|done]. unfold reset_lag_screen.
  destruct (laggers now _) as [|e l]; [done|].
  match goal with |- same_seats ?a (?b <| g_last_lag_screen_reset := _ |>) => trans b; [|done] end.
  etrans; [|apply same_broadcast_ok]. etrans; [|apply same_broadcast_ok]. etrans; [|apply Hstop]. done.
Qed.

Lemma same_drop_lagging now max_lag g : same_seats g (drop_lagging_players now max_lag g).
Proof. apply same_kicks. Qed.

Lemma same_send_batch now packet record g : same_seats g (send_batch now packet record g).
Proof. destruct packet; [|done]. by etrans; [|apply same_broadcast]. Qed.

Lemma same_queue_action now l a : same_seats (tl_game l) (tl_game (queue_action crc32 now l a)).
Proof.
  unfold queue_action. assert (same_seats (tl_game l) (tl_game (observe_action (ab_data a) l))) as Ho.
  { unfold observe_action. trans (tl_game (observe_dota (ab_data a) l)).
    - unfold observe_dota. destruct (g_dota (tl_game l)) as [d|]; [|done].
      destruct (process_action _ _) as [d' over]. by destruct (_ && _).
    - unfold observe_mmd. by destruct (g_w3mmd _). }
  destruct (_ && _); [|exact Ho]. etrans; [exact Ho|apply same_send_batch].
Qed.

Lemma same_all_actions now skipped g g' :
  send_all_actions crc32 now skipped g = Some g' → same_seats g g'.
Proof.
  unfold send_all_actions.
  match goal with |- context [foldl (queue_action crc32 now) ?l ?q] =>
    assert (same_seats g (tl_game (foldl (queue_action crc32 now) l q))) as H0 end.
  { match goal with |- same_seats g (tl_game (foldl _ ?l ?q)) =>
      assert (same_seats g (tl_game l)) as H by done; revert H; generalize l; generalize q end.
    intros q. induction q as [|a q IH]; intros l H; [done|]. cbn. apply IH.
    etrans; [exact H|apply same_queue_action]. }
  intros (g1 & H1 & [= <-])%bind_Some. etrans; [|apply same_send_batch]. etrans; [exact H0|].
  unfold announce_winner in H1. destruct (tl_winner _); [|by injection H1 as <-].
  apply bind_Some in H1 as (g2 & H2 & [= <-]). etrans; [by eapply same_chat_all|done].
Qed.

Lemma same_pump_rejoin now g : same_seats g (pump_rejoin_catchup now g).
Proof.
  apply same_map. intros p. unfold pump_player. destruct (p_catchup_cursor p) as [c|]; [|done].
  destruct (has_left p); [done|]. destruct (c <? _); [done|].
  assert (∀ l cur q, seat_key (pump_packets now l cur q).1 = seat_key q) as H.
  { intros l. induction l as [|b l IH]; intros cur q; [done|]. cbn [pump_packets].
    destruct (try_send (p_link q) b) as [link [[]|[|]]]; [by rewrite IH|done|by destruct (_ && _)]. }
  specialize (H (snapshot_from_seq c (g_full_history g)) c p).
  destruct (pump_packets _ _ _ _) as [p' cur]. cbn [fst] in H.
  destruct (is_some _); [|done]. by destruct (_ <=? _).
Qed.

Lemma same_pump_downloads now g g' : pump_downloads crc32 now g = Some g' → same_seats g g'.
Proof.
  unfold pump_downloads. destruct (negb _); [by intros [= <-]|].
  destruct (m_data _) as [data|]; [|by intros [= <-]].
  intros ([ds pu] & _ & [= <-])%bind_Some. etrans; [|apply same_foldl; intros; apply same_send_to].
  match goal with |- same_seats g (?x <| g_downloads := _ |>) => trans x; [|done] end.
  etrans; [|apply same_foldl; intros; unfold record_finished; by destruct (by_pid _ _)].
  by destruct (SEC <=? _).
Qed.

Lemma same_notices now ms g g' : send_notices now ms g = Some g' → same_seats g g'.
Proof.
  unfold send_notices. revert g. induction ms as [|m ms IH]; intros g; cbn; [by intros [= <-]|].
  destruct (send_chat_all now m g) as [g1|] eqn:E.
  - intros H. etrans; [by eapply same_chat_all|by apply IH].
  - intros H. exfalso. clear -H. induction ms as [|m' ms IH]; [done|by apply IH].
Qed.

Lemma same_reap_gproxy now grace g g' :
  reap_gproxy_timeouts now grace g = Some g' → same_seats g g'.
Proof.
  unfold reap_gproxy_timeouts. intros H. etrans; [|by eapply same_notices]. apply same_map.
  intros p. unfold reap_gproxy. by repeat case_match.
Qed.

Lemma same_leave_all sel reason g : same_seats g (leave_all sel reason g).
Proof. apply same_map. intros p. by destruct (_ && _). Qed.

(** ** The tick *)

Lemma same_playing_tick now skipped g g' b :
  playing_tick crc32 hash_order now skipped g = Some (g', b) → same_seats g g'.
Proof.
  unfold playing_tick.
  match goal with |- context [check_desync hash_order now ?x] => assert (same_seats g x) as H0 end.
  { etrans; [apply (same_pump_rejoin now)|]. destruct (g_fake_player_pid _); [|done].
    by apply same_update. }
  intros (g1 & H1 & H)%bind_Some. apply same_desync_loop in H1.
  pose proof (same_check_lag now g1) as H2. destruct (check_lag crc32 now g1) as [g2 lagging].
  cbn [fst] in H2. assert (same_seats g g2) as H3 by (do 2 (etrans; [eassumption|]); done).
  destruct lagging.
  { injection H as <- _. etrans; [exact H3|apply same_drop_lagging]. }
  apply bind_Some in H as (g3 & H4 & [= <- _]). apply same_all_actions in H4.
  etrans; [exact H3|]. etrans; [exact H4|]. unfold game_over_timer.
  match goal with |- context [g_game_over_time ?x] =>
    assert (same_seats g3 x) as H5 by (by destruct (_ && _)); revert H5; generalize x end.
  intros x H5. destruct (g_game_over_time x); [|done]. destruct (_ <=? _); [|done].
  etrans; [exact H5|apply same_leave_all].
Qed.

Lemma same_end_tick now g : same_seats g (end_tick now g).
Proof.
  unfold end_tick. destruct (_ && _); [|done]. unfold save_game_data.
  by destruct (g_dota _); apply same_over.
Qed.
Lemma same_lobby_time_limit now g : same_seats g (lobby_time_limit now g).
Proof.
  unfold lobby_time_limit. destruct (_ && _); [|done].
  destruct (existsb _ _), (_ <=? _); try done; by apply same_over.
Qed.
Lemma same_send_pings now g : same_seats g (send_pings now g).
Proof. unfold send_pings. destruct (_ && _); [|done]. by etrans; [apply same_broadcast|]. Qed.

Lemma same_lobby_announce now g g' : lobby_announce now g = Some g' → same_seats g g'.
Proof.
  unfold lobby_announce. destruct (g_announce_message g); [|by intros [= <-]].
  destruct (_ && _); [|by intros [= <-]]. intros (g1 & H1 & [= <-])%bind_Some.
  etrans; [by eapply same_chat_all|done].
Qed.

Lemma seating_tick now skipped g g' :
  on_tick crc32 hash_order fmt_secs now skipped g = Some g' → seating_wf g → seating_wf g'.
Proof.
  unfold on_tick. intros (g1 & H1%same_pump_downloads & H)%bind_Some Hwf.
  apply bind_Some in H as (g2 & H2%same_reap_gproxy & H).
  assert (seating_wf (send_pings now g2)) as Hwf2.
  { eapply seating_wf_same; [|exact Hwf]. etrans; [exact H1|]. etrans; [exact H2|].
    apply same_send_pings. }
  revert H Hwf2. generalize (send_pings now g2). clear. intros g H Hwf.
  destruct (g_phase g) as [|s total last| | |] eqn:Hph.
  - apply bind_Some in H as (g1 & H1%same_lobby_announce & [= <-]).
    eapply seating_wf_same; [|exact Hwf]. etrans; [exact H1|].
    etrans; [apply same_lobby_time_limit|apply same_end_tick].
  - apply bind_Some in H as (g1 & H1 & [= <-]).
    eapply seating_wf_same; [apply same_end_tick|]. unfold countdown_tick in H1.
    destruct (total <=? _); [by eapply seating_begin_loading|].
    destruct (_ && _); [|by injection H1 as <-].
    eapply seating_wf_same; [by eapply same_chat_all|]. by apply (seating_wf_keep g).
  - apply bind_Some in H as (g1 & H1 & [= <-]).
    eapply seating_wf_same; [apply same_end_tick|]. unfold loading_tick in H1.
    destruct (g_started_loading_at g); [|by injection H1 as <-].
    destruct (_ <=? _); [|by injection H1 as <-]. eapply seating_reap; [exact H1|].
    eapply seating_wf_same; [|exact Hwf]. apply same_leave_all.
  - apply bind_Some in H as ([g1 b] & H1%same_playing_tick & [= <-]).
    eapply seating_wf_same; [|exact Hwf]. etrans; [exact H1|]. destruct b; [done|apply same_end_tick].
  - injection H as <-. eapply seating_wf_same; [apply same_end_tick|].
    eapply seating_wf_same; [|exact Hwf]. done.
Qed.

Lemma seating_timer now g g' :
  timer_branch crc32 hash_order fmt_secs now g = Some g' → seating_wf g → seating_wf g'.
Proof.
  unfold timer_branch. intros ([t skipped] & _ & H)%bind_Some Hwf.
  eapply seating_tick; [exact H|].
  eapply seating_wf_same; [|exact Hwf]. unfold record_jitter. by destruct (_ <=? _).
Qed.
End seats.

(** ** The other handlers *)

Lemma same_gps_reconnect conn_id req link g :
  same_seats g (handle_gps_reconnect conn_id req link g).1.1.
Proof.
  unfold handle_gps_reconnect. destruct (by_pid _ _) as [p|]; [|done]. destruct (_ || _); [done|].
  destruct (p_gproxy_buffer p ≫= _); [|done]. by apply same_update.
Qed.

Lemma same_gps_frame_reconnect conn_id payload g : same_seats g (gps_reconnect conn_id payload g).1.
Proof.
  unfold gps_reconnect. destruct (decode_reconnect payload) as [req|]; [|done].
  destruct (pending_of conn_id g) as [[link ip]|]; [|done].
  pose proof (same_gps_reconnect conn_id req link (g <| g_pending ::= remove_pending conn_id |>)) as H.
  destruct (handle_gps_reconnect _ _ _ _) as [[g' ok] back]. etrans; [|exact H]. done.
Qed.

Lemma same_gps_frame conn_id f g : same_seats g (on_gps_frame conn_id f g).1.
Proof.
  unfold on_gps_frame. destruct (_ =? _); [by apply same_update_conn|].
  destruct (_ =? _); [by apply same_update_conn|].
  destruct (_ =? _); [apply same_gps_frame_reconnect|].
  destruct (_ =? _); [|done]. by destruct (decode_full _).
Qed.

Lemma same_iccup_frame conn_id f g : same_seats g (on_iccup_gps_frame conn_id f g).1.
Proof.
  unfold on_iccup_gps_frame. destruct (_ =? _); [by apply same_update_conn|].
  destruct (_ =? _); [by apply same_update_conn|].
  by destruct (_ =? _); [apply same_gps_frame_reconnect|].
Qed.

Lemma same_map_part_ok conn_id payload g : same_seats g (handle_map_part_ok conn_id payload g).
Proof.
  unfold handle_map_part_ok. destruct (p_pid <$> _); [|done]. destruct (decode_map_part_ok _); [|done].
  split; [|done..]. by apply update_first_map.
Qed.
Lemma same_map_part_not_ok conn_id payload g : same_seats g (handle_map_part_not_ok conn_id payload g).
Proof.
  unfold handle_map_part_not_ok. destruct (p_pid <$> _); [|done].
  destruct (decode_map_part_not_ok _); [|done]. split; [|done..]. by apply update_first_map.
Qed.

Lemma same_pong now conn_id payload g : same_seats g (handle_pong now conn_id payload g).
Proof.
  unfold handle_pong. destruct (decode_pong_to_host _) as [pong|]; [|done]. destruct (pong =? 1); [done|].
  match goal with |- context [ping_too_high ?x] => assert (same_seats g x) as H0 by (by apply same_update_conn);
    revert H0; generalize x end.
  intros x H0. destruct (by_conn _ _) as [p|]; [|done]. destruct (ping_too_high _ _); [|done].
  etrans; [exact H0|apply same_kick].
Qed.

Lemma seating_map_size fmt_secs now conn_id payload g g' :
  handle_map_size fmt_secs now conn_id payload g = Some g' → seating_wf g → seating_wf g'.
Proof.
  unfold handle_map_size. intros H Hwf. destruct (p_pid <$> _) as [pid|]; [|by injection H as <-].
  destruct (bool_decide _).
  { injection H as <-. eapply seating_wf_same; [|exact Hwf].
    etrans; [apply same_send_to|]. etrans; [apply same_send_to|]. by apply same_update. }
  destruct (MapSizeReport_decode payload) as [r|]; [|by injection H as <-].
  destruct (_ <=? _).
  { injection H as <-. eapply seating_wf_same; [|exact Hwf]. by apply same_update. }
  destruct (_ || _).
  { eapply seating_reap; [exact H|]. eapply seating_wf_same; [|exact Hwf]. apply same_kick. }
  destruct (_ && _); [by injection H as <-|]. destruct (existsb _ _); [by injection H as <-|].
  injection H as <-. eapply seating_wf_same; [|exact Hwf]. by etrans; [|apply same_send_to].
Qed.

(** ** The life of a game *)

(** The slots a lobby starts with seat nobody. *)
Definition empty_slots (cfg : GameConfig) : Prop :=
  (c_num_slots cfg <= 256)%nat ∧
  ∀ t, c_custom_slots cfg = Some t → (length t <= 256)%nat ∧ Forall (λ s, pid s = 0) t.

Lemma seating_new `{Unicode} now seed relay cfg :
  empty_slots cfg → seating_wf (new_game now seed relay cfg).
Proof.
  intros [Hn Hc]. set (g := new_game now seed relay cfg).
  assert ((length (g_slots g) <= 256)%nat ∧ Forall (λ s, pid s = 0) (g_slots g)) as [Hlen Hz].
  { unfold g, new_game. cbn. destruct (c_custom_slots cfg) as [t|]; [by apply Hc|].
    unfold new_table. rewrite length_map, length_seq. split; [done|].
    apply Forall_map, Forall_true. by intros. }
  rewrite Forall_forall in Hz.
  split; try done; try (intros p Hp; by apply elem_of_nil in Hp).
  - constructor.
  - split; [apply Forall_forall; intros s Hs _; by apply Hz|].
    intros i j s1 s2 p Hp Hi _ [_ E] _. destruct Hp. rewrite <- E. apply Hz.
    by eapply list_elem_of_lookup_2.
  - intros s Hs _ Hne. by destruct Hne; apply Hz.
Qed.

Section life.
Context `{W : World} (crc32 : bytes → Z) (hash_order : list (Z * list Z) → list (Z * list Z))
        (holds_order : HoldsOrder) (fmt_secs : Z → bytes).

(** What breaks up players and seats: a slot is opened or closed by chat while a player is in it,
    or the fake player is toggled when the virtual host has the pid kept for it. *)
Definition unseating (ev : RunEvent) (g : GameState) : bool :=
  match ev with
  | EvCmd _ ToggleFakePlayer => fake_is_host g
  | EvCmd _ (ConnFrame _ (FW3gs f)) => (fr_id f =? ids.CHAT_TO_HOST) && chat_unseats (fr_payload f) g
  | _ => false
  end.

Lemma seating_w3gs_frame now dw conn_id f g g' :
  (fr_id f =? ids.CHAT_TO_HOST) && chat_unseats (fr_payload f) g = false →
  on_w3gs_frame hash_order holds_order fmt_secs now dw conn_id f g = Some g' →
  seating_wf g → seating_wf g'.
Proof.
  intros Hsafe H Hwf. unfold on_w3gs_frame in H.
  repeat match type of H with
  | (if Z.eqb ?a ?b then _ else _) = Some _ => destruct (Z.eqb_spec a b)
  end.
  - injection H as <-. by apply seating_req_join.
  - injection H as <-. eapply seating_wf_same; [apply same_handle_leave|done].
  - injection H as <-. eapply seating_wf_same; [apply same_handle_action|done].
  - eapply seating_wf_same; [by eapply same_keepalive|done].
  - eapply seating_chat; [|exact H|done]. exact Hsafe.
  - eapply seating_wf_same; [by eapply same_handle_loaded|done].
  - injection H as <-. eapply seating_wf_same; [apply same_pong|done].
  - by eapply seating_map_size.
  - injection H as <-. eapply seating_wf_same; [apply same_map_part_ok|done].
  - injection H as <-. eapply seating_wf_same; [apply same_map_part_not_ok|done].
  - injection H as <-. eapply seating_wf_same; [apply same_drop_request|done].
  - by injection H as <-.
Qed.

Lemma seating_cmd now dw cmd g g' :
  unseating (EvCmd dw cmd) g = false →
  handle_cmd hash_order holds_order fmt_secs now dw cmd g = Some g' → seating_wf g → seating_wf g'.
Proof.
  destruct cmd as [conn_id link ip|conn_id p key last link|conn_id f|conn_id reason| |msg| | | |];
    cbn [handle_cmd]; intros Hsafe H Hwf; try injection H as <-;
    try (eapply seating_wf_same; [|exact Hwf]; eauto using same_add_conn, same_gps_reconnect,
      same_conn_closed, same_chat_all; done).
  - destruct f as [f|f|f|f]; cbn [on_frame] in H; try injection H as <-; try done.
    + by eapply seating_w3gs_frame.
    + eapply seating_wf_same; [apply same_gps_frame|done].
    + eapply seating_wf_same; [apply same_iccup_frame|done].
  - eapply seating_wf_same; [apply same_start_countdown|done].
  - eapply seating_wf_same; [|exact Hwf]. by destruct (is_lobby g).
  - by apply seating_toggle.
  - by apply seating_create_host.
Qed.

Lemma seating_run_step now ev r r' :
  unseating ev (ru_game r) = false → run_step crc32 hash_order holds_order fmt_secs now ev r = Some r' →
  seating_wf (ru_game r) → seating_wf (ru_game r').
Proof.
  unfold run_step. intros Hsafe H Hwf. destruct (ru_stopped r); [by injection H as <-|].
  apply bind_Some in H as (og & Hb & H). destruct og as [g|]; [|by injection H as <-].
  assert (seating_wf g) as Hwf1.
  { destruct ev as [dw cmd| |]; cbn [run_branch] in Hb; [|apply fmap_Some in Hb as (g1 & H1 & [= ->])|done].
    - destruct cmd; try done; apply fmap_Some in Hb as (g1 & H1 & [= ->]); by eapply seating_cmd.
    - by eapply seating_timer. }
  apply bind_Some in H as (g2 & H2 & H). eapply seating_reap in H2; [|done].
  assert (seating_wf (ru_game (report_lobby (mkRun g2 (ru_last r) false)))) as Hwf3.
  { unfold report_lobby. cbn [ru_game]. destruct (_ && _); [|done]. cbn [ru_game].
    eapply seating_wf_same; [|exact H2]. unfold report_status. by destruct (c_event_tx (g_cfg g2)). }
  injection H as <-. by destruct (g_finished _).
Qed.

Lemma same_on_link o f g : same_seats g (on_link o f g).
Proof.
  destruct o as [i|i]; [|done]. split; [|done..]. cbn. apply list_eq. intros j.
  change @map with (@fmap list _). rewrite !list_lookup_fmap. destruct (decide (i = j)) as [<-|].
  - rewrite list_lookup_alter_eq. by destruct (g_players g !! i).
  - by rewrite list_lookup_alter_ne.
Qed.

(** Between turns nobody moves. *)
Lemma world_step_game now e r r' :
  world_step crc32 hash_order holds_order fmt_secs now e r = Some r' →
  (∃ ev, e = Turn ev ∧ run_step crc32 hash_order holds_order fmt_secs now ev r = Some r') ∨
  same_seats (ru_game r) (ru_game r').
Proof.
  destruct e; cbn [world_step]; intros H; [left; eauto|right..]; injection H as <-; cbn [ru_game];
    first [apply same_on_link|apply same_with_relay].
Qed.

(** A run meets no unseating event, or a first one. *)
Lemma seating_run evs r0 r :
  seating_wf (ru_game r0) → run_world crc32 hash_order holds_order fmt_secs evs r0 = Some r →
  seating_wf (ru_game r) ∨
  ∃ l1 now ev l2 r1, evs = l1 ++ (now, Turn ev) :: l2 ∧
    run_world crc32 hash_order holds_order fmt_secs l1 r0 = Some r1 ∧
    seating_wf (ru_game r1) ∧ unseating ev (ru_game r1) = true.
Proof.
  revert r0. induction evs as [|[now e] evs IH]; intros r0 H0 H; [injection H as <-; by left|].
  apply bind_Some in H as (r' & Hstep & Hr).
  assert (seating_wf (ru_game r') ∨ ∃ ev, e = Turn ev ∧ unseating ev (ru_game r0) = true) as [H'|(ev & -> & Hu)].
  { destruct (world_step_game _ _ _ _ Hstep) as [(ev & -> & Hs)|Hs]; [|left; by eapply seating_wf_same].
    destruct (unseating ev (ru_game r0)) eqn:Hu; [right; eauto|left; by eapply seating_run_step]. }
  - destruct (IH r' H' Hr) as [Hwf|(l1 & t & ev & l2 & r1 & -> & H1 & H2 & H3)]; [by left|right].
    exists ((now, e) :: l1), t, ev, l2, r1. split_and!; [done| |done..]. cbn [run_world]. by rewrite Hstep.
  - right. by exists [], now, ev, evs, r0.
Qed.
End life.

(** The actor as it starts. *)
Definition new_run `{Unicode} (now seed : Z) (relay : option RelayHandle) (cfg : GameConfig) : Run :=
  mkRun (new_game now seed relay cfg) None false.


Definition sample_lobby : GameState :=
  (toggle_fake_player 5 (create_virtual_host 4 (new_game (H := plain_unicode) 0 42 None sample_config))).1.

Definition no_draws : Draws := mkDraws 0 (λ _, 0).

Abbreviation sample_step now cmd :=
  (run_step (W := plain_world) (λ _, 0) id map_to_list (λ _, []) now (EvCmd no_draws cmd)).

Abbreviation sample_run := (run_world (W := plain_world) (λ _, 0) id map_to_list (λ _, [])).
Definition sample_start_run : Run := new_run (H := plain_unicode) 0 42 None sample_config.

(** The fake player joins the virtual host, and its link is drained. *)
Definition sample_events : list (Z * WorldEvent) :=
  [(4, Turn (EvCmd no_draws CreateVirtualHost)); (5, Turn (EvCmd no_draws ToggleFakePlayer)); (6, LinkWrites (OfPlayer 1))].

Definition fake_seated (g : GameState) : bool := existsb (λ p, is_human p && (p_pid p =? 2)) (g_players g).


Lemma unheld_spec g sid :
  (length (g_slots g) <= 256)%nat → unheld_open_slot g = Some sid → g_holds g !! sid = None.
Proof. intros Hl H. by apply unheld_open_slot_open. Qed.

Lemma target_slot_held order nm g sid :
  (∀ h, Permutation (order h) (map_to_list h)) →
  (length (g_slots g) <= 256)%nat → target_slot order nm g = Some sid →
  g_holds g !! sid = None ∨
  ∃ held, g_holds g !! sid = Some held ∧ eq_ignore_ascii_case held nm = true.
Proof.
  intros Hperm Hl. unfold target_slot. destruct (reserved_slot order nm g) as [r|] eqn:Hr.
  - destruct (Slots.is_open r (g_slots g)).
    + intros [= <-]. right. unfold reserved_slot in Hr. apply fmap_Some in Hr as ([k held] & Hf & ->).
      apply find_some in Hf as [Hin He]. exists held. split; [|done].
      by apply elem_of_map_to_list; rewrite <- Hperm; apply list_elem_of_In.
    + intros H. left. by apply unheld_spec.
  - intros H. left. by apply unheld_spec.
Qed.

Lemma seat_player_refused now key sid pid reserved conn_id req ip link g g' back :
  seating_wf g → 1 <= pid <= 254 → pid ∉ player_pids (g_players g) →
  Slots.is_open sid (g_slots g) = true →
  seat_player now key sid pid reserved conn_id req ip link g = (g', Some back) →
  g_players g' = g_players g ∧ map slot_key (g_slots g') = map slot_key (g_slots g).
Proof.
  intros Hwf Hr Hfresh Ho. unfold seat_player.
  assert (map slot_key (release pid (occupy_slot sid pid (g_slots g)).1).1
          = map slot_key (g_slots g)) as Hback.
  { apply occupy_release; [lia|apply Hwf|apply Hwf|done|].
    apply sid_of_pid_elem. intros s Hs [Hoc E].
    destruct (sw_seated _ Hwf s Hs Hoc) as (q & Hq & _ & Eq); [lia|].
    apply Hfresh. rewrite <- E, <- Eq. by apply list_elem_of_fmap_2. }
  destruct (slot_info_join _ _ _ _ _ _ _) as [b|]; [|by intros [= <- _]].
  destruct (try_send link b) as [link' [[]|]]; [done|by intros [= <- _]].
Qed.

(** ** What a join does *)

(** The newcomer is in the table under [pid], whatever was sent to them since. *)
Definition is_seated (pid conn_id : Z) (nm : bytes) (g : GameState) : Prop :=
  ∃ p, p ∈ g_players g ∧ p_pid p = pid ∧ p_name p = nm ∧ p_conn_id p = conn_id ∧
       is_human p = true ∧ p_left_code p = ids.PLAYERLEAVE_LOBBY.

Lemma is_seated_map pid conn_id nm f g g' :
  g_players g' = map f (g_players g) → (∀ p, inert p (f p)) →
  is_seated pid conn_id nm g → is_seated pid conn_id nm g'.
Proof.
  intros E Hf (p & Hp & H1 & H2 & H3 & H4 & H5). exists (f p). destruct (Hf p).
  unfold is_human in *. split_and!; try congruence. rewrite E. by apply list_elem_of_fmap_2.
Qed.

Lemma is_seated_slot_info pid conn_id nm now g :
  is_seated pid conn_id nm g → is_seated pid conn_id nm (send_all_slot_info now g).
Proof.
  destruct (broadcast_ok_players now (slot_info (g_slots g) (g_random_seed g)
    (m_layout_style (c_map (g_cfg g))) (m_num_players (c_map (g_cfg g)))) g) as (f & E & Hf).
  by apply (is_seated_map _ _ _ f).
Qed.

Lemma is_seated_delete_host pid conn_id nm now g :
  NoDup (player_pids (g_players g)) → pid ≠ g_virtual_host_pid g →
  is_seated pid conn_id nm g → is_seated pid conn_id nm (delete_virtual_host now g).
Proof.
  unfold delete_virtual_host. intros Hd Hne H. destruct (_ =? 255); [done|].
  eapply is_seated_map; [apply broadcast_players|apply deliver_inert|].
  destruct H as (p & Hp & Hpid & H). exists p. split; [|by split].
  apply elem_remove_pid; [done|]. split; [done|congruence].
Qed.

Lemma broadcast_slots now b g : g_slots (broadcast now b g) = g_slots g.
Proof. unfold broadcast. by destruct (is_playing g). Qed.
Lemma slot_info_slots now g : g_slots (send_all_slot_info now g) = g_slots g.
Proof. unfold send_all_slot_info. destruct (slot_info _ _ _ _); [apply broadcast_slots|done]. Qed.
Lemma delete_host_slots now g : g_slots (delete_virtual_host now g) = g_slots g.
Proof. unfold delete_virtual_host. destruct (_ =? 255); [done|]. by rewrite broadcast_slots. Qed.

Lemma seat_player_joined now key sid pid reserved conn_id req ip link g g' :
  seating_wf g → 1 <= pid <= 254 → pid ∉ player_pids (g_players g) →
  seat_player now key sid pid reserved conn_id req ip link g = (g', None) →
  is_seated pid conn_id (name req) g' ∧ g_slots g' = (occupy_slot sid pid (g_slots g)).1.
Proof.
  intros Hwf Hr Hf. unfold seat_player.
  set (g1 := g <| g_slots ::= λ t, (occupy_slot sid pid t).1 |>).
  destruct (slot_info_join _ _ _ _ _ _ _) as [b|]; [|done].
  destruct (try_send link b) as [link' [[]|]]; [|done].
  set (p := (joined_player pid req conn_id link' ip key reserved (g_cfg g1))
              <| p_link := introduce (joined_player pid req conn_id link' ip key reserved (g_cfg g1))
                             g1 link' |>).
  set (g2 := g1 <| g_players ::= insert_player p |> <| g_players ::= announce_player p |>).
  assert (g_players g2 = announce_player p (g_players g ++ [p])) as E2 by done.
  assert (player_pids (g_players g2) = player_pids (g_players g) ++ [pid]) as Epids.
  { rewrite E2. rewrite (keys_pids (g_players g ++ [p])) by apply announce_keys.
    unfold player_pids. by rewrite map_app. }
  assert (is_seated pid conn_id (name req) g2) as Hs.
  { exists p. split; [|done]. rewrite E2. unfold announce_player.
    destruct (player_info _ _ _ _); [|set_solver]. apply list_elem_of_fmap. exists p.
    rewrite Z.eqb_refl. set_solver. }
  assert (NoDup (player_pids (g_players (send_all_slot_info now g2)))) as Hd.
  { rewrite (keys_pids (g_players g2)) by apply same_slot_info. rewrite Epids, NoDup_app.
    split_and!; [apply Hwf|set_solver|apply NoDup_singleton]. }
  assert (pid ≠ g_virtual_host_pid (send_all_slot_info now g2)) as Hv.
  { rewrite (ss_host _ _ (same_slot_info _ _)). change (pid ≠ g_virtual_host_pid g). intros ->.
    apply Hf, (sw_host_in _ Hwf). lia. }
  pose proof (is_seated_slot_info _ _ _ now g2 Hs) as Hs'.
  intros [= <-]. destruct (_ <=? _).
  - split; [by apply is_seated_delete_host|]. by rewrite delete_host_slots, slot_info_slots.
  - split; [done|]. by rewrite slot_info_slots.
Qed.

(** C19: a connection that asks to join an open lobby either becomes a player under the name
    it gave, which was nobody's, with a free pid and exactly one slot, which was open and is
    held for that name or for nobody, every other slot being untouched; or its link is given
    back and the players and the seats are as before. *)
Theorem req_join_outcome order now key conn_id payload link ip g :
  (∀ h, Permutation (order h) (map_to_list h)) →
  seating_wf g → is_lobby g = true → pending_of conn_id g = Some (link, ip) →
  match handle_req_join order now key conn_id payload g with
  | (g', None) =>
      ∃ req pid sid s, ReqJoin_decode payload = Ok req ∧
        Forall (λ p, eq_ignore_ascii_case (p_name p) (name req) = false) (g_players g) ∧
        next_free_pid (g_players g) = Some pid ∧ is_seated pid conn_id (name req) g' ∧
        g_slots g !! Z.to_nat sid = Some s ∧ slot_status s = Open ∧
        (g_holds g !! sid = None ∨
         ∃ nm, g_holds g !! sid = Some nm ∧ eq_ignore_ascii_case nm (name req) = true) ∧
        g_slots g' = (occupy_slot sid pid (g_slots g)).1
  | (g', Some _) =>
      g_players g' = g_players g ∧ map slot_key (g_slots g') = map slot_key (g_slots g)
  end.
Proof.
  intros Hperm Hwf Hlob Hpend. unfold handle_req_join. rewrite Hpend.
  set (g1 := g <| g_pending ::= remove_pending conn_id |>).
  assert (seating_wf g1) as Hwf1 by (eapply seating_wf_same; [|exact Hwf]; done).
  destruct (ReqJoin_decode payload) as [req|] eqn:Hreq; [|done].
  change (is_lobby g1) with (is_lobby g). rewrite Hlob. cbn [negb].
  destruct (existsb _ _) eqn:Hex; [done|].
  destruct (target_slot order (name req) g1) as [sid|] eqn:Hsid; [|done].
  destruct (next_free_pid (g_players g1)) as [c|] eqn:Hc; [|done].
  pose proof (next_free_pid_fresh _ _ Hc) as [Hr Hf].
  pose proof (target_slot_open _ _ _ _ (sw_len _ Hwf1) Hsid) as Ho.
  destruct (seat_player now key sid c (is_some (reserved_slot order (name req) g1)) conn_id req ip link g1)
    as [g' [back|]] eqn:Hseat.
  - pose proof (seat_player_refused now key sid c (is_some (reserved_slot order (name req) g1)) conn_id
      req ip link g1 g' back Hwf1 Hr Hf Ho Hseat) as H. exact H.
  - destruct (seat_player_joined _ _ _ _ _ _ _ _ _ _ _ Hwf1 Hr Hf Hseat) as [Hs Hslots].
    unfold Slots.is_open in Ho. change (g_slots g1) with (g_slots g) in Ho.
    destruct (g_slots g !! Z.to_nat sid) as [s|] eqn:Es; [|done].
    exists req, c, sid, s. split_and!; try done.
    + apply Forall_forall. intros p Hp. destruct (eq_ignore_ascii_case _ _) eqn:E; [|done].
      rewrite <- Hex. symmetry. apply existsb_exists. exists p. by rewrite <- list_elem_of_In.
    + by apply is_status_true.
    + by apply target_slot_held in Hsid; [|done|apply Hwf1].
Qed.

Definition join_payload : bytes :=
  ReqJoin_wire (mkReqJoin 7 3735928559 6112 305419896 (str "Slash") [192; 168; 1; 50]) 0
               [0; 0; 0; 0; 0; 0].

Lemma req_join_outcome_witness :
  is_seated 3 9 (str "Slash")
    (handle_req_join map_to_list 6 77 9 join_payload (add_conn 9 (new_chan 64) [10; 0; 0; 1] sample_lobby)).1.
Proof.
  assert (seating_wf (add_conn 9 (new_chan 64) [10; 0; 0; 1] sample_lobby)) as Hwf.
  { eapply seating_wf_same; [apply same_add_conn|]. apply seating_toggle; [vm_compute; reflexivity|].
    apply seating_create_host, (seating_new (H := plain_unicode)). split; [vm_compute; lia|by intros]. }
  pose proof (req_join_outcome map_to_list 6 77 9 join_payload (new_chan 64) [10; 0; 0; 1]
    (add_conn 9 (new_chan 64) [10; 0; 0; 1] sample_lobby) (λ _, reflexivity _) Hwf eq_refl eq_refl) as H.
  destruct (handle_req_join map_to_list 6 77 9 join_payload _) as [g' back] eqn:E.
  assert (back = None) as ->.
  { change back with (g', back).2. rewrite <- E. vm_compute. reflexivity. }
  destruct H as (req & pid & sid & s & Hreq & _ & Hpid & Hs & _).
  vm_compute in Hpid. injection Hpid as <-. vm_compute in Hreq. injection Hreq as <-. exact Hs.
Defined.

(** ** Where players lose their seats

    The fake player is thrown out like anybody else ([!kick]); the game forgets neither
    its pid nor that it is there. *)
Definition fake_kicked : option GameState :=
  reap_left_players (λ _, []) 7 (kick_player 2 (str "was kicked") ids.PLAYERLEAVE_LOBBY sample_lobby).

(** After the fake player was kicked, a player who joins gets its pid, and toggling the
    fake player then throws that player out: they were in the lobby and had not left, and
    are gone from the table and the slots under the message that the fake player was
    removed. *)
Theorem stale_fake_player_evicts :
  match fake_kicked with
  | Some g =>
      let g := (handle_req_join map_to_list 8 77 9 join_payload (add_conn 9 (new_chan 64) [10; 0; 0; 1] g)).1 in
      let '(g', msg) := toggle_fake_player 10 g in
      (p_name <$> by_conn 9 (g_players g), p_left <$> by_conn 9 (g_players g))
        = (Some (str "Slash"), Some None) ∧
      (is_some (by_conn 9 (g_players g')), sid_of_pid 2 (g_slots g')) = (false, None) ∧
      msg = Some (str "Fake player removed.")
  | None => False
  end.
Proof. vm_compute. repeat split. Qed.

(** Closing (or opening) the slot a player sits in leaves the player in the game with
    no slot at all. *)
Theorem close_unseats_player :
  let g := (handle_req_join map_to_list 8 77 9 join_payload
              (add_conn 9 (new_chan 64) [10; 0; 0; 1] sample_lobby)).1 in
  match p_pid <$> by_conn 9 (g_players g) with
  | Some p => sid_of_pid p (g_slots g) = Some 1 ∧
              let g' := cmd_close 9 1 g in
              p_left <$> by_conn 9 (g_players g') = Some None ∧ sid_of_pid p (g_slots g') = None
  | None => False
  end.
Proof. vm_compute. repeat split. Qed.
