(* ===== verification/Life.v ===== *)
(** The life of a game, seen from outside: a specification of its stages and of who is in
    it, and the proof that the actor of a game implements it whatever it is sent. *)
From S2P Require Import Prelude Utf8 Text BytesExt Frame W3gs Gps Conn Slots Hcl History Players.
From S2P Require Import ReplayBody StatsDota Relay Tick Game CatchUp Desync Turns Lag Phases MapXfer.
From S2P Require Import Lobby Seating Reconnect Actor Commands Chat Dispatch ChatRules SlotRequests.
From S2P Require Import ChatSeats Invariant.

(** ** The specification

    A game is at a stage and has a roster: the pids and names of those in it, in the order
    they came.  Players join in the lobby only, under a pid nobody has; nobody leaves
    during a countdown, which is aborted first. *)
Record Life := mkLife { lf_stage : Stage; lf_roster : list (Z * bytes) }.

Inductive life_step : Life → Life → Prop :=
| life_moves s s' r : stage_step s s' → life_step (mkLife s r) (mkLife s' r)
| life_joins r q nm :
    q ∉ map fst r → life_step (mkLife InLobby r) (mkLife InLobby (r ++ [(q, nm)]))
| life_leaves s r1 x r2 :
    s ≠ InCountdown → life_step (mkLife s (r1 ++ x :: r2)) (mkLife s (r1 ++ r2)).

(** Past the countdown. *)
Definition started (s : Stage) : Prop := s = InLoading ∨ s = InPlaying ∨ s = IsOver.

(** What the specification promises: once a game has started nobody enters it, and it stays
    started. *)
Lemma life_started l l' :
  rtc life_step l l' → started (lf_stage l) →
  started (lf_stage l') ∧ lf_roster l' `sublist_of` lf_roster l.
Proof.
  unfold started. induction 1 as [|l1 l2 l3 H _ IH]; intros Hs; [done|].
  assert (started (lf_stage l2) ∧ lf_roster l2 `sublist_of` lf_roster l1) as [Hs2 Hr2].
  { unfold started. destruct H as [s s' r Hst|r q nm _|s r1 x r2 _]; cbn in *.
    - split; [|done]. destruct Hst; naive_solver.
    - naive_solver.
    - split; [done|]. apply sublist_app; [done|by constructor]. }
  destruct (IH Hs2) as [? ?]. split; [done|]. by etrans.
Qed.

(** ** The life of a game's state *)

Definition roster (t : PlayerTable) : list (Z * bytes) :=
  map (λ p, (p_pid p, p_name p)) (iter_humans t).
Definition life_of (g : GameState) : Life := mkLife (stage (g_phase g)) (roster (g_players g)).
Definition lived (g g' : GameState) : Prop := rtc life_step (life_of g) (life_of g').

#[export] Instance lived_preorder : PreOrder lived.
Proof. split; [by intros g; apply rtc_refl|]. intros g1 g2 g3. unfold lived. apply transitivity. Qed.

Lemma roster_keys t t' : map seat_key t' = map seat_key t → roster t' = roster t.
Proof.
  assert (∀ t, roster t = map (λ k, (k.1.1, k.2))
                              (List.filter (λ k, negb k.1.2) (map seat_key t))) as Hk.
  { intros t0. induction t0 as [|p t0 IH]; [done|]. unfold roster, iter_humans, is_human in *.
    cbn. destruct (p_virtual_host p); cbn; by rewrite IH. }
  intros E. by rewrite !Hk, E.
Qed.

(** The same players at the same stage, or further on. *)
Lemma lived_keep g g' :
  map seat_key (g_players g') = map seat_key (g_players g) → g_phase g' = g_phase g → lived g g'.
Proof. intros Ek Ep. unfold lived, life_of. by rewrite (roster_keys _ _ Ek), Ep. Qed.

Lemma same_lived g g' : same_seats g g' → lived g g'.
Proof.
  intros [Ek _ _ Hs]. unfold lived, life_of. rewrite (roster_keys _ _ Ek).
  revert Hs. apply (rtc_congruence (λ s, mkLife s (roster (g_players g)))).
  intros. by apply life_moves.
Qed.

Lemma roster_insert p t :
  roster (insert_player p t) = roster t ++ (if is_human p then [(p_pid p, p_name p)] else []).
Proof.
  unfold roster, iter_humans, insert_player. rewrite List.filter_app, map_app. cbn.
  by destruct (is_human p).
Qed.

Lemma roster_pids t q : q ∈ map fst (roster t) → q ∈ player_pids t.
Proof.
  unfold roster, player_pids. rewrite map_map. intros (p & -> & Hp)%list_elem_of_fmap.
  apply list_elem_of_In, filter_In in Hp as [Hp _].
  exact (list_elem_of_fmap_2 p_pid t p (proj2 (list_elem_of_In _ _) Hp)).
Qed.

(** A newcomer in the lobby. *)
Lemma lived_join p g g' :
  g_phase g = Lobby → g_phase g' = Lobby → is_human p = true →
  p_pid p ∉ player_pids (g_players g) →
  map seat_key (g_players g') = map seat_key (insert_player p (g_players g)) → lived g g'.
Proof.
  intros Hph Hph' Hh Hf Ek. unfold lived, life_of. rewrite (roster_keys _ _ Ek), roster_insert.
  rewrite Hh, Hph, Hph'. apply rtc_once, life_joins. by intros ?%roster_pids.
Qed.

(** Somebody leaves. *)
Lemma roster_remove q t :
  roster (remove_pid q t) = roster t ∨
  ∃ r1 x r2, roster t = r1 ++ x :: r2 ∧ roster (remove_pid q t) = r1 ++ r2.
Proof.
  unfold roster, iter_humans, remove_pid. induction t as [|p t IH]; [by left|]. cbn.
  destruct (has_pid q p).
  - destruct (is_human p); [right|by left]. by exists [], (p_pid p, p_name p),
      (map (λ p, (p_pid p, p_name p)) (List.filter is_human t)).
  - cbn. destruct (is_human p); [|done]. cbn. destruct IH as [->|(r1 & x & r2 & -> & ->)]; [by left|].
    right. by exists ((p_pid p, p_name p) :: r1), x, r2.
Qed.

Lemma lived_remove q g g' :
  is_countdown g = false → g_phase g' = g_phase g →
  map seat_key (g_players g') = map seat_key (remove_pid q (g_players g)) → lived g g'.
Proof.
  intros Hc Hph Ek. unfold lived, life_of. rewrite Hph, (roster_keys _ _ Ek).
  destruct (roster_remove q (g_players g)) as [->|(r1 & x & r2 & -> & ->)]; [reflexivity|].
  apply rtc_once, life_leaves. unfold is_countdown in Hc. by destruct (g_phase g).
Qed.

(** ** The handlers that seat or unseat somebody *)

Lemma same_lived_r g g1 g' : lived g g1 → same_seats g1 g' → lived g g'.
Proof. intros H Hs%same_lived. by etrans. Qed.

Lemma lived_delete_host now g : is_countdown g = false → lived g (delete_virtual_host now g).
Proof.
  intros Hc. unfold delete_virtual_host. destruct (_ =? 255); [done|].
  eapply same_lived_r; [|apply same_broadcast]. by eapply lived_remove.
Qed.

Lemma lived_create_host now g : lived g (create_virtual_host now g).
Proof.
  unfold create_virtual_host. destruct (negb _); [done|].
  destruct (next_free_pid (g_players g)) as [c|]; [|done].
  match goal with |- context [broadcast_ok now ?m ?g0] =>
    pose proof (same_lived _ _ (same_broadcast_ok now m g0)) as H; set (g1 := broadcast_ok now m g0) in * end.
  change (lived g g1) in H. etrans; [exact H|]. unfold lived, life_of.
  change (stage (g_phase (g1 <| g_players ::= _ |>))) with (stage (g_phase g1)).
  match goal with |- context [g_players (_ <| g_players ::= insert_player ?p |>)] =>
    change (g_players (_ <| g_players ::= insert_player p |>)) with (insert_player p (g_players g1));
    rewrite (roster_insert p) end.
  by rewrite app_nil_r.
Qed.

Lemma lived_toggle now g : lived g (toggle_fake_player now g).1.
Proof.
  unfold toggle_fake_player. destruct (is_lobby g) eqn:Hlob; [cbn [negb]|done].
  assert (g_phase g = Lobby) as Hph by (unfold is_lobby in Hlob; by destruct (g_phase g)).
  destruct (g_fake_player_pid g) as [f|].
  - cbn [fst]. eapply same_lived_r; [|apply same_slot_info].
    eapply same_lived_r; [|apply same_broadcast]. eapply (lived_remove f); [|done..].
    unfold is_countdown. by rewrite Hph.
  - destruct (next_free_pid (g_players g)) as [c|] eqn:Hc; [|done].
    destruct (first_open (g_slots g)) as [sid|]; [|done]. cbn [fst].
    apply next_free_pid_fresh in Hc as [_ Hfresh].
    eapply same_lived_r; [|apply same_slot_info]. eapply same_lived_r; [|apply same_broadcast_ok].
    by eapply (lived_join ((new_player c (str "FakePlayer") 0 (new_chan 128)) <| p_loaded := true |>)).
Qed.

Lemma lived_reap_player now g gone :
  is_countdown g = false →
  lived g (reap_player now g gone) ∧ is_countdown (reap_player now g gone) = false.
Proof.
  intros Hc. destruct gone as [q code]. unfold reap_player.
  match goal with |- context [broadcast now ?b ?x] =>
    assert (lived g x ∧ g_phase x = g_phase g) as [Hl Hp];
    [|pose proof (quiet_phase _ _ (quiet_broadcast now b x)) as Hp';
      pose proof (same_lived_r _ _ _ Hl (same_broadcast now b x)) as Hl';
      set (g1 := broadcast now b x) in *] end.
  { destruct (by_pid q (g_players g)); (split; [|done]); by eapply (lived_remove q). }
  unfold is_countdown in *. destruct (is_lobby g1).
  - rewrite (quiet_phase _ _ (quiet_slot_info now g1)), Hp', Hp.
    split; [|done]. eapply same_lived_r; [exact Hl'|apply same_slot_info].
  - by rewrite Hp', Hp.
Qed.

Lemma lived_reap_all now gone g :
  is_countdown g = false → lived g (foldl (reap_player now) g gone).
Proof.
  revert g. induction gone as [|e gone IH]; intros g Hc; [done|]. cbn.
  destruct (lived_reap_player now g e Hc) as [H1 H2]. etrans; [exact H1|by apply IH].
Qed.

Section handlers.
Context `{W : World} (crc32 : bytes → Z) (hash_order : list (Z * list Z) → list (Z * list Z))
        (holds_order : HoldsOrder) (fmt_secs : Z → bytes).

Lemma lived_reap now g g' : reap_left_players fmt_secs now g = Some g' → lived g g'.
Proof.
  unfold reap_left_players. intros H.
  destruct (gone_players (g_players g)) as [|e gone]; [by injection H as <-|].
  apply bind_Some in H as (g1 & H1 & H).
  assert (lived g g1 ∧ is_countdown g1 = false) as [Hl1 Hc1].
  { destruct (is_countdown g) eqn:Hc; [|by injection H1 as <-].
    apply quiet_chat_all in H1. unfold is_countdown. rewrite (quiet_phase _ _ H1). split; [|done].
    apply same_lived. etrans; [by apply same_abort|by apply quiet_same]. }
  revert H. match goal with |- context [foldl (reap_player now) ?g0 ?l] =>
    pose proof (lived_reap_all now l g0 Hc1) as Hl; set (g2 := foldl (reap_player now) g0 l) in * end.
  assert (lived g g2) as Hl2 by (etrans; [exact Hl1|exact Hl]).
  destruct (_ && _); [|by intros [= <-]]. intros H. eapply same_lived_r; [exact Hl2|].
  by eapply same_begin_playing.
Qed.

Lemma lived_begin_loading now g g' :
  is_countdown g = true → begin_loading fmt_secs now g = Some g' → lived g g'.
Proof.
  intros Hc. unfold begin_loading.
  set (g0 := g <| g_phase := Loading |> <| g_started_loading_at := Some now |>
               <| g_start_players := human_count (g_players g) |>).
  assert (lived g (put_hcl now g0)) as Hl1.
  { eapply same_lived_r; [|apply same_hcl]. unfold is_countdown in Hc. unfold lived, life_of.
    change (g_phase g0) with Loading. change (g_players g0) with (g_players g).
    apply rtc_once, life_moves. destruct (g_phase g); try done. apply stage_load. }
  assert (g_phase (put_hcl now g0) = Loading) as Hp1.
  { unfold put_hcl. destruct (g_hcl g0); [|done]. destruct (encode_hcl_into_slots _ _) as [t []]; [|done].
    by rewrite (quiet_phase _ _ (quiet_slot_info _ _)). }
  match goal with |- context [all_loaded (g_players ?g0)] => assert (lived g g0) as H0 end.
  { eapply same_lived_r; [|apply same_fake_loaded]. eapply same_lived_r; [|apply same_broadcast].
    etrans; [|apply lived_delete_host].
    - eapply same_lived_r; [exact Hl1|apply same_broadcast].
    - unfold is_countdown. by rewrite (quiet_phase _ _ (quiet_broadcast _ _ _)), Hp1. }
  destruct (all_loaded _); [|by intros [= <-]]. intros H.
  eapply same_lived_r; [exact H0|by eapply same_begin_playing].
Qed.

Lemma lived_seat_player now key sid pid reserved conn_id req ip link g :
  is_lobby g = true → pid ∉ player_pids (g_players g) →
  lived g (seat_player now key sid pid reserved conn_id req ip link g).1.
Proof.
  intros Hlob Hf. assert (g_phase g = Lobby) as Hph by (unfold is_lobby in Hlob; by destruct (g_phase g)).
  unfold seat_player. destruct (slot_info_join _ _ _ _ _ _ _) as [b|]; [|by apply lived_keep].
  destruct (try_send link b) as [link' [[]|]]; [|by apply lived_keep]. cbn [fst].
  match goal with |- lived _ (if _ then _ else send_all_slot_info now ?x) =>
    assert (lived g x ∧ g_phase x = Lobby) as [Hl Hp]; [|set (g2 := x) in *] end.
  { set (g1 := g <| g_slots ::= λ t, (occupy_slot sid pid t).1 |>).
    set (p := (joined_player pid req conn_id link' ip key reserved (g_cfg g1))
                <| p_link := introduce (joined_player pid req conn_id link' ip key reserved (g_cfg g1))
                               g1 link' |>).
    split; [|done]. apply (lived_join p); try done. apply announce_keys. }
  assert (lived g (send_all_slot_info now g2)) as Hl'
    by (eapply same_lived_r; [exact Hl|apply same_slot_info]).
  destruct (_ <=? _); [|done]. etrans; [exact Hl'|]. apply lived_delete_host. unfold is_countdown.
  by rewrite (quiet_phase _ _ (quiet_slot_info _ _)), Hp.
Qed.

Lemma lived_req_join order now key conn_id payload g :
  lived g (handle_req_join order now key conn_id payload g).1.
Proof.
  unfold handle_req_join. destruct (pending_of conn_id g) as [[link ip]|]; [|done].
  set (g1 := g <| g_pending ::= remove_pending conn_id |>).
  assert (lived g g1) as H1 by (by apply lived_keep).
  destruct (ReqJoin_decode payload) as [req|]; [|done].
  destruct (is_lobby g1) eqn:Hlob; cbn [negb]; cycle 1.
  { pose proof (same_try_full_rejoin now conn_id req ip link g1) as Hs.
    destruct (try_full_rejoin now conn_id req ip link g1) as [g2 ok].
    destruct ok; by eapply same_lived_r. }
  destruct (existsb _ _); [done|]. destruct (target_slot order (name req) g1) as [sid|]; [|done].
  destruct (next_free_pid (g_players g1)) as [c|] eqn:Hc; [|done].
  apply next_free_pid_fresh in Hc as [_ Hf]. etrans; [exact H1|by apply lived_seat_player].
Qed.

Lemma lived_map_size now conn_id payload g g' :
  handle_map_size fmt_secs now conn_id payload g = Some g' → lived g g'.
Proof.
  unfold handle_map_size. intros H. destruct (p_pid <$> _) as [pid|]; [|by injection H as <-].
  destruct (bool_decide _).
  { injection H as <-. apply same_lived. do 2 (etrans; [apply same_send_to|]). by apply same_update. }
  destruct (MapSizeReport_decode payload) as [r|]; [|by injection H as <-].
  destruct (_ <=? _).
  { injection H as <-. apply same_lived. by apply same_update. }
  destruct (_ || _).
  { apply lived_reap in H. etrans; [|exact H]. apply same_lived, same_kick. }
  destruct (_ && _); [by injection H as <-|]. destruct (existsb _ _); [by injection H as <-|].
  injection H as <-. apply same_lived. by etrans; [|apply same_send_to].
Qed.

(** *** The tick *)

Lemma lived_countdown_tick now s total last g g' :
  is_countdown g = true → countdown_tick fmt_secs now s total last g = Some g' → lived g g'.
Proof.
  intros Hc. unfold countdown_tick. destruct (total <=? _); [by apply lived_begin_loading|].
  destruct (_ && _); [|by intros [= <-]]. intros H%same_chat_all%same_lived. etrans; [|exact H].
  unfold lived, life_of. unfold is_countdown in Hc. by destruct (g_phase g).
Qed.

Lemma lived_tick now skipped g g' :
  on_tick crc32 hash_order fmt_secs now skipped g = Some g' → lived g g'.
Proof.
  unfold on_tick. intros (g1 & H1%same_pump_downloads & H)%bind_Some.
  apply bind_Some in H as (g2 & H2%same_reap_gproxy & H).
  assert (lived g (send_pings now g2)) as H0.
  { apply same_lived. etrans; [exact H1|]. etrans; [exact H2|apply same_send_pings]. }
  etrans; [exact H0|]. revert H. generalize (send_pings now g2). clear. intros g H.
  destruct (g_phase g) as [|s total last| | |] eqn:Hph.
  - apply bind_Some in H as (g1 & H1%same_lobby_announce & [= <-]). apply same_lived.
    etrans; [exact H1|]. etrans; [apply same_lobby_time_limit|apply same_end_tick].
  - apply bind_Some in H as (g1 & H1 & [= <-]). eapply same_lived_r; [|apply same_end_tick].
    eapply lived_countdown_tick; [|exact H1]. unfold is_countdown. by rewrite Hph.
  - apply bind_Some in H as (g1 & H1 & [= <-]). eapply same_lived_r; [|apply same_end_tick].
    unfold loading_tick in H1. destruct (g_started_loading_at g); [|by injection H1 as <-].
    destruct (_ <=? _); [|by injection H1 as <-]. apply lived_reap in H1.
    etrans; [|exact H1]. apply same_lived, same_leave_all.
  - apply bind_Some in H as ([g1 b] & H1%same_playing_tick & [= <-]).
    apply same_lived. etrans; [exact H1|]. destruct b; [done|apply same_end_tick].
  - injection H as <-. eapply same_lived_r; [|apply same_end_tick]. by apply lived_keep.
Qed.

Lemma lived_timer now g g' : timer_branch crc32 hash_order fmt_secs now g = Some g' → lived g g'.
Proof.
  unfold timer_branch. intros ([t skipped] & _ & H%lived_tick)%bind_Some. etrans; [|exact H].
  apply lived_keep; unfold record_jitter; by destruct (_ <=? _).
Qed.

(** *** Chat *)

Lemma lived_slot_command now op g : lived g (slot_command now op g).
Proof.
  unfold slot_command. destruct (op (g_slots g)) as [t []]; [|by apply lived_keep].
  eapply same_lived_r; [|apply same_slot_info]. by apply lived_keep.
Qed.

Lemma lived_all_slots now msg t g g' :
  send_chat_all now msg (send_all_slot_info now (g <| g_slots := t |>)) = Some g' → lived g g'.
Proof.
  intros H%same_chat_all. eapply same_lived_r; [|exact H].
  eapply same_lived_r; [|apply same_slot_info]. by apply lived_keep.
Qed.

Lemma lived_command now draws pid caller cmd g g' :
  run_command now draws pid caller cmd g = Some g' → lived g g'.
Proof.
  intros H. destruct (moves_seats cmd) eqn:Hm; [|by eapply same_lived, same_command].
  destruct cmd; try discriminate Hm; cbn [run_command] in H.
  - injection H as <-. apply lived_slot_command.
  - injection H as <-. apply lived_slot_command.
  - by apply lived_all_slots in H.
  - by apply lived_all_slots in H.
  - injection H as <-. apply lived_slot_command.
  - unfold cmd_shuffle in H. destruct (is_lobby g); [|by injection H as <-].
    by apply lived_all_slots in H.
  - injection H as <-. apply lived_slot_command.
  - unfold cmd_fake_player in H. pose proof (lived_toggle now g) as Ht.
    destruct (toggle_fake_player now g) as [g1 [msg|]]; [|by injection H as <-].
    apply same_chat_to in H. by eapply same_lived_r.
Qed.

Lemma lived_slot_request now p chat g : lived g (handle_slot_request now p chat g).
Proof.
  unfold handle_slot_request, apply_slot_request. destruct (is_lobby g); [|done].
  destruct (slot_request _ _ _ _ _) as [t []]; [|by apply lived_keep].
  eapply same_lived_r; [|apply same_slot_info]. by apply lived_keep.
Qed.

Lemma lived_chat now draws conn_id payload g g' :
  handle_chat_to_host now draws conn_id payload g = Some g' → lived g g'.
Proof.
  intros H. apply chat_cases in H as
    [->|(p & chat & g1 & _ & _ & _ & Hq & [[_ ->]|[[_ Hq']|(_ & cmd & _ & _ & Hrun)]])]; [done|..].
  - etrans; [by apply same_lived, quiet_same|apply lived_slot_request].
  - by apply same_lived, quiet_same.
  - by eapply lived_command.
Qed.

(** *** The actor *)

Lemma lived_w3gs_frame now dw conn_id f g g' :
  on_w3gs_frame hash_order holds_order fmt_secs now dw conn_id f g = Some g' → lived g g'.
Proof.
  intros H. unfold on_w3gs_frame in H.
  repeat match type of H with
  | (if Z.eqb ?a ?b then _ else _) = Some _ => destruct (Z.eqb_spec a b)
  end; try injection H as <-;
    eauto using same_lived, same_handle_leave, same_handle_action, same_keepalive, same_handle_loaded,
      same_pong, same_map_part_ok, same_map_part_not_ok, same_drop_request, lived_req_join,
      lived_chat, lived_map_size.
  done.
Qed.

Lemma lived_cmd now dw cmd g g' :
  handle_cmd hash_order holds_order fmt_secs now dw cmd g = Some g' → lived g g'.
Proof.
  destruct cmd as [conn_id link ip|conn_id p key last link|conn_id f|conn_id reason| |msg| | | |];
    cbn [handle_cmd]; intros H; try injection H as <-;
    eauto using same_lived, same_add_conn, same_gps_reconnect, same_conn_closed, same_chat_all,
      same_start_countdown, lived_toggle, lived_create_host.
  - destruct f as [f|f|f|f]; cbn [on_frame] in H; try injection H as <-;
      [by eapply lived_w3gs_frame|apply same_lived, same_gps_frame|apply same_lived, same_iccup_frame|done].
  - destruct (is_lobby g); by apply lived_keep.
  - by apply lived_keep.
Qed.

Lemma lived_run_step now ev r r' :
  run_step crc32 hash_order holds_order fmt_secs now ev r = Some r' → lived (ru_game r) (ru_game r').
Proof.
  unfold run_step. intros H. destruct (ru_stopped r); [by injection H as <-|].
  apply bind_Some in H as (og & Hb & H). destruct og as [g|]; [|by injection H as <-].
  assert (lived (ru_game r) g) as H1.
  { destruct ev as [dw cmd| |]; cbn [run_branch] in Hb; [|apply fmap_Some in Hb as (g1 & H1 & [= ->])|done].
    - destruct cmd; try done; apply fmap_Some in Hb as (g1 & H1 & [= ->]); by eapply lived_cmd.
    - by eapply lived_timer. }
  apply bind_Some in H as (g2 & H2%lived_reap & H).
  assert (lived (ru_game r) (ru_game (report_lobby (mkRun g2 (ru_last r) false)))) as H3.
  { etrans; [exact H1|]. etrans; [exact H2|]. unfold report_lobby. cbn [ru_game].
    destruct (_ && _); [|done]. cbn [ru_game]. unfold report_status.
    destruct (c_event_tx (g_cfg g2)); [by apply lived_keep|done]. }
  injection H as <-. by destruct (g_finished _).
Qed.

(** One turn of the actor's loop, at any time, on any event, or a step of a task at the other end
    of one of its channels. *)
Definition turn (r r' : Run) : Prop :=
  ∃ now e, world_step crc32 hash_order holds_order fmt_secs now e r = Some r'.

Lemma lived_turns r r' : rtc turn r r' → lived (ru_game r) (ru_game r').
Proof.
  induction 1 as [|r1 r2 r3 (now & e & H) _ IH]; [done|]. etrans; [|exact IH].
  destruct (world_step_game _ _ _ _ _ _ _ _ H) as [(ev & _ & H'%lived_run_step)|H']; [done|by apply same_lived].
Qed.
End handlers.

(** C2: the actor of a game implements the life cycle above: whatever it receives, in any
    order, at any times, and however the other ends of its channels keep up, its stage and the players in it develop as the specification
    allows, from an empty lobby on; so once it has started nobody enters it, whatever
    happens afterwards. *)
Theorem life_refinement `{W : World} crc32 hash_order holds_order fmt_secs now seed relay cfg r r' :
  rtc (turn crc32 hash_order holds_order fmt_secs) (new_run now seed relay cfg) r →
  rtc (turn crc32 hash_order holds_order fmt_secs) r r' →
  rtc life_step (mkLife InLobby []) (life_of (ru_game r)) ∧
  rtc life_step (life_of (ru_game r)) (life_of (ru_game r')) ∧
  (started (stage (g_phase (ru_game r))) →
   started (stage (g_phase (ru_game r'))) ∧
   roster (g_players (ru_game r')) `sublist_of` roster (g_players (ru_game r))).
Proof.
  intros H1%lived_turns H2%lived_turns. split; [exact H1|]. split; [exact H2|].
  intros Hs. exact (life_started _ _ H2 Hs).
Qed.

(** The countdown of an empty lobby runs out and the game is over at once; a client that
    connects afterwards gets nowhere. *)
Abbreviation sample_start := (sample_step 4 CmdStart).
Abbreviation sample_timer :=
  (run_step (W := plain_world) (λ _, 0) id map_to_list (λ _, []) (10 * SEC) EvTimer).

Lemma life_refinement_witness :
  ∃ r r', sample_start (new_run (H := plain_unicode) 0 42 None sample_config) ≫= sample_timer = Some r ∧
    sample_step (11 * SEC) (NewConn 9 (new_chan 64) [10; 0; 0; 1]) r = Some r' ∧
    rtc life_step (mkLife InLobby []) (mkLife IsOver []) ∧
    roster (g_players (ru_game r')) `sublist_of` [].
Proof.
  destruct (sample_start _) as [r1|] eqn:E1; [|vm_compute in E1; discriminate E1].
  cbn [mbind option_bind].
  assert (((λ r, life_of (ru_game r)) <$> sample_timer r1) = Some (mkLife IsOver [])) as E.
  { trans ((λ r, life_of (ru_game r)) <$> (Some r1 ≫= sample_timer)); [done|]. rewrite <- E1.
    vm_compute. reflexivity. }
  destruct (sample_timer r1) as [r|] eqn:E2; [|discriminate E].
  apply (inj Some) in E.
  destruct (sample_step (11 * SEC) (NewConn 9 (new_chan 64) [10; 0; 0; 1]) r) as [r'|] eqn:E3; cycle 1.
  { exfalso. assert (is_some ((Some r1 ≫= sample_timer) ≫=
        sample_step (11 * SEC) (NewConn 9 (new_chan 64) [10; 0; 0; 1])) = true) as H
      by (rewrite <- E1; vm_compute; reflexivity).
    cbn [mbind option_bind] in H. rewrite E2 in H. cbn [mbind option_bind] in H. by rewrite E3 in H. }
  exists r, r'. split; [done|]. split; [done|].
  destruct (life_refinement (W := plain_world) (λ _, 0) id map_to_list (λ _, []) 0 42 None sample_config
    r r') as (H1 & _ & H2).
  - eapply rtc_l; [exists 4, (Turn (EvCmd no_draws CmdStart)); exact E1|].
    eapply rtc_l; [exists (10 * SEC), (Turn EvTimer); exact E2|apply rtc_refl].
  - eapply rtc_l; [|apply rtc_refl].
    exists (11 * SEC), (Turn (EvCmd no_draws (NewConn 9 (new_chan 64) [10; 0; 0; 1]))). exact E3.
  - rewrite E in H1. split; [exact H1|].
    assert (stage (g_phase (ru_game r)) = IsOver ∧ roster (g_players (ru_game r)) = []) as [Es Er]
      by (split; [exact (f_equal lf_stage E)|exact (f_equal lf_roster E)]).
    rewrite Es, Er in H2. apply H2. right. by right.
Defined.

(** ** A report of having loaded, at the wrong time *)

(** Where a player stands in the game's turns. *)
Definition turn_key (p : Player) : Z * list ChecksumEntry := (p_sync_counter p, p_checksums p).

Lemma quiet_turns g g' :
  quiet g g' → map turn_key (g_players g') = map turn_key (g_players g) ∧
               g_sync_counter g' = g_sync_counter g ∧ g_game_ticks g' = g_game_ticks g.
Proof.
  intros H. split; [|split].
  - apply (quiet_field (λ g, map turn_key (g_players g))); [|done]. intros g0.
    rewrite settings_players. by apply map_key_map.
  - by apply (quiet_field g_sync_counter).
  - by apply (quiet_field g_game_ticks).
Qed.

Lemma begin_playing_fresh fmt_secs now g g' :
  begin_playing fmt_secs now g = Some g' →
  g_phase g' = Playing ∧ g_sync_counter g' = 0 ∧ g_game_ticks g' = 0 ∧
  Forall (λ q, turn_key q = (0, [])) (g_players g').
Proof.
  unfold begin_playing. intros (g1 & H1 & [= <-])%bind_Some.
  match type of H1 with context [report_load_times _ _ _ ?x] => set (g0 := x) in * end.
  assert (quiet g0 g1) as Hq.
  { destruct (g_started_loading_at _); [|by injection H1 as <-]. revert H1. apply report_rel;
      [tc_solve|intros; by eapply quiet_chat_all|intros; by eapply quiet_chat_to]. }
  change (g_phase g1 = Playing ∧ g_sync_counter g1 = 0 ∧ g_game_ticks g1 = 0 ∧
          Forall (λ q, turn_key q = (0, [])) (g_players g1)).
  destruct (quiet_turns _ _ Hq) as (Hk & -> & ->). rewrite (quiet_phase _ _ Hq). split_and!; [done..|].
  apply (Forall_map turn_key (λ k, k = (0, []))). change (@map Player) with (@fmap list _ Player).
  change (@fmap list _ Player) with (@map Player). rewrite Hk.
  apply (Forall_map turn_key (λ k, k = (0, []))). unfold g0. apply Forall_map, Forall_true. done.
Qed.

(** A report of having loaded is taken at its word at any stage: when everybody else has
    loaded, it starts the game from the lobby at once, without countdown or loading, and it
    restarts a game that is being played: the turn counters and the check sums that wait
    for the vote are thrown away. *)
Theorem loaded_restarts_game fmt_secs now conn_id g g' p :
  NoDup (player_pids (g_players g)) →
  by_conn conn_id (g_players g) = Some p → p_rejoin p ≠ AwaitingLoaded →
  (∀ q, q ∈ g_players g → p_pid q ≠ p_pid p → p_loaded q = true) →
  handle_loaded fmt_secs now conn_id g = Some g' →
  g_phase g' = Playing ∧ g_sync_counter g' = 0 ∧ g_game_ticks g' = 0 ∧
  Forall (λ q, turn_key q = (0, [])) (g_players g').
Proof.
  intros Hd Hc Hrj Hall. unfold handle_loaded. rewrite Hc.
  assert (by_pid (p_pid p) (g_players g) = Some p) as Hp.
  { apply by_pid_elem; [done|]. unfold by_conn in Hc. by apply find_some in Hc as [?%list_elem_of_In _]. }
  rewrite bool_decide_false by (rewrite Hp; cbn; congruence).
  match goal with |- context [broadcast now ?b ?x] => set (g1 := x); set (bs := b) end.
  rewrite (all_loaded_keys (g_players g1)) by apply (sl_players _ _ (same_load_broadcast _ _ _)).
  change (g_players g1) with (by_pid_mut (p_pid p)
    (λ p, p <| p_loaded := true |> <| p_finished_loading_at := Some now |>) (g_players g)).
  rewrite all_loaded_set by done. apply begin_playing_fresh.
Qed.

(** Two players in the middle of a game; the first says once more that the map is loaded. *)
Definition sample_playing : GameState :=
  (new_game (H := plain_unicode) 0 42 None sample_config)
    <| g_phase := Playing |> <| g_sync_counter := 7 |> <| g_game_ticks := 700 |>
    <| g_players := [(sample_player 1) <| p_sync_counter := 7 |>;
                     (sample_player 2) <| p_sync_counter := 6 |> <| p_checksums := [mkEntry 6 3] |>] |>.

Lemma loaded_restarts_game_witness :
  ∃ g', handle_loaded (λ _, []) SEC 1 sample_playing = Some g' ∧ g_sync_counter g' = 0 ∧
        Forall (λ q, turn_key q = (0, [])) (g_players g').
Proof.
  destruct (handle_loaded (λ _, []) SEC 1 sample_playing) as [g'|] eqn:E;
    [|vm_compute in E; discriminate E].
  exists g'. split; [done|].
  destruct (loaded_restarts_game (λ _, []) SEC 1 sample_playing g'
    ((sample_player 1) <| p_sync_counter := 7 |>)) as (_ & Hs & _ & Hall); [..|exact E|done].
  - apply (bool_decide_unpack _). vm_compute. reflexivity.
  - reflexivity.
  - discriminate.
  - intros q Hq Hne. change (q ∈ [(sample_player 1) <| p_sync_counter := 7 |>;
      (sample_player 2) <| p_sync_counter := 6 |> <| p_checksums := [mkEntry 6 3] |>]) in Hq.
    apply elem_of_cons in Hq as [->|Hq]; [by destruct Hne|].
    apply list_elem_of_singleton in Hq. by subst q.
Defined.
