(* ===== verification/MpqCrypt.v ===== *)
(** The cipher and the hash of MPQ archives (spectre-mpq, src/crypt.rs), in which Warcraft
    III maps are kept. *)
From S2P Require Import Prelude Utf8.

Definition TABLE_SIZE : nat := 1280.
Definition HASH_TABLE_OFFSET : Z := 0.
Definition HASH_NAME_A : Z := 256.
Definition HASH_NAME_B : Z := 512.
Definition HASH_FILE_KEY : Z := 768.

(** ** The table of random numbers *)

Definition storm_seed (seed : Z) : Z := wrap 32 (wrap 32 (seed * 125) + 3) mod 2796203.

(** The body of the inner loop: an entry, and the seed afterwards. *)
Definition storm_entry (seed : Z) : Z * Z :=
  let seed := storm_seed seed in
  let temp1 := Z.shiftl (Z.land seed 65535) 16 in
  let seed := storm_seed seed in
  let temp2 := Z.land seed 65535 in
  (Z.lor temp1 temp2, seed).

Fixpoint storm_steps (steps index : nat) (seed : Z) (table : list Z) : Z * list Z :=
  match steps with
  | O => (seed, table)
  | S steps =>
    let '(e, seed) := storm_entry seed in
    storm_steps steps (index + 256) seed (<[index := e]> table)
  end.

Definition build_storm_buffer : list Z :=
  (foldl (λ st i, storm_steps 5 i st.1 st.2) (1048577, replicate TABLE_SIZE 0) (seq 0 256)).2.

Definition STORM_BUFFER : list Z := Eval vm_compute in build_storm_buffer.

(** The code's indices are in range ([storm_in_range]). *)
Definition storm (i : Z) : Z := default 0 (STORM_BUFFER !! Z.to_nat i).

(** ** The hash of a name *)

(** Names are the same up to ASCII case and the direction of slashes. *)
Definition fold_char (b : Z) : Z := if b =? 47 then 92 else to_ascii_upper b.

Definition hash_step (hash_type : Z) (st : Z * Z) (b : Z) : Z * Z :=
  let '(seed1, seed2) := st in
  let ch := fold_char b in
  let val := storm (hash_type + ch) in
  let seed1 := Z.lxor val (wrap 32 (seed1 + seed2)) in
  let seed2 := wrap 32 (wrap 32 (wrap 32 (wrap 32 (ch + seed1) + seed2)
                                 + wrap 32 (Z.shiftl seed2 5)) + 3) in
  (seed1, seed2).

Definition hash_string (s : bytes) (hash_type : Z) : Z :=
  (foldl (hash_step hash_type) (2146271213, 4008636142) s).1.

(** ** The cipher *)

(** What both directions do for a word [ch] of the plain text: the next key and seed. *)
Definition next_key (key : Z) : Z :=
  Z.lor (wrap 32 (wrap 32 (Z.shiftl (2 ^ 32 - 1 - key) 21) + 286331153)) (Z.shiftr key 11).
Definition next_seed (ch seed : Z) : Z :=
  wrap 32 (wrap 32 (wrap 32 (ch + seed) + wrap 32 (Z.shiftl seed 5)) + 3).
(** The seed a word is masked with. *)
Definition mask_seed (key seed : Z) : Z := wrap 32 (seed + storm (1024 + Z.land key 255)).

Definition CIPHER_SEED : Z := 4008636142.

Fixpoint decrypt_words (data : list Z) (key seed : Z) : list Z :=
  match data with
  | [] => []
  | item :: data =>
    let seed := mask_seed key seed in
    let ch := Z.lxor item (wrap 32 (key + seed)) in
    ch :: decrypt_words data (next_key key) (next_seed ch seed)
  end.
Definition decrypt_u32 (data : list Z) (key : Z) : list Z := decrypt_words data key CIPHER_SEED.

(** [for i in 0..u32_count]; the bytes after the last whole word stay as they are. *)
Fixpoint decrypt_loop (u32_count : nat) (data : bytes) (key seed : Z) : bytes :=
  match u32_count with
  | O => data
  | S u32_count =>
    let seed := mask_seed key seed in
    let raw := le_val (take 4 data) in
    let ch := Z.lxor raw (wrap 32 (key + seed)) in
    le_bytes 4 ch ++ decrypt_loop u32_count (drop 4 data) (next_key key) (next_seed ch seed)
  end.
Definition decrypt_bytes (data : bytes) (key : Z) : bytes :=
  decrypt_loop (length data / 4) data key CIPHER_SEED.

(** ** The other direction

    What whoever writes an archive does: the word that is read back is masked, and its plain
    value goes into the seed. *)
Fixpoint encrypt_loop (u32_count : nat) (data : bytes) (key seed : Z) : bytes :=
  match u32_count with
  | O => data
  | S u32_count =>
    let seed := mask_seed key seed in
    let ch := le_val (take 4 data) in
    le_bytes 4 (Z.lxor ch (wrap 32 (key + seed)))
    ++ encrypt_loop u32_count (drop 4 data) (next_key key) (next_seed ch seed)
  end.
Definition encrypt_bytes (data : bytes) (key : Z) : bytes :=
  encrypt_loop (length data / 4) data key CIPHER_SEED.

(** The keys of the two tables, as everybody knows them. *)
Example hash_table_key : hash_string (str "(hash table)") HASH_FILE_KEY = 3283040112.
Proof. vm_compute. reflexivity. Qed.
Example block_table_key : hash_string (str "(block table)") HASH_FILE_KEY = 3968054179.
Proof. vm_compute. reflexivity. Qed.

(** ** Ranges *)

Lemma u32_bits x : 0 <= x → (∀ i, 32 <= i → Z.testbit x i = false) → u32 x.
Proof.
  intros Hx Hb. assert (x = wrap 32 x) as ->; [|by apply wrap_range].
  unfold wrap. apply Z.bits_inj'. intros i Hi. destruct (decide (i < 32)).
  - by rewrite Z.mod_pow2_bits_low.
  - rewrite Z.mod_pow2_bits_high, Hb by lia. done.
Qed.

Lemma u32_high x i : u32 x → 32 <= i → Z.testbit x i = false.
Proof.
  intros Hx Hi. rewrite <- (wrap_small 32 x) by done. unfold wrap. by rewrite Z.mod_pow2_bits_high by lia.
Qed.

Lemma u32_lxor x y : u32 x → u32 y → u32 (Z.lxor x y).
Proof.
  intros Hx Hy. apply u32_bits.
  - apply Z.lxor_nonneg. unfold uN in *. lia.
  - intros i Hi. by rewrite Z.lxor_spec, !u32_high.
Qed.

Lemma u32_wrap x : u32 (wrap 32 x).
Proof. by apply wrap_range. Qed.

Lemma lxor_cancel x m : Z.lxor (Z.lxor x m) m = x.
Proof. by rewrite Z.lxor_assoc, Z.lxor_nilpotent, Z.lxor_0_r. Qed.

Lemma storm_length : length STORM_BUFFER = TABLE_SIZE.
Proof. vm_compute. reflexivity. Qed.

Lemma storm_u32 i : u32 (storm i).
Proof.
  assert (forallb (λ x, (0 <=? x) && (x <? 2 ^ 32)) STORM_BUFFER = true) as H
    by (vm_compute; reflexivity).
  unfold storm. destruct (STORM_BUFFER !! Z.to_nat i) as [x|] eqn:E; [|done].
  rewrite forallb_forall in H. apply list_elem_of_lookup_2, list_elem_of_In, H in E.
  apply andb_true_iff in E as [E1%Z.leb_le E2%Z.ltb_lt]. by split.
Qed.

(** No index is out of the table: neither that of a character of a name under any of the
    four hashes, nor that of a word. *)
Lemma storm_in_range t b key :
  u8 b → 0 <= t <= HASH_FILE_KEY → 0 <= key →
  0 <= t + fold_char b < zlen STORM_BUFFER ∧ 0 <= 1024 + Z.land key 255 < zlen STORM_BUFFER.
Proof.
  unfold zlen. rewrite storm_length. unfold HASH_FILE_KEY, TABLE_SIZE, uN. intros Hb Ht Hk.
  assert (0 <= fold_char b < 256) as Hf.
  { unfold fold_char, to_ascii_upper. destruct (b =? 47); [lia|]. destruct (_ && _) eqn:E; lia. }
  change 255 with (Z.ones 8). rewrite Z.land_ones by lia.
  pose proof (Z.mod_pos_bound key (2 ^ 8)). lia.
Qed.

Lemma hash_step_u32 t st b : u32 st.1 → u32 (hash_step t st b).1.
Proof. destruct st as [s1 s2]. intros _. apply u32_lxor; [apply storm_u32|apply u32_wrap]. Qed.

Lemma hash_string_u32 s t : u32 (hash_string s t).
Proof.
  unfold hash_string. assert (u32 (2146271213, 4008636142).1) as H by done.
  revert H. generalize (2146271213, 4008636142). induction s as [|b s IH]; intros st H; [done|].
  cbn. by apply IH, hash_step_u32.
Qed.

(** ** Names are hashed up to case and slashes *)

Definition fold_name (s : bytes) : bytes := map fold_char s.

Lemma fold_char_idem b : fold_char (fold_char b) = fold_char b.
Proof.
  unfold fold_char, to_ascii_upper. destruct (Z.eqb_spec b 47) as [|Hn]; [done|].
  destruct ((97 <=? b) && (b <=? 122)) eqn:E.
  - assert ((97 <=? b - 32) = false) as -> by (apply Z.leb_gt; lia).
    by assert ((b - 32 =? 47) = false) as -> by (apply Z.eqb_neq; lia).
  - by rewrite (proj2 (Z.eqb_neq b 47) Hn), E.
Qed.

Lemma hash_string_fold s t : hash_string (fold_name s) t = hash_string s t.
Proof.
  unfold hash_string. f_equal. generalize (2146271213, 4008636142).
  induction s as [|b s IH]; intros [s1 s2]; [done|]. cbn [fold_name map foldl].
  rewrite <- IH. f_equal. unfold hash_step. by rewrite fold_char_idem.
Qed.

(** ** The cipher undone *)

Lemma encrypt_loop_length n data key seed :
  (4 * n <= length data)%nat → length (encrypt_loop n data key seed) = length data.
Proof.
  revert data key seed. induction n as [|n IH]; intros data key seed H; [done|].
  cbn [encrypt_loop]. rewrite length_app, length_le_bytes, IH; rewrite length_drop; lia.
Qed.

Lemma decrypt_loop_length n data key seed :
  (4 * n <= length data)%nat → length (decrypt_loop n data key seed) = length data.
Proof.
  revert data key seed. induction n as [|n IH]; intros data key seed H; [done|].
  cbn [decrypt_loop]. rewrite length_app, length_le_bytes, IH; rewrite length_drop; lia.
Qed.

Lemma words_fit {A} (data : list A) : (4 * (length data / 4) <= length data)%nat.
Proof. pose proof (Nat.div_mod_eq (length data) 4). lia. Qed.

Lemma word_u32 data : Forall u8 data → (4 <= length data)%nat → u32 (le_val (take 4 data)).
Proof.
  intros Hu Hl. pose proof (le_val_bound (take 4 data) (Forall_take _ 4 _ Hu)) as H.
  unfold zlen in H. rewrite length_take, Nat.min_l in H by lia. exact H.
Qed.

Lemma word_bytes data : Forall u8 data → (4 <= length data)%nat → le_bytes 4 (le_val (take 4 data)) = take 4 data.
Proof.
  intros Hu Hl. rewrite <- (le_bytes_le_val (take 4 data)) at 2 by by apply Forall_take.
  by rewrite length_take, Nat.min_l by lia.
Qed.

Lemma decrypt_encrypt_loop n data key seed :
  Forall u8 data → (4 * n <= length data)%nat →
  decrypt_loop n (encrypt_loop n data key seed) key seed = data.
Proof.
  revert data key seed. induction n as [|n IH]; intros data key seed Hu Hl; [done|].
  pose proof (word_u32 data Hu ltac:(lia)) as Hw.
  cbn [encrypt_loop decrypt_loop].
  rewrite take_app_length', drop_app_length' by by rewrite length_le_bytes.
  rewrite le_val_round4 by (apply u32_lxor; [done|apply u32_wrap]).
  rewrite lxor_cancel, IH, word_bytes by (try apply Forall_drop; rewrite ?length_drop; done || lia).
  apply take_drop.
Qed.

Lemma encrypt_decrypt_loop n data key seed :
  Forall u8 data → (4 * n <= length data)%nat →
  encrypt_loop n (decrypt_loop n data key seed) key seed = data.
Proof.
  revert data key seed. induction n as [|n IH]; intros data key seed Hu Hl; [done|].
  pose proof (word_u32 data Hu ltac:(lia)) as Hw.
  cbn [encrypt_loop decrypt_loop].
  rewrite take_app_length', drop_app_length' by by rewrite length_le_bytes.
  rewrite le_val_round4 by (apply u32_lxor; [done|apply u32_wrap]).
  rewrite lxor_cancel, IH, word_bytes by (try apply Forall_drop; rewrite ?length_drop; done || lia).
  apply take_drop.
Qed.

Lemma decrypt_bytes_length data key : length (decrypt_bytes data key) = length data.
Proof. apply decrypt_loop_length, words_fit. Qed.
Lemma encrypt_bytes_length data key : length (encrypt_bytes data key) = length data.
Proof. apply encrypt_loop_length, words_fit. Qed.

Lemma decrypt_encrypt data key : Forall u8 data → decrypt_bytes (encrypt_bytes data key) key = data.
Proof.
  intros Hu. unfold decrypt_bytes. rewrite encrypt_bytes_length. by apply decrypt_encrypt_loop, words_fit.
Qed.
Lemma encrypt_decrypt data key : Forall u8 data → encrypt_bytes (decrypt_bytes data key) key = data.
Proof.
  intros Hu. unfold encrypt_bytes. rewrite decrypt_bytes_length. by apply encrypt_decrypt_loop, words_fit.
Qed.

Lemma decrypt_loop_u8 n data key seed : Forall u8 data → Forall u8 (decrypt_loop n data key seed).
Proof.
  revert data key seed. induction n as [|n IH]; intros data key seed H; [done|].
  cbn [decrypt_loop]. apply Forall_app. split; [apply le_bytes_u8|by apply IH, Forall_drop].
Qed.
Lemma decrypt_bytes_u8 data key : Forall u8 data → Forall u8 (decrypt_bytes data key).
Proof. apply decrypt_loop_u8. Qed.

(** The two readers of the code are one cipher. *)
Lemma decrypt_loop_words ws tail key seed :
  Forall u32 ws →
  decrypt_loop (length ws) (concat (map (le_bytes 4) ws) ++ tail) key seed
  = concat (map (le_bytes 4) (decrypt_words ws key seed)) ++ tail.
Proof.
  intros H. revert key seed. induction H as [|w ws Hw _ IH]; intros key seed; [done|].
  cbn [length decrypt_loop map concat decrypt_words]. rewrite <- !app_assoc.
  rewrite take_app_length', drop_app_length' by by rewrite length_le_bytes.
  by rewrite le_val_round4, IH.
Qed.

(** The cipher of an archive is a bijection on byte strings of every length, for every
    key: what was encrypted with a key is read back, no two texts decrypt to the same, and
    the lengths agree; on whole words it is the word cipher [decrypt_u32]. *)
Theorem cipher_roundtrip data key :
  Forall u8 data →
  decrypt_bytes (encrypt_bytes data key) key = data ∧
  encrypt_bytes (decrypt_bytes data key) key = data ∧
  length (decrypt_bytes data key) = length data ∧ Forall u8 (decrypt_bytes data key) ∧
  ∀ ws tail, Forall u32 ws → (length tail < 4)%nat → data = concat (map (le_bytes 4) ws) ++ tail →
    decrypt_bytes data key = concat (map (le_bytes 4) (decrypt_u32 ws key)) ++ tail.
Proof.
  intros Hu. split; [by apply decrypt_encrypt|]. split; [by apply encrypt_decrypt|].
  split; [apply decrypt_bytes_length|]. split; [by apply decrypt_bytes_u8|].
  intros ws tail Hw Ht ->. unfold decrypt_bytes, decrypt_u32.
  assert (length (concat (map (le_bytes 4) ws)) = 4 * length ws)%nat as Hl.
  { clear. induction ws as [|w ws IH]; [done|]. cbn [map concat]. rewrite length_app, length_le_bytes, IH.
    simpl. lia. }
  rewrite length_app, Hl, (Nat.add_comm (4 * _)), (Nat.mul_comm 4), Nat.div_add, Nat.div_small by lia.
  by apply decrypt_loop_words.
Qed.

Lemma cipher_roundtrip_witness :
  decrypt_bytes (encrypt_bytes (str "war3map.j") 42) 42 = str "war3map.j" ∧
  decrypt_bytes (str "war3map.j") 42 ≠ str "war3map.j".
Proof.
  split; [|vm_compute; discriminate].
  apply (cipher_roundtrip (str "war3map.j") 42). apply (bool_decide_unpack _). vm_compute. reflexivity.
Defined.
