(* ===== verification/MpqTables.v ===== *)
(** The header and the two tables of an MPQ archive (spectre-mpq, src/header.rs,
    src/hash_table.rs, src/block_table.rs, src/error.rs).

    [usize] has 64 bits.  A function that takes slices of a file returns an option: [None]
    is a panic, an index out of range. *)
From S2P Require Import Prelude Utf8 MpqCrypt.

(** [MpqError]; what the text of a failure says is not modelled. *)
Inductive MpqError :=
| HeaderNotFound
| CorruptedHeader
| CorruptedHashTable
| CorruptedBlockTable
| FileNotFound (name : bytes)
| DecompressionFailed
| InvalidSectorTable
| UnsupportedCompression (method : Z)
| UnexpectedEof (expected got : Z).

(** The little-endian number in [n] bytes of a block at [i]. *)
Definition field (block : bytes) (i n : nat) : Z := le_val (take n (drop i block)).

(** ** The header *)

Definition ID_MPQ_ARCHIVE : bytes := [77; 80; 81; 26].
Definition ID_MPQ_USER_DATA : bytes := [77; 80; 81; 27].
Definition HEADER_SIZE_V1 : Z := 32.

Record MpqHeader := mkHeader {
  archive_offset : Z; header_size : Z; archive_size : Z; format_version : Z;
  sector_size_shift : Z; sector_size : Z; hash_table_offset : Z; block_table_offset : Z;
  hash_table_count : Z; block_table_count : Z }.

(** [512usize << shift]: the processor takes the shift modulo 64. *)
Definition sector_size_of (shift : Z) : Z := wrap 64 (Z.shiftl 512 (shift mod 64)).

Definition parse_at (data : bytes) (archive_offset header_offset : Z)
  : option (result MpqError MpqHeader) :=
  if zlen data <? header_offset + HEADER_SIZE_V1 then Some (Err CorruptedHeader) else
  s ← slice data header_offset (header_offset + HEADER_SIZE_V1);
  Some (Ok (mkHeader archive_offset (field s 4 4) (field s 8 4) (field s 12 2) (field s 14 2)
    (sector_size_of (field s 14 2)) (archive_offset + field s 16 4) (archive_offset + field s 20 4)
    (field s 24 4) (field s 28 4))).

(** What the first loop does at one offset: [Some r] when it answers there. *)
Definition locate_at (data : bytes) (offset : Z) : option (option (result MpqError MpqHeader)) :=
  sig ← slice data offset (offset + 4);
  if bytes_eqb sig ID_MPQ_ARCHIVE then Some <$> parse_at data offset offset
  else if bytes_eqb sig ID_MPQ_USER_DATA && (offset + 16 <=? zlen data) then
    user ← slice data offset (offset + 16);
    let target_offset := offset + field user 8 4 in
    if target_offset + HEADER_SIZE_V1 <=? zlen data then
      sig ← slice data target_offset (target_offset + 4);
      if bytes_eqb sig ID_MPQ_ARCHIVE then Some <$> parse_at data offset target_offset
      else Some None
    else Some None
  else Some None.

(** [while offset + HEADER_SIZE_V1 <= len { ..; offset += 512; }] *)
Fixpoint locate_grid (fuel : nat) (data : bytes) (offset : Z)
  : option (option (result MpqError MpqHeader)) :=
  if offset + HEADER_SIZE_V1 <=? zlen data then
    match fuel with
    | O => None
    | S fuel =>
      found ← locate_at data offset;
      match found with
      | Some r => Some (Some r)
      | None => locate_grid fuel data (offset + 512)
      end
    end
  else Some None.

(** [for i in 0..n], from [i] on. *)
Fixpoint locate_bytewise (n : nat) (data : bytes) (i : Z) : option (result MpqError MpqHeader) :=
  match n with
  | O => Some (Err HeaderNotFound)
  | S n =>
    sig ← slice data i (i + 4);
    if bytes_eqb sig ID_MPQ_ARCHIVE then parse_at data i i else locate_bytewise n data (i + 1)
  end.

Definition locate (data : bytes) : option (result MpqError MpqHeader) :=
  if zlen data <? HEADER_SIZE_V1 then Some (Err HeaderNotFound) else
  found ← locate_grid (length data) data 0;
  match found with
  | Some r => Some r
  | None => locate_bytewise (Z.to_nat (sat_sub (zlen data) HEADER_SIZE_V1)) data 0
  end.

(** ** The hash table *)

Definition HASH_ENTRY_EMPTY : Z := 2 ^ 32 - 1.
Definition HASH_ENTRY_DELETED : Z := 2 ^ 32 - 2.
Definition HASH_ENTRY_SIZE : Z := 16.

Record MpqHashEntry := mkHashEntry {
  hash_a : Z; hash_b : Z; locale : Z; platform : Z; block_index : Z }.
Abbreviation MpqHashTable := (list MpqHashEntry).

Definition hash_entry (chunk : bytes) : MpqHashEntry :=
  mkHashEntry (field chunk 0 4) (field chunk 4 4) (field chunk 8 2) (field chunk 10 2) (field chunk 12 4).

Definition parse_hash_table (data : bytes) (count : Z) : option (result MpqError MpqHashTable) :=
  let expected_bytes := count * HASH_ENTRY_SIZE in
  if zlen data <? expected_bytes then Some (Err CorruptedHashTable) else
  s ← slice data 0 expected_bytes;
  let decrypted := decrypt_bytes s (hash_string (str "(hash table)") HASH_FILE_KEY) in
  Some (Ok (map hash_entry (chunks 16 decrypted))).

(** The slot a search looks at in its [i]-th turn. *)
Definition probe (count start_index i : nat) : nat := ((start_index + i) mod count)%nat.

(** [for i in 0..count], the last [n] turns of it. *)
Fixpoint find_loop (n i : nat) (entries : MpqHashTable) (start_index : nat) (a b : Z) : option Z :=
  match n with
  | O => None
  | S n =>
    match entries !! probe (length entries) start_index i with
    | None => None
    | Some entry =>
      if block_index entry =? HASH_ENTRY_EMPTY then None
      else if negb (block_index entry =? HASH_ENTRY_DELETED) && (hash_a entry =? a) && (hash_b entry =? b)
      then Some (block_index entry)
      else find_loop n (S i) entries start_index a b
    end
  end.

Definition start_of (count : nat) (filename : bytes) : nat :=
  Z.to_nat (Z.land (hash_string filename HASH_TABLE_OFFSET) (Z.of_nat count - 1)).

Definition find_block_index (filename : bytes) (entries : MpqHashTable) : option Z :=
  let count := length entries in
  if (count =? 0)%nat then None
  else find_loop count 0 entries (start_of count filename)
         (hash_string filename HASH_NAME_A) (hash_string filename HASH_NAME_B).

(** ** The block table *)

Definition FILE_IMPLODE : Z := 256.
Definition FILE_COMPRESS : Z := 512.
Definition FILE_ENCRYPTED : Z := 65536.
Definition FILE_FIX_KEY : Z := 131072.
Definition FILE_PATCH_FILE : Z := 1048576.
Definition FILE_SINGLE_UNIT : Z := 16777216.

Record MpqBlockEntry := mkBlockEntry {
  file_pos : Z; compressed_size : Z; file_size : Z; flags : Z }.
Abbreviation MpqBlockTable := (list MpqBlockEntry).

Definition has_flag (e : MpqBlockEntry) (f : Z) : bool := negb (Z.land (flags e) f =? 0).
Definition is_encrypted (e : MpqBlockEntry) : bool := has_flag e FILE_ENCRYPTED.
Definition has_fixed_key (e : MpqBlockEntry) : bool := has_flag e FILE_FIX_KEY.
Definition is_compressed (e : MpqBlockEntry) : bool := has_flag e FILE_COMPRESS.
Definition is_imploded (e : MpqBlockEntry) : bool := has_flag e FILE_IMPLODE.
Definition is_single_unit (e : MpqBlockEntry) : bool := has_flag e FILE_SINGLE_UNIT.

Definition BLOCK_ENTRY_SIZE : Z := 16.

Definition block_entry (chunk : bytes) : MpqBlockEntry :=
  mkBlockEntry (field chunk 0 4) (field chunk 4 4) (field chunk 8 4) (field chunk 12 4).

Definition parse_block_table (data : bytes) (count : Z) : option (result MpqError MpqBlockTable) :=
  let expected_bytes := count * BLOCK_ENTRY_SIZE in
  if zlen data <? expected_bytes then Some (Err CorruptedBlockTable) else
  s ← slice data 0 expected_bytes;
  let decrypted := decrypt_bytes s (hash_string (str "(block table)") HASH_FILE_KEY) in
  Some (Ok (map block_entry (chunks 16 decrypted))).

Definition block_at (index : Z) (t : MpqBlockTable) : option MpqBlockEntry := t !! Z.to_nat index.

(** ** Slices stay within the file *)

Lemma field_range block i n : Forall u8 block → 0 <= field block i n < 256 ^ Z.of_nat n.
Proof.
  intros Hu. unfold field. pose proof (le_val_bound (take n (drop i block))) as H.
  assert (zlen (take n (drop i block)) <= Z.of_nat n) as Hl by (unfold zlen; rewrite length_take; lia).
  specialize (H (Forall_take _ n _ (Forall_drop _ i _ Hu))).
  pose proof (Z.pow_le_mono_r 256 (zlen (take n (drop i block))) (Z.of_nat n)). lia.
Qed.

(** What a header promises whoever reads it. *)
Record header_wf (data : bytes) (h : MpqHeader) : Prop := {
  hw_archive : 0 <= archive_offset h < zlen data;
  hw_hash : archive_offset h <= hash_table_offset h < zlen data + 2 ^ 32;
  hw_block : archive_offset h <= block_table_offset h < zlen data + 2 ^ 32;
  hw_hash_count : u32 (hash_table_count h);
  hw_block_count : u32 (block_table_count h);
  hw_sector : u64 (sector_size h) }.

(** A header, or an error; never a panic. *)
Definition located (data : bytes) (o : option (result MpqError MpqHeader)) : Prop :=
  ∃ r, o = Some r ∧ ∀ h, r = Ok h → header_wf data h.

Lemma parse_at_located data a t :
  Forall u8 data → 0 <= a <= t → a < zlen data → located data (parse_at data a t).
Proof.
  intros Hu Ha Hlt. unfold parse_at, HEADER_SIZE_V1. destruct (Z.ltb_spec (zlen data) (t + 32)).
  { by eexists. }
  destruct (slice_ok data t (t + 32)) as (s & Hs & _); [lia..|]. rewrite Hs. cbn [mbind option_bind].
  eexists. split; [done|]. intros h [= <-].
  pose proof (λ i n, field_range s i n (slice_u8 _ _ _ _ Hu Hs)) as Hf.
  split; cbn; try lia; try (pose proof (Hf 16%nat 4%nat); lia); try (pose proof (Hf 20%nat 4%nat); lia).
  - apply (Hf 24%nat 4%nat).
  - apply (Hf 28%nat 4%nat).
  - by apply wrap_range.
Qed.

Lemma located_Some data o :
  located data o → ∃ r, Some <$> o = Some (Some r) ∧ ∀ h, r = Ok h → header_wf data h.
Proof. intros (r & -> & H). by exists r. Qed.

Lemma locate_at_located data offset :
  Forall u8 data → 0 <= offset → offset + 32 <= zlen data →
  ∃ o, locate_at data offset = Some o ∧ ∀ r h, o = Some r → r = Ok h → header_wf data h.
Proof.
  intros Hu Ho Hl. unfold locate_at, HEADER_SIZE_V1.
  destruct (slice_ok data offset (offset + 4)) as (sig & -> & _); [lia..|]. cbn [mbind option_bind].
  destruct (bytes_eqb sig ID_MPQ_ARCHIVE).
  { destruct (located_Some data (parse_at data offset offset)) as (r & -> & H);
      [apply parse_at_located; lia || done|]. exists (Some r). split; [done|]. intros ? h [= <-]. apply H. }
  destruct (_ && _); [|by eexists].
  destruct (slice_ok data offset (offset + 16)) as (user & Hs & _); [lia..|]. rewrite Hs. cbn [mbind option_bind].
  pose proof (field_range user 8 4 (slice_u8 _ _ _ _ Hu Hs)).
  destruct (Z.leb_spec (offset + field user 8 4 + 32) (zlen data)); [|by eexists].
  destruct (slice_ok data (offset + field user 8 4) (offset + field user 8 4 + 4)) as (sig' & -> & _); [lia..|].
  cbn [mbind option_bind]. destruct (bytes_eqb sig' _); [|by eexists].
  destruct (located_Some data (parse_at data offset (offset + field user 8 4))) as (r & -> & Hr);
    [apply parse_at_located; lia || done|]. exists (Some r). split; [done|]. intros ? h [= <-]. apply Hr.
Qed.

Lemma locate_grid_located fuel data offset :
  Forall u8 data → 0 <= offset → zlen data - offset < Z.of_nat fuel + 32 →
  ∃ o, locate_grid fuel data offset = Some o ∧ ∀ r h, o = Some r → r = Ok h → header_wf data h.
Proof.
  intros Hu. revert offset. induction fuel as [|fuel IH]; intros offset Ho Hf; cbn [locate_grid];
    unfold HEADER_SIZE_V1 in *; (destruct (Z.leb_spec (offset + 32) (zlen data)); [|by eexists]); [lia|].
  destruct (locate_at_located data offset) as (o & -> & H1); [done|lia..|]. cbn [mbind option_bind].
  destruct o as [r|]; [by eexists|]. apply IH; lia.
Qed.

Lemma locate_bytewise_located n data i :
  Forall u8 data → 0 <= i → i + Z.of_nat n + 32 <= zlen data → located data (locate_bytewise n data i).
Proof.
  intros Hu. revert i. induction n as [|n IH]; intros i Hi Hl; cbn [locate_bytewise]; [by eexists|].
  destruct (slice_ok data i (i + 4)) as (sig & -> & _); [lia..|]. cbn [mbind option_bind].
  destruct (bytes_eqb sig _); [apply parse_at_located; lia || done|]. apply IH; lia.
Qed.

Lemma locate_located data : Forall u8 data → located data (locate data).
Proof.
  intros Hu. unfold locate, HEADER_SIZE_V1. destruct (Z.ltb_spec (zlen data) 32); [by eexists|].
  destruct (locate_grid_located (length data) data 0) as (o & -> & H1); [done|lia|unfold zlen; lia|].
  cbn [mbind option_bind]. destruct o as [r|]; [eexists; split; [done|]; intros h; by apply H1|].
  apply locate_bytewise_located; [done|lia|]. unfold sat_sub. lia.
Qed.

(** *** The tables *)

Lemma chunks_exact (l : bytes) k n : (0 < k)%nat → length l = (k * n)%nat → length (chunks k l) = n.
Proof.
  intros Hk. revert l. induction n as [|n IH]; intros l Hl.
  - destruct l; [done|]. simpl in Hl. lia.
  - assert (l ≠ []) by (intros ->; simpl in Hl; lia).
    rewrite chunks_cons by done. cbn [length]. f_equal. apply IH. rewrite length_drop. lia.
Qed.

Lemma chunks_u8 (l : bytes) n : Forall u8 l → Forall (Forall u8) (chunks n l).
Proof.
  intros Hu. unfold chunks. generalize (length l). intros fuel. revert l Hu.
  induction fuel as [|fuel IH]; intros l Hu; [by destruct l|]. destruct l as [|x l]; [done|].
  cbn [chunks_fuel]. constructor; [by apply Forall_take|]. by apply IH, Forall_drop.
Qed.

Lemma parse_hash_table_ok data count :
  0 <= count → zlen data = count * 16 →
  ∃ t, parse_hash_table data count = Some (Ok t) ∧ length t = Z.to_nat count.
Proof.
  intros Hc Hl. unfold parse_hash_table, HASH_ENTRY_SIZE.
  destruct (Z.ltb_spec (zlen data) (count * 16)); [lia|].
  destruct (slice_ok data 0 (count * 16)) as (s & -> & Hs); [lia..|]. cbn [mbind option_bind].
  eexists. split; [done|]. rewrite length_map.
  apply chunks_exact; [lia|]. rewrite decrypt_bytes_length. unfold zlen in Hs. lia.
Qed.

(** A block of the table names a range of bytes. *)
Definition block_wf (e : MpqBlockEntry) : Prop :=
  u32 (file_pos e) ∧ u32 (compressed_size e) ∧ u32 (file_size e) ∧ u32 (flags e).

Lemma parse_block_table_ok data count :
  Forall u8 data → 0 <= count → zlen data = count * 16 →
  ∃ t, parse_block_table data count = Some (Ok t) ∧ length t = Z.to_nat count ∧ Forall block_wf t.
Proof.
  intros Hu Hc Hl. unfold parse_block_table, BLOCK_ENTRY_SIZE.
  destruct (Z.ltb_spec (zlen data) (count * 16)); [lia|].
  destruct (slice_ok data 0 (count * 16)) as (s & Hs & Hn); [lia..|]. rewrite Hs. cbn [mbind option_bind].
  eexists. split; [done|]. split.
  - rewrite length_map. apply chunks_exact; [lia|]. rewrite decrypt_bytes_length. unfold zlen in Hn. lia.
  - apply Forall_map. eapply Forall_impl; [eapply chunks_u8, decrypt_bytes_u8, slice_u8; done|].
    intros c Hcu. pose proof (λ i n, field_range c i n Hcu) as Hf.
    split_and!; [apply (Hf 0%nat 4%nat)|apply (Hf 4%nat 4%nat)|apply (Hf 8%nat 4%nat)|apply (Hf 12%nat 4%nat)].
Qed.

(** ** The hash table is a map from names

    What the writers of archives do to a table, and the map of the names they added: a file
    goes into the first free slot of its probe sequence, and a file that is removed leaves a
    mark behind. *)
Definition is_live (e : MpqHashEntry) : bool :=
  negb (block_index e =? HASH_ENTRY_EMPTY) && negb (block_index e =? HASH_ENTRY_DELETED).
Definition name_key (nm : bytes) : Z * Z := (hash_string nm HASH_NAME_A, hash_string nm HASH_NAME_B).
Definition entry_key (e : MpqHashEntry) : Z * Z := (hash_a e, hash_b e).
Definition slot_of (t : MpqHashTable) (nm : bytes) (d : nat) : nat := probe (length t) (start_of (length t) nm) d.

(** The first slot in the probe sequence of [nm], at distance [d], that is not in use. *)
Definition first_free (t : MpqHashTable) (nm : bytes) (d : nat) : Prop :=
  (d < length t)%nat ∧
  (∃ e, t !! slot_of t nm d = Some e ∧ is_live e = false) ∧
  ∀ d', (d' < d)%nat → ∃ e, t !! slot_of t nm d' = Some e ∧ is_live e = true.

(** No other name of the map has the same pair of hashes. *)
Definition no_collision (m : gmap bytes Z) (nm : bytes) : Prop :=
  ∀ nm' b, m !! nm' = Some b → name_key nm' = name_key nm → nm' = nm.

Inductive built : MpqHashTable → gmap bytes Z → Prop :=
| built_empty n e : block_index e = HASH_ENTRY_EMPTY → built (replicate n e) ∅
| built_add t m nm d b loc plat :
    built t m → fold_name nm = nm → m !! nm = None → no_collision m nm → first_free t nm d →
    b < HASH_ENTRY_DELETED →
    built (<[slot_of t nm d := mkHashEntry (name_key nm).1 (name_key nm).2 loc plat b]> t)
          (<[nm := b]> m)
| built_remove t m nm i e e' :
    built t m → m !! nm = Some (block_index e) → t !! i = Some e → entry_key e = name_key nm →
    is_live e = true → block_index e' = HASH_ENTRY_DELETED →
    built (<[i := e']> t) (delete nm m).

(** The names of a map are folded, and no two collide. *)
Record table_inv (t : MpqHashTable) (m : gmap bytes Z) : Prop := {
  ti_live : ∀ i e, t !! i = Some e → is_live e = true →
    ∃ nm, m !! nm = Some (block_index e) ∧ entry_key e = name_key nm;
  ti_found : ∀ nm b, m !! nm = Some b →
    ∃ d e, (d < length t)%nat ∧ t !! slot_of t nm d = Some e ∧ is_live e = true ∧
      entry_key e = name_key nm ∧ block_index e = b ∧
      ∀ d', (d' < d)%nat → ∃ e', t !! slot_of t nm d' = Some e' ∧ block_index e' ≠ HASH_ENTRY_EMPTY;
  ti_once : ∀ i j e e', t !! i = Some e → t !! j = Some e' → is_live e = true → is_live e' = true →
    entry_key e = entry_key e' → i = j;
  ti_names : ∀ nm nm' b b', m !! nm = Some b → m !! nm' = Some b' → name_key nm = name_key nm' → nm = nm';
  ti_folded : ∀ nm b, m !! nm = Some b → fold_name nm = nm }.

Lemma probe_lt n s i : (0 < n)%nat → (probe n s i < n)%nat.
Proof. intros. apply Nat.mod_upper_bound. lia. Qed.

Lemma probe_inj n s d d' : (d < n)%nat → (d' < n)%nat → probe n s d = probe n s d' → d = d'.
Proof.
  unfold probe. intros H H' E.
  pose proof (Nat.div_mod_eq (s + d) n). pose proof (Nat.div_mod_eq (s + d') n).
  rewrite E in *. assert ((s + d) / n = (s + d') / n)%nat; nia.
Qed.

Lemma slot_of_insert t i e nm d : slot_of (<[i := e]> t) nm d = slot_of t nm d.
Proof. unfold slot_of. by rewrite length_insert. Qed.

Lemma live_not_empty e : is_live e = true → block_index e ≠ HASH_ENTRY_EMPTY.
Proof. unfold is_live. intros [H _]%andb_true_iff E. by rewrite E in H. Qed.

Lemma live_entry a b loc plat blk :
  blk < HASH_ENTRY_DELETED → is_live (mkHashEntry a b loc plat blk) = true.
Proof.
  unfold HASH_ENTRY_DELETED. intros. unfold is_live, HASH_ENTRY_DELETED, HASH_ENTRY_EMPTY. cbn.
  apply andb_true_iff. split; apply negb_true_iff, Z.eqb_neq; lia.
Qed.

(** The slots of a probe sequence that are in use stay so in a table where one slot, [i],
    holds an entry that is not empty. *)
Lemma walk_insert t i e nm d :
  block_index e ≠ HASH_ENTRY_EMPTY → (i < length t)%nat →
  (∀ d', (d' < d)%nat → ∃ e', t !! slot_of t nm d' = Some e' ∧ block_index e' ≠ HASH_ENTRY_EMPTY) →
  ∀ d', (d' < d)%nat → ∃ e', <[i := e]> t !! slot_of t nm d' = Some e' ∧ block_index e' ≠ HASH_ENTRY_EMPTY.
Proof.
  intros He Hi Hw d' Hd. destruct (decide (i = slot_of t nm d')) as [<-|].
  - exists e. by rewrite list_lookup_insert_eq.
  - rewrite list_lookup_insert_ne by done. by apply Hw.
Qed.

Lemma built_inv t m : built t m → table_inv t m.
Proof.
  induction 1 as [n e He|t m nm d b loc plat _ IH Hfold Hnew Hcol (Hd & (e0 & H0 & Hl0) & Hbusy) Hb
    |t m nm i e e' _ IH Hm Hi Hk Hl He'].
  - split.
    + intros i e' [-> _]%lookup_replicate Hl. apply live_not_empty in Hl. by destruct Hl.
    + by intros nm b; rewrite lookup_empty.
    + intros i j e1 e2 [-> _]%lookup_replicate _ Hl. apply live_not_empty in Hl. by destruct Hl.
    + by intros nm nm' b b'; rewrite lookup_empty.
    + by intros nm b; rewrite lookup_empty.
  - destruct IH as [Hlive Hfound Honce Hnames Hfolded].
    set (new := mkHashEntry (name_key nm).1 (name_key nm).2 loc plat b).
    assert (is_live new = true) as Hln by by apply live_entry.
    assert (entry_key new = name_key nm) as Hkn by done.
    pose proof (lookup_lt_Some _ _ _ H0) as Hlt.
    assert (∀ i e, <[slot_of t nm d := new]> t !! i = Some e →
      i = slot_of t nm d ∧ e = new ∨ i ≠ slot_of t nm d ∧ t !! i = Some e) as Hins.
    { intros i e Hi. destruct (decide (i = slot_of t nm d)) as [->|].
      - rewrite list_lookup_insert_eq in Hi by done. left. split; congruence.
      - rewrite list_lookup_insert_ne in Hi by done. by right. }
    assert (∀ i e, t !! i = Some e → is_live e = true → entry_key e ≠ name_key nm) as Hother.
    { intros i e Hi Hl E. destruct (Hlive i e Hi Hl) as (nm' & Hm' & Hk').
      assert (nm' = nm) by (eapply Hcol; [done|congruence]). congruence. }
    split.
    + intros i e [[-> ->]|[Hne Hi]]%Hins Hl; [exists nm; by rewrite lookup_insert_eq|].
      destruct (Hlive i e Hi Hl) as (nm' & Hm' & Hk'). exists nm'. split; [|done].
      rewrite lookup_insert_ne; [done|congruence].
    + intros nm' b' Hm'. setoid_rewrite length_insert. setoid_rewrite slot_of_insert.
      destruct (decide (nm' = nm)) as [->|Hne].
      * rewrite lookup_insert_eq in Hm'. injection Hm' as <-. exists d, new.
        rewrite list_lookup_insert_eq by done. split_and!; [done..|].
        apply walk_insert; [by apply live_not_empty|done|]. intros d' Hd'.
        destruct (Hbusy d' Hd') as (e' & He' & Hl'). exists e'. split; [done|by apply live_not_empty].
      * rewrite lookup_insert_ne in Hm' by done.
        destruct (Hfound nm' b' Hm') as (d1 & e1 & Hd1 & H1 & Hl1 & Hk1 & Hb1 & Hw1). exists d1, e1.
        split; [done|]. split.
        { rewrite list_lookup_insert_ne; [done|]. intros E. rewrite E in H0. congruence. }
        split_and!; [done..|]. apply walk_insert; [by apply live_not_empty|done|done].
    + intros i j e e' [[-> ->]|[Hi' Hi]]%Hins [[-> ->]|[Hj' Hj]]%Hins Hl Hl' E; try done.
      * destruct (Hother j e' Hj Hl'). congruence.
      * destruct (Hother i e Hi Hl). congruence.
      * by eapply Honce.
    + intros n1 n2 b1 b2. rewrite !lookup_insert_Some.
      intros [[<- _]|[N1 M1]] [[<- _]|[N2 M2]] E; [done| | |by eapply Hnames].
      * symmetry. eapply Hcol; [exact M2|done].
      * by eapply Hcol.
    + intros n1 b1. rewrite lookup_insert_Some. intros [[<- _]|[_ H1]]; [done|by eapply Hfolded].
  - destruct IH as [Hlive Hfound Honce Hnames Hfolded].
    pose proof (lookup_lt_Some _ _ _ Hi) as Hlt.
    assert (is_live e' = false) as Hl' by (unfold is_live; rewrite He'; by rewrite andb_false_r).
    assert (∀ j x, <[i := e']> t !! j = Some x → is_live x = true → j ≠ i ∧ t !! j = Some x) as Hins.
    { intros j x Hj Hx. destruct (decide (j = i)) as [->|].
      - rewrite list_lookup_insert_eq in Hj by done. congruence.
      - by rewrite list_lookup_insert_ne in Hj. }
    split.
    + intros j x Hj Hx. destruct (Hins j x Hj Hx) as [Hne Hj'].
      destruct (Hlive j x Hj' Hx) as (nm' & Hm' & Hk'). exists nm'. split; [|done].
      rewrite lookup_delete_ne; [done|]. intros <-. destruct Hne.
      apply (Honce j i x e); [done..|congruence].
    + intros nm' b' [Hne Hm']%lookup_delete_Some. setoid_rewrite length_insert.
      setoid_rewrite slot_of_insert.
      destruct (Hfound nm' b' Hm') as (d1 & e1 & Hd1 & H1 & Hl1 & Hk1 & Hb1 & Hw1). exists d1, e1.
      split; [done|]. split.
      { rewrite list_lookup_insert_ne; [done|]. intros ->.
        assert (e1 = e) as -> by congruence. apply Hne. eapply Hnames; [done..|congruence]. }
      split_and!; [done..|]. apply walk_insert; [by rewrite He'|done|done].
    + intros j k x y Hj Hk' Hx Hy E. destruct (Hins j x Hj Hx), (Hins k y Hk' Hy). by eapply Honce.
    + intros n1 n2 b1 b2 [_ H1]%lookup_delete_Some [_ H2]%lookup_delete_Some. by eapply Hnames.
    + intros n1 b1 [_ H1]%lookup_delete_Some. by eapply Hfolded.
Qed.

Lemma find_loop_map t m nm n i :
  table_inv t m → no_collision m nm → (i + n = length t)%nat →
  (∀ d, (d < i)%nat → ∀ e, t !! slot_of t nm d = Some e → is_live e = true → entry_key e ≠ name_key nm) →
  find_loop n i t (start_of (length t) nm) (hash_string nm HASH_NAME_A) (hash_string nm HASH_NAME_B)
  = m !! nm.
Proof.
  intros [Hlive Hfound Honce _ _] Hcol. revert i. induction n as [|n IH]; intros i Hn Hpast.
  - cbn. destruct (m !! nm) as [b|] eqn:Hm; [|done].
    destruct (Hfound nm b Hm) as (d & e & Hd & He & Hl & Hk & _). destruct (Hpast d ltac:(lia) e He Hl Hk).
  - cbn [find_loop]. change (probe (length t) (start_of (length t) nm) i) with (slot_of t nm i).
    destruct (lookup_lt_is_Some_2 t (slot_of t nm i)) as [e He]; [apply probe_lt; lia|]. rewrite He.
    destruct (Z.eqb_spec (block_index e) HASH_ENTRY_EMPTY) as [Hemp|Hemp].
    { destruct (m !! nm) as [b|] eqn:Hm; [|done].
      destruct (Hfound nm b Hm) as (d & e1 & Hd & He1 & Hl & Hk & _ & Hw).
      destruct (decide (d < i)%nat) as [Hlt|]; [destruct (Hpast d Hlt e1 He1 Hl Hk)|].
      destruct (decide (d = i)) as [->|].
      - assert (e1 = e) as -> by congruence. by apply live_not_empty in Hl.
      - destruct (Hw i ltac:(lia)) as (e2 & He2 & Hne). congruence. }
    destruct (Z.eqb_spec (block_index e) HASH_ENTRY_DELETED) as [Hdel|Hdel];
      [|destruct (decide (entry_key e = name_key nm)) as [Hk|Hk]].
    + cbn [negb andb]. apply IH; [lia|]. intros d Hd e1 He1 Hl.
      destruct (decide (d = i)) as [->|]; [|exact (Hpast d ltac:(lia) e1 He1 Hl)].
      assert (e1 = e) as -> by congruence. unfold is_live in Hl. rewrite Hdel in Hl.
      by rewrite andb_false_r in Hl.
    + assert (is_live e = true) as Hl.
      { unfold is_live. apply andb_true_iff. by split; apply negb_true_iff, Z.eqb_neq. }
      unfold entry_key, name_key in Hk. injection Hk as Ha Hb. rewrite Ha, Hb, !Z.eqb_refl. cbn [negb andb].
      destruct (Hlive _ e He Hl) as (nm' & Hm & Hk'). symmetry.
      assert (nm' = nm) as ->; [|done]. eapply Hcol; [done|]. rewrite <- Hk'. unfold entry_key, name_key. congruence.
    + replace (negb false && (hash_a e =? _) && (hash_b e =? _)) with false; cycle 1.
      { symmetry. apply not_true_iff_false.
        intros [[_ Ha%Z.eqb_eq]%andb_true_iff Hb%Z.eqb_eq]%andb_true_iff. apply Hk. unfold entry_key, name_key. congruence. }
      apply IH; [lia|]. intros d Hd e1 He1 Hl.
      destruct (decide (d = i)) as [->|]; [congruence|exact (Hpast d ltac:(lia) e1 He1 Hl)].
Qed.

(** C28: a hash table that was built by adding files and removing them, in any order, is a
    map from names to blocks: whatever name is looked up, in any case and with any slashes,
    the search ends with the block that was added last under that name, or with none when
    there is none, provided no other name in the table has the same pair of hashes. *)
Theorem lookup_refines_map t m filename :
  built t m → no_collision m (fold_name filename) →
  find_block_index filename t = m !! fold_name filename.
Proof.
  intros Ht%built_inv Hcol. unfold find_block_index. destruct (Nat.eqb_spec (length t) 0) as [H0|H0].
  - destruct (m !! fold_name filename) as [b|] eqn:Hm; [|done].
    destruct (ti_found _ _ Ht _ _ Hm) as (d & _ & Hd & _). lia.
  - assert (∀ k, hash_string filename k = hash_string (fold_name filename) k) as Hf
      by (intros; by rewrite hash_string_fold).
    replace (start_of (length t) filename) with (start_of (length t) (fold_name filename))
      by (unfold start_of; by rewrite <- Hf).
    rewrite !Hf. apply find_loop_map; [done..|]. intros d Hd. lia.
Qed.

(** Three files are added to a table of four slots, and one is removed. *)
Definition sample_entry (nm : bytes) (b : Z) : MpqHashEntry :=
  mkHashEntry (name_key nm).1 (name_key nm).2 0 0 b.
Definition empty_entry : MpqHashEntry := mkHashEntry 0 0 0 0 HASH_ENTRY_EMPTY.
Definition deleted_entry : MpqHashEntry := mkHashEntry 0 0 0 0 HASH_ENTRY_DELETED.

(** [war3map.j] and [war3map.w3i] start at slot 2, the other two at slot 1. *)
Definition sample_table : MpqHashTable :=
  [empty_entry; sample_entry (str "(LISTFILE)") 0; sample_entry (str "WAR3MAP.WTS") 3;
   sample_entry (str "WAR3MAP.W3I") 2].
Definition sample_files : gmap bytes Z :=
  <[str "WAR3MAP.WTS" := 3]> (delete (str "WAR3MAP.J")
    (<[str "WAR3MAP.W3I" := 2]> (<[str "WAR3MAP.J" := 1]> (<[str "(LISTFILE)" := 0]> ∅)))).

Lemma collisions_checked (m : gmap bytes Z) nm :
  forallb (λ e, negb (bool_decide (name_key e.1 = name_key nm)) || bool_decide (e.1 = nm)) (map_to_list m) = true →
  no_collision m nm.
Proof.
  intros H nm' b Hm E. rewrite forallb_forall in H.
  apply elem_of_map_to_list, list_elem_of_In, H, orb_true_iff in Hm as [Hm|Hm].
  - cbn in Hm. by rewrite bool_decide_true in Hm.
  - by apply bool_decide_eq_true in Hm.
Qed.

Lemma first_free_checked t nm d :
  ((d <? length t)%nat && bool_decide (is_live <$> t !! slot_of t nm d = Some false)
   && forallb (λ d', bool_decide (is_live <$> t !! slot_of t nm d' = Some true)) (seq 0 d)) = true →
  first_free t nm d.
Proof.
  intros [[H1%Nat.ltb_lt H2%bool_decide_eq_true]%andb_true_iff H3]%andb_true_iff.
  apply fmap_Some in H2 as (e & He & Hl). split; [done|]. split; [eauto|]. intros d' Hd.
  rewrite forallb_forall in H3. specialize (H3 d' ltac:(apply in_seq; lia)).
  apply bool_decide_eq_true, fmap_Some in H3 as (e' & ? & ?). eauto.
Qed.

(** The conditions of [built_add], decided. *)
Definition can_add (t : MpqHashTable) (m : gmap bytes Z) (nm : bytes) (d : nat) : bool :=
  bool_decide (fold_name nm = nm) && bool_decide (m !! nm = None)
  && forallb (λ e, negb (bool_decide (name_key e.1 = name_key nm)) || bool_decide (e.1 = nm)) (map_to_list m)
  && ((d <? length t)%nat && bool_decide (is_live <$> t !! slot_of t nm d = Some false)
      && forallb (λ d', bool_decide (is_live <$> t !! slot_of t nm d' = Some true)) (seq 0 d)).

Lemma built_add_checked t m nm d b :
  built t m → can_add t m nm d = true → b < HASH_ENTRY_DELETED →
  built (<[slot_of t nm d := sample_entry nm b]> t) (<[nm := b]> m).
Proof.
  intros Hb [[[H1%bool_decide_eq_true H2%bool_decide_eq_true]%andb_true_iff
    H3%collisions_checked]%andb_true_iff H4%first_free_checked]%andb_true_iff Hlt.
  by apply built_add.
Qed.

Definition table1 : MpqHashTable := <[1%nat := sample_entry (str "(LISTFILE)") 0]> (replicate 4 empty_entry).
Definition table2 : MpqHashTable := <[2%nat := sample_entry (str "WAR3MAP.J") 1]> table1.
Definition table3 : MpqHashTable := <[3%nat := sample_entry (str "WAR3MAP.W3I") 2]> table2.

Lemma sample_table_built : built sample_table sample_files.
Proof.
  assert (built table1 (<[str "(LISTFILE)" := 0]> ∅)) as H1.
  { apply (built_add_checked (replicate 4 empty_entry) ∅ (str "(LISTFILE)") 0 0);
      [by apply built_empty|vm_compute; reflexivity|done]. }
  assert (built table2 (<[str "WAR3MAP.J" := 1]> (<[str "(LISTFILE)" := 0]> ∅))) as H2.
  { apply (built_add_checked table1 _ (str "WAR3MAP.J") 0 1 H1); [vm_compute; reflexivity|done]. }
  assert (built table3 (<[str "WAR3MAP.W3I" := 2]> (<[str "WAR3MAP.J" := 1]> (<[str "(LISTFILE)" := 0]> ∅)))) as H3.
  { apply (built_add_checked table2 _ (str "WAR3MAP.W3I") 1 2 H2); [vm_compute; reflexivity|done]. }
  apply (built_remove _ _ (str "WAR3MAP.J") 2 (sample_entry (str "WAR3MAP.J") 1) deleted_entry) in H3;
    [|vm_compute; reflexivity..].
  apply (built_add_checked _ _ (str "WAR3MAP.WTS") 1 3) in H3; [exact H3|vm_compute; reflexivity|done].
Qed.

Lemma lookup_refines_map_witness :
  find_block_index (str "War3Map.wts") sample_table = Some 3 ∧
  find_block_index (str "war3map.j") sample_table = None.
Proof.
  split.
  - rewrite (lookup_refines_map _ _ (str "War3Map.wts") sample_table_built); [vm_compute; reflexivity|].
    apply collisions_checked. vm_compute. reflexivity.
  - rewrite (lookup_refines_map _ _ (str "war3map.j") sample_table_built); [vm_compute; reflexivity|].
    apply collisions_checked. vm_compute. reflexivity.
Defined.
