(* ===== verification/MpqArchive.v ===== *)
(** Reading files out of an MPQ archive (spectre-mpq, src/archive.rs, src/compression.rs).

    The two decompressors are packages: [zlib] is a call of flate2, [Exploder] the state
    machine of implode.  A buffer the code writes into is given by its length, [room], and
    what is written into it, from its start, is returned: the count the code returns is the
    length of that.  The outer option is a panic, or a loop without an end. *)
From S2P Require Import Prelude Utf8 MpqCrypt MpqTables.

(** ** The decompressors *)

Class Codecs := {
  (** What [Decompress::decompress] writes into [room] bytes; [None] is an error. *)
  zlib : bytes → Z → option bytes;
  Exploder : Type;
  exploder_new : Exploder;
  exploder_ended : Exploder → bool;
  (** [explode_block]: how much of its input it took, and what it wrote. *)
  explode_block : Exploder → bytes → option (Z * bytes * Exploder) }.

(** What their documentation says: a buffer is not overrun, nothing negative is taken, and
    what comes out are bytes. *)
Class CodecLaws `{Codecs} := {
  zlib_fits data room out : 0 <= room → zlib data room = Some out → zlen out <= room;
  zlib_bytes data room out : Forall u8 data → zlib data room = Some out → Forall u8 out;
  explode_takes x data n block x' : explode_block x data = Some (n, block, x') → 0 <= n;
  explode_bytes x data n block x' : Forall u8 data → explode_block x data = Some (n, block, x') → Forall u8 block }.

Definition COMPRESSION_ZLIB : Z := 2.
Definition COMPRESSION_PKWARE : Z := 8.
Definition COMPRESSION_BZIP2 : Z := 16.

Section archive.
Context `{C : Codecs}.

(** [while !exploder.ended { .. }] *)
Fixpoint explode_loop (fuel : nat) (x : Exploder) (data : bytes) (cpos room : Z) (out : bytes)
  : option (result MpqError bytes) :=
  if exploder_ended x then Some (Ok out)
  else if zlen data <=? cpos then Some (Ok out)
  else match fuel with
       | O => None
       | S fuel =>
         match explode_block x (drop (Z.to_nat cpos) data) with
         | Some (consumed, block, x) =>
           if room <? zlen out + zlen block then Some (Err DecompressionFailed)
           else if (consumed =? 0) && (zlen block =? 0) then Some (Ok (out ++ block))
           else explode_loop fuel x data (cpos + consumed) room (out ++ block)
         | None => Some (Err DecompressionFailed)
         end
       end.

(** A turn takes a byte or writes one, or is the last. *)
Definition explode_fuel (data : bytes) (room : Z) : nat := S (length data + Z.to_nat room).

Definition decompress_pkware (data : bytes) (room : Z) : option (result MpqError bytes) :=
  match data with
  | [] => Some (Ok [])
  | b :: _ => if b =? 1 then Some (Err DecompressionFailed)
              else explode_loop (explode_fuel data room) exploder_new data 0 room []
  end.

Definition decompress_multi (data : bytes) (room : Z) : option (result MpqError bytes) :=
  match data with
  | [] => Some (Ok [])
  | compression_type :: payload =>
    if negb (Z.land compression_type COMPRESSION_ZLIB =? 0) then
      Some match zlib payload room with Some out => Ok out | None => Err DecompressionFailed end
    else if negb (Z.land compression_type COMPRESSION_PKWARE =? 0) then decompress_pkware payload room
    else if negb (Z.land compression_type COMPRESSION_BZIP2 =? 0)
    then Some (Err (UnsupportedCompression COMPRESSION_BZIP2))
    else Some (Err (UnsupportedCompression compression_type))
  end.

(** ** Opening *)

Record Archive := mkArchive {
  a_data : bytes; a_header : MpqHeader; a_hash_table : MpqHashTable; a_block_table : MpqBlockTable }.

Definition from_bytes (data : bytes) : option (result MpqError Archive) :=
  try_ (locate data) (λ h,
    let hash_table_end := hash_table_offset h + hash_table_count h * 16 in
    if zlen data <? hash_table_end then Some (Err CorruptedHashTable) else
    s ← slice data (hash_table_offset h) hash_table_end;
    try_ (parse_hash_table s (hash_table_count h)) (λ hash_table,
      let block_table_end := block_table_offset h + block_table_count h * 16 in
      if zlen data <? block_table_end then Some (Err CorruptedBlockTable) else
      s ← slice data (block_table_offset h) block_table_end;
      try_ (parse_block_table s (block_table_count h)) (λ block_table,
        Some (Ok (mkArchive data h hash_table block_table))))).

Definition has_file (filename : bytes) (a : Archive) : bool :=
  match find_block_index filename (a_hash_table a) with Some _ => true | None => false end.

Definition archive_file_size (filename : bytes) (a : Archive) : option Z :=
  i ← find_block_index filename (a_hash_table a); file_size <$> block_at i (a_block_table a).

Record MpqFile := mkFile { mf_filename : bytes; mf_block_index : Z; mf_size : Z }.

Definition open_file (filename : bytes) (a : Archive) : result MpqError MpqFile :=
  match find_block_index filename (a_hash_table a) with
  | Some i => match block_at i (a_block_table a) with
              | Some block => Ok (mkFile filename i (file_size block))
              | None => Err (FileNotFound filename)
              end
  | None => Err (FileNotFound filename)
  end.

(** ** Reading *)

(** [filename.rsplit_once(['\\', '/'])], the part after it. *)
Fixpoint basename_loop (base rest : bytes) : bytes :=
  match rest with
  | [] => base
  | c :: rest => if (c =? 92) || (c =? 47) then basename_loop rest rest else basename_loop base rest
  end.
Definition basename (filename : bytes) : bytes := basename_loop filename filename.

Definition file_key (filename : bytes) (block : MpqBlockEntry) : Z :=
  if is_encrypted block then
    let key := hash_string (basename filename) HASH_FILE_KEY in
    if has_fixed_key block then Z.lxor (wrap 32 (key + file_pos block)) (file_size block) else key
  else 0.

(** [out[..n].copy_from_slice(&data[..n])] *)
Definition copy (n : Z) (data : bytes) : bytes := take (Z.to_nat n) data.

Definition read_single_unit (block : MpqBlockEntry) (raw_data : bytes) (key room : Z)
  : option (result MpqError bytes) :=
  let in_buf := if is_encrypted block then decrypt_bytes raw_data key else raw_data in
  if is_compressed block && (zlen in_buf <? room) then decompress_multi in_buf room
  else if is_imploded block then decompress_pkware in_buf room
  else Some (Ok (copy (Z.min (Z.min (file_size block) room) (zlen in_buf)) in_buf)).

(** One sector into what is left of the buffer. *)
Definition read_sector (block : MpqBlockEntry) (sector_data : bytes) (unpacked room : Z)
  : option (result MpqError bytes) :=
  if zlen sector_data =? unpacked then Some (Ok (copy (Z.min (zlen sector_data) room) sector_data))
  else if is_compressed block then decompress_multi sector_data room
  else if is_imploded block then decompress_pkware sector_data room
  else Some (Ok (copy (Z.min (zlen sector_data) room) sector_data)).

(** [for i in 0..num_sectors], the last [n] turns of it. *)
Fixpoint read_sectors (n : nat) (block : MpqBlockEntry) (sector_size num_sectors : Z) (raw_data : bytes)
    (key room : Z) (offsets : list Z) (i : Z) (out : bytes) : option (result MpqError bytes) :=
  match n with
  | O => Some (Ok out)
  | S n =>
    start ← offsets !! Z.to_nat i;
    stop ← offsets !! Z.to_nat (i + 1);
    if (stop <? start) || (zlen raw_data <? stop) then Some (Err InvalidSectorTable) else
    s ← slice raw_data start stop;
    let sector_data := if is_encrypted block then decrypt_bytes s (wrap 32 (key + wrap 32 i)) else s in
    let unpacked := if i =? num_sectors - 1 then file_size block - i * sector_size else sector_size in
    let out_end := Z.min (zlen out + unpacked) room in
    if out_end <? zlen out then None else
    try_ (read_sector block sector_data unpacked (out_end - zlen out))
         (λ written, read_sectors n block sector_size num_sectors raw_data key room offsets (i + 1) (out ++ written))
  end.

Definition num_sectors_of (size sector_size : Z) : Z := (size + sector_size - 1) / sector_size.

Definition read_sector_file (h : MpqHeader) (block : MpqBlockEntry) (raw_data : bytes) (key room : Z)
  : option (result MpqError bytes) :=
  let size := sector_size h in
  if size =? 0 then Some (Err InvalidSectorTable) else
  let num_sectors := num_sectors_of (file_size block) size in
  if negb (has_flag block (Z.lor FILE_COMPRESS FILE_IMPLODE))
  then Some (Ok (copy (Z.min (Z.min (file_size block) room) (zlen raw_data)) raw_data)) else
  let sector_table_size := (num_sectors + 1) * 4 in
  if zlen raw_data <? sector_table_size then Some (Err InvalidSectorTable) else
  s ← slice raw_data 0 sector_table_size;
  let table := if is_encrypted block then decrypt_bytes s (wrap 32 (key - 1)) else s in
  read_sectors (Z.to_nat num_sectors) block size num_sectors raw_data key room
               (map le_val (chunks 4 table)) 0 [].

Definition read_file_by_block (block_index : Z) (filename : bytes) (room : Z) (a : Archive)
  : option (result MpqError bytes) :=
  match block_at block_index (a_block_table a) with
  | None => Some (Err (FileNotFound filename))
  | Some block =>
    if file_size block =? 0 then Some (Ok [])
    else if has_flag block FILE_PATCH_FILE then Some (Err (UnsupportedCompression 255)) else
    let abs_file_pos := archive_offset (a_header a) + file_pos block in
    let stop := abs_file_pos + compressed_size block in
    if zlen (a_data a) <? stop then Some (Err (UnexpectedEof stop (zlen (a_data a)))) else
    block_slice ← slice (a_data a) abs_file_pos stop;
    let key := file_key filename block in
    if is_single_unit block then read_single_unit block block_slice key room
    else read_sector_file (a_header a) block block_slice key room
  end.

(** [MpqFile::read], into a buffer of [room] bytes. *)
Definition file_read (f : MpqFile) (room : Z) (a : Archive) : option (result MpqError bytes) :=
  read_file_by_block (mf_block_index f) (mf_filename f) room a.

Definition read_file (filename : bytes) (a : Archive) : option (result MpqError bytes) :=
  match open_file filename a with
  | Ok f => file_read f (mf_size f) a
  | Err e => Some (Err e)
  end.

(** ** No file makes the reader panic or loop *)

(** An answer of bytes that fits the buffer, or an error. *)
Definition answers (room : Z) (o : option (result MpqError bytes)) : Prop :=
  ∃ r, o = Some r ∧ ∀ out, r = Ok out → zlen out <= room ∧ Forall u8 out.

Lemma answers_ok room out : zlen out <= room → Forall u8 out → answers room (Some (Ok out)).
Proof. intros H Hu. eexists. split; [done|]. by intros ? [= <-]. Qed.
Lemma answers_err room e : answers room (Some (Err e)).
Proof. by eexists. Qed.
Hint Resolve answers_ok answers_err : spectre.

Lemma copy_len n data : 0 <= n → zlen (copy n data) <= n.
Proof. intros. unfold copy, zlen. rewrite length_take. lia. Qed.
Lemma copy_u8 n data : Forall u8 data → Forall u8 (copy n data).
Proof. apply Forall_take. Qed.
Lemma decrypt_if_u8 (b : bool) s key : Forall u8 s → Forall u8 (if b then decrypt_bytes s key else s).
Proof. intros H. destruct b; [by apply decrypt_bytes_u8|done]. Qed.

Context `{L : !CodecLaws}.

Lemma explode_answers fuel x data cpos room out :
  Forall u8 data → Forall u8 out →
  0 <= cpos → zlen out <= room → zlen data - cpos + (room - zlen out) < Z.of_nat fuel →
  answers room (explode_loop fuel x data cpos room out).
Proof.
  intros Hu. revert x cpos out. induction fuel as [|fuel IH]; intros x cpos out Huo Hc Ho Hf; cbn [explode_loop];
    (destruct (exploder_ended x); [by apply answers_ok|]);
    (destruct (Z.leb_spec (zlen data) cpos); [by apply answers_ok|]); [lia|].
  destruct (explode_block x _) as [[[n block] x']|] eqn:E; [|apply answers_err].
  assert (Forall u8 (out ++ block)) as Hub.
  { apply Forall_app_2; [done|]. eapply explode_bytes; [|exact E]. by apply Forall_drop. }
  apply explode_takes in E. pose proof (zlen_nonneg block).
  destruct (Z.ltb_spec room (zlen out + zlen block)); [apply answers_err|].
  destruct (Z.eqb_spec n 0), (Z.eqb_spec (zlen block) 0); cbn [andb];
    try (apply IH; [done|..]; rewrite ?zlen_app; lia).
  apply answers_ok; [|done]. rewrite zlen_app. lia.
Qed.

Lemma pkware_answers data room : Forall u8 data → 0 <= room → answers room (decompress_pkware data room).
Proof.
  intros Hu Hr. unfold decompress_pkware. destruct data as [|b data]; [by apply answers_ok|].
  destruct (b =? 1); [apply answers_err|]. apply explode_answers; [done|constructor|..]; unfold explode_fuel, zlen; simpl; lia.
Qed.

Lemma multi_answers data room : Forall u8 data → 0 <= room → answers room (decompress_multi data room).
Proof.
  intros Hu Hr. unfold decompress_multi. destruct data as [|c data]; [by apply answers_ok|].
  apply Forall_cons in Hu as [_ Hu]. destruct (negb _).
  { destruct (zlib data room) as [out|] eqn:E; [|apply answers_err].
    apply answers_ok; [by eapply zlib_fits|by eapply zlib_bytes]. }
  destruct (negb _); [by apply pkware_answers|]. destruct (negb _); apply answers_err.
Qed.

Lemma single_unit_answers block raw key room :
  Forall u8 raw → 0 <= room → u32 (file_size block) → answers room (read_single_unit block raw key room).
Proof.
  intros Hu Hr Hs. unfold read_single_unit. pose proof (decrypt_if_u8 (is_encrypted block) raw key Hu) as Hd.
  destruct (_ && _); [by apply multi_answers|]. destruct (is_imploded block); [by apply pkware_answers|].
  apply answers_ok; [|by apply copy_u8]. etrans; [apply copy_len|lia]. unfold uN in Hs.
  match goal with |- context [zlen ?l] => pose proof (zlen_nonneg l) end. lia.
Qed.

Lemma sector_answers block data unpacked room :
  Forall u8 data → 0 <= room → answers room (read_sector block data unpacked room).
Proof.
  intros Hu Hr. pose proof (zlen_nonneg data). unfold read_sector.
  assert (answers room (Some (Ok (copy (Z.min (zlen data) room) data)))) as Hcopy.
  { apply answers_ok; [|by apply copy_u8]. etrans; [apply copy_len|]; lia. }
  destruct (_ =? _); [done|]. destruct (is_compressed block); [by apply multi_answers|].
  destruct (is_imploded block); [by apply pkware_answers|done].
Qed.

Lemma sectors_answers n block ss num raw key room offsets i out :
  Forall u8 raw → Forall u8 out →
  Forall (λ o, 0 <= o) offsets → Z.of_nat (length offsets) = num + 1 → 0 <= i → i + Z.of_nat n = num →
  0 < ss → (num - 1) * ss <= file_size block → 0 <= room → zlen out <= room →
  answers room (read_sectors n block ss num raw key room offsets i out).
Proof.
  intros Hu Huo Hpos Hlen. revert i out Huo.
  induction n as [|n IH]; intros i out Huo Hi Hn Hss Hsize Hr Ho; cbn [read_sectors]; [by apply answers_ok|].
  destruct (lookup_lt_is_Some_2 offsets (Z.to_nat i)) as [start Hst]; [lia|].
  destruct (lookup_lt_is_Some_2 offsets (Z.to_nat (i + 1))) as [stop Hsp]; [lia|].
  rewrite Hst, Hsp. cbn [mbind option_bind].
  destruct (Z.ltb_spec stop start), (Z.ltb_spec (zlen raw) stop); cbn [orb]; try apply answers_err.
  rewrite Forall_lookup in Hpos. specialize (Hpos _ _ Hst). cbn in Hpos.
  destruct (slice_ok raw start stop) as (s & Hs & _); [lia..|]. rewrite Hs. apply slice_u8 in Hs; [|done].
  cbn [mbind option_bind].
  match goal with |- context [read_sector block ?d ?u ?r] =>
    set (data := d); assert (0 <= u) as Hun by (case_match; nia) end.
  assert (Forall u8 data) as Hd by by apply decrypt_if_u8.
  match goal with |- context [Z.min (zlen out + ?u) room] => set (unpacked := u) in * end.
  destruct (Z.ltb_spec (Z.min (zlen out + unpacked) room) (zlen out)); [lia|].
  destruct (sector_answers block data unpacked (Z.min (zlen out + unpacked) room - zlen out) Hd) as (r & -> & Hw); [lia|].
  cbn [try_ mbind option_bind]. destruct r as [w|e]; [|apply answers_err].
  destruct (Hw w eq_refl) as [Hwl Hwu]. apply IH; [by apply Forall_app_2|..]; rewrite ?zlen_app; lia.
Qed.

Lemma sector_file_answers h block raw key room :
  Forall u8 raw → u64 (sector_size h) → u32 (file_size block) → 0 < file_size block → 0 <= room →
  answers room (read_sector_file h block raw key room).
Proof.
  intros Hu Hss Hfs Hpos Hr. unfold read_sector_file. destruct (Z.eqb_spec (sector_size h) 0); [apply answers_err|].
  assert (0 < sector_size h) as Hsp by (unfold uN in Hss; lia).
  set (num := num_sectors_of (file_size block) (sector_size h)).
  assert (0 < num ∧ (num - 1) * sector_size h <= file_size block) as [Hn1 Hn2].
  { unfold num, num_sectors_of. pose proof (Z.div_mod (file_size block + sector_size h - 1) (sector_size h)).
    pose proof (Z.mod_pos_bound (file_size block + sector_size h - 1) (sector_size h)). nia. }
  pose proof (zlen_nonneg raw). destruct (negb _).
  { apply answers_ok; [|by apply copy_u8]. etrans; [apply copy_len; lia|lia]. }
  destruct (Z.ltb_spec (zlen raw) ((num + 1) * 4)); [apply answers_err|].
  destruct (slice_ok raw 0 ((num + 1) * 4)) as (s & Hs & Hl); [lia..|]. rewrite Hs. cbn [mbind option_bind].
  set (table := if is_encrypted block then decrypt_bytes s (wrap 32 (key - 1)) else s).
  assert (Forall u8 table ∧ length table = (4 * Z.to_nat (num + 1))%nat) as [Htu Htl].
  { pose proof (slice_u8 _ _ _ _ Hu Hs). unfold table. destruct (is_encrypted block);
      rewrite ?decrypt_bytes_length; (split; [by try apply decrypt_bytes_u8|unfold zlen in Hl; lia]). }
  apply sectors_answers; rewrite ?zlen_nil; try done; try lia.
  - apply Forall_map. eapply Forall_impl; [by apply chunks_u8|]. intros c Hc. by apply le_val_bound.
  - rewrite length_map, (chunks_exact _ 4 (Z.to_nat (num + 1))) by (done || lia). lia.
Qed.

(** What opening establishes. *)
Record archive_wf (a : Archive) : Prop := {
  aw_data : Forall u8 (a_data a);
  aw_header : header_wf (a_data a) (a_header a);
  aw_blocks : Forall block_wf (a_block_table a) }.

Lemma from_bytes_answers data :
  Forall u8 data → ∃ r, from_bytes data = Some r ∧ ∀ a, r = Ok a → archive_wf a.
Proof.
  intros Hu. unfold from_bytes. destruct (locate_located data Hu) as (r & -> & Hr).
  cbn [try_ mbind option_bind]. destruct r as [h|e]; [|by eexists]. specialize (Hr h eq_refl).
  pose proof Hr as [Ha Hh Hb Hhc Hbc _]. unfold uN in Hhc, Hbc.
  destruct (Z.ltb_spec (zlen data) (hash_table_offset h + hash_table_count h * 16)); [by eexists|].
  destruct (slice_ok data (hash_table_offset h) (hash_table_offset h + hash_table_count h * 16))
    as (s1 & Hs1 & Hl1); [lia..|]. rewrite Hs1. cbn [mbind option_bind].
  destruct (parse_hash_table_ok s1 (hash_table_count h)) as (ht & -> & _); [lia..|]. cbn [mbind option_bind].
  destruct (Z.ltb_spec (zlen data) (block_table_offset h + block_table_count h * 16)); [by eexists|].
  destruct (slice_ok data (block_table_offset h) (block_table_offset h + block_table_count h * 16))
    as (s2 & Hs2 & Hl2); [lia..|]. rewrite Hs2. cbn [mbind option_bind].
  destruct (parse_block_table_ok s2 (block_table_count h)) as (bt & -> & _ & Hbt);
    [by eapply slice_u8|lia..|]. cbn [mbind option_bind].
  eexists. split; [done|]. intros a [= <-]. by split.
Qed.

Lemma read_by_block_answers i filename room a :
  archive_wf a → 0 <= room → answers room (read_file_by_block i filename room a).
Proof.
  intros [Hu Hh Hb] Hr. unfold read_file_by_block, block_at.
  destruct (a_block_table a !! Z.to_nat i) as [block|] eqn:E; [|apply answers_err].
  rewrite Forall_lookup in Hb. destruct (Hb _ _ E) as (Hp & Hc & Hs & _).
  destruct (Z.eqb_spec (file_size block) 0); [apply answers_ok; [done|constructor]|].
  destruct (has_flag block FILE_PATCH_FILE); [apply answers_err|].
  destruct (Z.ltb_spec (zlen (a_data a)) (archive_offset (a_header a) + file_pos block + compressed_size block));
    [apply answers_err|].
  pose proof (hw_archive _ _ Hh). unfold uN in Hp, Hc.
  destruct (slice_ok (a_data a) (archive_offset (a_header a) + file_pos block)
    (archive_offset (a_header a) + file_pos block + compressed_size block)) as (s & Hsl & _); [lia..|].
  rewrite Hsl. apply slice_u8 in Hsl; [|done].
  cbn [mbind option_bind]. destruct (is_single_unit block); [by apply single_unit_answers|].
  apply sector_file_answers; try done; [apply Hh|unfold uN in Hs; lia].
Qed.
End archive.

(** C26: no file, however malformed, makes the archive reader panic or loop: opening ends
    with an archive or an error, and so does reading any name out of what was opened, with
    no more bytes than its buffer has room for.  (Map files come from whoever made the map.) *)
Theorem mpq_no_panic `{CodecLaws} data :
  Forall u8 data →
  ∃ r, from_bytes data = Some r ∧
    ∀ a, r = Ok a → ∀ filename,
      (∃ r', read_file filename a = Some r') ∧
      ∀ f room, open_file filename a = Ok f → 0 <= room →
        ∃ r', file_read f room a = Some r' ∧ ∀ out, r' = Ok out → zlen out <= room.
Proof.
  intros Hu. destruct (from_bytes_answers data Hu) as (r & -> & Hr). exists r. split; [done|].
  intros a Ha filename. specialize (Hr a Ha). split.
  - unfold read_file, open_file, block_at. destruct (find_block_index _ _) as [i|]; [|by eexists].
    destruct (a_block_table a !! Z.to_nat i) as [block|] eqn:E; [|by eexists].
    pose proof (aw_blocks _ Hr) as Hb. rewrite Forall_lookup in Hb. destruct (Hb _ _ E) as (_ & _ & Hs & _).
    destruct (read_by_block_answers i filename (file_size block) a Hr) as (r' & E' & _);
      [unfold uN in Hs; lia|]. by exists r'.
  - intros f room _ Hroom. destruct (read_by_block_answers (mf_block_index f) (mf_filename f) room a Hr Hroom) as (r' & E & H').
    exists r'. split; [done|]. intros out Ho. by apply H'.
Qed.

(** ** A small archive

    The packer of the example writes a run of one byte as that byte. *)
Definition run_codecs : Codecs :=
  {| zlib p room := Some (replicate (Z.to_nat room) (default 0 (head p)));
     Exploder := unit; exploder_new := tt; exploder_ended _ := true; explode_block _ _ := None |}.

Lemma run_codec_laws : CodecLaws (H := run_codecs).
Proof.
  split; try done.
  - intros data room out Hr [= <-]. rewrite zlen_replicate. lia.
  - intros data room out Hu [= <-]. apply Forall_replicate. destruct Hu; [by apply (bool_decide_unpack (u8 0))|done].
Qed.

(** A header with nothing after it opens as an archive without files. *)
Definition sample_header : bytes :=
  ID_MPQ_ARCHIVE ++ le_bytes 4 32 ++ le_bytes 4 32 ++ le_bytes 2 0 ++ le_bytes 2 0
  ++ le_bytes 4 32 ++ le_bytes 4 32 ++ le_bytes 4 0 ++ le_bytes 4 0.
Lemma mpq_no_panic_witness :
  ∃ a, from_bytes sample_header = Some (Ok a) ∧
       ∃ r', read_file (C := run_codecs) (str "war3map.j") a = Some r'.
Proof.
  destruct (mpq_no_panic (H := run_codecs) (H0 := run_codec_laws) sample_header) as (r & Hr & H).
  - apply (bool_decide_unpack _). vm_compute. reflexivity.
  - destruct r as [a|e]; [|vm_compute in Hr; discriminate Hr]. exists a. split; [exact Hr|].
    apply (H a eq_refl (str "war3map.j")).
Defined.
