(* ===== verification/MpqFiles.v ===== *)
(** What is written into an MPQ archive is read back: the layout of files that the format
    prescribes, and how the reader (spectre-mpq, src/archive.rs) undoes it. *)
From S2P Require Import Prelude Utf8 MpqCrypt MpqTables MpqArchive.

(** ** Lists in blocks *)

(** All blocks but the last are full, and the last is what remains. *)
Lemma chunks_sizes {A} n (l : list A) i c :
  (0 < n)%nat → chunks n l !! i = Some c →
  (0 < zlen c) ∧
  (S i < length (chunks n l))%nat ∧ zlen c = Z.of_nat n ∨
  (0 < zlen c) ∧ S i = length (chunks n l) ∧ zlen c = zlen l - Z.of_nat i * Z.of_nat n.
Proof.
  intros Hn. revert i. induction l as [l IH] using list_length_ind. intros i Hi.
  destruct l as [|x l]; [done|]. rewrite chunks_cons in * by done. set (l0 := x :: l) in *.
  assert (0 < length l0)%nat as Hl0 by (simpl; lia).
  destruct i as [|i].
  - injection Hi as <-. cbn [length]. unfold zlen. rewrite length_take.
    destruct (decide (drop n l0 = [])) as [E|E].
    + rewrite E. cbn [chunks chunks_fuel length]. right.
      assert (length (drop n l0) = 0)%nat as H by by rewrite E. rewrite length_drop in H. lia.
    + rewrite chunks_cons by done. cbn [length]. left.
      assert (length (drop n l0) ≠ 0)%nat as H by by intros ?%length_zero_iff_nil. rewrite length_drop in H. lia.
  - cbn [length lookup list_lookup] in *. destruct (IH (drop n l0)) with (i := i) as [H|H].
    + rewrite length_drop. lia.
    + exact Hi.
    + left. destruct H as (? & ? & ?). split_and!; [done|lia|done].
    + right. destruct H as (H1 & H2 & H3). split_and!; [done|lia|].
      assert (n < length l0)%nat.
      { apply Nat.nle_gt. intros Hle. rewrite (drop_ge l0) in Hi by done. done. }
      rewrite H3. unfold zlen. rewrite length_drop. lia.
Qed.

Lemma chunks_count {A} n (l : list A) :
  (0 < n)%nat → l ≠ [] → num_sectors_of (zlen l) (Z.of_nat n) = zlen (chunks n l).
Proof.
  intros Hn Hl. assert (0 < length (chunks n l))%nat as Hc by (rewrite chunks_cons by done; simpl; lia).
  destruct (lookup_lt_is_Some_2 (chunks n l) (length (chunks n l) - 1)) as [c Hi]; [lia|].
  destruct (chunks_sizes _ _ _ _ Hn Hi) as [(_ & ? & _)|(H1 & H2 & H3)]; [lia|].
  assert (zlen c <= Z.of_nat n) as H4.
  { clear -Hi Hn. revert Hi. generalize (length (chunks n l) - 1)%nat. intros i. revert i.
    induction l as [l IH] using list_length_ind. intros i Hi. destruct l as [|x l]; [done|].
    rewrite chunks_cons in Hi by done. destruct i as [|i].
    - injection Hi as <-. unfold zlen. rewrite length_take. lia.
    - eapply IH; [|exact Hi]. rewrite length_drop. simpl. lia. }
  unfold num_sectors_of. symmetry. apply Z.div_unique with (zlen c - 1); [lia|].
  unfold zlen in *. nia.
Qed.

(** ** How a file is kept *)

(** Packed, when that is shorter. *)
Definition shorter (p s : bytes) : bytes := if zlen p <? zlen s then p else s.

Definition seal (enc : bool) (key : Z) (s : bytes) : bytes := if enc then encrypt_bytes s key else s.

(** Every sector has a key of its own. *)
Fixpoint sealed (enc : bool) (key i : Z) (ss : list bytes) : list bytes :=
  match ss with
  | [] => []
  | s :: ss => seal enc (wrap 32 (key + wrap 32 i)) s :: sealed enc key (i + 1) ss
  end.

(** Where blocks begin, and where the last one ends. *)
Fixpoint offsets_from (o : Z) (bs : list bytes) : list Z :=
  o :: match bs with [] => [] | b :: bs => offsets_from (o + zlen b) bs end.

Definition sector_table (bs : list bytes) : list Z := offsets_from ((zlen bs + 1) * 4) bs.

Definition sector_file (enc : bool) (key : Z) (bs : list bytes) : bytes :=
  let bs := sealed enc key 0 bs in
  seal enc (wrap 32 (key - 1)) (concat (map (le_bytes 4) (sector_table bs))) ++ concat bs.

Lemma unseal (enc : bool) key s : Forall u8 s → (if enc then decrypt_bytes (seal enc key s) key else seal enc key s) = s.
Proof. intros Hu. destruct enc; [by apply decrypt_encrypt|done]. Qed.
Lemma zlen_seal enc key s : zlen (seal enc key s) = zlen s.
Proof. unfold seal, zlen. destruct enc; [by rewrite encrypt_bytes_length|done]. Qed.

Lemma length_sealed enc key i bs : length (sealed enc key i bs) = length bs.
Proof. revert i. induction bs as [|b bs IH]; intros i; [done|]. simpl. by rewrite IH. Qed.

Lemma offsets_length o bs : length (offsets_from o bs) = S (length bs).
Proof. revert o. induction bs as [|b bs IH]; intros o; [done|]. cbn. by rewrite IH. Qed.

Lemma offsets_head o bs : offsets_from o bs !! 0%nat = Some o.
Proof. by destruct bs. Qed.

Lemma offsets_range o bs : 0 <= o → o + zlen (concat bs) < 2 ^ 32 → Forall u32 (offsets_from o bs).
Proof.
  revert o. induction bs as [|b bs IH]; intros o Ho Hl; cbn [offsets_from concat] in *.
  - constructor; [|done]. unfold uN. rewrite zlen_nil in Hl. lia.
  - rewrite zlen_app in Hl. pose proof (zlen_nonneg b). pose proof (zlen_nonneg (concat bs)).
    constructor; [unfold uN; lia|]. apply IH; lia.
Qed.

Lemma words_of ws : Forall u32 ws → map le_val (chunks 4 (concat (map (le_bytes 4) ws))) = ws.
Proof.
  induction 1 as [|w ws Hw _ IH]; [done|]. cbn [map concat].
  rewrite chunks_app by (rewrite ?length_le_bytes; lia). cbn [map]. by rewrite le_val_round4, IH.
Qed.

Lemma zlen_words ws : zlen (concat (map (le_bytes 4) ws)) = 4 * zlen ws.
Proof.
  induction ws as [|w ws IH]; [done|]. cbn [map concat]. rewrite zlen_app, zlen_le_bytes, IH, zlen_cons. lia.
Qed.

(** A block of either flag that is not compressed is imploded. *)
Lemma either_flag block :
  has_flag block (Z.lor FILE_COMPRESS FILE_IMPLODE) = true → is_compressed block = false → is_imploded block = true.
Proof.
  unfold is_compressed, is_imploded, has_flag. rewrite !negb_true_iff, negb_false_iff, !Z.eqb_neq, Z.eqb_eq. intros H E1 E2. apply H.
  by rewrite Z.land_lor_distr_r, E1, E2.
Qed.

Section files.
Context `{C : Codecs} (deflate implode : bytes → bytes).

(** Unpacking undoes packing, into a buffer of the right size. *)
Definition unpacks (s : bytes) : Prop := zlib (deflate s) (zlen s) = Some s.
Definition explodes (s : bytes) : Prop := decompress_pkware (implode s) (zlen s) = Some (Ok s).

(** What the packer of a block makes of some bytes: zlib, with its mark, or implode. *)
Definition squeeze (block : MpqBlockEntry) (s : bytes) : bytes :=
  if is_compressed block then COMPRESSION_ZLIB :: deflate s else implode s.
Definition unsqueezes (block : MpqBlockEntry) (s : bytes) : Prop :=
  if is_compressed block then unpacks s else explodes s.

Definition packed (block : MpqBlockEntry) (s : bytes) : bytes := shorter (squeeze block s) s.

#[local] Instance read_eq_dec : EqDecision (result MpqError bytes).
Proof. assert (EqDecision MpqError) by solve_decision. solve_decision. Defined.
#[export] Instance unsqueezes_dec block s : Decision (unsqueezes block s).
Proof. unfold unsqueezes, unpacks, explodes. destruct (is_compressed block); apply _. Defined.

Lemma read_sector_packed block s :
  has_flag block (Z.lor FILE_COMPRESS FILE_IMPLODE) = true → unsqueezes block s →
  read_sector block (packed block s) (zlen s) (zlen s) = Some (Ok s).
Proof.
  intros Hc Hz. unfold read_sector, packed, shorter. destruct (Z.ltb_spec (zlen (squeeze block s)) (zlen s)).
  - rewrite (proj2 (Z.eqb_neq _ _)) by lia. unfold squeeze, unsqueezes in *. destruct (is_compressed block) eqn:Ec.
    + cbn. by rewrite Hz.
    + by rewrite (either_flag block Hc Ec).
  - rewrite Z.eqb_refl, Z.min_id. unfold copy, zlen. by rewrite Nat2Z.id, firstn_all.
Qed.

(** The loop over the sectors: [past] is read, [todo] is still to be. *)
Lemma read_sectors_packed block n num raw pre key room past todo i out :
  has_flag block (Z.lor FILE_COMPRESS FILE_IMPLODE) = true → num = zlen (past ++ todo) → i = zlen past →
  out = concat past → zlen (concat (past ++ todo)) <= room →
  Forall (unsqueezes block) todo → Forall (Forall u8) (map (packed block) todo) →
  (∀ j s, (past ++ todo) !! j = Some s →
     zlen s = if Z.of_nat j =? num - 1 then file_size block - Z.of_nat j * n else n) →
  raw = pre ++ concat (sealed (is_encrypted block) key i (map (packed block) todo)) →
  ∀ offsets, drop (Z.to_nat i) offsets
             = offsets_from (zlen pre) (sealed (is_encrypted block) key i (map (packed block) todo)) →
  read_sectors (length todo) block n num raw key room offsets i out = Some (Ok (concat (past ++ todo))).
Proof.
  intros Hc Hnum. revert past i out pre Hnum.
  induction todo as [|s todo IH]; intros past i out pre Hnum -> -> Hroom Hz Hu Hsizes -> offsets Hoff.
  - cbn. by rewrite app_nil_r.
  - apply Forall_cons in Hz as [Hz Hzs]. cbn [map] in Hu. apply Forall_cons in Hu as [Hus Hu].
    cbn [map sealed concat] in *. set (b := seal _ _ (packed block s)) in *.
    set (bs := sealed _ _ (_ + 1) _) in *. cbn [length read_sectors].
    assert (offsets !! Z.to_nat (zlen past) = Some (zlen pre) ∧
            offsets !! Z.to_nat (zlen past + 1) = Some (zlen pre + zlen b)) as [-> ->].
    { assert (∀ k, offsets !! (Z.to_nat (zlen past) + k)%nat = offsets_from (zlen pre) (b :: bs) !! k) as Hk
        by (intros; by rewrite <- Hoff, lookup_drop).
      pose proof (zlen_nonneg past). split.
      - rewrite <- (Nat.add_0_r (Z.to_nat _)), Hk. done.
      - replace (Z.to_nat (zlen past + 1)) with (Z.to_nat (zlen past) + 1)%nat by lia. rewrite Hk.
        cbn. apply offsets_head. }
    cbn [mbind option_bind]. pose proof (zlen_nonneg b). pose proof (zlen_nonneg pre).
    assert (zlen (pre ++ b ++ concat bs) = zlen pre + zlen b + zlen (concat bs)) as Hraw
      by (rewrite !zlen_app; lia).
    pose proof (zlen_nonneg (concat bs)).
    rewrite (proj2 (Z.ltb_ge _ _)), (proj2 (Z.ltb_ge _ _)) by lia. cbn [orb].
    rewrite slice_app. cbn [mbind option_bind]. unfold b at 1 2. rewrite unseal by done.
    pose proof (Hsizes (length past) s) as Hsz.
    rewrite lookup_app_r, Nat.sub_diag in Hsz by done. specialize (Hsz eq_refl). fold (zlen past) in Hsz.
    rewrite <- Hsz.
    assert (Z.min (zlen (concat past) + zlen s) room = zlen (concat past) + zlen s) as ->.
    { rewrite concat_app, zlen_app in Hroom. cbn [concat] in Hroom. rewrite zlen_app in Hroom.
      pose proof (zlen_nonneg (concat todo)). lia. }
    pose proof (zlen_nonneg s). rewrite (proj2 (Z.ltb_ge _ _)) by lia.
    replace (zlen (concat past) + zlen s - zlen (concat past)) with (zlen s) by lia.
    rewrite read_sector_packed by done. cbn [try_ mbind option_bind].
    assert (past ++ s :: todo = (past ++ [s]) ++ todo) as Eapp by (rewrite <- app_assoc; reflexivity).
    rewrite Eapp in *.
    apply (IH (past ++ [s]) (zlen past + 1) (concat past ++ s) (pre ++ b)); try done.
    + rewrite zlen_app, zlen_cons, zlen_nil. lia.
    + by rewrite concat_app; cbn; rewrite app_nil_r.
    + by rewrite <- app_assoc.
    + replace (Z.to_nat (zlen past + 1)) with (Z.to_nat (zlen past) + 1)%nat
        by (pose proof (zlen_nonneg past); lia).
      rewrite <- drop_drop, Hoff. cbn [offsets_from drop]. rewrite zlen_app. reflexivity.
Qed.

Lemma words_u8 ws : Forall u8 (concat (map (le_bytes 4) ws)).
Proof. induction ws as [|w ws IH]; [done|]. cbn. apply Forall_app. split; [apply le_bytes_u8|done]. Qed.

Lemma sector_file_read h block key ss data :
  sector_size h = Z.of_nat ss → (0 < ss)%nat → data ≠ [] → file_size block = zlen data →
  has_flag block (Z.lor FILE_COMPRESS FILE_IMPLODE) = true → Forall (unsqueezes block) (chunks ss data) →
  Forall (Forall u8) (map (packed block) (chunks ss data)) →
  zlen (sector_file (is_encrypted block) key (map (packed block) (chunks ss data))) < 2 ^ 32 →
  read_sector_file h block (sector_file (is_encrypted block) key (map (packed block) (chunks ss data)))
    key (zlen data) = Some (Ok data).
Proof.
  intros Hss Hpos Hne Hfs Hc Hz Hu Hlen. set (cs := chunks ss data) in *.
  unfold sector_file in *. set (bs := sealed _ key 0 (map (packed block) cs)) in *.
  set (enc := is_encrypted block) in *.
  unfold read_sector_file. rewrite Hss, Hfs, (proj2 (Z.eqb_neq _ _)) by lia.
  rewrite chunks_count by done. fold cs. rewrite Hc. cbn [negb].
  assert (zlen bs = zlen cs) as Hbs by (unfold zlen, bs; by rewrite length_sealed, length_map).
  set (table := concat (map (le_bytes 4) (sector_table bs))) in *.
  assert (zlen table = (zlen cs + 1) * 4) as Htab.
  { unfold table. rewrite zlen_words. unfold sector_table, zlen in *. rewrite offsets_length. lia. }
  rewrite zlen_app, zlen_seal in Hlen. pose proof (zlen_nonneg (concat bs)).
  rewrite <- Htab, zlen_app, zlen_seal, (proj2 (Z.ltb_ge _ _)) by lia.
  pose proof (slice_app [] (seal enc (wrap 32 (key - 1)) table) (concat bs)) as Hsl.
  rewrite zlen_nil, zlen_seal, Z.add_0_l in Hsl. cbn [app] in Hsl. rewrite Hsl. cbn [mbind option_bind].
  fold enc. rewrite unseal by apply words_u8. unfold table; rewrite words_of; cycle 1.
  { apply offsets_range; rewrite Hbs; [pose proof (zlen_nonneg cs); lia|lia]. }
  replace (Z.to_nat (zlen cs)) with (length cs) by (unfold zlen; lia).
  assert (data = concat ([] ++ cs)) as Hdata by (unfold cs; cbn; by rewrite concat_chunks).
  rewrite Hdata at 2.
  apply (read_sectors_packed block (Z.of_nat ss) (zlen cs) _ (seal enc (wrap 32 (key - 1)) table) key (zlen data)
           [] cs 0 []); try done.
  - by rewrite <- Hdata.
  - intros j c Hj. cbn [app] in Hj. rewrite Hfs. destruct (chunks_sizes _ _ _ _ Hpos Hj) as [(_ & H1 & H2)|(_ & H1 & H2)];
      fold cs in H1; unfold zlen in *.
    + rewrite (proj2 (Z.eqb_neq _ _)) by lia. done.
    + rewrite (proj2 (Z.eqb_eq _ _)) by lia. done.
  - cbn [Z.to_nat drop]. rewrite zlen_seal, Htab, <- Hbs. done.
Qed.

(** How a file may be kept under a block of the table: in one piece, packed by zlib where that
    is shorter, always imploded, or as it is; in sectors that are each packed where that is
    shorter; or in sectors that are not packed. *)
Inductive kept (h : MpqHeader) (block : MpqBlockEntry) (key : Z) (data : bytes) : bytes → Prop :=
| kept_unit :
    is_single_unit block = true → is_imploded block = false → (is_compressed block = true → unpacks data) →
    Forall u8 (packed block data) →
    kept h block key data
      (seal (is_encrypted block) key (if is_compressed block then packed block data else data))
| kept_imploded :
    is_single_unit block = true → is_imploded block = true → is_compressed block = false → explodes data →
    Forall u8 (implode data) → kept h block key data (seal (is_encrypted block) key (implode data))
| kept_plain ss :
    is_single_unit block = false → has_flag block (Z.lor FILE_COMPRESS FILE_IMPLODE) = false →
    sector_size h = Z.of_nat ss → (0 < ss)%nat →
    kept h block key data (concat (sealed (is_encrypted block) key 0 (chunks ss data)))
| kept_sectors ss :
    is_single_unit block = false → has_flag block (Z.lor FILE_COMPRESS FILE_IMPLODE) = true →
    sector_size h = Z.of_nat ss → (0 < ss)%nat →
    Forall (unsqueezes block) (chunks ss data) → Forall (Forall u8) (map (packed block) (chunks ss data)) →
    zlen (sector_file (is_encrypted block) key (map (packed block) (chunks ss data))) < 2 ^ 32 →
    kept h block key data (sector_file (is_encrypted block) key (map (packed block) (chunks ss data))).

Lemma copy_all n data : zlen data <= n → copy n data = data.
Proof. intros. unfold copy, zlen in *. apply firstn_all2. lia. Qed.

Lemma single_unit_read block key data :
  is_imploded block = false → (is_compressed block = true → unpacks data) → Forall u8 data →
  Forall u8 (packed block data) → file_size block = zlen data →
  read_single_unit block
    (seal (is_encrypted block) key (if is_compressed block then packed block data else data)) key (zlen data)
  = Some (Ok data).
Proof.
  intros Hi Hz Hu Hup Hfs. unfold read_single_unit.
  rewrite unseal by by destruct (is_compressed block). rewrite Hi, Hfs.
  assert (Some (@Ok MpqError _ (copy (Z.min (Z.min (zlen data) (zlen data)) (zlen data)) data)) = Some (Ok data)) as Hcopy
    by (rewrite !Z.min_id, copy_all; done).
  unfold packed, squeeze, shorter. destruct (is_compressed block); cbn [andb]; [|exact Hcopy].
  destruct (Z.ltb_spec (zlen (COMPRESSION_ZLIB :: deflate data)) (zlen data)) as [Hlt|].
  - rewrite (proj2 (Z.ltb_lt _ _) Hlt). cbn. by rewrite Hz.
  - by rewrite Z.ltb_irrefl.
Qed.

Lemma imploded_unit_read block key data :
  is_imploded block = true → is_compressed block = false → explodes data → Forall u8 (implode data) →
  read_single_unit block (seal (is_encrypted block) key (implode data)) key (zlen data) = Some (Ok data).
Proof. intros Hi Hc Hx Hu. unfold read_single_unit. rewrite unseal by done. rewrite Hc, Hi. exact Hx. Qed.

(** Sectors that are not packed are given out as they lie in the archive. *)
Lemma zlen_concat_sealed enc key ss i : zlen (concat (sealed enc key i ss)) = zlen (concat ss).
Proof. revert i. induction ss as [|s ss IH]; intros i; [done|]. cbn [sealed concat]. by rewrite !zlen_app, zlen_seal, IH. Qed.

Lemma sealed_open key ss i : sealed false key i ss = ss.
Proof. revert i. induction ss as [|s ss IH]; intros i; [done|]. cbn [sealed seal]. by rewrite IH. Qed.

Lemma plain_sectors_read h block key ss data :
  has_flag block (Z.lor FILE_COMPRESS FILE_IMPLODE) = false → sector_size h = Z.of_nat ss → (0 < ss)%nat →
  file_size block = zlen data →
  let raw := concat (sealed (is_encrypted block) key 0 (chunks ss data)) in
  read_sector_file h block raw key (zlen data) = Some (Ok (if is_encrypted block then raw else data)).
Proof.
  intros Hflag Hss Hpos Hfs raw. assert (zlen raw = zlen data) as Hl.
  { unfold raw. by rewrite zlen_concat_sealed, concat_chunks. }
  unfold read_sector_file. rewrite Hss, Hfs, Hflag, (proj2 (Z.eqb_neq _ _)) by lia. cbn [negb].
  rewrite Hl, !Z.min_id, copy_all by lia. unfold raw. destruct (is_encrypted block); [done|].
  by rewrite sealed_open, concat_chunks.
Qed.
End files.

(** C27: A file that was put into an archive comes out of it as it was: in one piece or in
    sectors of any size, the last one short; packed by zlib, imploded, or neither; encrypted
    or not, with a key that depends on its place or not; whatever the bytes.  The exception
    is an encrypted file in sectors that are not packed: it is given out as it lies in the
    archive, still encrypted. *)
Theorem read_file_roundtrip `{Codecs} deflate implode a filename f block data raw :
  open_file filename a = Ok f →
  block_at (mf_block_index f) (a_block_table a) = Some block →
  has_flag block FILE_PATCH_FILE = false → file_size block = zlen data → Forall u8 data →
  slice (a_data a) (archive_offset (a_header a) + file_pos block)
    (archive_offset (a_header a) + file_pos block + compressed_size block) = Some raw →
  kept deflate implode (a_header a) block (file_key filename block) data raw →
  read_file filename a
  = Some (Ok (if is_encrypted block && negb (is_single_unit block || has_flag block (Z.lor FILE_COMPRESS FILE_IMPLODE))
              then raw else data)).
Proof.
  intros Hopen Hblock Hpatch Hfs Hu Hraw Hkept. unfold read_file. rewrite Hopen. unfold file_read.
  assert (mf_size f = file_size block ∧ mf_filename f = filename) as [-> ->].
  { unfold open_file in Hopen. destruct (find_block_index _ _) as [i|]; [|done].
    destruct (block_at i _) as [b|] eqn:E; [|done]. injection Hopen as <-. cbn in *. by simplify_eq. }
  unfold read_file_by_block. rewrite Hblock, Hfs.
  destruct (Z.eqb_spec (zlen data) 0) as [H0|H0].
  { assert (data = []) as ->.
    { destruct data; [done|]. rewrite zlen_cons in H0. pose proof (zlen_nonneg data). lia. }
    destruct Hkept as [Hs|Hs|ss Hs Hf|ss Hs Hf]; rewrite Hs, ?Hf, ?orb_true_r, ?andb_false_r; try done.
    by destruct (is_encrypted block). }
  rewrite Hpatch, (proj2 (Z.ltb_ge _ _)) by by eapply slice_bound. rewrite Hraw. cbn [mbind option_bind].
  assert (data ≠ []) as Hne by by intros ->.
  destruct Hkept as [Hs Hi Hz Hup|Hs Hi Hc Hx Hup|ss Hs Hflag Hss Hpos|ss Hs Hc Hss Hpos Hz Hup Hlen]; rewrite Hs.
  - rewrite andb_false_r. by apply (single_unit_read deflate implode).
  - rewrite andb_false_r. by apply imploded_unit_read.
  - rewrite Hflag, andb_true_r. by apply plain_sectors_read.
  - rewrite Hc, andb_false_r. by apply sector_file_read.
Qed.

(** ** A small archive

    Two encrypted files of two sectors: one packed by [run_codecs], one not packed. *)
Definition run_deflate (s : bytes) : bytes := take 1 s.

Definition sample_data : bytes := replicate 600 7.
Definition sample_name : bytes := str "scripts/war3map.j".
Definition plain_name : bytes := str "war3map.w3e".
Definition sample_block : MpqBlockEntry :=
  mkBlockEntry 32 16 600 (FILE_COMPRESS + FILE_ENCRYPTED + FILE_FIX_KEY).
Definition plain_block : MpqBlockEntry := mkBlockEntry 48 600 600 FILE_ENCRYPTED.
Definition sample_raw : bytes :=
  sector_file true (file_key sample_name sample_block)
    (map (packed run_deflate id sample_block) (chunks 512 sample_data)).
Definition plain_raw : bytes := concat (sealed true (file_key plain_name plain_block) 0 (chunks 512 sample_data)).

Definition sample_archive : Archive :=
  mkArchive (sample_header ++ sample_raw ++ plain_raw) (mkHeader 0 32 32 0 0 512 32 32 0 0)
    (<[start_of 4 plain_name := sample_entry plain_name 1]>
       (<[start_of 4 sample_name := sample_entry sample_name 0]> (replicate 4 empty_entry)))
    [sample_block; plain_block].

Lemma read_file_roundtrip_witness :
  read_file (C := run_codecs) sample_name sample_archive = Some (Ok sample_data) ∧
  read_file (C := run_codecs) plain_name sample_archive = Some (Ok plain_raw) ∧ plain_raw ≠ sample_data.
Proof.
  split; [|split; [|vm_compute; discriminate]].
  - apply (read_file_roundtrip (H := run_codecs) run_deflate id sample_archive sample_name
             (mkFile sample_name 0 600) sample_block sample_data sample_raw);
      [vm_compute; reflexivity..|apply (bool_decide_unpack _); vm_compute; reflexivity|vm_compute; reflexivity|].
    apply (kept_sectors (C := run_codecs) run_deflate id (a_header sample_archive) sample_block
             (file_key sample_name sample_block) sample_data 512); [reflexivity|reflexivity|reflexivity|lia|..].
    + apply (bool_decide_unpack _). vm_compute. reflexivity.
    + apply (bool_decide_unpack _). vm_compute. reflexivity.
    + vm_compute. reflexivity.
  - apply (read_file_roundtrip (H := run_codecs) run_deflate id sample_archive plain_name
             (mkFile plain_name 1 600) plain_block sample_data plain_raw);
      [vm_compute; reflexivity..|apply (bool_decide_unpack _); vm_compute; reflexivity|vm_compute; reflexivity|].
    apply (kept_plain (C := run_codecs) run_deflate id (a_header sample_archive) plain_block
             (file_key plain_name plain_block) sample_data 512); [reflexivity|reflexivity|reflexivity|lia].
Defined.
