(* ===== verification/Bncs.v ===== *)
(** The Battle.net protocol (spectre-protocol, src/bncs): packet ids, the decoders of the
    server's packets and the builders of the client's.

    The decoders that index their payload return an option: [None] is a panic, a slice out
    of range. *)
From S2P Require Import Prelude Utf8 BytesExt Frame Text.

(** ** Packet ids (ids.rs) *)
Module ids.
Definition SID_NULL : Z := 0.
Definition SID_STOPADV : Z := 2.
Definition SID_SERVERLIST : Z := 4.
Definition SID_CLIENTID : Z := 5.
Definition SID_GETICONDATA : Z := 7.
Definition SID_GETLADDERDATA : Z := 8.
Definition SID_GETADVLISTEX : Z := 9.
Definition SID_ENTERCHAT : Z := 10.
Definition SID_GETCHANNELLIST : Z := 11.
Definition SID_JOINCHANNEL : Z := 12.
Definition SID_CHATCOMMAND : Z := 14.
Definition SID_CHATEVENT : Z := 15.
Definition SID_LEAVECHAT : Z := 16.
Definition SID_LOCALEINFO : Z := 18.
Definition SID_FLOODDETECTED : Z := 19.
Definition SID_UDPPINGRESPONSE : Z := 20.
Definition SID_CHECKAD : Z := 21.
Definition SID_CLICKAD : Z := 22.
Definition SID_READUSERDATA : Z := 26.
Definition SID_WRITEUSERDATA : Z := 27.
Definition SID_STARTADVEX3 : Z := 28.
Definition SID_NOTIFYJOIN : Z := 34.
Definition SID_PING : Z := 37.
Definition SID_READMOUSEDATA : Z := 38.
Definition SID_WRITEMOUSEDATA : Z := 39.
Definition SID_LOGONRESPONSE : Z := 41.
Definition SID_CREATEACCOUNT : Z := 45.
Definition SID_CHANGEPASSWORD : Z := 49.
Definition SID_LOGONRESPONSE2 : Z := 58.
Definition SID_AUTH_ACCOUNTCREATE : Z := 61.
Definition SID_SETEMAIL : Z := 62.
Definition SID_RESETPASSWORD : Z := 64.
Definition SID_CHANGEEMAIL : Z := 65.
Definition SID_SWITCHCDKEY : Z := 67.
Definition SID_NETGAMEPORT : Z := 69.
Definition SID_NEWS_INFO : Z := 70.
Definition SID_AUTH_INFO : Z := 80.
Definition SID_AUTH_CHECK : Z := 81.
Definition SID_AUTH_ACCOUNTLOGON : Z := 83.
Definition SID_AUTH_ACCOUNTLOGONPROOF : Z := 84.
Definition SID_AUTH_ACCOUNTCHANGE : Z := 85.
Definition SID_AUTH_ACCOUNTCHANGEPROOF : Z := 86.
Definition SID_AUTH_ACCOUNTUPGRADE : Z := 87.
Definition SID_AUTH_ACCOUNTUPGRADEPROOF : Z := 88.
Definition SID_SETICONDATA : Z := 89.
Definition SID_WARCRAFTGENERAL : Z := 92.
Definition SID_WARDEN : Z := 94.
Definition SID_FRIENDSLIST : Z := 101.
Definition SID_FRIENDSUPDATE : Z := 102.
Definition SID_FRIENDSADD : Z := 103.
Definition SID_FRIENDSREMOVE : Z := 104.
Definition SID_FRIENDSPOSITION : Z := 105.
Definition SID_CLANCREATIONINVITATION : Z := 114.
Definition SID_CLANINVITATION : Z := 119.
Definition SID_CLANREMOVEMEMBER : Z := 120.
Definition SID_CLANINVITATIONRESPONSE : Z := 121.
Definition SID_CLANCHANGERANK : Z := 122.
Definition SID_CLANSETMOTD : Z := 123.
Definition SID_CLANMEMBERLIST : Z := 125.
Definition SID_CLANMEMBERREMOVED : Z := 126.
Definition SID_CLANMEMBERSTATUSCHANGE : Z := 127.
Definition SID_CLANMEMBERRANKCHANGE : Z := 129.
Definition SID_CLANMEMBERINFORMATION : Z := 130.
Definition SID_ICCUP_ANTIHACK : Z := 247.
Definition SID_ICCUP_CHALLENGE : Z := 249.
End ids.

(** The arms of [packet_name], in their order. *)
Definition packet_names : list (Z * string) := [
  (ids.SID_NULL, "SID_NULL (0x00)"%string);
  (ids.SID_STOPADV, "SID_STOPADV (0x02)"%string);
  (ids.SID_SERVERLIST, "SID_SERVERLIST (0x04)"%string);
  (ids.SID_CLIENTID, "SID_CLIENTID (0x05)"%string);
  (ids.SID_GETICONDATA, "SID_GETICONDATA (0x07)"%string);
  (ids.SID_GETLADDERDATA, "SID_GETLADDERDATA (0x08)"%string);
  (ids.SID_GETADVLISTEX, "SID_GETADVLISTEX (0x09)"%string);
  (ids.SID_ENTERCHAT, "SID_ENTERCHAT (0x0A)"%string);
  (ids.SID_GETCHANNELLIST, "SID_GETCHANNELLIST (0x0B)"%string);
  (ids.SID_JOINCHANNEL, "SID_JOINCHANNEL (0x0C)"%string);
  (ids.SID_CHATCOMMAND, "SID_CHATCOMMAND (0x0E)"%string);
  (ids.SID_CHATEVENT, "SID_CHATEVENT (0x0F)"%string);
  (ids.SID_LEAVECHAT, "SID_LEAVECHAT (0x10)"%string);
  (ids.SID_LOCALEINFO, "SID_LOCALEINFO (0x12)"%string);
  (ids.SID_FLOODDETECTED, "SID_FLOODDETECTED (0x13)"%string);
  (ids.SID_UDPPINGRESPONSE, "SID_UDPPINGRESPONSE (0x14)"%string);
  (ids.SID_CHECKAD, "SID_CHECKAD (0x15)"%string);
  (ids.SID_CLICKAD, "SID_CLICKAD (0x16)"%string);
  (ids.SID_READUSERDATA, "SID_READUSERDATA (0x1A)"%string);
  (ids.SID_WRITEUSERDATA, "SID_WRITEUSERDATA (0x1B)"%string);
  (ids.SID_STARTADVEX3, "SID_STARTADVEX3 (0x1C)"%string);
  (ids.SID_NOTIFYJOIN, "SID_NOTIFYJOIN (0x22)"%string);
  (ids.SID_PING, "SID_PING (0x25)"%string);
  (ids.SID_READMOUSEDATA, "SID_READMOUSEDATA (0x26)"%string);
  (ids.SID_WRITEMOUSEDATA, "SID_WRITEMOUSEDATA (0x27)"%string);
  (ids.SID_LOGONRESPONSE, "SID_LOGONRESPONSE (0x29)"%string);
  (ids.SID_CREATEACCOUNT, "SID_CREATEACCOUNT (0x2D)"%string);
  (ids.SID_CHANGEPASSWORD, "SID_CHANGEPASSWORD (0x31)"%string);
  (ids.SID_LOGONRESPONSE2, "SID_LOGONRESPONSE2 (0x3A)"%string);
  (ids.SID_AUTH_ACCOUNTCREATE, "SID_AUTH_ACCOUNTCREATE (0x3D)"%string);
  (ids.SID_SETEMAIL, "SID_SETEMAIL (0x3E)"%string);
  (ids.SID_RESETPASSWORD, "SID_RESETPASSWORD (0x40)"%string);
  (ids.SID_CHANGEEMAIL, "SID_CHANGEEMAIL (0x41)"%string);
  (ids.SID_SWITCHCDKEY, "SID_SWITCHCDKEY (0x43)"%string);
  (ids.SID_NETGAMEPORT, "SID_NETGAMEPORT (0x45)"%string);
  (ids.SID_NEWS_INFO, "SID_NEWS_INFO (0x46)"%string);
  (ids.SID_AUTH_INFO, "SID_AUTH_INFO (0x50)"%string);
  (ids.SID_AUTH_CHECK, "SID_AUTH_CHECK (0x51)"%string);
  (ids.SID_AUTH_ACCOUNTLOGON, "SID_AUTH_ACCOUNTLOGON (0x53)"%string);
  (ids.SID_AUTH_ACCOUNTLOGONPROOF, "SID_AUTH_ACCOUNTLOGONPROOF (0x54)"%string);
  (ids.SID_AUTH_ACCOUNTCHANGE, "SID_AUTH_ACCOUNTCHANGE (0x55)"%string);
  (ids.SID_AUTH_ACCOUNTCHANGEPROOF, "SID_AUTH_ACCOUNTCHANGEPROOF (0x56)"%string);
  (ids.SID_AUTH_ACCOUNTUPGRADE, "SID_AUTH_ACCOUNTUPGRADE (0x57)"%string);
  (ids.SID_AUTH_ACCOUNTUPGRADEPROOF, "SID_AUTH_ACCOUNTUPGRADEPROOF (0x58)"%string);
  (ids.SID_SETICONDATA, "SID_SETICONDATA (0x59)"%string);
  (ids.SID_WARCRAFTGENERAL, "SID_WARCRAFTGENERAL (0x5C)"%string);
  (ids.SID_WARDEN, "SID_WARDEN (0x5E)"%string);
  (ids.SID_FRIENDSLIST, "SID_FRIENDSLIST (0x65)"%string);
  (ids.SID_FRIENDSUPDATE, "SID_FRIENDSUPDATE (0x66)"%string);
  (ids.SID_FRIENDSADD, "SID_FRIENDSADD (0x67)"%string);
  (ids.SID_FRIENDSREMOVE, "SID_FRIENDSREMOVE (0x68)"%string);
  (ids.SID_FRIENDSPOSITION, "SID_FRIENDSPOSITION (0x69)"%string);
  (ids.SID_CLANCREATIONINVITATION, "SID_CLANCREATIONINVITATION (0x72)"%string);
  (ids.SID_CLANINVITATION, "SID_CLANINVITATION (0x77)"%string);
  (ids.SID_CLANREMOVEMEMBER, "SID_CLANREMOVEMEMBER (0x78)"%string);
  (ids.SID_CLANINVITATIONRESPONSE, "SID_CLANINVITATIONRESPONSE (0x79)"%string);
  (ids.SID_CLANCHANGERANK, "SID_CLANCHANGERANK (0x7A)"%string);
  (ids.SID_CLANSETMOTD, "SID_CLANSETMOTD (0x7B)"%string);
  (ids.SID_CLANMEMBERLIST, "SID_CLANMEMBERLIST (0x7D)"%string);
  (ids.SID_CLANMEMBERREMOVED, "SID_CLANMEMBERREMOVED (0x7E)"%string);
  (ids.SID_CLANMEMBERRANKCHANGE, "SID_CLANMEMBERRANKCHANGE (0x81)"%string);
  (ids.SID_CLANMEMBERINFORMATION, "SID_CLANMEMBERINFORMATION (0x82)"%string);
  (ids.SID_ICCUP_ANTIHACK, "SID_ICCUP_ANTIHACK (0xF7)"%string);
  (ids.SID_ICCUP_CHALLENGE, "SID_ICCUP_CHALLENGE (0xF9)"%string)].

Definition packet_name (id : Z) : string :=
  match List.find (λ e, e.1 =? id) packet_names with
  | Some e => e.2
  | None => "UNKNOWN_SID"%string
  end.

Definition BNCS_HEADER : Z := 255.

(** [Frame::new(id, p).encode_with(BNCS_HEADER)]. *)
Definition frame (id : Z) (p : bytes) : result ProtoError bytes := encode_with BNCS_HEADER (mkFrame id p).

(** ** Packets to the server (outgoing.rs) *)

Definition null : bytes := expect_frame BNCS_HEADER (mkFrame ids.SID_NULL []).
Definition stopadv : bytes := expect_frame BNCS_HEADER (mkFrame ids.SID_STOPADV []).

Definition getadvlistex (game_name : bytes) : result ProtoError bytes :=
  frame ids.SID_GETADVLISTEX
    ([255; 3; 0; 0] ++ [255; 3; 0; 0] ++ [0; 0; 0; 0] ++ [1; 0; 0; 0] ++ put_cstring game_name ++ [0] ++ [0]).

Definition enter_chat : result ProtoError bytes := frame ids.SID_ENTERCHAT ([0] ++ [0]).

Definition join_channel (channel : bytes) : result ProtoError bytes :=
  let flags := match channel with [] => 1 | _ => 2 end in
  frame ids.SID_JOINCHANNEL (le_bytes 4 flags ++ put_cstring channel).

Definition chat_command (command : bytes) : result ProtoError bytes :=
  frame ids.SID_CHATCOMMAND (put_cstring command).

Definition checkad : bytes := expect_frame BNCS_HEADER (mkFrame ids.SID_CHECKAD (replicate 16 0)).

Inductive GameVisibility := Public | Private | Close.

Definition as_u8 (v : GameVisibility) : Z :=
  match v with Public => 16 | Private => 17 | Close => 18 end.

(** A digit of [{:x}], and [format!("{:0n$x}", x)] for a number that fits. *)
Definition hex_char (d : Z) : Z := if d <? 10 then 48 + d else 87 + d.
Fixpoint hex_rev (n : nat) (x : Z) : bytes :=
  match n with
  | O => []
  | S n => hex_char (x mod 16) :: hex_rev n (x / 16)
  end.
Definition hex_pad (n : nat) (x : Z) : bytes := rev (hex_rev n x).

(** [s.chars().rev().collect()] *)
Definition rev_chars (s : bytes) : bytes := concat (rev (chars s)).

Definition startadvex3_payload (visibility : GameVisibility) (map_game_type game_name : bytes)
    (up_time : Z) (stat_string : bytes) (host_counter : Z) : bytes :=
  let host_counter_string := rev_chars (hex_pad 8 host_counter) in
  [as_u8 visibility] ++ [0; 0; 0] ++ le_bytes 4 up_time ++ map_game_type ++ [255; 3; 0; 0]
    ++ [0; 0; 0; 0] ++ put_cstring game_name ++ [0] ++ [98] ++ host_counter_string ++ stat_string ++ [0].

Definition startadvex3 (visibility : GameVisibility) (map_game_type game_name _host_name : bytes)
    (up_time : Z) (stat_string : bytes) (host_counter : Z) : result ProtoError bytes :=
  if 128 <=? zlen stat_string
  then Err (BadValue "stat string size exceeds Battle.net limit (must be < 128 bytes)")
  else frame ids.SID_STARTADVEX3
         (startadvex3_payload visibility map_game_type game_name up_time stat_string host_counter).

Definition notifyjoin (game_name : bytes) : result ProtoError bytes :=
  frame ids.SID_NOTIFYJOIN ([0; 0; 0; 0] ++ [14; 0; 0; 0] ++ put_cstring game_name).

Definition ping (value : bytes) : bytes := expect_frame BNCS_HEADER (mkFrame ids.SID_PING value).

Definition logon_response (client_token server_token password_hash account_name : bytes)
  : result ProtoError bytes :=
  frame ids.SID_LOGONRESPONSE (client_token ++ server_token ++ password_hash ++ put_cstring account_name).

Definition logon_response2 (client_token server_token password_hash account_name : bytes)
  : result ProtoError bytes :=
  frame ids.SID_LOGONRESPONSE2 (client_token ++ server_token ++ password_hash ++ put_cstring account_name).

Definition auth_accountlogon (client_public_key account_name : bytes) : result ProtoError bytes :=
  frame ids.SID_AUTH_ACCOUNTLOGON (client_public_key ++ put_cstring account_name).

Definition auth_accountlogonproof (client_password_proof : bytes) : result ProtoError bytes :=
  frame ids.SID_AUTH_ACCOUNTLOGONPROOF client_password_proof.

Definition friendslist : result ProtoError bytes := frame ids.SID_FRIENDSLIST [].
Definition clanmemberlist : result ProtoError bytes := frame ids.SID_CLANMEMBERLIST [0; 0; 0; 0].

Definition netgameport (server_port : Z) : bytes :=
  expect_frame BNCS_HEADER (mkFrame ids.SID_NETGAMEPORT (le_bytes 2 server_port)).

Definition auth_info (ver : Z) (tft : bool) (locale_id : Z) (country_abbrev country : bytes)
  : result ProtoError bytes :=
  frame ids.SID_AUTH_INFO
    ([0; 0; 0; 0] ++ [54; 56; 88; 73] ++ (if tft then [80; 88; 51; 87] else [51; 82; 65; 87])
       ++ [ver; 0; 0; 0] ++ [83; 85; 110; 101] ++ [127; 0; 0; 1] ++ [44; 1; 0; 0]
       ++ le_bytes 4 locale_id ++ le_bytes 4 locale_id
       ++ put_cstring country_abbrev ++ put_cstring country).

Definition auth_check (tft : bool) (client_token exe_version exe_version_hash key_info_roc
    key_info_tft exe_info key_owner_name : bytes) : result ProtoError bytes :=
  let num_keys := if tft then 2 else 1 in
  frame ids.SID_AUTH_CHECK
    (client_token ++ exe_version ++ exe_version_hash ++ le_bytes 4 num_keys ++ le_bytes 4 0
       ++ key_info_roc ++ (if tft then key_info_tft else [])
       ++ put_cstring exe_info ++ put_cstring key_owner_name).

Definition account_logon (client_public_key account_name : bytes) : result ProtoError bytes :=
  frame ids.SID_AUTH_ACCOUNTLOGON (client_public_key ++ put_cstring account_name).

Definition account_logon_proof (client_password_proof : bytes) : result ProtoError bytes :=
  frame ids.SID_AUTH_ACCOUNTLOGONPROOF client_password_proof.

Definition claninvitation (account_name : bytes) : result ProtoError bytes :=
  frame ids.SID_CLANINVITATION ([0; 0; 0; 0] ++ put_cstring account_name).

Definition clanremovemember (account_name : bytes) : result ProtoError bytes :=
  frame ids.SID_CLANREMOVEMEMBER ([0; 0; 0; 0] ++ put_cstring account_name).

Definition clanchangerank (account_name : bytes) (rank : Z) : result ProtoError bytes :=
  frame ids.SID_CLANCHANGERANK ([0; 0; 0; 0] ++ put_cstring account_name ++ [rank]).

Definition clansetmotd (motd : bytes) : result ProtoError bytes :=
  frame ids.SID_CLANSETMOTD ([0; 0; 0; 0] ++ put_cstring motd).

Definition clancreationinvitation (tag inviter_name : bytes) (accept : bool) : result ProtoError bytes :=
  frame ids.SID_CLANCREATIONINVITATION
    ([0; 0; 0; 0] ++ tag ++ put_cstring inviter_name ++ [if accept then 6 else 4]).

Definition claninvitationresponse (tag inviter_name : bytes) (accept : bool) : result ProtoError bytes :=
  frame ids.SID_CLANINVITATIONRESPONSE
    ([0; 0; 0; 0] ++ tag ++ put_cstring inviter_name ++ [if accept then 6 else 4]).

Definition warden (response : bytes) : result ProtoError bytes := frame ids.SID_WARDEN response.

Definition iccup_antihack (payload : bytes) : result ProtoError bytes := frame ids.SID_ICCUP_ANTIHACK payload.

Definition iccup_challenge_reply (challenge : bytes) : result ProtoError bytes :=
  frame ids.SID_ICCUP_ANTIHACK
    (if 8 <=? zlen challenge
     then [0; 105; 89; 47] ++ take 4 challenge ++ [122; 193; 21; 90] ++ take 4 (drop 4 challenge)
          ++ [39; 0; 0; 10; 10; 0; 0; 174]
     else [0; 105; 89; 47; 221; 233; 8; 107; 122; 193; 21; 90; 251; 147;
           29; 141; 39; 0; 0; 10; 10; 0; 0; 174]).

(** ** Packets from the server (incoming.rs) *)

Record AuthInfo := mkAuthInfo {
  logon_type : Z; server_token : Z; mpq_file_time : Z; ix86_ver_file_name : bytes;
  value_string_formula : bytes }.

Definition AuthInfo_reader : reader AuthInfo :=
  logon_type ← try_get_u32_le;
  server_token ← try_get_u32_le;
  _ ← try_get_bytes 4;
  mpq_low ← try_get_u32_le;
  mpq_high ← try_get_u32_le;
  let mpq_file_time := Z.lor (wrap 64 (Z.shiftl mpq_high 32)) mpq_low in
  ix86_ver_file_name ← try_get_cstring;
  value_string_formula ← try_get_cstring;
  mret (mkAuthInfo logon_type server_token mpq_file_time ix86_ver_file_name value_string_formula).
Definition AuthInfo_decode (payload : bytes) : result ProtoError AuthInfo := run AuthInfo_reader payload.

(** [try_get_cstring().unwrap_or_default()].  When it fails it has taken every byte. *)
Definition cstring_or_default : reader bytes := λ b,
  match try_get_cstring b with Ok r => Ok r | Err _ => Ok ([], []) end.

(** [trim_end_matches('\0')] *)
Fixpoint trim_end_nul (s : bytes) : bytes :=
  match s with
  | [] => []
  | b :: s => match trim_end_nul s with
              | [] => if b =? 0 then [] else [b]
              | t => b :: t
              end
  end.

(** [if !b.is_empty() { b.try_get_cstring().unwrap_or_else(..) } else { String::new() }]:
    what is left after a failure is nothing. *)
Definition cstring_or_rest : reader bytes := λ b,
  match b with
  | [] => Ok ([], [])
  | _ => match try_get_cstring b with
         | Ok r => Ok r
         | Err _ => let left := [] in
                    (λ r, (trim_end_nul (from_utf8_lossy r.1), r.2)) <$> try_get_bytes (zlen left) left
         end
  end.

Record AuthCheck := mkAuthCheck { key_state : Z; key_state_description : bytes }.

Definition AuthCheck_reader : reader AuthCheck :=
  key_state ← try_get_u32_le;
  key_state_description ← cstring_or_default;
  mret (mkAuthCheck key_state key_state_description).
Definition AuthCheck_decode (payload : bytes) : result ProtoError AuthCheck := run AuthCheck_reader payload.

Record AccountLogon := mkAccountLogon { al_status : Z; salt : bytes; server_public_key : bytes }.

Definition AccountLogon_reader : reader AccountLogon :=
  status ← try_get_u32_le;
  left ← remaining;
  if (status =? 0) && (64 <=? left) then
    s ← try_get_bytes 32;
    k ← try_get_bytes 32;
    mret (mkAccountLogon status s k)
  else mret (mkAccountLogon status (replicate 32 0) (replicate 32 0)).
Definition AccountLogon_decode (payload : bytes) : result ProtoError AccountLogon :=
  run AccountLogon_reader payload.

Record LogonProof := mkLogonProof { lp_status : Z; server_password_proof : bytes; lp_message : bytes }.

Definition LogonProof_reader : reader LogonProof :=
  status ← try_get_u32_le;
  left ← remaining;
  proof ← (if 20 <=? left then try_get_bytes 20 else mret (replicate 20 0));
  message ← cstring_or_rest;
  mret (mkLogonProof status proof message).
Definition LogonProof_decode (payload : bytes) : result ProtoError LogonProof := run LogonProof_reader payload.

Record ChatEvent := mkChatEvent { event_id : Z; ce_ping : Z; ce_user : bytes; ce_message : bytes }.

Definition ChatEvent_reader : reader ChatEvent :=
  event_id ← try_get_u32_le;
  _ ← try_get_u32_le;
  ping ← try_get_u32_le;
  _ ← try_get_bytes 4;
  _ ← try_get_bytes 4;
  _ ← try_get_bytes 4;
  user ← cstring_or_default;
  message ← cstring_or_rest;
  mret (mkChatEvent event_id ping user message).
Definition ChatEvent_decode (payload : bytes) : result ProtoError ChatEvent := run ChatEvent_reader payload.

Definition decode_ping (payload : bytes) : result ProtoError bytes := run (try_get_bytes 4) payload.

Record AdvListEntry := mkAdvListEntry {
  adv_ip : bytes; adv_port : Z; adv_game_name : bytes; adv_host_counter : option Z }.

(** [std::str::from_utf8(s).ok()]: a text is well-formed when nothing had to be replaced. *)
Definition from_utf8 (s : bytes) : option bytes := if bytes_eqb (from_utf8_lossy s) s then Some s else None.

(** [.ok_or(e)?] *)
Definition ok_or {A} (o : option A) (e : ProtoError) : result ProtoError A :=
  match o with Some a => Ok a | None => Err e end.

Definition decode_getadvlistex (payload : bytes) : result ProtoError (option AdvListEntry) :=
  let have := zlen payload in
  games_found_bytes ← ok_or (slice payload 0 4) (Truncated 4 have);
  if le_val games_found_bytes =? 0 then Ok None else
  if have <? 20 then Err (Truncated 20 have) else
  port_bytes ← ok_or (slice payload 14 16) (Truncated 16 have);
  let port := le_val (rev port_bytes) in
  ip ← ok_or (slice payload 16 20) (Truncated 20 have);
  name_slice ← ok_or (slice payload 20 have) (Truncated 21 have);
  nul_pos ← ok_or (Z.of_nat <$> position (Z.eqb 0) name_slice) UnterminatedString;
  name_bytes ← ok_or (slice name_slice 0 nul_pos) UnterminatedString;
  let game_name := from_utf8_lossy name_bytes in
  let hc_start := nul_pos + 23 in
  let hc_end := hc_start + 8 in
  hc_bytes ← ok_or (slice payload hc_start hc_end) (Truncated hc_end have);
  let host_counter := s ← from_utf8 hc_bytes; u32_from_hex (rev_chars s) in
  Ok (Some (mkAdvListEntry ip port game_name host_counter)).

(** [payload[offset..].iter().position(|&b| b == 0)], the text before it, and the offset
    behind it. *)
Definition cstring_at (payload : bytes) (offset : Z) : option (result ProtoError (bytes * Z)) :=
  s ← slice payload offset (zlen payload);
  match position (Z.eqb 0) s with
  | None => Some (Err UnterminatedString)
  | Some nul_pos =>
    t ← slice payload offset (offset + Z.of_nat nul_pos);
    Some (Ok (from_utf8_lossy t, offset + Z.of_nat nul_pos + 1))
  end.

Definition byte_at (payload : bytes) (offset : Z) : option Z := payload !! Z.to_nat offset.

(** A turn of the loop over a list: [break], or an entry and the offset behind it. *)
Inductive turn (A : Type) := Break | Next (a : A) (offset : Z).
Arguments Break {A}.
Arguments Next {A}.

(** [for _ in 0..total]. *)
Fixpoint list_loop {A} (entry_at : bytes → Z → option (result ProtoError (turn A)))
    (n : nat) (payload : bytes) (offset : Z) (entries : list A) : option (result ProtoError (list A)) :=
  match n with
  | O => Some (Ok entries)
  | S n => try_ (entry_at payload offset) (λ t,
             match t with
             | Break => Some (Ok entries)
             | Next a offset => list_loop entry_at n payload offset (entries ++ [a])
             end)
  end.

Record FriendListEntry := mkFriend { fl_account : bytes; fl_status : Z; fl_area : Z; fl_location : bytes }.

Definition friend_at (payload : bytes) (offset : Z) : option (result ProtoError (turn FriendListEntry)) :=
  if zlen payload <=? offset then Some (Ok Break) else
  try_ (cstring_at payload offset) (λ '(account, offset),
    if zlen payload <? offset + 6 then Some (Ok Break) else
    status ← byte_at payload offset;
    area ← byte_at payload (offset + 1);
    let offset := offset + 6 in
    if zlen payload <? offset then Some (Ok Break) else
    try_ (cstring_at payload offset) (λ '(location, offset),
      Some (Ok (Next (mkFriend account status area location) offset)))).

Definition decode_friendslist (payload : bytes) : option (result ProtoError (list FriendListEntry)) :=
  match payload with
  | [] => Some (Err (Truncated 1 0))
  | total :: _ => list_loop friend_at (Z.to_nat total) payload 1 []
  end.

Record ClanMemberEntry := mkMember { cm_name : bytes; cm_rank : Z; cm_status : Z; cm_location : bytes }.

Definition member_at (payload : bytes) (offset : Z) : option (result ProtoError (turn ClanMemberEntry)) :=
  if zlen payload <=? offset then Some (Ok Break) else
  try_ (cstring_at payload offset) (λ '(name, offset),
    if zlen payload <? offset + 2 then Some (Ok Break) else
    rank ← byte_at payload offset;
    status ← byte_at payload (offset + 1);
    let offset := offset + 2 in
    try_ (cstring_at payload offset) (λ '(location, offset),
      Some (Ok (Next (mkMember name rank status location) offset)))).

Definition decode_clanmemberlist (payload : bytes) : option (result ProtoError (list ClanMemberEntry)) :=
  if zlen payload <? 5 then Some (Err (Truncated 5 (zlen payload))) else
  total ← byte_at payload 4;
  list_loop member_at (Z.to_nat total) payload 5 [].

Record ClanInvite := mkClanInvite { ci_tag : bytes; ci_clan_name : bytes; ci_inviter_name : bytes }.

Definition decode_clancreationinvitation (payload : bytes) : option (result ProtoError ClanInvite) :=
  if zlen payload <? 8 then Some (Err (Truncated 8 (zlen payload))) else
  tag ← slice payload 4 8;
  try_ (cstring_at payload 8) (λ '(clan_name, offset),
    try_ (cstring_at payload offset) (λ '(inviter_name, _),
      Some (Ok (mkClanInvite tag clan_name inviter_name)))).

Definition decode_claninvitationresponse (payload : bytes) : option (result ProtoError ClanInvite) :=
  decode_clancreationinvitation payload.

Definition decode_warden (payload : bytes) : result ProtoError bytes := Ok payload.
Definition decode_checkad (_ : bytes) : result ProtoError () := Ok ().

(** ** Texts and entries inside a payload *)

Lemma position_first_nul s rest : Forall (λ b, b ≠ 0) s → position (Z.eqb 0) (s ++ 0 :: rest) = Some (length s).
Proof.
  induction 1 as [|b s Hb Hs IH]; [done|]. cbn [app position length].
  destruct (Z.eqb_spec 0 b); [congruence|]. by rewrite IH.
Qed.

Lemma position_no_nul s : Forall (λ b, b ≠ 0) s → position (Z.eqb 0) s = None.
Proof.
  induction 1 as [|b s Hb Hs IH]; [done|]. cbn [position].
  destruct (Z.eqb_spec 0 b); [congruence|]. by rewrite IH.
Qed.

Lemma cstring_at_reads pre s rest :
  cstring_ok s →
  cstring_at (pre ++ put_cstring s ++ rest) (zlen pre) = Some (Ok (s, zlen pre + zlen (put_cstring s))).
Proof.
  intros [Hv Hs]. unfold cstring_at, put_cstring. rewrite <- (app_assoc s).
  rewrite slice_to_end. cbn [mbind option_bind app]. rewrite position_first_nul by done.
  change (Z.of_nat (length s)) with (zlen s). rewrite slice_app. cbn [mbind option_bind].
  rewrite from_utf8_lossy_valid by done. rewrite zlen_app. change (zlen [0]) with 1. by rewrite Z.add_assoc.
Qed.

Lemma cstring_at_cut pre s p q :
  cstring_ok s → put_cstring s = p ++ q → q ≠ [] →
  cstring_at (pre ++ p) (zlen pre) = Some (Err UnterminatedString).
Proof.
  intros [_ Hs] Hpq Hq. unfold cstring_at.
  pose proof (slice_to_end pre p) as ->. cbn [mbind option_bind]. rewrite position_no_nul; [done|].
  unfold put_cstring in Hpq. destruct q as [|y q _] using rev_ind; [done|].
  rewrite app_assoc in Hpq. apply app_inj_tail in Hpq as [-> _]. by apply Forall_app in Hs as [? _].
Qed.

(** The text read ends within the payload. *)
Lemma cstring_at_total payload offset :
  0 <= offset <= zlen payload →
  ∃ r, cstring_at payload offset = Some r ∧ ∀ s o, r = Ok (s, o) → offset < o <= zlen payload.
Proof.
  intros Ho. unfold cstring_at.
  destruct (slice_ok payload offset (zlen payload)) as (s & -> & Hs); [lia..|]. cbn [mbind option_bind].
  destruct (position (Z.eqb 0) s) as [n|] eqn:E; [|by eexists].
  apply position_lt in E. unfold zlen in Hs at 1.
  destruct (slice_ok payload offset (offset + Z.of_nat n)) as (t & -> & _); [lia..|]. cbn [mbind option_bind].
  eexists. split; [done|]. intros ? ? [= _ <-]. lia.
Qed.

Lemma byte_at_total payload offset : 0 <= offset < zlen payload → ∃ b, byte_at payload offset = Some b.
Proof. intros. apply lookup_lt_is_Some_2. unfold zlen in *. lia. Qed.

Lemma byte_at_app pre b rest : byte_at (pre ++ b :: rest) (zlen pre) = Some b.
Proof. unfold byte_at, zlen. rewrite Nat2Z.id. by apply list_lookup_middle. Qed.

(** The same at an offset into a payload given by a layout. *)
Lemma cstring_at_off payload offset pre s rest o :
  cstring_ok s → payload = pre ++ put_cstring s ++ rest → offset = zlen pre → o = offset + zlen s + 1 →
  cstring_at payload offset = Some (Ok (s, o)).
Proof.
  intros Hs -> -> ->. rewrite cstring_at_reads by done. do 3 f_equal. unfold put_cstring. rewrite zlen_app.
  change (zlen [0]) with 1. lia.
Qed.

Lemma cstring_at_off_cut payload offset pre s p q :
  cstring_ok s → payload = pre ++ p → put_cstring s = p ++ q → q ≠ [] → offset = zlen pre →
  cstring_at payload offset = Some (Err UnterminatedString).
Proof. intros Hs -> Hpq Hq ->. by eapply cstring_at_cut. Qed.

Lemma byte_at_off payload offset pre b rest :
  payload = pre ++ b :: rest → offset = zlen pre → byte_at payload offset = Some b.
Proof. intros -> ->. apply byte_at_app. Qed.

(** What the entries of a list promise to the loop over it: [wire a bs] is the layout of
    an entry. *)
Class EntryLaws {A} (entry_at : bytes → Z → option (result ProtoError (turn A)))
    (wire : A → bytes → Prop) : Prop := {
  entry_total payload offset :
    0 <= offset →
    ∃ r, entry_at payload offset = Some r ∧ ∀ a o, r = Ok (Next a o) → 0 <= o;
  entry_reads pre a bs rest :
    wire a bs → entry_at (pre ++ bs ++ rest) (zlen pre) = Some (Ok (Next a (zlen pre + zlen bs)));
  entry_cut pre a p q :
    wire a (p ++ q) → q ≠ [] →
    entry_at (pre ++ p) (zlen pre) = Some (Ok Break)
    ∨ entry_at (pre ++ p) (zlen pre) = Some (Err UnterminatedString) }.

Section lists.
Context `{L : EntryLaws A entry_at wire}.

Lemma list_loop_total n payload offset entries :
  0 <= offset → ∃ r, list_loop entry_at n payload offset entries = Some r.
Proof.
  revert offset entries. induction n as [|n IH]; intros offset entries Ho; cbn [list_loop]; [by eexists|].
  destruct (entry_total (wire := wire) payload offset Ho) as (r & -> & Hr). cbn [try_ mbind option_bind].
  destruct r as [[|a o]|e]; [by eexists| |by eexists]. apply IH. by eapply Hr.
Qed.

Lemma list_loop_reads pre items bss rest entries :
  Forall2 wire items bss →
  list_loop entry_at (length items) (pre ++ concat bss ++ rest) (zlen pre) entries = Some (Ok (entries ++ items)).
Proof.
  intros H. revert pre entries. induction H as [|a bs items bss Hb _ IH]; intros pre entries.
  { cbn. by rewrite app_nil_r. }
  cbn [length list_loop concat]. rewrite <- app_assoc. rewrite (entry_reads (wire := wire) pre a) by done. cbn [try_ mbind option_bind].
  specialize (IH (pre ++ bs) (entries ++ [a])). rewrite zlen_app, <- !app_assoc in IH. apply IH.
Qed.

(** A list that was cut off reads as the entries that are whole, or as an error. *)
Lemma list_loop_cut pre items bss p q entries :
  Forall2 wire items bss → concat bss = p ++ q →
  list_loop entry_at (length items) (pre ++ p) (zlen pre) entries = Some (Err UnterminatedString)
  ∨ ∃ l, l `prefix_of` items ∧
         list_loop entry_at (length items) (pre ++ p) (zlen pre) entries = Some (Ok (entries ++ l)).
Proof.
  intros H. revert pre p entries. induction H as [|a bs items bss Hb _ IH]; intros pre p entries Hpq.
  { right. exists []. split; [done|]. cbn. by rewrite app_nil_r. }
  cbn [length list_loop concat] in *.
  destruct (app_eq_inv _ _ _ _ Hpq) as [(t & Ebs & Eq)|(t & Ep & Eq)].
  - destruct t as [|x t].
    + rewrite app_nil_r in Ebs. subst bs. cbn [app] in Eq.
      pose proof (entry_reads (wire := wire) pre a p [] Hb) as E. rewrite app_nil_r in E. rewrite E. cbn [try_ mbind option_bind].
      rewrite <- zlen_app. destruct (IH (pre ++ p) [] (entries ++ [a])) as [Hr|(l & Hl & Hr)].
      { by cbn [app]. }
      * rewrite app_nil_r in Hr. left. exact Hr.
      * rewrite app_nil_r in Hr. right. exists (a :: l). split; [by apply prefix_cons|].
        rewrite Hr. by rewrite <- app_assoc.
    + subst bs. destruct (entry_cut (wire := wire) pre a p (x :: t) Hb ltac:(done)) as [E|E]; rewrite E; cbn [try_ mbind option_bind].
      * right. exists []. split; [apply prefix_nil|]. by rewrite app_nil_r.
      * by left.
  - subst p. rewrite (entry_reads (wire := wire) pre a) by done. cbn [try_ mbind option_bind]. rewrite <- zlen_app, (app_assoc pre).
    destruct (IH (pre ++ bs) t (entries ++ [a])) as [Hr|(l & Hl & Hr)]; [done|by left|].
    right. exists (a :: l). split; [by apply prefix_cons|]. rewrite Hr. by rewrite <- app_assoc.
Qed.
End lists.

(** The layouts of the two lists. *)
Definition friend_wire (f : FriendListEntry) (bs : bytes) : Prop :=
  cstring_ok (fl_account f) ∧ cstring_ok (fl_location f) ∧ ∃ product, zlen product = 4 ∧
  bs = put_cstring (fl_account f) ++ ([fl_status f; fl_area f] ++ product) ++ put_cstring (fl_location f).

Definition member_wire (m : ClanMemberEntry) (bs : bytes) : Prop :=
  cstring_ok (cm_name m) ∧ cstring_ok (cm_location m) ∧
  bs = put_cstring (cm_name m) ++ [cm_rank m; cm_status m] ++ put_cstring (cm_location m).

(** A cut of some fixed fields and a text that comes after the fields is in the text. *)
Lemma cut_after_fields (fields s t q : bytes) :
  fields ++ s = t ++ q → zlen fields <= zlen t → ∃ u, t = fields ++ u ∧ s = u ++ q.
Proof.
  intros E Hl. destruct (app_eq_inv _ _ _ _ E) as [(u & -> & ->)|(u & -> & ->)]; [|by eauto].
  rewrite zlen_app in Hl. destruct u; [|rewrite zlen_cons in Hl; pose proof (zlen_nonneg u); lia].
  exists []. by rewrite !app_nil_r.
Qed.

Ltac break_bind := cbn [mbind option_bind try_].
Ltac layout := first
  [ lia
  | repeat match goal with x := _ |- _ => progress unfold x end; unfold put_cstring;
    rewrite <- ?app_assoc; cbn [app]; first [done | autorewrite with zlen; lia] ].

(** Truncated inside a text, an entry is an error; elsewhere, the loop ends. *)
#[export] Instance friend_laws : EntryLaws friend_at friend_wire.
Proof.
  split.
  - intros payload offset Ho. unfold friend_at. destruct (Z.leb_spec (zlen payload) offset); [by eexists|].
    destruct (cstring_at_total payload offset) as (r & -> & Hr); [lia|]. break_bind.
    destruct r as [[account o]|e]; [|by eexists]. specialize (Hr _ _ eq_refl).
    destruct (Z.ltb_spec (zlen payload) (o + 6)); [by eexists|].
    destruct (byte_at_total payload o) as [status ->]; [lia|].
    destruct (byte_at_total payload (o + 1)) as [area ->]; [lia|]. break_bind.
    destruct (cstring_at_total payload (o + 6)) as (r & -> & Hr'); [lia|]. break_bind.
    destruct r as [[location o']|e]; [|by eexists]. specialize (Hr' _ _ eq_refl).
    eexists. split; [done|]. intros ? ? [= _ <-]. lia.
  - intros pre [account status area location] bs rest (Ha & Hl & product & Hp & ->).
    cbn [fl_account fl_status fl_area fl_location] in *. unfold friend_at.
    pose proof (zlen_nonneg pre). pose proof (zlen_nonneg account). pose proof (zlen_nonneg location).
    pose proof (zlen_nonneg rest). set (payload := pre ++ _).
    assert (zlen payload = zlen pre + zlen account + zlen location + 8 + zlen rest) as Hlen
      by (unfold payload, put_cstring; autorewrite with zlen; lia).
    rewrite (proj2 (Z.leb_gt _ _)) by lia.
    erewrite (cstring_at_off payload _ pre account (([status; area] ++ product) ++ put_cstring location ++ rest))
      by (done || layout). break_bind.
    rewrite (proj2 (Z.ltb_ge _ _)) by lia.
    erewrite (byte_at_off payload (zlen pre + zlen account + 1) (pre ++ account ++ [0]) status (area :: product ++ put_cstring location ++ rest))
      by layout. break_bind.
    erewrite (byte_at_off payload _ (pre ++ account ++ [0; status]) area (product ++ put_cstring location ++ rest))
      by layout. break_bind.
    erewrite (cstring_at_off payload _ (pre ++ account ++ [0; status; area] ++ product) location rest)
      by (done || layout).
    break_bind. do 3 f_equal. layout.
  - intros pre [account status area location] p q (Ha & Hl & product & Hp & Epq) Hq.
    cbn [fl_account fl_status fl_area fl_location] in *. unfold friend_at.
    pose proof (zlen_nonneg pre). pose proof (zlen_nonneg account).
    destruct (Z.leb_spec (zlen (pre ++ p)) (zlen pre)); [by left|].
    destruct (app_eq_inv _ _ _ _ Epq) as [(t & Ep & Et)|(t & Ep & Et)].
    2: { destruct t as [|x t].
      - rewrite app_nil_r in Ep. subst p.
        erewrite (cstring_at_off _ _ pre account []) by (done || (by rewrite app_nil_r)). break_bind.
        left. rewrite (proj2 (Z.ltb_lt _ _)); [done|]. unfold put_cstring. autorewrite with zlen. lia.
      - right. by erewrite (cstring_at_off_cut (pre ++ p) _ pre account p (x :: t)). }
    subst p. erewrite (cstring_at_off _ _ pre account t) by (done || (by rewrite <- app_assoc)). break_bind.
    destruct (Z.ltb_spec (zlen (pre ++ put_cstring account ++ t)) (zlen pre + zlen account + 1 + 6)); [by left|].
    right. assert (zlen ([status; area] ++ product) <= zlen t) as Hlen
      by (unfold put_cstring in *; autorewrite with zlen in *; lia).
    destruct (cut_after_fields _ _ _ _ Et Hlen) as (u & -> & Eu).
    set (payload := pre ++ _).
    erewrite (byte_at_off payload (zlen pre + zlen account + 1) (pre ++ account ++ [0]) status (area :: product ++ u))
      by layout. break_bind.
    erewrite (byte_at_off payload _ (pre ++ account ++ [0; status]) area (product ++ u)) by layout. break_bind.
    by erewrite (cstring_at_off_cut payload _ (pre ++ account ++ [0; status; area] ++ product) location u q)
      by (done || layout).
Qed.

#[export] Instance member_laws : EntryLaws member_at member_wire.
Proof.
  split.
  - intros payload offset Ho. unfold member_at. destruct (Z.leb_spec (zlen payload) offset); [by eexists|].
    destruct (cstring_at_total payload offset) as (r & -> & Hr); [lia|]. break_bind.
    destruct r as [[nm o]|e]; [|by eexists]. specialize (Hr _ _ eq_refl).
    destruct (Z.ltb_spec (zlen payload) (o + 2)); [by eexists|].
    destruct (byte_at_total payload o) as [rank ->]; [lia|].
    destruct (byte_at_total payload (o + 1)) as [status ->]; [lia|]. break_bind.
    destruct (cstring_at_total payload (o + 2)) as (r & -> & Hr'); [lia|]. break_bind.
    destruct r as [[location o']|e]; [|by eexists]. specialize (Hr' _ _ eq_refl).
    eexists. split; [done|]. intros ? ? [= _ <-]. lia.
  - intros pre [nm rank status location] bs rest (Ha & Hl & ->).
    cbn [cm_name cm_rank cm_status cm_location] in *. unfold member_at.
    pose proof (zlen_nonneg pre). pose proof (zlen_nonneg nm). pose proof (zlen_nonneg location).
    pose proof (zlen_nonneg rest). set (payload := pre ++ _).
    assert (zlen payload = zlen pre + zlen nm + zlen location + 4 + zlen rest) as Hlen
      by (unfold payload, put_cstring; autorewrite with zlen; lia).
    rewrite (proj2 (Z.leb_gt _ _)) by lia.
    erewrite (cstring_at_off payload _ pre nm ([rank; status] ++ put_cstring location ++ rest))
      by (done || layout). break_bind.
    rewrite (proj2 (Z.ltb_ge _ _)) by lia.
    erewrite (byte_at_off payload (zlen pre + zlen nm + 1) (pre ++ nm ++ [0]) rank (status :: put_cstring location ++ rest))
      by layout. break_bind.
    erewrite (byte_at_off payload _ (pre ++ nm ++ [0; rank]) status (put_cstring location ++ rest))
      by layout. break_bind.
    erewrite (cstring_at_off payload _ (pre ++ nm ++ [0; rank; status]) location rest)
      by (done || layout).
    break_bind. do 3 f_equal. layout.
  - intros pre [nm rank status location] p q (Ha & Hl & Epq) Hq.
    cbn [cm_name cm_rank cm_status cm_location] in *. unfold member_at.
    pose proof (zlen_nonneg pre). pose proof (zlen_nonneg nm).
    destruct (Z.leb_spec (zlen (pre ++ p)) (zlen pre)); [by left|].
    destruct (app_eq_inv _ _ _ _ Epq) as [(t & Ep & Et)|(t & Ep & Et)].
    2: { destruct t as [|x t].
      - rewrite app_nil_r in Ep. subst p.
        erewrite (cstring_at_off _ _ pre nm []) by (done || (by rewrite app_nil_r)). break_bind.
        left. rewrite (proj2 (Z.ltb_lt _ _)); [done|]. unfold put_cstring. autorewrite with zlen. lia.
      - right. by erewrite (cstring_at_off_cut (pre ++ p) _ pre nm p (x :: t)). }
    subst p. erewrite (cstring_at_off _ _ pre nm t) by (done || (by rewrite <- app_assoc)). break_bind.
    destruct (Z.ltb_spec (zlen (pre ++ put_cstring nm ++ t)) (zlen pre + zlen nm + 1 + 2)); [by left|].
    right. assert (zlen [rank; status] <= zlen t) as Hlen
      by (unfold put_cstring in *; autorewrite with zlen in *; lia).
    destruct (cut_after_fields _ _ _ _ Et Hlen) as (u & -> & Eu).
    set (payload := pre ++ _).
    erewrite (byte_at_off payload (zlen pre + zlen nm + 1) (pre ++ nm ++ [0]) rank (status :: u))
      by layout. break_bind.
    erewrite (byte_at_off payload _ (pre ++ nm ++ [0; rank]) status u) by layout. break_bind.
    by erewrite (cstring_at_off_cut payload _ (pre ++ nm ++ [0; rank; status]) location u q)
      by (done || layout).
Qed.

(** ** Numbers in hexadecimal *)

Lemma hex_char_digit d : 0 <= d < 16 → hex_digit (hex_char d) = Some d.
Proof.
  intros H. assert (d ∈ map Z.of_nat (seq 0 16)) as Hin.
  { rewrite <- (Z2Nat.id d) by lia. apply list_elem_of_fmap_2, elem_of_seq. lia. }
  revert Hin. clear H. revert d. apply Forall_forall. by repeat constructor.
Qed.

Lemma hex_char_range d : 0 <= d < 16 → 48 <= hex_char d < 103.
Proof. unfold hex_char. intros H. destruct (Z.ltb_spec d 10); lia. Qed.

Lemma radix16_app acc s t :
  radix16_digits acc (s ++ t) = a ← radix16_digits acc s; radix16_digits a t.
Proof.
  revert acc. induction s as [|b s IH]; intros acc; [done|]. cbn [app radix16_digits].
  destruct (hex_digit b); [|done]. cbn [mbind option_bind]. destruct (_ <? _); [apply IH|done].
Qed.

Lemma hex_rev_spec n x :
  (n <= 8)%nat → 0 <= x < 16 ^ Z.of_nat n →
  radix16_digits 0 (hex_pad n x) = Some x ∧ length (hex_rev n x) = n ∧
  Forall (λ b, 48 <= b < 103) (hex_rev n x).
Proof.
  unfold hex_pad. intros Hn. revert x. induction n as [|n IH]; intros x Hx; cbn [hex_rev rev length].
  { split_and!; [|done|constructor]. cbn in Hx |- *. f_equal. lia. }
  rewrite Nat2Z.inj_succ, Z.pow_succ_r in Hx by lia.
  destruct (IH ltac:(lia) (x / 16)) as (H1 & H2 & H3).
  { split; [apply Z.div_pos; lia|]. apply Z.div_lt_upper_bound; lia. }
  pose proof (Z.mod_pos_bound x 16 ltac:(lia)) as Hm. split_and!; [|by f_equal|].
  - rewrite radix16_app, H1. cbn [mbind option_bind radix16_digits]. rewrite hex_char_digit by done.
    cbn [mbind option_bind]. rewrite (Z.mul_comm (x / 16)), <- Z.div_mod by lia.
    assert (16 * 16 ^ Z.of_nat n <= 16 ^ 8).
    { rewrite <- Z.pow_succ_r by lia. apply Z.pow_le_mono_r; lia. }
    rewrite (proj2 (Z.ltb_lt _ _)); [done|]. change (2 ^ 32) with (16 ^ 8). lia.
  - constructor; [by apply hex_char_range|done].
Qed.

(** Reversing the characters of an ASCII text reverses its bytes. *)
Lemma rev_chars_ascii s : Forall (λ b, b < 128) s → rev_chars s = rev s.
Proof.
  intros H. unfold rev_chars. assert (chars s = map (λ b, [b]) s) as ->.
  { induction H as [|b s Hb Hs IH]; [done|]. cbn [map]. rewrite <- IH.
    apply (chars_app [b] s). by apply is_char_ascii. }
  rewrite <- map_rev. generalize (rev s). intros l. induction l as [|b l IH]; [done|].
  cbn [map concat app]. by rewrite IH.
Qed.

Lemma from_utf8_valid s : valid_utf8 s → from_utf8 s = Some s.
Proof.
  intros H. unfold from_utf8. rewrite from_utf8_lossy_valid by done.
  by rewrite (proj2 (bytes_eqb_eq s s)).
Qed.

(** ** Properties *)

(** A game that is advertised is found: whoever lists the games is sent the name and
    host counter of the advertisement as they were put into it ([up]: what the server
    writes before, the address and port of the host included). *)
Theorem advert_found visibility map_game_type name up_time stat hc games up hi lo ip :
  zlen map_game_type = 4 → cstring_ok name → u32 hc →
  le_val games ≠ 0 → zlen games = 4 → zlen up = 10 → zlen ip = 4 → u8 hi → u8 lo →
  decode_getadvlistex
    (games ++ up ++ [hi; lo] ++ ip
       ++ drop 20 (startadvex3_payload visibility map_game_type name up_time stat hc))
  = Ok (Some (mkAdvListEntry ip (256 * hi + lo) name (Some hc))).
Proof.
  intros Ht [Hv Hn] Hhc Hg Hgl Hup Hip Hhi Hlo.
  destruct (hex_rev_spec 8 hc ltac:(lia)) as (Hx & Hxl & Hxr); [done|].
  assert (Forall (λ b, b < 128) (hex_rev 8 hc)) as Hascii by (eapply Forall_impl; [exact Hxr|]; simpl; lia).
  assert (drop 20 (startadvex3_payload visibility map_game_type name up_time stat hc)
          = put_cstring name ++ [0; 98] ++ hex_rev 8 hc ++ stat ++ [0]) as ->.
  { unfold startadvex3_payload. rewrite rev_chars_ascii by (unfold hex_pad; by apply Forall_rev).
    unfold hex_pad. rewrite rev_involutive.
    assert (length map_game_type = 4%nat) by (unfold zlen in Ht; lia).
    do 5 (destruct map_game_type as [|? map_game_type]; [simpl in *; try lia|]); [|simpl in *; lia].
    pose proof (length_le_bytes 4 up_time) as Hl.
    destruct (le_bytes 4 up_time) as [|? [|? [|? [|? [|? ?]]]]]; simpl in Hl; try lia. done. }
  set (tail := put_cstring name ++ _).
  set (payload := games ++ _).
  pose proof (zlen_nonneg tail).
  assert (zlen payload = 20 + zlen tail) as Hlen by (unfold payload; autorewrite with zlen; lia).
  unfold decode_getadvlistex.
  rewrite (slice_off payload 0 4 [] games (up ++ [hi; lo] ++ ip ++ tail)) by layout.
  cbn [ok_or mbind result_bind]. rewrite (proj2 (Z.eqb_neq _ _)) by done.
  rewrite (proj2 (Z.ltb_ge _ _)) by lia.
  rewrite (slice_off payload 14 16 (games ++ up) [hi; lo] (ip ++ tail)) by layout.
  rewrite (slice_off payload 16 20 (games ++ up ++ [hi; lo]) ip tail) by layout.
  rewrite (slice_off payload 20 _ (games ++ up ++ [hi; lo] ++ ip) tail []) by layout.
  cbn [ok_or mbind result_bind].
  assert (position (Z.eqb 0) tail = Some (length name)) as ->.
  { unfold tail, put_cstring. rewrite <- app_assoc. by apply position_first_nul. }
  cbn [ok_or mbind result_bind option_fmap option_map fmap].
  change (Z.of_nat (length name)) with (zlen name).
  rewrite (slice_off tail 0 _ [] name (0 :: 0 :: 98 :: hex_rev 8 hc ++ stat ++ [0])) by layout.
  cbn [ok_or mbind result_bind].
  rewrite (slice_off payload (zlen name + 23) _ (games ++ up ++ [hi; lo] ++ ip ++ name ++ [0; 0; 98])
             (hex_rev 8 hc) (stat ++ [0])) by (layout || (unfold zlen at 3; rewrite Hxl; lia)).
  cbn [ok_or mbind result_bind option_bind].
  rewrite from_utf8_lossy_valid, from_utf8_valid by (done || by apply valid_utf8_ascii).
  cbn [mbind option_bind]. rewrite rev_chars_ascii by done.
  fold (hex_pad 8 hc).
  assert (u32_from_hex (hex_pad 8 hc) = Some hc) as ->.
  { assert (Forall (λ b, 48 <= b < 103) (hex_pad 8 hc)) as Hr by (by apply Forall_rev).
    unfold u32_from_hex. destruct (hex_pad 8 hc) as [|b r] eqn:E.
    - apply (f_equal length) in E. unfold hex_pad in E. rewrite length_rev, Hxl in E. done.
    - apply Forall_cons in Hr as [Hb _]. destruct (Z.eqb_spec b 43); [lia|done]. }
  do 4 f_equal. cbn [rev app le_val]. lia.
Qed.

Lemma advert_found_witness :
  decode_getadvlistex
    ([1; 0; 0; 0] ++ replicate 10 0 ++ [23; 224] ++ [192; 168; 1; 50]
       ++ drop 20 (startadvex3_payload Public [1; 32; 73; 0] (str "dota apem") 0 [1; 3; 5] 268435457))
  = Ok (Some (mkAdvListEntry [192; 168; 1; 50] 6112 (str "dota apem") (Some 268435457))).
Proof.
  apply (advert_found Public [1; 32; 73; 0] (str "dota apem") 0 [1; 3; 5] 268435457
           [1; 0; 0; 0] (replicate 10 0) 23 224 [192; 168; 1; 50]);
    try done; try (unfold uN; lia).
  split; [apply valid_utf8_ascii|]; apply (bool_decide_unpack _); vm_compute; reflexivity.
Defined.

Lemma take_cut {A} n (l : list A) : l = take n l ++ drop n l.
Proof. by rewrite take_drop. Qed.

Lemma clanmemberlist_app cookie total r :
  zlen cookie = 4 →
  decode_clanmemberlist (cookie ++ total :: r)
  = list_loop member_at (Z.to_nat total) (cookie ++ total :: r) 5 [].
Proof.
  intros Hc. unfold decode_clanmemberlist. pose proof (zlen_nonneg r).
  rewrite (proj2 (Z.ltb_ge _ _)) by (autorewrite with zlen; lia). rewrite <- Hc at 1. by rewrite byte_at_app.
Qed.

Lemma lists_total payload :
  is_Some (decode_friendslist payload) ∧ is_Some (decode_clanmemberlist payload) ∧
  is_Some (decode_clancreationinvitation payload).
Proof.
  split_and!.
  - unfold decode_friendslist. destruct payload; [done|]. by apply (list_loop_total (wire := friend_wire)).
  - unfold decode_clanmemberlist. destruct (Z.ltb_spec (zlen payload) 5); [done|].
    destruct (byte_at_total payload 4) as [b ->]; [lia|]. by apply (list_loop_total (wire := member_wire)).
  - unfold decode_clancreationinvitation. destruct (Z.ltb_spec (zlen payload) 8); [done|].
    destruct (slice_ok payload 4 8) as (tag & -> & _); [lia..|]. break_bind.
    destruct (cstring_at_total payload 8) as (r & -> & Hr); [lia|]. break_bind.
    destruct r as [[nm o]|e]; [|done]. specialize (Hr _ _ eq_refl).
    destruct (cstring_at_total payload o) as (r & -> & _); [lia|]. break_bind. by destruct r as [[? ?]|?].
Qed.

(** The lists of friends and of the members of the clan are read as they were written;
    one that was cut off anywhere gives an error or its first entries, never a wrong one;
    and no payload whatever makes the reader panic. *)
Theorem server_lists friends fbss members mbss cookie :
  Forall2 friend_wire friends fbss → Forall2 member_wire members mbss → zlen cookie = 4 →
  let fp := zlen friends :: concat fbss in
  let mp := cookie ++ zlen members :: concat mbss in
  decode_friendslist fp = Some (Ok friends) ∧
  decode_clanmemberlist mp = Some (Ok members) ∧
  (∀ n, (∃ e, decode_friendslist (take n fp) = Some (Err e)) ∨
        ∃ l, l `prefix_of` friends ∧ decode_friendslist (take n fp) = Some (Ok l)) ∧
  (∀ n, (∃ e, decode_clanmemberlist (take n mp) = Some (Err e)) ∨
        ∃ l, l `prefix_of` members ∧ decode_clanmemberlist (take n mp) = Some (Ok l)) ∧
  ∀ payload, is_Some (decode_friendslist payload) ∧ is_Some (decode_clanmemberlist payload)
             ∧ is_Some (decode_clancreationinvitation payload).
Proof.
  intros Hf Hm Hc fp mp. split_and!.
  - unfold fp, decode_friendslist, zlen at 1. rewrite Nat2Z.id.
    pose proof (list_loop_reads [zlen friends] friends fbss [] [] Hf) as H. by rewrite app_nil_r in H.
  - unfold mp. rewrite clanmemberlist_app by done. unfold zlen at 1. rewrite Nat2Z.id.
    pose proof (list_loop_reads (cookie ++ [zlen members]) members mbss [] [] Hm) as H.
    rewrite app_nil_r, <- app_assoc in H. rewrite zlen_app, Hc in H. exact H.
  - intros [|n]; [left; by eexists|]. unfold fp. cbn [take decode_friendslist].
    destruct (list_loop_cut [zlen friends] friends fbss _ _ [] Hf (take_cut n _)) as [H|H];
      rewrite <- (Nat2Z.id (length friends)) in H; [left|right]; eauto.
  - intros n. destruct (decide (n < 5)%nat) as [Hn|Hn].
    { left. eexists. unfold decode_clanmemberlist. rewrite (proj2 (Z.ltb_lt _ _)); [done|].
      unfold zlen. rewrite length_take. lia. }
    assert (take n mp = cookie ++ zlen members :: take (n - 5) (concat mbss)) as ->.
    { unfold mp. assert (length cookie = 4%nat) by (unfold zlen in Hc; lia).
      rewrite take_app_ge by lia. f_equal.
      replace (n - length cookie)%nat with (S (n - 5)) by lia. done. }
    rewrite clanmemberlist_app by done.
    destruct (list_loop_cut (cookie ++ [zlen members]) members mbss _ _ [] Hm (take_cut (n - 5) _)) as [H|H];
      rewrite <- (Nat2Z.id (length members)), <- app_assoc, zlen_app, Hc in H; [left|right]; eauto.
  - apply lists_total.
Qed.

Lemma server_lists_witness :
  let fs := [mkFriend (str "iCCup") 1 2 (str "Channel"); mkFriend (str "bot") 0 0 []] in
  let payload := [2] ++ str "iCCup" ++ [0; 1; 2; 51; 82; 65; 87] ++ str "Channel" ++ [0]
                 ++ str "bot" ++ [0; 0; 0; 0; 0; 0; 0; 0] in
  decode_friendslist payload = Some (Ok fs) ∧
  decode_friendslist (take 23 payload) = Some (Err UnterminatedString).
Proof.
  split; [|vm_compute; reflexivity].
  assert (∀ s, Forall (λ b, b < 128) s → Forall (λ b, b ≠ 0) s → cstring_ok s) as Hok.
  { intros s H1 H2. split; [by apply valid_utf8_ascii|done]. }
  refine (proj1 (server_lists
    [mkFriend (str "iCCup") 1 2 (str "Channel"); mkFriend (str "bot") 0 0 []]
    [str "iCCup" ++ [0; 1; 2; 51; 82; 65; 87] ++ str "Channel" ++ [0]; str "bot" ++ [0; 0; 0; 0; 0; 0; 0; 0]]
    [] [] [0; 0; 0; 0] _ _ _)); [|constructor|reflexivity].
  constructor; [|constructor; [|constructor]].
  - split; [|split]; [apply Hok; apply (bool_decide_unpack _); vm_compute; reflexivity..|].
    exists [51; 82; 65; 87]. split; vm_compute; reflexivity.
  - split; [|split]; [apply Hok; apply (bool_decide_unpack _); vm_compute; reflexivity..|].
    exists [0; 0; 0; 0]. split; vm_compute; reflexivity.
Defined.

(** The layouts of the packets of a login and of a chat. *)
Definition AuthInfo_wire (unknown : bytes) (low high : Z) (a : AuthInfo) : bytes :=
  le_bytes 4 (logon_type a) ++ le_bytes 4 (server_token a) ++ unknown ++ le_bytes 4 low ++ le_bytes 4 high
    ++ put_cstring (ix86_ver_file_name a) ++ put_cstring (value_string_formula a).

Definition ChatEvent_head (flags : Z) (skipped : bytes) (c : ChatEvent) : bytes :=
  le_bytes 4 (event_id c) ++ le_bytes 4 flags ++ le_bytes 4 (ce_ping c) ++ skipped.

Lemma exact_run_bind {A B} (m : reader A) (k : A → reader B) bs a rest :
  exact m bs a → (m ≫= k) (bs ++ rest) = k a rest.
Proof. intros [H _]. unfold mbind, reader_bind. by rewrite H. Qed.

Lemma skip_bytes {B} n bs (k : bytes → reader B) rest :
  zlen bs = n → (try_get_bytes n ≫= k) (bs ++ rest) = k bs rest.
Proof. intros H. by rewrite (exact_run_bind _ _ bs bs) by (by apply exact_bytes). Qed.

Lemma ChatEvent_head_run {B} flags skipped c (k : Z → Z → reader B) rest :
  u32 (event_id c) → u32 flags → u32 (ce_ping c) → zlen skipped = 12 →
  (event_id ← try_get_u32_le; _ ← try_get_u32_le; ping ← try_get_u32_le;
   _ ← try_get_bytes 4; _ ← try_get_bytes 4; _ ← try_get_bytes 4; k event_id ping)
    (ChatEvent_head flags skipped c ++ rest) = k (event_id c) (ce_ping c) rest.
Proof.
  intros H1 H2 H3 H4. unfold ChatEvent_head.
  rewrite <- (take_drop 4 skipped), <- (take_drop 4 (drop 4 skipped)), <- !app_assoc.
  rewrite (exact_run_bind _ _ _ (event_id c)) by by apply exact_u32.
  rewrite (exact_run_bind _ _ _ flags) by by apply exact_u32.
  rewrite (exact_run_bind _ _ _ (ce_ping c)) by by apply exact_u32.
  rewrite !skip_bytes; [done|..]; unfold zlen in *; rewrite ?length_take, ?length_drop; lia.
Qed.

Lemma cstring_or_default_reads s rest :
  cstring_ok s → cstring_or_default (put_cstring s ++ rest) = Ok (s, rest).
Proof. intros [R _]%exact_cstring. unfold cstring_or_default. by rewrite R. Qed.

Lemma cstring_or_rest_reads s rest :
  cstring_ok s → cstring_or_rest (put_cstring s ++ rest) = Ok (s, rest).
Proof.
  intros [R _]%exact_cstring. unfold cstring_or_rest. rewrite R.
  destruct (put_cstring s ++ rest) eqn:E; [|done]. by destruct s.
Qed.

Lemma join_halves high low : u32 high → u32 low → Z.lor (wrap 64 (Z.shiftl high 32)) low = 2 ^ 32 * high + low.
Proof.
  unfold uN. intros Hh Hl. rewrite Z.shiftl_mul_pow2, Z.mul_comm by lia.
  rewrite wrap_small by (unfold uN; change (2 ^ 64) with (2 ^ 32 * 2 ^ 32); nia).
  rewrite Z.add_nocarry_lor; [done|]. rewrite Z.mul_comm, <- Z.shiftl_mul_pow2 by lia.
  apply Z.bits_inj'. intros i Hi. rewrite Z.land_spec, Z.bits_0.
  destruct (Z.ltb_spec i 32); [by rewrite Z.shiftl_spec_low|].
  destruct (decide (low = 0)) as [->|]; [by rewrite Z.bits_0, andb_false_r|].
  rewrite (Z.bits_above_log2 low i), andb_false_r; [done|lia|].
  apply Z.lt_le_trans with 32; [|done]. apply Z.log2_lt_pow2; lia.
Qed.

(** The packets of a login and the events of a chat read back as they were written:
    the challenge of the server with the time of its archive put together of two halves,
    its verdict on the keys, its salt and key, its proof, and what is said in a channel. *)
Theorem login_roundtrip ai unknown low high status salt key proof text c flags skipped :
  u32 (logon_type ai) → u32 (server_token ai) → zlen unknown = 4 → u32 low → u32 high →
  mpq_file_time ai = 2 ^ 32 * high + low →
  cstring_ok (ix86_ver_file_name ai) → cstring_ok (value_string_formula ai) →
  u32 status → zlen salt = 32 → zlen key = 32 → zlen proof = 20 → cstring_ok text →
  u32 (event_id c) → u32 flags → u32 (ce_ping c) → zlen skipped = 12 →
  cstring_ok (ce_user c) → cstring_ok (ce_message c) →
  AuthInfo_decode (AuthInfo_wire unknown low high ai) = Ok ai ∧
  (∀ n, (n < length (AuthInfo_wire unknown low high ai))%nat →
        is_err (AuthInfo_decode (take n (AuthInfo_wire unknown low high ai)))) ∧
  AuthCheck_decode (le_bytes 4 status ++ put_cstring text) = Ok (mkAuthCheck status text) ∧
  AccountLogon_decode (le_bytes 4 status ++ salt ++ key)
  = Ok (if status =? 0 then mkAccountLogon 0 salt key
        else mkAccountLogon status (replicate 32 0) (replicate 32 0)) ∧
  LogonProof_decode (le_bytes 4 status ++ proof ++ put_cstring text) = Ok (mkLogonProof status proof text) ∧
  ChatEvent_decode (ChatEvent_head flags skipped c ++ put_cstring (ce_user c) ++ put_cstring (ce_message c)) = Ok c.
Proof.
  intros Ha1 Ha2 Hu Hl Hh Ht Ha3 Ha4 Hs Hsalt Hkey Hproof Htext Hc1 Hfl Hc2 Hsk Hc3 Hc4.
  assert (exact AuthInfo_reader (AuthInfo_wire unknown low high ai) ai) as Hai.
  { unfold AuthInfo_reader, AuthInfo_wire. destruct ai as [lt st t f1 f2]. cbn in Ht. subst t.
    rewrite <- join_halves by done. exact_reads. }
  split_and!.
  - by apply exact_run.
  - intros n Hn. by apply (exact_run_cut _ _ ai).
  - unfold AuthCheck_decode, run, AuthCheck_reader.
    rewrite (exact_run_bind _ _ _ status) by by apply exact_u32.
    unfold mbind, reader_bind. pose proof (cstring_or_default_reads text [] Htext) as H.
    rewrite app_nil_r in H. by rewrite H.
  - unfold AccountLogon_decode, run, AccountLogon_reader.
    rewrite (exact_run_bind _ _ _ status) by by apply exact_u32.
    unfold mbind at 1, reader_bind, remaining. autorewrite with zlen. rewrite Hsalt, Hkey. cbn [Z.leb Z.add].
    destruct (Z.eqb_spec status 0) as [->|]; [|done]. cbn [andb].
    change (64 <=? 32 + 32) with true. cbn iota. rewrite skip_bytes by done. destruct (exact_bytes key 32 Hkey) as [R _]. specialize (R []).
    rewrite app_nil_r in R. unfold mbind, reader_bind. by rewrite R.
  - unfold LogonProof_decode, run, LogonProof_reader.
    rewrite (exact_run_bind _ _ _ status) by by apply exact_u32.
    unfold mbind at 1, reader_bind, remaining. autorewrite with zlen. rewrite Hproof.
    rewrite (proj2 (Z.leb_le _ _)) by (pose proof (zlen_nonneg (put_cstring text)); lia).
    rewrite skip_bytes by done. unfold mbind, reader_bind.
    pose proof (cstring_or_rest_reads text [] Htext) as H. rewrite app_nil_r in H. by rewrite H.
  - unfold ChatEvent_decode, run, ChatEvent_reader. rewrite ChatEvent_head_run by done.
    unfold mbind, reader_bind. rewrite cstring_or_default_reads by done.
    pose proof (cstring_or_rest_reads (ce_message c) [] Hc4) as H. rewrite app_nil_r in H. rewrite H. by destruct c.
Qed.

Lemma login_roundtrip_witness :
  ChatEvent_decode (ChatEvent_head 0 (replicate 12 0) (mkChatEvent 5 31 (str "owner") (str "!pub"))
                    ++ str "owner" ++ [0] ++ str "!pub" ++ [0])
  = Ok (mkChatEvent 5 31 (str "owner") (str "!pub")).
Proof.
  assert (∀ s, Forall (λ b, b < 128) s → Forall (λ b, b ≠ 0) s → cstring_ok s) as Hok.
  { intros s H1 H2. split; [by apply valid_utf8_ascii|done]. }
  eapply (login_roundtrip (mkAuthInfo 0 1 4294967298 (str "ver") (str "A=1")) [0; 0; 0; 0] 2 1 0
    (replicate 32 1) (replicate 32 2) (replicate 20 3) (str "ok") (mkChatEvent 5 31 (str "owner") (str "!pub")) 0
    (replicate 12 0));
    first [done | (unfold uN; cbn; lia) | (apply Hok; apply (bool_decide_unpack _); vm_compute; reflexivity)].
Defined.

(** A message that does not end in a NUL is lost: the fallback that would take what is
    left of the packet comes after the reader has taken every byte of it. *)
Theorem unterminated_message_lost flags skipped c text :
  u32 (event_id c) → u32 flags → u32 (ce_ping c) → zlen skipped = 12 →
  cstring_ok (ce_user c) → Forall (λ b, b ≠ 0) text →
  ChatEvent_decode (ChatEvent_head flags skipped c ++ put_cstring (ce_user c) ++ text)
  = Ok (mkChatEvent (event_id c) (ce_ping c) (ce_user c) []).
Proof.
  intros H1 H2 H3 H4 H5 H6. unfold ChatEvent_decode, run, ChatEvent_reader. rewrite ChatEvent_head_run by done.
  unfold mbind, reader_bind. rewrite cstring_or_default_reads by done.
  unfold cstring_or_rest, try_get_cstring. destruct text as [|b text]; [done|].
  by rewrite cstring_loop_unterminated.
Qed.

Lemma unterminated_message_lost_witness :
  ChatEvent_decode (ChatEvent_head 0 (replicate 12 0) (mkChatEvent 5 31 (str "owner") (str "!pub"))
                    ++ put_cstring (str "owner") ++ str "!pub")
  = Ok (mkChatEvent 5 31 (str "owner") []).
Proof.
  apply (unterminated_message_lost 0 (replicate 12 0) (mkChatEvent 5 31 (str "owner") (str "!pub")) (str "!pub"));
    try done; try (unfold uN; cbn; lia).
  - split; [apply valid_utf8_ascii|]; apply (bool_decide_unpack _); vm_compute; reflexivity.
  - apply (bool_decide_unpack _); vm_compute; reflexivity.
Defined.
