(* ===== verification/Nls.v ===== *)
(** The login to Battle.net (spectre-bnet, src/bncsutil/nls.rs): the SRP key exchange of
    the client's side.

    The numbers of the num_bigint package are integers [Z] with exact arithmetic.  The hash
    of the sha1 package and the modular power of num_bigint are parameters; random bytes
    are arguments. *)
From S2P Require Import Prelude Utf8.
From Stdlib Require Import Zpow_facts Setoid Morphisms.

(** ** The packages *)

Class Crypto := {
  sha1_digest : bytes → bytes;
  (** [BigUint::modpow(&self, exponent, modulus)] *)
  modpow : Z → Z → Z → Z }.

(** A digest is twenty bytes, and [modpow] the power's remainder. *)
Class CryptoLaws `{Crypto} := {
  sha1_bytes data : Forall u8 (sha1_digest data) ∧ length (sha1_digest data) = 20%nat;
  modpow_spec b e n : 0 <= b → 0 <= e → 0 < n → modpow b e n = b ^ e mod n }.

(** [BigUint::to_bytes_le]: no zeros at the end, but one for zero. *)
Fixpoint le_digits (fuel : nat) (x : Z) : bytes :=
  match fuel with
  | O => []
  | S fuel => x mod 256 :: if x / 256 =? 0 then [] else le_digits fuel (x / 256)
  end.
Definition to_bytes_le (x : Z) : bytes := le_digits (S (Z.to_nat (Z.log2 x / 8))) x.

(** [let len = le.len().min(32); out[..len].copy_from_slice(&le[..len])], over zeros. *)
Definition to_array (x : Z) : bytes :=
  let le := to_bytes_le x in
  let len := Nat.min (length le) 32 in
  take len le ++ replicate (32 - len) 0.

(** [u32::from_be_bytes] of the first four bytes. *)
Definition be_u32 (b : bytes) : Z := le_val (rev (take 4 b)).

(** ** The session *)

Inductive NlsError := InvalidServerPublicKey.

Definition NLS_PRIME_BYTES : bytes := [
   135; 199; 35; 133; 101; 246; 22; 18; 217; 18; 50; 199; 120; 108; 151; 126;
   85; 181; 146; 160; 140; 182; 134; 33; 3; 24; 153; 97; 139; 26; 255; 248].
Definition NLS_G : Z := 47.
Definition NLS_I : bytes := [
   108; 14; 151; 237; 10; 249; 107; 171; 177; 88; 137; 235; 139; 186; 37; 164;
   240; 140; 1; 248].
Definition NLS_SIGNATURE_KEY : Z := 65537.
Definition NLS_SIG_N : bytes := [
   213; 163; 214; 171; 15; 13; 197; 15; 195; 250; 110; 120; 157; 11; 227; 50;
   176; 250; 32; 232; 66; 25; 180; 161; 58; 59; 205; 14; 143; 181; 86; 181;
   220; 229; 193; 252; 45; 186; 86; 53; 41; 15; 72; 11; 21; 90; 57; 252;
   136; 7; 67; 158; 203; 243; 184; 115; 201; 225; 119; 213; 161; 6; 166; 32;
   208; 130; 197; 45; 77; 211; 37; 244; 253; 38; 252; 228; 194; 0; 221; 152;
   42; 244; 61; 94; 8; 138; 211; 32; 65; 132; 50; 105; 142; 138; 52; 118;
   234; 22; 142; 102; 64; 217; 50; 176; 45; 245; 189; 231; 87; 81; 120; 150;
   194; 237; 64; 65; 204; 84; 157; 253; 182; 141; 194; 186; 127; 105; 141; 207].

Record NlsAccountCreatePacket := mkCreate { cr_salt : bytes; cr_v : bytes; cr_username : bytes }.
Record NlsAccountLogonPacket := mkLogon { lo_a_pub : bytes; lo_username : bytes }.
Record NlsChangeProofPacket := mkChange { ch_m1 : bytes; ch_new_salt : bytes; ch_new_v : bytes }.

Record NlsSession := mkSession { username : bytes; password : bytes; priv_a : Z; a_pub : bytes }.

(** The bytes of an array at even and at odd places, and two arrays woven into one. *)
Fixpoint evens (s : bytes) : bytes := match s with [] => [] | [x] => [x] | x :: _ :: s => x :: evens s end.
Fixpoint odds (s : bytes) : bytes := match s with [] | [_] => [] | _ :: y :: s => y :: odds s end.
Fixpoint interleave (s t : bytes) : bytes :=
  match s, t with x :: s, y :: t => x :: y :: interleave s t | _, _ => [] end.

(** [str::to_ascii_uppercase] *)
Definition upper (s : bytes) : bytes := map to_ascii_upper s.

(** [BigUint::from_bytes_le(&NLS_PRIME_BYTES)] *)
Definition prime : Z := le_val NLS_PRIME_BYTES.

Section nls.
Context `{C : Crypto}.

Definition with_private_key_for_test (username password : bytes) (private_key : Z) : NlsSession :=
  mkSession username password private_key (to_array (modpow NLS_G private_key prime)).

(** [NlsSession::new], from the bytes it draws. *)
Definition new (username password a_bytes : bytes) : NlsSession :=
  let a := le_val a_bytes mod prime in
  mkSession username password a (to_array (modpow NLS_G a prime)).

Definition compute_x (self : NlsSession) (salt : bytes) : Z :=
  let upper_user := upper (username self) in
  let upper_pass := upper (password self) in
  let userpass := upper_user ++ [58] ++ upper_pass in
  let userpass_hash := sha1_digest userpass in
  le_val (sha1_digest (salt ++ userpass_hash)).

Definition compute_v (self : NlsSession) (salt : bytes) : bytes :=
  to_array (modpow NLS_G (compute_x self salt) prime).

Definition compute_s (self : NlsSession) (server_public_key salt : bytes) : result NlsError bytes :=
  let n := prime in
  let b := le_val server_public_key in
  if (b =? 0) || (n <=? b) then Err InvalidServerPublicKey else
  let x := compute_x self salt in
  let v := modpow NLS_G x n in
  let u := be_u32 (sha1_digest server_public_key) in
  let v_mod_n := v mod n in
  let base := (b + n - v_mod_n) mod n in
  let exp := priv_a self + u * x in
  Ok (to_array (modpow base exp n)).

Definition compute_k (s_bytes : bytes) : bytes :=
  interleave (sha1_digest (evens s_bytes)) (sha1_digest (odds s_bytes)).

Definition compute_m1 (self : NlsSession) (server_public_key salt : bytes) : result NlsError bytes :=
  s ← compute_s self server_public_key salt;
  let k := compute_k s in
  let username_hash := sha1_digest (upper (username self)) in
  Ok (sha1_digest (NLS_I ++ username_hash ++ salt ++ a_pub self ++ server_public_key ++ k)).

Definition compute_m2 (self : NlsSession) (server_public_key salt m1 : bytes) : result NlsError bytes :=
  s ← compute_s self server_public_key salt;
  let k := compute_k s in
  Ok (sha1_digest (a_pub self ++ m1 ++ k)).

Definition check_m2 (self : NlsSession) (var_m2 server_public_key salt : bytes) : bool :=
  match compute_m1 self server_public_key salt with
  | Ok m1 => match compute_m2 self server_public_key salt m1 with
             | Ok expected_m2 => bytes_eqb expected_m2 var_m2
             | Err _ => false
             end
  | Err _ => false
  end.

Definition account_create (self : NlsSession) (salt : bytes) : NlsAccountCreatePacket :=
  mkCreate salt (compute_v self salt) (username self).

Definition account_logon (self : NlsSession) : NlsAccountLogonPacket :=
  mkLogon (a_pub self) (username self).

Definition account_change_proof (self : NlsSession) (new_password server_public_key salt : bytes)
    (a_bytes new_salt : bytes) : result NlsError (NlsSession * NlsChangeProofPacket) :=
  m1 ← compute_m1 self server_public_key salt;
  let new_session := new (username self) new_password a_bytes in
  let new_v := compute_v new_session new_salt in
  Ok (new_session, mkChange m1 new_salt new_v).

(** [u32::to_ne_bytes] on a little-endian machine. *)
Definition check_signature (server_ip_be : Z) (signature_raw : bytes) : bool :=
  let check := le_bytes 4 server_ip_be ++ replicate 28 187 in
  let modulus := le_val NLS_SIG_N in
  let result := modpow (le_val signature_raw) NLS_SIGNATURE_KEY modulus in
  let res_le := to_bytes_le result in
  if zlen res_le <? 32 then false else bytes_eqb (take 32 res_le) check.

(** ** The server's side

    What SRP asks of a server: it keeps a user's verifier [v], answers a logon with
    [v + g^b], raises the client's key to the session's secret with its own exponent [b],
    and proves that it has it. *)
Definition server_key (v b : Z) : bytes := le_bytes 32 ((v + NLS_G ^ b) mod prime).

Definition server_secret (v b : Z) (client_key key : bytes) : bytes :=
  let u := be_u32 (sha1_digest key) in
  le_bytes 32 ((le_val client_key * v ^ u) ^ b mod prime).

Definition server_m1 (name salt : bytes) (v b : Z) (client_key : bytes) : bytes :=
  let key := server_key v b in
  sha1_digest (NLS_I ++ sha1_digest (upper name) ++ salt ++ client_key ++ key
                 ++ compute_k (server_secret v b client_key key)).

Definition server_m2 (v b : Z) (client_key m1 : bytes) : bytes :=
  sha1_digest (client_key ++ m1 ++ compute_k (server_secret v b client_key (server_key v b))).
End nls.

(** ** Numbers in 32 bytes *)

Lemma le_digits_spec fuel x :
  0 <= x < 256 ^ Z.of_nat fuel →
  le_val (le_digits fuel x) = x ∧ (length (le_digits fuel x) <= fuel)%nat ∧ Forall u8 (le_digits fuel x).
Proof.
  revert x. induction fuel as [|fuel IH]; intros x Hx; cbn [le_digits le_val length].
  { cbn in Hx. split_and!; [lia|lia|constructor]. }
  rewrite Nat2Z.inj_succ, Z.pow_succ_r in Hx by lia.
  pose proof (Z.mod_pos_bound x 256 ltac:(lia)) as Hm.
  assert (u8 (x mod 256)) by (unfold uN; change (2 ^ 8) with 256; lia).
  pose proof (Z.div_mod x 256 ltac:(lia)). destruct (Z.eqb_spec (x / 256) 0) as [E|E].
  { cbn [le_val length]. split_and!; [lia|lia|by apply Forall_singleton]. }
  destruct (IH (x / 256)) as (H1 & H2 & H3).
  { split; [apply Z.div_pos; lia|apply Z.div_lt_upper_bound; lia]. }
  rewrite H1. split_and!; [lia|lia|by constructor].
Qed.

Lemma to_bytes_le_spec x :
  0 <= x →
  le_val (to_bytes_le x) = x ∧ (length (to_bytes_le x) <= S (Z.to_nat (Z.log2 x / 8)))%nat ∧ Forall u8 (to_bytes_le x).
Proof.
  intros Hx. apply le_digits_spec. split; [done|].
  pose proof (Z.log2_nonneg x). pose proof (Z.div_pos (Z.log2 x) 8).
  rewrite Nat2Z.inj_succ, Z2Nat.id by lia. change 256 with (2 ^ 8). rewrite <- Z.pow_mul_r by lia.
  destruct (decide (x = 0)) as [->|]; [by apply Z.pow_pos_nonneg|].
  pose proof (Z.log2_spec x ltac:(lia)) as [_ Hlt]. eapply Z.lt_le_trans; [exact Hlt|].
  apply Z.pow_le_mono_r; [lia|]. pose proof (Z.div_mod (Z.log2 x) 8). pose proof (Z.mod_pos_bound (Z.log2 x) 8). lia.
Qed.

Lemma le_val_zeros n : le_val (replicate n 0) = 0.
Proof. induction n as [|n IH]; [done|]. cbn [replicate le_val]. lia. Qed.

Lemma le_val_app s t : le_val (s ++ t) = le_val s + 256 ^ zlen s * le_val t.
Proof.
  induction s as [|b s IH]; [cbn [app le_val]; change (256 ^ zlen []) with 1; lia|].
  cbn [app le_val]. rewrite IH, zlen_cons, Z.pow_add_r by (pose proof (zlen_nonneg s); lia). lia.
Qed.

(** A number below 2^256 fits, and is read back. *)
Lemma to_array_spec x : 0 <= x < 2 ^ 256 → to_array x = le_bytes 32 x.
Proof.
  intros Hx. destruct (to_bytes_le_spec x) as (H1 & H2 & H3); [lia|]. unfold to_array.
  assert (length (to_bytes_le x) <= 32)%nat as Hl.
  { etrans; [exact H2|]. destruct (decide (x = 0)) as [->|]; [by apply Nat.leb_le|].
    assert (Z.log2 x < 256) by (apply Z.log2_lt_pow2; lia).
    assert (Z.log2 x / 8 < 32) by (apply Z.div_lt_upper_bound; lia).
    pose proof (Z.log2_nonneg x). pose proof (Z.div_pos (Z.log2 x) 8). lia. }
  rewrite Nat.min_l by done. rewrite firstn_all.
  set (z := replicate _ _). rewrite <- (le_bytes_le_val (to_bytes_le x ++ z)).
  - rewrite le_val_app, H1. replace (le_val z) with 0 by (symmetry; apply le_val_zeros). rewrite Z.mul_0_r, Z.add_0_r. f_equal.
    rewrite length_app. unfold z. rewrite length_replicate. lia.
  - apply Forall_app. split; [done|]. by apply Forall_replicate.
Qed.

(** ** Arithmetic modulo a number *)

Definition cong (n a b : Z) : Prop := a mod n = b mod n.

#[export] Instance cong_equiv n : Equivalence (cong n).
Proof. unfold cong. split; [done|intros ? ? ?; done|intros ? ? ?; congruence]. Qed.
#[export] Instance cong_add n : Proper (cong n ==> cong n ==> cong n) Z.add.
Proof. intros a a' Ha b b' Hb. unfold cong in *. by rewrite Zplus_mod, Ha, Hb, <- Zplus_mod. Qed.
#[export] Instance cong_sub n : Proper (cong n ==> cong n ==> cong n) Z.sub.
Proof. intros a a' Ha b b' Hb. unfold cong in *. by rewrite Zminus_mod, Ha, Hb, <- Zminus_mod. Qed.
#[export] Instance cong_mul n : Proper (cong n ==> cong n ==> cong n) Z.mul.
Proof. intros a a' Ha b b' Hb. unfold cong in *. by rewrite Zmult_mod, Ha, Hb, <- Zmult_mod. Qed.
#[export] Instance cong_pow n : Proper (cong n ==> eq ==> cong n) Z.pow.
Proof. intros a a' Ha e e' <-. unfold cong in *. by rewrite <- Z.mod_pow_l, Ha, Z.mod_pow_l. Qed.

Lemma cong_mod n a : cong n (a mod n) a.
Proof. apply Zmod_mod. Qed.
Lemma cong_modulus n a : cong n (a + n) a.
Proof. unfold cong. replace (a + n) with (a + 1 * n) by lia. apply Z_mod_plus_full. Qed.

(** The equation of the protocol: the client's power and the server's are the same. *)
Lemma srp_equation n g a b u x :
  0 <= a → 0 <= b → 0 <= u → 0 <= x →
  cong n (((g ^ x mod n + g ^ b) mod n + n - g ^ x mod n) ^ (a + u * x))
         (((g ^ a mod n) * (g ^ x mod n) ^ u) ^ b).
Proof.
  intros Ha Hb Hu Hx.
  transitivity ((g ^ b) ^ (a + u * x)).
  - apply cong_pow; [|done]. rewrite !cong_mod.
    replace (g ^ x + g ^ b + n - g ^ x) with (g ^ b + n) by lia. apply cong_modulus.
  - rewrite !cong_mod. apply (f_equal (λ z, z mod n)).
    assert (0 <= u * x) by nia. assert (0 <= b * x) by nia.
    rewrite <- !Z.pow_mul_r by nia.
    rewrite Z.pow_mul_l, <- !Z.pow_mul_r, <- Z.pow_add_r by nia. f_equal. lia.
Qed.

Lemma prime_bound : 0 < prime < 2 ^ 256.
Proof. split; vm_compute; reflexivity. Qed.

Section laws.
Context `{L : CryptoLaws}.

Lemma compute_x_nonneg self salt : 0 <= compute_x self salt.
Proof. unfold compute_x. apply le_val_bound, sha1_bytes. Qed.

Lemma be_u32_nonneg b : Forall u8 b → 0 <= be_u32 b.
Proof. intros Hb. apply le_val_bound. by apply Forall_rev, Forall_take. Qed.

Lemma modpow_range b e : 0 <= b → 0 <= e → 0 <= modpow b e prime < 2 ^ 256.
Proof.
  intros. pose proof prime_bound. rewrite modpow_spec by lia.
  pose proof (Z.mod_pos_bound (b ^ e) prime). lia.
Qed.

Lemma le_bytes_32 x : 0 <= x < 2 ^ 256 → le_val (le_bytes 32 x) = x.
Proof. intros. by apply le_val_round. Qed.

(** The keys as numbers. *)
Lemma verifier_spec self salt : le_val (compute_v self salt) = NLS_G ^ compute_x self salt mod prime.
Proof.
  pose proof (compute_x_nonneg self salt). unfold compute_v. rewrite to_array_spec by by apply modpow_range.
  rewrite le_bytes_32 by by apply modpow_range. apply modpow_spec; [done|done|apply prime_bound].
Qed.

Lemma client_key_spec name pass a_bytes :
  Forall u8 a_bytes → 0 <= priv_a (new name pass a_bytes) ∧
  le_val (a_pub (new name pass a_bytes)) = NLS_G ^ priv_a (new name pass a_bytes) mod prime.
Proof.
  intros Ha. pose proof prime_bound. cbn [new priv_a a_pub].
  pose proof (Z.mod_pos_bound (le_val a_bytes) prime (proj1 H0)) as Hr.
  split; [lia|]. rewrite to_array_spec, le_bytes_32 by (apply modpow_range; (done || lia)). apply modpow_spec; (done || lia).
Qed.

Lemma shared_secret name pass a_bytes salt b :
  let s := new name pass a_bytes in
  let v := le_val (compute_v s salt) in
  Forall u8 a_bytes → 0 <= b → (v + NLS_G ^ b) mod prime ≠ 0 →
  compute_s s (server_key v b) salt = Ok (server_secret v b (a_pub s) (server_key v b)).
Proof.
  intros s v Ha Hb Hz. pose proof prime_bound as Hp. destruct (client_key_spec name pass a_bytes Ha) as [Hpa Hpub].
  fold s in Hpa, Hpub. pose proof (Z.mod_pos_bound (v + NLS_G ^ b) prime (proj1 Hp)) as Hk.
  assert (le_val (server_key v b) = (v + NLS_G ^ b) mod prime) as Hkey by (apply le_bytes_32; lia).
  unfold compute_s, server_secret. rewrite Hkey, (proj2 (Z.eqb_neq _ _)), (proj2 (Z.leb_gt _ _)) by (done || lia).
  cbn [orb]. set (u := be_u32 _). set (x := compute_x s salt).
  assert (0 <= u) by (apply be_u32_nonneg, sha1_bytes). assert (0 <= x) by apply compute_x_nonneg.
  rewrite (modpow_spec NLS_G) by (done || lia). rewrite Zmod_mod.
  rewrite modpow_spec by (first [apply Z.mod_pos_bound; lia|nia|lia]).
  assert (v = NLS_G ^ x mod prime) as Hv by apply verifier_spec.
  rewrite to_array_spec by (match goal with |- 0 <= ?z mod prime < _ => pose proof (Z.mod_pos_bound z prime (proj1 Hp)) end; lia).
  do 2 f_equal. rewrite Z.mod_pow_l, Hpub, Hv. apply (srp_equation prime NLS_G (priv_a s) b u x); done.
Qed.
End laws.

(** C39: A server that keeps the verifier which was computed for an account's salt, and
    answers the logon as SRP asks, comes to the same secret as the client: it accepts the
    client's proof, and the client accepts the server's, and only that one.  A key of the
    server that is zero or out of the field is refused. *)
Theorem srp_agreement `{CryptoLaws} name pass a_bytes salt b :
  let s := new name pass a_bytes in
  let v := le_val (compute_v s salt) in
  let m1 := server_m1 name salt v b (a_pub s) in
  Forall u8 a_bytes → 0 <= b → (v + NLS_G ^ b) mod prime ≠ 0 →
  compute_m1 s (server_key v b) salt = Ok m1 ∧
  (∀ m2, check_m2 s m2 (server_key v b) salt = true ↔ m2 = server_m2 v b (a_pub s) m1) ∧
  ∀ key, le_val key = 0 ∨ prime <= le_val key → compute_m1 s key salt = Err InvalidServerPublicKey.
Proof.
  intros s v m1 Ha Hb Hz. pose proof (shared_secret name pass a_bytes salt b Ha Hb Hz) as Hs.
  fold s v in Hs.
  assert (compute_m1 s (server_key v b) salt = Ok m1) as Hm1 by (unfold compute_m1; by rewrite Hs).
  split_and!; [done| |].
  - intros m2. unfold check_m2. rewrite Hm1. unfold compute_m2. rewrite Hs. cbn [mbind result_bind].
    rewrite bytes_eqb_eq. unfold server_m2. split; intros E; by rewrite E.
  - intros key Hk. unfold compute_m1, compute_s.
    destruct (Z.eqb_spec (le_val key) 0), (Z.leb_spec prime (le_val key)); cbn [orb]; try done. lia.
Qed.

(** The example's digest is a checksum in twenty bytes; its powers are quick ones. *)
Definition run_crypto : Crypto :=
  {| sha1_digest data := le_bytes 20 (le_val data * 2654435761 + zlen data); modpow b e n := Zpow_mod b e n |}.

Lemma run_crypto_laws : CryptoLaws (H := run_crypto).
Proof.
  split.
  - intros data. split; [apply le_bytes_u8|apply length_le_bytes].
  - intros b e n _ _ Hn. apply Zpow_mod_correct. lia.
Qed.

Lemma srp_agreement_witness :
  let s := new (C := run_crypto) (str "iCCup") (str "secret") [77; 5; 9] in
  let v := le_val (compute_v (C := run_crypto) s (replicate 32 25)) in
  check_m2 (C := run_crypto) s
    (server_m2 (C := run_crypto) v 13 (a_pub s) (server_m1 (C := run_crypto) (str "iCCup") (replicate 32 25) v 13 (a_pub s)))
    (server_key v 13) (replicate 32 25) = true.
Proof.
  destruct (srp_agreement (H := run_crypto) (H0 := run_crypto_laws) (str "iCCup") (str "secret") [77; 5; 9] (replicate 32 25) 13)
    as (_ & H & _).
  - apply (bool_decide_unpack _). vm_compute. reflexivity.
  - lia.
  - apply (bool_decide_unpack _). vm_compute. reflexivity.
  - by apply H.
Defined.
