(* ===== verification/XSha1.v ===== *)
(** The "broken" SHA-1 of Battle.net and the password hashes made of it (spectre-bnet,
    src/bncsutil/xsha1.rs and oldauth.rs). *)
From S2P Require Import Prelude Utf8.

(** [u32::rotate_left], by less than the width. *)
Definition rotate_left (x n : Z) : Z := Z.lor (wrap 32 (Z.shiftl x n)) (Z.shiftr x (32 - n)).
Definition wadd (x y : Z) : Z := wrap 32 (x + y).
(** [!x] *)
Definition wnot (x : Z) : Z := 2 ^ 32 - 1 - x.

Record Hash5 := mkHash { ha : Z; hb : Z; hc : Z; hd : Z; he : Z }.

Definition initial_hash : Hash5 := mkHash 1732584193 4023233417 2562383102 271733878 3285377520.

(** [for i in 0..64]: the list [w] grows from 16 to 80 words. *)
Fixpoint expand (n i : nat) (w : list Z) : list Z :=
  match n with
  | O => w
  | S n =>
    let at_ k := nth k w 0 in
    let val := Z.lxor (Z.lxor (Z.lxor (at_ i) (at_ (i + 8)%nat)) (at_ (i + 2)%nat)) (at_ (i + 13)%nat) mod 32 in
    expand n (S i) (w ++ [rotate_left 1 val])
  end.

(** The [match i]: the function and the constant of a round. *)
Definition round_fk (i : nat) (b c d : Z) : Z * Z :=
  if (i <? 20)%nat then (Z.lor (Z.land b c) (Z.land (wnot b) d), 1518500249)
  else if (i <? 40)%nat then (Z.lxor (Z.lxor b c) d, 1859775393)
  else if (i <? 60)%nat then (Z.lor (Z.lor (Z.land b c) (Z.land b d)) (Z.land c d), 2400959708)
  else (Z.lxor (Z.lxor b c) d, 3395469782).

Definition round (i : nat) (w_i : Z) (h : Hash5) : Hash5 :=
  let '(f, k) := round_fk i (hb h) (hc h) (hd h) in
  let temp := wadd (wadd (wadd (wadd (rotate_left (ha h) 5) f) (he h)) k) w_i in
  mkHash temp (ha h) (rotate_left (hb h) 30) (hc h) (hd h).

Fixpoint rounds (i : nat) (w : list Z) (h : Hash5) : Hash5 :=
  match w with
  | [] => h
  | w_i :: w => rounds (S i) w (round i w_i h)
  end.

Definition block (h : Hash5) (chunk : bytes) : Hash5 :=
  let w := expand 64 0 (map le_val (chunks 4 chunk)) in
  let r := rounds 0 w h in
  mkHash (wadd (ha h) (ha r)) (wadd (hb h) (hb r)) (wadd (hc h) (hc r)) (wadd (hd h) (hd r)) (wadd (he h) (he r)).

(** [padded]: zeros up to a whole number of blocks, and at least one block. *)
Definition pad (data : bytes) : bytes :=
  let rem := (length data mod 64)%nat in
  match data with
  | [] => replicate 64 0
  | _ => if (rem =? 0)%nat then data else data ++ replicate (64 - rem) 0
  end.

Definition out (h : Hash5) : bytes :=
  le_bytes 4 (ha h) ++ le_bytes 4 (hb h) ++ le_bytes 4 (hc h) ++ le_bytes 4 (hd h) ++ le_bytes 4 (he h).

Definition xsha1 (data : bytes) : bytes := out (foldl block initial_hash (chunks 64 (pad data))).

Definition hash_password (password : bytes) : bytes := xsha1 password.
Definition calc_hash_buf (data : bytes) : bytes := xsha1 data.

(** oldauth.rs *)
Definition double_hash_password (password : bytes) (client_token server_token : Z) : bytes :=
  let h1 := hash_password password in
  xsha1 (le_bytes 4 client_token ++ le_bytes 4 server_token ++ h1).

(** ** Properties *)

(** The digests that bncsutil computes. *)
Example xsha1_password : hash_password (str "password") =
  [236; 200; 13; 29; 118; 231; 88; 192; 185; 218; 140; 37; 255; 16; 106; 255; 142; 36; 41; 22].
Proof. vm_compute. reflexivity. Qed.
Example xsha1_empty : hash_password [] =
  [238; 160; 58; 77; 90; 29; 38; 148; 87; 111; 74; 88; 96; 153; 141; 107; 128; 198; 70; 21].
Proof. vm_compute. reflexivity. Qed.

Lemma out_bytes h : Forall u8 (out h) ∧ length (out h) = 20%nat.
Proof.
  unfold out. split; [|by rewrite !length_app, !length_le_bytes].
  repeat (apply Forall_app; split); apply le_bytes_u8.
Qed.

(** A digest has twenty bytes, and the length of the text is no part of it: NULs that fit
    into its last block do not change it. *)
Lemma xsha1_spec data n :
  (Forall u8 (xsha1 data) ∧ length (xsha1 data) = 20%nat) ∧
  (((length data + n) mod 64 = 0)%nat → (0 < length data + n)%nat → (n < 64 ∨ data = [] ∧ n = 64)%nat →
   xsha1 (data ++ replicate n 0) = xsha1 data).
Proof.
  split; [apply out_bytes|]. intros Hm Hp Hn. unfold xsha1. do 3 f_equal.
  assert (pad (data ++ replicate n 0) = data ++ replicate n 0) as ->.
  { unfold pad. rewrite length_app, length_replicate, Hm.
    destruct (data ++ replicate n 0) eqn:E; [|done].
    apply (f_equal length) in E. rewrite length_app, length_replicate in E. simpl in E. lia. }
  unfold pad. destruct data as [|b data].
  { destruct Hn as [Hn|[_ ->]]; [|done]. cbn [length Nat.add] in *. rewrite Nat.mod_small in Hm; lia. }
  set (d := b :: data) in *. destruct Hn as [Hn|[? _]]; [|done].
  pose proof (Nat.mod_upper_bound (length d) 64 ltac:(lia)) as Hb.
  pose proof (Nat.div_mod_eq (length d) 64) as Hd. pose proof (Nat.div_mod_eq (length d + n) 64) as Hd'.
  destruct (Nat.eqb_spec (length d mod 64) 0) as [E|E].
  - assert (n = 0)%nat as -> by lia. by rewrite app_nil_r.
  - do 2 f_equal. lia.
Qed.
