(* ===== verification/CdKey.v ===== *)
(** The CD-keys of the games (spectre-bnet, src/bncsutil/cdkey.rs): the three formats, of
    13, 16 and 26 characters, and the hash a login sends.

    A character is the list of its bytes.  [None] is a panic: an index out of range.  The
    hash of the sha1 package is the parameter [sha1_digest]. *)
From S2P Require Import Prelude Utf8 Text Nls XSha1.

(** ** Data *)

Inductive CdKeyError :=
| InvalidLength (len : Z)
| InvalidChar (c : bytes)
| ChecksumFailed.

Inductive KeyType := StarCraft | WarCraft2 | WarCraft3.

Record CdKeyInfo := mkKeyInfo {
  ki_product : Z; ki_public_value : Z; ki_val2 : Z; ki_long_val2 : option bytes; ki_hash : bytes }.

Record CdKeyDecoder := mkKey {
  key_type : KeyType; product : Z; public_value : Z; val2 : Z; long_val2 : option bytes }.

Definition val1 (k : CdKeyDecoder) : Z := public_value k.
Definition val2_length (k : CdKeyDecoder) : Z := match key_type k with WarCraft3 => 10 | _ => 4 end.

Definition W3_KEY_MAP : list Z := [
   255; 255; 255; 255; 255; 255; 255; 255; 255; 255; 255; 255; 255; 255; 255; 255;
   255; 255; 255; 255; 255; 255; 255; 255; 255; 255; 255; 255; 255; 255; 255; 255;
   255; 255; 255; 255; 255; 255; 255; 255; 255; 255; 255; 255; 255; 255; 255; 255;
   255; 255; 0; 255; 1; 255; 2; 3; 4; 5; 255; 255; 255; 255; 255; 255;
   255; 255; 6; 7; 8; 9; 10; 11; 12; 255; 13; 14; 255; 15; 16; 255;
   17; 255; 18; 255; 19; 255; 20; 21; 22; 23; 24; 255; 255; 255; 255; 255;
   255; 255; 6; 7; 8; 9; 10; 11; 12; 255; 13; 14; 255; 15; 16; 255;
   17; 255; 18; 255; 19; 255; 20; 21; 22; 23; 24; 255; 255; 255; 255; 255;
   255; 255; 255; 255; 255; 255; 255; 255; 255; 255; 255; 255; 255; 255; 255; 255;
   255; 255; 255; 255; 255; 255; 255; 255; 255; 255; 255; 255; 255; 255; 255; 255;
   255; 255; 255; 255; 255; 255; 255; 255; 255; 255; 255; 255; 255; 255; 255; 255;
   255; 255; 255; 255; 255; 255; 255; 255; 255; 255; 255; 255; 255; 255; 255; 255;
   255; 255; 255; 255; 255; 255; 255; 255; 255; 255; 255; 255; 255; 255; 255; 255;
   255; 255; 255; 255; 255; 255; 255; 255; 255; 255; 255; 255; 255; 255; 255; 255;
   255; 255; 255; 255; 255; 255; 255; 255; 255; 255; 255; 255; 255; 255; 255; 255;
   255; 255; 255; 255; 255; 255; 255; 255; 255; 255; 255; 255; 255; 255; 255; 255].
Definition W3_TRANSLATE_MAP : list Z := [
   9; 4; 7; 15; 13; 10; 3; 11; 1; 2; 12; 8; 6; 14; 5; 0;
   9; 11; 5; 4; 8; 15; 1; 14; 7; 0; 3; 2; 10; 6; 13; 12;
   12; 14; 1; 4; 9; 15; 10; 11; 13; 6; 0; 8; 7; 2; 5; 3;
   11; 2; 5; 14; 13; 3; 9; 0; 1; 15; 7; 12; 10; 6; 4; 8;
   6; 2; 4; 5; 11; 8; 12; 14; 13; 15; 7; 1; 10; 0; 3; 9;
   5; 4; 14; 12; 7; 6; 13; 10; 15; 2; 9; 1; 0; 11; 8; 3;
   12; 7; 8; 15; 11; 0; 5; 9; 13; 10; 6; 14; 2; 4; 3; 1;
   3; 10; 14; 8; 1; 11; 5; 4; 2; 15; 13; 12; 6; 7; 9; 0;
   12; 13; 1; 15; 8; 14; 5; 11; 3; 10; 9; 0; 7; 2; 4; 6;
   13; 10; 7; 14; 1; 6; 11; 8; 15; 12; 5; 2; 3; 0; 4; 9;
   3; 14; 7; 5; 11; 15; 8; 12; 1; 10; 4; 13; 0; 6; 9; 2;
   11; 6; 9; 4; 1; 8; 10; 13; 7; 14; 0; 12; 15; 2; 3; 5;
   12; 7; 8; 13; 3; 11; 0; 14; 6; 15; 9; 4; 10; 1; 5; 2;
   12; 6; 13; 9; 11; 0; 1; 2; 15; 7; 3; 4; 10; 14; 8; 5;
   3; 6; 1; 5; 11; 12; 8; 0; 15; 14; 9; 4; 7; 10; 13; 2;
   10; 7; 11; 15; 2; 8; 0; 13; 14; 12; 1; 6; 9; 3; 5; 4;
   10; 11; 13; 4; 3; 8; 5; 9; 1; 0; 15; 12; 7; 14; 2; 6;
   11; 4; 13; 15; 1; 6; 3; 14; 7; 10; 12; 8; 9; 2; 5; 0;
   9; 6; 7; 0; 1; 10; 13; 2; 3; 14; 15; 12; 5; 11; 4; 8;
   13; 14; 5; 6; 1; 9; 8; 12; 2; 15; 3; 7; 11; 4; 0; 10;
   9; 15; 4; 0; 1; 6; 10; 14; 2; 3; 7; 13; 5; 11; 8; 12;
   3; 14; 1; 10; 2; 12; 8; 4; 11; 7; 13; 0; 15; 6; 9; 5;
   7; 2; 12; 6; 10; 8; 11; 0; 15; 4; 3; 14; 9; 1; 13; 5;
   12; 4; 5; 9; 10; 2; 8; 13; 3; 15; 1; 14; 6; 7; 11; 0;
   10; 8; 14; 13; 9; 15; 3; 0; 4; 6; 1; 12; 7; 11; 2; 5;
   3; 12; 4; 10; 2; 15; 13; 14; 7; 0; 5; 8; 1; 6; 11; 9;
   10; 12; 1; 0; 9; 14; 13; 11; 3; 7; 15; 8; 5; 2; 4; 6;
   14; 10; 1; 8; 7; 6; 5; 12; 2; 15; 0; 13; 3; 11; 4; 9;
   3; 8; 14; 0; 7; 9; 15; 12; 1; 6; 13; 2; 5; 10; 11; 4;
   3; 10; 12; 4; 13; 11; 9; 14; 15; 6; 1; 7; 2; 0; 5; 8].
Definition W2_MAP : list Z := [
   255; 255; 255; 255; 255; 255; 255; 255; 255; 255; 255; 255; 255; 255; 255; 255;
   255; 255; 255; 255; 255; 255; 255; 255; 255; 255; 255; 255; 255; 255; 255; 255;
   255; 255; 255; 255; 255; 255; 255; 255; 255; 255; 255; 255; 255; 255; 255; 255;
   255; 255; 0; 255; 1; 255; 2; 3; 4; 5; 255; 255; 255; 255; 255; 255;
   255; 255; 6; 7; 8; 9; 10; 11; 12; 255; 13; 14; 255; 15; 16; 255;
   17; 255; 18; 255; 19; 255; 20; 21; 22; 255; 23; 255; 255; 255; 255; 255;
   255; 255; 6; 7; 8; 9; 10; 11; 12; 255; 13; 14; 255; 15; 16; 255;
   17; 255; 18; 255; 19; 255; 20; 21; 22; 255; 23; 255; 255; 255; 255; 255;
   255; 255; 255; 255; 255; 255; 255; 255; 255; 255; 255; 255; 255; 255; 255; 255;
   255; 255; 255; 255; 255; 255; 255; 255; 255; 255; 255; 255; 255; 255; 255; 255;
   255; 255; 255; 255; 255; 255; 255; 255; 255; 255; 255; 255; 255; 255; 255; 255;
   255; 255; 255; 255; 255; 255; 255; 255; 255; 255; 255; 255; 255; 255; 255; 255;
   255; 255; 255; 255; 255; 255; 255; 255; 255; 255; 255; 255; 255; 255; 255; 255;
   255; 255; 255; 255; 255; 255; 255; 255; 255; 255; 255; 255; 255; 255; 255; 255;
   255; 255; 255; 255; 255; 255; 255; 255; 255; 255; 255; 255; 255; 255; 255; 255;
   255; 255; 255; 255; 255; 255; 255; 255; 255; 255; 255; 255; 255; 255; 255; 255].

(** [c as u32]: the code point of a character. *)
Definition char_code (c : bytes) : Z :=
  match c with
  | [b] => b
  | [b1; b2] => (b1 - 192) * 64 + (b2 - 128)
  | [b1; b2; b3] => ((b1 - 224) * 64 + (b2 - 128)) * 64 + (b3 - 128)
  | [b1; b2; b3; b4] => (((b1 - 240) * 64 + (b2 - 128)) * 64 + (b3 - 128)) * 64 + (b4 - 128)
  | _ => 0
  end.

(** [a[i]], [a[i] = x] and [a.swap(i, j)] on an array. *)
Definition get (a : list Z) (i : Z) : option Z := if i <? 0 then None else a !! Z.to_nat i.
Definition set_at (a : list Z) (i x : Z) : option (list Z) :=
  if (0 <=? i) && (i <? zlen a) then Some (<[Z.to_nat i := x]> a) else None.
Definition swap_at (a : list Z) (i j : Z) : option (list Z) :=
  x ← get a i; y ← get a j; a ← set_at a i y; set_at a j x.

(** [i as i8], of a byte. *)
Definition as_i8 (b : Z) : Z := if b <? 128 then b else b - 256.

(** ** Thirteen digits *)

Definition is_ascii_digit (c : bytes) : bool :=
  match c with [b] => (48 <=? b) && (b <=? 57) | _ => false end.

(** [for (i, c) in key.chars().enumerate()] *)
Fixpoint fill_digits (cs : list bytes) (i : Z) (a : list Z) : option (result CdKeyError (list Z)) :=
  match cs with
  | [] => Some (Ok a)
  | c :: cs => if negb (is_ascii_digit c) then Some (Err (InvalidChar c)) else
               a ← set_at a i (wrap 8 (char_code c)); fill_digits cs (i + 1) a
  end.

Definition accumulate (digits : list Z) : Z :=
  foldl (λ accum b, let digit := to_ascii_lower b - 48 in accum + Z.lxor digit (accum * 2)) 3 digits.

(** [while i >= 7]: twelve turns from 194 on. *)
Fixpoint shuffle13 (fuel : nat) (i pos : Z) (a : list Z) : option (list Z) :=
  if 7 <=? i then
    match fuel with
    | O => None
    | S fuel => a ← swap_at a pos (i mod 12); shuffle13 fuel (i - 17) (sat_sub pos 1) a
    end
  else Some a.

(** [for j in (0..=n-1).rev()]. *)
Fixpoint unmask13 (n : nat) (hash_key : Z) (a : list Z) : option (list Z) :=
  match n with
  | O => Some a
  | S j =>
    b ← get a (Z.of_nat j);
    let temp := to_ascii_upper b in
    let '(temp, hash_key) :=
      if temp <=? 55 then (Z.lxor temp (wrap 8 (Z.land hash_key 7)), Z.shiftr hash_key 3)
      else if temp <? 65 then (Z.lxor temp (Z.land (Z.of_nat j) 1), hash_key)
      else (temp, hash_key) in
    a ← set_at a (Z.of_nat j) temp;
    unmask13 j hash_key a
  end.

(** [.map_err(|_| CdKeyError::ChecksumFailed)?] *)
Definition or_checksum {A} (o : option A) : result CdKeyError A :=
  match o with Some a => Ok a | None => Err ChecksumFailed end.

(** [&s[a..b]] of an ASCII text. *)
Definition sub (s : bytes) (a b : nat) : bytes := take (b - a) (drop a s).

Definition decode_13_char_key (key : bytes) : option (result CdKeyError (Z * Z * Z)) :=
  try_ (fill_digits (chars key) 0 (replicate 13 0)) (λ a,
    let accum := accumulate (take 12 a) in
    last ← get a 12;
    let check_digit := last - 48 in
    if negb (accum mod 10 =? check_digit) then Some (Err ChecksumFailed) else
    a ← shuffle13 12 194 11 a;
    a ← unmask13 12 330078017 a;
    Some (product ← or_checksum (parse_uint 32 (sub a 0 2));
          value1 ← or_checksum (parse_uint 32 (sub a 2 9));
          value2 ← or_checksum (parse_uint 32 (sub a 9 12));
          Ok (product, value1, value2))).

(** ** Sixteen characters *)

Definition get_hex_value (v : Z) : Z :=
  let v := Z.land v 15 in if v <? 10 then v + 48 else v - 10 + 65.

Definition get_num_value (c : Z) : Z :=
  let c := to_ascii_upper c in
  if (48 <=? c) && (c <=? 57) then c - 48
  else if (65 <=? c) && (c <=? 70) then c - 65 + 10 else 0.

Fixpoint fill_w2 (cs : list bytes) (i : Z) (a : list Z) : option (result CdKeyError (list Z)) :=
  match cs with
  | [] => Some (Ok a)
  | c :: cs =>
    let b := char_code c in
    if 256 <=? b then Some (Err (InvalidChar c)) else
    m ← get W2_MAP b;
    if m =? 255 then Some (Err (InvalidChar c)) else
    a ← set_at a i (wrap 8 b); fill_w2 cs (i + 1) a
  end.

(** [for i in (0..16).step_by(2)], the last [n] turns. *)
Fixpoint pair_up (n : nat) (i r checksum : Z) (a : list Z) : option (Z * list Z) :=
  match n with
  | O => Some (checksum, a)
  | S n =>
    k1 ← get a i; c1 ← get W2_MAP k1;
    k2 ← get a (i + 1); c2 ← get W2_MAP k2;
    let m := c2 + c1 * 3 * 8 in
    let '(m, checksum) := if 256 <=? m then (m - 256, Z.lor checksum r) else (m, checksum) in
    a ← set_at a i (get_hex_value (Z.shiftr m 4));
    a ← set_at a (i + 1) (get_hex_value m);
    pair_up n (i + 2) (wrap 32 (Z.shiftl r 1)) checksum a
  end.

Definition hex_sum (a : list Z) : Z :=
  foldl (λ v c, v + Z.lxor (get_num_value c) (v * 2)) 3 a.

(** [for j in (0..=n-1).rev()]. *)
Fixpoint shuffle16 (n : nat) (a : list Z) : option (list Z) :=
  match n with
  | O => Some a
  | S j => let j' := Z.of_nat j in
           a ← swap_at a j' (Z.land (if 8 <? j' then j' - 9 else 15 - (8 - j')) 15); shuffle16 j a
  end.

Fixpoint unmask16 (n : nat) (v2 : Z) (a : list Z) : option (list Z) :=
  match n with
  | O => Some a
  | S j =>
    b ← get a (Z.of_nat j);
    let c := to_ascii_upper b in
    let '(c', v2) :=
      if c <=? 55 then (Z.lxor (Z.land (wrap 8 v2) 7) c, Z.shiftr v2 3)
      else if c <? 65 then (Z.lxor (Z.land (Z.of_nat j) 1) c, v2)
      else (c, v2) in
    a ← set_at a (Z.of_nat j) c';
    unmask16 j v2 a
  end.

Definition decode_16_char_key_components (key : bytes) : option (result CdKeyError (Z * Z * Z)) :=
  try_ (fill_w2 (chars key) 0 (replicate 16 0)) (λ a,
    '(checksum, a) ← pair_up 8 0 1 0 a;
    let v := Z.land (hex_sum a) 255 in
    if negb (v =? checksum) then Some (Err ChecksumFailed) else
    a ← shuffle16 16 a;
    a ← unmask16 16 330078017 a;
    Some (product ← or_checksum (u32_from_hex (sub a 0 2));
          value1 ← or_checksum (u32_from_hex (sub a 2 8));
          value2 ← or_checksum (u32_from_hex (sub a 8 16));
          Ok (product, value1, value2))).

(** ** Twenty-six characters *)

(** [for c in key.chars()]: two digits to the base 5 a character, all over the table. *)
Fixpoint fill_w3 (cs : list bytes) (b : Z) (table : list Z) : option (result CdKeyError (list Z)) :=
  match cs with
  | [] => Some (Ok table)
  | c :: cs =>
    let b_val := char_code c in
    if 256 <=? b_val then Some (Err (InvalidChar c)) else
    m ← get W3_KEY_MAP b_val;
    let decode := as_i8 m in
    let a := (b + 1973) mod 52 in
    let b := (a + 1973) mod 52 in
    table ← set_at table a (Z.quot decode 5);
    table ← set_at table b (Z.rem decode 5);
    fill_w3 cs b table
  end.

(** Times five and plus a digit, from the last word to the first.  The carry of the
    addition is not kept. *)
Fixpoint times5_rev (dc_byte : Z) (words : list Z) : list Z :=
  match words with
  | [] => []
  | w :: words => let edxeax := w * 5 in
                  wrap 32 (wrap 32 dc_byte + wrap 32 edxeax) :: times5_rev (Z.shiftr edxeax 32) words
  end.
Definition times5 (values : list Z) (digit : Z) : list Z := rev (times5_rev digit (rev values)).

(** The four-bit digit [j] of the 128-bit number in four words, the lowest being the last
    of the last word. *)
Definition nibble (values : list Z) (j : Z) : option Z :=
  w ← get values (3 - Z.shiftr j 3);
  Some (Z.land (Z.shiftr w (Z.shiftl (Z.land j 7) 2)) 15).

Definition translate (idx : Z) : option Z := get W3_TRANSLATE_MAP idx.

(** One step of both inner loops. *)
Definition mix (values : list Z) (i var_c j : Z) : option Z :=
  ebp ← nibble values j;
  b ← translate (var_c + i);
  translate (Z.lxor ebp (b + i)).

(** [for j in (var8 + 1..=29).rev()] and [while j >= 0] *)
Definition upper_js (var8 : Z) : list Z := rev (map Z.of_nat (seq (Z.to_nat (var8 + 1)) (Z.to_nat (29 - var8)))).
Definition lower_js (var8 : Z) : list Z := rev (map Z.of_nat (seq 0 (Z.to_nat var8))).
Definition mixes (values : list Z) (i : Z) (js : list Z) (var_c : Z) : option Z :=
  foldl (λ o j, c ← o; mix values i c j) (Some var_c) js.

(** A turn of [loop], before [i -= 16]. *)
Definition table_round (values : list Z) (var8 i : Z) : option (list Z) :=
  let esi := Z.shiftl (Z.land var8 7) 2 in
  let var4 := Z.shiftr var8 3 in
  var_c ← nibble values var8;
  var_c ← (if i <? 464 then mixes values i (upper_js var8) var_c else Some var_c);
  var_c ← mixes values i (lower_js var8) var_c;
  t ← translate (var_c + i);
  let ebx := wrap 32 (Z.shiftl (Z.land t 15) esi) in
  let mask := wnot (wrap 32 (Z.shiftl 15 esi)) in
  w ← get values (3 - var4);
  set_at values (3 - var4) (Z.lor ebx (Z.land w mask)).

Fixpoint table_loop (fuel : nat) (values : list Z) (var8 i : Z) : option (list Z) :=
  match fuel with
  | O => None
  | S fuel =>
    values ← table_round values var8 i;
    let i := i - 16 in
    if i <? 0 then Some values else table_loop fuel values (var8 - 1) i
  end.

(** [for edi in 0..120], the last [n] turns: bit [edi] becomes bit [esi] of the copy. *)
Fixpoint bits_loop (n : nat) (copy values : list Z) (edi esi : Z) : option (list Z) :=
  match n with
  | O => Some values
  | S n =>
    let eax := Z.land edi 31 in
    let ecx := Z.land esi 31 in
    let edx := 3 - Z.shiftr edi 5 in
    word ← get copy (3 - Z.shiftr esi 5);
    let ebp := Z.land (Z.shiftr word ecx) 1 in
    ckt_temp ← get values edx;
    values ← set_at values edx (Z.lor (wrap 32 (Z.shiftl ebp eax)) (Z.land (wnot (Z.shiftl 1 eax)) ckt_temp));
    let esi := esi + 11 in
    bits_loop n copy values (edi + 1) (if 120 <=? esi then esi - 120 else esi)
  end.

Definition decode_key_table (values : list Z) : option (list Z) :=
  values ← table_loop 30 values 29 464; bits_loop 120 values values 0 0.

(** [to_be_bytes] *)
Definition be_bytes (x : Z) : bytes := rev (le_bytes 4 x).

Definition decode_26_char_key_components (key : bytes) : option (result CdKeyError (Z * Z * bytes)) :=
  try_ (fill_w3 (chars key) 33 (replicate 52 0)) (λ table,
    let values := foldl times5 [0; 0; 0; 0] (rev table) in
    values ← decode_key_table values;
    w0 ← get values 0;
    let product := Z.shiftr w0 10 in
    let be := concat (map be_bytes values) in
    let at_ i := nth i be 0 in
    let value1 := Z.land (le_val [at_ 2%nat; at_ 3%nat; at_ 4%nat; at_ 5%nat]) 4294967043 in
    let public_value := le_val (be_bytes value1) in
    let w3value2 := [at_ 7%nat; at_ 6%nat; at_ 11%nat; at_ 10%nat; at_ 9%nat; at_ 8%nat;
                     at_ 15%nat; at_ 14%nat; at_ 13%nat; at_ 12%nat] in
    Some (Ok (product, public_value, w3value2))).

(** ** All formats *)

Section keys.
Context `{C : Crypto} `{U : Unicode}.

(** [c.is_alphanumeric() || c == '-' || c == ' '] *)
Definition key_char (c : bytes) : bool := is_alphanumeric c || bytes_eqb c [45] || bytes_eqb c [32].

Definition sanitized (cdkey : bytes) : bytes := concat (List.filter is_alphanumeric (chars cdkey)).

Definition decode_key_components (cdkey : bytes) : option (result CdKeyError CdKeyDecoder) :=
  match List.find (λ c, negb (key_char c)) (chars cdkey) with
  | Some c => Some (Err (InvalidChar c))
  | None =>
    let s := sanitized cdkey in
    if zlen s =? 13 then
      try_ (decode_13_char_key s) (λ '(prod, v1, v2), Some (Ok (mkKey StarCraft prod v1 v2 None)))
    else if zlen s =? 16 then
      try_ (decode_16_char_key_components s) (λ '(prod, v1, v2), Some (Ok (mkKey WarCraft2 prod v1 v2 None)))
    else if zlen s =? 26 then
      try_ (decode_26_char_key_components s) (λ '(prod, v1, v2_long),
        Some (Ok (mkKey WarCraft3 prod v1 0 (Some v2_long))))
    else Some (Err (InvalidLength (zlen s)))
  end.

Definition calculate_hash (k : CdKeyDecoder) (client_token server_token : Z) : bytes :=
  match key_type k with
  | StarCraft | WarCraft2 =>
    xsha1 (le_bytes 4 client_token ++ le_bytes 4 server_token ++ le_bytes 4 (product k)
             ++ le_bytes 4 (public_value k) ++ le_bytes 4 0 ++ le_bytes 4 (val2 k))
  | WarCraft3 =>
    sha1_digest (le_bytes 4 client_token ++ le_bytes 4 server_token ++ le_bytes 4 (product k)
                   ++ le_bytes 4 (public_value k) ++ default [] (long_val2 k))
  end.

Definition decode_cd_key (cdkey : bytes) (client_token server_token : Z) : option (result CdKeyError CdKeyInfo) :=
  try_ (decode_key_components cdkey) (λ decoder,
    let hash := calculate_hash decoder client_token server_token in
    Some (Ok (mkKeyInfo (product decoder) (public_value decoder) (val2 decoder) (long_val2 decoder) hash))).

Definition create_key_info (cdkey : bytes) (client_token server_token : Z) (is_tft : bool)
  : option (result CdKeyError bytes) :=
  try_ (decode_cd_key cdkey client_token server_token) (λ info,
    let count := zlen (List.filter is_alphanumeric (chars cdkey)) in
    let key_len := if count =? 26 then 26 else if count =? 13 then 13 else 16 in
    let product := if is_tft then 7 else ki_product info in
    Some (Ok (le_bytes 4 key_len ++ le_bytes 4 product ++ le_bytes 4 (ki_public_value info)
                ++ le_bytes 4 (ki_val2 info) ++ ki_hash info))).
End keys.

(** ** Nothing is out of range *)

Lemma get_ok a i : 0 <= i < zlen a → ∃ x, get a i = Some x.
Proof.
  intros H. unfold get. rewrite (proj2 (Z.ltb_ge _ _)) by lia. apply lookup_lt_is_Some_2. unfold zlen in H. lia.
Qed.

Lemma get_Forall (P : Z → Prop) a i x : Forall P a → get a i = Some x → P x.
Proof. unfold get. destruct (i <? 0); [done|]. rewrite Forall_lookup. intros H. apply H. Qed.

Lemma set_at_ok a i x : 0 <= i < zlen a → set_at a i x = Some (<[Z.to_nat i := x]> a) ∧ zlen (<[Z.to_nat i := x]> a) = zlen a.
Proof.
  intros H. unfold set_at. rewrite (proj2 (Z.leb_le 0 i)), (proj2 (Z.ltb_lt i _)) by lia.
  split; [done|]. unfold zlen. by rewrite length_insert.
Qed.

(** [a] has [n] elements, all in [P]. *)
Definition array (P : Z → Prop) (n : Z) (a : list Z) : Prop := zlen a = n ∧ Forall P a.

Lemma array_get P n a i : array P n a → 0 <= i < n → ∃ x, get a i = Some x ∧ P x.
Proof.
  intros [<- Hp] Hi. destruct (get_ok a i Hi) as [x E]. exists x. split; [done|]. by eapply get_Forall.
Qed.

Lemma array_set (P : Z → Prop) n a i x : array P n a → 0 <= i < n → P x → ∃ b, set_at a i x = Some b ∧ array P n b.
Proof.
  intros [<- Hp] Hi Hx. destruct (set_at_ok a i x Hi) as [-> Hl]. eexists. split; [done|].
  split; [done|]. by apply Forall_insert.
Qed.

Lemma array_swap P n a i j : array P n a → 0 <= i < n → 0 <= j < n → ∃ b, swap_at a i j = Some b ∧ array P n b.
Proof.
  intros Ha Hi Hj. unfold swap_at. destruct (array_get _ _ _ _ Ha Hi) as (x & -> & Hx).
  destruct (array_get _ _ _ _ Ha Hj) as (y & -> & Hy). cbn [mbind option_bind].
  destruct (array_set _ _ _ _ _ Ha Hi Hy) as (b & -> & Hb). cbn [mbind option_bind]. by apply array_set.
Qed.

Lemma translate_ok idx : 0 <= idx < 480 → ∃ x, translate idx = Some x ∧ 0 <= x < 16.
Proof.
  apply array_get. split; [done|]. apply (bool_decide_unpack _). vm_compute. reflexivity.
Qed.

Lemma land_15 x : 0 <= Z.land x 15 < 16.
Proof. change 15 with (Z.ones 4). rewrite Z.land_ones by lia. apply Z.mod_pos_bound. lia. Qed.

(** The words are 32-bit numbers. *)
Abbreviation words := (array (uN 32) 4).

Lemma shiftr_3_range j : 0 <= j < 32 → 0 <= 3 - Z.shiftr j 3 < 4.
Proof.
  intros H. rewrite Z.shiftr_div_pow2 by lia. change (2 ^ 3) with 8.
  pose proof (Z.div_pos j 8). pose proof (Z.div_lt_upper_bound j 8 4). lia.
Qed.

Lemma nibble_ok values j : words values → 0 <= j < 32 → ∃ x, nibble values j = Some x ∧ 0 <= x < 16.
Proof.
  intros Hv Hj. unfold nibble. destruct (array_get _ _ _ _ Hv (shiftr_3_range j Hj)) as (w & -> & _).
  eexists. split; [done|]. apply land_15.
Qed.

(** Xor with a four-bit number stays in a row of the table. *)
Lemma lxor_row x b k : 0 <= x < 16 → 0 <= b < 16 → 0 <= k < 30 → 0 <= Z.lxor x (b + 16 * k) < 480.
Proof.
  assert (forallb (λ k, forallb (λ b, forallb (λ x, (0 <=? Z.lxor x (b + 16 * k)) && (Z.lxor x (b + 16 * k) <? 480))
    (below 16)) (below 16)) (below 30) = true) as H by (vm_compute; reflexivity).
  intros Hx Hb Hk. rewrite forallb_forall in H. specialize (H k (in_below 30 k Hk)).
  rewrite forallb_forall in H. specialize (H b (in_below 16 b Hb)).
  rewrite forallb_forall in H. specialize (H x (in_below 16 x Hx)). lia.
Qed.

Lemma mix_ok values k c j :
  words values → 0 <= k < 30 → 0 <= j < 32 → 0 <= c < 16 →
  ∃ x, mix values (16 * k) c j = Some x ∧ 0 <= x < 16.
Proof.
  intros Hv Hk Hj Hc. unfold mix. destruct (nibble_ok values j Hv Hj) as (e & -> & He). cbn [mbind option_bind].
  destruct (translate_ok (c + 16 * k)) as (b & -> & Hb); [lia|]. cbn [mbind option_bind].
  apply translate_ok. by apply lxor_row.
Qed.

Lemma mixes_ok values k js c :
  words values → 0 <= k < 30 → Forall (λ j, 0 <= j < 32) js → 0 <= c < 16 →
  ∃ x, mixes values (16 * k) js c = Some x ∧ 0 <= x < 16.
Proof.
  intros Hv Hk Hj. unfold mixes. revert c. induction Hj as [|j js Hj _ IH]; intros c Hc; [by exists c|].
  cbn [foldl mbind option_bind]. destruct (mix_ok values k c j) as (x & -> & Hx); [done..|]. by apply IH.
Qed.

Lemma js_range var8 : 0 <= var8 < 30 → Forall (λ j, 0 <= j < 32) (upper_js var8) ∧ Forall (λ j, 0 <= j < 32) (lower_js var8).
Proof.
  intros H. unfold upper_js, lower_js.
  split; apply Forall_rev, Forall_map, Forall_seq; simpl; lia.
Qed.

Lemma table_round_ok values var8 : words values → 0 <= var8 < 30 → ∃ r, table_round values var8 (16 * var8) = Some r ∧ words r.
Proof.
  intros Hv Hk. destruct (js_range var8 Hk) as [Hu Hl]. unfold table_round.
  destruct (nibble_ok values var8) as (c & -> & Hc); [done|lia|]. cbn [mbind option_bind].
  assert (∃ c', (if 16 * var8 <? 464 then mixes values (16 * var8) (upper_js var8) c else Some c) = Some c'
                ∧ 0 <= c' < 16) as (c' & -> & Hc') by (case_match; [by apply mixes_ok|by exists c]).
  cbn [mbind option_bind]. destruct (mixes_ok values var8 (lower_js var8) c') as (d & -> & Hd); [done..|].
  cbn [mbind option_bind]. destruct (translate_ok (d + 16 * var8)) as (t & -> & Ht); [lia|]. cbn [mbind option_bind].
  pose proof (shiftr_3_range var8 ltac:(lia)) as Hj.
  destruct (array_get _ _ _ _ Hv Hj) as (w & -> & Hw). cbn [mbind option_bind].
  apply array_set; [done|done|]. apply uN_lor; [done|by apply wrap_range|].
  by apply uN_land.
Qed.

Lemma table_loop_ok n values :
  words values → (n < 30)%nat →
  ∃ r, table_loop (S n) values (Z.of_nat n) (16 * Z.of_nat n) = Some r ∧ words r.
Proof.
  revert values. induction n as [|n IH]; intros values Hv Hn; cbn [table_loop].
  - destruct (table_round_ok values (Z.of_nat 0)) as (r & E & Hr); [done|lia|]. rewrite E. by exists r.
  - destruct (table_round_ok values (Z.of_nat (S n))) as (r & E & Hr); [done|lia|]. rewrite E. cbn [mbind option_bind].
    rewrite (proj2 (Z.ltb_ge _ _)) by lia.
    replace (16 * Z.of_nat (S n) - 16) with (16 * Z.of_nat n) by lia.
    replace (Z.of_nat (S n) - 1) with (Z.of_nat n) by lia. apply IH; [done|lia].
Qed.

Lemma shiftr_5_range j : 0 <= j < 120 → 0 <= 3 - Z.shiftr j 5 < 4.
Proof.
  intros H. rewrite Z.shiftr_div_pow2 by lia. change (2 ^ 5) with 32.
  pose proof (Z.div_pos j 32). pose proof (Z.div_lt_upper_bound j 32 4). lia.
Qed.

Lemma bits_loop_ok n copy values edi esi :
  words copy → words values → 0 <= edi → edi + Z.of_nat n <= 120 → 0 <= esi < 120 →
  ∃ r, bits_loop n copy values edi esi = Some r ∧ words r.
Proof.
  intros Hc. revert values edi esi. induction n as [|n IH]; intros values edi esi Hv He Hn Hs; cbn [bits_loop].
  { by exists values. }
  destruct (array_get _ _ _ _ Hc (shiftr_5_range esi Hs)) as (w & -> & _). cbn [mbind option_bind].
  pose proof (shiftr_5_range edi ltac:(lia)) as Hd.
  destruct (array_get _ _ _ _ Hv Hd) as (t & -> & Ht). cbn [mbind option_bind].
  destruct (array_set (uN 32) 4 values (3 - Z.shiftr edi 5)
    (Z.lor (wrap 32 (Z.shiftl (Z.land (Z.shiftr w (Z.land esi 31)) 1) (Z.land edi 31)))
       (Z.land (wnot (Z.shiftl 1 (Z.land edi 31))) t))) as (b & -> & Hb); [done|done| |].
  { apply uN_lor; [done|by apply wrap_range|]. rewrite Z.land_comm. by apply uN_land. }
  cbn [mbind option_bind]. apply IH; try done; try lia. destruct (Z.leb_spec 120 (esi + 11)); lia.
Qed.

Lemma decode_key_table_ok values : words values → ∃ r, decode_key_table values = Some r ∧ words r.
Proof.
  intros Hv. unfold decode_key_table.
  destruct (table_loop_ok 29 values Hv) as (r & E & Hr); [lia|].
  change (16 * Z.of_nat 29) with 464 in E. change (Z.of_nat 29) with 29 in E. rewrite E. cbn [mbind option_bind].
  apply bits_loop_ok; done || lia.
Qed.

Lemma times5_words values digit : words values → words (times5 values digit).
Proof.
  intros [Hl Hw]. unfold times5. assert (∀ l d, Forall (uN 32) (times5_rev d l) ∧ length (times5_rev d l) = length l) as H.
  { induction l as [|w l IH]; intros d; [done|]. cbn [times5_rev length]. destruct (IH (Z.shiftr (w * 5) 32)) as [H1 H2].
    split; [constructor; [by apply wrap_range|done]|by f_equal]. }
  destruct (H (rev values) digit) as [H1 H2]. split; [|by apply Forall_rev].
  unfold zlen in *. by rewrite length_rev, H2, length_rev.
Qed.

(** *** Characters *)

Lemma char_code_range c : is_char c → Forall u8 c → 0 <= char_code c ∧ (length c = 1%nat ∨ 128 <= char_code c).
Proof.
  intros [Hne Hc] Hu. destruct c as [|b1 r]; [done|]. apply Forall_cons in Hu as [[Hb1 _] _].
  destruct r as [|b2 [|b3 [|b4 [|b5 r]]]]; cbn [char_code length] in *; [lia|..];
    unfold utf8_step, utf8_char_width, second_of_3, second_of_4, in_range, is_cont in Hc;
    cbn [lookup list_lookup] in Hc; repeat (case_match; simplify_eq/=); lia.
Qed.

Lemma chars_of_list cs : Forall is_char cs → chars (concat cs) = cs.
Proof. induction 1 as [|c cs Hc _ IH]; [done|]. cbn [concat]. by rewrite chars_app, IH. Qed.

Lemma chars_are_chars s : valid_utf8 s → Forall is_char (chars s).
Proof. induction 1 as [|c s Hc _ IH]; [done|]. rewrite chars_app by done. by constructor. Qed.

Lemma chars_u8 s : Forall u8 s → Forall (Forall u8) (chars s).
Proof. rewrite <- (chars_concat s) at 1. intros H. by apply Forall_concat. Qed.

Lemma chars_count cs : Forall is_char cs → zlen cs <= zlen (concat cs).
Proof.
  induction 1 as [|c cs [Hc _] _ IH]; [done|]. cbn [concat]. rewrite zlen_cons, zlen_app.
  destruct c; [done|]. rewrite zlen_cons. pose proof (zlen_nonneg c). lia.
Qed.

(** The characters of a key: well-formed ones, of bytes, as many as there is room for. *)
Definition key_chars (n : Z) (cs : list bytes) : Prop := Forall (λ c, is_char c ∧ Forall u8 c) cs ∧ zlen cs <= n.

Lemma key_chars_cons n i c cs : key_chars (n - i) (c :: cs) → (is_char c ∧ Forall u8 c) ∧ i < n ∧ key_chars (n - (i + 1)) cs.
Proof.
  intros [H Hl]. apply Forall_cons in H as [Hc Hcs]. rewrite zlen_cons in Hl. pose proof (zlen_nonneg cs).
  split; [done|]. split; [lia|]. split; [done|lia].
Qed.

(** What the code does with the characters of a key ends, and any error is one of the three. *)
Definition ends {A} (o : option (result CdKeyError A)) : Prop := is_Some o.

Lemma ends_try {A B} (o : option (result CdKeyError A)) (k : A → option (result CdKeyError B)) (P : A → Prop) :
  (∃ r, o = Some r ∧ ∀ a, r = Ok a → P a) → (∀ a, P a → ends (k a)) → ends (try_ o k).
Proof. intros (r & -> & Hr) Hk. cbn [try_ mbind option_bind]. destruct r as [a|e]; [by apply Hk, Hr|by eexists]. Qed.

Lemma fill_digits_ok cs i a :
  key_chars (13 - i) cs → 0 <= i → array (λ b, b = 0 ∨ 48 <= b < 58) 13 a →
  ∃ r, fill_digits cs i a = Some r ∧ ∀ b, r = Ok b → array (λ b, b = 0 ∨ 48 <= b < 58) 13 b.
Proof.
  revert i a. induction cs as [|c cs IH]; intros i a Hk Hi Ha; cbn [fill_digits]; [eexists; split; [done|by intros ? [= <-]]|].
  apply key_chars_cons in Hk as (_ & Hlt & Hk). destruct (is_ascii_digit c) eqn:E; cbn [negb]; [|by eexists].
  assert (48 <= wrap 8 (char_code c) < 58) as Hb.
  { destruct c as [|b [|? ?]]; try done. cbn [is_ascii_digit char_code] in *. rewrite wrap_small by (unfold uN; lia). lia. }
  destruct (array_set (λ b, b = 0 ∨ 48 <= b < 58) 13 a i (wrap 8 (char_code c))) as (b & -> & Hb'); [done|lia|by right|].
  cbn [mbind option_bind]. apply IH; [done|lia|done].
Qed.

Lemma shuffle13_ok P fuel i pos a :
  array P 13 a → 0 <= pos < 13 → i < 17 * Z.of_nat fuel + 7 → ∃ b, shuffle13 fuel i pos a = Some b ∧ array P 13 b.
Proof.
  revert i pos a. induction fuel as [|fuel IH]; intros i pos a Ha Hp Hi; cbn [shuffle13];
    destruct (Z.leb_spec 7 i); try (by exists a); [lia|].
  pose proof (Z.mod_pos_bound i 12 ltac:(lia)).
  destruct (array_swap P 13 a pos (i mod 12)) as (b & -> & Hb); [done|lia|lia|]. cbn [mbind option_bind].
  apply IH; [done|unfold sat_sub; lia|lia].
Qed.

Lemma any_array n a : zlen a = n → array (λ _, True) n a.
Proof. intros H. split; [done|]. by apply Forall_true. Qed.

Lemma unmask13_ok n hash_key a :
  zlen a = 13 → (n <= 13)%nat → ∃ b, unmask13 n hash_key a = Some b.
Proof.
  revert hash_key a. induction n as [|n IH]; intros hk a Ha Hn; cbn [unmask13]; [by eexists|].
  destruct (get_ok a (Z.of_nat n)) as [b ->]; [lia|]. cbn [mbind option_bind].
  repeat case_match; match goal with |- context [set_at a _ ?x] =>
    destruct (set_at_ok a (Z.of_nat n) x) as [-> Hl]; [lia|] end; cbn [mbind option_bind]; apply IH; lia.
Qed.

Lemma decode_13_ends key : key_chars 13 (chars key) → ends (decode_13_char_key key).
Proof.
  intros Hk. unfold decode_13_char_key.
  apply (ends_try _ _ (array (λ b, b = 0 ∨ 48 <= b < 58) 13)).
  { apply fill_digits_ok; [by rewrite Z.sub_0_r|done|]. split; [done|]. apply Forall_replicate. by left. }
  intros a Ha. destruct (array_get _ _ _ 12 Ha) as (x & -> & _); [lia|]. cbn [mbind option_bind].
  destruct (negb _); [by eexists|]. destruct (shuffle13_ok _ 12 194 11 a Ha) as (b & -> & Hb); [lia..|].
  cbn [mbind option_bind]. destruct (unmask13_ok 12 330078017 b) as [c ->]; [apply Hb|lia|]. by eexists.
Qed.

Lemma W2_lookup b : 0 <= b < 256 → ∃ m, get W2_MAP b = Some m ∧ uN 8 m.
Proof. apply array_get. split; [done|]. apply (bool_decide_unpack _). vm_compute. reflexivity. Qed.

Lemma fill_w2_ok cs i a :
  key_chars (16 - i) cs → 0 <= i → array u8 16 a →
  ∃ r, fill_w2 cs i a = Some r ∧ ∀ b, r = Ok b → array u8 16 b.
Proof.
  revert i a. induction cs as [|c cs IH]; intros i a Hk Hi Ha; cbn [fill_w2]; [eexists; split; [done|by intros ? [= <-]]|].
  apply key_chars_cons in Hk as ([Hc Hu] & Hlt & Hk). destruct (char_code_range c Hc Hu) as [H0 _].
  destruct (Z.leb_spec 256 (char_code c)); [by eexists|].
  destruct (W2_lookup (char_code c)) as (m & -> & _); [lia|]. cbn [mbind option_bind].
  destruct (m =? 255); [by eexists|].
  destruct (array_set u8 16 a i (wrap 8 (char_code c))) as (b & -> & Hb'); [done|lia|by apply wrap_range|].
  cbn [mbind option_bind]. apply IH; [done|lia|done].
Qed.

Lemma get_hex_value_u8 v : u8 (get_hex_value v).
Proof. unfold get_hex_value, uN. pose proof (land_15 v). destruct (Z.ltb_spec (Z.land v 15) 10); lia. Qed.

Lemma pair_up_ok n i r checksum a :
  array u8 16 a → 0 <= i → i + 2 * Z.of_nat n <= 16 →
  ∃ c b, pair_up n i r checksum a = Some (c, b) ∧ array u8 16 b.
Proof.
  revert i r checksum a. induction n as [|n IH]; intros i r checksum a Ha Hi Hn; cbn [pair_up]; [by eexists _, _|].
  destruct (array_get _ _ _ i Ha) as (k1 & -> & H1); [lia|]. cbn [mbind option_bind].
  destruct (W2_lookup k1 H1) as (c1 & -> & _). cbn [mbind option_bind].
  destruct (array_get _ _ _ (i + 1) Ha) as (k2 & -> & H2); [lia|]. cbn [mbind option_bind].
  destruct (W2_lookup k2 H2) as (c2 & -> & _). cbn [mbind option_bind].
  destruct (if 256 <=? _ then _ else _) as [m cs].
  destruct (array_set u8 16 a i (get_hex_value (Z.shiftr m 4))) as (b & -> & Hb); [done|lia|apply get_hex_value_u8|].
  cbn [mbind option_bind].
  destruct (array_set u8 16 b (i + 1) (get_hex_value m)) as (b' & -> & Hb'); [done|lia|apply get_hex_value_u8|].
  cbn [mbind option_bind]. apply IH; [done|lia|lia].
Qed.

Lemma shuffle16_ok P n a : array P 16 a → (n <= 16)%nat → ∃ b, shuffle16 n a = Some b ∧ array P 16 b.
Proof.
  revert a. induction n as [|n IH]; intros a Ha Hn; cbn [shuffle16]; [by exists a|].
  match goal with |- context [swap_at a ?i ?j] => destruct (array_swap P 16 a i j) as (b & -> & Hb); [done|lia|apply land_15|] end.
  cbn [mbind option_bind]. apply IH; [done|lia].
Qed.

Lemma unmask16_ok n v2 a : zlen a = 16 → (n <= 16)%nat → ∃ b, unmask16 n v2 a = Some b.
Proof.
  revert v2 a. induction n as [|n IH]; intros hk a Ha Hn; cbn [unmask16]; [by eexists|].
  destruct (get_ok a (Z.of_nat n)) as [b ->]; [lia|]. cbn [mbind option_bind].
  repeat case_match; match goal with |- context [set_at a _ ?x] =>
    destruct (set_at_ok a (Z.of_nat n) x) as [-> Hl]; [lia|] end; cbn [mbind option_bind]; apply IH; lia.
Qed.

Lemma decode_16_ends key : key_chars 16 (chars key) → ends (decode_16_char_key_components key).
Proof.
  intros Hk. unfold decode_16_char_key_components. apply (ends_try _ _ (array u8 16)).
  { apply fill_w2_ok; [by rewrite Z.sub_0_r|done|]. split; [done|]. by apply Forall_replicate. }
  intros a Ha. destruct (pair_up_ok 8 0 1 0 a) as (c & b & -> & Hb); [done|lia|lia|]. cbn [mbind option_bind].
  destruct (negb _); [by eexists|]. destruct (shuffle16_ok _ 16 b Hb) as (b' & -> & Hb'); [lia|].
  cbn [mbind option_bind]. destruct (unmask16_ok 16 330078017 b') as [d ->]; [apply Hb'|lia|]. by eexists.
Qed.

Lemma W3_lookup b : 0 <= b < 256 → ∃ m, get W3_KEY_MAP b = Some m ∧ uN 8 m.
Proof. apply array_get. split; [done|]. apply (bool_decide_unpack _). vm_compute. reflexivity. Qed.

Lemma fill_w3_ok n cs b table :
  key_chars n cs → zlen table = 52 →
  ∃ r, fill_w3 cs b table = Some r ∧ (Forall (λ c, char_code c < 256) cs → is_ok r).
Proof.
  revert n b table. induction cs as [|c cs IH]; intros n b table Hk Ht; cbn [fill_w3].
  { eexists. split; [done|]. intros _. by eexists. }
  replace n with (n - 0) in Hk by lia. apply key_chars_cons in Hk as ([Hc Hu] & _ & Hk).
  destruct (char_code_range c Hc Hu) as [H0 _].
  destruct (Z.leb_spec 256 (char_code c)) as [Hge|Hlt].
  { eexists. split; [done|]. intros H. apply Forall_cons in H as [H _]. lia. }
  destruct (W3_lookup (char_code c)) as (m & -> & _); [lia|]. cbn [mbind option_bind].
  set (a := (b + 1973) mod 52). assert (0 <= a < 52) by (apply Z.mod_pos_bound; lia).
  pose proof (Z.mod_pos_bound (a + 1973) 52 ltac:(lia)).
  destruct (set_at_ok table a (Z.quot (as_i8 m) 5)) as [-> Hl]; [lia|]. cbn [mbind option_bind].
  edestruct (set_at_ok (<[Z.to_nat a := Z.quot (as_i8 m) 5]> table)) as [-> Hl']; [rewrite Hl; lia|].
  cbn [mbind option_bind]. destruct (IH _ ((a + 1973) mod 52) _ Hk (eq_trans Hl' (eq_trans Hl Ht))) as (r & -> & Hr).
  exists r. split; [done|]. intros Hall. apply Forall_cons in Hall as [_ Hall]. by apply Hr.
Qed.

Lemma fold_words table values : words values → words (foldl times5 values table).
Proof. revert values. induction table as [|d table IH]; intros values H; [done|]. apply IH. by apply times5_words. Qed.

Lemma decode_26_ends n key :
  key_chars n (chars key) → ∃ r, decode_26_char_key_components key = Some r ∧
    (Forall (λ c, char_code c < 256) (chars key) → is_ok r).
Proof.
  intros Hk. unfold decode_26_char_key_components.
  destruct (fill_w3_ok n (chars key) 33 (replicate 52 0) Hk eq_refl) as (r & -> & Hr). cbn [try_ mbind option_bind].
  destruct r as [table|e]; [|exists (Err e); split; [done|by intros H; destruct (Hr H)]].
  destruct (decode_key_table_ok (foldl times5 [0; 0; 0; 0] (rev table))) as (v & -> & Hv).
  { apply fold_words. split; [done|]. repeat (apply Forall_cons_2; [done|]). constructor. }
  cbn [mbind option_bind]. destruct (array_get _ _ _ 0 Hv) as (w & -> & _); [lia|]. cbn [mbind option_bind].
  eexists. split; [done|]. intros _. by eexists.
Qed.

(** ** Properties *)

Section properties.
Context `{C : Crypto} `{U : Unicode}.

Lemma sanitized_chars cdkey :
  valid_utf8 cdkey → Forall u8 cdkey →
  chars (sanitized cdkey) = List.filter is_alphanumeric (chars cdkey)
  ∧ key_chars (zlen (sanitized cdkey)) (chars (sanitized cdkey)).
Proof.
  intros Hv Hu. unfold sanitized.
  assert (Forall (λ c, is_char c ∧ Forall u8 c) (List.filter is_alphanumeric (chars cdkey))) as Hcs.
  { apply Forall_forall. intros c [Hin _]%list_elem_of_In%filter_In. apply list_elem_of_In in Hin.
    pose proof (chars_are_chars cdkey Hv) as H1. pose proof (chars_u8 cdkey Hu) as H2.
    rewrite Forall_forall in H1, H2. auto. }
  assert (Forall is_char (List.filter is_alphanumeric (chars cdkey))) as Hc by (eapply Forall_impl; [exact Hcs|by intros ? [? ?]]).
  rewrite chars_of_list by done. split; [done|]. split; [done|]. by apply chars_count.
Qed.

Lemma filter_all (cs : list bytes) :
  Forall (λ c, is_alphanumeric c = true) cs → List.filter is_alphanumeric cs = cs.
Proof. induction 1 as [|c cs Hc _ IH]; [done|]. cbn [List.filter]. by rewrite Hc, IH. Qed.

Lemma no_bad_char (cs : list bytes) :
  Forall (λ c, is_alphanumeric c = true) cs → List.find (λ c, negb (key_char c)) cs = None.
Proof. induction 1 as [|c cs Hc _ IH]; [done|]. cbn [List.find]. unfold key_char at 1. by rewrite Hc. Qed.

Lemma chars_ascii s : Forall (λ b, b < 128) s → Forall (λ c, ∃ b, c = [b] ∧ b < 128) (chars s).
Proof.
  induction 1 as [|b s Hb _ IH]; [constructor|]. change (b :: s) with ([b] ++ s).
  rewrite chars_app by by apply is_char_ascii. constructor; [by exists b|done].
Qed.

Lemma components_end cdkey : valid_utf8 cdkey → Forall u8 cdkey → ends (decode_key_components cdkey).
Proof.
  intros Hv Hu. destruct (sanitized_chars cdkey Hv Hu) as [_ Hk]. unfold decode_key_components.
  destruct (List.find _ _); [by eexists|].
  assert (∀ (A B : Type) (o : option (result CdKeyError A)) (k : A → option (result CdKeyError B)),
    ends o → (∀ a, ends (k a)) → ends (try_ o k)) as Htry.
  { intros A B o k [r ->] H. apply (ends_try _ _ (λ _, True)); [by eexists|auto]. }
  destruct (Z.eqb_spec (zlen (sanitized cdkey)) 13) as [E|_]; [rewrite E in Hk|].
  { apply Htry; [by apply decode_13_ends|]. intros [[? ?] ?]. by eexists. }
  destruct (Z.eqb_spec (zlen (sanitized cdkey)) 16) as [E|_]; [rewrite E in Hk|].
  { apply Htry; [by apply decode_16_ends|]. intros [[? ?] ?]. by eexists. }
  destruct (zlen (sanitized cdkey) =? 26); [|by eexists].
  apply Htry; [|intros [[? ?] ?]; by eexists]. destruct (decode_26_ends _ _ Hk) as (r & -> & _). by eexists.
Qed.

Lemma key_info_ends `{CryptoLaws} cdkey client_token server_token is_tft :
  valid_utf8 cdkey → Forall u8 cdkey →
  is_Some (decode_cd_key cdkey client_token server_token) ∧
  ∃ r, create_key_info cdkey client_token server_token is_tft = Some r ∧
       ∀ wire, r = Ok wire → length wire = 36%nat.
Proof.
  intros Hv Hu. destruct (components_end cdkey Hv Hu) as [r Hr].
  unfold create_key_info, decode_cd_key. rewrite Hr. cbn [try_ mbind option_bind].
  destruct r as [k|e]; [|split; by eexists]. split; [by eexists|]. cbn [try_ mbind option_bind ki_hash].
  eexists. split; [done|]. intros wire [= <-]. rewrite !length_app, !length_le_bytes.
  enough (length (calculate_hash k client_token server_token) = 20%nat) by lia.
  unfold calculate_hash. destruct (key_type k); [apply out_bytes|apply out_bytes|apply sha1_bytes].
Qed.
End properties.

(** No text whatever makes the decoding of a CD-key panic: it ends with a key or an
    error, and so does the making of the 36 bytes that are sent for it. *)
Theorem cdkey_no_panic `{CryptoLaws} `{Unicode} cdkey client_token server_token is_tft :
  valid_utf8 cdkey → Forall u8 cdkey →
  is_Some (decode_cd_key cdkey client_token server_token) ∧
  ∃ r, create_key_info cdkey client_token server_token is_tft = Some r ∧
       ∀ wire, r = Ok wire → length wire = 36%nat.
Proof. apply key_info_ends. Qed.

Lemma cdkey_no_panic_witness :
  let k := str "ABCDEF-GHJK-MNPRTV-WXYZ-246789" in
  is_Some (decode_cd_key (C := run_crypto) (U := plain_unicode) k 1 2) ∧
  is_Some (decode_cd_key (C := run_crypto) (U := plain_unicode) (str "234A") 1 2).
Proof.
  split.
  - refine (proj1 (cdkey_no_panic (H := run_crypto) (H0 := run_crypto_laws) (H1 := plain_unicode)
      (str "ABCDEF-GHJK-MNPRTV-WXYZ-246789") 1 2 true _ _));
      [apply valid_utf8_ascii|]; apply (bool_decide_unpack _); vm_compute; reflexivity.
  - refine (proj1 (cdkey_no_panic (H := run_crypto) (H0 := run_crypto_laws) (H1 := plain_unicode)
      (str "234A") 1 2 true _ _));
      [apply valid_utf8_ascii|]; apply (bool_decide_unpack _); vm_compute; reflexivity.
Defined.

(** A key of 26 characters is not checked: whatever letters and digits it has, the ones
    that no key can have included, it is decoded, and no error is reported. *)
Theorem foreign_key_accepted `{Unicode} cdkey :
  Forall (λ b, b < 128) cdkey → Forall u8 cdkey → Forall (λ c, is_alphanumeric c = true) (chars cdkey) →
  length cdkey = 26%nat → ∃ k, decode_key_components cdkey = Some (Ok k).
Proof.
  intros Ha Hu Hal Hl. pose proof (valid_utf8_ascii _ Ha) as Hv.
  destruct (sanitized_chars cdkey Hv Hu) as [Hs Hk].
  rewrite filter_all in Hs by done. rewrite Hs in Hk.
  assert (sanitized cdkey = cdkey) as E by (unfold sanitized; rewrite filter_all by done; apply chars_concat).
  rewrite E in Hk. unfold decode_key_components. rewrite no_bad_char, E by done.
  assert (zlen cdkey = 26) as -> by (unfold zlen; lia). cbn [Z.eqb Pos.eqb].
  destruct (decode_26_ends _ _ Hk) as (r & -> & Hr). cbn [try_ mbind option_bind].
  destruct Hr as [[[prod v1] v2] ->]; [|by eexists].
  apply Forall_forall. intros c Hc. pose proof (chars_ascii cdkey Ha) as Hca. rewrite Forall_forall in Hca.
  destruct (Hca c Hc) as (b & -> & Hb). cbn [char_code]. lia.
Qed.

(** Zeros and ones, which stand for nothing in a key. *)
Lemma foreign_key_accepted_witness :
  ∃ k, decode_key_components (U := plain_unicode) (str "01010101010101010101010101") = Some (Ok k).
Proof.
  apply (foreign_key_accepted (H := plain_unicode));
    apply (bool_decide_unpack _); vm_compute; reflexivity.
Defined.
