(* ===== verification/Revision.v ===== *)
(** What a Battle.net client proves about its files (spectre-bnet, src/bncsutil:
    check_revision.rs, mpq_num.rs, exe_info.rs).

    A file is what reading it to its end gives, or an error.  The registry of seeds, a
    global, is an argument and a result. *)
From S2P Require Import Prelude Utf8 Text XSha1.

(** The [std::io::Error]s that arise; [FileError] is one of the file system, with the text
    the system has for it. *)
Inductive IoError := InvalidInput | InvalidData (op_char : bytes) | FileError (msg : bytes).

(** ** The formula (check_revision.rs) *)

Inductive OpType := Add | Sub | Xor | Mul | Div.
(** A register, or whatever other character stands there. *)
Record Operation := mkOp { target : bytes; left : bytes; op : OpType; right : bytes }.

Definition DEFAULT_MPQ_SEEDS : list Z :=
  [3891579746; 4137766908; 2857698479; 2267008450; 297757208; 3312620262; 2032652926; 804030259].

Definition get_mpq_seed (registry : option (list Z)) (mpq_number : Z) : Z :=
  if mpq_number <? 0 then 0 else
  default 0 (default DEFAULT_MPQ_SEEDS registry !! Z.to_nat mpq_number).

(** [seeds.resize(n, 0)] of a shorter vector. *)
Definition grow (n : nat) (seeds : list Z) : list Z := seeds ++ replicate (n - length seeds) 0.

Definition set_mpq_seed (registry : option (list Z)) (mpq_number new_seed : Z) : Z * option (list Z) :=
  if mpq_number <? 0 then (0, registry) else
  let idx := Z.to_nat mpq_number in
  let seeds := default DEFAULT_MPQ_SEEDS registry in
  let seeds := if (length seeds <=? idx)%nat then grow (idx + 1) seeds else seeds in
  (default 0 (seeds !! idx), Some (<[idx := new_seed]> seeds)).

Definition op_of (op_char : bytes) : option OpType :=
  if bytes_eqb op_char (str "+") then Some Add
  else if bytes_eqb op_char (str "-") then Some Sub
  else if bytes_eqb op_char (str "^") then Some Xor
  else if bytes_eqb op_char (str "*") then Some Mul
  else if bytes_eqb op_char (str "/") then Some Div
  else None.

(** [token.strip_prefix(p)], and the number after it. *)
Definition number_after (p token : bytes) : option Z :=
  if starts_with p token then parse_uint 32 (drop (length p) token) else None.

Record Regs := mkRegs { ra : Z; rb : Z; rc : Z }.

Fixpoint parse_tokens (tokens : list bytes) (r : Regs) (ops : list Operation)
  : result IoError (Regs * list Operation) :=
  match tokens with
  | [] => Ok (r, ops)
  | token :: tokens =>
    match number_after (str "A=") token with
    | Some v => parse_tokens tokens (mkRegs v (rb r) (rc r)) ops
    | None =>
    match number_after (str "B=") token with
    | Some v => parse_tokens tokens (mkRegs (ra r) v (rc r)) ops
    | None =>
    match number_after (str "C=") token with
    | Some v => parse_tokens tokens (mkRegs (ra r) (rb r) v) ops
    | None =>
      match chars token with
      | [t; eq; l; o; rt] =>
        if bytes_eqb eq (str "=") then
          match op_of o with
          | Some op => parse_tokens tokens r (ops ++ [mkOp t l op rt])
          | None => Err (InvalidData o)
          end
        else parse_tokens tokens r ops
      | _ => parse_tokens tokens r ops
      end
    end end end
  end.

Definition parse_formula (formula : bytes) : result IoError (Regs * list Operation) :=
  parse_tokens (split_whitespace formula) (mkRegs 0 0 0) [].

Definition get_reg (reg : bytes) (r : Regs) (s : Z) : Z :=
  if bytes_eqb reg (str "A") then ra r
  else if bytes_eqb reg (str "B") then rb r
  else if bytes_eqb reg (str "C") then rc r
  else if bytes_eqb reg (str "S") then s
  else 0.

Definition apply_op (o : OpType) (left_val right_val : Z) : Z :=
  match o with
  | Add => wrap 32 (left_val + right_val)
  | Sub => wrap 32 (left_val - right_val)
  | Xor => Z.lxor left_val right_val
  | Mul => wrap 32 (left_val * right_val)
  | Div => if right_val =? 0 then 0 else left_val / right_val
  end.

Definition execute_op (s : Z) (r : Regs) (o : Operation) : Regs :=
  let res := apply_op (op o) (get_reg (left o) r s) (get_reg (right o) r s) in
  if bytes_eqb (target o) (str "A") then mkRegs res (rb r) (rc r)
  else if bytes_eqb (target o) (str "B") then mkRegs (ra r) res (rc r)
  else if bytes_eqb (target o) (str "C") then mkRegs (ra r) (rb r) res
  else r.

Definition execute_ops (ops : list Operation) (r : Regs) (s : Z) : Regs := foldl (execute_op s) r ops.

(** The [for chunk in block.chunks_exact(4)] over a block. *)
Definition hash_block (ops : list Operation) (r : Regs) (block : bytes) : Regs :=
  foldl (execute_ops ops) r (map le_val (chunks 4 block)).

(** [n] bytes counting down from 0xFF, with wrap-around. *)
Definition padding (n : nat) : bytes := map (λ i, wrap 8 (255 - Z.of_nat i)) (seq 0 n).

(** [loop]: a block is what fills 1024 bytes, or what is left. *)
Fixpoint hash_loop (fuel : nat) (content : bytes) (ops : list Operation) (r : Regs) : option Regs :=
  match fuel with
  | O => None
  | S fuel =>
    let read := take 1024 content in
    let total := length read in
    if (total =? 0)%nat then Some r
    else if (total =? 1024)%nat then hash_loop fuel (drop 1024 content) ops (hash_block ops r read)
    else Some (hash_block ops r (read ++ padding (1024 - total)))
  end.

Definition hash_fuel (content : bytes) : nat := (length content / 1024 + 2)%nat.

Definition hash_file (file : result IoError bytes) (ops : list Operation) (r : Regs) : option (result IoError Regs) :=
  match file with
  | Ok content => Ok <$> hash_loop (hash_fuel content) content ops r
  | Err e => Some (Err e)
  end.

Fixpoint hash_files (files : list (result IoError bytes)) (ops : list Operation) (r : Regs)
  : option (result IoError Regs) :=
  match files with
  | [] => Some (Ok r)
  | file :: files => try_ (hash_file file ops r) (hash_files files ops)
  end.

Definition check_revision (registry : option (list Z)) (formula : bytes) (files : list (result IoError bytes))
    (mpq_number : Z) : option (result IoError Z) :=
  match files with
  | [] => Some (Err InvalidInput)
  | _ =>
    match parse_formula formula with
    | Err e => Some (Err e)
    | Ok (r, ops) =>
      let seed := get_mpq_seed registry mpq_number in
      let effective_seed := if negb (seed =? 0) then seed else default 0 (DEFAULT_MPQ_SEEDS !! 1%nat) in
      let r := mkRegs (Z.lxor (ra r) effective_seed) (rb r) (rc r) in
      try_ (hash_files files ops r) (λ r, Some (Ok (rc r)))
    end
  end.

Definition check_revision_flat (registry : option (list Z)) (formula : bytes)
    (file1 file2 file3 : result IoError bytes) (mpq_number : Z) : option (result IoError Z) :=
  check_revision registry formula [file1; file2; file3] mpq_number.

(** ** The number of the archive (mpq_num.rs)

    [None] is a panic: a slice inside a character. *)

(** [name.strip_suffix(s).unwrap_or(name)] *)
Definition strip_suffix (s name : bytes) : bytes :=
  let k := (length name - length s)%nat in
  if bytes_eqb (drop k name) s && (length s <=? length name)%nat then take k name else name.

(** [name.rfind('.')] *)
Fixpoint rfind (c : Z) (s : bytes) : option nat :=
  match s with
  | [] => None
  | b :: s => match rfind c s with
              | Some i => Some (S i)
              | None => if b =? c then Some O else None
              end
  end.

(** [stem.rfind(|c| !c.is_ascii_digit())]: where the last such character starts. *)
Fixpoint rfind_char (p : bytes → bool) (cs : list bytes) : option nat :=
  match cs with
  | [] => None
  | c :: cs => match rfind_char p cs with
               | Some i => Some (length c + i)%nat
               | None => if p c then Some O else None
               end
  end.

Definition not_digit (c : bytes) : bool :=
  match c with [b] => negb ((48 <=? b) && (b <=? 57)) | _ => true end.

Definition extract_mpq_number (mpq_name : bytes) : option Z :=
  let name := strip_suffix (str ".mpq") mpq_name in
  let stem := match rfind 46 name with Some dot_idx => take dot_idx name | None => name end in
  let num_start := match rfind_char not_digit (chars stem) with Some i => S i | None => O end in
  if is_char_boundary stem num_start then
    let digits := drop num_start stem in
    Some (match digits with [] => 1 | _ => default 1 (parse_uint 31 digits) end)
  else None.

(** ** Dates (exe_info.rs) *)

(** [timestamp_to_utc_parts]: (year of the century, month, day, hour, minute, second). *)
Definition timestamp_to_utc_parts (secs : Z) : Z * Z * Z * Z * Z * Z :=
  let days := secs / 86400 in
  let rem := secs mod 86400 in
  let hour := rem / 3600 in
  let min := rem mod 3600 / 60 in
  let sec := rem mod 60 in
  let z := days + 719468 in
  let era := z / 146097 in
  let doe := z - era * 146097 in
  let yoe := (doe - doe / 1460 + doe / 36524 - doe / 146096) / 365 in
  let y := yoe + era * 400 in
  let doy := doe - (365 * yoe + yoe / 4 - yoe / 100) in
  let mp := (5 * doy + 2) / 153 in
  let d := doy - (153 * mp + 2) / 5 + 1 in
  let m := if mp <? 10 then mp + 3 else mp - 9 in
  let year := if m <=? 2 then y + 1 else y in
  (wrap 32 year mod 100, m, d, hour, min, sec).

Record ExeInfo := mkExeInfo { exe_info_string : bytes; version : Z }.

(** [{:02}] *)
Definition dec2 (n : Z) : bytes := if n <? 10 then [48] ++ dec n else dec n.

(** The text of [get_exe_info], from the name, the time of modification and the size. *)
Definition exe_info_text (file_name : bytes) (secs file_size : Z) : bytes :=
  let '(yy, month, day, hours, mins, seconds) := timestamp_to_utc_parts secs in
  file_name ++ [32] ++ dec2 month ++ [47] ++ dec2 day ++ [47] ++ dec2 yy ++ [32]
    ++ dec2 hours ++ [58] ++ dec2 mins ++ [58] ++ dec2 seconds ++ [32] ++ dec file_size.

Example exe_info_sample :
  exe_info_text (str "war3.exe") 1294763263 471040 = str "war3.exe 01/11/11 16:27:43 471040".
Proof. vm_compute. reflexivity. Qed.
Example mpq_numbers :
  map extract_mpq_number [str "IX86ver1.mpq"; str "ver10.mpq"; str "ver-IX86-7.mpq"; str "no_numbers.mpq"; []]
  = [Some 1; Some 10; Some 7; Some 1; Some 1].
Proof. vm_compute. reflexivity. Qed.

(** ** The blocks of a file

    The reference: the whole file, filled up to whole blocks, word by word. *)
Definition padded (content : bytes) : bytes :=
  let rem := (length content mod 1024)%nat in
  if (rem =? 0)%nat then content else content ++ padding (1024 - rem).

Definition hash_whole (ops : list Operation) (r : Regs) (content : bytes) : Regs :=
  foldl (execute_ops ops) r (map le_val (chunks 4 (padded content))).

Lemma chunks_app_mult {A} n k (l l' : list A) :
  (0 < n)%nat → length l = (n * k)%nat → chunks n (l ++ l') = chunks n l ++ chunks n l'.
Proof.
  intros Hn. revert l. induction k as [|k IH]; intros l Hl.
  { rewrite Nat.mul_0_r in Hl. apply length_zero_iff_nil in Hl as ->. done. }
  rewrite <- (take_drop n l), <- app_assoc. assert (length (take n l) = n) by (rewrite length_take; lia).
  rewrite (chunks_app n (take n l) (drop n l ++ l')), (chunks_app n (take n l) (drop n l)) by (lia || done).
  cbn [app]. f_equal. apply IH. rewrite length_drop. lia.
Qed.

Lemma padded_drop content :
  (1024 <= length content)%nat → padded content = take 1024 content ++ padded (drop 1024 content).
Proof.
  intros H. assert (length content mod 1024 = length (drop 1024 content) mod 1024)%nat as E.
  { rewrite length_drop. replace (length content) with (length content - 1024 + 1 * 1024)%nat at 1 by lia.
    by rewrite Nat.Div0.mod_add. }
  unfold padded. rewrite E. destruct (_ =? 0)%nat; [by rewrite take_drop|]. by rewrite app_assoc, take_drop.
Qed.

Lemma hash_loop_spec fuel content ops r :
  (length content < 1024 * fuel)%nat → hash_loop fuel content ops r = Some (hash_whole ops r content).
Proof.
  revert content r. induction fuel as [|fuel IH]; intros content r Hf; [lia|]. cbn [hash_loop].
  rewrite length_take. destruct (Nat.eqb_spec (1024 `min` length content) 0) as [E|E].
  { destruct content; [done|simpl in E; lia]. }
  destruct (Nat.eqb_spec (1024 `min` length content) 1024) as [E'|E'].
  - rewrite IH by (rewrite length_drop; lia). f_equal. unfold hash_whole. rewrite (padded_drop content) by lia.
    rewrite (chunks_app_mult 4 256) by (rewrite ?length_take; lia). by rewrite map_app, foldl_app.
  - f_equal. unfold hash_whole, hash_block, padded. rewrite Nat.mod_small by lia.
    rewrite (proj2 (Nat.eqb_neq _ _)) by lia. rewrite take_ge by lia. by rewrite Nat.min_r by lia.
Qed.

Lemma hash_fuel_enough content : (length content < 1024 * hash_fuel content)%nat.
Proof. unfold hash_fuel. pose proof (Nat.div_mod_eq (length content) 1024). pose proof (Nat.mod_upper_bound (length content) 1024). lia. Qed.

Lemma hash_file_spec content ops r : hash_file (Ok content) ops r = Some (Ok (hash_whole ops r content)).
Proof. unfold hash_file. by rewrite hash_loop_spec by apply hash_fuel_enough. Qed.

Lemma hash_files_spec contents ops r :
  hash_files (map Ok contents) ops r = Some (Ok (foldl (hash_whole ops) r contents)).
Proof.
  revert r. induction contents as [|c cs IH]; intros r; [done|]. cbn [map hash_files foldl].
  rewrite hash_file_spec. cbn [try_ mbind option_bind]. apply IH.
Qed.

(** The revision check of files that can be read is the formula run over every word of
    each of them, filled up to whole blocks, however long they are; reading them in blocks
    ends and changes nothing. *)
Theorem check_revision_spec registry formula content contents mpq_number r ops :
  parse_formula formula = Ok (r, ops) →
  let seed := get_mpq_seed registry mpq_number in
  let seed := if seed =? 0 then 4137766908 else seed in
  check_revision registry formula (map Ok (content :: contents)) mpq_number
  = Some (Ok (rc (foldl (hash_whole ops) (mkRegs (Z.lxor (ra r) seed) (rb r) (rc r)) (content :: contents)))).
Proof.
  intros Hp seed0 seed. unfold check_revision. rewrite Hp, hash_files_spec. cbn [map try_ mbind option_bind].
  unfold seed. fold seed0. by destruct (seed0 =? 0).
Qed.

Lemma check_revision_spec_witness :
  let ops := [mkOp (str "A") (str "A") Sub (str "S"); mkOp (str "B") (str "B") Xor (str "C");
              mkOp (str "C") (str "C") Add (str "A"); mkOp (str "A") (str "A") Xor (str "B")] in
  let formula := str "A=3 B=5 C=7 4 A=A-S B=B^C C=C+A A=A^B" in
  parse_formula formula = Ok (mkRegs 3 5 7, ops) ∧
  let seed := get_mpq_seed None 0 in
  let seed := if seed =? 0 then 4137766908 else seed in
  check_revision None formula (map Ok [replicate 1030 9]) 0
  = Some (Ok (rc (foldl (hash_whole ops) (mkRegs (Z.lxor 3 seed) 5 7) [replicate 1030 9]))).
Proof.
  intros ops formula. assert (parse_formula formula = Ok (mkRegs 3 5 7, ops)) as Hp by (vm_compute; reflexivity).
  split; [exact Hp|]. exact (check_revision_spec None formula (replicate 1030 9) [] 0 (mkRegs 3 5 7) ops Hp).
Defined.

(** The registry of seeds is a map from numbers, with zeros where nothing was put. *)
Lemma seed_registry registry i j s :
  0 <= i → get_mpq_seed (set_mpq_seed registry i s).2 j = if j =? i then s else get_mpq_seed registry j.
Proof.
  intros Hi. unfold get_mpq_seed, set_mpq_seed. rewrite (proj2 (Z.ltb_ge i 0)) by done.
  cbn [snd from_option]. unfold id.
  set (seeds := default DEFAULT_MPQ_SEEDS registry).
  destruct (Z.ltb_spec j 0); [by rewrite (proj2 (Z.eqb_neq j i)) by lia|].
  assert (∀ n, default 0 (grow n seeds !! Z.to_nat j) = default 0 (seeds !! Z.to_nat j)) as Hg.
  { intros n. unfold grow. destruct (decide (Z.to_nat j < length seeds)%nat); [by rewrite lookup_app_l|].
    rewrite lookup_app_r, (lookup_ge_None_2 seeds) by lia.
    destruct (replicate _ 0 !! _) as [x|] eqn:E; [|done]. by apply lookup_replicate in E as [-> _]. }
  set (seeds' := if (length seeds <=? Z.to_nat i)%nat then grow (Z.to_nat i + 1) seeds else seeds).
  assert (Z.to_nat i < length seeds')%nat as Hlen.
  { unfold seeds'. destruct (Nat.leb_spec (length seeds) (Z.to_nat i)); [|done].
    unfold grow. rewrite length_app, length_replicate. lia. }
  destruct (Z.eqb_spec j i) as [->|Hne]; [by rewrite list_lookup_insert_eq|].
  rewrite list_lookup_insert_ne by lia. unfold seeds'. by destruct (_ <=? _)%nat.
Qed.

(** ** The calendar *)

Definition is_leap (y : Z) : bool := (y mod 4 =? 0) && (negb (y mod 100 =? 0) || (y mod 400 =? 0)).

Definition month_length (y m : Z) : Z :=
  if m =? 2 then if is_leap y then 29 else 28
  else if (m =? 4) || (m =? 6) || (m =? 9) || (m =? 11) then 30 else 31.

(** The day after a day of the Gregorian calendar. *)
Definition next_day (date : Z * Z * Z) : Z * Z * Z :=
  let '(y, m, d) := date in
  if d <? month_length y m then (y, m, d + 1)
  else if m <? 12 then (y, m + 1, 1) else (y + 1, 1, 1).

(** The computation of the code within an era of 400 years, and with it. *)
Definition date_in_era (doe : Z) : Z * Z * Z :=
  let yoe := (doe - doe / 1460 + doe / 36524 - doe / 146096) / 365 in
  let doy := doe - (365 * yoe + yoe / 4 - yoe / 100) in
  let mp := (5 * doy + 2) / 153 in
  let m := if mp <? 10 then mp + 3 else mp - 9 in
  (if m <=? 2 then yoe + 1 else yoe, m, doy - (153 * mp + 2) / 5 + 1).

Definition in_era (era : Z) (date : Z * Z * Z) : Z * Z * Z := let '(y, m, d) := date in (y + era * 400, m, d).
Definition civil (z : Z) : Z * Z * Z := in_era (z / 146097) (date_in_era (z mod 146097)).

(** *** The year of a day

    The year of a day grows with the day, so that it is enough to look at the first and the
    last day of every year.  A year begins in March. *)
Definition yoe_of (doe : Z) : Z := (doe - doe / 1460 + doe / 36524 - doe / 146096) / 365.
Definition year_start (y : Z) : Z := 365 * y + y / 4 - y / 100.
Definition year_days (y : Z) : Z := if is_leap (y + 1) then 366 else 365.

Lemma yoe_mono a b : 0 <= a → a <= b → yoe_of a <= yoe_of b.
Proof.
  intros Ha Hab. replace b with (a + Z.of_nat (Z.to_nat (b - a))) by lia.
  generalize (Z.to_nat (b - a)). intros n. induction n as [|n IH]; [by rewrite Z.add_0_r|]. etrans; [exact IH|].
  rewrite Nat2Z.inj_succ, <- Z.add_1_r, Z.add_assoc. set (x := a + Z.of_nat n). assert (0 <= x) by lia.
  unfold yoe_of. apply Z.div_le_mono; [lia|].
  pose proof (Z.div_mod x 1460). pose proof (Z.div_mod (x + 1) 1460). pose proof (Z.mod_pos_bound x 1460).
  pose proof (Z.mod_pos_bound (x + 1) 1460). pose proof (Z.div_mod x 146096). pose proof (Z.div_mod (x + 1) 146096).
  pose proof (Z.mod_pos_bound x 146096). pose proof (Z.mod_pos_bound (x + 1) 146096).
  pose proof (Z.div_mod x 36524). pose proof (Z.div_mod (x + 1) 36524). pose proof (Z.mod_pos_bound x 36524).
  pose proof (Z.mod_pos_bound (x + 1) 36524). lia.
Qed.

Lemma years_checked :
  forallb (λ y, (yoe_of (year_start y) =? y) && (yoe_of (year_start y + year_days y - 1) =? y)
                && ((y =? 399) || (year_start (y + 1) =? year_start y + year_days y))) (below 400) = true.
Proof. vm_compute. reflexivity. Qed.

Lemma year_start_nonneg y : 0 <= y → 0 <= year_start y.
Proof.
  intros. unfold year_start. pose proof (Z.div_mod y 100). pose proof (Z.mod_pos_bound y 100).
  pose proof (Z.div_pos y 4). lia.
Qed.

Lemma year_of_era doe :
  0 <= doe < 146097 →
  0 <= yoe_of doe < 400 ∧ year_start (yoe_of doe) <= doe < year_start (yoe_of doe) + year_days (yoe_of doe).
Proof.
  intros Hd. set (y := yoe_of doe).
  assert (0 <= y < 400) as Hy.
  { pose proof (yoe_mono 0 doe ltac:(lia) ltac:(lia)) as H1. pose proof (yoe_mono doe 146096 ltac:(lia) ltac:(lia)) as H2.
    change (yoe_of 0) with 0 in H1. change (yoe_of 146096) with 399 in H2. unfold y. lia. }
  split; [done|]. pose proof (below_spec _ _ y years_checked Hy) as Hc. split.
  - destruct (Z.le_gt_cases (year_start y) doe) as [|Hlt]; [done|exfalso].
    assert (y ≠ 0) by (intros E; rewrite E in Hlt; change (year_start 0) with 0 in Hlt; lia).
    pose proof (below_spec _ _ (y - 1) years_checked ltac:(lia)) as Hp. cbv beta in Hp.
    replace (y - 1 + 1) with y in Hp by lia.
    pose proof (yoe_mono doe (year_start (y - 1) + year_days (y - 1) - 1) ltac:(lia) ltac:(lia)). fold y in H0. lia.
  - destruct (Z.lt_ge_cases doe (year_start y + year_days y)) as [|Hge]; [done|exfalso].
    destruct (decide (y = 399)) as [E|E].
    { rewrite E in Hge. change (year_start 399 + year_days 399) with 146097 in Hge. lia. }
    pose proof (below_spec _ _ (y + 1) years_checked ltac:(lia)) as Hp. cbv beta in Hc, Hp.
    pose proof (year_start_nonneg (y + 1) ltac:(lia)).
    pose proof (yoe_mono (year_start (y + 1)) doe ltac:(lia) ltac:(lia)). fold y in H0. lia.
Qed.

(** *** The days of a year *)

(** Month and day, and whether January of the next year has come, for a day of the year. *)
Definition date_of_doy (doy : Z) : Z * Z * Z :=
  let mp := (5 * doy + 2) / 153 in
  let m := if mp <? 10 then mp + 3 else mp - 9 in
  (if m <=? 2 then 1 else 0, m, doy - (153 * mp + 2) / 5 + 1).

Definition shift_year (y : Z) (date : Z * Z * Z) : Z * Z * Z := let '(k, m, d) := date in (k + y, m, d).

Lemma date_in_era_spec doe :
  date_in_era doe = shift_year (yoe_of doe) (date_of_doy (doe - year_start (yoe_of doe))).
Proof.
  unfold date_in_era, date_of_doy, shift_year. fold (yoe_of doe). fold (year_start (yoe_of doe)). cbv zeta.
  do 2 f_equal. destruct (_ <=? 2); lia.
Qed.

(** The next day when it is known whether the year of the month is a leap year. *)
Definition next_with (leap : bool) (date : Z * Z * Z) : Z * Z * Z :=
  let '(y, m, d) := date in
  let len := if m =? 2 then if leap then 29 else 28
             else if (m =? 4) || (m =? 6) || (m =? 9) || (m =? 11) then 30 else 31 in
  if d <? len then (y, m, d + 1) else if m <? 12 then (y, m + 1, 1) else (y + 1, 1, 1).

Definition date_eqb (a b : Z * Z * Z) : bool :=
  let '(y, m, d) := a in let '(y', m', d') := b in (y =? y') && (m =? m') && (d =? d').
Lemma date_eqb_eq a b : date_eqb a b = true → a = b.
Proof. destruct a as [[y m] d], b as [[y' m'] d']. unfold date_eqb. intros H. f_equal; [f_equal|]; lia. Qed.

Lemma doys_checked :
  forallb (λ doy, date_eqb (next_with true (date_of_doy doy))
                    (if doy =? 365 then shift_year 1 (date_of_doy 0) else date_of_doy (doy + 1))
                  && ((doy =? 365) || date_eqb (next_with false (date_of_doy doy))
                    (if doy =? 364 then shift_year 1 (date_of_doy 0) else date_of_doy (doy + 1)))
                  && (let '(k, m, _) := date_of_doy doy in negb (m =? 2) || (k =? 1))) (below 366) = true.
Proof. vm_compute. reflexivity. Qed.

Lemma next_shift y date :
  (let '(k, m, _) := date in negb (m =? 2) || (k =? 1)) = true →
  next_day (shift_year y date) = shift_year y (next_with (is_leap (y + 1)) date).
Proof.
  destruct date as [[k m] d]. intros Hm. unfold next_day, next_with, shift_year, month_length.
  destruct (Z.eqb_spec m 2) as [->|].
  - assert (k = 1) as -> by lia. rewrite (Z.add_comm 1 y). destruct (d <? _); cbn; by rewrite (Z.add_comm 1 y).
  - destruct (d <? _); [done|]. destruct (m <? 12); [done|]. do 2 f_equal. lia.
Qed.

Lemma doy_next y doy :
  0 <= doy < year_days y →
  next_day (shift_year y (date_of_doy doy))
  = if doy =? year_days y - 1 then shift_year (y + 1) (date_of_doy 0) else shift_year y (date_of_doy (doy + 1)).
Proof.
  intros Hd. assert (0 <= doy < 366) as Hd' by (unfold year_days in Hd; destruct (is_leap _); lia).
  pose proof (below_spec _ _ doy doys_checked Hd') as H. cbv beta in H.
  apply andb_true_iff in H as [[H1 H2]%andb_true_iff H3].
  rewrite next_shift by exact H3. apply date_eqb_eq in H1. unfold year_days in *.
  assert (∀ date, shift_year y (shift_year 1 date) = shift_year (y + 1) date) as Hs.
  { intros [[k m] d]. unfold shift_year. do 2 f_equal. lia. }
  destruct (is_leap (y + 1)).
  - rewrite H1. change (366 - 1) with 365. destruct (doy =? 365); [apply Hs|done].
  - change (365 - 1) with 364. destruct (Z.eqb_spec doy 365); [lia|]. cbn [orb] in H2. apply date_eqb_eq in H2.
    rewrite H2. destruct (doy =? 364); [apply Hs|done].
Qed.

(** Every day of an era is followed by the next, the last by the first of the next era. *)
Lemma era_next doe :
  0 <= doe < 146097 →
  next_day (date_in_era doe) = if doe + 1 =? 146097 then in_era 1 (date_in_era 0) else date_in_era (doe + 1).
Proof.
  intros Hd. destruct (Z.eqb_spec (doe + 1) 146097) as [E0|E0].
  { replace doe with 146096 by lia. vm_compute. reflexivity. }
  destruct (year_of_era doe Hd) as [Hy Hb]. rewrite !date_in_era_spec. set (y := yoe_of doe) in *.
  rewrite doy_next by lia.
  assert (∀ x, 0 <= x < 400 → year_start x <= doe + 1 <= year_start x + year_days x - 1 → yoe_of (doe + 1) = x) as Hyoe.
  { intros x Hx Hin. pose proof (below_spec _ _ x years_checked Hx) as Hc. cbv beta in Hc.
    pose proof (year_start_nonneg x (proj1 Hx)).
    pose proof (yoe_mono (year_start x) (doe + 1) ltac:(lia) ltac:(lia)).
    pose proof (yoe_mono (doe + 1) (year_start x + year_days x - 1) ltac:(lia) ltac:(lia)). lia. }
  pose proof (below_spec _ _ y years_checked Hy) as Hc. cbv beta in Hc.
  destruct (Z.eqb_spec (doe - year_start y) (year_days y - 1)) as [E|E].
  - destruct (decide (y = 399)) as [E'|E'].
    { rewrite E' in *. change (year_start 399) with 145731 in *. change (year_days 399) with 366 in *. lia. }
    assert (year_start (y + 1) = doe + 1) as Hs by lia.
    assert (1 <= year_days (y + 1)) by (unfold year_days; destruct (is_leap _); lia).
    rewrite (Hyoe (y + 1)) by lia. by rewrite Hs, Z.sub_diag.
  - rewrite (Hyoe y) by lia. by replace (doe + 1 - year_start y) with (doe - year_start y + 1) by lia.
Qed.

Lemma next_day_era era date : next_day (in_era era date) = in_era era (next_day date).
Proof.
  destruct date as [[y m] d]. unfold next_day, in_era.
  assert (month_length (y + era * 400) m = month_length y m) as ->.
  { unfold month_length, is_leap.
    replace ((y + era * 400) mod 4) with (y mod 4) by (replace (era * 400) with (era * 100 * 4) by lia; by rewrite Z_mod_plus_full).
    replace ((y + era * 400) mod 100) with (y mod 100) by (replace (era * 400) with (era * 4 * 100) by lia; by rewrite Z_mod_plus_full).
    by rewrite Z_mod_plus_full. }
  destruct (d <? _); [done|]. destruct (m <? 12); [done|]. do 2 f_equal. lia.
Qed.

Lemma civil_next z : 0 <= z → civil (z + 1) = next_day (civil z).
Proof.
  intros Hz. unfold civil. pose proof (Z.div_mod z 146097 ltac:(lia)) as Hd.
  pose proof (Z.mod_pos_bound z 146097 ltac:(lia)) as Hm. set (q := z / 146097) in *. set (r := z mod 146097) in *.
  rewrite next_day_era. rewrite era_next by lia.
  destruct (Z.eqb_spec (r + 1) 146097) as [E|E].
  - assert ((z + 1) / 146097 = q + 1 ∧ (z + 1) mod 146097 = 0) as [-> ->].
    { split; symmetry; [apply Z.div_unique with 0; lia|apply Z.mod_unique with (q + 1); lia]. }
    destruct (date_in_era 0) as [[y m] d]. unfold in_era. do 2 f_equal. lia.
  - assert ((z + 1) / 146097 = q ∧ (z + 1) mod 146097 = r + 1) as [-> ->]; [|done].
    split; symmetry; [apply Z.div_unique with (r + 1); lia|apply Z.mod_unique with q; lia].
Qed.

(** The date [n] days after the first of January 1970. *)
Definition calendar (n : nat) : Z * Z * Z := Nat.iter n next_day (1970, 1, 1).

Lemma civil_calendar n : civil (Z.of_nat n + 719468) = calendar n.
Proof.
  induction n as [|n IH]; [vm_compute; reflexivity|]. change (calendar (S n)) with (next_day (calendar n)). rewrite <- IH.
  replace (Z.of_nat (S n) + 719468) with (Z.of_nat n + 719468 + 1) by lia. apply civil_next. lia.
Qed.

(** The date of a file in the text that is sent to the server is the Gregorian date of
    its time, counted day by day from 1970 on with the rules for leap years, and the time
    of day that is left. *)
Theorem dates_follow_calendar secs y m d :
  0 <= secs → calendar (Z.to_nat (secs / 86400)) = (y, m, d) → uN 32 y →
  timestamp_to_utc_parts secs
  = (y mod 100, m, d, secs mod 86400 / 3600, secs mod 86400 mod 3600 / 60, secs mod 86400 mod 60).
Proof.
  intros Hs Hc Hy. rewrite <- civil_calendar, Z2Nat.id in Hc by (apply Z.div_pos; lia).
  unfold timestamp_to_utc_parts. set (z := secs / 86400 + 719468) in *.
  unfold civil, date_in_era in Hc.
  replace (z - z / 146097 * 146097) with (z mod 146097) by (rewrite Z.mod_eq by lia; lia).
  set (doe := z mod 146097) in *. set (era := z / 146097) in *. cbv zeta in *.
  set (yoe := (doe - doe / 1460 + doe / 36524 - doe / 146096) / 365) in *.
  replace (yoe + era * 400 + 1) with (yoe + 1 + era * 400) by lia.
  cbn [in_era] in Hc. injection Hc as Hc1 Hc2 Hc3. rewrite Hc2 in *. rewrite Hc3.
  assert ((if m <=? 2 then yoe + 1 + era * 400 else yoe + era * 400) = y) as ->
    by (destruct (m <=? 2); lia).
  by rewrite wrap_small.
Qed.

(** The last second of February 2024. *)
Lemma dates_follow_calendar_witness :
  timestamp_to_utc_parts 1709251199 = (2024 mod 100, 2, 29, 23, 59, 59).
Proof.
  rewrite (dates_follow_calendar 1709251199 2024 2 29); [vm_compute; reflexivity|lia|vm_compute; reflexivity|].
  unfold uN. lia.
Defined.

(** ** The number of the archive *)

Lemma rfind_char_app p cs c ds :
  p c = true → Forall (λ d, p d = false) ds →
  rfind_char p (cs ++ c :: ds) = Some (length (concat cs)).
Proof.
  intros Hc Hds. assert (rfind_char p ds = None) as Hn.
  { induction Hds as [|d ds Hd _ IH]; [done|]. cbn [rfind_char]. by rewrite IH, Hd. }
  induction cs as [|c' cs IH]; cbn [app rfind_char concat length]; [by rewrite Hn, Hc|].
  by rewrite IH, length_app.
Qed.

Lemma rfind_none c s : Forall (λ b, b ≠ c) s → rfind c s = None.
Proof.
  induction 1 as [|b s Hb _ IH]; [done|]. cbn [rfind]. rewrite IH. by rewrite (proj2 (Z.eqb_neq b c)).
Qed.

(** The second byte of a longer character is no boundary. *)
Lemma second_byte c : is_char c → (1 < length c)%nat → ∃ b1 b2 r, c = b1 :: b2 :: r ∧ 128 <= b2 < 192.
Proof.
  intros [Hne Hc] Hl. destruct c as [|b1 [|b2 r]]; [done|simpl in Hl; lia|]. exists b1, b2, r. split; [done|].
  destruct r as [|b3 [|b4 [|b5 r]]]; cbn [length] in Hc;
    unfold utf8_step, utf8_char_width, second_of_3, second_of_4, in_range, is_cont in Hc;
    cbn [lookup list_lookup] in Hc; repeat (case_match; simplify_eq/=); lia.
Qed.

Lemma strip_mpq s : strip_suffix (str ".mpq") (s ++ str ".mpq") = s.
Proof.
  unfold strip_suffix. rewrite length_app, Nat.add_sub, drop_app_length, take_app_length.
  change (bytes_eqb (str ".mpq") (str ".mpq")) with true. by rewrite (proj2 (Nat.leb_le _ _)) by lia.
Qed.

(** The name of the archive that the server sends makes the client panic when the last
    character before its number is not an ASCII one: the number is taken to start one byte
    after that character does, inside of it. *)
Theorem mpq_number_panics pre c digits :
  valid_utf8 pre → is_char c → (1 < length c)%nat → Forall (λ d, 48 <= d < 58) digits →
  Forall (λ b, b ≠ 46) (pre ++ c ++ digits) →
  extract_mpq_number (pre ++ c ++ digits ++ str ".mpq") = None.
Proof.
  intros Hp Hc Hl Hd H46. unfold extract_mpq_number.
  replace (pre ++ c ++ digits ++ str ".mpq") with ((pre ++ c ++ digits) ++ str ".mpq") by by rewrite <- !app_assoc.
  rewrite strip_mpq, rfind_none by done.
  assert (chars (pre ++ c ++ digits) = chars pre ++ c :: map (λ d, [d]) digits) as ->.
  { rewrite chars_valid_app, chars_app by done. do 2 f_equal.
    induction Hd as [|d ds Hd' _ IH]; [done|]. cbn [map]. rewrite <- IH.
    - apply (chars_app [d] ds). apply is_char_ascii. lia.
    - rewrite !Forall_app, Forall_cons in *. naive_solver. }
  destruct (second_byte c Hc Hl) as (b1 & b2 & r & -> & Hb).
  rewrite rfind_char_app.
  - rewrite chars_concat. unfold is_char_boundary. rewrite lookup_app_r by lia.
    replace (S (length pre) - length pre)%nat with 1%nat by lia. cbn [app lookup list_lookup Nat.eqb].
    rewrite (proj2 (Z.leb_le _ _)), (proj2 (Z.ltb_lt _ _)) by lia. done.
  - done.
  - apply Forall_map. eapply Forall_impl; [exact Hd|]. intros d Hdd. cbv beta in Hdd. cbn [not_digit].
    rewrite (proj2 (Z.leb_le _ _)), (proj2 (Z.leb_le _ _)) by lia. done.
Qed.

(** The replacement character, which any byte that is not UTF-8 is decoded to. *)
Lemma mpq_number_panics_witness :
  extract_mpq_number (str "ver" ++ replacement ++ [55] ++ str ".mpq") = None.
Proof.
  apply (mpq_number_panics (str "ver") replacement [55]).
  - apply valid_utf8_ascii. apply (bool_decide_unpack _). vm_compute. reflexivity.
  - apply replacement_is_char.
  - simpl. lia.
  - apply (bool_decide_unpack _). vm_compute. reflexivity.
  - apply (bool_decide_unpack _). vm_compute. reflexivity.
Defined.

(** *** When it panics

    A character that takes more than one byte, well-formed or not, is outside ASCII in each. *)
Lemma long_char_high l : (1 < (utf8_step l).2)%nat → Forall (λ b, 128 <= b) (take (utf8_step l).2 l).
Proof.
  destruct l as [|b1 l]; [cbn; lia|]. unfold utf8_step, utf8_char_width, second_of_3, second_of_4, in_range, is_cont.
  destruct l as [|b2 [|b3 [|b4 l]]]; cbn [lookup list_lookup];
    repeat (case_match; simplify_eq/=; try lia); intros _; repeat constructor; lia.
Qed.

Lemma chars_long s : Forall (λ c, c ≠ [] ∧ ((1 < length c)%nat → Forall (λ b, 128 <= b) c)) (chars s).
Proof.
  induction s as [s IH] using list_length_ind. destruct s as [|x l]; [constructor|].
  pose proof (utf8_step_pos (x :: l) ltac:(done)) as Hpos. rewrite chars_unfold by done. constructor.
  - split.
    + intros E%(f_equal length). rewrite length_take in E. cbn [length] in *. lia.
    + rewrite length_take. intros Hl. apply long_char_high. lia.
  - apply IH. rewrite length_drop. cbn [length] in *. lia.
Qed.

Lemma rfind_char_Some p cs i :
  rfind_char p cs = Some i → ∃ pre c post, cs = pre ++ c :: post ∧ Forall (λ d, p d = false) post ∧ i = length (concat pre).
Proof.
  assert (∀ cs, rfind_char p cs = None → Forall (λ d, p d = false) cs) as Hn.
  { clear. induction cs as [|c cs IH]; cbn [rfind_char]; [constructor|]. destruct (rfind_char p cs); [done|].
    destruct (p c) eqn:Ec; [done|]. intros _. constructor; [done|by apply IH]. }
  revert i. induction cs as [|c cs IH]; intros i; cbn [rfind_char]; [done|].
  destruct (rfind_char p cs) as [j|] eqn:E.
  - intros [= <-]. destruct (IH j eq_refl) as (pre & d & post & -> & Hp & ->). exists (c :: pre), d, post.
    split; [done|]. split; [done|]. cbn. by rewrite length_app.
  - destruct (p c); [|done]. intros [= <-]. exists [], c, cs. split; [done|]. split; [by apply Hn|done].
Qed.

(** The number in the name, up to the end or a dot, follows a byte outside ASCII. *)
Definition number_after_high (name : bytes) : Prop :=
  ∃ pre b digits rest, name = pre ++ b :: digits ++ rest ∧ 128 <= b ∧ Forall (λ d, 48 <= d < 58) digits ∧
    (rest = [] ∨ head rest = Some 46).

Lemma stem_prefix name :
  let n := strip_suffix (str ".mpq") name in
  ∃ rest, name = match rfind 46 n with Some i => take i n | None => n end ++ rest ∧ (rest = [] ∨ head rest = Some 46).
Proof.
  cbv zeta. assert (∃ r, name = strip_suffix (str ".mpq") name ++ r ∧ (r = [] ∨ head r = Some 46)) as (r & En & Hr).
  { unfold strip_suffix. destruct (_ && _) eqn:E; [|exists []; rewrite app_nil_r; auto].
    apply andb_true_iff in E as [E%bytes_eqb_eq _]. eexists. split; [symmetry; apply take_drop|]. rewrite E. by right. }
  set (n := strip_suffix _ name) in *. destruct (rfind 46 n) as [i|] eqn:Ei; [|by exists r].
  assert (n !! i = Some 46) as Hi.
  { revert i Ei. clear. induction n as [|b n IH]; intros i; cbn [rfind]; [done|]. destruct (rfind 46 n) as [j|].
    - intros [= <-]. by apply IH.
    - destruct (Z.eqb_spec b 46) as [->|]; [by intros [= <-]|done]. }
  exists (drop i n ++ r). rewrite app_assoc, take_drop. split; [done|]. right. by rewrite (drop_S _ _ _ Hi).
Qed.

Lemma mpq_number_none name : extract_mpq_number name = None → number_after_high name.
Proof.
  unfold extract_mpq_number. destruct (stem_prefix name) as (rest & En & Hr). cbv zeta in *.
  set (stem := match rfind 46 _ with Some i => _ | None => _ end) in *.
  destruct (rfind_char not_digit (chars stem)) as [i|] eqn:E; cycle 1.
  { unfold is_char_boundary. cbn [Nat.eqb]. by rewrite orb_true_r. }
  destruct (is_char_boundary stem (S i)) eqn:Hb; [done|]. intros _.
  apply rfind_char_Some in E as (pre & c & post & Ec & Hp & ->).
  pose proof (chars_long stem) as Hl. pose proof (chars_concat stem) as Es. rewrite Ec in Hl, Es.
  apply Forall_app in Hl as [_ [[Hne Hl] _]%Forall_cons]. rewrite concat_app in Es. cbn [concat] in Es.
  assert (∃ ds, concat post = ds ∧ Forall (λ d, 48 <= d < 58) ds) as (ds & Ed & Hds).
  { eexists. split; [reflexivity|]. clear -Hp. induction Hp as [|d post Hd _ IH]; [constructor|]. cbn [concat].
    apply Forall_app_2; [|exact IH]. unfold not_digit in Hd. destruct d as [|b [|b' d]]; try done.
    apply negb_false_iff, andb_true_iff in Hd as [H1%Z.leb_le H2%Z.leb_le]. constructor; [lia|constructor]. }
  rewrite Ed in Es. destruct (decide (1 < length c)%nat) as [Hlong|Hshort].
  - destruct (rev c) as [|b r] eqn:Er; [by apply (f_equal length) in Er; rewrite length_rev in Er; cbn in Er; lia|].
    apply (f_equal (@rev Z)) in Er. rewrite rev_involutive in Er. cbn [rev] in Er. rewrite Er in Hl, Es.
    specialize (Hl ltac:(by rewrite <- Er)). apply Forall_app in Hl as [_ [Hbb _]%Forall_cons].
    exists (concat pre ++ rev r), b, ds, rest. split; [|done]. rewrite En, <- Es. by rewrite <- !app_assoc.
  - exfalso. destruct c as [|x [|y c]]; [done| |cbn in Hshort; lia]. clear Hl Hne Hshort.
    enough (is_char_boundary stem (S (length (concat pre))) = true) by congruence.
    rewrite <- Es. clear -Hds. unfold is_char_boundary. rewrite lookup_app_r by lia.
    replace (S (length (concat pre)) - length (concat pre))%nat with 1%nat by lia. destruct Hds as [|d ds Hd _]; cbn.
    + rewrite orb_false_r, length_app, Nat.add_1_r. apply Nat.eqb_refl.
    + rewrite orb_false_r. apply negb_true_iff, andb_false_iff. left. lia.
Qed.
