(* ===== verification/Pe.v ===== *)
(** The version of a Windows executable (spectre-bnet, src/bncsutil/pe.rs).

    The outer option is a panic, a slice out of range; an [Err tt] is an early [return None]. *)
From S2P Require Import Prelude Utf8 Text.

Definition VS_FFI_SIGNATURE : Z := 4277077181.

Record PeFixedFileInfo := mkFfi {
  signature : Z; struct_version : Z; file_version_ms : Z; file_version_ls : Z;
  product_version_ms : Z; product_version_ls : Z; file_flags_mask : Z; file_flags : Z;
  file_os : Z; file_type : Z; file_subtype : Z; file_date_ms : Z; file_date_ls : Z }.

(** The low bytes of the halves of two words. *)
Definition pack (ms ls : Z) : Z :=
  let hi_ms := Z.land (Z.shiftr ms 16) 255 in
  let lo_ms := Z.land ms 255 in
  let hi_ls := Z.land (Z.shiftr ls 16) 255 in
  let lo_ls := Z.land ls 255 in
  Z.lor (Z.lor (Z.lor (wrap 32 (Z.shiftl hi_ms 24)) (wrap 32 (Z.shiftl lo_ms 16))) (wrap 32 (Z.shiftl hi_ls 8))) lo_ls.

Definition packed_product_version (f : PeFixedFileInfo) : Z :=
  pack (product_version_ms f) (product_version_ls f).

(** The bytes of [VS_FFI_SIGNATURE]. *)
Definition ffi_bytes : bytes := [189; 4; 239; 254].

(** [u32_at(off)] *)
Definition u32_at (buf : bytes) (off : nat) : Z := le_val (take 4 (drop off buf)).

Definition parse_fixed_file_info_struct (buf : bytes) : option PeFixedFileInfo :=
  if (length buf <? 52)%nat then None else
  Some (mkFfi (u32_at buf 0) (u32_at buf 4) (u32_at buf 8) (u32_at buf 12) (u32_at buf 16) (u32_at buf 20)
          (u32_at buf 24) (u32_at buf 28) (u32_at buf 32) (u32_at buf 36) (u32_at buf 40) (u32_at buf 44)
          (u32_at buf 48)).

(** [for w in s.windows(52) { if w[0..4] == .. }]: the first such window. *)
Fixpoint find_window (n : nat) (s : bytes) : option bytes :=
  match n with
  | O => None
  | S n => if bytes_eqb (take 4 s) ffi_bytes then Some (take 52 s) else find_window n (drop 1 s)
  end.
Definition windows_find (s : bytes) : option bytes := find_window (length s - 51) s.

(** [data.get(a..b)?], and [rsrc.get(a..b).and_then(..).unwrap_or_default()] as a number. *)
Definition get_or_return (data : bytes) (a b : Z) : option (result () bytes) :=
  Some (match slice data a b with Some s => Ok s | None => Err tt end).
Definition num_at (rsrc : bytes) (a b : Z) : Z := match slice rsrc a b with Some s => le_val s | None => 0 end.

(** [for i in 0..num_sections], the last [n] turns: the section [.rsrc]. *)
Fixpoint find_rsrc (n : nat) (data : bytes) (sections_offset i : Z) : option (result () (option (Z * Z * Z))) :=
  match n with
  | O => Some (Ok None)
  | S n =>
    let sec_offset := sections_offset + i * 40 in
    if zlen data <? sec_offset + 40 then Some (Ok None) else
    name ← slice data sec_offset (sec_offset + 8);
    if starts_with (str ".rsrc") name then
      try_ (get_or_return data (sec_offset + 12) (sec_offset + 16)) (λ virt_addr,
      try_ (get_or_return data (sec_offset + 16) (sec_offset + 20)) (λ raw_size,
      try_ (get_or_return data (sec_offset + 20) (sec_offset + 24)) (λ raw_offset,
        Some (Ok (Some (le_val virt_addr, le_val raw_offset, le_val raw_size))))))
    else find_rsrc n data sections_offset (i + 1)
  end.

(** Where the entry of the version's data is, from the directory at [l2_off]. *)
Definition data_entry_of (rsrc : bytes) (l2_off : Z) : Z :=
  let l2_entry := l2_off + 16 in
  let l2_data_or_dir := num_at rsrc (l2_entry + 4) (l2_entry + 8) in
  if negb (Z.land l2_data_or_dir 2147483648 =? 0) then
    let l3_off := Z.land l2_data_or_dir 2147483647 in
    if l3_off + 24 <=? zlen rsrc then
      let l3_entry := l3_off + 16 in
      Z.land (num_at rsrc (l3_entry + 4) (l3_entry + 8)) 2147483647
    else 0
  else Z.land l2_data_or_dir 2147483647.

(** The innermost part of a turn of the loop: what stands at the version's address. *)
Definition version_at (data rsrc : bytes) (rsrc_va rsrc_offset data_entry_off : Z) : option (option bytes) :=
  if data_entry_off + 8 <=? zlen rsrc then
    let data_rva := num_at rsrc data_entry_off (data_entry_off + 4) in
    if rsrc_va <=? data_rva then
      let file_off := rsrc_offset + (data_rva - rsrc_va) in
      if file_off + 52 <=? zlen data then
        s ← slice data file_off (Z.min (zlen data) (file_off + 1024));
        Some (windows_find s)
      else Some None
    else Some None
  else Some None.

(** A turn: a window to return, if any. *)
Definition entry_version (data rsrc : bytes) (rsrc_va rsrc_offset entry_off : Z) : option (option bytes) :=
  match slice rsrc entry_off (entry_off + 4), slice rsrc (entry_off + 4) (entry_off + 8) with
  | Some id_slice, Some data_slice =>
    let data_or_dir := le_val data_slice in
    if (le_val id_slice =? 16) && negb (Z.land data_or_dir 2147483648 =? 0) then
      let l2_off := Z.land data_or_dir 2147483647 in
      if l2_off + 16 <=? zlen rsrc then
        let l2_named := num_at rsrc (l2_off + 12) (l2_off + 14) in
        let l2_id := num_at rsrc (l2_off + 14) (l2_off + 16) in
        if (0 <? l2_named + l2_id) && (l2_off + 24 <=? zlen rsrc)
        then version_at data rsrc rsrc_va rsrc_offset (data_entry_of rsrc l2_off)
        else Some None
      else Some None
    else Some None
  | _, _ => Some None
  end.

(** [for i in 0..total_entries], the last [n] turns. *)
Fixpoint find_version (n : nat) (data rsrc : bytes) (rsrc_va rsrc_offset i : Z) : option (option bytes) :=
  match n with
  | O => Some None
  | S n =>
    w ← entry_version data rsrc rsrc_va rsrc_offset (16 + i * 8);
    match w with
    | Some w => Some (Some w)
    | None => find_version n data rsrc rsrc_va rsrc_offset (i + 1)
    end
  end.

(** The part after the loop over the sections. *)
Definition version_in (data : bytes) (rsrc_va rsrc_offset rsrc_size : Z) : option (option bytes) :=
  if (rsrc_offset + rsrc_size <=? zlen data) && (16 <=? rsrc_size) then
    rsrc ← slice data rsrc_offset (rsrc_offset + rsrc_size);
    match slice rsrc 12 14, slice rsrc 14 16 with
    | Some named_bytes, Some id_bytes =>
      find_version (Z.to_nat (le_val named_bytes + le_val id_bytes)) data rsrc rsrc_va rsrc_offset 0
    | _, _ => Some None
    end
  else Some None.

Definition extract_pe_fixed_file_info (data : bytes) : option (result () (option PeFixedFileInfo)) :=
  if zlen data <? 64 then Some (Err tt) else
  mz ← slice data 0 2;
  if negb (bytes_eqb mz (str "MZ")) then Some (Err tt) else
  try_ (get_or_return data 60 64) (λ pe_offset,
    let pe_offset := le_val pe_offset in
    if zlen data <? pe_offset + 24 then Some (Err tt) else
    pe ← slice data pe_offset (pe_offset + 4);
    if negb (bytes_eqb pe [80; 69; 0; 0]) then Some (Err tt) else
    try_ (get_or_return data (pe_offset + 6) (pe_offset + 8)) (λ num_sections,
    try_ (get_or_return data (pe_offset + 20) (pe_offset + 22)) (λ opt_hdr_size,
      let sections_offset := pe_offset + 24 + le_val opt_hdr_size in
      try_ (find_rsrc (Z.to_nat (le_val num_sections)) data sections_offset 0) (λ rsrc,
        match rsrc with
        | Some (rsrc_va, rsrc_offset, rsrc_size) =>
          w ← version_in data rsrc_va rsrc_offset rsrc_size;
          Some (Ok (w ≫= parse_fixed_file_info_struct))
        | None => Some (Ok None)
        end)))).

Definition extract_pe_version (data : bytes) : option (option Z) :=
  r ← extract_pe_fixed_file_info data;
  match r with
  | Ok (Some ffi) => Some (Some (packed_product_version ffi))
  | _ => Some ((λ w, pack (u32_at w 16) (u32_at w 20)) <$> windows_find data)
  end.

(** ** Windows *)

(** [w] is 52 bytes of the data that begin with the signature. *)
Definition block_of (data w : bytes) : Prop :=
  (∃ pre rest, data = pre ++ w ++ rest) ∧ length w = 52%nat ∧ take 4 w = ffi_bytes.

Lemma find_window_spec n s :
  (n <= length s - 51)%nat →
  match find_window n s with
  | Some w => block_of s w
  | None => ∀ k, (k < n)%nat → take 4 (drop k s) ≠ ffi_bytes
  end.
Proof.
  revert s. induction n as [|n IH]; intros s Hn; cbn [find_window]; [intros k; lia|].
  destruct (bytes_eqb (take 4 s) ffi_bytes) eqn:E.
  - apply bytes_eqb_eq in E. split; [exists [], (drop 52 s); cbn [app]; by rewrite take_drop|].
    split; [rewrite length_take; lia|]. by rewrite take_take.
  - specialize (IH (drop 1 s)). rewrite length_drop in IH. specialize (IH ltac:(lia)).
    destruct (find_window n (drop 1 s)) as [w|].
    + destruct IH as [(pre & rest & Hs) Hw]. split; [|done]. destruct s as [|b s]; [simpl in Hn; lia|].
      cbn [drop] in Hs. exists (b :: pre), rest. cbn [app]. by rewrite <- Hs.
    + intros [|k] Hk; [intros H; rewrite drop_0 in H; apply bytes_eqb_eq in H; congruence|].
      specialize (IH k ltac:(lia)). by rewrite drop_drop in IH.
Qed.

Lemma windows_find_some s w : windows_find s = Some w → block_of s w.
Proof. intros H. pose proof (find_window_spec (length s - 51) s ltac:(lia)) as Hs. unfold windows_find in H. by rewrite H in Hs. Qed.

Lemma windows_find_none s w : windows_find s = None → ¬ block_of s w.
Proof.
  intros H [(pre & rest & ->) [Hl Hw]].
  pose proof (find_window_spec (length (pre ++ w ++ rest) - 51) (pre ++ w ++ rest) ltac:(lia)) as Hs.
  unfold windows_find in H. rewrite H in Hs. rewrite !length_app in Hs. apply (Hs (length pre)); [lia|].
  rewrite drop_app_length, take_app_le by lia. done.
Qed.

Lemma block_of_slice data a b s w : slice data a b = Some s → block_of s w → block_of data w.
Proof.
  unfold slice. destruct (_ && _); [|done]. intros [= <-] [(pre & rest & E) Hw]. split; [|done].
  exists (take (Z.to_nat a) data ++ pre), (rest ++ drop (Z.to_nat (b - a)) (drop (Z.to_nat a) data)).
  rewrite <- (take_drop (Z.to_nat a) data) at 1. rewrite <- (take_drop (Z.to_nat (b - a)) (drop (Z.to_nat a) data)) at 1.
  rewrite E. by rewrite <- !app_assoc.
Qed.

(** ** Nothing is out of range *)

Lemma num_at_nonneg rsrc a b : Forall u8 rsrc → 0 <= num_at rsrc a b.
Proof.
  intros Hu. unfold num_at. destruct (slice rsrc a b) as [s|] eqn:E; [|done].
  apply le_val_bound. by eapply slice_u8.
Qed.

(** It ends, and what it found is a block of the file. *)
Definition finds (data : bytes) (o : option (option bytes)) : Prop :=
  ∃ r, o = Some r ∧ ∀ w, r = Some w → block_of data w.

Lemma finds_none data : finds data (Some None).
Proof. by eexists. Qed.
Hint Resolve finds_none : spectre.

Lemma version_at_finds data rsrc va off e :
  Forall u8 rsrc → 0 <= off → finds data (version_at data rsrc va off e).
Proof.
  intros Hu Ho. unfold version_at. destruct (Z.leb_spec (e + 8) (zlen rsrc)); [|apply finds_none].
  set (rva := num_at _ _ _). destruct (Z.leb_spec va rva); [|apply finds_none].
  destruct (Z.leb_spec (off + (rva - va) + 52) (zlen data)); [|apply finds_none].
  destruct (slice_ok data (off + (rva - va)) (Z.min (zlen data) (off + (rva - va) + 1024))) as (s & Hs & _); [lia..|].
  rewrite Hs. cbn [mbind option_bind]. eexists. split; [done|]. intros w Hw.
  eapply block_of_slice; [done|]. by apply windows_find_some.
Qed.

Lemma entry_version_finds data rsrc va off e :
  Forall u8 rsrc → 0 <= off → finds data (entry_version data rsrc va off e).
Proof.
  intros Hu Ho. unfold entry_version. destruct (slice rsrc e (e + 4)), (slice rsrc (e + 4) (e + 8)); try apply finds_none.
  destruct (_ && _); [|apply finds_none]. destruct (_ <=? _); [|apply finds_none].
  destruct (_ && _); [|apply finds_none]. by apply version_at_finds.
Qed.

Lemma find_version_finds n data rsrc va off i :
  Forall u8 rsrc → 0 <= off → finds data (find_version n data rsrc va off i).
Proof.
  intros Hu Ho. revert i. induction n as [|n IH]; intros i; cbn [find_version]; [apply finds_none|].
  destruct (entry_version_finds data rsrc va off (16 + i * 8) Hu Ho) as (r & -> & Hr). cbn [mbind option_bind].
  destruct r as [w|]; [|apply IH]. exists (Some w). split; [done|exact Hr].
Qed.

Lemma version_in_finds data va off size : Forall u8 data → 0 <= off → finds data (version_in data va off size).
Proof.
  intros Hu Ho. unfold version_in. destruct (Z.leb_spec (off + size) (zlen data)), (Z.leb_spec 16 size); cbn [andb];
    try apply finds_none.
  destruct (slice_ok data off (off + size)) as (rsrc & Hs & _); [lia..|]. rewrite Hs. cbn [mbind option_bind].
  destruct (slice rsrc 12 14), (slice rsrc 14 16); try apply finds_none.
  apply find_version_finds; [by eapply slice_u8|done].
Qed.

Lemma get_or_return_ok data a b :
  Forall u8 data → 0 <= a → a <= b → b <= zlen data →
  ∃ s, get_or_return data a b = Some (Ok s) ∧ 0 <= le_val s.
Proof.
  intros Hu Ha Hb Hl. unfold get_or_return. destruct (slice_ok data a b Ha Hb Hl) as (s & Hs & _). rewrite Hs.
  eexists. split; [done|]. apply le_val_bound. by eapply slice_u8.
Qed.

Lemma find_rsrc_ok n data off i :
  Forall u8 data → 0 <= off → 0 <= i →
  ∃ r, find_rsrc n data off i = Some (Ok r) ∧ ∀ va ro size, r = Some (va, ro, size) → 0 <= ro.
Proof.
  intros Hu Ho. revert i. induction n as [|n IH]; intros i Hi; cbn [find_rsrc]; [by eexists|].
  set (o := off + i * 40). assert (0 <= o) by lia.
  destruct (Z.ltb_spec (zlen data) (o + 40)); [by eexists|].
  destruct (slice_ok data o (o + 8)) as (nm & -> & _); [lia..|]. cbn [mbind option_bind].
  destruct (starts_with _ nm); [|apply IH; lia].
  destruct (get_or_return_ok data (o + 12) (o + 16)) as (s1 & -> & _); [done|lia..|]. cbn [try_ mbind option_bind].
  destruct (get_or_return_ok data (o + 16) (o + 20)) as (s2 & -> & _); [done|lia..|]. cbn [try_ mbind option_bind].
  destruct (get_or_return_ok data (o + 20) (o + 24)) as (s3 & -> & Hs3); [done|lia..|]. cbn [try_ mbind option_bind].
  eexists. split; [done|]. by intros ? ? ? [= _ <- _].
Qed.

Lemma fixed_file_info_ok data :
  Forall u8 data →
  ∃ r, extract_pe_fixed_file_info data = Some r ∧
    ∀ ffi, r = Ok (Some ffi) → ∃ w, block_of data w ∧ parse_fixed_file_info_struct w = Some ffi.
Proof.
  intros Hu. unfold extract_pe_fixed_file_info. destruct (Z.ltb_spec (zlen data) 64); [by eexists|].
  destruct (slice_ok data 0 2) as (mz & -> & _); [lia..|]. cbn [mbind option_bind].
  destruct (negb _); [by eexists|].
  destruct (get_or_return_ok data 60 64) as (pe & -> & Hpe); [done|lia..|]. cbn [try_ mbind option_bind].
  set (p := le_val pe) in *. destruct (Z.ltb_spec (zlen data) (p + 24)); [by eexists|].
  destruct (slice_ok data p (p + 4)) as (pes & -> & _); [lia..|]. cbn [mbind option_bind].
  destruct (negb _); [by eexists|].
  destruct (get_or_return_ok data (p + 6) (p + 8)) as (ns & -> & _); [done|lia..|]. cbn [try_ mbind option_bind].
  destruct (get_or_return_ok data (p + 20) (p + 22)) as (os & -> & Hos); [done|lia..|]. cbn [try_ mbind option_bind].
  destruct (find_rsrc_ok (Z.to_nat (le_val ns)) data (p + 24 + le_val os) 0) as (r & -> & Hr); [done|lia|lia|].
  cbn [try_ mbind option_bind]. destruct r as [[[va ro] size]|]; [|by eexists].
  destruct (version_in_finds data va ro size Hu) as (w & -> & Hw); [by eapply Hr|]. cbn [mbind option_bind].
  eexists. split; [done|]. intros ffi [= E]. destruct w as [w|]; [|done]. exists w. split; [by apply Hw|done].
Qed.

(** No file makes the search for its version panic or loop.  A version that is reported
    is packed out of a block of version information of the file, and when none is reported
    the file has no such block. *)
Theorem pe_version_spec data :
  Forall u8 data →
  ∃ r, extract_pe_version data = Some r ∧
    match r with
    | Some v => ∃ w, block_of data w ∧ v = pack (u32_at w 16) (u32_at w 20)
    | None => ∀ w, ¬ block_of data w
    end.
Proof.
  intros Hu. unfold extract_pe_version. destruct (fixed_file_info_ok data Hu) as (r & -> & Hr). cbn [mbind option_bind].
  assert (∃ r', Some ((λ w, pack (u32_at w 16) (u32_at w 20)) <$> windows_find data) = Some r' ∧
    match r' with
    | Some v => ∃ w, block_of data w ∧ v = pack (u32_at w 16) (u32_at w 20)
    | None => ∀ w, ¬ block_of data w
    end) as Hfall.
  { eexists. split; [done|]. destruct (windows_find data) as [w|] eqn:E; cbn [fmap option_fmap option_map].
    - exists w. split; [by apply windows_find_some|done].
    - intros w. by apply windows_find_none. }
  destruct r as [[ffi|]|e]; [|exact Hfall|exact Hfall].
  eexists. split; [done|]. destruct (Hr ffi eq_refl) as (w & Hw & Hp). exists w. split; [done|].
  unfold parse_fixed_file_info_struct in Hp. destruct (_ <? _)%nat; [done|]. injection Hp as <-. done.
Qed.

(** Two bytes, a block, and the end of the file. *)
Lemma pe_version_spec_witness :
  let data := [1; 2] ++ ffi_bytes ++ replicate 12 0 ++ [26; 0; 1; 0; 54; 24; 0; 0] ++ replicate 28 0 in
  ∃ w, block_of data w ∧ extract_pe_version data = Some (Some (pack (u32_at w 16) (u32_at w 20))).
Proof.
  intros data. destruct (pe_version_spec data) as (r & Hr & H).
  - apply (bool_decide_unpack _). vm_compute. reflexivity.
  - destruct r as [v|]; [|vm_compute in Hr; discriminate Hr]. destruct H as (w & Hw & ->). by exists w.
Defined.
