(* ===== verification/BnetClient.v ===== *)
(** The Battle.net client (spectre-bnet, src/client.rs, auth.rs, advert.rs, and
    get_exe_info of bncsutil/exe_info.rs): a task that keeps a connection to the server,
    logs in, and lists the games of the bot.

    A handler answers with the session it leaves and the effects of its turn, in order:
    packets handed to the socket and events sent to the bot (whether a packet could be
    written is ignored by the code, too).  [None] is a panic.  The draws of random numbers,
    the files of the game and the registry of seeds come with the turn. *)
From S2P Require Import Prelude Utf8 Text BytesExt Frame Bncs Nls XSha1 CdKey Revision Pe.

(** ** Passwords (auth.rs) *)

Section auth.
Context `{C : Crypto}.

Definition hash_password_pvpgn (password : bytes) : bytes := XSha1.hash_password password.

Definition hash_password_standard_sha1 (password : bytes) : bytes := sha1_digest (map to_ascii_lower password).

Definition hash_password_double (password : bytes) (client_token server_token : Z) : bytes :=
  let h1 := hash_password_pvpgn password in
  sha1_digest (le_bytes 4 client_token ++ le_bytes 4 server_token ++ h1).
End auth.

(** ** The description of a game (advert.rs) *)

Record MapAdvert := mkAdvert {
  path : bytes; size : Z; info : Z; crc : Z; sha1 : bytes; num_players : Z; num_teams : Z;
  width : Z; height : Z; game_type : Z; flags : Z }.

(** What both stat strings have in common before they are encoded. *)
Definition raw_statstring (map : MapAdvert) (host_name : bytes) : bytes :=
  le_bytes 4 (flags map) ++ [0] ++ le_bytes 2 (width map) ++ le_bytes 2 (height map)
    ++ le_bytes 4 (crc map) ++ path map ++ [0] ++ host_name ++ [0] ++ [0].

Definition encode_bnet_statstring (map : MapAdvert) (_game_name host_name : bytes) : bytes :=
  encode_statstring (raw_statstring map host_name ++ sha1 map).

Definition encode_lan_statstring (map : MapAdvert) (_game_name host_name : bytes) : bytes :=
  encode_statstring (raw_statstring map host_name).

(** ** The executable (exe_info.rs) *)

(** A file: what its metadata say (the time of its last change and its size, in seconds
    and bytes), and what reading it gives. *)
Record ExeFile := mkExe {
  x_name : bytes; x_metadata : result IoError (Z * Z); x_content : result IoError bytes }.

Definition UNKNOWN_VERSION : Z := 18481153.

(** [extract_pe_version_from_file]: the first 64 MiB are searched. *)
Definition extract_pe_version_from_file (file : ExeFile) : option (option Z) :=
  match x_content file with
  | Ok buffer => extract_pe_version (take (Z.to_nat (Z.min (zlen buffer) (64 * 1024 * 1024))) buffer)
  | Err _ => Some None
  end.

Definition get_exe_info (file : ExeFile) (platform : Z) : option (result IoError ExeInfo) :=
  match x_metadata file with
  | Err e => Some (Err e)
  | Ok (secs, file_size) =>
    let info_str := exe_info_text (x_name file) secs file_size in
    if (platform =? 2) || (platform =? 3) then
      let version := match x_content file with
                     | Ok data => if 4 <=? zlen data
                                  then le_val (rev (drop (length data - 4) data)) else UNKNOWN_VERSION
                     | Err _ => UNKNOWN_VERSION
                     end in
      Some (Ok (mkExeInfo info_str version))
    else
      v ← extract_pe_version_from_file file;
      Some (Ok (mkExeInfo info_str (default UNKNOWN_VERSION v)))
  end.

(** ** The texts of errors *)

Definition io_text (e : IoError) : bytes :=
  match e with
  | InvalidInput => str "checkRevision requires at least one file"
  | InvalidData c => str "unknown CheckRevision operator '" ++ c ++ str "'"
  | FileError msg => msg
  end.

Definition cdkey_text (e : CdKeyError) : bytes :=
  match e with
  | InvalidLength len => str "invalid CD-key length: expected 13, 16, or 26 alphanumeric chars, got " ++ dec len
  | InvalidChar c => str "invalid character '" ++ c ++ str "' in CD-key"
  | ChecksumFailed => str "CD-key checksum verification failed"
  end.

Definition nls_text (e : NlsError) : bytes :=
  match e with InvalidServerPublicKey => str "invalid server public key (zero or out of field)" end.

(** ** Data (client.rs) *)

Record BnetConfig := mkConfig {
  cfg_server : bytes; cfg_server_alias : bytes; cfg_pvpgn_realm_name : bytes; cfg_port : Z;
  cfg_host_port : Z; cfg_username : bytes; cfg_password : bytes; cfg_cdkey_roc : bytes;
  cfg_cdkey_tft : bytes; cfg_first_channel : bytes; cfg_root_admins : list bytes;
  cfg_command_trigger : bytes; cfg_war3_version : Z; cfg_exe_version : bytes;
  cfg_exe_version_hash : bytes; cfg_password_hash_type : bytes; cfg_reconnect_delay : Z }.

Inductive BnetEvent :=
| Connected
| LoggedIn
| ChatMessage (user text : bytes)
| Whisper (user text : bytes)
| FriendsList (friends : list FriendListEntry)
| ClanList (members : list ClanMemberEntry)
| ClanInviteReceived (clan_name inviter : bytes) (creation : bool)
| ClanRankChanged (status : Z)
| ClanMemberRemoved (status : Z)
| ClanMotdSet (status : Z)
| Disconnected (msg : bytes).

Inductive BnetCmd :=
| CreateGame (name : bytes) (map : MapAdvert) (host_counter : Z) (visibility : GameVisibility)
    (host_name : option bytes) (port : option Z)
| RefreshGame (players slots : Z)
| UnhostGame
| SendChat (msg : bytes)
| GetFriendsList
| GetClanList
| ClanInvitation (name : bytes)
| ClanRemoveMember (name : bytes)
| ClanChangeRank (account : bytes) (rank : Z)
| ClanSetMotd (motd : bytes)
| ClanAcceptInvite (accept : bool)
| Shutdown.

Inductive Stage :=
| AwaitAuthInfo | AwaitAuthCheck | AwaitAccountLogon | AwaitAccountLogonProof | AwaitEnterChat | InChat.

#[export] Instance Stage_eq_dec : EqDecision Stage.
Proof. solve_decision. Defined.

Record ActiveAdvert := mkActive {
  aa_name : bytes; aa_map : MapAdvert; aa_host_counter : Z; aa_stat_string : bytes;
  aa_visibility : GameVisibility; aa_host_name : bytes; aa_port : option Z }.

Definition MAPGAMETYPE_PRIVATEGAME : Z := 2048.

Definition advert_game_type (map : MapAdvert) (visibility : GameVisibility) : bytes :=
  le_bytes 4 (match visibility with
              | Private => Z.lor (game_type map) MAPGAMETYPE_PRIVATEGAME
              | _ => game_type map
              end).

(** The variables of a session. *)
Record Session := mkSess {
  stage : Stage; active_adverts : list ActiveAdvert; cur_nls : option NlsSession;
  advert_listed : bool; friends : list FriendListEntry; clan_members : list ClanMemberEntry;
  last_clan_invite_tag : bytes; last_clan_invite_name : bytes; last_invite_creation : bool }.

Definition initial_session : Session :=
  mkSess AwaitAuthInfo [] None false [] [] [0; 0; 0; 0] [] false.

Inductive effect := Send (packet : bytes) | Emit (event : BnetEvent).

(** [if let Ok(p) = .. { framed_write.send(p) }] *)
Definition send_ok (r : result ProtoError bytes) : list effect :=
  match r with Ok p => [Send p] | Err _ => [] end.

(** ** Commands and timers *)

Definition startadvex3_of (adv : ActiveAdvert) : result ProtoError bytes :=
  startadvex3 (aa_visibility adv) (advert_game_type (aa_map adv) (aa_visibility adv)) (aa_name adv)
    (aa_host_name adv) 0 (aa_stat_string adv) (aa_host_counter adv).

(** What lists a game: the port its players connect to, and the advert. *)
Definition advertise (adv : ActiveAdvert) : list effect :=
  match aa_port adv with Some p => [Send (netgameport p)] | None => [] end ++ send_ok (startadvex3_of adv).

Definition in_chat (s : Session) : bool := bool_decide (stage s = InChat).

(** The game of a command [CreateGame]. *)
Definition advert_of (cfg : BnetConfig) (name : bytes) (map : MapAdvert) (host_counter : Z)
    (visibility : GameVisibility) (host_name : option bytes) (port : option Z) : ActiveAdvert :=
  let host_user := default (cfg_username cfg) host_name in
  mkActive name map host_counter (encode_bnet_statstring map name host_user) visibility host_user port.

(** [active_adverts.retain(..); active_adverts.push(..)] *)
Definition push_advert (adv : ActiveAdvert) (l : list ActiveAdvert) : list ActiveAdvert :=
  List.filter (λ a, negb (bytes_eqb (aa_name a) (aa_name adv))) l ++ [adv].

(** A command other than [Shutdown], which ends the task. *)
Definition on_cmd (cfg : BnetConfig) (s : Session) (c : BnetCmd) : Session * list effect :=
  match c with
  | Shutdown => (s, [])
  | SendChat msg => (s, if in_chat s then send_ok (chat_command msg) else [])
  | GetFriendsList => (s, send_ok friendslist)
  | GetClanList => (s, send_ok clanmemberlist)
  | ClanInvitation name => (s, send_ok (claninvitation name) ++ send_ok clanmemberlist)
  | ClanRemoveMember name => (s, send_ok (clanremovemember name) ++ send_ok clanmemberlist)
  | ClanChangeRank account rank => (s, send_ok (clanchangerank account rank) ++ send_ok clanmemberlist)
  | ClanSetMotd motd => (s, send_ok (clansetmotd motd))
  | ClanAcceptInvite accept =>
    (s, send_ok (if last_invite_creation s
                 then clancreationinvitation (last_clan_invite_tag s) (last_clan_invite_name s) accept
                 else claninvitationresponse (last_clan_invite_tag s) (last_clan_invite_name s) accept))
  | CreateGame name map host_counter visibility host_name port =>
    let adv := advert_of cfg name map host_counter visibility host_name port in
    (s <| active_adverts ::= push_advert adv |>, if in_chat s then advertise adv else [])
  | RefreshGame _ _ => (s, if in_chat s then concat (List.map advertise (active_adverts s)) else [])
  | UnhostGame => (s <| active_adverts := [] |>, if in_chat s then [Send stopadv] else [])
  end.

Definition on_null_timer (s : Session) : list effect := if in_chat s then [Send null] else [].
Definition on_adv_timer (s : Session) : list effect :=
  if in_chat s then concat (List.map advertise (active_adverts s)) else [].
Definition on_probe_timer (s : Session) : list effect :=
  if in_chat s then concat (List.map (λ adv, send_ok (getadvlistex (aa_name adv))) (active_adverts s)) else [].

(** ** Packets *)

(** The files of Warcraft III beside the bot: its executable, Storm.dll and game.dll. *)
Record War3 := mkWar3 { war3_exe : ExeFile; storm_dll : result IoError bytes; game_dll : result IoError bytes }.

(** What a turn draws and finds. *)
Record Turn := mkTurn {
  t_client_token : Z; t_a_bytes : bytes; t_registry : option (list Z); t_war3 : option War3 }.

(** What a packet leads to: the session goes on or it is broken off. *)
Inductive flow := Stay (s : Session) (es : list effect) | Break (es : list effect).

Definition disconnect (msg : bytes) : flow := Break [Emit (Disconnected msg)].

(** [if let Ok(p) = r { send(p); stage = st }] *)
Definition send_and_go (r : result ProtoError bytes) (st : Stage) (s : Session) : flow :=
  match r with
  | Ok p => Stay (s <| stage := st |>) [Send p]
  | Err _ => Stay s []
  end.

Section packets.
Context `{C : Crypto} `{U : Unicode}.
Variable cfg : BnetConfig.

(** The text about the executable, its version and its hash. *)
Definition exe_proof (ai : AuthInfo) (t : Turn) : option (result IoError (bytes * bytes * bytes)) :=
  match t_war3 t with
  | Some w =>
    mpq_num ← extract_mpq_number (ix86_ver_file_name ai);
    try_ (get_exe_info (war3_exe w) 1) (λ exe_info,
    try_ (check_revision_flat (t_registry t) (value_string_formula ai)
            (x_content (war3_exe w)) (storm_dll w) (game_dll w) mpq_num) (λ hash,
    Some (Ok (exe_info_string exe_info, le_bytes 4 (version exe_info), le_bytes 4 hash))))
  | None => Some (Ok (ix86_ver_file_name ai, cfg_exe_version cfg, cfg_exe_version_hash cfg))
  end.

Definition on_auth_info (s : Session) (payload : bytes) (t : Turn) : option flow :=
  match AuthInfo_decode payload with
  | Err _ => Some (Stay s [])
  | Ok ai =>
    let token := t_client_token t in
    roc ← create_key_info (cfg_cdkey_roc cfg) token (server_token ai) false;
    match roc with
    | Err e => Some (disconnect (str "invalid ROC CD-key: " ++ cdkey_text e))
    | Ok key_info_roc =>
      tft ← create_key_info (cfg_cdkey_tft cfg) token (server_token ai) true;
      match tft with
      | Err e => Some (disconnect (str "invalid TFT CD-key: " ++ cdkey_text e))
      | Ok key_info_tft =>
        proof ← exe_proof ai t;
        match proof with
        | Err e => Some (disconnect (str "CheckRevision / ExeInfo failed: " ++ io_text e))
        | Ok (exe_info, exe_version, exe_version_hash) =>
          Some (send_and_go
            (auth_check true (le_bytes 4 token) exe_version exe_version_hash key_info_roc key_info_tft
               exe_info (str "GHost")) AwaitAuthCheck s)
        end
      end
    end
  end.

Definition on_challenge (s : Session) (payload : bytes) : flow :=
  Stay s (send_ok (iccup_challenge_reply payload)).

Definition on_auth_check (s : Session) (payload : bytes) (t : Turn) : flow :=
  match AuthCheck_decode payload with
  | Err _ => Stay s []
  | Ok check =>
    if key_state check =? 0 then
      let nls := Nls.new (cfg_username cfg) (cfg_password cfg) (t_a_bytes t) in
      send_and_go (auth_accountlogon (a_pub nls) (cfg_username cfg)) AwaitAccountLogon
        (s <| cur_nls := Some nls |>)
    else disconnect (str "CD keys rejected: " ++ key_state_description check)
  end.

(** What proves that the client knows the password. *)
Definition proof_bytes (s : Session) (acc : AccountLogon) : result NlsError bytes :=
  if eq_ignore_ascii_case (cfg_password_hash_type cfg) (str "pvpgn")
  then Ok (hash_password_pvpgn (cfg_password cfg))
  else match cur_nls s with
       | Some nls => compute_m1 nls (server_public_key acc) (salt acc)
       | None => Ok []
       end.

Definition on_account_logon (s : Session) (payload : bytes) : flow :=
  match AccountLogon_decode payload with
  | Err _ => Stay s []
  | Ok acc =>
    if al_status acc =? 0 then
      match proof_bytes s acc with
      | Err e => disconnect (str "NLS compute_m1 failed: " ++ nls_text e)
      | Ok proof => send_and_go (auth_accountlogonproof proof) AwaitAccountLogonProof s
      end
    else disconnect (str "Logon failed - invalid username (status " ++ dec (al_status acc) ++ str ")")
  end.

Definition on_logon_proof (s : Session) (payload : bytes) : flow :=
  match LogonProof_decode payload with
  | Err _ => Stay s []
  | Ok proof =>
    if (lp_status proof =? 0) || (lp_status proof =? 14) then
      Stay (s <| stage := AwaitEnterChat |>)
        ([Send (netgameport (cfg_host_port cfg))] ++ send_ok enter_chat ++ send_ok friendslist
           ++ send_ok clanmemberlist)
    else disconnect (str "Logon failed - invalid password (status " ++ dec (lp_status proof) ++ str ")")
  end.

Definition on_enter_chat (s : Session) : flow :=
  Stay (s <| stage := InChat |>)
    (match cfg_first_channel cfg with [] => [] | channel => send_ok (join_channel channel) end
       ++ concat (List.map advertise (active_adverts s)) ++ [Emit LoggedIn]).

Definition on_chat_event (s : Session) (payload : bytes) : flow :=
  match ChatEvent_decode payload with
  | Ok ev =>
    Stay s (if event_id ev =? 4 then [Emit (Whisper (ce_user ev) (ce_message ev))]
            else if event_id ev =? 5 then [Emit (ChatMessage (ce_user ev) (ce_message ev))]
            else [])
  | Err _ => Stay s []
  end.

Definition on_startadvex3 (s : Session) (payload : bytes) : flow :=
  let status := if 4 <=? zlen payload then le_val (take 4 payload) else 2 ^ 32 - 1 in
  Stay (s <| advert_listed := status =? 0 |>) [].

Definition on_ping (s : Session) (payload : bytes) : flow :=
  Stay s (match decode_ping payload with Ok v => [Send (ping v)] | Err _ => [] end).

Definition on_friends (s : Session) (payload : bytes) : option flow :=
  r ← decode_friendslist payload;
  Some (match r with
        | Ok fl => Stay (s <| friends := fl |>) [Emit (FriendsList fl)]
        | Err _ => Stay s []
        end).

Definition on_clan_members (s : Session) (payload : bytes) : option flow :=
  r ← decode_clanmemberlist payload;
  Some (match r with
        | Ok cl => Stay (s <| clan_members := cl |>) [Emit (ClanList cl)]
        | Err _ => Stay s []
        end).

Definition on_clan_invite (creation : bool) (s : Session) (r : result ProtoError ClanInvite) : flow :=
  match r with
  | Ok invite =>
    Stay (s <| last_clan_invite_tag := ci_tag invite |> <| last_clan_invite_name := ci_inviter_name invite |>
            <| last_invite_creation := creation |>)
      [Emit (ClanInviteReceived (ci_clan_name invite) (ci_inviter_name invite) creation)]
  | Err _ => Stay s []
  end.

(** The status in the answers about the clan. *)
Definition clan_status (payload : bytes) : Z :=
  if 5 <=? zlen payload then default 0 (payload !! 4%nat) else default 0 (head payload).

(** The match on the stage and the id of a packet, an arm after the other. *)
Definition on_packet (s : Session) (id : Z) (payload : bytes) (t : Turn) : option flow :=
  let at_ (st : Stage) := bool_decide (stage s = st) in
  let any := at_ InChat || at_ AwaitEnterChat in
  if at_ AwaitAuthInfo && (id =? ids.SID_AUTH_INFO) then on_auth_info s payload t
  else if at_ AwaitAuthInfo && (id =? ids.SID_ICCUP_CHALLENGE) then Some (on_challenge s payload)
  else if id =? ids.SID_ICCUP_ANTIHACK then Some (on_challenge s payload)
  else if at_ AwaitAuthCheck && (id =? ids.SID_AUTH_CHECK) then Some (on_auth_check s payload t)
  else if at_ AwaitAccountLogon && (id =? ids.SID_AUTH_ACCOUNTLOGON) then Some (on_account_logon s payload)
  else if at_ AwaitAccountLogonProof
            && ((id =? ids.SID_AUTH_ACCOUNTLOGONPROOF) || (id =? ids.SID_LOGONRESPONSE2) || (id =? ids.SID_LOGONRESPONSE))
       then Some (on_logon_proof s payload)
  else if any && (id =? ids.SID_ENTERCHAT) then Some (on_enter_chat s)
  else if at_ InChat && (id =? ids.SID_CHATEVENT) then Some (on_chat_event s payload)
  else if at_ InChat && (id =? ids.SID_STARTADVEX3) then Some (on_startadvex3 s payload)
  else if at_ InChat && (id =? ids.SID_GETADVLISTEX) then Some (Stay s [])
  else if at_ InChat && (id =? ids.SID_PING) then Some (on_ping s payload)
  else if any && (id =? ids.SID_FRIENDSLIST) then on_friends s payload
  else if any && (id =? ids.SID_CLANMEMBERLIST) then on_clan_members s payload
  else if at_ InChat && (id =? ids.SID_CLANCREATIONINVITATION) then
    r ← decode_clancreationinvitation payload; Some (on_clan_invite true s r)
  else if at_ InChat && (id =? ids.SID_CLANINVITATIONRESPONSE) then
    r ← decode_claninvitationresponse payload; Some (on_clan_invite false s r)
  else if id =? ids.SID_WARDEN then Some (Stay s [])
  else if id =? ids.SID_CHECKAD then
    Some (Stay s (match decode_checkad payload with Ok _ => [Send checkad] | Err _ => [] end))
  else if at_ InChat && (id =? ids.SID_CLANCHANGERANK) then Some (Stay s [Emit (ClanRankChanged (clan_status payload))])
  else if at_ InChat && (id =? ids.SID_CLANREMOVEMEMBER) then Some (Stay s [Emit (ClanMemberRemoved (clan_status payload))])
  else if at_ InChat && (id =? ids.SID_CLANSETMOTD) then Some (Stay s [Emit (ClanMotdSet (clan_status payload))])
  else Some (Stay s []).

Definition on_frame (s : Session) (f : Frame) (t : Turn) : option flow :=
  if fr_id f =? ids.SID_PING then Some (on_ping s (fr_payload f))
  else if fr_id f =? ids.SID_ICCUP_CHALLENGE then Some (on_challenge s (fr_payload f))
  else on_packet s (fr_id f) (fr_payload f) t.

(** ** The task ([run])

    [Sleeping] is the pause after the first byte could not be written, which does not look
    at commands; [Waiting] the pause after a connection failed or ended, which does. *)
Inductive Client := Connecting | InSession (s : Session) | Sleeping | Waiting | Stopped.

Inductive ConnectResult :=
| ConnectOk
| ConnectFailed (e : bytes)
| SelectorFailed (e : bytes)
| AuthInfoFailed.

Inductive Input :=
| Connect (r : ConnectResult)
| Cmd (c : BnetCmd)
| CmdsClosed
| NullTick
| AdvTick
| ProbeTick
| Received (f : Frame) (t : Turn)
| ReceiveError (e : bytes)
| Eof
| DelayOver.

(** What the task waits for where it is. *)
Definition enabled (c : Client) (i : Input) : bool :=
  match c, i with
  | Connecting, Connect _ => true
  | InSession _, (Connect _ | DelayOver) => false
  | InSession _, _ => true
  | Sleeping, DelayOver => true
  | Waiting, (DelayOver | Cmd _ | CmdsClosed) => true
  | _, _ => false
  end.

Definition connect (r : ConnectResult) : Client * list effect :=
  match r with
  | ConnectFailed e => (Waiting, [Emit (Disconnected (str "connect failed: " ++ e))])
  | SelectorFailed e => (Sleeping, [Emit (Disconnected (str "failed to send protocol selector: " ++ e))])
  | ConnectOk | AuthInfoFailed =>
    match auth_info (cfg_war3_version cfg) true 1033 (str "USA") (str "United States") with
    | Err _ => (Stopped, [Send [1]; Emit Connected])
    | Ok p =>
      (match r with ConnectOk => InSession initial_session | _ => Connecting end,
       [Send [1]; Emit Connected; Send p])
    end
  end.

Definition session_step (s : Session) (i : Input) : option (Client * list effect) :=
  match i with
  | Cmd Shutdown | CmdsClosed => Some (Stopped, [])
  | Cmd c => let '(s, es) := on_cmd cfg s c in Some (InSession s, es)
  | NullTick => Some (InSession s, on_null_timer s)
  | AdvTick => Some (InSession s, on_adv_timer s)
  | ProbeTick => Some (InSession s, on_probe_timer s)
  | Received f t =>
    fl ← on_frame s f t;
    Some (match fl with Stay s es => (InSession s, es) | Break es => (Waiting, es) end)
  | ReceiveError e => Some (Waiting, [Emit (Disconnected (str "protocol error: " ++ e))])
  | Eof => Some (Waiting, [Emit (Disconnected (str "connection closed by server"))])
  | Connect _ | DelayOver => Some (InSession s, [])
  end.

(** A turn of the task; [None] is a panic. *)
Definition client_step (c : Client) (i : Input) : option (Client * list effect) :=
  match c with
  | Connecting => Some (match i with Connect r => connect r | _ => (Connecting, []) end)
  | InSession s => session_step s i
  | Sleeping => Some (Connecting, [])
  | Waiting => Some (match i with Cmd Shutdown | CmdsClosed => Stopped | _ => Connecting end, [])
  | Stopped => Some (Stopped, [])
  end.

(** The turns of the task on what comes, where it waits for it. *)
Fixpoint run_client (c : Client) (ins : list Input) : option (Client * list effect) :=
  match ins with
  | [] => Some (c, [])
  | i :: ins =>
    if enabled c i then
      r ← client_step c i;
      r' ← run_client r.1 ins;
      Some (r'.1, r.2 ++ r'.2)
    else None
  end.
End packets.
