(* ===== verification/BnetLogin.v ===== *)
(** What the Battle.net client promises: the order of the login as an abstract protocol
    that the client implements, the games it lists, and what it survives. *)
From S2P Require Import Prelude Utf8 Text BytesExt Frame Bncs Nls XSha1 CdKey Revision Pe BnetClient.

(** ** The protocol of a login

    A packet is known by its id, the second byte. *)

Definition packet_id (p : bytes) : option Z := p !! 1%nat.
Definition sent_id (e : effect) : option Z := match e with Send p => packet_id p | Emit _ => None end.
Definition ids_of (es : list effect) : list Z := omap sent_id es.

(** What the server has to say for the client to leave a stage. *)
Definition accepts (st : Stage) (f : Frame) : Prop :=
  match st with
  | AwaitAuthInfo => fr_id f = ids.SID_AUTH_INFO ∧ ∃ a, AuthInfo_decode (fr_payload f) = Ok a
  | AwaitAuthCheck =>
    fr_id f = ids.SID_AUTH_CHECK ∧ ∃ a, AuthCheck_decode (fr_payload f) = Ok a ∧ key_state a = 0
  | AwaitAccountLogon =>
    fr_id f = ids.SID_AUTH_ACCOUNTLOGON ∧ ∃ a, AccountLogon_decode (fr_payload f) = Ok a ∧ al_status a = 0
  | AwaitAccountLogonProof =>
    fr_id f ∈ [ids.SID_AUTH_ACCOUNTLOGONPROOF; ids.SID_LOGONRESPONSE2; ids.SID_LOGONRESPONSE] ∧
    ∃ a, LogonProof_decode (fr_payload f) = Ok a ∧ (lp_status a = 0 ∨ lp_status a = 14)
  | AwaitEnterChat => fr_id f = ids.SID_ENTERCHAT
  | InChat => False
  end.

(** The stages from one on to the chat. *)
Definition stages_from (st : Stage) : list Stage :=
  match st with
  | AwaitAuthInfo => [AwaitAuthInfo; AwaitAuthCheck; AwaitAccountLogon; AwaitAccountLogonProof; AwaitEnterChat]
  | AwaitAuthCheck => [AwaitAuthCheck; AwaitAccountLogon; AwaitAccountLogonProof; AwaitEnterChat]
  | AwaitAccountLogon => [AwaitAccountLogon; AwaitAccountLogonProof; AwaitEnterChat]
  | AwaitAccountLogonProof => [AwaitAccountLogonProof; AwaitEnterChat]
  | AwaitEnterChat => [AwaitEnterChat]
  | InChat => []
  end.

(** [st'] is the stage after [st]. *)
Definition follows (st st' : Stage) : Prop := stages_from st = st :: stages_from st'.

(** The answers with which the client leaves a stage. *)
Definition answers (st : Stage) (sent : list Z) : Prop :=
  match st with
  | AwaitAuthInfo => sent = [ids.SID_AUTH_CHECK]
  | AwaitAuthCheck => sent = [ids.SID_AUTH_ACCOUNTLOGON]
  | AwaitAccountLogon => sent = [ids.SID_AUTH_ACCOUNTLOGONPROOF]
  | AwaitAccountLogonProof => sent = [ids.SID_NETGAMEPORT; ids.SID_ENTERCHAT; ids.SID_FRIENDSLIST; ids.SID_CLANMEMBERLIST]
  | _ => Forall (λ i, i ∈ [ids.SID_JOINCHANNEL; ids.SID_NETGAMEPORT; ids.SID_STARTADVEX3]) sent
  end.

(** What may be sent at any stage, and what belongs to the chat. *)
Definition always : list Z := [
  ids.SID_PING; ids.SID_ICCUP_ANTIHACK; ids.SID_CHECKAD; ids.SID_FRIENDSLIST; ids.SID_CLANMEMBERLIST;
  ids.SID_CLANINVITATION; ids.SID_CLANREMOVEMEMBER; ids.SID_CLANCHANGERANK; ids.SID_CLANSETMOTD;
  ids.SID_CLANCREATIONINVITATION; ids.SID_CLANINVITATIONRESPONSE].
Definition chat_only : list Z := [
  ids.SID_NULL; ids.SID_CHATCOMMAND; ids.SID_JOINCHANNEL; ids.SID_STARTADVEX3; ids.SID_STOPADV;
  ids.SID_GETADVLISTEX].
Definition may_send (st : Stage) (i : Z) : Prop :=
  i ∈ always ∨ st = InChat ∧ (i ∈ chat_only ∨ i = ids.SID_NETGAMEPORT).

(** Where the client is, to the outside: off line, on line at a stage and with the names of
    the games it lists, or done. *)
Inductive Login := Offline | Online (st : Stage) (games : list bytes) | Finished.

(** A step: what was received, what was sent, and where it leads. *)
Inductive login_step : Login → list Frame → list Z → Login → Prop :=
| l_connect : login_step Offline [] [ids.SID_AUTH_INFO] (Online AwaitAuthInfo [])
| l_pause sent : Forall (λ i, i = ids.SID_AUTH_INFO) sent → login_step Offline [] sent Offline
| l_answer st st' f sent games :
    accepts st f → follows st st' → answers st sent → (ids.SID_STARTADVEX3 ∈ sent → games ≠ []) →
    login_step (Online st games) [f] sent (Online st' games)
| l_serve st fs sent games :
    Forall (may_send st) sent → (ids.SID_STARTADVEX3 ∈ sent → games ≠ []) →
    login_step (Online st games) fs sent (Online st games)
| l_host st sent games name :
    Forall (may_send st) sent →
    login_step (Online st games) [] sent (Online st (List.filter (λ g, negb (bytes_eqb g name)) games ++ [name]))
| l_unhost st sent games :
    Forall (may_send st) sent → ids.SID_STARTADVEX3 ∉ sent →
    login_step (Online st games) [] sent (Online st [])
| l_break st fs games : login_step (Online st games) fs [] Offline
| l_stop l : login_step l [] [] Finished.

Inductive login_run : Login → list Frame → list Z → Login → Prop :=
| run_done l : login_run l [] [] l
| run_more l fs sent l' fs' sent' l'' :
    login_step l fs sent l' → login_run l' fs' sent' l'' → login_run l (fs ++ fs') (sent ++ sent') l''.

(** ** What the builders send *)

Lemma ids_of_app es es' : ids_of (es ++ es') = ids_of es ++ ids_of es'.
Proof. apply omap_app. Qed.

Lemma packet_id_frame header id p bs : encode_with header (mkFrame id p) = Ok bs → packet_id bs = Some id.
Proof. intros H. apply encode_with_ok in H as [_ ->]. done. Qed.

Lemma ids_send_frame id p : ids_of (send_ok (Bncs.frame id p)) = [] ∨ ids_of (send_ok (Bncs.frame id p)) = [id].
Proof.
  unfold Bncs.frame, send_ok. destruct (encode_with _ _) eqn:E; [right|by left].
  cbn [ids_of omap list_omap sent_id]. by erewrite packet_id_frame.
Qed.

Lemma ids_expect header id p : ids_of [Send (expect_frame header (mkFrame id p))] = [] ∨
  ids_of [Send (expect_frame header (mkFrame id p))] = [id].
Proof.
  unfold expect_frame. destruct (encode_with _ _) eqn:E; [right|by left].
  cbn [ids_of omap list_omap sent_id]. by erewrite packet_id_frame.
Qed.

Lemma Forall_ids (P : Z → Prop) es id : ids_of es = [] ∨ ids_of es = [id] → P id → Forall P (ids_of es).
Proof. intros [->| ->] H; repeat constructor; done. Qed.

Lemma Forall_ids_app (P : Z → Prop) es es' :
  Forall P (ids_of es) → Forall P (ids_of es') → Forall P (ids_of (es ++ es')).
Proof. rewrite ids_of_app. by apply Forall_app_2. Qed.

Lemma in_chat_true s : in_chat s = true ↔ stage s = InChat.
Proof. unfold in_chat. apply bool_decide_eq_true. Qed.

(** ** Every turn is a step of the protocol *)

Ltac ids_tac :=
  repeat match goal with |- Forall _ (ids_of (_ ++ _)) => apply Forall_ids_app end;
  try (eapply Forall_ids; [first [apply ids_send_frame | apply ids_expect]|]).

Ltac member := first [apply (bool_decide_unpack _); vm_compute; exact I].

Lemma may_always st i : i ∈ always → may_send st i.
Proof. by left. Qed.
Lemma may_chat i : i ∈ chat_only → may_send InChat i.
Proof. right. auto. Qed.
Lemma may_port : may_send InChat ids.SID_NETGAMEPORT.
Proof. right. auto. Qed.

Lemma ids_startadvex3 adv :
  ids_of (send_ok (startadvex3_of adv)) = [] ∨ ids_of (send_ok (startadvex3_of adv)) = [ids.SID_STARTADVEX3].
Proof. unfold startadvex3_of, startadvex3. destruct (_ <=? _); [by left|apply ids_send_frame]. Qed.

Lemma ids_advertise (P : Z → Prop) adv :
  P ids.SID_NETGAMEPORT → P ids.SID_STARTADVEX3 → Forall P (ids_of (advertise adv)).
Proof.
  intros Hp Hs. unfold advertise. apply Forall_ids_app; [|by eapply Forall_ids; [apply ids_startadvex3|]].
  destruct (aa_port adv); [|constructor]. by eapply Forall_ids; [apply ids_expect|].
Qed.

Lemma ids_concat {A} (P : Z → Prop) (g : A → list effect) l :
  (∀ a, Forall P (ids_of (g a))) → Forall P (ids_of (concat (List.map g l))).
Proof.
  intros H. induction l as [|a l IH]; cbn [List.map concat]; [constructor|]. by apply Forall_ids_app.
Qed.

Definition names (s : Session) : list bytes := List.map aa_name (active_adverts s).

(** Sending what a stage may send. *)
Definition serves (s : Session) (es : list effect) : Prop :=
  Forall (may_send (stage s)) (ids_of es) ∧ (ids.SID_STARTADVEX3 ∈ ids_of es → names s ≠ []).

Lemma serves_ids s es :
  Forall (λ i, may_send (stage s) i ∧ i ≠ ids.SID_STARTADVEX3) (ids_of es) → serves s es.
Proof.
  intros H. split; [eapply Forall_impl; [exact H|]; by intros i [? _]|].
  intros Hi. rewrite Forall_forall in H. by apply H in Hi as [_ ?].
Qed.

Lemma serves_nil s : serves s [].
Proof. apply serves_ids. constructor. Qed.
Lemma serves_emit s e : serves s [Emit e].
Proof. apply serves_ids. constructor. Qed.

Lemma serves_adverts s :
  stage s = InChat → serves s (concat (List.map advertise (active_adverts s))).
Proof.
  intros H. split.
  - rewrite H. apply ids_concat. intros adv. apply ids_advertise; [apply may_port|apply may_chat; member].
  - intros Hi. unfold names. destruct (active_adverts s); [by apply elem_of_nil in Hi|done].
Qed.

Lemma serves_always s r i :
  ids_of (send_ok r) = [] ∨ ids_of (send_ok r) = [i] → bool_decide (i ∈ always) = true → serves s (send_ok r).
Proof.
  intros H Hi. apply bool_decide_eq_true in Hi. apply serves_ids. eapply Forall_ids; [exact H|].
  split; [by apply may_always|]. intros ->. revert Hi. apply (bool_decide_unpack _). vm_compute. exact I.
Qed.

Lemma serves_always_expect s header id p :
  bool_decide (id ∈ always) = true → serves s [Send (expect_frame header (mkFrame id p))].
Proof.
  intros Hi. apply bool_decide_eq_true in Hi. apply serves_ids. eapply Forall_ids; [apply ids_expect|].
  split; [by apply may_always|]. intros ->. revert Hi. apply (bool_decide_unpack _). vm_compute. exact I.
Qed.

Lemma serves_chat s es :
  stage s = InChat → Forall (λ i, i ∈ chat_only ∧ i ≠ ids.SID_STARTADVEX3) (ids_of es) → serves s es.
Proof.
  intros Hs H. apply serves_ids. eapply Forall_impl; [exact H|]. intros i [Hi Hn]. rewrite Hs.
  split; [by apply may_chat|done].
Qed.

Lemma serves_app s es es' : serves s es → serves s es' → serves s (es ++ es').
Proof.
  intros [H1 H2] [H3 H4]. split; [by apply Forall_ids_app|]. rewrite ids_of_app.
  intros [H|H]%elem_of_app; auto.
Qed.

(** What the protocol allows a packet to lead to. *)
Definition frame_ok (s : Session) (f : Frame) (fl : flow) : Prop :=
  match fl with
  | Break es => ids_of es = []
  | Stay s' es =>
    active_adverts s' = active_adverts s ∧
    ((stage s' = stage s ∧ serves s es) ∨
     (accepts (stage s) f ∧ follows (stage s) (stage s') ∧ answers (stage s) (ids_of es) ∧
      (ids.SID_STARTADVEX3 ∈ ids_of es → names s ≠ [])))
  end.

Lemma stay_ok s f s' es :
  stage s' = stage s → active_adverts s' = active_adverts s → serves s es → frame_ok s f (Stay s' es).
Proof. intros H1 H2 H3. split; [done|by left]. Qed.

Lemma go_ok s f s' id p st :
  stage s' = stage s → active_adverts s' = active_adverts s →
  accepts (stage s) f → follows (stage s) st → answers (stage s) [id] → id ≠ ids.SID_STARTADVEX3 →
  frame_ok s f (send_and_go (Bncs.frame id p) st s').
Proof.
  intros H1 H2 Ha Hf Han Hi. unfold send_and_go, Bncs.frame.
  destruct (encode_with _ _) eqn:E; [|apply stay_ok; [done|done|apply serves_nil]].
  split; [by rewrite <- H2|]. right. split; [done|].
  assert (ids_of [Send a] = [id]) as ->.
  { cbn [ids_of omap list_omap sent_id]. by rewrite (packet_id_frame _ _ _ _ E). }
  split; [done|]. split; [done|]. intros [<-|?%elem_of_nil]%elem_of_cons; done.
Qed.

Section simulation.
Context `{C : Crypto} `{U : Unicode}.
Variable cfg : BnetConfig.

Ltac at_stage H :=
  match type of H with
  | bool_decide (_ = _) && _ = true => let H1 := fresh in let H2 := fresh in
    apply andb_prop in H as [H1 H2]; apply bool_decide_eq_true in H1; apply Z.eqb_eq in H2
  end.

Lemma on_auth_info_ok s f t fl :
  stage s = AwaitAuthInfo → fr_id f = ids.SID_AUTH_INFO →
  on_auth_info cfg s (fr_payload f) t = Some fl → frame_ok s f fl.
Proof.
  intros Hs Hi H. unfold on_auth_info in H.
  destruct (AuthInfo_decode _) as [ai|] eqn:Ed; [|injection H as <-; apply stay_ok; [done|done|apply serves_nil]].
  destruct (create_key_info (cfg_cdkey_roc cfg) _ _ _) as [[roc|e]|]; cbn [mbind option_bind] in H;
    [|by injection H as <-|done].
  destruct (create_key_info (cfg_cdkey_tft cfg) _ _ _) as [[tft|e]|]; cbn [mbind option_bind] in H;
    [|by injection H as <-|done].
  destruct (exe_proof _ _ _) as [[[[? ?] ?]|e]|]; cbn [mbind option_bind] in H; [|by injection H as <-|done].
  injection H as <-. apply go_ok; rewrite ?Hs; try done. split; [done|]. by exists ai.
Qed.

Lemma on_auth_check_ok s f t :
  stage s = AwaitAuthCheck → fr_id f = ids.SID_AUTH_CHECK → frame_ok s f (on_auth_check cfg s (fr_payload f) t).
Proof.
  intros Hs Hi. unfold on_auth_check. destruct (AuthCheck_decode _) as [a|] eqn:Ed;
    [|apply stay_ok; [done|done|apply serves_nil]].
  destruct (Z.eqb_spec (key_state a) 0); [|done]. apply go_ok; rewrite ?Hs; try done. split; [done|]. by exists a.
Qed.

Lemma on_account_logon_ok s f :
  stage s = AwaitAccountLogon → fr_id f = ids.SID_AUTH_ACCOUNTLOGON →
  frame_ok s f (on_account_logon cfg s (fr_payload f)).
Proof.
  intros Hs Hi. unfold on_account_logon. destruct (AccountLogon_decode _) as [a|] eqn:Ed;
    [|apply stay_ok; [done|done|apply serves_nil]].
  destruct (Z.eqb_spec (al_status a) 0); [|done]. destruct (proof_bytes _ _ _); [|done].
  apply go_ok; rewrite ?Hs; try done. split; [done|]. by exists a.
Qed.

Lemma on_logon_proof_ok s f :
  stage s = AwaitAccountLogonProof →
  fr_id f ∈ [ids.SID_AUTH_ACCOUNTLOGONPROOF; ids.SID_LOGONRESPONSE2; ids.SID_LOGONRESPONSE] →
  frame_ok s f (on_logon_proof cfg s (fr_payload f)).
Proof.
  intros Hs Hi. unfold on_logon_proof. destruct (LogonProof_decode _) as [a|] eqn:Ed;
    [|apply stay_ok; [done|done|apply serves_nil]].
  destruct ((lp_status a =? 0) || (lp_status a =? 14)) eqn:E; [|done].
  split; [done|]. right. rewrite Hs. split; [|split; [done|]].
  { split; [done|]. exists a. split; [done|]. apply orb_prop in E as [E|E]; apply Z.eqb_eq in E; auto. }
  assert (ids_of ([Send (netgameport (cfg_host_port cfg))] ++ send_ok enter_chat ++ send_ok friendslist
    ++ send_ok clanmemberlist)
    = [ids.SID_NETGAMEPORT; ids.SID_ENTERCHAT; ids.SID_FRIENDSLIST; ids.SID_CLANMEMBERLIST]) as ->. reflexivity.
  split; [done|]. intros Hin. exfalso. revert Hin. apply (bool_decide_unpack _). vm_compute. exact I.
Qed.

Lemma on_enter_chat_ok s f :
  stage s = InChat ∨ stage s = AwaitEnterChat → fr_id f = ids.SID_ENTERCHAT → frame_ok s f (on_enter_chat cfg s).
Proof.
  intros Hs Hi. unfold on_enter_chat. set (es := _ ++ _).
  assert (∀ P : Z → Prop, P ids.SID_JOINCHANNEL → P ids.SID_NETGAMEPORT → P ids.SID_STARTADVEX3 → Forall P (ids_of es)) as Hes.
  { intros P H1 H2 H3. unfold es. apply Forall_ids_app.
    - destruct (cfg_first_channel cfg); [constructor|]. by eapply Forall_ids; [apply ids_send_frame|].
    - apply Forall_ids_app; [|constructor]. apply ids_concat. intros adv. by apply ids_advertise. }
  assert (ids.SID_STARTADVEX3 ∈ ids_of es → names s ≠ []) as Hg.
  { unfold es, names. destruct (active_adverts s); [|done]. cbn [List.map concat app]. intros H. exfalso. revert H.
    destruct (cfg_first_channel cfg); [by intros ?%elem_of_nil|]. rewrite ids_of_app.
    intros [H|?%elem_of_nil]%elem_of_app; [|done]. unfold join_channel in H.
    match type of H with context [send_ok (Bncs.frame ?i ?p)] => destruct (ids_send_frame i p) as [E|E] end;
      rewrite E in H; revert H; apply (bool_decide_unpack _); vm_compute; exact I. }
  split; [done|]. destruct Hs as [Hs|Hs]; [left|right].
  - split; [done|]. split; [|done]. rewrite Hs. apply Hes; [apply may_chat; member|apply may_port|apply may_chat; member].
  - rewrite Hs. split_and!; [done|done| |done]. apply Hes; member.
Qed.

Lemma on_frame_ok s f t fl : on_frame cfg s f t = Some fl → frame_ok s f fl.
Proof.
  assert (∀ s' es, stage s' = stage s → active_adverts s' = active_adverts s → serves s es →
    Some (Stay s' es) = Some fl → frame_ok s f fl) as Hstay by (intros s' es ??? [= <-]; by apply stay_ok).
  pose proof (serves_nil s) as Hnil. pose proof (serves_emit s) as Hemit.
  assert (∀ p, serves s (match decode_ping p with Ok v => [Send (ping v)] | Err _ => [] end)) as Hping.
  { intros p. destruct (decode_ping p); [by apply serves_always_expect|done]. }
  assert (∀ p, serves s (send_ok (iccup_challenge_reply p))) as Hch.
  { intros p. eapply serves_always; [apply ids_send_frame|done]. }
  unfold on_frame, on_ping, on_challenge.
  destruct (fr_id f =? ids.SID_PING) eqn:Ep; [by apply Hstay|].
  destruct (fr_id f =? ids.SID_ICCUP_CHALLENGE) eqn:Ec; [by apply Hstay|].
  unfold on_packet. cbv zeta.
  destruct (bool_decide (stage s = AwaitAuthInfo) && (fr_id f =? ids.SID_AUTH_INFO)) eqn:E1.
  { at_stage E1. by apply on_auth_info_ok. }
  rewrite Ec, andb_false_r.
  destruct (fr_id f =? ids.SID_ICCUP_ANTIHACK) eqn:E2; [by apply Hstay|].
  destruct (bool_decide (stage s = AwaitAuthCheck) && (fr_id f =? ids.SID_AUTH_CHECK)) eqn:E3.
  { at_stage E3. intros [= <-]. by apply on_auth_check_ok. }
  destruct (bool_decide (stage s = AwaitAccountLogon) && (fr_id f =? ids.SID_AUTH_ACCOUNTLOGON)) eqn:E4.
  { at_stage E4. intros [= <-]. by apply on_account_logon_ok. }
  destruct (bool_decide (stage s = AwaitAccountLogonProof) && _) eqn:E5.
  { apply andb_prop in E5 as [E5 E5']. apply bool_decide_eq_true in E5. intros [= <-]. apply on_logon_proof_ok; [done|].
    rewrite !elem_of_cons. apply orb_prop in E5' as [[E5'|E5']%orb_prop|E5']; apply Z.eqb_eq in E5'; auto. }
  set (any := bool_decide (stage s = InChat) || bool_decide (stage s = AwaitEnterChat)).
  destruct (any && (fr_id f =? ids.SID_ENTERCHAT)) eqn:E6.
  { apply andb_prop in E6 as [E6 E6']. apply Z.eqb_eq in E6'. intros [= <-]. apply on_enter_chat_ok; [|done].
    unfold any in E6. apply orb_prop in E6 as [E6|E6]; apply bool_decide_eq_true in E6; auto. }
  unfold on_chat_event, on_startadvex3, on_friends, on_clan_members, on_clan_invite, on_ping.
  repeat first [apply Hstay; [done|done|]; first [done | apply Hemit | apply Hping | by apply serves_always_expect]
               | match goal with |- ?o ≫= _ = _ → _ => destruct o as [[?|?]|]; cbn [mbind option_bind]; try done end
               | case_match].
Qed.
End simulation.

(** Commands and timers. *)
Lemma serves_chat_only s es i :
  stage s = InChat → ids_of es = [] ∨ ids_of es = [i] → bool_decide (i ∈ chat_only ∧ i ≠ ids.SID_STARTADVEX3) = true →
  serves s es.
Proof. intros Hs H Hi. apply bool_decide_eq_true in Hi. apply serves_chat; [done|]. by eapply Forall_ids. Qed.

Lemma on_null_timer_ok s : serves s (on_null_timer s).
Proof.
  unfold on_null_timer. destruct (in_chat s) eqn:E; [|apply serves_nil]. apply in_chat_true in E.
  eapply serves_chat_only; [done|apply ids_expect|done].
Qed.

Lemma on_adv_timer_ok s : serves s (on_adv_timer s).
Proof.
  unfold on_adv_timer. destruct (in_chat s) eqn:E; [|apply serves_nil]. apply in_chat_true in E.
  by apply serves_adverts.
Qed.

Lemma on_probe_timer_ok s : serves s (on_probe_timer s).
Proof.
  unfold on_probe_timer. destruct (in_chat s) eqn:E; [|apply serves_nil]. apply in_chat_true in E.
  apply serves_chat; [done|]. apply ids_concat. intros adv. eapply Forall_ids; [apply ids_send_frame|].
  apply (bool_decide_unpack _). vm_compute. exact I.
Qed.

Lemma filter_names name l :
  List.map aa_name (List.filter (λ a, negb (bytes_eqb (aa_name a) name)) l)
  = List.filter (λ g, negb (bytes_eqb g name)) (List.map aa_name l).
Proof.
  induction l as [|a l IH]; [done|]. cbn [List.filter List.map].
  destruct (bytes_eqb (aa_name a) name); cbn [negb List.map]; by rewrite IH.
Qed.

Definition abs (c : Client) : Login :=
  match c with
  | Connecting | Sleeping | Waiting => Offline
  | InSession s => Online (stage s) (names s)
  | Stopped => Finished
  end.

Lemma shutdown_dec (c : BnetCmd) : c = Shutdown ∨ c ≠ Shutdown.
Proof. destruct c; auto. Qed.

Lemma on_cmd_ok cfg s c :
  let r := on_cmd cfg s c in login_step (abs (InSession s)) [] (ids_of r.2) (abs (InSession r.1)).
Proof.
  assert (∀ es, serves s es → login_step (abs (InSession s)) [] (ids_of es) (abs (InSession s))) as Hserve.
  { intros es [H1 H2]. by apply l_serve. }
  destruct c as [name map hc vis host port| | |msg| | |who|who|who rank|motd|accept|]; cbn [on_cmd fst snd].
  - cbn [abs]. set (adv := advert_of cfg name map hc vis host port).
    assert (names (s <| active_adverts ::= push_advert adv |>)
            = List.filter (λ g, negb (bytes_eqb g name)) (names s) ++ [name]) as ->.
    { transitivity (List.map aa_name (push_advert adv (active_adverts s))); [reflexivity|].
      unfold names, push_advert. by rewrite List.map_app, filter_names. }
    apply (l_host (stage s)). destruct (in_chat s) eqn:E; [|constructor]. apply in_chat_true in E. rewrite E.
    apply ids_advertise; [apply may_port|apply may_chat; member].
  - apply Hserve. apply on_adv_timer_ok.
  - cbn [abs]. apply (l_unhost (stage s)); destruct (in_chat s) eqn:E; try (by intros ?%elem_of_nil); try constructor.
    + apply in_chat_true in E. rewrite E. apply may_chat. member.
    + constructor.
    + apply (bool_decide_unpack _). vm_compute. exact I.
  - apply Hserve. destruct (in_chat s) eqn:E; [|apply serves_nil]. apply in_chat_true in E.
    eapply serves_chat_only; [done|apply ids_send_frame|done].
  - apply Hserve. eapply serves_always; [apply ids_send_frame|done].
  - apply Hserve. eapply serves_always; [apply ids_send_frame|done].
  - apply Hserve. apply serves_app; (eapply serves_always; [apply ids_send_frame|done]).
  - apply Hserve. apply serves_app; (eapply serves_always; [apply ids_send_frame|done]).
  - apply Hserve. apply serves_app; (eapply serves_always; [apply ids_send_frame|done]).
  - apply Hserve. eapply serves_always; [apply ids_send_frame|done].
  - apply Hserve. destruct (last_invite_creation s); (eapply serves_always; [apply ids_send_frame|done]).
  - apply Hserve. apply serves_nil.
Qed.

(** The packets of the server that a run is given. *)
Definition frame_of (i : Input) : option Frame := match i with Received f _ => Some f | _ => None end.
Definition frames_of (ins : list Input) : list Frame := omap frame_of ins.

Section refinement.
Context `{C : Crypto} `{U : Unicode}.
Variable cfg : BnetConfig.

Lemma client_step_ok c i c' es :
  enabled c i = true → client_step cfg c i = Some (c', es) →
  login_step (abs c) (omap frame_of [i]) (ids_of es) (abs c').
Proof.
  destruct c as [|s| | |]; cbn [enabled client_step].
  - destruct i as [r| | | | | | | | |]; try done. intros _ [= H].
    assert (ids_of [Send [1]; Emit Connected] = []) as E1 by done.
    destruct r; cbn [connect] in H;
      try (destruct (auth_info _ _ _ _ _) as [p|] eqn:E;
           [|unfold auth_info in E; apply encode_with_err in E as [E _]; vm_compute in E; done]);
      injection H as <- <-; try (by apply l_pause; constructor).
    all: change ([Send [1]; Emit Connected; Send p]) with ([Send [1]; Emit Connected] ++ [Send p]);
      rewrite ids_of_app, E1; cbn [app ids_of omap list_omap sent_id]; rewrite (packet_id_frame _ _ _ _ E).
    + apply l_connect.
    + apply l_pause. by repeat constructor.
  - destruct i as [r|c| | | | |f t|e| |]; try done; intros _; cbn [session_step].
    + intros H. destruct (shutdown_dec c) as [->|Hc].
      { injection H as <- <-. apply l_stop. }
      pose proof (on_cmd_ok cfg s c) as Hok. destruct (on_cmd cfg s c) as [s' es'].
      destruct c; try done; injection H as <- <-; exact Hok.
    + intros [= <- <-]. apply l_stop.
    + intros [= <- <-]. apply l_serve; apply on_null_timer_ok.
    + intros [= <- <-]. apply l_serve; apply on_adv_timer_ok.
    + intros [= <- <-]. apply l_serve; apply on_probe_timer_ok.
    + destruct (on_frame cfg s f t) as [fl|] eqn:E; cbn [mbind option_bind]; [|done]. apply on_frame_ok in E.
      destruct fl as [s' es'|es']; intros [= <- <-]; cbn [frame_ok abs omap list_omap frame_of] in *.
      * destruct E as [En [[-> [H1 H2]]|(H1 & H2 & H3 & H4)]]; unfold names; rewrite En;
          [by apply l_serve|by apply l_answer].
      * rewrite E. apply l_break.
    + intros [= <- <-]. apply l_break.
    + intros [= <- <-]. apply l_break.
  - destruct i; try done. intros _ [= <- <-]. apply l_pause. constructor.
  - destruct i as [| c | | | | | | | |]; try done; intros _ [= <- <-]; try apply l_stop; [|by apply l_pause; constructor].
    destruct c; first [apply l_stop | by apply l_pause; constructor].
  - destruct i; done.
Qed.

Lemma client_simulates ins : ∀ c c' es,
  run_client cfg c ins = Some (c', es) → login_run (abs c) (frames_of ins) (ids_of es) (abs c').
Proof.
  induction ins as [|i ins IH]; intros c c' es; cbn [run_client]; [intros [= <- <-]; constructor|].
  destruct (enabled c i) eqn:Een; [|done]. destruct (client_step cfg c i) as [[c1 es1]|] eqn:E1; cbn [mbind option_bind]; [|done].
  destruct (run_client cfg (c1, es1).1 ins) as [[c2 es2]|] eqn:E2; cbn [mbind option_bind]; [|done]. intros [= <- <-].
  cbn [fst snd]. rewrite ids_of_app. change (frames_of (i :: ins)) with (omap frame_of ([i] ++ ins)).
  rewrite omap_app. eapply run_more; [by apply client_step_ok|by apply IH].
Qed.
End refinement.

(** ** What follows from the protocol *)

(** The stages that are left. *)
Definition stages_left (l : Login) : list Stage :=
  match l with Offline => stages_from AwaitAuthInfo | Online st _ => stages_from st | Finished => [] end.

(** [fs] holds packets that are accepted at the stages [sts], in this order. *)
Definition passes (sts : list Stage) (fs : list Frame) : Prop :=
  ∃ gs, Forall2 accepts sts gs ∧ gs `sublist_of` fs.

Lemma passes_app sts fs fs' : passes sts fs' → passes sts (fs ++ fs').
Proof. intros (gs & H1 & H2). exists gs. split; [done|]. by apply sublist_inserts_l. Qed.

Lemma passes_cons st sts f fs : accepts st f → passes sts fs → passes (st :: sts) (f :: fs).
Proof. intros H (gs & H1 & H2). exists (f :: gs). split; [by constructor|]. by apply sublist_skip. Qed.

Lemma passes_suffix sts sts' fs : passes (sts ++ sts') fs → passes sts' fs.
Proof.
  intros (gs & H1 & H2). apply Forall2_app_inv_l in H1 as (g1 & g2 & _ & H & ->). exists g2. split; [done|].
  etrans; [|exact H2]. by apply sublist_inserts_l.
Qed.

Lemma stages_suffix st : ∃ sts, stages_from AwaitAuthInfo = sts ++ stages_from st.
Proof.
  destruct st; [by exists []|by exists [AwaitAuthInfo]|by exists [AwaitAuthInfo; AwaitAuthCheck]
    |by exists [AwaitAuthInfo; AwaitAuthCheck; AwaitAccountLogon]
    |by exists [AwaitAuthInfo; AwaitAuthCheck; AwaitAccountLogon; AwaitAccountLogonProof]|].
  exists (stages_from AwaitAuthInfo). by rewrite app_nil_r.
Qed.

Lemma chat_only_not_always i : i ∈ chat_only → i ∉ always ∧ i ≠ ids.SID_NETGAMEPORT ∧ i ≠ ids.SID_AUTH_INFO.
Proof.
  intros H. assert (Forall (λ i, i ∉ always ∧ i ≠ ids.SID_NETGAMEPORT ∧ i ≠ ids.SID_AUTH_INFO) chat_only) as Hf.
  { apply (bool_decide_unpack _). vm_compute. exact I. }
  rewrite Forall_forall in Hf. by apply Hf.
Qed.

(** Sent in a step, a packet that belongs to the chat is sent from the chat, or on the way
    into it. *)
Lemma chat_step l fs sent l' i :
  login_step l fs sent l' → i ∈ chat_only → i ∈ sent → passes (stages_left l) fs.
Proof.
  intros Hs Hc Hi. destruct (chat_only_not_always i Hc) as (Ha & Hp & Hai).
  assert (∀ st, Forall (may_send st) sent → st = InChat) as Hms.
  { intros st Hf. rewrite Forall_forall in Hf. destruct (Hf i Hi) as [?|[? _]]; done. }
  assert (passes [] fs) as Hnil by (exists []; split; [constructor|apply sublist_nil_l]).
  destruct Hs as [|? Hf|st st' f sent games Hac Hfo Han _|st fs sent games Hf _|st sent games name Hf|st sent games Hf _| |];
    cbn [stages_left]; try (by apply elem_of_nil in Hi); try (by rewrite (Hms _ Hf)).
  - by apply list_elem_of_singleton in Hi.
  - rewrite Forall_forall in Hf. by apply Hf in Hi.
  - destruct st; try done; cbn [answers] in Han; subst;
      try (exfalso; revert Hi; rewrite !elem_of_cons, elem_of_nil; intros Hi;
           revert Hc; destruct_or!; subst; try done; apply (bool_decide_unpack _); vm_compute; exact I).
    cbn [stages_from]. apply passes_cons; [done|]. exists []. split; [constructor|apply sublist_nil_l].
Qed.

Lemma passes_back l fs sent l' fs' :
  login_step l fs sent l' → passes (stages_left l') fs' → l' ≠ Finished → passes (stages_left l) (fs ++ fs').
Proof.
  intros Hs H Hl. destruct Hs as [| |st st' f sent games Hac Hfo _ _| | | |st fs games|]; cbn [stages_left app] in *;
    try done; try by apply passes_app.
  - rewrite Hfo. by apply passes_cons.
  - destruct (stages_suffix st) as [sts E]. rewrite E in H. apply passes_app. by eapply passes_suffix.
Qed.

Lemma finished_silent fs sent l l' : login_run l fs sent l' → l = Finished → sent = [].
Proof.
  induction 1 as [|l fs sent l' fs' sent' l'' Hs _ IH]; [done|]. intros ->. inversion Hs; subst. by rewrite IH.
Qed.

Lemma chat_after_login l fs sent l' i :
  login_run l fs sent l' → i ∈ chat_only → i ∈ sent → passes (stages_left l) fs.
Proof.
  intros Hr Hc. induction Hr as [|l fs sent l' fs' sent' l'' Hs Hr IH]; [by intros ?%elem_of_nil|].
  intros [Hi|Hi]%elem_of_app.
  - pose proof (chat_step _ _ _ _ _ Hs Hc Hi) as (gs & H1 & H2). exists gs. split; [done|].
    by apply sublist_inserts_r.
  - eapply passes_back; [done|by apply IH|]. intros ->. rewrite (finished_silent _ _ _ _ Hr eq_refl) in Hi.
    by apply elem_of_nil in Hi.
Qed.

(** C29: The client implements the abstract protocol of a login: whatever the server, the
    bot and the timers do, what it receives and sends and the games it has are those of a
    run of the protocol. *)
Theorem login_refinement `{Crypto} `{Unicode} cfg ins c es :
  run_client cfg Connecting ins = Some (c, es) → login_run Offline (frames_of ins) (ids_of es) (abs c).
Proof. exact (client_simulates cfg ins Connecting c es). Qed.

(** Nothing that belongs to the chat (chat messages, channels, adverts, the withdrawal
    of adverts, questions for them, keep-alives) is ever sent before the server has
    accepted the version and the keys, the account and the proof of the password and has
    let the client into the chat, in this order. *)
Theorem login_before_chat `{Crypto} `{Unicode} cfg ins c es p i :
  run_client cfg Connecting ins = Some (c, es) → Send p ∈ es → packet_id p = Some i → i ∈ chat_only →
  ∃ f1 f2 f3 f4 f5, [f1; f2; f3; f4; f5] `sublist_of` frames_of ins ∧
    accepts AwaitAuthInfo f1 ∧ accepts AwaitAuthCheck f2 ∧ accepts AwaitAccountLogon f3 ∧
    accepts AwaitAccountLogonProof f4 ∧ accepts AwaitEnterChat f5.
Proof.
  intros Hr Hp Hid Hc. apply client_simulates in Hr.
  assert (i ∈ ids_of es) as Hi by (apply list_elem_of_omap; by exists (Send p)).
  destruct (chat_after_login _ _ _ _ _ Hr Hc Hi) as (gs & Hf & Hs). cbn [stages_left abs stages_from] in Hf.
  repeat match goal with H : Forall2 _ (_ :: _) _ |- _ => inversion H; clear H; subst end.
  match goal with H : Forall2 _ [] _ |- _ => inversion H; subst end. do 5 eexists. split; [exact Hs|]. done.
Qed.

(** A login as a server of PvPGN answers it, and a game. *)
Definition sample_config : BnetConfig :=
  mkConfig (str "server") (str "alias") (str "realm") 6112 6113 (str "bot") (str "secret")
    (str "ABCDEF-GHJK-MNPRTV-WXYZ-246789") (str "ABCDEF-GHJK-MNPRTV-WXYZ-246789") (str "W3") [] (str "!") 26
    [1; 0; 26; 1] [1; 2; 3; 4] (str "PvPGN") 5.
Definition sample_turn : Turn := mkTurn 17 [77; 5; 9] None None.
Definition sample_map : MapAdvert :=
  mkAdvert (str "Maps\DotA.w3x") 8000000 1 2 (replicate 20 3) 10 2 118 120 8193 4718850.
Definition sample_game : BnetCmd := CreateGame (str "-apso") sample_map 42 Public None (Some 6113).
Definition sample_frames : list Frame := [
  mkFrame ids.SID_AUTH_INFO (replicate 20 1 ++ str "ver7.mpq" ++ [0] ++ str "A=1" ++ [0]);
  mkFrame ids.SID_AUTH_CHECK [0; 0; 0; 0; 0];
  mkFrame ids.SID_AUTH_ACCOUNTLOGON (replicate 68 0);
  mkFrame ids.SID_AUTH_ACCOUNTLOGONPROOF (replicate 24 0);
  mkFrame ids.SID_ENTERCHAT []].
Definition sample_login : list Input := Connect ConnectOk :: List.map (λ f, Received f sample_turn) sample_frames.

Definition run_sample (ins : list Input) : option (Client * list effect) :=
  run_client (C := run_crypto) (U := plain_unicode) sample_config Connecting ins.
Definition effects_of (r : option (Client * list effect)) : list effect := match r with Some (_, es) => es | None => [] end.
Definition client_of (r : option (Client * list effect)) : Client := match r with Some (c, _) => c | None => Stopped end.

Lemma run_sample_is ins :
  (if run_sample ins then true else false) = true →
  run_sample ins = Some (client_of (run_sample ins), effects_of (run_sample ins)).
Proof. by destruct (run_sample ins) as [[? ?]|]. Qed.

Lemma login_refinement_witness :
  login_run Offline sample_frames (ids_of (effects_of (run_sample (sample_login ++ [Cmd sample_game; AdvTick; Eof])))) Offline.
Proof.
  refine (login_refinement (H := run_crypto) (H0 := plain_unicode) sample_config
    (sample_login ++ [Cmd sample_game; AdvTick; Eof]) Waiting _ _).
  rewrite run_sample_is by (vm_compute; reflexivity). vm_compute. reflexivity.
Defined.

Lemma login_before_chat_witness :
  ∃ f1 f2 f3 f4 f5, [f1; f2; f3; f4; f5] `sublist_of` sample_frames ∧
    accepts AwaitAuthInfo f1 ∧ accepts AwaitAuthCheck f2 ∧ accepts AwaitAccountLogon f3 ∧
    accepts AwaitAccountLogonProof f4 ∧ accepts AwaitEnterChat f5.
Proof.
  refine (login_before_chat (H := run_crypto) (H0 := plain_unicode) sample_config (sample_login ++ [Cmd sample_game])
    (client_of (run_sample (sample_login ++ [Cmd sample_game]))) (effects_of (run_sample (sample_login ++ [Cmd sample_game])))
    (default [] (last (omap (λ e, match e with Send p => Some p | Emit _ => None end)
       (effects_of (run_sample (sample_login ++ [Cmd sample_game])))))) ids.SID_STARTADVEX3 _ _ _ _).
  - apply run_sample_is. vm_compute. reflexivity.
  - vm_compute. repeat first [left | right].
  - vm_compute. reflexivity.
  - apply (bool_decide_unpack _). vm_compute. exact I.
Defined.
