(* ===== verification/BnetGames.v ===== *)
(** The games that the Battle.net client lists, what a lost connection and a false server
    do to it, and that no server makes it panic. *)
From S2P Require Import Prelude Utf8 Text BytesExt Frame Bncs Nls XSha1 CdKey Revision Pe BnetClient BnetLogin.

(** ** What is promised

    Of the commands of a session, in their order, those that create a game which no later command
    withdraws and no later command creates again under its name; and what the server is to be told
    of such a game. *)

(** The game [name] outlives a command. *)
Definition outlives (name : bytes) (c : BnetCmd) : bool :=
  match c with
  | CreateGame name' _ _ _ _ _ => negb (bool_decide (name' = name))
  | UnhostGame => false
  | _ => true
  end.

Fixpoint standing (username : bytes) (cs : list BnetCmd) : list ActiveAdvert :=
  match cs with
  | [] => []
  | CreateGame name map host_counter visibility host_name port :: later =>
    let host := default username host_name in
    (if forallb (outlives name) later
     then [mkActive name map host_counter (encode_bnet_statstring map name host) visibility host port] else [])
    ++ standing username later
  | _ :: later => standing username later
  end.

(** SID_NETGAMEPORT with the port of the game, when it has one, and SID_STARTADVEX3 with its name,
    its type, its number with the digits from the last to the first, and its stat string; the
    second is left out when the stat string has 128 bytes or more, or the whole is too long for a
    frame. *)
Definition hex_digits : bytes := str "0123456789abcdef".
Definition game_payload (a : ActiveAdvert) : bytes :=
  [match aa_visibility a with Public => 16 | Private => 17 | Close => 18 end; 0; 0; 0; 0; 0; 0; 0]
  ++ le_bytes 4 (match aa_visibility a with Private => Z.lor (game_type (aa_map a)) 2048 | _ => game_type (aa_map a) end)
  ++ [255; 3; 0; 0; 0; 0; 0; 0] ++ aa_name a ++ [0; 0; 98]
  ++ map (λ i, nth (Z.to_nat (aa_host_counter a / 16 ^ i mod 16)) hex_digits 0) [0; 1; 2; 3; 4; 5; 6; 7]
  ++ aa_stat_string a ++ [0].

Definition listed_as (a : ActiveAdvert) : list effect :=
  match aa_port a with Some p => [Send ([255; 69; 6; 0] ++ le_bytes 2 p)] | None => [] end ++
  if bool_decide (zlen (aa_stat_string a) < 128 ∧ 4 + zlen (game_payload a) <= 65535)
  then [Send ([255; 28] ++ le_bytes 2 (4 + zlen (game_payload a)) ++ game_payload a)] else [].

Lemma hex_char_nth d : 0 <= d < 16 → hex_char d = nth (Z.to_nat d) hex_digits 0.
Proof.
  intros Hd. assert (Forall (λ i, hex_char (Z.of_nat i) = nth i hex_digits 0) (seq 0 16)) as H by (repeat constructor).
  rewrite Forall_forall in H. specialize (H (Z.to_nat d)). rewrite Z2Nat.id in H by lia. apply H, elem_of_seq. lia.
Qed.

Lemma hex_rev_digits x : hex_rev 8 x = map (λ i, nth (Z.to_nat (x / 16 ^ i mod 16)) hex_digits 0) [0; 1; 2; 3; 4; 5; 6; 7].
Proof.
  cbn [hex_rev map]. rewrite !Z.div_div by done. rewrite !hex_char_nth by (by apply Z.mod_pos_bound).
  change (16 ^ 0) with 1. by rewrite Z.div_1_r.
Qed.

Lemma hex_rev_ascii n x : Forall (λ b, b < 128) (hex_rev n x).
Proof.
  revert x. induction n as [|n IH]; intros x; cbn [hex_rev]; constructor; [|apply IH].
  pose proof (Z.mod_pos_bound x 16). unfold hex_char. destruct (Z.ltb_spec (x mod 16) 10); lia.
Qed.

Lemma advertise_listed a : advertise a = listed_as a.
Proof.
  unfold advertise, listed_as. apply (f_equal2 app); [by destruct (aa_port a)|].
  assert (startadvex3_payload (aa_visibility a) (advert_game_type (aa_map a) (aa_visibility a)) (aa_name a) 0 (aa_stat_string a)
            (aa_host_counter a) = game_payload a) as Ep.
  { unfold startadvex3_payload, game_payload, put_cstring. rewrite rev_chars_ascii by (unfold hex_pad; apply Forall_rev, hex_rev_ascii).
    unfold hex_pad. rewrite rev_involutive, hex_rev_digits. by rewrite <- !app_assoc. }
  unfold startadvex3_of, startadvex3. rewrite Ep. destruct (Z.leb_spec 128 (zlen (aa_stat_string a))).
  { by rewrite bool_decide_false by lia. }
  unfold frame. case_bool_decide as E.
  - destruct (encode_with_fits BNCS_HEADER ids.SID_STARTADVEX3 (game_payload a)) as [w Hw]; [lia|]. rewrite Hw.
    by apply encode_with_ok in Hw as [_ ->].
  - destruct (encode_with BNCS_HEADER (mkFrame ids.SID_STARTADVEX3 (game_payload a))) as [w|] eqn:Hw; [|done].
    apply encode_with_ok in Hw as [Hw _]. change (zlen (game_payload a) <= 65531) in Hw. destruct E. lia.
Qed.

(** ** The games *)

(** The commands of a run, and what they make of the list of games. *)
Definition cmd_of (i : Input) : option BnetCmd := match i with Cmd c => Some c | _ => None end.

Definition host_cmd (cfg : BnetConfig) (l : list ActiveAdvert) (c : BnetCmd) : list ActiveAdvert :=
  match c with
  | CreateGame name map hc visibility host_name port => push_advert (advert_of cfg name map hc visibility host_name port) l
  | UnhostGame => []
  | _ => l
  end.

Definition hosted (cfg : BnetConfig) (l : list ActiveAdvert) (ins : list Input) : list ActiveAdvert :=
  foldl (host_cmd cfg) l (omap cmd_of ins).

(** An input that does not make a new session. *)
Definition no_connect (i : Input) : Prop := match i with Connect _ => False | _ => True end.

Lemma in_filter_names name l g :
  g ∈ List.map aa_name (List.filter (λ a, negb (bytes_eqb (aa_name a) name)) l) → g ≠ name.
Proof.
  rewrite filter_names, list_elem_of_In, filter_In. intros [_ H] ->.
  by rewrite (proj2 (bytes_eqb_eq name name) eq_refl) in H.
Qed.

Lemma NoDup_filter_bool {A} (p : A → bool) l : NoDup l → NoDup (List.filter p l).
Proof. rewrite !NoDup_ListNoDup. apply List.NoDup_filter. Qed.

Lemma host_cmd_nodup cfg l c : NoDup (List.map aa_name l) → NoDup (List.map aa_name (host_cmd cfg l c)).
Proof.
  intros H. destruct c; try done; [|constructor]. cbn [host_cmd]. unfold push_advert.
  rewrite List.map_app. apply NoDup_app. split_and!; [rewrite filter_names; by apply NoDup_filter_bool| |].
  - intros g Hg Hn. apply list_elem_of_singleton in Hn as ->. by apply in_filter_names in Hg.
  - apply NoDup_singleton.
Qed.

Section games.
Context `{C : Crypto} `{U : Unicode}.
Variable cfg : BnetConfig.

Lemma session_step_adverts s i s' es :
  session_step cfg s i = Some (InSession s', es) →
  active_adverts s' = hosted cfg (active_adverts s) [i].
Proof.
  unfold hosted. destruct i as [r|c| | | | |f t|e| |]; cbn [session_step omap list_omap cmd_of foldl]; try (by intros [= <- <-]).
  - destruct c; cbn [on_cmd host_cmd]; by intros [= <- <-].
  - destruct (on_frame cfg s f t) as [fl|] eqn:E; cbn [mbind option_bind]; [|done]. apply on_frame_ok in E.
    destruct fl; intros [= <- <-]. by destruct E as [-> _].
Qed.

(** Without a new connection, a client that is not in a session stays out of it. *)
Lemma no_connect_out c i c' es :
  client_step cfg c i = Some (c', es) → no_connect i → (∀ s, c ≠ InSession s) → ∀ s, c' ≠ InSession s.
Proof. intros H Hi Hc s ->. destruct c, i as [|[]| | | | | | | |]; try done; by eapply Hc. Qed.

Lemma out_of_session ins : ∀ c c' es,
  run_client cfg c ins = Some (c', es) → Forall no_connect ins → (∀ s, c ≠ InSession s) → ∀ s, c' ≠ InSession s.
Proof.
  induction ins as [|i ins IH]; intros c c' es; cbn [run_client]; [by intros [= <- <-]|].
  destruct (enabled c i); [|done]. destruct (client_step cfg c i) as [[c1 es1]|] eqn:E1; cbn [mbind option_bind fst]; [|done].
  destruct (run_client cfg c1 ins) as [[c2 es2]|] eqn:E2; cbn [mbind option_bind]; [|done]. intros [= <- <-].
  intros [Hi Hins]%Forall_cons Hc. eapply IH; [done|done|]. by eapply no_connect_out.
Qed.

Lemma session_adverts ins : ∀ s s' es,
  run_client cfg (InSession s) ins = Some (InSession s', es) → Forall no_connect ins →
  active_adverts s' = hosted cfg (active_adverts s) ins.
Proof.
  induction ins as [|i ins IH]; intros s s' es; cbn [run_client]; [by intros [= <- <-]|].
  destruct (enabled _ i); [|done]. destruct (client_step cfg (InSession s) i) as [[c1 es1]|] eqn:E1; cbn [mbind option_bind fst]; [|done].
  destruct (run_client cfg c1 ins) as [[c2 es2]|] eqn:E2; cbn [mbind option_bind]; [|done]. intros [= -> <-] [Hi Hins]%Forall_cons.
  destruct c1 as [|s1| | |]; try (exfalso; eapply (out_of_session ins _ _ _ E2 Hins); [|reflexivity]; done).
  rewrite (IH _ _ _ E2 Hins), (session_step_adverts _ _ _ _ E1). unfold hosted.
  rewrite (omap_app cmd_of [i] ins : omap cmd_of (i :: ins) = _). by rewrite foldl_app.
Qed.

Lemma hosted_standing ins l :
  hosted cfg l ins = List.filter (λ a, forallb (outlives (aa_name a)) (omap cmd_of ins)) l
                     ++ standing (cfg_username cfg) (omap cmd_of ins).
Proof.
  unfold hosted. generalize (omap cmd_of ins). intros cs. revert l.
  induction cs as [|c cs IH]; intros l; cbn [foldl standing forallb].
  { rewrite app_nil_r. induction l as [|a l IHl]; [done|]. cbn. by f_equal. }
  rewrite IH. destruct c as [name map hc v hn port| | | | | | | | | | |]; try done.
  - cbn [host_cmd outlives]. unfold push_advert. rewrite List.filter_app, <- app_assoc. f_equal.
    cbn [advert_of aa_name]. clear. induction l as [|a l IHl]; [done|]. cbn [List.filter].
      destruct (bytes_eqb (aa_name a) name) eqn:E; cbn [negb].
      * apply bytes_eqb_eq in E. rewrite bool_decide_true by done. cbn. exact IHl.
      * rewrite bool_decide_false by (intros ->; by rewrite (proj2 (bytes_eqb_eq _ _) eq_refl) in E).
        cbn. by destruct (forallb _ cs); rewrite IHl.
  - cbn [host_cmd outlives List.filter]. f_equal. clear. induction l as [|a l IHl]; [done|]. exact IHl.
Qed.

(** C30: The games of a session are those that were created in it and that no later command withdrew
    or created again under the same name, in the order of their creation, whatever the server
    sends; no two have the same name. When it is created in the chat a game is listed at once; in
    the chat all games are listed again, in this order, at every turn of the timer, on every
    request to refresh them and on every entry into the chat, and before that none is. To list a
    game is to send its port, if it has one, and its advert, unless the stat string has 128 bytes
    or more or the advert does not fit a frame: then the advert is not sent. *)
Theorem hosting_spec ins s es :
  run_client cfg (InSession initial_session) ins = Some (InSession s, es) → Forall no_connect ins →
  let games := standing (cfg_username cfg) (omap cmd_of ins) in
  active_adverts s = games ∧ NoDup (List.map aa_name games) ∧
  let listing := if in_chat s then concat (List.map listed_as games) else [] in
  client_step cfg (InSession s) AdvTick = Some (InSession s, listing) ∧
  (∀ p n, client_step cfg (InSession s) (Cmd (RefreshGame p n)) = Some (InSession s, listing)) ∧
  (∀ payload t, stage s = AwaitEnterChat →
     ∃ s' welcome, client_step cfg (InSession s) (Received (mkFrame ids.SID_ENTERCHAT payload) t)
                   = Some (InSession s', welcome ++ concat (List.map listed_as games) ++ [Emit LoggedIn])) ∧
  (∀ name map hc v hn port, ∃ s',
     client_step cfg (InSession s) (Cmd (CreateGame name map hc v hn port))
     = Some (InSession s', if in_chat s
                           then concat (List.map listed_as (standing (cfg_username cfg) [CreateGame name map hc v hn port]))
                           else [])).
Proof.
  intros Hr Hn games. pose proof (session_adverts _ _ _ _ Hr Hn) as Ha. cbn [initial_session active_adverts] in Ha.
  assert (hosted cfg [] ins = games) as Hg by apply hosted_standing. rewrite Hg in Ha.
  assert (∀ l, List.map advertise l = List.map listed_as l) as Hl by (intros l; apply map_ext, advertise_listed).
  split; [done|]. split; [|intros listing; split_and!].
  - rewrite <- Hg. unfold hosted. generalize (omap cmd_of ins). intros cs.
    assert (∀ l, NoDup (List.map aa_name l) → NoDup (List.map aa_name (foldl (host_cmd cfg) l cs))) as H; [|apply H; constructor].
    induction cs as [|c cs IH]; intros l Hd; [done|]. cbn [foldl]. apply IH. by apply host_cmd_nodup.
  - cbn [client_step session_step]. unfold on_adv_timer, listing. by rewrite Ha, Hl.
  - intros p n. cbn [client_step session_step on_cmd]. unfold listing. by rewrite Ha, Hl.
  - intros payload t Hs. cbn [client_step session_step].
    assert (on_frame cfg s (mkFrame ids.SID_ENTERCHAT payload) t = Some (on_enter_chat cfg s)) as ->.
    { unfold on_frame, on_packet. cbn [fr_id fr_payload]. rewrite Hs. reflexivity. }
    unfold on_enter_chat. rewrite Ha, Hl. cbn [mbind option_bind]. eexists. eexists. reflexivity.
  - intros name map hc v hn port. cbn [client_step session_step on_cmd mbind option_bind]. eexists. do 2 f_equal.
    destruct (in_chat s); [|done]. rewrite advertise_listed. symmetry. apply app_nil_r.
Qed.

(** ** A lost connection *)

Definition silent (c : Client) : Prop := ∀ s, c = InSession s → active_adverts s = [].

Lemma serves_silent s es : serves s es → active_adverts s = [] → ids.SID_STARTADVEX3 ∉ ids_of es.
Proof. intros [_ H] E Hi. apply H in Hi. unfold names in Hi. by rewrite E in Hi. Qed.

Lemma step_silent c i c' es :
  client_step cfg c i = Some (c', es) → enabled c i = true → cmd_of i = None → silent c →
  silent c' ∧ ids.SID_STARTADVEX3 ∉ ids_of es.
Proof.
  intros H He Hc Hs. pose proof (client_step_ok cfg _ _ _ _ He H) as Hl. split.
  - intros s' ->. destruct c as [|s| | |]; cbn [client_step] in H.
    + destruct i as [[]| | | | | | | | |]; try done; cbn [connect] in H; try destruct (auth_info _ _ _ _ _); simplify_eq; done.
    + apply session_step_adverts in H. rewrite H. unfold hosted. cbn [omap list_omap]. rewrite Hc. by apply Hs.
    + done.
    + destruct i as [|[]| | | | | | | |]; done.
    + done.
  - destruct c as [|s| | |]; cbn [abs] in Hl.
    + inversion Hl; subst; try (by intros ?%elem_of_nil); try (by intros ?%list_elem_of_singleton).
      intros Hi. match goal with H : Forall _ _ |- _ => rewrite Forall_forall in H; by apply H in Hi end.
    + assert (active_adverts s = []) as E by by apply Hs.
      destruct i; try done; cbn [client_step session_step] in H; try (injection H as _ <-; first [by intros ?%elem_of_nil|
        by (eapply serves_silent; [|done]; first [apply on_null_timer_ok|apply on_adv_timer_ok|apply on_probe_timer_ok])]).
      destruct (on_frame cfg s f t) as [fl|] eqn:Ef; cbn [mbind option_bind] in H; [|done]. apply on_frame_ok in Ef.
      destruct fl as [s' es'|es']; injection H as _ <-; cbn [frame_ok] in Ef; [|rewrite Ef; by intros ?%elem_of_nil].
      destruct Ef as [_ [[_ Ef]|(_ & _ & _ & Ef)]]; [by eapply serves_silent|].
      intros Hi. apply Ef in Hi. unfold names in Hi. by rewrite E in Hi.
    + injection H as _ <-. by intros ?%elem_of_nil.
    + injection H as _ <-. by intros ?%elem_of_nil.
    + injection H as _ <-. by intros ?%elem_of_nil.
Qed.

Lemma run_silent ins : ∀ c c' es,
  run_client cfg c ins = Some (c', es) → Forall (λ i, cmd_of i = None) ins → silent c →
  silent c' ∧ ids.SID_STARTADVEX3 ∉ ids_of es.
Proof.
  induction ins as [|i ins IH]; intros c c' es; cbn [run_client]; [intros [= <- <-] _ ?; split; [done|by intros ?%elem_of_nil]|].
  destruct (enabled c i) eqn:Ee; [|done]. destruct (client_step cfg c i) as [[c1 es1]|] eqn:E1; cbn [mbind option_bind fst]; [|done].
  destruct (run_client cfg c1 ins) as [[c2 es2]|] eqn:E2; cbn [mbind option_bind]; [|done]. intros [= <- <-] [Hi Hins]%Forall_cons Hc.
  destruct (step_silent _ _ _ _ E1 Ee Hi Hc) as [Hs1 Hn1]. destruct (IH _ _ _ E2 Hins Hs1) as [Hs2 Hn2].
  split; [done|]. cbn [fst snd]. rewrite ids_of_app. by intros [?|?]%elem_of_app.
Qed.
End games.

(** A game is created, another one, and the first again, the last two while logged in. *)
Definition other_game : BnetCmd := CreateGame (str "other") sample_map 43 Private (Some (str "Owner")) None.

Lemma hosting_spec_witness :
  let ins := Cmd sample_game :: tail sample_login ++ [Cmd other_game; Cmd sample_game; NullTick] in
  let games := standing (cfg_username sample_config) (omap cmd_of ins) in
  (∃ s, client_step (C := run_crypto) (U := plain_unicode) sample_config (InSession s) AdvTick
          = Some (InSession s, concat (List.map listed_as games))) ∧
  List.map aa_name games = [str "other"; str "-apso"] ∧ length (concat (List.map listed_as games)) = 3%nat.
Proof.
  intros ins games. set (r := run_client (C := run_crypto) (U := plain_unicode) sample_config (InSession initial_session) ins).
  set (s := match client_of r with InSession s => s | _ => initial_session end).
  split; [|split; vm_compute; reflexivity]. exists s.
  destruct (hosting_spec (C := run_crypto) (U := plain_unicode) sample_config ins s (effects_of r)) as (_ & _ & H & _).
  - vm_compute. reflexivity.
  - by repeat constructor.
  - exact H.
Defined.

(** A connection that is lost takes the games with it: they are not listed again when
    the client is back, and neither is one that was created while it waited to connect
    again, however long it stays and however often it reconnects; nothing is listed until
    another game is created. *)
Theorem adverts_lost `{Crypto} `{Unicode} cfg s create ins c es :
  create ≠ Shutdown →
  run_client cfg (InSession s) (Eof :: Cmd create :: Connect ConnectOk :: ins) = Some (c, es) →
  Forall (λ i, cmd_of i = None) ins →
  ids.SID_STARTADVEX3 ∉ ids_of es ∧ ∀ s', c = InSession s' → active_adverts s' = [].
Proof.
  intros Hc Hr Hins. cbn [run_client enabled client_step session_step mbind option_bind fst snd] in Hr.
  assert (match create with Shutdown => Stopped | _ => Connecting end = Connecting) as E by by destruct create.
  rewrite E in Hr. cbn [run_client enabled client_step mbind option_bind fst snd] in Hr.
  destruct (connect cfg ConnectOk) as [c1 es1] eqn:E1. cbn [fst snd] in Hr.
  destruct (run_client cfg c1 ins) as [[c2 es2]|] eqn:E2; cbn [mbind option_bind fst snd] in Hr; [|done].
  injection Hr as <- <-.
  destruct (step_silent cfg Connecting (Connect ConnectOk) c1 es1) as [Hs Hn]; [by cbn [client_step]; rewrite E1|done|done|by intros ? [=]|].
  destruct (run_silent cfg ins c1 c2 es2 E2 Hins Hs) as [Hs2 Hn2]. split; [|done].
  match goal with |- _ ∉ ids_of ?l => change (ids_of l) with (ids_of (es1 ++ es2)) end.
  rewrite ids_of_app. by intros [Hi|Hi]%elem_of_app.
Qed.

(** A game is hosted in the chat; the connection breaks, the game is created again, and the
    client is back in the chat for two turns of the timer. *)
Lemma adverts_lost_witness :
  let back := List.map (λ f, Received f sample_turn) sample_frames ++ [AdvTick; AdvTick] in
  let r := run_client (C := run_crypto) (U := plain_unicode) sample_config
             (client_of (run_sample (sample_login ++ [Cmd sample_game])))
             (Eof :: Cmd sample_game :: Connect ConnectOk :: back) in
  ids.SID_STARTADVEX3 ∉ ids_of (effects_of r).
Proof.
  intros back r. set (s := match client_of (run_sample (sample_login ++ [Cmd sample_game])) with InSession s => s | _ => initial_session end).
  refine (proj1 (adverts_lost (H := run_crypto) (H0 := plain_unicode) sample_config s sample_game back
    (client_of r) (effects_of r) _ _ _)); [done| |].
  - vm_compute. reflexivity.
  - by repeat constructor.
Defined.

(** ** A false server *)

Lemma proof_decode status p rest :
  u32 status → zlen p = 20 →
  LogonProof_decode (le_bytes 4 status ++ p ++ rest)
  = (λ m, mkLogonProof status p m) <$> run cstring_or_rest rest.
Proof.
  intros Hs H. unfold LogonProof_decode, LogonProof_reader, run.
  rewrite (exact_run_bind try_get_u32_le _ _ status) by by apply exact_u32.
  unfold remaining. unfold mbind at 1, reader_bind at 1. rewrite zlen_app, H.
  pose proof (zlen_nonneg rest). rewrite (proj2 (Z.leb_le _ _)) by lia. rewrite skip_bytes by done.
  unfold mbind, reader_bind. by destruct (cstring_or_rest rest) as [[m r]|e].
Qed.

Lemma cstring_or_rest_total rest : ∃ m, run cstring_or_rest rest = Ok m.
Proof.
  unfold run, cstring_or_rest. destruct rest as [|b rest]; [by eexists|].
  destruct (try_get_cstring (b :: rest)) as [[m r]|e]; by eexists.
Qed.

(** The client does not check that the server knows the verifier of its account: the
    server's proof may be any twenty bytes, and with status 0 the client goes on to the
    chat. *)
Theorem server_proof_ignored `{Crypto} `{Unicode} cfg s t status proof proof' rest :
  stage s = AwaitAccountLogonProof → u32 status → zlen proof = 20 → zlen proof' = 20 →
  let answer p := on_frame cfg s (mkFrame ids.SID_AUTH_ACCOUNTLOGONPROOF (le_bytes 4 status ++ p ++ rest)) t in
  answer proof = answer proof' ∧
  (status = 0 → ∃ s' es, answer proof = Some (Stay s' es) ∧ stage s' = AwaitEnterChat).
Proof.
  intros Hs Hu H1 H2. cbv zeta. unfold on_frame, on_packet. cbn [fr_id fr_payload]. rewrite Hs.
  cbn -[on_logon_proof le_bytes]. unfold on_logon_proof. rewrite !proof_decode by done.
  destruct (cstring_or_rest_total rest) as [m ->]. cbn [fmap result_fmap lp_status]. split; [done|].
  intros ->. by do 2 eexists.
Qed.

Lemma server_proof_ignored_witness :
  let s := initial_session <| stage := AwaitAccountLogonProof |> in
  ∃ s' es, on_frame (C := run_crypto) (U := plain_unicode) sample_config s
    (mkFrame ids.SID_AUTH_ACCOUNTLOGONPROOF (le_bytes 4 0 ++ replicate 20 7 ++ [])) sample_turn = Some (Stay s' es)
    ∧ stage s' = AwaitEnterChat.
Proof.
  intros s. refine (proj2 (server_proof_ignored (H := run_crypto) (H0 := plain_unicode) sample_config s sample_turn 0
    (replicate 20 7) (replicate 20 8) [] _ _ _ _) eq_refl); [done|unfold uN; lia|done|done].
Defined.

(** ** Nothing the server sends makes the client panic *)

Section survival.
Context `{CryptoLaws} `{U : Unicode}.
Variable cfg : BnetConfig.

Lemma proof_total ai t :
  (∀ w b, t_war3 t = Some w → x_content (war3_exe w) = Ok b → Forall u8 b) →
  is_Some (exe_proof cfg ai t) ∨ (is_Some (t_war3 t) ∧ extract_mpq_number (ix86_ver_file_name ai) = None).
Proof.
  intros Hb. unfold exe_proof. destruct (t_war3 t) as [w|]; [|by left].
  destruct (extract_mpq_number (ix86_ver_file_name ai)) as [n|]; [left|by right]. specialize (Hb w). cbn [mbind option_bind].
  assert (is_Some (get_exe_info (war3_exe w) 1)) as [r ->].
  { unfold get_exe_info. destruct (x_metadata (war3_exe w)) as [[secs sz]|e]; [|by eexists]. cbn [Z.eqb Pos.eqb orb].
    unfold extract_pe_version_from_file. destruct (x_content (war3_exe w)) as [b|e]; [|by eexists].
    unfold extract_pe_version. set (d := take _ b).
    destruct (fixed_file_info_ok d) as (r & -> & _); [apply Forall_take; by apply (Hb b)|].
    cbn [mbind option_bind]. destruct r as [[ffi|]|e]; cbn [mbind option_bind]; by eexists. }
  cbn [try_ mbind option_bind]. destruct r as [ei|e]; [|by eexists].
  assert (∀ files ops r, is_Some (hash_files files ops r)) as Hh.
  { intros files ops. induction files as [|[b|e] files IH]; intros r; cbn [hash_files]; [by eexists| |by eexists].
    rewrite hash_file_spec. apply IH. }
  unfold check_revision_flat, check_revision. destruct (parse_formula _) as [[r ops]|e]; [|by eexists].
  match goal with |- context [hash_files ?fs ?o ?r] => destruct (Hh fs o r) as [h ->] end.
  cbn [try_ mbind option_bind]. destruct h; by eexists.
Qed.

Lemma key_info_total key token server is_tft :
  valid_utf8 key → Forall u8 key → is_Some (create_key_info key token server is_tft).
Proof. intros H1 H2. destruct (key_info_ends key token server is_tft H1 H2) as (_ & r & -> & _). by eexists. Qed.

(** C31: Whatever the server sends, at whatever stage, and whatever else happens, given that its
    CD-keys are texts the client does not panic, with one exception: at the stage where it waits
    for SID_AUTH_INFO, with the files of the game there, it gets one whose archive has a name in
    which the number (the digits up to the end or to a dot) follows a byte outside ASCII. (There
    it does panic, by [mpq_number_panics].) *)
Theorem client_no_panic c i :
  valid_utf8 (cfg_cdkey_roc cfg) → Forall u8 (cfg_cdkey_roc cfg) →
  valid_utf8 (cfg_cdkey_tft cfg) → Forall u8 (cfg_cdkey_tft cfg) →
  (∀ f t w b, i = Received f t → t_war3 t = Some w → x_content (war3_exe w) = Ok b → Forall u8 b) →
  is_Some (client_step cfg c i) ∨
  ∃ s f t ai, c = InSession s ∧ i = Received f t ∧ fr_id f = ids.SID_AUTH_INFO ∧ stage s = AwaitAuthInfo ∧
    is_Some (t_war3 t) ∧ AuthInfo_decode (fr_payload f) = Ok ai ∧ number_after_high (ix86_ver_file_name ai).
Proof.
  intros Hv1 Hu1 Hv2 Hu2 Hf. destruct c as [|s| | |]; try (left; by eexists). cbn [client_step].
  destruct i as [r|c| | | | |f t|e| |]; try (left; by eexists).
  { left. cbn [session_step]. destruct c; try (by eexists); cbn [on_cmd]; by eexists. }
  cbn [session_step].
  enough (is_Some (on_frame cfg s f t) ∨ (fr_id f = ids.SID_AUTH_INFO ∧ stage s = AwaitAuthInfo ∧
    ∃ ai, is_Some (t_war3 t) ∧ AuthInfo_decode (fr_payload f) = Ok ai ∧ number_after_high (ix86_ver_file_name ai)))
    as [[fl ->]|(H1 & H2 & ai & H3 & H4 & H5)]; [left; cbn [mbind option_bind]; by eexists|right; by exists s, f, t, ai|].
  unfold on_frame. destruct (fr_id f =? ids.SID_PING); [left; by eexists|].
  destruct (fr_id f =? ids.SID_ICCUP_CHALLENGE); [left; by eexists|]. unfold on_packet. cbv zeta.
  destruct (lists_total (fr_payload f)) as ([fl Hfl] & [cl Hcl] & [ci Hci]).
  destruct (_ && _) eqn:Ea.
  { apply andb_true_iff in Ea as [Es%bool_decide_eq_true Ei%Z.eqb_eq].
    unfold on_auth_info. destruct (AuthInfo_decode (fr_payload f)) as [ai|e] eqn:Ed; [|left; by eexists].
    destruct (key_info_total (cfg_cdkey_roc cfg) (t_client_token t) (server_token ai) false Hv1 Hu1) as [k1 ->].
    destruct (key_info_total (cfg_cdkey_tft cfg) (t_client_token t) (server_token ai) true Hv2 Hu2) as [k2 ->].
    cbn [mbind option_bind]. destruct k1 as [k1|]; [|left; by eexists]. destruct k2 as [k2|]; [|left; by eexists].
    destruct (proof_total ai t) as [[r ->]|[Hw Hn%mpq_number_none]]; [intros w b; by apply (Hf f t w b)| |].
    - left. cbn [mbind option_bind]. destruct r as [[[? ?] ?]|]; by eexists.
    - right. split; [done|]. split; [done|]. by exists ai. }
  left. unfold on_friends, on_clan_members, decode_claninvitationresponse. rewrite Hfl, Hcl, Hci. cbn [mbind option_bind].
  repeat case_match; by eexists.
Qed.
End survival.

(** A server that names an archive as the real ones do, and one that does not. *)
Definition auth_info_frame (name : bytes) : Frame :=
  mkFrame ids.SID_AUTH_INFO (replicate 20 1 ++ name ++ [0] ++ str "A=1" ++ [0]).
Definition files_turn : Turn := mkTurn 17 [77; 5; 9] None (Some (mkWar3 (mkExe (str "war3.exe") (Ok (0, 0)) (Ok [])) (Ok []) (Ok []))).

Lemma client_no_panic_witness :
  let step name := client_step (C := run_crypto) (U := plain_unicode) sample_config (InSession initial_session)
                     (Received (auth_info_frame name) files_turn) in
  is_Some (step (str "ver7.mpq")) ∧ step (str "ver" ++ replacement ++ str "7.mpq") = None.
Proof.
  intros step. split; [|vm_compute; reflexivity].
  pose proof (client_no_panic (H0 := run_crypto_laws) (U := plain_unicode) sample_config (InSession initial_session)
    (Received (auth_info_frame (str "ver7.mpq")) files_turn)) as Hall.
  destruct Hall as [Hs|(s & f & t & ai & _ & E & _ & _ & _ & Ed & Hn)].
  1, 3: apply valid_utf8_ascii; apply (bool_decide_unpack _); vm_compute; exact I.
  1, 2: apply (bool_decide_unpack _); vm_compute; exact I.
  - intros f t w b [= <- <-] [= <-] [= <-]. constructor.
  - exact Hs.
  - exfalso. injection E as <- <-. vm_compute in Ed. injection Ed as <-. destruct Hn as (pre & b & ds & rest & En & Hb & _).
    cbn [ix86_ver_file_name] in En.
    assert (Forall (λ b, b < 128) (pre ++ b :: ds ++ rest)) as Hall by (rewrite <- En; repeat constructor).
    apply Forall_app in Hall as [_ [Hlt _]%Forall_cons]. cbv beta in Hlt. lia.
Defined.
