(* ===== verification/Map.v ===== *)
(** Loading a map (spectre-engine, src/map.rs): the hashes that clients compare, the
    description war3map.w3i, and the lobby that follows from it and from the configuration.

    The archive is read by [MpqArchive]; the CRC of the crc32fast package is the parameter
    [crc32], the SHA-1 of sha1 the one of [Nls.Crypto].  [None] is a panic.  The results of
    the many reads that the code ignores ([let _ = ..]) matter all the same: a read that
    fails leaves the cursor at the end and the old value in the buffer. *)
From S2P Require Import Prelude Utf8 W3gs Slots MpqTables MpqArchive Nls XSha1 Game.

(** ** Constants *)

Definition MAPSPEED_SLOW : Z := 1.
Definition MAPSPEED_NORMAL : Z := 2.
Definition MAPSPEED_FAST : Z := 3.
Definition MAPVIS_HIDETERRAIN : Z := 1.
Definition MAPVIS_EXPLORED : Z := 2.
Definition MAPVIS_ALWAYSVISIBLE : Z := 3.
Definition MAPVIS_DEFAULT : Z := 4.
Definition MAPFLAG_TEAMSTOGETHER : Z := 1.
Definition MAPFLAG_FIXEDTEAMS : Z := 2.
Definition MAPFLAG_UNITSHARE : Z := 4.
Definition MAPFLAG_RANDOMHERO : Z := 8.
Definition MAPFLAG_RANDOMRACES : Z := 16.
Definition MAPOPT_MELEE : Z := 4.
Definition MAPFILTER_MAKER_USER : Z := 1.
Definition MAPFILTER_MAKER_BLIZZARD : Z := 2.
Definition MAPFILTER_TYPE_MELEE : Z := 1.
Definition MAPFILTER_TYPE_SCENARIO : Z := 2.
Definition MAPFILTER_SIZE_SMALL : Z := 1.
Definition MAPFILTER_SIZE_MEDIUM : Z := 2.
Definition MAPFILTER_SIZE_LARGE : Z := 4.
Definition MAPFILTER_OBS_FULL : Z := 1.
Definition MAPFILTER_OBS_ONDEATH : Z := 2.
Definition MAPFILTER_OBS_NONE : Z := 4.
Definition MAPGAMETYPE_MAKERUSER : Z := 8192.
Definition MAPGAMETYPE_MAKERBLIZZARD : Z := 16384.
Definition MAPGAMETYPE_TYPEMELEE : Z := 32768.
Definition MAPGAMETYPE_TYPESCENARIO : Z := 65536.
Definition MAPGAMETYPE_SIZESMALL : Z := 131072.
Definition MAPGAMETYPE_SIZEMEDIUM : Z := 262144.
Definition MAPGAMETYPE_SIZELARGE : Z := 524288.
Definition MAPGAMETYPE_OBSFULL : Z := 1048576.
Definition MAPGAMETYPE_OBSONDEATH : Z := 2097152.
Definition MAPGAMETYPE_OBSNONE : Z := 4194304.

(** [x & bit != 0] *)
Definition has (x bit : Z) : bool := negb (Z.land x bit =? 0).

(** [if x & bit != 0 { acc |= value }] *)
Definition or_if (x bit value acc : Z) : Z := if has x bit then Z.lor acc value else acc.

Definition calculate_game_flags (speed visibility observers map_flags : Z) : Z :=
  let flags := if speed =? MAPSPEED_SLOW then 0 else if speed =? MAPSPEED_NORMAL then 1 else 2 in
  let flags := Z.lor flags (if visibility =? MAPVIS_HIDETERRAIN then 256
                            else if visibility =? MAPVIS_EXPLORED then 512
                            else if visibility =? MAPVIS_ALWAYSVISIBLE then 1024 else 2048) in
  let flags := Z.lor flags (if observers =? MAPOBS_ONDEFEAT then 8192
                            else if observers =? MAPOBS_ALLOWED then 12288
                            else if observers =? MAPOBS_REFEREES then 1073741824 else 0) in
  let flags := or_if map_flags MAPFLAG_TEAMSTOGETHER 16384 flags in
  let flags := or_if map_flags MAPFLAG_FIXEDTEAMS 393216 flags in
  let flags := or_if map_flags MAPFLAG_UNITSHARE 16777216 flags in
  let flags := or_if map_flags MAPFLAG_RANDOMHERO 33554432 flags in
  or_if map_flags MAPFLAG_RANDOMRACES 67108864 flags.

Definition calculate_game_type (filter_maker filter_type filter_size filter_obs : Z) : Z :=
  let t := or_if filter_maker MAPFILTER_MAKER_USER MAPGAMETYPE_MAKERUSER 0 in
  let t := or_if filter_maker MAPFILTER_MAKER_BLIZZARD MAPGAMETYPE_MAKERBLIZZARD t in
  let t := or_if filter_type MAPFILTER_TYPE_MELEE MAPGAMETYPE_TYPEMELEE t in
  let t := or_if filter_type MAPFILTER_TYPE_SCENARIO MAPGAMETYPE_TYPESCENARIO t in
  let t := or_if filter_size MAPFILTER_SIZE_SMALL MAPGAMETYPE_SIZESMALL t in
  let t := or_if filter_size MAPFILTER_SIZE_MEDIUM MAPGAMETYPE_SIZEMEDIUM t in
  let t := or_if filter_size MAPFILTER_SIZE_LARGE MAPGAMETYPE_SIZELARGE t in
  let t := or_if filter_obs MAPFILTER_OBS_FULL MAPGAMETYPE_OBSFULL t in
  let t := or_if filter_obs MAPFILTER_OBS_ONDEATH MAPGAMETYPE_OBSONDEATH t in
  or_if filter_obs MAPFILTER_OBS_NONE MAPGAMETYPE_OBSNONE t.

(** ** Slots *)

Definition apply_melee_slot_init (slots : SlotTable) : SlotTable :=
  imap (λ i s, s <| team := wrap 8 (Z.of_nat i) |> <| race := 32 |>) slots.

Definition apply_random_races_force (slots : SlotTable) (map_flags : Z) : SlotTable :=
  if has map_flags MAPFLAG_RANDOMRACES then map (λ s, s <| race := 32 |>) slots else slots.

Definition observer_slot : SlotInfo := mkSlot 0 255 Open 0 24 24 32 1 100.

Definition add_observer_slots (slots : SlotTable) (observers editor_version : Z)
    (custom_max_slots : option Z) : SlotTable :=
  if (observers =? MAPOBS_ALLOWED) || (observers =? MAPOBS_REFEREES) then
    let default_max := if editor_version <? 6060 then 12 else 24 in
    let max_slots := default default_max custom_max_slots in
    slots ++ replicate (Z.to_nat max_slots - length slots) observer_slot
  else slots.

(** ** Hashes *)

Fixpoint xor_rotate (val : Z) (data : bytes) : Z :=
  match data with
  | a :: b :: c :: d :: data => xor_rotate (rotate_left (Z.lxor val (le_val [a; b; c; d])) 3) data
  | _ => foldl (λ val x, rotate_left (Z.lxor val x) 3) val data
  end.
Definition xor_rotate_left (data : bytes) : Z := xor_rotate 0 data.

(** What has been hashed: the value of the CRC and the bytes given to SHA-1. *)
Record Hashes := mkHashes { h_val : Z; h_sha : bytes }.

Section hashes.
Context `{Codecs}.

(** [open_file] and [read], when at least a byte was read. *)
Definition read_nonempty (fname : bytes) (a : Archive) : option (option bytes) :=
  match open_file fname a with
  | Err _ => Some None
  | Ok file =>
    r ← file_read file (mf_size file) a;
    Some (match r with Ok (b :: out) => Some (b :: out) | _ => None end)
  end.

(** A script of the game, which the map may have its own version of. *)
Definition hash_base (fname : bytes) (ours : option bytes) (a : Archive) (h : Hashes) : option Hashes :=
  r ← read_nonempty fname a;
  Some (match (match r with Some out => Some out | None => ours end) with
        | Some buf => mkHashes (Z.lxor (h_val h) (xor_rotate_left buf)) (h_sha h ++ buf)
        | None => h
        end).

Definition hash_magic (h : Hashes) : Hashes :=
  mkHashes (rotate_left (Z.lxor (rotate_left (h_val h) 3) 66131870) 3) (h_sha h ++ [158; 55; 241; 3]).

Definition file_list : list bytes := [
  str "war3map.j"; str "scripts\war3map.j"; str "war3map.w3e"; str "war3map.wpm"; str "war3map.doo";
  str "war3map.w3u"; str "war3map.w3b"; str "war3map.w3d"; str "war3map.w3a"; str "war3map.w3q"].

Definition is_script (fname : bytes) : bool :=
  bytes_eqb fname (str "war3map.j") || bytes_eqb fname (str "scripts\war3map.j").

Fixpoint hash_files (fnames : list bytes) (found_script : bool) (a : Archive) (h : Hashes) : option Hashes :=
  match fnames with
  | [] => Some h
  | fname :: fnames =>
    if found_script && bytes_eqb fname (str "scripts\war3map.j") then hash_files fnames found_script a h
    else match open_file fname a with
         | Err _ => hash_files fnames found_script a h
         | Ok file =>
           if (0 <? mf_size file) && negb (mf_size file =? 4294967295) then
             r ← file_read file (mf_size file) a;
             match r with
             | Ok (b :: out) =>
               hash_files fnames (is_script fname || found_script) a
                 (mkHashes (rotate_left (Z.lxor (h_val h) (xor_rotate_left (b :: out))) 3) (h_sha h ++ b :: out))
             | _ => hash_files fnames found_script a h
             end
           else hash_files fnames found_script a h
         end
  end.

Definition hash_map (common_j blizzard_j : option bytes) (a : Archive) : option Hashes :=
  h ← hash_base (str "Scripts\common.j") common_j a (mkHashes 0 []);
  h ← hash_base (str "Scripts\blizzard.j") blizzard_j a h;
  hash_files file_list false a (hash_magic h).
End hashes.

(** ** war3map.w3i *)

(** The cursor: what is left, and the value in [u32_buf]. *)
Record Cur := mkCur { c_rest : bytes; c_buf : Z }.

(** [cursor.read_exact(&mut u32_buf)] *)
Definition read_u32 (c : Cur) : bool * Cur :=
  if 4 <=? zlen (c_rest c) then (true, mkCur (drop 4 (c_rest c)) (le_val (take 4 (c_rest c))))
  else (false, mkCur [] (c_buf c)).

(** [let _ = cursor.read_exact(..); u32::from_le_bytes(u32_buf)] *)
Definition next_u32 (c : Cur) : Z * Cur := let c := (read_u32 c).2 in (c_buf c, c).

(** [cursor.seek(SeekFrom::Current(n))] *)
Definition skip (n : nat) (c : Cur) : Cur := mkCur (drop n (c_rest c)) (c_buf c).

(** The loop of [read_cstring] after [buf]: the text and what follows, or the rest where it
    gives up, at the end or after 1024 bytes. *)
Fixpoint cstring_from (room : nat) (buf s : bytes) {struct s} : result () bytes * bytes :=
  match s with
  | [] => (Err tt, [])
  | b :: s =>
    if b =? 0 then (Ok (from_utf8_lossy buf), s)
    else match room with
         | O => (Err tt, s)
         | S room => cstring_from room (buf ++ [b]) s
         end
  end.
Definition read_cstring (c : Cur) : result () bytes * Cur :=
  let '(r, rest) := cstring_from 1024 [] (c_rest c) in (r, mkCur rest (c_buf c)).
Definition skip_cstring (c : Cur) : Cur := (read_cstring c).2.
Definition skip_cstrings (n : nat) (c : Cur) : Cur := Nat.iter n skip_cstring c.

(** What is taken from the description. *)
Record W3i := mkW3i {
  i_width : Z; i_height : Z; i_num_teams : Z; i_editor_version : Z; i_slots : SlotTable; i_options : Z }.

Definition w3i_default : W3i := mkW3i 128 128 2 0 [] 0.

Definition w3i_status (status : Z) : Z * Z :=
  if status =? 2 then (Occupied, 1) else if negb (status =? 1) then (Closed, 0) else (Open, 0).

Definition w3i_race (r : Z) : Z :=
  if r =? 1 then 1 else if r =? 2 then 2 else if r =? 3 then 8 else if r =? 4 then 4 else 32.

Definition w3i_slot (i col status r : Z) : SlotInfo :=
  let '(st, comp) := w3i_status status in
  mkSlot 0 255 st comp (wrap 8 (i / 6)) (wrap 8 col) (w3i_race r) 1 100.

(** [for i in 0..raw_players], the last [n] turns. *)
Fixpoint players_loop (n : nat) (i : Z) (c : Cur) (slots : SlotTable) : Cur * SlotTable :=
  match n with
  | O => (c, slots)
  | S n =>
    let '(col, c) := next_u32 c in
    let '(status, c) := next_u32 c in
    let '(r, c) := next_u32 c in
    let c := skip 16 (skip_cstring (skip 4 c)) in
    let slot := w3i_slot i col status r in
    players_loop n (i + 1) c (if slot_status slot =? Closed then slots else slots ++ [slot])
  end.

(** [for j in 0..24]: the slots of the colours in the mask join the team. *)
Definition join_team (mask t : Z) (slots : SlotTable) : SlotTable :=
  foldl (λ slots j, if has mask (2 ^ j) then map (λ s, if colour s =? j then s <| team := t |> else s) slots else slots)
    slots (below 24).

(** [for team in 0..raw_teams], the last [n] turns. *)
Fixpoint forces_loop (n : nat) (t : Z) (c : Cur) (slots : SlotTable) : SlotTable :=
  match n with
  | O => slots
  | S n =>
    let '(_, c) := next_u32 c in
    let '(player_mask, c) := next_u32 c in
    forces_loop n (t + 1) (skip_cstring c) (join_team player_mask (wrap 8 t) slots)
  end.

(** The part up to the number of players. *)
Definition w3i_texts (file_format : Z) (c : Cur) : Cur :=
  let tft := file_format =? 25 in
  let c := skip 4 (skip 1 c) in
  let c := if tft then skip_cstring c else c in
  let c := skip 4 (skip_cstrings 3 c) in
  let c := if tft then skip_cstring c else c in
  let c := skip_cstrings 3 c in
  if tft then skip 5 (skip_cstring (skip 24 c)) else c.

(** The players and the forces. *)
Definition w3i_players (m : W3i) (c : Cur) : W3i :=
  let '(ok, c) := read_u32 c in
  if ok then
    let '(c, slots) := players_loop (Z.to_nat (Z.min (c_buf c) 24)) 0 c [] in
    let '(ok, c) := read_u32 c in
    if ok then
      let raw_teams := Z.min (c_buf c) 12 in
      m <| i_num_teams := wrap 8 raw_teams |> <| i_slots := forces_loop (Z.to_nat raw_teams) 0 c slots |>
    else m <| i_slots := slots |>
  else m.

Definition parse_w3i (buf : bytes) (m : W3i) : W3i :=
  let '(ok, c) := read_u32 (mkCur buf 0) in
  let file_format := c_buf c in
  if ok && ((file_format =? 18) || (file_format =? 25)) then
    let '(ok, c) := read_u32 (skip 4 c) in
    let m := if ok then m <| i_editor_version := c_buf c |> else m in
    let c := skip 48 (skip_cstrings 4 c) in
    let '(raw_w, c) := next_u32 c in
    let '(raw_h, c) := next_u32 c in
    let '(raw_flags, c) := next_u32 c in
    let m := m <| i_width := wrap 16 raw_w |> <| i_height := wrap 16 raw_h |>
               <| i_options := Z.land raw_flags (Z.lor (Z.lor MAPOPT_MELEE MAPOPT_FIXEDPLAYERSETTINGS) MAPOPT_CUSTOMFORCES) |> in
    w3i_players m (w3i_texts file_format c)
  else m.

(** ** Loading *)

Record MapOverride := mkOverride {
  o_speed : option Z; o_visibility : option Z; o_observers : option Z; o_flags : option Z;
  o_game_type : option Z; o_filter_maker : option Z; o_filter_type : option Z; o_filter_size : option Z;
  o_filter_obs : option Z; o_options : option Z; o_width : option Z; o_height : option Z;
  o_num_players : option Z; o_num_teams : option Z; o_custom_slots : option SlotTable;
  o_map_type : option bytes; o_matchmaking_category : option bytes; o_default_hcl : option bytes;
  o_default_player_score : option Z; o_loading_in_game : option bool; o_local_path : option bytes;
  o_max_slots : option Z }.

Record ParsedMap := mkParsed { pm_info : MapInfo; pm_slots : SlotTable; pm_layout_style : Z }.

(** The errors of the file system, of the archive and of [check_valid], all of them
    [io::Error] to the code. *)
Inductive LoadError := ReadFailed (msg : bytes) | OpenFailed (e : MpqError) | Invalid (e : MapError).

(** [slots], when the description has none. *)
Definition default_slots : SlotTable :=
  map (λ i, mkSlot 0 255 Open 0 (wrap 8 (i / 6)) (wrap 8 i) 32 1 100) (below 12).

(** From the description to the lobby as it is without an override. *)
Definition lobby_of (m : W3i) : W3i :=
  let m := match i_slots m with [] => m <| i_slots := default_slots |> <| i_num_teams := 2 |> | _ => m end in
  let m := if has (i_options m) MAPOPT_MELEE then m <| i_slots ::= apply_melee_slot_init |> else m in
  if has (i_options m) MAPOPT_FIXEDPLAYERSETTINGS then m
  else m <| i_slots ::= map (λ s, s <| race ::= λ r, Z.lor r 64 |>) |>.

(** [ovr.and_then(|o| o.f).unwrap_or(d)] *)
Definition ov {A} (ovr : option MapOverride) (f : MapOverride → option A) (d : A) : A := default d (ovr ≫= f).

Definition override (ovr : option MapOverride) (m : W3i) : W3i :=
  mkW3i (ov ovr o_width (i_width m)) (ov ovr o_height (i_height m)) (ov ovr o_num_teams (i_num_teams m))
    (i_editor_version m) (ov ovr o_custom_slots (i_slots m)) (ov ovr o_options (i_options m)).

Definition layout_style_of (options : Z) : Z :=
  if negb (has options MAPOPT_CUSTOMFORCES) then 0
  else if negb (has options MAPOPT_FIXEDPLAYERSETTINGS) then 1 else 3.

(** The slots with those of the observers. *)
Definition all_slots (ovr : option MapOverride) (m : W3i) : SlotTable :=
  let observers := ov ovr o_observers MAPOBS_NONE in
  let map_flags := ov ovr o_flags (Z.lor MAPFLAG_TEAMSTOGETHER MAPFLAG_FIXEDTEAMS) in
  add_observer_slots (apply_random_races_force (i_slots m) map_flags) observers (i_editor_version m)
    (ovr ≫= o_max_slots).

Definition game_type_of (ovr : option MapOverride) (options : Z) : Z :=
  let default_filter_type := if has options MAPOPT_MELEE then MAPFILTER_TYPE_MELEE else MAPFILTER_TYPE_SCENARIO in
  ov ovr o_game_type
    (calculate_game_type (ov ovr o_filter_maker MAPFILTER_MAKER_USER) (ov ovr o_filter_type default_filter_type)
       (ov ovr o_filter_size MAPFILTER_SIZE_LARGE) (ov ovr o_filter_obs MAPFILTER_OBS_NONE)).

Section load.
Context `{Codecs} `{Crypto}.
Variable crc32 : bytes → Z.

(** [if let Ok(w3i_file) = map_archive.open_file("war3map.w3i") { .. }]: the buffer has
    the size that the archive gives, and what was not read of it is zero. *)
Definition read_w3i (a : Archive) : option W3i :=
  match open_file (str "war3map.w3i") a with
  | Err _ => Some w3i_default
  | Ok file =>
    if 0 <? mf_size file then
      r ← file_read file (mf_size file) a;
      Some (match r with
            | Ok out => parse_w3i (out ++ replicate (Z.to_nat (mf_size file) - length out) 0) w3i_default
            | Err _ => w3i_default
            end)
    else Some w3i_default
  end.

(** The part after the archive was read. *)
Definition map_info (file_name : option bytes) (map_data : bytes) (h : Hashes) (ovr : option MapOverride)
    (m : W3i) : MapInfo :=
  let slots := all_slots ovr m in
  let flags := calculate_game_flags (ov ovr o_speed MAPSPEED_FAST) (ov ovr o_visibility MAPVIS_DEFAULT)
                 (ov ovr o_observers MAPOBS_NONE) (ov ovr o_flags (Z.lor MAPFLAG_TEAMSTOGETHER MAPFLAG_FIXEDTEAMS)) in
  mkMapInfo (str "Maps\Download\" ++ default (str "map.w3x") file_name)
    (wrap 32 (zlen map_data)) (crc32 map_data) (h_val h) (sha1_digest (h_sha h))
    (ov ovr o_num_players (wrap 8 (zlen slots))) (i_num_teams m) (i_width m) (i_height m)
    (game_type_of ovr (i_options m)) flags (Some map_data)
    (layout_style_of (i_options m)) (i_options m) (ov ovr o_map_type (str "dota"))
    (ov ovr o_matchmaking_category []) (ov ovr o_default_hcl []) (ov ovr o_default_player_score 1000)
    (ov ovr o_loading_in_game false) (ov ovr o_local_path []) (ov ovr o_max_slots 24).

(** [file] is what reading the path gives, [file_name] its last part, if that is a text. *)
Definition load_mpq_with_override (file : result bytes bytes) (file_name : option bytes)
    (common_j blizzard_j : option bytes) (ovr : option MapOverride) : option (result LoadError ParsedMap) :=
  match file with
  | Err msg => Some (Err (ReadFailed msg))
  | Ok map_data =>
    r ← from_bytes map_data;
    match r with
    | Err e => Some (Err (OpenFailed e))
    | Ok map_archive =>
      h ← hash_map common_j blizzard_j map_archive;
      m ← read_w3i map_archive;
      let m := override ovr (lobby_of m) in
      let info := map_info file_name map_data h ovr m in
      Some (match check_valid info with
            | Err e => Err (Invalid e)
            | Ok _ => Ok (mkParsed info (all_slots ovr m) (m_layout_style info))
            end)
    end
  end.

Definition load_mpq (file : result bytes bytes) (file_name : option bytes) (common_j blizzard_j : option bytes)
  : option (result LoadError ParsedMap) :=
  load_mpq_with_override file file_name common_j blizzard_j None.
End load.
