(* ===== verification/MapLoad.v ===== *)
(** What loading a map promises: it ends whatever the file is, its results keep to their
    machine types and to what a lobby needs, and the description is read as it was
    written. *)
From S2P Require Import Prelude Utf8 W3gs Slots MpqTables MpqArchive Nls XSha1 Game Map.

(** ** Types *)

(** Every byte of a slot on the wire. *)
Definition slot_typed (s : SlotInfo) : Prop :=
  Forall u8 [pid s; download_status s; slot_status s; computer s; team s; colour s; race s; computer_type s; handicap s].

(** A slot that nobody sits in: open, or with a computer. *)
Definition unseated (s : SlotInfo) : Prop :=
  pid s = 0 ∧ (slot_status s = Open ∧ computer s = 0 ∨ slot_status s = Occupied ∧ computer s = 1).

Definition fresh (s : SlotInfo) : Prop := slot_typed s ∧ unseated s.

Lemma slot_typed_intro s :
  u8 (pid s) → u8 (download_status s) → u8 (slot_status s) → u8 (computer s) → u8 (team s) → u8 (colour s) →
  u8 (race s) → u8 (computer_type s) → u8 (handicap s) → slot_typed s.
Proof. intros. repeat (apply Forall_cons_2; [done|]). constructor. Qed.

Lemma slot_typed_elim s : slot_typed s → u8 (team s) ∧ u8 (colour s) ∧ u8 (race s).
Proof. unfold slot_typed. rewrite !Forall_cons. naive_solver. Qed.

(** The lobby changes the team and the race of a slot, and nothing else. *)
Lemma fresh_update s t r : fresh s → u8 t → u8 r → fresh (s <| team := t |> <| race := r |>).
Proof. unfold fresh, slot_typed. rewrite !Forall_cons. naive_solver. Qed.

Lemma typed_race s r : slot_typed s → u8 r → slot_typed (s <| race := r |>).
Proof. unfold slot_typed. rewrite !Forall_cons. naive_solver. Qed.

Lemma w3i_race_u8 r : u8 (w3i_race r).
Proof. unfold w3i_race. repeat case_match; by apply u8_const. Qed.

Lemma w3i_slot_fresh i col status r :
  slot_status (w3i_slot i col status r) ≠ Closed → fresh (w3i_slot i col status r).
Proof.
  unfold w3i_slot, w3i_status. intros H. split.
  - destruct (status =? 2); [|destruct (negb (status =? 1))]; apply slot_typed_intro; cbn;
      try (by apply u8_const); try (by apply wrap_range); apply w3i_race_u8.
  - destruct (status =? 2); [|destruct (negb (status =? 1)); [done|]]; split; auto.
Qed.

Lemma players_loop_fresh n : ∀ i c slots,
  Forall fresh slots →
  Forall fresh (players_loop n i c slots).2 ∧ (length (players_loop n i c slots).2 <= length slots + n)%nat.
Proof.
  induction n as [|n IH]; intros i c slots H; cbn [players_loop]; [split; [done|cbn; lia]|].
  destruct (next_u32 c) as [col c1]. destruct (next_u32 c1) as [st c2]. destruct (next_u32 c2) as [r c3].
  destruct (Z.eqb_spec (slot_status (w3i_slot i col st r)) Closed) as [E|E].
  - destruct (IH (i + 1) (skip 16 (skip_cstring (skip 4 c3))) slots H). split; [done|lia].
  - destruct (IH (i + 1) (skip 16 (skip_cstring (skip 4 c3))) (slots ++ [w3i_slot i col st r])) as [H1 H2].
    { apply Forall_app_2; [done|]. apply Forall_singleton. by apply w3i_slot_fresh. }
    rewrite length_app in H2. cbn [length] in H2. split; [done|lia].
Qed.

Lemma join_team_fresh mask t slots :
  u8 t → Forall fresh slots → Forall fresh (join_team mask t slots) ∧ length (join_team mask t slots) = length slots.
Proof.
  intros Ht. unfold join_team. generalize (below 24). intros js. revert slots.
  induction js as [|j js IH]; intros slots H; [done|]. cbn [foldl].
  destruct (has mask (2 ^ j)); [|by apply IH].
  destruct (IH (map (λ s, if colour s =? j then s <| team := t |> else s) slots)) as [H1 H2];
    [|split; [done|by rewrite H2, length_map]].
  apply Forall_map. eapply Forall_impl; [exact H|]. intros s Hs. cbv beta. destruct (colour s =? j); [|done].
  pose proof (slot_typed_elim s (proj1 Hs)) as (_ & _ & Hr). by apply (fresh_update s t (race s)).
Qed.

Lemma forces_loop_fresh n : ∀ t c slots,
  Forall fresh slots → Forall fresh (forces_loop n t c slots) ∧ length (forces_loop n t c slots) = length slots.
Proof.
  induction n as [|n IH]; intros t c slots H; [done|]. cbn [forces_loop].
  destruct (next_u32 c) as [? c1]. destruct (next_u32 c1) as [mask c2].
  destruct (join_team_fresh mask (wrap 8 t) slots) as [H1 H2]; [by apply wrap_range|done|].
  destruct (IH (t + 1) (skip_cstring c2) _ H1) as [H3 H4]. split; [done|]. by rewrite H4.
Qed.

(** What the parser's results are. *)
Record w3i_ok (m : W3i) : Prop := {
  ok_width : u16 (i_width m);
  ok_height : u16 (i_height m);
  ok_teams : u8 (i_num_teams m);
  ok_options : u32 (i_options m);
  ok_slots : Forall fresh (i_slots m);
  ok_count : (length (i_slots m) <= 24)%nat }.

Lemma w3i_default_ok : w3i_ok w3i_default.
Proof. split; try (unfold uN; cbn; lia). constructor. Qed.

Lemma w3i_players_ok m c : w3i_ok m → i_slots m = [] → w3i_ok (w3i_players m c).
Proof.
  intros [H1 H2 H3 H4 H5 H6] Hs. unfold w3i_players. destruct (read_u32 c) as [[] c1]; [|done].
  destruct (players_loop_fresh (Z.to_nat (Z.min (c_buf c1) 24)) 0 c1 []) as [Hf Hl]; [constructor|].
  destruct (players_loop _ _ _ _) as [c2 slots]. cbn [snd length] in *.
  assert (length slots <= 24)%nat as Hn by lia.
  destruct (read_u32 c2) as [[] c3]; [|by split].
  destruct (forces_loop_fresh (Z.to_nat (Z.min (c_buf c3) 12)) 0 c3 slots Hf) as [Hf' Hl'].
  split; try done; [by apply wrap_range|]. by rewrite <- Hl' in Hn.
Qed.

Lemma option_bits_u32 x : u32 (Z.land x (Z.lor (Z.lor MAPOPT_MELEE MAPOPT_FIXEDPLAYERSETTINGS) MAPOPT_CUSTOMFORCES)).
Proof. rewrite Z.land_comm. apply uN_land; [done|]. by vm_compute. Qed.

Lemma parse_w3i_ok buf : w3i_ok (parse_w3i buf w3i_default).
Proof.
  unfold parse_w3i. destruct (read_u32 _) as [ok c]. destruct (ok && _); [|apply w3i_default_ok].
  destruct (read_u32 (skip 4 c)) as [ok' c1].
  destruct (next_u32 (skip 48 (skip_cstrings 4 c1))) as [w c2]. destruct (next_u32 c2) as [h c3].
  destruct (next_u32 c3) as [fl c4].
  apply w3i_players_ok; [|by destruct ok'].
  assert (∀ m, w3i_ok m → w3i_ok (m <| i_width := wrap 16 w |> <| i_height := wrap 16 h |>
    <| i_options := Z.land fl (Z.lor (Z.lor MAPOPT_MELEE MAPOPT_FIXEDPLAYERSETTINGS) MAPOPT_CUSTOMFORCES) |>)) as Hm.
  { intros m []. split; try done; try (by apply wrap_range). apply option_bits_u32. }
  apply Hm. destruct ok'; [|apply w3i_default_ok]. split; try (unfold uN; cbn; lia). constructor.
Qed.

Lemma default_slots_fresh : Forall fresh default_slots.
Proof.
  apply Forall_map, Forall_forall. intros i Hi. split; [|split; auto].
  apply slot_typed_intro; cbn; try (by apply u8_const); by apply wrap_range.
Qed.

Lemma race_or_u8 r : u8 r → u8 (Z.lor r 64).
Proof. intros H. apply uN_lor; [done|done|by apply u8_const]. Qed.

Lemma map_fresh f slots :
  (∀ s, fresh s → fresh (f s)) → Forall fresh slots → Forall fresh (map f slots).
Proof. intros Hf H. apply Forall_map. eapply Forall_impl; [exact H|]. exact Hf. Qed.

Lemma fresh_team s : fresh s → u8 (team s).
Proof. intros [H _]. by apply slot_typed_elim. Qed.
Lemma fresh_race s : fresh s → u8 (race s).
Proof. intros [H _]. by apply slot_typed_elim. Qed.

Lemma set_race_fresh r s : u8 r → fresh s → fresh (s <| race := r |>).
Proof. intros Hr Hs. by apply (fresh_update s (team s) r Hs (fresh_team s Hs)). Qed.

Lemma melee_fresh slots : Forall fresh slots → Forall fresh (apply_melee_slot_init slots).
Proof.
  intros H. unfold apply_melee_slot_init. rewrite Forall_lookup in *. intros i s.
  rewrite list_lookup_imap, fmap_Some. intros (s0 & Hs & ->).
  apply fresh_update; [by eapply H|by apply wrap_range|by apply u8_const].
Qed.

(** The lobby of a map has at least one slot. *)
Lemma lobby_of_ok m : w3i_ok m → w3i_ok (lobby_of m) ∧ i_slots (lobby_of m) ≠ [].
Proof.
  intros Hm. unfold lobby_of.
  set (m1 := match i_slots m with [] => _ | _ => m end).
  assert (w3i_ok m1 ∧ i_slots m1 ≠ []) as [H1 Hn1].
  { unfold m1. destruct (i_slots m) eqn:E; [|by rewrite E]. destruct Hm. split; [|done].
    split; try done; [apply default_slots_fresh|]. apply (bool_decide_unpack _). vm_compute. exact I. }
  set (m2 := if has (i_options m1) MAPOPT_MELEE then _ else m1).
  assert (w3i_ok m2 ∧ i_slots m2 ≠ []) as [H2 Hn2].
  { unfold m2. destruct (has _ _); [|done]. destruct H1. split.
    - split; try done; [by apply melee_fresh|]. cbn. unfold apply_melee_slot_init. by rewrite length_imap.
    - change (apply_melee_slot_init (i_slots m1) ≠ []). by destruct (i_slots m1). }
  clearbody m2. destruct (has (i_options m2) MAPOPT_FIXEDPLAYERSETTINGS); [by split|]. destruct H2. split.
  - split; try done; [|cbn; by rewrite length_map]. apply map_fresh; [|done]. intros s Hs.
    apply set_race_fresh; [|done]. by apply race_or_u8, fresh_race.
  - change (map (λ s, s <| race ::= λ r, Z.lor r 64 |>) (i_slots m2) ≠ []). by destruct (i_slots m2).
Qed.

(** An override as the configuration types it. *)
Record ov_typed (o : MapOverride) : Prop := {
  ot_width : ∀ x, o_width o = Some x → u16 x;
  ot_height : ∀ x, o_height o = Some x → u16 x;
  ot_players : ∀ x, o_num_players o = Some x → u8 x;
  ot_teams : ∀ x, o_num_teams o = Some x → u8 x;
  ot_options : ∀ x, o_options o = Some x → u32 x;
  ot_game_type : ∀ x, o_game_type o = Some x → u32 x;
  ot_slots : ∀ l, o_custom_slots o = Some l → Forall slot_typed l }.

Lemma ov_typed_spec {A} (P : A → Prop) ovr (f : MapOverride → option A) d :
  (∀ o x, ovr = Some o → f o = Some x → P x) → P d → P (ov ovr f d).
Proof.
  intros H Hd. unfold ov. destruct ovr as [o|]; [|done]. cbn [mbind option_bind].
  destruct (f o) as [x|] eqn:E; [|done]. by eapply H.
Qed.

Lemma or_if_u32 x bit v acc : u32 v → u32 acc → u32 (or_if x bit v acc).
Proof. intros H1 H2. unfold or_if. case_match; [by apply uN_lor|done]. Qed.

Lemma game_flags_u32 s v o f : u32 (calculate_game_flags s v o f).
Proof.
  unfold calculate_game_flags. cbv zeta. repeat (apply or_if_u32; [by apply u32_const|]).
  repeat (apply uN_lor; [done| |]); repeat case_match; by apply u32_const.
Qed.

Lemma game_type_u32 a b c d : u32 (calculate_game_type a b c d).
Proof. unfold calculate_game_type. cbv zeta. repeat (apply or_if_u32; [by apply u32_const|]). by apply u32_const. Qed.

Lemma rotate_left_u32 x n : 0 <= n <= 32 → u32 x → u32 (rotate_left x n).
Proof. intros Hn H. unfold rotate_left. apply uN_lor; [done|by apply wrap_range|]. apply uN_shiftr; [lia|done]. Qed.

Lemma foldl_u32 data : ∀ val, u32 val → Forall u8 data → u32 (foldl (λ v x, rotate_left (Z.lxor v x) 3) val data).
Proof.
  induction data as [|x data IH]; intros val Hv; [done|]. intros [Hx Hd]%Forall_cons. cbn [foldl]. apply IH; [|done].
  apply rotate_left_u32; [lia|]. apply uN_lxor; [done|done|]. unfold uN in *. lia.
Qed.

Lemma xor_rotate_u32 data : ∀ val, u32 val → Forall u8 data → u32 (xor_rotate val data).
Proof.
  induction data as [data IH] using list_length_ind. intros val Hv Hd.
  destruct data as [|a [|b [|c [|d data]]]]; try by apply foldl_u32. cbn [xor_rotate].
  change (a :: b :: c :: d :: data) with ([a; b; c; d] ++ data) in Hd. apply Forall_app in Hd as [H1 H2].
  apply IH; [cbn; lia| |done]. apply rotate_left_u32; [lia|]. apply uN_lxor; [done|done|].
  pose proof (le_val_bound [a; b; c; d] H1) as Hb. exact Hb.
Qed.

(** ** The archive *)

Section loading.
Context `{CL : CodecLaws} `{CR : CryptoLaws}.
Variable crc32 : bytes → Z.

Definition hashes_ok (h : Hashes) : Prop := u32 (h_val h) ∧ Forall u8 (h_sha h).

Lemma file_read_ok a fname f :
  archive_wf a → open_file fname a = Ok f →
  0 <= mf_size f ∧ ∃ r, file_read f (mf_size f) a = Some r ∧ ∀ out, r = Ok out → zlen out <= mf_size f ∧ Forall u8 out.
Proof.
  intros Ha Ho. assert (0 <= mf_size f) as Hs.
  { unfold open_file, block_at in Ho. destruct (find_block_index _ _) as [i|]; [|done].
    destruct (a_block_table a !! Z.to_nat i) as [b|] eqn:E; [|done]. injection Ho as <-.
    pose proof (aw_blocks _ Ha) as Hb. rewrite Forall_lookup in Hb. destruct (Hb _ _ E) as (_ & _ & Hs & _).
    unfold uN in Hs. cbn. lia. }
  split; [done|]. by apply read_by_block_answers.
Qed.

Lemma hash_step_ok h buf :
  hashes_ok h → Forall u8 buf →
  hashes_ok (mkHashes (rotate_left (Z.lxor (h_val h) (xor_rotate_left buf)) 3) (h_sha h ++ buf)) ∧
  hashes_ok (mkHashes (Z.lxor (h_val h) (xor_rotate_left buf)) (h_sha h ++ buf)).
Proof.
  intros [Hv Hs] Hb. assert (u32 (Z.lxor (h_val h) (xor_rotate_left buf))) as Hx.
  { apply uN_lxor; [done|done|]. by apply xor_rotate_u32; [apply u32_const|]. }
  split; (split; [|by apply Forall_app_2]); [by apply rotate_left_u32|done].
Qed.

Lemma hash_base_ok fname ours a h :
  archive_wf a → (∀ b, ours = Some b → Forall u8 b) → hashes_ok h →
  ∃ h', hash_base fname ours a h = Some h' ∧ hashes_ok h'.
Proof.
  intros Ha Hb Hh. unfold hash_base, read_nonempty.
  assert (∀ buf, (∀ b, buf = Some b → Forall u8 b) →
    hashes_ok (match buf with Some buf => mkHashes (Z.lxor (h_val h) (xor_rotate_left buf)) (h_sha h ++ buf) | None => h end)) as Hk.
  { intros [buf|] Hbuf; [|done]. apply (hash_step_ok h buf Hh). by apply Hbuf. }
  destruct (open_file fname a) as [f|e] eqn:E; cbn [mbind option_bind].
  - destruct (file_read_ok a fname f Ha E) as (_ & r & -> & Hr). cbn [mbind option_bind]. eexists. split; [done|].
    apply (Hk (match _ with Some out => Some out | None => ours end)). intros b.
    destruct r as [[|x out]|e]; try apply Hb. intros [= <-]. by apply Hr.
  - eexists. split; [done|]. by apply (Hk ours).
Qed.

Lemma hash_files_ok a fnames : ∀ found h,
  archive_wf a → hashes_ok h → ∃ h', hash_files fnames found a h = Some h' ∧ hashes_ok h'.
Proof.
  induction fnames as [|fname fnames IH]; intros found h Ha Hh; cbn [hash_files]; [by exists h|].
  destruct (found && _); [by apply IH|]. destruct (open_file fname a) as [f|e] eqn:E; [|by apply IH].
  destruct (_ && _); [|by apply IH]. destruct (file_read_ok a fname f Ha E) as (_ & r & -> & Hr).
  cbn [mbind option_bind]. destruct r as [[|x out]|e]; [by apply IH| |by apply IH].
  apply IH; [done|]. apply (hash_step_ok h (x :: out) Hh). by apply Hr.
Qed.

Lemma hash_map_ok common_j blizzard_j a :
  archive_wf a → (∀ b, common_j = Some b → Forall u8 b) → (∀ b, blizzard_j = Some b → Forall u8 b) →
  ∃ h, hash_map common_j blizzard_j a = Some h ∧ hashes_ok h.
Proof.
  intros Ha Hc Hb. unfold hash_map.
  destruct (hash_base_ok (str "Scripts\common.j") common_j a (mkHashes 0 []) Ha Hc) as (h1 & -> & H1).
  { split; [by apply u32_const|constructor]. }
  cbn [mbind option_bind]. destruct (hash_base_ok (str "Scripts\blizzard.j") blizzard_j a h1 Ha Hb H1) as (h2 & -> & [Hv Hs]).
  cbn [mbind option_bind]. apply hash_files_ok; [done|]. split.
  - cbn. apply rotate_left_u32; [lia|]. apply uN_lxor; [done| |by apply u32_const]. by apply rotate_left_u32.
  - cbn. apply Forall_app_2; [done|]. apply (bool_decide_unpack _). vm_compute. exact I.
Qed.

Lemma read_w3i_ok a : archive_wf a → ∃ m, read_w3i a = Some m ∧ w3i_ok m.
Proof.
  intros Ha. unfold read_w3i. destruct (open_file _ a) as [f|e] eqn:E; [|eexists; split; [done|apply w3i_default_ok]].
  destruct (0 <? mf_size f); [|eexists; split; [done|apply w3i_default_ok]].
  destruct (file_read_ok a _ f Ha E) as (_ & r & -> & _). cbn [mbind option_bind]. eexists. split; [done|].
  destruct r; [apply parse_w3i_ok|apply w3i_default_ok].
Qed.

(** No custom slots were configured. *)
Definition own_slots (ovr : option MapOverride) : Prop := ov ovr (λ o, Some (o_custom_slots o)) None = None.

Lemma all_slots_typed ovr m :
  Forall slot_typed (i_slots m) → Forall slot_typed (all_slots ovr m).
Proof.
  intros Hsl. unfold all_slots, add_observer_slots. set (l := apply_random_races_force _ _).
  assert (Forall slot_typed l) as Hl.
  { unfold l, apply_random_races_force. destruct (has _ _); [|done]. apply Forall_map. eapply Forall_impl; [exact Hsl|].
    intros s Hs. apply typed_race; [done|by apply u8_const]. }
  destruct (_ || _); [|done]. apply Forall_app_2; [done|]. apply Forall_replicate.
  apply slot_typed_intro; by apply u8_const.
Qed.

Lemma all_slots_fresh ovr m :
  Forall fresh (i_slots m) → i_slots m ≠ [] → (length (i_slots m) <= 24)%nat →
  all_slots ovr m ≠ [] ∧ Forall unseated (all_slots ovr m) ∧
  (length (all_slots ovr m) <= Z.to_nat (Z.max 24 (ov ovr o_max_slots 24))%Z)%nat.
Proof.
  intros Hsl Hn Hl. unfold all_slots, add_observer_slots. set (l := apply_random_races_force _ _).
  assert (Forall unseated l ∧ length l = length (i_slots m)) as [Hu Hlen].
  { unfold l, apply_random_races_force. destruct (has _ _); rewrite ?length_map; split; try done.
    - apply Forall_map. eapply Forall_impl; [exact Hsl|]. by intros s [_ Hs].
    - eapply Forall_impl; [exact Hsl|]. by intros s [_ Hs]. }
  assert (l ≠ []) as Hln by (intros E; rewrite E in Hlen; by destruct (i_slots m)).
  assert (default (if i_editor_version m <? 6060 then 12 else 24) (ovr ≫= o_max_slots) <= Z.max 24 (ov ovr o_max_slots 24)) as Hmax.
  { unfold ov. destruct (ovr ≫= o_max_slots); cbn [default from_option]; unfold id; [lia|]. case_match; lia. }
  destruct (_ || _).
  - split_and!; [by destruct l| |].
    + apply Forall_app_2; [done|]. apply Forall_replicate. split; auto.
    + rewrite length_app, length_replicate. lia.
  - split_and!; [done|done|lia].
Qed.

Lemma layout_style_range options : layout_style_of options ∈ [0; 1; 3].
Proof. unfold layout_style_of. repeat case_match; apply (bool_decide_unpack _); vm_compute; exact I. Qed.

(** Loading answers: with an error, or with what the parsers made of the file. *)
Lemma load_answers file file_name common_j blizzard_j ovr :
  (∀ b, file = Ok b → Forall u8 b) → (∀ b, common_j = Some b → Forall u8 b) → (∀ b, blizzard_j = Some b → Forall u8 b) →
  (∃ e, load_mpq_with_override crc32 file file_name common_j blizzard_j ovr = Some (Err e)) ∨
  ∃ data h m0, file = Ok data ∧ hashes_ok h ∧ w3i_ok m0 ∧
    let m := override ovr (lobby_of m0) in
    let info := map_info crc32 file_name data h ovr m in
    check_valid info = Ok () ∧
    load_mpq_with_override crc32 file file_name common_j blizzard_j ovr =
      Some (Ok (mkParsed info (all_slots ovr m) (m_layout_style info))).
Proof.
  intros Hf Hc Hb. unfold load_mpq_with_override. destruct file as [data|msg]; [|left; by eexists].
  destruct (from_bytes_answers data (Hf _ eq_refl)) as (r & -> & Hr). cbn [mbind option_bind].
  destruct r as [a|e]; [|left; by eexists]. specialize (Hr a eq_refl).
  destruct (hash_map_ok common_j blizzard_j a Hr Hc Hb) as (h & -> & Hh). cbn [mbind option_bind].
  destruct (read_w3i_ok a Hr) as (m0 & -> & Hm0). cbn [mbind option_bind].
  destruct (check_valid _) as [[]|e] eqn:Ev; [|left; by eexists].
  right. exists data, h, m0. split_and!; try done.
Qed.

(** C38: Loading a map ends, with a map or an error, whatever the file is and whatever is in
    its archive, and never panics.  A map that is loaded is valid and holds the file; every
    number of it is in its machine type; and unless slots were configured, its lobby has at
    least one slot, no more than the game allows, and nobody but computers sits in them. *)
Theorem loaded_map_typed file file_name common_j blizzard_j ovr :
  (∀ b, file = Ok b → Forall u8 b) → (∀ b, common_j = Some b → Forall u8 b) →
  (∀ b, blizzard_j = Some b → Forall u8 b) → (∀ o, ovr = Some o → ov_typed o) → (∀ b, u32 (crc32 b)) →
  ∃ r, load_mpq_with_override crc32 file file_name common_j blizzard_j ovr = Some r ∧
  ∀ pm, r = Ok pm →
    let i := pm_info pm in
    file = Ok (default [] (m_data i)) ∧ check_valid i = Ok () ∧
    (u32 (m_size i) ∧ u32 (m_info i) ∧ u32 (m_crc i) ∧ length (m_sha1 i) = 20%nat ∧ Forall u8 (m_sha1 i)) ∧
    (u8 (m_num_players i) ∧ u8 (m_num_teams i) ∧ u16 (m_width i) ∧ u16 (m_height i)) ∧
    (u32 (m_game_type i) ∧ u32 (m_flags i) ∧ u32 (m_options i) ∧ m_layout_style i ∈ [0; 1; 3]) ∧
    Forall slot_typed (pm_slots pm) ∧
    (own_slots ovr → pm_slots pm ≠ [] ∧ Forall unseated (pm_slots pm) ∧
       (length (pm_slots pm) <= Z.to_nat (Z.max 24 (m_max_slots i))%Z)%nat).
Proof.
  intros Hf Hc Hb Ho Hcrc.
  destruct (load_answers file file_name common_j blizzard_j ovr Hf Hc Hb) as [[e ->]|(data & h & m0 & -> & [Hv Hs] & Hm0 & Hl)];
    [by eexists|].
  set (m := override ovr (lobby_of m0)) in *. destruct Hl as [Ev ->]. destruct (lobby_of_ok m0 Hm0) as [Hm Hne].
  eexists. split; [done|].
  intros pm [= <-]. destruct Hm as [H1 H2 H3 H4 H5 H6].
  cbv zeta. cbn [pm_info pm_slots]. split_and?; cbn [pm_info pm_slots].
  - done.
  - exact Ev.
  - by apply wrap_range.
  - apply Hcrc.
  - done.
  - apply sha1_bytes.
  - apply sha1_bytes.
  - apply (ov_typed_spec (uN 8)); [intros o x E; by apply ot_players, Ho|by apply wrap_range].
  - apply (ov_typed_spec (uN 8)); [intros o x E; by apply ot_teams, Ho|done].
  - apply (ov_typed_spec (uN 16)); [intros o x E; by apply ot_width, Ho|done].
  - apply (ov_typed_spec (uN 16)); [intros o x E; by apply ot_height, Ho|done].
  - apply (ov_typed_spec (uN 32)); [intros o x E; by apply ot_game_type, Ho|apply game_type_u32].
  - apply game_flags_u32.
  - apply (ov_typed_spec (uN 32)); [intros o x E; by apply ot_options, Ho|done].
  - apply layout_style_range.
  - apply all_slots_typed. unfold m, override. cbn [i_slots]. apply ov_typed_spec; [intros o x E; by apply ot_slots, Ho|].
    eapply Forall_impl; [exact H5|]. by intros s [? _].
  - intros Hov. assert (i_slots m = i_slots (lobby_of m0)) as E.
    { unfold m, override, own_slots, ov in *. cbn [i_slots]. destruct ovr as [o|]; [|done].
      cbn [mbind option_bind default from_option] in *. unfold id in Hov. by rewrite Hov. }
    apply (all_slots_fresh ovr m); by rewrite E.
Qed.
End loading.

(** ** The description is read as it was written

    The format of war3map.w3i, as the code takes it: version 18 of the original game or 25
    of the expansion, with texts that end with a NUL. *)

Record W3iPlayer := mkWP {
  wp_colour : Z; wp_status : Z; wp_race : Z; wp_fixed : bytes; wp_name : bytes; wp_start : bytes }.
Record W3iForce := mkWF { wf_flags : Z; wf_mask : Z; wf_name : bytes }.

(** The part between the flags and the players, of which nothing is kept. *)
Record W3iMiddle := mkMid {
  mid_tileset : bytes; mid_loading : list bytes; mid_number : bytes; mid_prologue : list bytes;
  mid_fog : bytes; mid_weather : bytes; mid_tint : bytes }.

Definition text_wire (s : bytes) : bytes := s ++ [0].
Definition texts_wire (l : list bytes) : bytes := concat (map text_wire l).
Definition text_ok (s : bytes) : Prop := Forall (λ b, b ≠ 0) s ∧ (length s <= 1024)%nat.

Definition player_wire (p : W3iPlayer) : bytes :=
  le_bytes 4 (wp_colour p) ++ le_bytes 4 (wp_status p) ++ le_bytes 4 (wp_race p) ++ wp_fixed p
    ++ text_wire (wp_name p) ++ wp_start p.
Definition player_ok (p : W3iPlayer) : Prop :=
  u32 (wp_colour p) ∧ u32 (wp_status p) ∧ u32 (wp_race p) ∧ length (wp_fixed p) = 4%nat ∧ text_ok (wp_name p)
  ∧ length (wp_start p) = 16%nat.
Definition force_wire (f : W3iForce) : bytes :=
  le_bytes 4 (wf_flags f) ++ le_bytes 4 (wf_mask f) ++ text_wire (wf_name f).
Definition force_ok (f : W3iForce) : Prop := u32 (wf_flags f) ∧ u32 (wf_mask f) ∧ text_ok (wf_name f).

Definition middle_wire (format : Z) (m : W3iMiddle) : bytes :=
  mid_tileset m ++ texts_wire (mid_loading m) ++ mid_number m ++ texts_wire (mid_prologue m)
    ++ (if format =? 25 then mid_fog m ++ text_wire (mid_weather m) ++ mid_tint m else []).
Definition middle_ok (format : Z) (m : W3iMiddle) : Prop :=
  length (mid_tileset m) = 5%nat ∧ length (mid_number m) = 4%nat ∧
  length (mid_loading m) = (if format =? 25 then 4%nat else 3%nat) ∧ Forall text_ok (mid_loading m) ∧
  length (mid_prologue m) = (if format =? 25 then 4%nat else 3%nat) ∧ Forall text_ok (mid_prologue m) ∧
  length (mid_fog m) = 24%nat ∧ text_ok (mid_weather m) ∧ length (mid_tint m) = 5%nat.

(** The slots of the players that are not closed. *)
Definition slot_of (i : nat) (p : W3iPlayer) : SlotInfo :=
  w3i_slot (Z.of_nat i) (wp_colour p) (wp_status p) (wp_race p).
Definition slots_of (ps : list W3iPlayer) : SlotTable :=
  List.filter (λ s, negb (slot_status s =? Closed)) (imap slot_of ps).

(** The number of the last force, from [t] on, that has the colour, or [d]. *)
Fixpoint force_of (fs : list W3iForce) (t : Z) (col d : Z) : Z :=
  match fs with
  | [] => d
  | f :: fs => force_of fs (t + 1) col (if (col <? 24) && has (wf_mask f) (2 ^ col) then t else d)
  end.

Lemma read_u32_wire x s b : u32 x → read_u32 (mkCur (le_bytes 4 x ++ s) b) = (true, mkCur s x).
Proof.
  intros H. unfold read_u32. cbn [c_rest]. rewrite zlen_app, zlen_le_bytes. pose proof (zlen_nonneg s).
  rewrite (proj2 (Z.leb_le _ _)) by lia. rewrite take_app_length', drop_app_length' by by rewrite length_le_bytes.
  by rewrite le_val_round4.
Qed.

Lemma next_u32_wire x s b : u32 x → next_u32 (mkCur (le_bytes 4 x ++ s) b) = (x, mkCur s x).
Proof. intros H. unfold next_u32. by rewrite read_u32_wire. Qed.

Lemma skip_wire n bs s b : length bs = n → skip n (mkCur (bs ++ s) b) = mkCur s b.
Proof. intros <-. unfold skip. cbn [c_rest c_buf]. by rewrite drop_app_length. Qed.

Lemma cstring_from_wire s rest : ∀ room buf,
  Forall (λ b, b ≠ 0) s → (length s <= room)%nat →
  cstring_from room buf (text_wire s ++ rest) = (Ok (from_utf8_lossy (buf ++ s)), rest).
Proof.
  unfold text_wire. induction s as [|b s IH]; intros room buf Hs Hl; cbn [app cstring_from].
  - by rewrite app_nil_r.
  - apply Forall_cons in Hs as [Hb Hs]. rewrite (proj2 (Z.eqb_neq b 0)) by done. destruct room as [|room]; [simpl in Hl; lia|].
    simpl in Hl. rewrite IH by (done || lia). by rewrite <- app_assoc.
Qed.

Lemma skip_cstring_wire s rest b : text_ok s → skip_cstring (mkCur (text_wire s ++ rest) b) = mkCur rest b.
Proof.
  intros [H1 H2]. unfold skip_cstring, read_cstring. cbn [c_rest c_buf]. by rewrite cstring_from_wire.
Qed.

Lemma skip_cstrings_wire l rest b :
  Forall text_ok l → skip_cstrings (length l) (mkCur (texts_wire l ++ rest) b) = mkCur rest b.
Proof.
  revert rest. induction l as [|s l IH]; intros rest Hl; [done|]. apply Forall_cons in Hl as [Hs Hl].
  unfold skip_cstrings, texts_wire. cbn [length map concat]. rewrite <- app_assoc.
  rewrite Nat.iter_succ_r, skip_cstring_wire by done. by apply IH.
Qed.

Lemma players_loop_wire ps : ∀ i rest b slots,
  Forall player_ok ps →
  ∃ b', players_loop (length ps) (Z.of_nat i) (mkCur (concat (map player_wire ps) ++ rest) b) slots
        = (mkCur rest b', slots ++ List.filter (λ s, negb (slot_status s =? Closed)) (imap (λ j, slot_of (i + j)) ps)).
Proof.
  induction ps as [|p ps IH]; intros i rest b slots Hp.
  { exists b. cbn. by rewrite app_nil_r. }
  apply Forall_cons in Hp as [(H1 & H2 & H3 & H4 & H5 & H6) Hp].
  cbn [length map concat players_loop]. unfold player_wire at 1. rewrite <- !app_assoc.
  rewrite next_u32_wire, next_u32_wire, next_u32_wire by done.
  rewrite skip_wire, skip_cstring_wire, skip_wire by done.
  replace (Z.of_nat i + 1) with (Z.of_nat (S i)) by lia.
  match goal with |- ∃ _, players_loop _ _ _ ?sl = _ => destruct (IH (S i) rest (wp_race p) sl Hp) as [b' ->] end.
  exists b'. f_equal. rewrite imap_cons. cbn [List.filter]. unfold slot_of at 2. rewrite Nat.add_0_r.
  assert (imap (λ j, slot_of (S i + j)) ps = imap ((λ j, slot_of (i + j)) ∘ S) ps) as ->.
  { apply imap_ext. intros j p' _. unfold compose. by replace (i + S j)%nat with (S i + j)%nat by lia. }
  destruct (slot_status _ =? Closed); cbn [negb]; [done|]. by rewrite <- app_assoc.
Qed.

(** Joining a force. *)
Lemma join_team_spec mask t slots :
  Forall (λ s, 0 <= colour s) slots →
  join_team mask t slots
  = map (λ s, if (colour s <? 24) && has mask (2 ^ colour s) then s <| team := t |> else s) slots.
Proof.
  intros Hc. unfold join_team.
  assert (∀ n sl, Forall (λ s, 0 <= colour s) sl →
    foldl (λ slots j, if has mask (2 ^ j) then map (λ s, if colour s =? j then s <| team := t |> else s) slots else slots)
      sl (below n)
    = map (λ s, if (colour s <? Z.of_nat n) && has mask (2 ^ colour s) then s <| team := t |> else s) sl) as H.
  { intros n. induction n as [|n IH]; intros sl Hsl.
    - cbn [below seq map foldl]. rewrite <- (List.map_id sl) at 1. apply List.map_ext_in. intros s Hs.
      rewrite Forall_forall in Hsl. rewrite (proj2 (Z.ltb_ge _ _)); [done|]. apply Hsl. by apply list_elem_of_In.
    - unfold below. rewrite seq_S, map_app, foldl_app. fold (below n). rewrite IH by done. cbn [map foldl Nat.add].
      destruct (has mask (2 ^ Z.of_nat n)) eqn:Eb; [rewrite List.map_map|]; apply List.map_ext_in; intros s Hs;
        rewrite Forall_forall in Hsl; specialize (Hsl s (proj2 (list_elem_of_In _ _) Hs)); cbv beta in Hsl;
        destruct (Z.ltb_spec (colour s) (Z.of_nat n)), (Z.ltb_spec (colour s) (Z.of_nat (S n))); try lia; cbn [andb];
        try (assert (colour s = Z.of_nat n) as E by lia; rewrite E, Eb);
        try (destruct (has mask (2 ^ colour s)));
        try change (colour (s <| team := t |>)) with (colour s);
        repeat match goal with |- context [?a =? ?b] => destruct (Z.eqb_spec a b) end; try done; lia. }
  by apply (H 24%nat).
Qed.

Lemma forces_loop_wire fs : ∀ t rest b slots,
  Forall force_ok fs → Forall (λ s, 0 <= colour s) slots → 0 <= t → t + Z.of_nat (length fs) <= 256 →
  forces_loop (length fs) t (mkCur (concat (map force_wire fs) ++ rest) b) slots
  = map (λ s, s <| team := force_of fs t (colour s) (team s) |>) slots.
Proof.
  induction fs as [|f fs IH]; intros t rest b slots Hf Hs Ht Hn.
  { cbn. rewrite <- (List.map_id slots) at 1. apply List.map_ext. by intros []. }
  apply Forall_cons in Hf as [(H1 & H2 & H3) Hf]. cbn [length map concat forces_loop]. unfold force_wire at 1.
  rewrite <- !app_assoc, next_u32_wire, next_u32_wire, skip_cstring_wire by done.
  rewrite wrap_small by (unfold uN; simpl in Hn; lia).
  rewrite join_team_spec by done. rewrite IH; [|done| |lia|simpl in Hn; lia].
  - rewrite List.map_map. apply List.map_ext_in. intros s _. cbn [force_of].
    destruct ((colour s <? 24) && has (wf_mask f) (2 ^ colour s)); by destruct s.
  - apply Forall_map. eapply Forall_impl; [exact Hs|]. intros s Hc. cbv beta. by destruct (_ && _); destruct s.
Qed.

Lemma texts_skip n l rest b : length l = n → Forall text_ok l → skip_cstrings n (mkCur (texts_wire l ++ rest) b) = mkCur rest b.
Proof. intros <-. apply skip_cstrings_wire. Qed.

(** One text more than three is [read_cstring] and the loop over three. *)
Lemma skip_cstrings_4 c : skip_cstrings 3 (skip_cstring c) = skip_cstrings 4 c.
Proof. unfold skip_cstrings. by rewrite <- (Nat.iter_succ_r 3). Qed.

Lemma w3i_texts_wire format m rest b :
  format = 18 ∨ format = 25 → middle_ok format m →
  w3i_texts format (mkCur (middle_wire format m ++ rest) b) = mkCur rest b.
Proof.
  intros Hf (H1 & H2 & H3 & H4 & H5 & H6 & H7 & H8 & H9). unfold w3i_texts, middle_wire. cbv zeta. rewrite <- !app_assoc.
  assert (∀ s, skip 4 (skip 1 (mkCur (mid_tileset m ++ s) b)) = mkCur s b) as Ht.
  { intros s. unfold skip. cbn [c_rest c_buf]. rewrite drop_drop. by rewrite drop_app_length'. }
  rewrite Ht. destruct Hf as [-> | ->]; cbn [Z.eqb Pos.eqb] in *.
  - rewrite texts_skip, skip_wire, texts_skip by done. done.
  - rewrite !skip_cstrings_4. rewrite texts_skip, skip_wire, texts_skip by done. rewrite <- !app_assoc.
    by rewrite skip_wire, skip_cstring_wire, skip_wire.
Qed.

(** A whole file. *)
Definition w3i_wire (format editor w h fl : Z) (saves camera : bytes) (texts : list bytes) (m : W3iMiddle)
    (ps : list W3iPlayer) (fs : list W3iForce) (rest : bytes) : bytes :=
  le_bytes 4 format ++ saves ++ le_bytes 4 editor ++ texts_wire texts ++ camera ++ le_bytes 4 w ++ le_bytes 4 h
    ++ le_bytes 4 fl ++ middle_wire format m ++ le_bytes 4 (zlen ps) ++ concat (map player_wire ps)
    ++ le_bytes 4 (zlen fs) ++ concat (map force_wire fs) ++ rest.

Lemma slots_colours ps : Forall (λ s, 0 <= colour s) (slots_of ps).
Proof.
  unfold slots_of. apply Forall_forall. intros s Hs. apply list_elem_of_In, filter_In in Hs as [Hs _].
  apply list_elem_of_In, elem_of_lookup_imap in Hs as (i & p & -> & _). unfold slot_of, w3i_slot.
  destruct (w3i_status _). cbn. apply wrap_range. lia.
Qed.

(** C37: The description of a map, in either format, gives the width, the height, the
    version of the editor, the number of forces and those options that the lobby depends
    on; a slot, in the order of the players, for every player that is not closed, with its
    colour, race and kind; and for each the team of the last force that lists its colour.
    What the file has beyond that does not matter. *)
Theorem w3i_roundtrip format editor w h fl saves camera texts m ps fs rest :
  format = 18 ∨ format = 25 → u32 editor → u32 w → u32 h → u32 fl →
  length saves = 4%nat → length camera = 48%nat → length texts = 4%nat → Forall text_ok texts →
  middle_ok format m → Forall player_ok ps → Forall force_ok fs → (length ps <= 24)%nat → (length fs <= 12)%nat →
  parse_w3i (w3i_wire format editor w h fl saves camera texts m ps fs rest) w3i_default
  = mkW3i (w mod 2 ^ 16) (h mod 2 ^ 16) (zlen fs) editor
      (map (λ s, s <| team := force_of fs 0 (colour s) (team s) |>) (slots_of ps)) (Z.land fl 100).
Proof.
  intros Hf He Hw Hh Hfl Hsv Hcam Ht1 Ht2 Hmid Hps Hfs Hnp Hnf. unfold parse_w3i, w3i_wire.
  rewrite read_u32_wire by (unfold uN; lia). cbn [c_buf].
  assert (((format =? 18) || (format =? 25)) = true) as -> by (destruct Hf as [-> | ->]; done).
  cbn [andb]. rewrite skip_wire, read_u32_wire by done. cbn [c_buf]. rewrite texts_skip by done. rewrite skip_wire by done.
  rewrite !next_u32_wire by done. rewrite w3i_texts_wire by done.
  unfold w3i_players. rewrite read_u32_wire by (unfold uN, zlen; lia). cbn [c_buf].
  rewrite Z.min_l by (unfold zlen; lia). assert (Z.to_nat (zlen ps) = length ps) as -> by (unfold zlen; lia).
  destruct (players_loop_wire ps 0 (le_bytes 4 (zlen fs) ++ concat (map force_wire fs) ++ rest) (zlen ps) [] Hps) as [b E].
  change (Z.of_nat 0) with 0 in E. rewrite E. clear E. cbn [app]. rewrite read_u32_wire by (unfold uN, zlen; lia). cbn [c_buf].
  rewrite Z.min_l by (unfold zlen; lia). assert (Z.to_nat (zlen fs) = length fs) as -> by (unfold zlen; lia).
  change (List.filter _ (imap _ ps)) with (slots_of ps).
  rewrite forces_loop_wire; [|done|apply slots_colours|lia|lia].
  rewrite wrap_small by (unfold uN, zlen; lia). reflexivity.
Qed.

(** A map of the expansion with two players, a computer and a closed slot in two forces. *)
Definition sample_middle : W3iMiddle :=
  mkMid (replicate 5 76) [str "load.mdx"; []; []; []] [0; 0; 0; 0] (replicate 4 (str "text")) (replicate 24 1) (str "rain") (replicate 5 2).
Definition sample_player (col status r : Z) : W3iPlayer :=
  mkWP col status r [0; 0; 0; 0] (str "Sentinel") (replicate 16 0).
Definition sample_players : list W3iPlayer :=
  [sample_player 1 1 4; sample_player 2 1 4; sample_player 0 2 3; sample_player 9 3 1].
Definition sample_forces : list W3iForce := [mkWF 3 6 (str "The Sentinel"); mkWF 3 1 (str "The Scourge")].

Lemma w3i_roundtrip_witness :
  parse_w3i (w3i_wire 25 6059 118 120 100 [1; 0; 0; 0] (replicate 48 0) (replicate 4 (str "DotA")) sample_middle
               sample_players sample_forces [1; 2; 3]) w3i_default
  = mkW3i 118 120 2 6059
      [mkSlot 0 255 Open 0 0 1 4 1 100; mkSlot 0 255 Open 0 0 2 4 1 100; mkSlot 0 255 Occupied 1 1 0 8 1 100] 100.
Proof.
  rewrite w3i_roundtrip; [vm_compute; reflexivity|by right| | | | |done|done|done|..]; try (unfold uN; lia);
    try (simpl; lia).
  - repeat (apply Forall_cons_2; [by apply (bool_decide_unpack (text_ok _)); vm_compute|]). constructor.
  - repeat split; try done; apply (bool_decide_unpack _); vm_compute; exact I.
  - repeat (apply Forall_cons_2; [repeat split; try done; apply (bool_decide_unpack _); vm_compute; exact I|]). constructor.
  - repeat (apply Forall_cons_2; [repeat split; try done; apply (bool_decide_unpack _); vm_compute; exact I|]). constructor.
Defined.

(** An archive without files is a map with the twelve slots of the default. *)
Lemma loaded_map_typed_witness :
  ∃ pm, load_mpq_with_override (H := run_codecs) (H0 := run_crypto) (λ b, wrap 32 (zlen b)) (Ok sample_header)
          (Some (str "DotA.w3x")) None None None = Some (Ok pm) ∧
        pm_slots pm ≠ [] ∧ Forall unseated (pm_slots pm).
Proof.
  destruct (loaded_map_typed (CL := run_codec_laws) (CR := run_crypto_laws) (λ b, wrap 32 (zlen b)) (Ok sample_header)
    (Some (str "DotA.w3x")) None None None) as (r & Hr & H); try done.
  - intros b [= <-]. apply (bool_decide_unpack _). vm_compute. reflexivity.
  - intros b. by apply wrap_range.
  - destruct r as [pm|e]; [|exfalso; vm_compute in Hr; discriminate Hr]. exists pm. split; [exact Hr|].
    destruct (H pm eq_refl) as (_ & _ & _ & _ & _ & _ & Hs). destruct (Hs eq_refl) as (H1 & H2 & _). by split.
Defined.
