(* ===== verification/W3g.v ===== *)
(** The replay file: the body of a replay, cut into blocks that are compressed and
    checksummed, behind a header (spectre-spectator, src/w3g.rs; save_replay of src/lib.rs),
    and a reader of the format. *)
From S2P Require Import Prelude Utf8 W3gs ReplayBody.

(** ** The compressor of flate2 *)

Class Zlib := {
  zlib_encode : bytes → bytes;
  (** [ZlibDecoder::read_to_end]; [None] is an error. *)
  zlib_decode : bytes → option bytes }.

(** What the documentation says of it: it is lossless, makes bytes, and adds little to what
    it cannot compress. *)
Class ZlibLaws `{Zlib} := {
  zlib_lossless b : Forall u8 b → zlib_decode (zlib_encode b) = Some b;
  zlib_encode_u8 b : Forall u8 b → Forall u8 (zlib_encode b);
  zlib_expansion b : zlen b <= 8192 → zlen (zlib_encode b) <= 9216 }.

(** A compressor that stores. *)
Definition stored : Zlib := {| zlib_encode := λ b, b; zlib_decode := Some |}.
Lemma stored_laws : @ZlibLaws stored.
Proof. split; cbn; [done|done|lia]. Qed.

(** ** The writer *)

Definition HEADER_SIZE : Z := 68.
Definition BLOCK_SIZE : Z := 8192.
Definition FLAGS_MULTIPLAYER : Z := 49152.

Record W3gWriter := mkW3gWriter {
  war3_version : Z; build : Z; tft : bool; replay_length_ms : Z }.

Definition new_writer (war3_version build : Z) (tft : bool) : W3gWriter :=
  mkW3gWriter war3_version build tft 0.

Definition set_replay_length (ms : Z) (w : W3gWriter) : W3gWriter := w <| replay_length_ms := ms |>.

(** [slice::chunks_exact]: what is left over at the end is not a chunk. *)
Definition slice_chunks_exact (n : Z) (l : bytes) : list bytes :=
  chunks (Z.to_nat n) (take (Z.to_nat (zlen l / n * n)) l).

(** [buf[at..at + b.len()].copy_from_slice(b)] *)
Definition copy_at (i : nat) (b buf : bytes) : bytes := take i buf ++ b ++ drop (i + length b) buf.

Definition magic : bytes := str "Warcraft III recorded game" ++ [26; 0].

Section writer.
Context `{Zlib}.
Variable crc32 : bytes → Z.

(** [c ^ (c >> 16)] *)
Definition folded (c : Z) : Z := Z.lxor c (Z.shiftr c 16).

(** The checksum of a block, of its header [bh] (with zeros for the checksum) and of its data. *)
Definition block_crc (bh block : bytes) : Z :=
  Z.lor (Z.land (folded (crc32 bh)) 65535) (wrap 32 (Z.shiftl (folded (crc32 block)) 16)).

Definition block_header (block : bytes) : bytes :=
  le_bytes 2 (wrap 16 (zlen block)) ++ le_bytes 2 (wrap 16 BLOCK_SIZE) ++ le_bytes 4 0.

Definition block_wire (block : bytes) : bytes :=
  let bh := block_header block in
  copy_at 4 (le_bytes 4 (block_crc bh block)) bh ++ block.

(** The header with zeros for its checksum. *)
Definition header (w : W3gWriter) (file_size declared_len blocks : Z) : bytes :=
  magic ++ le_bytes 4 HEADER_SIZE ++ le_bytes 4 (wrap 32 file_size) ++ le_bytes 4 1
  ++ le_bytes 4 (wrap 32 declared_len) ++ le_bytes 4 (wrap 32 blocks)
  ++ (if tft w then str "PX3W" else str "3RAW") ++ le_bytes 4 (war3_version w)
  ++ le_bytes 2 (build w) ++ le_bytes 2 FLAGS_MULTIPLAYER ++ le_bytes 4 (replay_length_ms w)
  ++ le_bytes 4 0.

Definition emit (w : W3gWriter) (padded : bytes) (declared_len : Z) : bytes :=
  let blocks := map zlib_encode (slice_chunks_exact BLOCK_SIZE padded) in
  let compressed_total := foldr (λ b n, zlen b + n) 0 blocks in
  let file_size := HEADER_SIZE + compressed_total + zlen blocks * 8 in
  let h := header w file_size declared_len (zlen blocks) in
  copy_at 64 (le_bytes 4 (crc32 h)) h ++ concat (map block_wire blocks).

Definition pack (w : W3gWriter) (decompressed : bytes) : bytes :=
  let pad := BLOCK_SIZE - zlen decompressed mod BLOCK_SIZE in
  emit w (decompressed ++ replicate (Z.to_nat pad) 0) (zlen decompressed).

Definition pack_chunk_aligned_declaring (w : W3gWriter) (decompressed : bytes) (declared_len : Z) : option bytes :=
  if negb (zlen decompressed mod BLOCK_SIZE =? 0) then None
  else if zlen decompressed <? declared_len then None
  else Some (emit w decompressed declared_len).

Definition pack_chunk_aligned (w : W3gWriter) (decompressed : bytes) : option bytes :=
  pack_chunk_aligned_declaring w decompressed (zlen decompressed).

(** What [save_replay] writes to its file. *)
Definition save_replay (body : ReplayBody) (war3_version build : Z) (tft : bool) : result ReplayBodyError bytes :=
  '(b, len_ms) ← finish body;
  Ok (pack (set_replay_length len_ms (new_writer war3_version build tft)) b).

(** ** A reader of the format

    It checks every size and every checksum. *)

Record W3gFile := mkW3gFile { wf_writer : W3gWriter; wf_body : bytes }.

(** The first fields of some data, of given lengths. *)
Fixpoint fields (ns : list nat) (data : bytes) : option (list bytes * bytes) :=
  match ns with
  | [] => Some ([], data)
  | n :: ns =>
    if (length data <? n)%nat then None else
    '(fs, rest) ← fields ns (drop n data);
    Some (take n data :: fs, rest)
  end.

Definition read_file_block (data : bytes) : option (bytes * bytes) :=
  match fields [2; 2; 4]%nat data with
  | Some ([size; raw_size; crc], data) =>
    '(fs, rest) ← fields [Z.to_nat (le_val size)] data;
    let block := concat fs in
    raw ← zlib_decode block;
    if bool_decide (crc = le_bytes 4 (block_crc (size ++ raw_size ++ [0; 0; 0; 0]) block)) && (zlen raw =? le_val raw_size)
    then Some (raw, rest) else None
  | _ => None
  end.

Fixpoint read_file_blocks (n : nat) (data : bytes) : option bytes :=
  match n with
  | O => match data with [] => Some [] | _ => None end
  | S n =>
    '(raw, rest) ← read_file_block data;
    raws ← read_file_blocks n rest;
    Some (raw ++ raws)
  end.

Definition read_w3g (data : bytes) : option W3gFile :=
  match fields [28; 4; 4; 4; 4; 4; 4; 4; 2; 2; 4; 4]%nat data with
  | Some ([m; hsize; fsize; version; len; blocks; product; war3; bld; flags; ms; crc], rest) =>
    if bool_decide (m = magic) && (le_val hsize =? 68) && (le_val fsize =? zlen data) && (le_val version =? 1)
       && bool_decide (crc = le_bytes 4 (crc32 (take 64 data ++ [0; 0; 0; 0])))
    then
      raw ← read_file_blocks (Z.to_nat (le_val blocks)) rest;
      if zlen raw <? le_val len then None else
      Some (mkW3gFile (mkW3gWriter (le_val war3) (le_val bld) (bool_decide (product = str "PX3W")) (le_val ms))
              (take (Z.to_nat (le_val len)) raw))
    else None
  | _ => None
  end.
End writer.

(** ** What was written is read *)

Lemma fields_app ns fs rest :
  Forall2 (λ n f, length f = n) ns fs → fields ns (concat fs ++ rest) = Some (fs, rest).
Proof.
  induction 1 as [|n f ns fs Hf _ IH]; [done|]. cbn [fields concat]. rewrite <- app_assoc.
  rewrite (proj2 (Nat.ltb_ge _ _)) by (rewrite length_app; lia).
  rewrite drop_app_length', take_app_length' by done. by rewrite IH.
Qed.

Lemma fields_one n f rest : length f = n → fields [n] (f ++ rest) = Some ([f], rest).
Proof. intros H. rewrite <- (app_nil_r f) at 1. apply (fields_app [n] [f]). by constructor. Qed.

Lemma copy_at_end pre (a b : bytes) : length a = length b → copy_at (length pre) b (pre ++ a) = pre ++ b.
Proof.
  intros H. unfold copy_at. rewrite take_app_length, drop_ge by (rewrite length_app; lia). by rewrite app_nil_r.
Qed.

Lemma le_bytes_wrap n x : le_bytes n (wrap (8 * Z.of_nat n) x) = le_bytes n x.
Proof.
  rewrite <- (le_bytes_le_val (le_bytes n x)) by apply le_bytes_u8. rewrite length_le_bytes, le_val_le_bytes.
  unfold wrap. by rewrite Z.pow_mul_r by lia.
Qed.

Section reading.
Context `{ZL : ZlibLaws}.
Variable crc32 : bytes → Z.

Definition raw_block (b : bytes) : Prop := zlen b = BLOCK_SIZE ∧ Forall u8 b.

Lemma raw_block_small b : raw_block b → u16 (zlen (zlib_encode b)).
Proof.
  intros [Hl Hb]. pose proof (zlib_expansion b). pose proof (zlen_nonneg (zlib_encode b)).
  unfold BLOCK_SIZE, uN in *. change (2 ^ 16) with 65536. lia.
Qed.

Lemma block_wire_fields block :
  block_wire crc32 block = concat [le_bytes 2 (zlen block); le_bytes 2 BLOCK_SIZE;
    le_bytes 4 (block_crc crc32 (le_bytes 2 (zlen block) ++ le_bytes 2 BLOCK_SIZE ++ [0; 0; 0; 0]) block)] ++ block.
Proof.
  unfold block_wire, block_header. rewrite !(le_bytes_wrap 2), app_assoc.
  change 4%nat with (length (le_bytes 2 (zlen block) ++ le_bytes 2 BLOCK_SIZE)) at 1.
  rewrite copy_at_end by (by rewrite !length_le_bytes). cbn [concat]. rewrite <- !app_assoc. do 3 f_equal.
Qed.

Lemma read_file_block_wire b rest :
  raw_block b → read_file_block crc32 (block_wire crc32 (zlib_encode b) ++ rest) = Some (b, rest).
Proof.
  intros Hb. pose proof (raw_block_small b Hb) as Hs. destruct Hb as [Hl Hb]. set (block := zlib_encode b).
  unfold read_file_block. rewrite block_wire_fields, <- app_assoc.
  rewrite fields_app by (repeat constructor; by rewrite length_le_bytes).
  cbn [mbind option_bind]. rewrite (le_val_round2 (zlen block)) by done.
  rewrite (fields_one (Z.to_nat (zlen block))) by (unfold zlen; lia).
  cbn [mbind option_bind concat]. rewrite app_nil_r. unfold block. rewrite zlib_lossless by done.
  cbn [mbind option_bind]. rewrite bool_decide_eq_true_2 by done. by rewrite Hl.
Qed.

Lemma read_file_blocks_wire bs :
  Forall raw_block bs →
  read_file_blocks crc32 (length bs) (concat (map (block_wire crc32) (map zlib_encode bs))) = Some (concat bs).
Proof.
  induction 1 as [|b bs Hb _ IH]; [done|]. cbn [length map concat read_file_blocks].
  rewrite read_file_block_wire by done. cbn [mbind option_bind]. by rewrite IH.
Qed.

Lemma exact_chunks_spec l k :
  zlen l = k * BLOCK_SIZE → Forall u8 l →
  Forall raw_block (slice_chunks_exact BLOCK_SIZE l) ∧ concat (slice_chunks_exact BLOCK_SIZE l) = l ∧
  zlen (slice_chunks_exact BLOCK_SIZE l) = k.
Proof.
  intros Hk Hl. unfold slice_chunks_exact. rewrite Hk, Z.div_mul by done. rewrite <- Hk, take_ge by (unfold zlen; lia).
  assert (0 <= k) as H0 by (pose proof (zlen_nonneg l); unfold BLOCK_SIZE in *; lia).
  rewrite <- (Z2Nat.id k H0) in *. clear H0. revert l Hk Hl. induction (Z.to_nat k) as [|n IH]; intros l Hk Hl.
  { assert (l = []) as -> by (destruct l; [done|]; cbn in Hk; rewrite zlen_cons in Hk; pose proof (zlen_nonneg l); lia). by rewrite chunks_nil. }
  unfold BLOCK_SIZE in *. assert (zlen (take (Z.to_nat 8192) l) = 8192 ∧ zlen (drop (Z.to_nat 8192) l) = Z.of_nat n * 8192) as [H1 H2].
  { unfold zlen in *. rewrite length_take, length_drop. lia. }
  rewrite chunks_cons; [|lia|by intros ->].
  destruct (IH (drop (Z.to_nat 8192) l)) as (IH1 & IH2 & IH3); [done|by apply Forall_drop|].
  split_and!.
  - constructor; [|done]. split; [done|by apply Forall_take].
  - cbn [concat]. by rewrite IH2, take_drop.
  - rewrite zlen_cons, IH3. lia.
Qed.

(** A writer's fields, as their types bound them. *)
Definition writer_ok (w : W3gWriter) : Prop := u32 (war3_version w) ∧ u16 (build w) ∧ u32 (replay_length_ms w).

(** The fields of the header before its checksum. *)
Definition header_fields (w : W3gWriter) (file_size declared_len blocks : Z) : list bytes :=
  [magic; le_bytes 4 HEADER_SIZE; le_bytes 4 file_size; le_bytes 4 1; le_bytes 4 declared_len; le_bytes 4 blocks;
   if tft w then str "PX3W" else str "3RAW"; le_bytes 4 (war3_version w); le_bytes 2 (build w);
   le_bytes 2 FLAGS_MULTIPLAYER; le_bytes 4 (replay_length_ms w)].

Lemma header_fields_eq w fs dl n : header w fs dl n = concat (header_fields w fs dl n) ++ [0; 0; 0; 0].
Proof.
  unfold header. rewrite !(le_bytes_wrap 4). unfold header_fields. cbn [concat]. rewrite <- !app_assoc.
  by rewrite app_nil_l.
Qed.

Lemma header_fields_lengths w fs dl n :
  Forall2 (λ n f, length f = n) [28; 4; 4; 4; 4; 4; 4; 4; 2; 2; 4]%nat (header_fields w fs dl n).
Proof. repeat constructor; rewrite ?length_le_bytes; try done. by destruct (tft w). Qed.

Lemma header_fields_length w fs dl n : length (concat (header_fields w fs dl n)) = 64%nat.
Proof.
  unfold header_fields. cbn [concat]. rewrite !length_app, !length_le_bytes. by destruct (tft w).
Qed.

(** The file, with its checksum and its size in place. *)
Lemma emit_eq w padded declared_len :
  let bs := slice_chunks_exact BLOCK_SIZE padded in
  let file := emit crc32 w padded declared_len in
  let hf := header_fields w (zlen file) declared_len (zlen bs) in
  file = concat (hf ++ [le_bytes 4 (crc32 (concat hf ++ [0; 0; 0; 0]))])
         ++ concat (map (block_wire crc32) (map zlib_encode bs)).
Proof.
  intros bs file hf. unfold hf, file, emit. fold bs. set (blocks := map zlib_encode bs).
  set (total := HEADER_SIZE + _ + _). set (h := header _ _ _ _).
  assert (∀ c, copy_at 64 (le_bytes 4 c) h = concat (header_fields w total declared_len (zlen blocks)) ++ le_bytes 4 c) as Hc.
  { intros c. unfold h. rewrite header_fields_eq, <- (header_fields_length w total declared_len (zlen blocks)).
    apply copy_at_end. by rewrite length_le_bytes. }
  assert (zlen (copy_at 64 (le_bytes 4 (crc32 h)) h ++ concat (map (block_wire crc32) blocks)) = total) as ->.
  { rewrite Hc, !zlen_app, zlen_le_bytes. unfold zlen at 1. rewrite header_fields_length. unfold total.
    enough (zlen (concat (map (block_wire crc32) blocks)) = foldr (λ b n, zlen b + n) 0 blocks + zlen blocks * 8) by (unfold HEADER_SIZE; lia).
    clear. induction blocks as [|b blocks IH]; [done|]. cbn [map concat foldr]. rewrite zlen_app, zlen_cons, IH.
    rewrite block_wire_fields. cbn [concat]. rewrite app_nil_r, !zlen_app, !zlen_le_bytes. lia. }
  replace (zlen bs) with (zlen blocks) by (unfold blocks; by rewrite zlen_map).
  rewrite Hc, concat_app. cbn [concat]. rewrite app_nil_r. do 3 f_equal. by rewrite <- header_fields_eq.
Qed.

(** How long a file can be. *)
Lemma emit_bound w padded declared_len k :
  Forall u8 padded → zlen padded = k * BLOCK_SIZE → zlen (emit crc32 w padded declared_len) <= HEADER_SIZE + k * 9224.
Proof.
  intros Hu Hk. destruct (exact_chunks_spec padded k Hk Hu) as (Hbs & _ & Hn). pose proof (emit_eq w padded declared_len) as E.
  cbv zeta in E. rewrite E, zlen_app, concat_app, zlen_app. unfold zlen at 1. rewrite header_fields_length. cbn [concat].
  rewrite app_nil_r, zlen_le_bytes. enough (zlen (concat (map (block_wire crc32) (map zlib_encode (slice_chunks_exact BLOCK_SIZE padded)))) <= k * 9224) by (unfold HEADER_SIZE; lia).
  rewrite <- Hn. clear E Hn Hk Hu. induction Hbs as [|b bs [Hb _] _ IH]; [done|]. cbn [map concat]. rewrite zlen_app, zlen_cons.
  rewrite block_wire_fields. cbn [concat]. rewrite app_nil_r, !zlen_app, !zlen_le_bytes. pose proof (zlib_expansion b) as He.
  unfold BLOCK_SIZE in Hb. lia.
Qed.

Lemma read_emit w padded declared_len k :
  writer_ok w → Forall u8 padded → zlen padded = k * BLOCK_SIZE → 0 <= declared_len <= zlen padded →
  u32 (zlen padded) → u32 (zlen (emit crc32 w padded declared_len)) →
  read_w3g crc32 (emit crc32 w padded declared_len) = Some (mkW3gFile w (take (Z.to_nat declared_len) padded)).
Proof.
  intros (Hv & Hb & Hms) Hu Hk Hd Hp Hsize. set (file := emit crc32 w padded declared_len) in *.
  destruct (exact_chunks_spec padded k Hk Hu) as (Hbs & Hc & Hn). set (bs := slice_chunks_exact BLOCK_SIZE padded) in *.
  assert (u32 k) as Hk32 by (pose proof (zlen_nonneg bs); unfold uN, BLOCK_SIZE in *; lia).
  unfold read_w3g. pose proof (emit_eq w padded declared_len) as E. cbv zeta in E. fold file bs in E. rewrite Hn in E.
  set (hf := header_fields w (zlen file) declared_len k) in *. rewrite E at 1.
  rewrite fields_app; cycle 1.
  { change [28; 4; 4; 4; 4; 4; 4; 4; 2; 2; 4; 4]%nat with ([28; 4; 4; 4; 4; 4; 4; 4; 2; 2; 4] ++ [4])%nat.
    apply Forall2_app; [apply header_fields_lengths|by repeat constructor]. }
  assert (take 64 file = concat hf) as Ht.
  { rewrite E, concat_app, <- app_assoc. apply take_app_length'. symmetry. apply header_fields_length. }
  rewrite Ht. unfold hf at 1, header_fields. cbn [app].
  assert (u32 declared_len) as Hd32 by (unfold uN in *; lia).
  rewrite (le_val_round2 (build w) Hb), !le_val_round4 by done.
  rewrite !bool_decide_eq_true_2, (Z.eqb_refl (zlen file)) by done. cbn [andb Z.eqb Pos.eqb].
  replace (Z.to_nat k) with (length bs) by (unfold zlen in Hn; lia). rewrite read_file_blocks_wire by done.
  cbn [mbind option_bind]. rewrite Hc, (proj2 (Z.ltb_ge _ _)) by lia. by destruct w as [v b [] ms].
Qed.

Lemma replicate_u8 n : Forall u8 (replicate n 0).
Proof. apply Forall_replicate. unfold uN. lia. Qed.

Lemma read_pack w b :
  writer_ok w → Forall u8 b → zlen b + BLOCK_SIZE < 2 ^ 32 → u32 (zlen (pack crc32 w b)) →
  read_w3g crc32 (pack crc32 w b) = Some (mkW3gFile w b).
Proof.
  intros Hw Hb Hl Hs. unfold pack in *. set (pad := BLOCK_SIZE - _) in *.
  pose proof (Z.mod_pos_bound (zlen b) BLOCK_SIZE ltac:(done)) as Hm. pose proof (zlen_nonneg b).
  assert (zlen (b ++ replicate (Z.to_nat pad) 0) = zlen b + pad) as Hlen by (rewrite zlen_app, zlen_replicate; unfold pad; lia).
  rewrite (read_emit w _ (zlen b) (zlen b / BLOCK_SIZE + 1)); try done.
  - unfold zlen. by rewrite Nat2Z.id, take_app_length.
  - apply Forall_app_2; [done|apply replicate_u8].
  - rewrite Hlen. unfold pad. pose proof (Z.div_mod (zlen b) BLOCK_SIZE ltac:(done)). lia.
  - unfold pad in *. lia.
  - unfold uN. rewrite Hlen. unfold pad. lia.
Qed.

(** A file of whole blocks is written exactly when there are whole blocks to write and no
    more is declared than is there; it declares the first [declared_len] bytes. *)
Lemma read_aligned w b declared_len file :
  pack_chunk_aligned_declaring crc32 w b declared_len = Some file →
  writer_ok w → Forall u8 b → 0 <= declared_len → u32 (zlen b) → u32 (zlen file) →
  read_w3g crc32 file = Some (mkW3gFile w (take (Z.to_nat declared_len) b)).
Proof.
  unfold pack_chunk_aligned_declaring. destruct (Z.eqb_spec (zlen b mod BLOCK_SIZE) 0) as [E|]; [|done].
  cbn [negb]. destruct (Z.ltb_spec (zlen b) declared_len) as [|Hd]; [done|]. intros [= <-] Hw Hb H0 Hl Hs.
  apply (read_emit w b declared_len (zlen b / BLOCK_SIZE)); try done.
  pose proof (Z.div_mod (zlen b) BLOCK_SIZE ltac:(done)). lia.
Qed.

(** The body of a game whose names, slots and numbers are in their types. *)
Record body_typed (r : ReplayBody) : Prop := {
  bt_host : u8 (r_host_pid r) ∧ Forall u8 (r_host_name r);
  bt_names : Forall (λ p, u8 p.1 ∧ Forall u8 p.2) (r_players r);
  bt_slots : Forall u8 (r_slots r);
  bt_start : u8 (r_select_mode r) ∧ u8 (r_start_spots r);
  bt_game : Forall u8 (r_game_name r) ∧ Forall u8 (r_stat_string r);
  bt_loading : Forall (Forall u8) (r_loading_blocks r);
  bt_blocks : Forall u8 (r_blocks r);
  bt_length : u32 (r_replay_length_ms r) }.

Lemma player_record_u8 p : u8 p.1 ∧ Forall u8 p.2 → Forall u8 (player_record p).
Proof. destruct p as [pid name]. intros [H1 H2]. unfold player_record, put_cstr. cbn [fst snd] in *. u8_list. Qed.

Lemma prologue_u8 r p : body_typed r → prologue r = Ok p → Forall u8 p.
Proof.
  intros [[Hh Hn] Hp Hs [Hm Hsp] [Hg Hst] Hl _ _]. unfold prologue. destruct (negb _); [done|]. intros [= <-].
  assert (Forall u8 (concat (map player_record (r_players r)))) as Hrec.
  { apply Forall_concat, Forall_map. eapply Forall_impl; [exact Hp|]. exact player_record_u8. }
  apply Forall_concat in Hl. unfold put_cstr. u8_list.
Qed.

Lemma finish_u8 r b len : body_typed r → finish r = Ok (b, len) → Forall u8 b ∧ len = r_replay_length_ms r.
Proof.
  intros Hr. unfold finish. destruct (prologue r) as [p|] eqn:E; [|done]. cbn. intros [= <- <-].
  split; [|done]. apply Forall_app_2; [by eapply prologue_u8|]. by destruct Hr.
Qed.

(** What [pack] is read as. *)
Lemma saved_read r v bld t file :
  save_replay crc32 r v bld t = Ok file → body_typed r → u32 v → u16 bld → u32 (zlen file) →
  (∀ b len, finish r = Ok (b, len) → zlen b + BLOCK_SIZE < 2 ^ 32) →
  ∃ p, prologue r = Ok p ∧
    read_w3g crc32 file = Some (mkW3gFile (mkW3gWriter v bld t (r_replay_length_ms r)) (p ++ r_blocks r)).
Proof.
  intros Hf Hr Hv Hb Hs Hl. unfold save_replay in Hf. destruct (finish r) as [[b len]|] eqn:E; [|done].
  cbn [mbind result_bind] in Hf. injection Hf as <-. destruct (finish_u8 r b len Hr E) as [Hu ->].
  rewrite read_pack; [|by destruct Hr|done|by eapply Hl|done].
  unfold finish in E. destruct (prologue r) as [p|]; [|done]. cbn in E. injection E as <-. by exists p.
Qed.

Lemma add_blocks_prologue bs r : prologue (foldl add_block r bs) = prologue r ∧ r_start_set (foldl add_block r bs) = r_start_set r.
Proof. revert r. induction bs as [|b bs IH]; intros r; [done|]. cbn [foldl]. destruct (IH (add_block r b)) as [-> ->]. by destruct b. Qed.

Lemma add_block_typed r b :
  body_typed r → Forall u8 (block_bytes b) → block_ok b → body_typed (add_block r b).
Proof.
  intros [] Hu Hb. assert (Forall u8 (r_blocks (add_block r b))) as Hbs by (rewrite add_block_blocks; by apply Forall_app_2).
  destruct b; split; try done. by apply wrap_range.
Qed.

Lemma add_blocks_typed bs r :
  body_typed r → Forall (λ b, block_ok b ∧ Forall u8 (block_bytes b)) bs → body_typed (foldl add_block r bs).
Proof.
  intros Hr Hall. revert r Hr. induction Hall as [|b bs [Hb Hu] _ IH]; intros r Hr; [done|]. cbn [foldl].
  by apply IH, add_block_typed.
Qed.

(** C35: A replay is saved unless the game never started.  The file it is saved to passes
    every check of a reader (sizes, checksums of the header and of every block), and what
    the reader gets is the versions, the length of the game, the prologue, and then every
    block that the game wrote, in order and nothing else. *)
Theorem saved_replay_roundtrip r bs v bld t :
  body_typed r → r_blocks r = [] → r_replay_length_ms r = 0 →
  Forall (λ b, block_ok b ∧ Forall u8 (block_bytes b)) bs → u32 v → u16 bld →
  let r' := foldl add_block r bs in
  (∀ b len, finish r' = Ok (b, len) → zlen b + BLOCK_SIZE < 2 ^ 32) →
  match save_replay crc32 r' v bld t with
  | Err e => e = StartNeverSet ∧ r_start_set r = false
  | Ok file =>
    u32 (zlen file) →
    ∃ p body, prologue r = Ok p ∧
      read_w3g crc32 file
      = Some (mkW3gFile (mkW3gWriter v bld t (wrap 32 (foldr (λ b n, block_ms b + n) 0 bs))) body) ∧
      take (length p) body = p ∧ read_all (length bs) (drop (length p) body) = (bs, [])
  end.
Proof.
  intros Hr Hb0 Hl0 Hbs Hv Hbld r' Hl. destruct (add_blocks_prologue bs r) as [Hp Hst]. fold r' in Hp, Hst.
  destruct (save_replay crc32 r' v bld t) as [file|e] eqn:E.
  - intros Hs. destruct (saved_read r' v bld t file E) as (p & E1 & E2); try done; [by apply add_blocks_typed|].
    exists p, (p ++ r_blocks r'). rewrite <- Hp. split; [done|]. split.
    + rewrite E2. unfold r'. rewrite add_blocks_length by (by destruct Hr). by rewrite Hl0.
    + rewrite take_app_length, drop_app_length. split; [done|]. unfold r'. rewrite add_blocks_blocks, Hb0, app_nil_l.
      rewrite <- (app_nil_r (concat _)). apply read_all_blocks; [|done|done]. eapply Forall_impl; [exact Hbs|]. by intros b [].
  - revert E. unfold save_replay, finish, prologue. rewrite Hst. destruct (r_start_set r); [done|]. by intros [= <-].
Qed.
End reading.

Definition example_body : ReplayBody := (new_replay 1 (str "h")) <| r_start_set := true |>.
Definition example_blocks : list Block := [TimeSlot 100 [1; 2]; Chat 1 32 0 (str "gg"); Leave 2 1 7].

Lemma saved_replay_roundtrip_witness :
  match @save_replay stored zlen (foldl add_block example_body example_blocks) 26 6059 true with
  | Err e => e = StartNeverSet ∧ r_start_set example_body = false
  | Ok file =>
    u32 (zlen file) →
    ∃ p body, prologue example_body = Ok p ∧
      @read_w3g stored zlen file
      = Some (mkW3gFile (mkW3gWriter 26 6059 true (wrap 32 (foldr (λ b n, block_ms b + n) 0 example_blocks))) body) ∧
      take (length p) body = p ∧ read_all (length example_blocks) (drop (length p) body) = (example_blocks, [])
  end.
Proof.
  apply (@saved_replay_roundtrip stored stored_laws zlen example_body example_blocks 26 6059 true);
    try reflexivity; try (split; reflexivity || (vm_compute; congruence)).
  - split; cbn; repeat split; try apply Forall_nil_2; try (vm_compute; congruence); apply (bool_decide_unpack _); vm_compute; exact I.
  - repeat (apply Forall_cons_2; [split; [repeat split; try (vm_compute; congruence); apply (bool_decide_unpack _); vm_compute; exact I
       |apply (bool_decide_unpack _); vm_compute; exact I]|]). apply Forall_nil_2.
  - intros b len H. vm_compute in H. injection H as <- _. vm_compute. reflexivity.
Defined.
