(* ===== verification/Crc.v ===== *)
(** The CRC-32 of the live stream (spectre-spectator, src/dotatv.rs): the table, the loop over
    bytes, and what it is a checksum for. *)
From S2P Require Import Prelude.

(** ** The checksum *)

(** One turn of the loop that fills the table. *)
Definition crc_bit (c : Z) : Z :=
  if negb (Z.land c 1 =? 0) then Z.lxor 3988292384 (Z.shiftr c 1) else Z.shiftr c 1.

Definition crc_table : list Z := map (λ i, Nat.iter 8 crc_bit i) (below 256).

Definition crc_push (reg : Z) (data : bytes) (t : list Z) : Z :=
  foldl (λ reg b, Z.lxor (t !!! Z.to_nat (Z.land (Z.lxor reg b) 255)) (Z.shiftr reg 8)) reg data.

Definition crc32 (data : bytes) : Z := Z.lxor (crc_push 4294967295 data crc_table) 4294967295.

(** ** The division it does

    Bit by bit, the lowest first: the register is shifted, and what falls out, with the bit
    of the message, decides whether the polynomial is added. *)

Definition POLYNOMIAL : Z := 3988292384.

Definition feed (reg : Z) (b : bool) : Z :=
  if xorb (Z.odd reg) b then Z.lxor POLYNOMIAL (Z.shiftr reg 1) else Z.shiftr reg 1.

(** The [n] low bits of a number, the lowest first, and the bits of a message. *)
Fixpoint low_bits (n : nat) (x : Z) : list bool :=
  match n with O => [] | S n => Z.odd x :: low_bits n (Z.shiftr x 1) end.

Definition message_bits (data : bytes) : list bool := concat (map (low_bits 8) data).

Definition crc32_by_bits (data : bytes) : Z := Z.lxor (foldl feed 4294967295 (message_bits data)) 4294967295.

Lemma crc_bit_eq c : crc_bit c = Z.lxor (if Z.odd c then POLYNOMIAL else 0) (Z.shiftr c 1).
Proof.
  unfold crc_bit. change 1 with (Z.ones 1) at 1. rewrite Z.land_ones, Zmod_odd by done. by destruct (Z.odd c).
Qed.

Lemma odd_lxor a b : Z.odd (Z.lxor a b) = xorb (Z.odd a) (Z.odd b).
Proof. by rewrite <- !Z.bit0_odd, Z.lxor_spec. Qed.

(** A turn is linear. *)
Lemma crc_bit_lxor a b : crc_bit (Z.lxor a b) = Z.lxor (crc_bit a) (crc_bit b).
Proof.
  rewrite !crc_bit_eq, odd_lxor, Z.shiftr_lxor. apply Z.bits_inj'. intros n _.
  rewrite !Z.lxor_spec. destruct (Z.odd a), (Z.odd b); cbn [xorb]; rewrite ?Z.bits_0;
    by destruct (Z.testbit POLYNOMIAL n), (Z.testbit (Z.shiftr a 1) n), (Z.testbit (Z.shiftr b 1) n).
Qed.

Lemma iter_lxor k a b : Nat.iter k crc_bit (Z.lxor a b) = Z.lxor (Nat.iter k crc_bit a) (Nat.iter k crc_bit b).
Proof. induction k as [|k IH]; [done|]. by rewrite !Nat.iter_succ, IH, crc_bit_lxor. Qed.

Lemma crc_bit_shift x : crc_bit (Z.shiftl x 1) = x.
Proof.
  rewrite crc_bit_eq, Z.shiftl_mul_pow2 by done. change (2 ^ 1) with 2. rewrite Z.odd_mul, andb_false_r, Z.lxor_0_l.
  rewrite Z.shiftr_div_pow2 by done. by apply Z.div_mul.
Qed.

Lemma iter_shift k x : Nat.iter k crc_bit (Z.shiftl x (Z.of_nat k)) = x.
Proof.
  revert x. induction k as [|k IH]; intros x; [by rewrite Z.shiftl_0_r|].
  rewrite Nat.iter_succ_r, Nat2Z.inj_succ. rewrite <- Z.add_1_r, <- Z.shiftl_shiftl by lia.
  by rewrite crc_bit_shift.
Qed.

(** A number is its low bits and the rest. *)
Lemma low_high k x : x = Z.lxor (Z.land x (Z.ones (Z.of_nat k))) (Z.shiftl (Z.shiftr x (Z.of_nat k)) (Z.of_nat k)).
Proof.
  rewrite <- Z.ldiff_ones_r by lia. apply Z.bits_inj'. intros n _.
  rewrite Z.lxor_spec, Z.ldiff_spec, Z.land_spec.
  by destruct (Z.testbit x n), (Z.testbit (Z.ones (Z.of_nat k)) n).
Qed.

(** The table: eight turns at once. *)
Lemma table_step reg : Nat.iter 8 crc_bit reg = Z.lxor (crc_table !!! Z.to_nat (Z.land reg 255)) (Z.shiftr reg 8).
Proof.
  rewrite (low_high 8 reg) at 1. rewrite iter_lxor. change (Z.of_nat 8) with 8. rewrite (iter_shift 8). f_equal.
  change (Z.ones 8) with 255. assert (0 <= Z.land reg 255 < 256) as Hb.
  { change 255 with (Z.ones 8). rewrite Z.land_ones by done. by apply Z.mod_pos_bound. }
  unfold crc_table, below. set (x := Z.land reg 255) in *. clearbody x.
  rewrite map_map. symmetry. apply list_lookup_total_correct. rewrite list_lookup_fmap, lookup_seq_lt by lia.
  cbn [fmap option_fmap option_map Nat.add]. by rewrite Z2Nat.id by lia.
Qed.

Lemma crc_push_steps reg data : Forall u8 data → crc_push reg data crc_table = foldl (λ r b, Nat.iter 8 crc_bit (Z.lxor r b)) reg data.
Proof.
  intros Hd. revert reg. induction Hd as [|b data Hb _ IH]; intros reg; [done|].
  unfold crc_push in *. cbn [foldl]. rewrite IH, table_step, Z.shiftr_lxor. do 2 f_equal.
  rewrite (Z.shiftr_div_pow2 b) by done. unfold uN in Hb. rewrite Z.div_small, Z.lxor_0_r by done. done.
Qed.

(** Feeding bits is running as many turns, the bits being added in advance. *)
Lemma feed_bits k : ∀ reg x,
  Nat.iter k crc_bit (Z.lxor reg x) = Z.lxor (foldl feed reg (low_bits k x)) (Z.shiftr x (Z.of_nat k)).
Proof.
  induction k as [|k IH]; intros reg x; [by rewrite Z.shiftr_0_r|].
  rewrite Nat.iter_succ_r. cbn [low_bits foldl].
  replace (crc_bit (Z.lxor reg x)) with (Z.lxor (feed reg (Z.odd x)) (Z.shiftr x 1)); cycle 1.
  { rewrite crc_bit_eq, odd_lxor, Z.shiftr_lxor. unfold feed, POLYNOMIAL.
    destruct (xorb _ _); by rewrite ?Z.lxor_0_l, ?Z.lxor_assoc. }
  rewrite IH, Z.shiftr_shiftr by lia. do 2 f_equal. lia.
Qed.

Lemma feed_number k reg x : uN (Z.of_nat k) x → foldl feed reg (low_bits k x) = Nat.iter k crc_bit (Z.lxor reg x).
Proof. intros Hx. rewrite feed_bits, Z.shiftr_div_pow2 by lia. unfold uN in Hx. by rewrite Z.div_small, Z.lxor_0_r. Qed.

Lemma crc_push_bits data reg : Forall u8 data → crc_push reg data crc_table = foldl feed reg (message_bits data).
Proof.
  intros Hd. rewrite crc_push_steps by done. unfold message_bits. revert reg. induction Hd as [|b data Hb _ IH]; intros reg; [done|].
  cbn [map concat foldl]. rewrite IH, foldl_app. by rewrite (feed_number 8 reg b).
Qed.

(** ** What it detects *)

Lemma low_bits_app n m x y : uN (Z.of_nat n) x → low_bits (n + m) (x + 2 ^ Z.of_nat n * y) = low_bits n x ++ low_bits m y.
Proof.
  revert x. induction n as [|n IH]; intros x Hx.
  { assert (x = 0) as -> by (unfold uN in Hx; cbn in Hx; lia). cbn. by destruct y. }
  rewrite Nat2Z.inj_succ, Z.pow_succ_r in * by lia. cbn [low_bits Nat.add app]. f_equal.
  - rewrite Z.odd_add, <- Z.mul_assoc, Z.odd_mul, andb_false_l. apply xorb_false_r.
  - rewrite <- (IH (Z.shiftr x 1)).
    + f_equal. rewrite !Z.shiftr_div_pow2 by done. change (2 ^ 1) with 2.
      rewrite <- Z.mul_assoc, (Z.mul_comm 2), Z.div_add by done. done.
    + rewrite Z.shiftr_div_pow2 by done. unfold uN in *. rewrite Z.pow_succ_r in Hx by lia.
      split; [apply Z.div_pos; lia|apply Z.div_lt_upper_bound; lia].
Qed.

Lemma message_number m : Forall u8 m → message_bits m = low_bits (8 * length m) (le_val m).
Proof.
  unfold message_bits. induction 1 as [|b m Hb _ IH]; [done|]. cbn [map concat le_val length]. rewrite IH.
  replace (8 * S (length m))%nat with (8 + 8 * length m)%nat by lia. by rewrite <- (low_bits_app 8).
Qed.

Lemma odd_shiftr x y : Z.odd x = Z.odd y → Z.shiftr x 1 = Z.shiftr y 1 → x = y.
Proof.
  rewrite !Z.shiftr_div_pow2 by done. change (2 ^ 1) with 2. intros H1 H2.
  rewrite (Z.div_mod x 2), (Z.div_mod y 2), H2, !Zmod_odd, H1 by done. done.
Qed.

(** The highest bit of the polynomial tells what fell out. *)
Lemma crc_bit_top x : u32 x → Z.testbit (crc_bit x) 31 = Z.odd x.
Proof.
  intros Hx. rewrite crc_bit_eq, Z.lxor_spec, Z.shiftr_spec by done. change (31 + 1) with 32.
  assert (Z.testbit x 32 = false) as ->.
  { rewrite <- (wrap_small 32 x Hx). unfold wrap. by apply Z.mod_pow2_bits_high. }
  by destruct (Z.odd x).
Qed.

Lemma crc_bit_inj x y : u32 x → u32 y → crc_bit x = crc_bit y → x = y.
Proof.
  intros Hx Hy H. assert (Z.odd x = Z.odd y) as Ho by (rewrite <- !crc_bit_top by done; by rewrite H).
  apply odd_shiftr; [done|]. rewrite !crc_bit_eq, Ho in H.
  apply (f_equal (Z.lxor (if Z.odd y then POLYNOMIAL else 0))) in H.
  by rewrite <- !Z.lxor_assoc, Z.lxor_nilpotent, !Z.lxor_0_l in H.
Qed.

Lemma crc_bit_u32 x : u32 x → u32 (crc_bit x).
Proof.
  intros Hx. rewrite crc_bit_eq. apply uN_lxor; [done| |by apply uN_shiftr]. by destruct (Z.odd x); apply u32_const.
Qed.

Lemma iter_u32 k x : u32 x → u32 (Nat.iter k crc_bit x).
Proof. intros Hx. induction k as [|k IH]; [done|]. rewrite Nat.iter_succ. by apply crc_bit_u32. Qed.

Lemma iter_inj k x y : u32 x → u32 y → Nat.iter k crc_bit x = Nat.iter k crc_bit y → x = y.
Proof.
  intros Hx Hy. induction k as [|k IH]; [done|]. rewrite !Nat.iter_succ. intros H. apply IH.
  by apply crc_bit_inj; [by apply iter_u32..|].
Qed.

Lemma lxor_cancel_l a x y : Z.lxor a x = Z.lxor a y → x = y.
Proof.
  intros H. apply (f_equal (Z.lxor a)) in H. by rewrite <- !Z.lxor_assoc, Z.lxor_nilpotent, !Z.lxor_0_l in H.
Qed.
Lemma lxor_cancel_r a x y : Z.lxor x a = Z.lxor y a → x = y.
Proof. rewrite !(Z.lxor_comm _ a). apply lxor_cancel_l. Qed.

Lemma u8_u32 b : u8 b → u32 b.
Proof. unfold uN. change (2 ^ 8) with 256. change (2 ^ 32) with 4294967296. lia. Qed.

Lemma crc_push_u32 data reg : u32 reg → Forall u8 data → u32 (crc_push reg data crc_table).
Proof.
  intros Hr Hd. rewrite crc_push_steps by done. revert reg Hr. induction Hd as [|b data Hb _ IH]; intros reg Hr; [done|].
  cbn [foldl]. apply IH, iter_u32, uN_lxor; [done|done|by apply u8_u32].
Qed.

(** The register after a message tells the one before. *)
Lemma crc_push_inj data x y :
  Forall u8 data → u32 x → u32 y → crc_push x data crc_table = crc_push y data crc_table → x = y.
Proof.
  intros Hd. rewrite !crc_push_steps by done. revert x y. induction Hd as [|b data Hb _ IH]; intros x y Hx Hy H; [done|].
  cbn [foldl] in H. pose proof (u8_u32 b Hb) as Hb32.
  apply IH in H; [|by apply iter_u32, uN_lxor..]. apply iter_inj in H; [|by apply uN_lxor..].
  by apply lxor_cancel_r in H.
Qed.

(** Four bytes decide the register. *)
Lemma crc_push_word m m' reg :
  Forall u8 m → Forall u8 m' → length m = length m' → (length m <= 4)%nat → u32 reg →
  crc_push reg m crc_table = crc_push reg m' crc_table → m = m'.
Proof.
  intros Hm Hm' Hl H4 Hr. rewrite !crc_push_bits, !message_number by done. rewrite <- Hl.
  assert (∀ k, Forall u8 k → length k = length m → uN (Z.of_nat (8 * length m)) (le_val k) ∧ u32 (le_val k)) as Hb.
  { intros k Hk Hkl. pose proof (le_val_bound k Hk) as Hb. unfold zlen in Hb. rewrite Hkl in Hb.
    change 256 with (2 ^ 8) in Hb. rewrite <- Z.pow_mul_r in Hb by lia. unfold uN.
    replace (Z.of_nat (8 * length m)) with (8 * Z.of_nat (length m)) by lia. split; [done|].
    pose proof (Z.pow_le_mono_r 2 (8 * Z.of_nat (length m)) 32 ltac:(lia) ltac:(lia)). lia. }
  destruct (Hb m Hm eq_refl) as [B1 B2]. destruct (Hb m' Hm' (eq_sym Hl)) as [B3 B4].
  rewrite !feed_number by done. intros H. apply iter_inj in H; [|by apply uN_lxor..].
  apply lxor_cancel_l in H. rewrite <- (le_bytes_le_val m Hm), <- (le_bytes_le_val m' Hm'), H, Hl. done.
Qed.

Lemma crc_push_app a b reg t : crc_push reg (a ++ b) t = crc_push (crc_push reg a t) b t.
Proof. apply foldl_app. Qed.

(** C36: The checksum computed by table is the CRC-32 of the bits of the message; computing
    it piece by piece gives the same; and it detects every corruption that is confined to
    four consecutive bytes. *)
Theorem crc32_spec data :
  Forall u8 data →
  crc32 data = crc32_by_bits data ∧
  (∀ a b, data = a ++ b → crc32 data = Z.lxor (crc_push (Z.lxor (crc32 a) 4294967295) b crc_table) 4294967295) ∧
  (∀ a m b m', data = a ++ m ++ b → Forall u8 m' → length m' = length m → (length m <= 4)%nat →
     m' ≠ m → crc32 (a ++ m' ++ b) ≠ crc32 data).
Proof.
  intros Hd. split_and!.
  - unfold crc32, crc32_by_bits. by rewrite crc_push_bits.
  - intros a b ->. unfold crc32. rewrite (Z.lxor_assoc (crc_push _ a _)), Z.lxor_nilpotent, Z.lxor_0_r.
    by rewrite crc_push_app.
  - intros a m b m' -> Hm' Hl H4 Hne Hc. apply Hne. clear Hne.
    apply Forall_app in Hd as [Ha [Hm Hb]%Forall_app]. unfold crc32 in Hc. apply lxor_cancel_r in Hc.
    rewrite !crc_push_app in Hc. assert (u32 4294967295) as H0 by by apply u32_const.
    apply crc_push_inj in Hc; [|done|by repeat apply crc_push_u32..].
    apply crc_push_word in Hc; try done; [by rewrite Hl|by apply crc_push_u32].
Qed.

(** The check value of CRC-32: that of the digits from 1 to 9. *)
Lemma crc32_spec_witness :
  crc32 [49; 50; 51; 52; 53; 54; 55; 56; 57] = 3421780262 ∧
  crc32 ([49; 50] ++ [99; 98; 97; 96] ++ [55; 56; 57]) ≠ crc32 [49; 50; 51; 52; 53; 54; 55; 56; 57].
Proof.
  split; [vm_compute; reflexivity|].
  assert (Forall u8 [49; 50; 51; 52; 53; 54; 55; 56; 57]) as H by (apply (bool_decide_unpack _); vm_compute; exact I).
  apply (proj2 (proj2 (crc32_spec _ H)) [49; 50] [51; 52; 53; 54] [55; 56; 57] [99; 98; 97; 96]);
    [reflexivity|apply (bool_decide_unpack _); vm_compute; exact I|reflexivity|cbn; lia|discriminate].
Defined.
