(* ===== verification/LiveStream.v ===== *)
(** The live stream of a replay: what has been published, cut into compressed chunks, and the
    files that bring a new viewer up to date (spectre-spectator, src/dotatv.rs). *)
From S2P Require Import Prelude Utf8 W3gs ReplayBody W3g Crc.

(** ** The stream *)

Definition CHUNK_SIZE : Z := 8192.
Definition GREETING : bytes := str "DTV1".
Definition MAX_FRAME : Z := CHUNK_SIZE.
Definition EMPTY_TIMESLOT : bytes := [31; 2; 0; 0; 0].
Definition RAW_TRIM_KEEP : Z := CHUNK_SIZE.

Record Chunk := mkChunk { compressed : bytes; valid_bytes : Z; chunk_crc : Z }.

Definition frame (c : Chunk) : bytes :=
  le_bytes 2 (wrap 16 (zlen (compressed c))) ++ le_bytes 2 (valid_bytes c) ++ le_bytes 4 (chunk_crc c) ++ compressed c.

Inductive DotaTvError := ChunkTooLarge (n : Z).

Record DotaTvStream := mkStream {
  ds_raw : bytes; ds_raw_base : Z; ds_frames : list Chunk; ds_frame_times : list Z; ds_framed_len : Z;
  ds_prologue : bytes; ds_prologue_end : Z; ds_war3_version : Z; ds_build : Z; ds_tft : bool;
  ds_crc_reg : Z; ds_crc_table : list Z }.

Definition new_stream (war3_version build : Z) (tft : bool) : DotaTvStream :=
  mkStream [] 0 [] [] 0 [] 0 war3_version build tft 4294967295 crc_table.

Definition for_126a : DotaTvStream := new_stream 26 6059 true.

Definition mark_prologue_end (s : DotaTvStream) : DotaTvStream :=
  s <| ds_prologue_end := ds_raw_base s + zlen (ds_raw s) |> <| ds_prologue := ds_raw s |>.

Definition mark_prologue_end_at (abs_offset : Z) (s : DotaTvStream) : DotaTvStream :=
  let last := Z.min (sat_sub abs_offset (ds_raw_base s)) (zlen (ds_raw s)) in
  s <| ds_prologue_end := abs_offset |> <| ds_prologue := take (Z.to_nat last) (ds_raw s) |>.

Definition push_body (b : bytes) (s : DotaTvStream) : DotaTvStream * result DotaTvError Z :=
  (s <| ds_raw ::= λ raw, raw ++ b |>, Ok 0).

Definition pending_len (s : DotaTvStream) : Z := zlen (ds_raw s) - ds_framed_len s.
Definition retained_len (s : DotaTvStream) : Z := zlen (ds_raw s).
Definition chunk_count (s : DotaTvStream) : Z := zlen (ds_frames s).

(** [slice::partition_point], of times that are in order. *)
Definition partition_point (p : Z → bool) (l : list Z) : Z :=
  match position (λ t, negb (p t)) l with Some i => Z.of_nat i | None => zlen l end.

(** [Instant::checked_sub] has no answer before the beginning of time. *)
Definition count_delayed (now delay : Z) (s : DotaTvStream) : Z :=
  if delay =? 0 then zlen (ds_frames s)
  else if now - delay <? 0 then 0
  else partition_point (λ t, t <=? now - delay) (ds_frame_times s).

(** Whether the chunk can be had, and in how many seconds; [None] is an index out of bounds. *)
Definition status (now start_index delay : Z) (s : DotaTvStream) : option (bool * Z) :=
  if (delay =? 0) || (zlen (ds_frames s) <=? start_index) then Some (true, 0)
  else if start_index <? count_delayed now delay s then Some (true, 0)
  else
    t ← ds_frame_times s !! Z.to_nat start_index;
    Some (false, sat_sub delay (sat_sub now t) / 1000000000).

Definition chunk (index : Z) (s : DotaTvStream) : option Chunk := ds_frames s !! Z.to_nat index.

Definition published_len (s : DotaTvStream) : Z := ds_raw_base s + ds_framed_len s.
Definition published_crc (s : DotaTvStream) : Z := Z.lxor (ds_crc_reg s) 4294967295.

(** The [while] of the bootstraps: empty time slots, as many as there is room for. *)
Fixpoint pad_slots (fuel : nat) (aligned : Z) (padded : bytes) : bytes :=
  match fuel with
  | O => padded
  | S fuel =>
    if zlen padded + zlen EMPTY_TIMESLOT <=? aligned
    then pad_slots fuel aligned (padded ++ EMPTY_TIMESLOT) else padded
  end.

(** [padded.resize(aligned, 0)]. *)
Definition resize (n : Z) (b : bytes) : bytes :=
  take (Z.to_nat n) b ++ replicate (Z.to_nat n - length b) 0.

Definition div_ceil (a b : Z) : Z := (a + b - 1) / b.

(** To whole blocks: time slots, then zeros. *)
Definition pad_to_block (b : bytes) (aligned : Z) : bytes :=
  resize aligned (pad_slots (Z.to_nat (aligned - zlen b)) aligned b).

(** The first chunk that begins at [prefix] or later. *)
Fixpoint resume_at (i covered prefix : Z) (frames : list Chunk) (d : Z) : Z :=
  match frames with
  | [] => d
  | f :: frames =>
    if prefix <=? covered then i else resume_at (i + 1) (covered + valid_bytes f) prefix frames d
  end.

Section stream.
Context `{Zlib}.

(** A turn of the [while] of [flush]. *)
Definition flush_turn (now : Z) (s : DotaTvStream) : option (DotaTvStream * result DotaTvError ()) :=
  let start_abs := ds_raw_base s + ds_framed_len s in
  let block_end := (start_abs / CHUNK_SIZE + 1) * CHUNK_SIZE in
  let end_abs := Z.min (Z.min (ds_raw_base s + zlen (ds_raw s)) block_end) (start_abs + MAX_FRAME) in
  let last := end_abs - ds_raw_base s in
  piece ← slice (ds_raw s) (ds_framed_len s) last;
  let c := zlib_encode piece in
  if CHUNK_SIZE <? zlen c then Some (s, Err (ChunkTooLarge (zlen c))) else
  Some (s <| ds_frames ::= λ fs, fs ++ [mkChunk c (wrap 16 (zlen piece)) (crc32 piece)] |>
          <| ds_frame_times ::= λ ts, ts ++ [now] |>
          <| ds_crc_reg := crc_push (ds_crc_reg s) piece (ds_crc_table s) |>
          <| ds_framed_len := last |>, Ok ()).

(** Every turn publishes at least a byte, which bounds the fuel. *)
Fixpoint flush_loop (fuel : nat) (now cut : Z) (s : DotaTvStream) : option (DotaTvStream * result DotaTvError Z) :=
  if ds_framed_len s <? zlen (ds_raw s) then
    match fuel with
    | O => None
    | S fuel =>
      '(s, r) ← flush_turn now s;
      match r with
      | Ok _ => flush_loop fuel now (cut + 1) s
      | Err e => Some (s, Err e)
      end
    end
  else Some (s, Ok cut).

Definition trim (s : DotaTvStream) : DotaTvStream :=
  if RAW_TRIM_KEEP <? ds_framed_len s then
    let framed := ds_framed_len s in
    s <| ds_raw ::= drop (Z.to_nat framed) |> <| ds_raw_base ::= λ b, b + framed |> <| ds_framed_len := 0 |>
  else s.

Definition flush (now : Z) (s : DotaTvStream) : option (DotaTvStream * result DotaTvError Z) :=
  '(s, r) ← flush_loop (Z.to_nat (pending_len s)) now 0 s;
  Some (match r with Ok cut => (trim s, Ok cut) | Err e => (s, Err e) end).

Variable crc32fast : bytes → Z.

Definition stream_writer (replay_length_ms : Z) (s : DotaTvStream) : W3gWriter :=
  set_replay_length replay_length_ms (new_writer (ds_war3_version s) (ds_build s) (ds_tft s)).

(** The file up to the end of the prologue, and the chunk to go on with. *)
Definition bootstrap (replay_length_ms : Z) (s : DotaTvStream) : option (bytes * Z) :=
  let prefix := Z.min (ds_prologue_end s) (published_len s) in
  let aligned := div_ceil prefix CHUNK_SIZE * CHUNK_SIZE in
  let padded := pad_to_block (take (Z.to_nat (Z.min prefix (zlen (ds_prologue s)))) (ds_prologue s)) aligned in
  file ← pack_chunk_aligned_declaring crc32fast (stream_writer replay_length_ms s) padded aligned;
  Some (file, wrap 32 (resume_at 0 0 prefix (ds_frames s) (zlen (ds_frames s)))).

(** The file of all that is published. *)
Definition bootstrap_full (replay_length_ms : Z) (s : DotaTvStream) : option (bytes * Z) :=
  raws ← mapM (λ f, zlib_decode (compressed f)) (ds_frames s);
  let body := concat raws in
  let aligned := div_ceil (zlen body) CHUNK_SIZE * CHUNK_SIZE in
  file ← pack_chunk_aligned_declaring crc32fast (stream_writer replay_length_ms s) (pad_to_block body aligned) aligned;
  Some (file, wrap 32 (zlen (ds_frames s))).
End stream.

(** ** The log it implements

    Abstractly, a stream is what has been published and what is waiting. *)

Record Log := mkLog { l_published : bytes; l_pending : bytes }.

Inductive log_op := LPush (b : bytes) | LFlush (now : Z).

(** Pushing adds to what is waiting; a flush publishes from its front. *)
Inductive log_step : Log → log_op → Log → Prop :=
| step_push pub pend b : log_step (mkLog pub pend) (LPush b) (mkLog pub (pend ++ b))
| step_flush pub out pend now : log_step (mkLog pub (out ++ pend)) (LFlush now) (mkLog (pub ++ out) pend).

(** What [flush] publishes next: up to the end of the block. *)
Definition next_piece (pub pend : bytes) : bytes := take (Z.to_nat (CHUNK_SIZE - zlen pub mod CHUNK_SIZE)) pend.

(** Pieces that begin at [at_] and stay inside the blocks. *)
Fixpoint in_blocks (at_ : Z) (pieces : list bytes) : Prop :=
  match pieces with
  | [] => True
  | p :: pieces => 0 < zlen p ∧ (at_ + zlen p - 1) / CHUNK_SIZE = at_ / CHUNK_SIZE ∧ in_blocks (at_ + zlen p) pieces
  end.

Section refinement.
Context `{ZL : ZlibLaws}.

Definition chunk_of (piece : bytes) : Chunk := mkChunk (zlib_encode piece) (wrap 16 (zlen piece)) (crc32 piece).

(** The stream holds the log, cut into these pieces. *)
Record represents (s : DotaTvStream) (l : Log) (pieces : list bytes) : Prop := {
  rp_raw : ∃ pre kept, l_published l = pre ++ kept ∧ ds_raw s = kept ++ l_pending l ∧
             ds_raw_base s = zlen pre ∧ ds_framed_len s = zlen kept;
  rp_frames : ds_frames s = map chunk_of pieces;
  rp_pieces : concat pieces = l_published l;
  rp_blocks : in_blocks 0 pieces;
  rp_fits : Forall (λ p, zlen (zlib_encode p) <= CHUNK_SIZE) pieces;
  rp_times : length (ds_frame_times s) = length pieces;
  rp_crc : ds_crc_reg s = crc_push 4294967295 (l_published l) crc_table ∧ ds_crc_table s = crc_table;
  rp_u8 : Forall u8 (l_published l) ∧ Forall u8 (l_pending l) }.

Lemma in_blocks_app a at_ b :
  in_blocks at_ (a ++ b) ↔ in_blocks at_ a ∧ in_blocks (at_ + zlen (concat a)) b.
Proof.
  revert at_. induction a as [|p a IH]; intros at_.
  - cbn. rewrite zlen_nil, Z.add_0_r. naive_solver.
  - cbn [app in_blocks concat]. rewrite IH, zlen_app, Z.add_assoc. tauto.
Qed.

Lemma represents_new v b t : represents (new_stream v b t) (mkLog [] []) [].
Proof. split; try done. by exists [], []. Qed.

Lemma represents_push s l pieces b :
  represents s l pieces → Forall u8 b →
  (push_body b s).2 = Ok 0 ∧ represents (push_body b s).1 (mkLog (l_published l) (l_pending l ++ b)) pieces.
Proof.
  intros [(pre & kept & H1 & H2 & H3 & H4) H5 H6 H7 Hfit H8 H9 [H10 H11]] Hb. split; [done|]. split; try done.
  - exists pre, kept. split_and!; try done. cbn. by rewrite H2, app_assoc.
  - split; [done|]. by apply Forall_app_2.
Qed.

Lemma represents_lengths s l pieces :
  represents s l pieces → published_len s = zlen (l_published l) ∧ pending_len s = zlen (l_pending l) ∧ 0 <= ds_framed_len s.
Proof.
  intros [(pre & kept & H1 & H2 & H3 & H4) _ _ _ _ _ _ _]. unfold published_len, pending_len.
  rewrite H1, H2, H3, H4, !zlen_app. pose proof (zlen_nonneg kept). lia.
Qed.

Lemma next_piece_spec pub pend :
  pend ≠ [] →
  0 < zlen (next_piece pub pend) <= CHUNK_SIZE ∧
  (zlen pub + zlen (next_piece pub pend) - 1) / CHUNK_SIZE = zlen pub / CHUNK_SIZE ∧
  zlen (next_piece pub pend) = Z.min (zlen pend) (CHUNK_SIZE - zlen pub mod CHUNK_SIZE).
Proof.
  intros Hp. assert (zlen (next_piece pub pend) = Z.min (zlen pend) (CHUNK_SIZE - zlen pub mod CHUNK_SIZE)) as E.
  { unfold next_piece. pose proof (Z.mod_pos_bound (zlen pub) CHUNK_SIZE ltac:(done)). unfold zlen in *. rewrite length_take. lia. }
  assert (0 < zlen pend) as H0 by (destruct pend; [done|]; rewrite zlen_cons; pose proof (zlen_nonneg pend); lia).
  pose proof (Z.mod_pos_bound (zlen pub) CHUNK_SIZE ltac:(done)). pose proof (Z.div_mod (zlen pub) CHUNK_SIZE ltac:(done)) as Hd.
  split_and!; [lia|lia| |done]. symmetry.
  apply (Z.div_unique_pos _ _ _ (zlen pub mod CHUNK_SIZE + zlen (next_piece pub pend) - 1)); lia.
Qed.

Lemma take_drop_length {A} n (l : list A) : take n l ++ drop (length (take n l)) l = l.
Proof.
  rewrite length_take. destruct (Nat.min_spec n (length l)) as [[_ ->]|[Hn ->]]; [apply take_drop|].
  by rewrite drop_all, app_nil_r, take_ge.
Qed.

(** A turn publishes the next piece, unless it does not compress. *)
Lemma flush_turn_spec now s l pieces :
  represents s l pieces → l_pending l ≠ [] →
  let piece := next_piece (l_published l) (l_pending l) in
  let rest := drop (length piece) (l_pending l) in
  l_pending l = piece ++ rest ∧
  if CHUNK_SIZE <? zlen (zlib_encode piece)
  then flush_turn now s = Some (s, Err (ChunkTooLarge (zlen (zlib_encode piece))))
  else ∃ s', flush_turn now s = Some (s', Ok ()) ∧
         represents s' (mkLog (l_published l ++ piece) rest) (pieces ++ [piece]) ∧
         ds_frame_times s' = ds_frame_times s ++ [now].
Proof.
  intros [(pre & kept & H1 & H2 & H3 & H4) H5 H6 H7 Hfit H8 [H9 H9'] [H10 H11]] Hp piece rest.
  destruct (next_piece_spec (l_published l) (l_pending l) Hp) as (Hl & Hb & He). fold piece in Hl, Hb, He.
  assert (l_pending l = piece ++ rest) as Hpr.
  { unfold rest, piece, next_piece. by rewrite take_drop_length. }
  split; [done|]. unfold flush_turn.
  set (last := Z.min _ _ - _). assert (last = zlen kept + zlen piece) as El.
  { unfold last. rewrite H2, H3, H4, zlen_app, He. replace (zlen pre + zlen kept) with (zlen (l_published l)) by (by rewrite H1, zlen_app).
    pose proof (Z.div_mod (zlen (l_published l)) CHUNK_SIZE ltac:(done)).
    pose proof (Z.mod_pos_bound (zlen (l_published l)) CHUNK_SIZE ltac:(done)).
    rewrite (Z.add_assoc (zlen pre)), <- (zlen_app pre kept), <- H1. unfold MAX_FRAME, CHUNK_SIZE in *.
    assert (zlen (l_published l) = zlen pre + zlen kept) by (by rewrite H1, zlen_app). lia. }
  assert (slice (ds_raw s) (ds_framed_len s) last = Some piece) as ->.
  { rewrite El, H2, H4, Hpr. apply slice_app. }
  cbn [mbind option_bind]. destruct (Z.ltb_spec CHUNK_SIZE (zlen (zlib_encode piece))) as [|Hc]; [done|]. eexists. split; [done|]. split; [|done].
  rewrite Hpr in H11. apply Forall_app in H11 as [Hu1 Hu2]. split; cbn.
  - exists pre, (kept ++ piece). split_and!; [by rewrite H1, app_assoc|by rewrite H2, Hpr, app_assoc|done|by rewrite zlen_app].
  - by rewrite H5, map_app.
  - rewrite concat_app, H6. cbn. by rewrite app_nil_r.
  - apply in_blocks_app. split; [done|]. rewrite H6. cbn [in_blocks]. rewrite Z.add_0_l. split_and!; [lia|done|done].
  - apply Forall_app_2; [done|]. by apply Forall_singleton.
  - rewrite !length_app. cbn. lia.
  - split; [|done]. rewrite H9, H9'. symmetry. apply crc_push_app.
  - split; [by apply Forall_app_2|done].
Qed.

(** [flush] publishes pieces until nothing waits or one does not compress. *)
Lemma flush_loop_spec now fuel : ∀ cut s l pieces,
  represents s l pieces → (length (l_pending l) <= fuel)%nat →
  ∃ s' r out rest new,
    flush_loop fuel now cut s = Some (s', r) ∧ l_pending l = out ++ rest ∧
    represents s' (mkLog (l_published l ++ out) rest) (pieces ++ new) ∧
    ds_frame_times s' = ds_frame_times s ++ replicate (length new) now ∧
    match r with
    | Ok c => rest = [] ∧ c = cut + zlen new
    | Err (ChunkTooLarge n) =>
      rest ≠ [] ∧ n = zlen (zlib_encode (next_piece (l_published l ++ out) rest)) ∧ CHUNK_SIZE < n
    end.
Proof.
  induction fuel as [|fuel IH]; intros cut s l pieces Hs Hf;
    pose proof (represents_lengths s l pieces Hs) as (_ & Hl & _); unfold pending_len in Hl; cbn [flush_loop].
  - destruct (l_pending l) as [|x p] eqn:E; [|cbn in Hf; lia]. rewrite zlen_nil in Hl.
    rewrite (proj2 (Z.ltb_ge _ _)) by lia. exists s, (Ok cut), [], [], []. rewrite !app_nil_r, <- E.
    destruct l; cbn in *. rewrite E. split_and!; try done; [by rewrite E in Hs|by rewrite zlen_nil, Z.add_0_r].
  - destruct (decide (l_pending l = [])) as [E|E].
    { rewrite E, zlen_nil in Hl. rewrite (proj2 (Z.ltb_ge _ _)) by lia. exists s, (Ok cut), [], [], [].
      rewrite !app_nil_r, E. destruct l; cbn in *. subst. split_and!; try done. by rewrite zlen_nil, Z.add_0_r. }
    assert (0 < zlen (l_pending l)) by (destruct (l_pending l); [done|]; zlen_lia).
    rewrite (proj2 (Z.ltb_lt _ _)) by lia.
    destruct (flush_turn_spec now s l pieces Hs E) as [Hpr Ht]. set (piece := next_piece _ _) in *.
    set (rest := drop (length piece) (l_pending l)) in *.
    destruct (next_piece_spec (l_published l) (l_pending l) E) as (Hpos & _ & _). fold piece in Hpos.
    destruct (Z.ltb_spec CHUNK_SIZE (zlen (zlib_encode piece))) as [Hbig|_].
    + rewrite Ht. cbn [mbind option_bind]. exists s, (Err (ChunkTooLarge (zlen (zlib_encode piece)))), [], (l_pending l), [].
      rewrite !app_nil_r. destruct l; cbn in *. split_and!; done.
    + destruct Ht as (s1 & -> & Hs1 & Htm). cbn [mbind option_bind].
      destruct (IH (cut + 1) s1 _ _ Hs1) as (s2 & r & out & rest' & new & H1 & H2 & H3 & H4 & H5).
      { cbn [l_pending]. unfold rest. rewrite length_drop. unfold zlen in Hpos. lia. }
      cbn [l_published l_pending] in *. exists s2, r, (piece ++ out), rest', (piece :: new).
      rewrite H1, Hpr, H2, !app_assoc. split_and!; try done.
      * by rewrite <- (app_assoc pieces) in H3.
      * by rewrite H4, Htm, <- app_assoc.
      * destruct r as [c|[n]]; [|done]. destruct H5 as [-> ->]. split; [done|]. rewrite zlen_cons. lia.
Qed.

Lemma represents_trim s l pieces : represents s l pieces → represents (trim s) l pieces ∧ ds_frame_times (trim s) = ds_frame_times s.
Proof.
  intros Hs. unfold trim. destruct (RAW_TRIM_KEEP <? ds_framed_len s); [|done].
  destruct Hs as [(pre & kept & H1 & H2 & H3 & H4) H5 H6 H7 Hfit H8 H9 H10]. split; [|done]. split; try done.
  exists (pre ++ kept), []. cbn. rewrite app_nil_r. split_and!; [done| |by rewrite H3, H4, zlen_app|done].
  rewrite H2, H4. unfold zlen. by rewrite Nat2Z.id, drop_app_length.
Qed.

Lemma flush_spec now s l pieces :
  represents s l pieces →
  ∃ s' r out rest new,
    flush now s = Some (s', r) ∧ l_pending l = out ++ rest ∧
    represents s' (mkLog (l_published l ++ out) rest) (pieces ++ new) ∧
    ds_frame_times s' = ds_frame_times s ++ replicate (length new) now ∧
    match r with
    | Ok c => rest = [] ∧ c = zlen new
    | Err (ChunkTooLarge n) =>
      rest ≠ [] ∧ n = zlen (zlib_encode (next_piece (l_published l ++ out) rest)) ∧ CHUNK_SIZE < n
    end.
Proof.
  intros Hs. destruct (represents_lengths s l pieces Hs) as (_ & Hl & _).
  destruct (flush_loop_spec now (Z.to_nat (pending_len s)) 0 s l pieces Hs) as (s' & r & out & rest & new & H1 & H2 & H3 & H4 & H5).
  { rewrite Hl. unfold zlen. lia. }
  unfold flush. rewrite H1. cbn [mbind option_bind]. destruct (represents_trim s' _ _ H3) as [Ht1 Ht2].
  destruct r as [c|e].
  - destruct H5 as [-> ->]. exists (trim s'), (Ok (0 + zlen new)), out, [], new. split_and!; try done; by rewrite Ht2.
  - by exists s', (Err e), out, rest, new.
Qed.

(** ** A run of the stream *)

Definition stream_op (s : DotaTvStream) (op : log_op) : option DotaTvStream :=
  match op with
  | LPush b => Some (push_body b s).1
  | LFlush now => fst <$> flush now s
  end.

Fixpoint stream_run (s : DotaTvStream) (ops : list log_op) : option DotaTvStream :=
  match ops with [] => Some s | op :: ops => s ← stream_op s op; stream_run s ops end.

Definition op_typed (op : log_op) : Prop := match op with LPush b => Forall u8 b | LFlush _ => True end.

Lemma stream_op_sim s l pieces op :
  represents s l pieces → op_typed op →
  ∃ s' l' new, stream_op s op = Some s' ∧ log_step l op l' ∧ represents s' l' (pieces ++ new).
Proof.
  intros Hs Ho. destruct op as [b|now].
  - destruct (represents_push s l pieces b Hs Ho) as [_ H1]. destruct l as [pub pend].
    exists (push_body b s).1, (mkLog pub (pend ++ b)), []. rewrite app_nil_r.
    split_and!; [done|constructor|done].
  - destruct (flush_spec now s l pieces Hs) as (s' & r & out & rest & new & H1 & H2 & H3 & _ & H5).
    exists s', (mkLog (l_published l ++ out) rest), new. cbn [stream_op]. rewrite H1. split_and!; [done| |done].
    destruct l as [pub pend]. cbn in *. subst. constructor.
Qed.

Inductive log_run : Log → list log_op → Log → Prop :=
| run_nil l : log_run l [] l
| run_cons l op l' ops l'' : log_step l op l' → log_run l' ops l'' → log_run l (op :: ops) l''.

Lemma stream_run_sim ops : ∀ s l pieces,
  represents s l pieces → Forall op_typed ops →
  ∃ s' l' new, stream_run s ops = Some s' ∧ log_run l ops l' ∧ represents s' l' (pieces ++ new).
Proof.
  induction ops as [|op ops IH]; intros s l pieces Hs Ho.
  - exists s, l, []. rewrite app_nil_r. split_and!; [done|constructor|done].
  - apply Forall_cons in Ho as [Ho Hops]. destruct (stream_op_sim s l pieces op Hs Ho) as (s1 & l1 & n1 & H1 & H2 & H3).
    destruct (IH s1 l1 _ H3 Hops) as (s2 & l2 & n2 & H4 & H5 & H6). exists s2, l2, (n1 ++ n2).
    cbn [stream_run]. rewrite H1. cbn [mbind option_bind]. rewrite app_assoc. split_and!; [done|by econstructor|done].
Qed.

Lemma stream_run_app ops ops' s : stream_run s (ops ++ ops') = s' ← stream_run s ops; stream_run s' ops'.
Proof.
  revert s. induction ops as [|op ops IH]; intros s; [done|]. cbn [app stream_run].
  destruct (stream_op s op) as [s1|]; [|done]. cbn [mbind option_bind]. apply IH.
Qed.

Lemma in_blocks_pieces at_ pieces : in_blocks at_ pieces → Forall (λ p, 0 < zlen p <= CHUNK_SIZE) pieces.
Proof.
  revert at_. induction pieces as [|p pieces IH]; intros at_ Hin; [constructor|]. destruct Hin as (H1 & H2 & H3).
  constructor; [|by eapply IH]. split; [done|].
  pose proof (Z.div_mod (at_ + zlen p - 1) CHUNK_SIZE ltac:(done)). pose proof (Z.div_mod at_ CHUNK_SIZE ltac:(done)).
  pose proof (Z.mod_pos_bound (at_ + zlen p - 1) CHUNK_SIZE ltac:(done)). pose proof (Z.mod_pos_bound at_ CHUNK_SIZE ltac:(done)). lia.
Qed.

Definition pushed (ops : list log_op) : bytes :=
  concat (omap (λ op, match op with LPush b => Some b | _ => None end) ops).

Lemma log_run_content l ops l' :
  log_run l ops l' → l_published l' ++ l_pending l' = (l_published l ++ l_pending l) ++ pushed ops.
Proof.
  induction 1 as [l|l op l1 ops l2 Hs _ IH]; [by rewrite app_nil_r|]. rewrite IH.
  destruct Hs; unfold pushed; cbn; by rewrite <- ?app_assoc.
Qed.

(** What those who read a chunk find in it. *)
Definition chunk_reads (c : Chunk) (p : bytes) : Prop :=
  zlib_decode (compressed c) = Some p ∧ valid_bytes c = zlen p ∧ chunk_crc c = crc32 p ∧ zlen (compressed c) <= CHUNK_SIZE.

Lemma represents_chunks s l pieces :
  represents s l pieces → Forall2 chunk_reads (ds_frames s) pieces.
Proof.
  intros [_ H5 H6 H7 Hfit _ _ [H10 _]]. rewrite H5. apply in_blocks_pieces in H7. rewrite <- H6 in H10. clear H5 H6.
  induction pieces as [|p pieces IH]; [constructor|]. apply Forall_cons in H7 as [Hp Hps]. apply Forall_cons in Hfit as [Hf Hfs].
  cbn in H10. apply Forall_app in H10 as [Hu Hus]. constructor; [|by apply IH].
  split_and!; [by apply zlib_lossless| |done|done]. cbn. apply wrap_small. unfold uN, CHUNK_SIZE in *. change (2 ^ 16) with 65536. lia.
Qed.

(** C33: The stream is an append-only log.  However pushes and flushes alternate, what has
    been published is cut into chunks that each decompress to their piece, carry its length
    and its CRC-32 and fit their frame; the pieces, none across an 8 KiB block, join to what
    was published, and with what waits to all that was pushed; no chunk ever changes; and
    the published length and checksum are those of the log.  A flush ends, and leaves
    nothing waiting unless a piece is larger compressed than a frame may be. *)
Theorem stream_refines_log v b t ops ops' :
  Forall op_typed (ops ++ ops') →
  ∃ s l s' l' pieces',
    stream_run (new_stream v b t) ops = Some s ∧ log_run (mkLog [] []) ops l ∧
    stream_run s ops' = Some s' ∧ log_run l ops' l' ∧
    ds_frames s `prefix_of` ds_frames s' ∧
    Forall2 chunk_reads (ds_frames s') pieces' ∧ in_blocks 0 pieces' ∧ concat pieces' = l_published l' ∧
    l_published l' ++ l_pending l' = pushed (ops ++ ops') ∧
    published_len s' = zlen (l_published l') ∧ published_crc s' = crc32 (l_published l') ∧
    pending_len s' = zlen (l_pending l') ∧
    (∀ now, ∃ s'' r, flush now s' = Some (s'', r) ∧
       match r with
       | Ok cut => pending_len s'' = 0 ∧ chunk_count s'' = chunk_count s' + cut
       | Err (ChunkTooLarge n) => CHUNK_SIZE < n
       end).
Proof.
  intros [Ho Ho']%Forall_app.
  destruct (stream_run_sim ops _ _ _ (represents_new v b t) Ho) as (s & l & p1 & H1 & H2 & H3).
  destruct (stream_run_sim ops' s l _ H3 Ho') as (s' & l' & p2 & H4 & H5 & H6).
  exists s, l, s', l', (p1 ++ p2). pose proof (represents_chunks s' l' _ H6) as Hc.
  destruct (represents_lengths s' l' _ H6) as (Hl1 & Hl2 & _). split_and!; try done.
  - destruct H3 as [_ -> _ _ _ _ _ _]. destruct H6 as [_ -> _ _ _ _ _ _]. cbn [app]. rewrite map_app. by eexists.
  - by destruct H6.
  - by destruct H6.
  - rewrite (log_run_content _ _ _ H5), (log_run_content _ _ _ H2). unfold pushed. by rewrite omap_app, concat_app.
  - destruct H6 as [_ _ _ _ _ _ [H7 _] _]. unfold published_crc. by rewrite H7.
  - intros now. destruct (flush_spec now s' l' _ H6) as (s'' & r & out & rest & new & F1 & F2 & F3 & _ & F5).
    exists s'', r. split; [done|]. destruct r as [c|[n]]; [|by destruct F5 as (_ & _ & ?)]. destruct F5 as [-> ->].
    destruct (represents_lengths s'' _ _ F3) as (_ & -> & _). split; [done|]. unfold chunk_count.
    destruct F3 as [_ -> _ _ _ _ _ _]. destruct H6 as [_ -> _ _ _ _ _ _]. by rewrite !zlen_map, (zlen_app _ new).
Qed.

(** ** Where the prologue ends *)

(** What a flush does not change, whatever it publishes. *)
Record keeps (s s' : DotaTvStream) : Prop := {
  k_raw : ds_raw s' = ds_raw s;
  k_base : ds_raw_base s' = ds_raw_base s;
  k_prologue : ds_prologue s' = ds_prologue s;
  k_end : ds_prologue_end s' = ds_prologue_end s;
  k_writer : ∀ ms, stream_writer ms s' = stream_writer ms s;
  k_framed : ds_framed_len s <= zlen (ds_raw s) → ds_framed_len s' <= zlen (ds_raw s') }.

Lemma flush_turn_keeps now s s' r : flush_turn now s = Some (s', r) → keeps s s'.
Proof.
  unfold flush_turn. destruct (slice _ _ _) as [piece|] eqn:E; [|done]. apply slice_bound in E. cbn [mbind option_bind].
  destruct (_ <? _); intros [= <- _]; by split.
Qed.

Lemma flush_loop_keeps now fuel : ∀ cut s s' r, flush_loop fuel now cut s = Some (s', r) → keeps s s'.
Proof.
  induction fuel as [|fuel IH]; intros cut s s' r; cbn [flush_loop]; destruct (_ <? _); try done; try (by intros [= <- _]; split).
  destruct (flush_turn now s) as [[s1 r1]|] eqn:E; [|done]. cbn [mbind option_bind]. apply flush_turn_keeps in E as [E1 E2 E3 E4 E5 E6].
  destruct r1; [|by intros [= <- _]; split]. intros Hl. apply IH in Hl as [L1 L2 L3 L4 L5 L6].
  split; [by rewrite L1|by rewrite L2|by rewrite L3|by rewrite L4|intros ms; by rewrite L5|auto].
Qed.

(** A flush keeps the prologue, and the bytes too while they are few. *)
Lemma flush_keeps now s s' r :
  flush now s = Some (s', r) →
  ds_prologue s' = ds_prologue s ∧ ds_prologue_end s' = ds_prologue_end s ∧ (∀ ms, stream_writer ms s' = stream_writer ms s) ∧
  (zlen (ds_raw s) <= CHUNK_SIZE → ds_framed_len s <= zlen (ds_raw s) → ds_raw s' = ds_raw s ∧ ds_raw_base s' = ds_raw_base s).
Proof.
  unfold flush. destruct (flush_loop _ _ _ s) as [[s1 r1]|] eqn:E; [|done]. cbn [mbind option_bind].
  apply flush_loop_keeps in E as [E1 E2 E3 E4 E5 E6]. destruct r1; intros [= <- _]; [|done]. unfold trim.
  destruct (Z.ltb_spec RAW_TRIM_KEEP (ds_framed_len s1)) as [Ht|]; [|done]. split_and!; try done.
  intros Hr Hf. specialize (E6 Hf). rewrite E1 in E6. unfold RAW_TRIM_KEEP in Ht. lia.
Qed.

(** [p] is the prologue of the stream, of which it remembers [q], and a chunk ends where it
    does. *)
Definition marked_as (q : bytes) (s : DotaTvStream) (pieces : list bytes) (p : bytes) : Prop :=
  ds_prologue s = q ∧ ds_prologue_end s = zlen p ∧ ∃ k, concat (take k pieces) = p.

Definition marked (s : DotaTvStream) (pieces : list bytes) (p : bytes) : Prop := marked_as p s pieces p.

(** The stream of a game that begins: the prologue is published, and then marked. *)
Definition open_stream (now : Z) (prologue : bytes) (s : DotaTvStream) : option DotaTvStream :=
  '(s, r) ← flush now (push_body prologue s).1;
  match r with Ok _ => Some (mark_prologue_end s) | Err _ => None end.

Lemma represents_mark s l pieces : represents s l pieces → represents (mark_prologue_end s) l pieces.
Proof. by intros []. Qed.

Lemma open_stream_spec now p v b t s :
  open_stream now p (new_stream v b t) = Some s → Forall u8 p → zlen p <= CHUNK_SIZE →
  ∃ pieces, represents s (mkLog p []) pieces ∧ marked s pieces p ∧ (∀ ms, stream_writer ms s = mkW3gWriter v b t ms).
Proof.
  intros Ho Hp Hl. unfold open_stream in Ho. destruct (represents_push _ _ _ p (represents_new v b t) Hp) as [_ Hs]. cbn [l_published l_pending app] in Hs.
  set (s0 := (push_body p (new_stream v b t)).1) in *.
  destruct (flush_spec now s0 _ _ Hs) as (s1 & r & out & rest & new & H1 & H2 & H3 & _ & H5). rewrite H1 in Ho.
  cbn [mbind option_bind] in Ho. destruct r as [c|]; [|done]. injection Ho as <-. destruct H5 as [-> _].
  cbn in H2. rewrite app_nil_r in H2. subst out. cbn in H3. exists new. split; [by apply represents_mark|].
  apply flush_keeps in H1 as (_ & _ & Hw & Hr). destruct Hr as [Hr1 Hr2]; [done|cbn; apply zlen_nonneg|].
  split; [|done]. unfold marked, marked_as. cbn. rewrite Hr1, Hr2. split_and!; [done|done|]. exists (length new).
  rewrite firstn_all. by destruct H3.
Qed.

Lemma take_min_length {A} k (l : list A) : take k l = take (k `min` length l) l.
Proof.
  destruct (Nat.min_spec k (length l)) as [[_ ->]|[Hn ->]]; [done|]. by rewrite firstn_all, take_ge.
Qed.

Lemma marked_extends q s s' pieces new p :
  marked_as q s pieces p → ds_prologue s' = ds_prologue s → ds_prologue_end s' = ds_prologue_end s →
  marked_as q s' (pieces ++ new) p.
Proof.
  intros (M1 & M2 & k & Hk) K1 K2. unfold marked_as. rewrite K1, K2. split_and!; [done|done|].
  exists (k `min` length pieces)%nat. rewrite <- Hk, take_app_le by lia. by rewrite <- take_min_length.
Qed.

Lemma stream_op_marked s l pieces op s' p :
  represents s l pieces → op_typed op → stream_op s op = Some s' → marked s pieces p →
  ∃ l' new, represents s' l' (pieces ++ new) ∧ log_step l op l' ∧ marked s' (pieces ++ new) p ∧
    (∀ ms, stream_writer ms s' = stream_writer ms s).
Proof.
  intros Hs Ho Hop Hm. destruct (stream_op_sim s l pieces op Hs Ho) as (s1 & l1 & new & E1 & E2 & E3).
  rewrite E1 in Hop. injection Hop as ->. exists l1, new. split; [done|]. split; [done|].
  assert (ds_prologue s' = ds_prologue s ∧ ds_prologue_end s' = ds_prologue_end s ∧ (∀ ms, stream_writer ms s' = stream_writer ms s)) as (K1 & K2 & K3).
  { destruct op as [b|now]; cbn in E1; [by injection E1 as <-|].
    destruct (flush now s) as [[s2 r]|] eqn:E; [|done]. injection E1 as <-. by apply flush_keeps in E as (? & ? & ? & _). }
  split; [|done]. by eapply marked_extends.
Qed.

Lemma stream_run_marked ops p : ∀ s l pieces s',
  represents s l pieces → Forall op_typed ops → stream_run s ops = Some s' → marked s pieces p →
  ∃ l' new, represents s' l' (pieces ++ new) ∧ log_run l ops l' ∧ marked s' (pieces ++ new) p ∧
    (∀ ms, stream_writer ms s' = stream_writer ms s).
Proof.
  induction ops as [|op ops IH]; intros s l pieces s' Hs Ho Hr Hm; cbn [stream_run] in Hr.
  - injection Hr as ->. exists l, []. rewrite app_nil_r. split_and!; try done. constructor.
  - apply Forall_cons in Ho as [Ho Hops]. destruct (stream_op s op) as [s1|] eqn:E; [|done]. cbn [mbind option_bind] in Hr.
    destruct (stream_op_marked s l pieces op s1 p Hs Ho E Hm) as (l1 & n1 & A1 & A2 & A3 & A4).
    destruct (IH s1 l1 _ s' A1 Hops Hr A3) as (l2 & n2 & B1 & B2 & B3 & B4). exists l2, (n1 ++ n2). rewrite app_assoc.
    split_and!; [done|by econstructor|done|]. intros ms. by rewrite B4.
Qed.

(** ** Joining late *)

Definition padding (n : Z) : bytes :=
  concat (replicate (Z.to_nat (n / 5)) (block_bytes (TimeSlot 0 []))) ++ replicate (Z.to_nat (n mod 5)) 0.

Lemma pad_slots_spec aligned fuel : ∀ b,
  zlen b <= aligned → (Z.to_nat ((aligned - zlen b) / 5) <= fuel)%nat →
  pad_slots fuel aligned b = b ++ concat (replicate (Z.to_nat ((aligned - zlen b) / 5)) EMPTY_TIMESLOT).
Proof.
  induction fuel as [|fuel IH]; intros b Hb Hf; cbn [pad_slots].
  { assert (Z.to_nat ((aligned - zlen b) / 5) = 0%nat) as -> by lia. cbn. by rewrite app_nil_r. }
  change (zlen EMPTY_TIMESLOT) with 5. destruct (Z.leb_spec (zlen b + 5) aligned).
  - assert (zlen (b ++ EMPTY_TIMESLOT) = zlen b + 5) as El by (by rewrite zlen_app).
    assert ((aligned - zlen b) / 5 = (aligned - (zlen b + 5)) / 5 + 1) as Ed.
    { rewrite <- Z.div_add by done. f_equal. lia. }
    assert (0 <= (aligned - (zlen b + 5)) / 5) by (apply Z.div_pos; lia).
    rewrite IH by (rewrite El; lia). rewrite El, Ed, Z2Nat.inj_add, Nat.add_1_r by lia.
    cbn [replicate concat]. by rewrite <- app_assoc.
  - rewrite Z.div_small by lia. cbn. by rewrite app_nil_r.
Qed.

Lemma zlen_padding n : 0 <= n → zlen (padding n) = n.
Proof.
  intros Hn. unfold padding. rewrite zlen_app, zlen_replicate.
  assert (∀ k, zlen (concat (replicate k (block_bytes (TimeSlot 0 [])))) = 5 * Z.of_nat k) as ->.
  { induction k as [|k IH]; [done|]. cbn [replicate concat]. rewrite zlen_app, IH. change (zlen (block_bytes _)) with 5. lia. }
  pose proof (Z.div_mod n 5 ltac:(done)). pose proof (Z.mod_pos_bound n 5 ltac:(done)). pose proof (Z.div_pos n 5 Hn ltac:(done)). lia.
Qed.

Lemma pad_to_block_spec b aligned : zlen b <= aligned → pad_to_block b aligned = b ++ padding (aligned - zlen b).
Proof.
  intros Hb. unfold pad_to_block. set (n := aligned - zlen b).
  assert (n / 5 <= n) by (apply Z.div_le_upper_bound; lia).
  rewrite pad_slots_spec by (unfold n in *; lia). change (block_bytes (TimeSlot 0 [])) with EMPTY_TIMESLOT || idtac.
  pose proof (zlen_padding n ltac:(unfold n; lia)) as Hp. unfold padding in *.
  change (block_bytes (TimeSlot 0 [])) with EMPTY_TIMESLOT in *. fold n. set (slots := concat _) in *.
  rewrite zlen_app, zlen_replicate in Hp. unfold resize. rewrite take_ge, <- app_assoc.
  - do 3 f_equal. unfold zlen in *. rewrite length_app. lia.
  - unfold zlen in *. rewrite length_app. lia.
Qed.

Lemma padding_u8 n : Forall u8 (padding n).
Proof.
  apply Forall_app_2; [|apply replicate_u8]. apply Forall_concat, Forall_replicate. apply (bool_decide_unpack _). vm_compute. exact I.
Qed.

Lemma resume_at_spec pieces : ∀ k i c,
  Forall (λ p, 0 < zlen p <= CHUNK_SIZE) pieces → (k <= length pieces)%nat →
  resume_at i c (c + zlen (concat (take k pieces))) (map chunk_of pieces) (i + zlen pieces) = i + Z.of_nat k.
Proof.
  induction pieces as [|p pieces IH]; intros k i c Hp Hk.
  { cbn in *. assert (k = 0%nat) as -> by lia. done. }
  apply Forall_cons in Hp as [Hp Hps]. destruct k as [|k]; cbn [take concat map resume_at].
  { rewrite zlen_nil, Z.add_0_r, (proj2 (Z.leb_le _ _)) by lia. lia. }
  rewrite zlen_app, (proj2 (Z.leb_gt _ _)) by (pose proof (zlen_nonneg (concat (take k pieces))); lia).
  cbn [chunk_of valid_bytes]. rewrite wrap_small; cycle 1.
  { unfold uN, CHUNK_SIZE in *. change (2 ^ 16) with 65536. lia. }
  rewrite zlen_cons, Z.add_assoc, Z.add_assoc, IH by (done || (cbn in Hk; lia)). lia.
Qed.

Lemma div_ceil_spec a : 0 <= a → a <= div_ceil a CHUNK_SIZE * CHUNK_SIZE < a + CHUNK_SIZE.
Proof.
  intros Ha. unfold div_ceil, CHUNK_SIZE. pose proof (Z.div_mod (a + 8192 - 1) 8192 ltac:(done)).
  pose proof (Z.mod_pos_bound (a + 8192 - 1) 8192 ltac:(done)). lia.
Qed.

Variable crc32fast : bytes → Z.

(** What a stream remembers of a prologue that was flushed before it was marked: all of it,
    or nothing where the flush dropped it from the buffer. *)
Definition snapshot (p : bytes) : bytes := if CHUNK_SIZE <? zlen p then [] else p.

Lemma flush_first now p s s' c new :
  represents s (mkLog [] p) [] → flush now s = Some (s', Ok c) → represents s' (mkLog p []) new →
  ds_raw s' = snapshot p ∧ ds_raw_base s' + zlen (ds_raw s') = zlen p.
Proof.
  intros [(pre & kept & B1 & B2 & B3 & B4) _ _ _ _ _ _ _] Hf [(pre' & kept' & C1 & C2 & C3 & C4) _ _ _ _ _ _ _]. cbn in B1, B2, C1, C2.
  symmetry in B1. apply app_eq_nil in B1 as [-> ->]. cbn in B2. rewrite app_nil_r in C2.
  rewrite C3, C2, C1, zlen_app. split; [|done]. unfold flush in Hf.
  destruct (flush_loop _ _ _ s) as [[s1 r1]|] eqn:E; [|done]. cbn [mbind option_bind] in Hf. destruct r1 as [c1|]; [|done].
  injection Hf as <- _. apply flush_loop_keeps in E as [E1 E2 _ _ _ _]. rewrite B2 in E1. cbn in B3. rewrite B3 in E2.
  revert C2 C3 C4. unfold trim, snapshot. pose proof (zlen_nonneg kept') as Hk. pose proof (zlen_nonneg pre') as Hpr.
  assert (∀ l : bytes, zlen l = 0 → l = []) as Hnil.
  { intros l Hl. destruct l; [done|]. rewrite zlen_cons in Hl. pose proof (zlen_nonneg l). lia. }
  rewrite zlen_app.
  destruct (Z.ltb_spec RAW_TRIM_KEEP (ds_framed_len s1)) as [Ht|Ht]; cbn; unfold const; rewrite ?E1, ?E2; intros C2 C3 C4.
  - rewrite (Hnil kept'), app_nil_r by done. unfold RAW_TRIM_KEEP in Ht. rewrite zlen_nil, (proj2 (Z.ltb_lt _ _)); [done|]. rewrite zlen_nil in C3. lia.
  - rewrite zlen_nil in C3. rewrite (Hnil pre'), zlen_nil by done. unfold RAW_TRIM_KEEP in Ht. rewrite (proj2 (Z.ltb_ge _ _)); [done|]. lia.
Qed.

(** A file of a body and its padding, in blocks for [n] bytes, is written and read. *)
Lemma padded_file w b n :
  writer_ok w → Forall u8 b → zlen b <= n < 2 ^ 31 →
  let aligned := div_ceil n CHUNK_SIZE * CHUNK_SIZE in
  ∃ file, pack_chunk_aligned_declaring crc32fast w (pad_to_block b aligned) aligned = Some file ∧
    read_w3g crc32fast file = Some (mkW3gFile w (b ++ padding (aligned - zlen b))).
Proof.
  intros Hw Hb Hl aligned. pose proof (zlen_nonneg b) as H0. pose proof (div_ceil_spec n ltac:(lia)) as Ha. fold aligned in Ha.
  change (2 ^ 31) with 2147483648 in Hl. unfold CHUNK_SIZE in Ha.
  rewrite pad_to_block_spec by lia. assert (zlen (b ++ padding (aligned - zlen b)) = aligned) as El.
  { rewrite zlen_app, zlen_padding; lia. }
  assert (Forall u8 (b ++ padding (aligned - zlen b))) as Hu by (apply Forall_app_2; [done|apply padding_u8]).
  destruct (pack_chunk_aligned_declaring crc32fast w (b ++ padding (aligned - zlen b)) aligned) as [file|] eqn:E; cycle 1.
  { exfalso. revert E. unfold pack_chunk_aligned_declaring. rewrite El, Z.ltb_irrefl. unfold aligned, BLOCK_SIZE, CHUNK_SIZE.
    by rewrite Z.mod_mul. }
  exists file. split; [done|]. rewrite (read_aligned crc32fast w (b ++ padding (aligned - zlen b)) aligned file); try done; try lia.
  - rewrite take_ge; [done|]. apply Nat2Z.inj_le. change (zlen (b ++ padding (aligned - zlen b)) <= Z.of_nat (Z.to_nat aligned)). lia.
  - rewrite El. unfold uN. change (2 ^ 32) with 4294967296. lia.
  - revert E. unfold pack_chunk_aligned_declaring. destruct (negb _); [done|]. destruct (_ <? _); [done|]. intros [= <-].
    pose proof (emit_bound crc32fast w _ aligned (div_ceil n CHUNK_SIZE) Hu El) as Hs.
    pose proof (zlen_nonneg (emit crc32fast w (b ++ padding (aligned - zlen b)) aligned)).
    unfold uN, HEADER_SIZE in *. change (2 ^ 32) with 4294967296. unfold aligned, CHUNK_SIZE in *. lia.
Qed.

Lemma decode_frames fs pieces : Forall2 chunk_reads fs pieces → mapM (λ f, zlib_decode (compressed f)) fs = Some pieces.
Proof. intros Hf. apply mapM_Some. eapply Forall2_impl; [exact Hf|]. by intros f p []. Qed.

(** Up to the next block. *)
Definition to_block (n : Z) : Z := div_ceil n CHUNK_SIZE * CHUNK_SIZE - n.

(** The file for new viewers, of what the stream remembers of its prologue, and the chunks
    that follow. *)
Lemma bootstrap_reads_as q s l pieces p ms :
  represents s l pieces → marked_as q s pieces p → Forall u8 q → zlen q <= zlen p < 2 ^ 31 →
  writer_ok (stream_writer ms s) → chunk_count s < 2 ^ 32 →
  ∃ file resume, bootstrap crc32fast ms s = Some (file, resume) ∧
    read_w3g crc32fast file
    = Some (mkW3gFile (stream_writer ms s) (q ++ padding (zlen p + to_block (zlen p) - zlen q))) ∧
    ∃ later, Forall2 chunk_reads (drop (Z.to_nat resume) (ds_frames s)) later ∧ l_published l = p ++ concat later.
Proof.
  intros Hs (M1 & M2 & k & Hk) Hq Hp Hw Hc. destruct (represents_lengths s l pieces Hs) as (Hl & _).
  pose proof (represents_chunks s l pieces Hs) as Hch. destruct Hs as [_ Hf Hpc Hbl _ _ _ _].
  rewrite (take_min_length k pieces) in Hk. set (j := Nat.min k (length pieces)) in *. assert (j <= length pieces)%nat as Hj by lia.
  assert (l_published l = p ++ concat (drop j pieces)) as Hpub.
  { rewrite <- Hpc, <- Hk, <- concat_app, take_drop. done. }
  assert (Z.min (ds_prologue_end s) (published_len s) = zlen p) as Hpre.
  { rewrite M2, Hl, Hpub, zlen_app. pose proof (zlen_nonneg (concat (drop j pieces))). lia. }
  unfold bootstrap. rewrite Hpre, M1, take_ge by (unfold zlen in *; lia).
  destruct (padded_file (stream_writer ms s) q (zlen p) Hw Hq Hp) as (file & -> & Hr).
  cbn [mbind option_bind]. eexists _, _. split; [done|]. split.
  { rewrite Hr. unfold to_block. do 4 f_equal. lia. }
  unfold chunk_count in Hc. rewrite Hf, zlen_map in *.
  pose proof (resume_at_spec pieces j 0 0 (in_blocks_pieces 0 pieces Hbl) Hj) as Hres.
  rewrite !Z.add_0_l, Hk in Hres. rewrite Hres, wrap_small by (unfold uN, zlen in *; lia).
  rewrite Nat2Z.id. exists (drop j pieces). split; [by apply Forall2_drop|done].
Qed.

Lemma bootstrap_reads s l pieces p ms :
  represents s l pieces → marked s pieces p → Forall u8 p → zlen p < 2 ^ 31 → writer_ok (stream_writer ms s) →
  chunk_count s < 2 ^ 32 →
  ∃ file resume, bootstrap crc32fast ms s = Some (file, resume) ∧
    read_w3g crc32fast file = Some (mkW3gFile (stream_writer ms s) (p ++ padding (to_block (zlen p)))) ∧
    ∃ later, Forall2 chunk_reads (drop (Z.to_nat resume) (ds_frames s)) later ∧ l_published l = p ++ concat later.
Proof.
  intros Hs Hm Hp Hl Hw Hc. destruct (bootstrap_reads_as p s l pieces p ms Hs Hm Hp ltac:(lia) Hw Hc) as (file & resume & E1 & E2 & E3).
  exists file, resume. split_and!; [done| |done]. rewrite E2. do 4 f_equal. lia.
Qed.

Lemma bootstrap_full_reads s l pieces ms :
  represents s l pieces → writer_ok (stream_writer ms s) → chunk_count s < 2 ^ 32 → zlen (l_published l) < 2 ^ 31 →
  ∃ file, bootstrap_full crc32fast ms s = Some (file, chunk_count s) ∧
    read_w3g crc32fast file
    = Some (mkW3gFile (stream_writer ms s) (l_published l ++ padding (to_block (zlen (l_published l))))).
Proof.
  intros Hs Hw Hc Hl. unfold bootstrap_full. rewrite (decode_frames _ _ (represents_chunks s l pieces Hs)). cbn [mbind option_bind].
  destruct Hs as [_ _ -> _ _ _ _ [Hu _]]. destruct (padded_file (stream_writer ms s) (l_published l) (zlen (l_published l)) Hw Hu ltac:(lia)) as (file & -> & Hr).
  exists file. cbn [mbind option_bind]. unfold chunk_count in *. rewrite wrap_small; [done|]. unfold uN. pose proof (zlen_nonneg (ds_frames s)). lia.
Qed.

(** A viewer who joins late misses nothing.  Once the prologue of a game is published
    and marked, the file for new viewers is at any time a replay that reads as the prologue,
    filled up to a block by empty time slots and a few zeros, and the chunks from the index
    that comes with it are all that was published after the prologue, each once and in
    order; and the file of the whole game reads as all that was published. *)
Theorem late_viewer_spec now p v b t s0 ops s ms :
  open_stream now p (new_stream v b t) = Some s0 → Forall u8 p → zlen p <= CHUNK_SIZE →
  Forall op_typed ops → stream_run s0 ops = Some s →
  writer_ok (mkW3gWriter v b t ms) → chunk_count s < 2 ^ 32 →
  ∃ file resume later l,
    bootstrap crc32fast ms s = Some (file, resume) ∧
    read_w3g crc32fast file = Some (mkW3gFile (mkW3gWriter v b t ms) (p ++ padding (to_block (zlen p)))) ∧
    Forall2 chunk_reads (drop (Z.to_nat resume) (ds_frames s)) later ∧
    l_published l = p ++ concat later ∧ log_run (mkLog p []) ops l ∧ l_published l ++ l_pending l = p ++ pushed ops ∧
    (zlen (l_published l) < 2 ^ 31 →
     ∃ full, bootstrap_full crc32fast ms s = Some (full, chunk_count s) ∧
       read_w3g crc32fast full
       = Some (mkW3gFile (mkW3gWriter v b t ms) (l_published l ++ padding (to_block (zlen (l_published l)))))).
Proof.
  intros Ho Hp Hl Hops Hr Hw Hc. destruct (open_stream_spec now p v b t s0 Ho Hp Hl) as (pieces & Hs0 & Hm0 & Hw0).
  destruct (stream_run_marked ops p s0 _ pieces s Hs0 Hops Hr Hm0) as (l & new & Hs & Hrun & Hm & Hws).
  rewrite <- Hw0, <- Hws in Hw |- *.
  destruct (bootstrap_reads s l _ p ms Hs Hm Hp ltac:(unfold CHUNK_SIZE in Hl; lia) Hw Hc) as (file & resume & E1 & E2 & later & E3 & E4).
  exists file, resume, later, l. split_and!; try done.
  - pose proof (log_run_content _ _ _ Hrun) as E. cbn in E. by rewrite app_nil_r in E.
  - by apply (bootstrap_full_reads s l (pieces ++ new)).
Qed.

(** ** A block that does not compress *)

(** What waits fills its block, and the rest of the block does not compress. *)
Record stuck (s : DotaTvStream) (n : Z) : Prop := {
  st_log : ∃ l pieces, represents s l pieces ∧
    CHUNK_SIZE - zlen (l_published l) mod CHUNK_SIZE <= zlen (l_pending l) ∧
    zlen (zlib_encode (next_piece (l_published l) (l_pending l))) = n;
  st_big : CHUNK_SIZE < n }.

Lemma stuck_flush s n now : stuck s n → flush now s = Some (s, Err (ChunkTooLarge n)).
Proof.
  intros [(l & pieces & Hs & Hfull & Hn) Hbig]. destruct (represents_lengths s l pieces Hs) as (_ & Hl & _).
  pose proof (Z.mod_pos_bound (zlen (l_published l)) CHUNK_SIZE ltac:(done)).
  assert (l_pending l ≠ []) as Hne by (intros E; rewrite E, zlen_nil in *; lia).
  destruct (flush_turn_spec now s l pieces Hs Hne) as [_ Ht]. rewrite Hn, (proj2 (Z.ltb_lt _ _) Hbig) in Ht.
  unfold flush. rewrite Hl. assert (0 < zlen (l_pending l)) as Hpos by lia.
  destruct (Z.to_nat (zlen (l_pending l))) as [|fuel] eqn:E; [lia|]. cbn [flush_loop].
  unfold pending_len in Hl. rewrite (proj2 (Z.ltb_lt _ _)) by lia. by rewrite Ht.
Qed.

Lemma stuck_op s n op : stuck s n → op_typed op → ∃ s', stream_op s op = Some s' ∧ stuck s' n ∧ ds_frames s' = ds_frames s.
Proof.
  intros Hst Ho. destruct op as [b|now]; [|exists s; cbn; by rewrite (stuck_flush s n now Hst)].
  destruct Hst as [(l & pieces & Hs & Hfull & Hn) Hbig]. exists (push_body b s).1. split; [done|]. split; [|done].
  split; [|done]. exists (mkLog (l_published l) (l_pending l ++ b)), pieces. destruct (represents_push s l pieces b Hs Ho) as [_ Hs'].
  split; [done|]. cbn [l_published l_pending]. rewrite zlen_app. pose proof (zlen_nonneg b). split; [lia|].
  rewrite <- Hn. unfold next_piece. rewrite take_app_le; [done|]. unfold zlen in *. lia.
Qed.

Lemma stuck_run n ops : ∀ s, stuck s n → Forall op_typed ops → ∃ s', stream_run s ops = Some s' ∧ stuck s' n ∧ ds_frames s' = ds_frames s.
Proof.
  induction ops as [|op ops IH]; intros s Hs Ho; [by exists s|]. apply Forall_cons in Ho as [Ho Hops].
  destruct (stuck_op s n op Hs Ho) as (s1 & E1 & H1 & F1). destruct (IH s1 H1 Hops) as (s2 & E2 & H2 & F2).
  exists s2. cbn [stream_run]. rewrite E1. cbn [mbind option_bind]. by rewrite F2.
Qed.

(** A full block that does not compress stops the stream for good: once a flush fails on
    one, whatever is pushed later, nothing more is published and every flush fails alike. *)
Theorem incompressible_block_stops_stream v b t ops s now s' n ops' :
  stream_run (new_stream v b t) ops = Some s → Forall op_typed ops →
  flush now s = Some (s', Err (ChunkTooLarge n)) →
  CHUNK_SIZE - published_len s' mod CHUNK_SIZE <= pending_len s' →
  Forall op_typed ops' →
  ∃ s'', stream_run s' ops' = Some s'' ∧ ds_frames s'' = ds_frames s' ∧
    ∀ now', flush now' s'' = Some (s'', Err (ChunkTooLarge n)).
Proof.
  intros Hr Ho Hf Hfull Ho'. destruct (stream_run_sim ops _ _ _ (represents_new v b t) Ho) as (s0 & l & new & E & _ & Hs).
  rewrite E in Hr. injection Hr as ->.
  destruct (flush_spec now s l _ Hs) as (s1 & r & out & rest & more & F1 & F2 & F3 & _ & F5). rewrite F1 in Hf. injection Hf as -> ->.
  destruct (represents_lengths s' _ _ F3) as (Hl1 & Hl2 & _). cbn [l_published l_pending] in *. destruct F5 as (Hne & -> & Hbig).
  rewrite Hl1, Hl2 in Hfull. destruct (stuck_run (zlen (zlib_encode (next_piece (l_published l ++ out) rest))) ops' s') as (s'' & R1 & R2 & R3); [|done|].
  - split; [|done]. by eexists _, _.
  - exists s''. split_and!; [done|done|]. intros now'. by apply stuck_flush.
Qed.
End refinement.

(** ** The theorems at work *)

Definition example_ops : list log_op := [LPush [1; 2; 3]; LFlush 5; LPush [4]].

Lemma stream_refines_log_witness :
  ∃ s s', @stream_run stored (new_stream 26 6059 true) example_ops = Some s ∧
    @stream_run stored s [LFlush 7] = Some s' ∧ ds_frames s `prefix_of` ds_frames s' ∧
    published_len s' + pending_len s' = 4.
Proof.
  destruct (@stream_refines_log stored stored_laws 26 6059 true example_ops [LFlush 7])
    as (s & l & s' & l' & ps & H1 & _ & H2 & _ & H3 & _ & _ & _ & H4 & H5 & _ & H6 & _).
  { apply Forall_app_2; repeat constructor; vm_compute; congruence. }
  exists s, s'. split; [done|]. split; [done|]. split; [done|]. rewrite H5, H6, <- zlen_app, H4. reflexivity.
Defined.

Lemma late_viewer_spec_witness :
  ∃ s0 file resume l, @open_stream stored 1 [9; 9] (new_stream 26 6059 true) = Some s0 ∧
    (s ← @stream_run stored s0 example_ops; @bootstrap stored zlen 7 s) = Some (file, resume) ∧
    l_published l ++ l_pending l = [9; 9; 1; 2; 3; 4].
Proof.
  destruct (@open_stream stored 1 [9; 9] (new_stream 26 6059 true)) as [s0|] eqn:E; [|by vm_compute in E].
  destruct (@stream_run stored s0 example_ops) as [s|] eqn:Es; cycle 1.
  { vm_compute in E. injection E as <-. by vm_compute in Es. }
  assert (chunk_count s < 2 ^ 32) as Hc.
  { vm_compute in E. injection E as <-. vm_compute in Es. injection Es as <-. reflexivity. }
  destruct (@late_viewer_spec stored stored_laws zlen 1 [9; 9] 26 6059 true s0 example_ops s 7)
    as (file & resume & later & l & H1 & _ & _ & _ & _ & H2 & _); try done;
    try (apply (bool_decide_unpack _); vm_compute; exact I).
  { repeat constructor; vm_compute; congruence. }
  exists s0, file, resume, l. split; [done|]. split; [by rewrite Es|]. by rewrite H2.
Defined.

(** A compressor that adds a header to what it stores. *)
Definition stored_with_header : Zlib :=
  {| zlib_encode := λ b, 120 :: 1 :: b; zlib_decode := λ b, Some (drop 2 b) |}.
Lemma stored_with_header_laws : @ZlibLaws stored_with_header.
Proof.
  split; cbn; [done| |intros b; rewrite !zlen_cons; lia].
  intros b Hb. by repeat (apply Forall_cons_2; [by apply u8_const|]).
Qed.

Definition hard_block : bytes := replicate (Z.to_nat 8192) 7.

Definition hard_stream : DotaTvStream := (push_body hard_block (new_stream 26 6059 true)).1.
Definition hard_result : option (DotaTvStream * result DotaTvError Z) := @flush stored_with_header 1 hard_stream.

Lemma incompressible_block_stops_stream_witness :
  ∃ s s', hard_result = Some (s, Err (ChunkTooLarge 8194)) ∧
    @stream_run stored_with_header s [LPush [1; 2; 3]; LFlush 5] = Some s' ∧ chunk_count s' = 0.
Proof.
  assert (match hard_result with
          | Some (s, Err (ChunkTooLarge n)) =>
            (n =? 8194) && (chunk_count s =? 0) && (CHUNK_SIZE - published_len s mod CHUNK_SIZE <=? pending_len s)
          | _ => false
          end = true) as Ht by (vm_compute; reflexivity).
  destruct hard_result as [[s [|[n]]]|] eqn:E; try discriminate Ht.
  apply andb_prop in Ht as [[Hn Hc]%andb_prop Hl]. apply Z.eqb_eq in Hn as ->. apply Z.leb_le in Hl.
  assert (Forall op_typed [LPush hard_block]) as Ho.
  { apply Forall_cons_2; [|apply Forall_nil_2]. apply Forall_replicate. by apply u8_const. }
  assert (Forall op_typed [LPush [1; 2; 3]; LFlush 5]) as Ho' by (repeat constructor; vm_compute; congruence).
  destruct (@incompressible_block_stops_stream stored_with_header 26 6059 true [LPush hard_block]
              hard_stream 1 s 8194 [LPush [1; 2; 3]; LFlush 5] eq_refl Ho E Hl Ho') as (s' & H1 & H2 & _).
  exists s, s'. split; [reflexivity|]. split; [exact H1|]. unfold chunk_count. rewrite H2. by apply Z.eqb_eq in Hc.
Defined.
