(* ===== verification/StreamServer.v ===== *)
(** The server of the live stream (spectre-spectator, src/dotatv_server.rs): what a game
    publishes, and what a viewer's connection is answered.

    A handler takes what its peer has sent until it closed, and answers with what it writes;
    the stream to a viewer is a loop whose writes may fail.  The waiting for new chunks, the
    listeners and the locks are left out. *)
From S2P Require Import Prelude Utf8 W3gs ReplayBody W3g Crc LiveStream.

Definition MODE_BOOTSTRAP : Z := 0.
Definition MODE_STREAM : Z := 1.
Definition MODE_BOOTSTRAP_FULL : Z := 2.
Definition MODE_CHAT : Z := 3.
Definition MODE_STREAM_LIVE : Z := 4.
Definition MODE_STREAM_STATUS : Z := 5.
Definition STREAM_DELAY : Z := 180 * 1000000000.
Definition CHAT_KIND_CHAT : Z := 0.
Definition CHAT_KIND_PING : Z := 1.
Definition CHAT_MAX_TEXT : Z := 255.
Definition CHAT_RATE_WINDOW : Z := 5 * 1000000000.
Definition CHAT_RATE_MAX : Z := 1.
Definition CHAT_CAPACITY : Z := 256.
Definition HEARTBEAT_EVERY_MS : Z := 5000.

(** ** What the connections share

    The chat's channel is the list of all that was ever sent on it. *)
Record DotaTvShared := mkShared {
  sh_stream : DotaTvStream; sh_replay_length_ms : Z; sh_last_marker_ms : Z; sh_heartbeat_enabled : Z;
  sh_heartbeat_pid : Z; sh_stream_delay_ms : Z; sh_next_id : Z; sh_chat : list bytes }.

Definition new_shared (stream : DotaTvStream) : DotaTvShared := mkShared stream 0 0 0 255 0 1 [].

Definition alloc_id (sh : DotaTvShared) : Z * DotaTvShared :=
  (sh_next_id sh, sh <| sh_next_id := wrap 32 (sh_next_id sh + 1) |>).

Definition publish (msg : bytes) (sh : DotaTvShared) : DotaTvShared := sh <| sh_chat ::= λ log, log ++ [msg] |>.

(** [Receiver::recv] at a place in the channel: the next message, or, for who is further
    behind than the channel holds, [Lagged] and the oldest that is left; [None] is to wait. *)
Definition recv (pos : Z) (sh : DotaTvShared) : option (option bytes * Z) :=
  let len := zlen (sh_chat sh) in
  if CHAT_CAPACITY <? len - pos then Some (None, len - CHAT_CAPACITY)
  else msg ← sh_chat sh !! Z.to_nat pos; Some (Some msg, pos + 1).

(** A delay in nanoseconds. *)
Definition stream_delay (sh : DotaTvShared) : Z := sh_stream_delay_ms sh * 1000000.
Definition set_stream_delay (delay : Z) (sh : DotaTvShared) : DotaTvShared :=
  sh <| sh_stream_delay_ms := wrap 32 (delay / 1000000) |>.
Definition set_last_marker_ms (ms : Z) (sh : DotaTvShared) : DotaTvShared := sh <| sh_last_marker_ms := ms |>.
Definition enable_heartbeat (pid : Z) (sh : DotaTvShared) : DotaTvShared :=
  sh <| sh_heartbeat_pid := pid |> <| sh_heartbeat_enabled := 1 |>.
Definition heartbeat_enabled (sh : DotaTvShared) : bool := negb (sh_heartbeat_enabled sh =? 0).
Definition heartbeat_pid (sh : DotaTvShared) : Z := wrap 8 (sh_heartbeat_pid sh).
Definition set_replay_length (ms : Z) (sh : DotaTvShared) : DotaTvShared := sh <| sh_replay_length_ms := ms |>.

Definition shared_push (b : bytes) (sh : DotaTvShared) : DotaTvShared := sh <| sh_stream ::= λ s, (push_body b s).1 |>.

(** [{:02}] and [{:08X}]. *)
Definition two_digits (n : Z) : bytes := if n <? 10 then str "0" ++ dec n else dec n.
Definition nibble (n : Z) : Z := if n <? 10 then 48 + n else 55 + n.
Definition hex8 (n : Z) : bytes := map (λ i, nibble (Z.land (Z.shiftr n (4 * i)) 15)) [7; 6; 5; 4; 3; 2; 1; 0].

Definition heartbeat_text (now_ms pub crc : Z) : bytes :=
  str "[DTV] t=" ++ two_digits (now_ms / 60000) ++ str ":" ++ two_digits (now_ms mod 60000 / 1000)
  ++ str " pub=" ++ dec pub ++ str " crc=" ++ hex8 crc.

Section server.
Context `{Zlib}.

(** [flush] and [flush_pending] of the shared stream. *)
Definition shared_flush (now : Z) (sh : DotaTvShared) : option (DotaTvShared * result DotaTvError Z) :=
  '(s, r) ← flush now (sh_stream sh); Some (sh <| sh_stream := s |>, r).

(** The head of [publish_pending]: the prologue, once there is one.  The flag says whether
    it goes on. *)
Definition publish_prologue (now : Z) (body : ReplayBody) (sent : bool) (sh : DotaTvShared)
  : option (DotaTvShared * bool * result DotaTvError bool) :=
  if sent then Some (sh, true, Ok true) else
  match prologue body with
  | Err _ => Some (sh, false, Ok false)
  | Ok p =>
    '(sh, r) ← shared_flush now (shared_push p sh);
    Some (match r with
          | Ok _ => (sh <| sh_stream ::= mark_prologue_end |>, true, Ok true)
          | Err e => (sh, false, Err e)
          end)
  end.

(** The checksum of what is published, told to the viewers every five seconds. *)
Definition heartbeat (body : ReplayBody) (sh : DotaTvShared) : ReplayBody * DotaTvShared :=
  let now_ms := r_replay_length_ms body in
  if heartbeat_enabled sh && (HEARTBEAT_EVERY_MS <=? sat_sub now_ms (sh_last_marker_ms sh)) then
    let msg := heartbeat_text now_ms (published_len (sh_stream sh)) (published_crc (sh_stream sh)) in
    (add_server_chat (heartbeat_pid sh) msg body, set_last_marker_ms now_ms sh)
  else (body, sh).

Definition publish_pending (now : Z) (body : ReplayBody) (sent : bool) (sh : DotaTvShared)
  : option (ReplayBody * bool * DotaTvShared * result DotaTvError ()) :=
  '(sh, sent, r) ← publish_prologue now body sent sh;
  match r with
  | Err e => Some (body, sent, sh, Err e)
  | Ok false => Some (body, sent, sh, Ok ())
  | Ok true =>
    let '(body, sh) := heartbeat body sh in
    let '(fresh, body) := drain_new_blocks body in
    match fresh with
    | [] => Some (body, sent, set_replay_length (r_replay_length_ms body) sh, Ok ())
    | _ =>
      '(sh, r) ← shared_flush now (shared_push fresh sh);
      Some (match r with
            | Ok _ => (body, sent, set_replay_length (r_replay_length_ms body) sh, Ok ())
            | Err e => (body, sent, sh, Err e)
            end)
    end
  end.

(** ** A viewer's connection *)

Inductive IoError := UnexpectedEof | InvalidData (msg : bytes) | NotConnected (msg : bytes) | TimedOut (secs : Z).

(** [sock.read_exact(&mut [0u8; n])]. *)
Definition read_exact (n : nat) (input : bytes) : result IoError (bytes * bytes) :=
  if (length input <? n)%nat then Err UnexpectedEof else Ok (take n input, drop n input).

Variable crc32fast : bytes → Z.

Definition serve_status (now : Z) (input : bytes) (force_live : bool) (sh : DotaTvShared) : option (result IoError bytes) :=
  match read_exact 4 input with
  | Err e => Some (Err e)
  | Ok (idx, _) =>
    let delay := if force_live then 0 else stream_delay sh in
    match status now (le_val idx) delay (sh_stream sh) with
    | Some (ready, secs) => Some (Ok ((if ready : bool then [1] else [0]) ++ le_bytes 4 (Z.min secs (2 ^ 32 - 1))))
    | None => None
    end
  end.

(** [serve_bootstrap] and [serve_bootstrap_full]. *)
Definition serve_file (make : Z → DotaTvStream → option (bytes * Z)) (now : Z) (input : bytes) (sh : DotaTvShared)
  : option (DotaTvShared * result IoError bytes) :=
  match read_exact 4 input with
  | Err e => Some (sh, Err e)
  | Ok _ =>
    '(sh, _) ← shared_flush now sh;
    if chunk_count (sh_stream sh) =? 0 then Some (sh, Err (NotConnected (str "no match in progress: nothing published yet")))
    else
      '(file, start_index) ← make (sh_replay_length_ms sh) (sh_stream sh);
      Some (sh, Ok (le_bytes 4 start_index ++ le_bytes 4 (wrap 32 (zlen file)) ++ file))
  end.

Definition serve_bootstrap := serve_file (bootstrap crc32fast).
Definition serve_bootstrap_full := serve_file (bootstrap_full crc32fast).

(** *** The stream *)

(** How sending a batch ends: all is written; an error after [n] chunks, which the code does
    not look at; or the time is up after [n] chunks. *)
Inductive outcome := Written | Failed (n : nat) | Stalled (n : nat).

Record Viewer := mkViewer { v_cursor : Z; v_sent : list Chunk }.

(** [serve_stream_with] before its loop. *)
Definition open_viewer (input : bytes) (sh : DotaTvShared) : result IoError Viewer :=
  '(idx, _) ← read_exact 4 input;
  let cursor := le_val idx in
  let available := chunk_count (sh_stream sh) in
  if available <? cursor
  then Err (InvalidData (str "start index " ++ dec cursor ++ str " exceeds " ++ dec available ++ str " published chunks"))
  else Ok (mkViewer cursor []).

(** The chunks from the cursor on that are old enough. *)
Definition batch_of (now delay cursor : Z) (s : DotaTvStream) : list Chunk :=
  let count := count_delayed now delay s in
  omap (λ i, chunk i s) (map (λ i, cursor + i) (below (Z.to_nat (count - cursor)))).

Definition sent (n : nat) (batch : list Chunk) (v : Viewer) : Viewer :=
  let out := take n batch in v <| v_cursor ::= λ c, c + zlen out |> <| v_sent ::= λ l, l ++ out |>.

(** A turn of the loop; an error ends it. *)
Definition stream_turn (now delay write_timeout : Z) (o : outcome) (s : DotaTvStream) (v : Viewer) : Viewer * option IoError :=
  let batch := batch_of now delay (v_cursor v) s in
  match batch with
  | [] => (v, None)
  | _ =>
    match o with
    | Written => (sent (length batch) batch v, None)
    | Failed n => (sent n batch v, None)
    | Stalled n => (sent n batch v, Some (TimedOut (write_timeout / 1000000000)))
    end
  end.

(** *** The chat *)

Inductive chat_in := ChatClosed | ChatBad (e : IoError) | ChatMsg (kind : Z) (payload rest : bytes).

(** A message of the viewer. *)
Definition read_chat (input : bytes) : chat_in :=
  match input with
  | [] => ChatClosed
  | kind :: input =>
    if kind =? CHAT_KIND_CHAT then
      match read_exact 2 input with
      | Err _ => ChatClosed
      | Ok (lb, input) =>
        let len := le_val lb in
        if CHAT_MAX_TEXT <? len then ChatBad (InvalidData (str "chat text exceeds cap")) else
        match read_exact (Z.to_nat len) input with
        | Err _ => ChatClosed
        | Ok (text, input) => ChatMsg kind (lb ++ text) input
        end
      end
    else if kind =? CHAT_KIND_PING then
      match read_exact 4 input with
      | Err _ => ChatClosed
      | Ok (b, input) => ChatMsg kind b input
      end
    else ChatBad (InvalidData (str "unknown chat kind"))
  end.

Record Window := mkWindow { win_start : Z; win_count : Z }.

(** The limit of messages: the window after this one, and whether it may pass. *)
Definition chat_limit (now : Z) (w : Window) : Window * bool :=
  let w := if CHAT_RATE_WINDOW <=? sat_sub now (win_start w) then mkWindow now 0 else w in
  let w := w <| win_count := wrap 32 (win_count w + 1) |> in
  (w, negb (CHAT_RATE_MAX <? win_count w)).

Definition chat_message (kind id : Z) (payload : bytes) : bytes := [kind] ++ le_bytes 4 id ++ payload.

(** The loop of [serve_chat], a message at each of the given times; what it published, each
    with its time, and how it ended. *)
Fixpoint chat_loop (nows : list Z) (id : Z) (input : bytes) (w : Window) : list (Z * bytes) * option (result IoError ()) :=
  match read_chat input with
  | ChatClosed => ([], Some (Ok ()))
  | ChatBad e => ([], Some (Err e))
  | ChatMsg kind payload rest =>
    match nows with
    | [] => ([], None)
    | now :: nows =>
      let '(w, pass) := chat_limit now w in
      let '(out, r) := chat_loop nows id rest w in
      (if pass then (now, chat_message kind id payload) :: out else out, r)
    end
  end.

(** The whole of a chat connection: the number it is told, and what it publishes. *)
Definition serve_chat (start : Z) (nows : list Z) (input : bytes) (sh : DotaTvShared)
  : DotaTvShared * bytes * list (Z * bytes) * option (result IoError ()) :=
  let '(id, sh) := alloc_id sh in
  let '(out, r) := chat_loop nows id input (mkWindow start 0) in
  (foldl (λ sh m, publish m.2 sh) sh out, le_bytes 4 id, out, r).

(** *** Which of them *)

Inductive service :=
| SBootstrap | SBootstrapFull | SChat | SStream (delay : Z) | SStatus.

(** [serve_viewer_with] after the greeting: the mode byte decides. *)
Definition serve_viewer_with (input : bytes) (force_live : bool) (sh : DotaTvShared) : result IoError (service * bytes) :=
  '(mode, input) ← read_exact 1 input;
  let m := le_val mode in
  if m =? MODE_BOOTSTRAP then Ok (SBootstrap, input)
  else if m =? MODE_BOOTSTRAP_FULL then Ok (SBootstrapFull, input)
  else if m =? MODE_CHAT then Ok (SChat, input)
  else if m =? MODE_STREAM then Ok (SStream (if force_live then 0 else stream_delay sh), input)
  else if m =? MODE_STREAM_LIVE then Ok (SStream 0, input)
  else if m =? MODE_STREAM_STATUS then Ok (SStatus, input)
  else Err (InvalidData (str "unknown mode byte " ++ dec m)).
End server.

(** ** What a game publishes *)

Section publishing.
Context `{ZL : ZlibLaws}.

Lemma str_u8 s : Forall u8 (str s).
Proof.
  induction s as [|a s IH]; [constructor|]. constructor; [|done]. pose proof (Ascii.nat_ascii_bounded a). unfold uN. change (2 ^ 8) with 256. lia.
Qed.

Lemma hex8_u8 n : Forall u8 (hex8 n).
Proof.
  apply Forall_map, Forall_forall. intros i _. unfold nibble. change 15 with (Z.ones 4). rewrite Z.land_ones by done.
  pose proof (Z.mod_pos_bound (Z.shiftr n (4 * i)) (2 ^ 4) ltac:(done)) as Hb. change (2 ^ 4) with 16 in *.
  unfold uN. change (2 ^ 8) with 256. case_match; lia.
Qed.

Lemma heartbeat_text_u8 a b c : Forall u8 (heartbeat_text a b c).
Proof.
  assert (∀ n, Forall u8 (two_digits n)) as H2.
  { intros n. unfold two_digits. case_match; [apply Forall_app_2|]; apply str_u8. }
  unfold heartbeat_text. repeat apply Forall_app_2; try apply str_u8; try apply H2. apply hex8_u8.
Qed.

(** The versions of the game. *)
Variables (v bd : Z) (t : bool).

(** The game's body and the stream: the prologue [p] was pushed [tries] times, more than once
    only where flushing it failed, and the body's blocks up to the mark after it; all of it is
    published, or, after one of the failures [errs], waits. *)
Definition in_step (p : bytes) (tries : nat) (errs : list DotaTvError) (body : ReplayBody) (sent : bool) (sh : DotaTvShared) : Prop :=
  prologue body = Ok p ∧ Forall u8 (r_blocks body) ∧ 0 <= r_published body <= zlen (r_blocks body) ∧
  (∀ ms, stream_writer ms (sh_stream sh) = mkW3gWriter v bd t ms) ∧
  (tries <= length errs + Nat.b2n sent)%nat ∧ (if sent then (1 <= tries)%nat else r_published body = 0) ∧
  ∃ pub pend pieces, represents (sh_stream sh) (mkLog pub pend) pieces ∧ (errs = [] → pend = []) ∧
    pub ++ pend = concat (replicate tries p) ++ take (Z.to_nat (r_published body)) (r_blocks body) ∧
    (sent = true → tries = 1%nat → marked_as (snapshot p) (sh_stream sh) pieces p).

(** Pushing more and flushing: it is published, or some of it waits after a failure. *)
Lemma flush_fresh now fresh s pub pend pieces :
  represents s (mkLog pub pend) pieces → Forall u8 fresh →
  ∃ s' r pub' pend' new, flush now (push_body fresh s).1 = Some (s', r) ∧
    represents s' (mkLog pub' pend') (pieces ++ new) ∧ pub' ++ pend' = (pub ++ pend) ++ fresh ∧
    (∀ c, r = Ok c → pend' = []) ∧
    ds_prologue s' = ds_prologue s ∧ ds_prologue_end s' = ds_prologue_end s ∧ (∀ ms, stream_writer ms s' = stream_writer ms s).
Proof.
  intros Hs Hu. destruct (represents_push _ _ _ fresh Hs Hu) as [_ Hs1]. cbn [l_published l_pending] in Hs1.
  destruct (flush_spec now _ _ _ Hs1) as (s' & r & out & rest & new & F1 & F2 & F3 & _ & F5). cbn [l_published l_pending] in F2, F3.
  destruct (flush_keeps _ _ _ _ F1) as (K1 & K2 & K3 & _). exists s', r, (pub ++ out), rest, new.
  split_and!; try done; [by rewrite <- !app_assoc, F2|]. intros c ->. by destruct F5.
Qed.

Lemma publish_prologue_step now p tries errs body sent sh :
  in_step p tries errs body sent sh → Forall u8 p →
  ∃ sh' sent' r tries', publish_prologue now body sent sh = Some (sh', sent', r) ∧
    match r with
    | Ok go => go = true ∧ sent' = true ∧ in_step p tries' errs body true sh'
    | Err e => sent' = false ∧ in_step p tries' (errs ++ [e]) body false sh'
    end.
Proof.
  intros Hi Hpu. unfold publish_prologue. destruct sent; [by exists sh, true, (Ok true), tries|].
  destruct Hi as (Hp & Hu & Hr & Hw & Ht & Hsent & pub & pend & pieces & Hs & Hpend & Hlog & Hm). rewrite Hp. unfold shared_flush. change (sh_stream (shared_push p sh)) with (push_body p (sh_stream sh)).1.
  destruct (flush_fresh now p _ _ _ _ Hs Hpu) as (s' & r & pub' & pend' & new & F & Hs' & Hlog' & Hok & K1 & K2 & K3).
  rewrite F. cbn [mbind option_bind]. rewrite Hsent in Hlog. cbn [Z.to_nat take] in Hlog. rewrite app_nil_r in Hlog.
  assert (pub' ++ pend' = concat (replicate (S tries) p)) as Hlog1.
  { by rewrite Hlog', Hlog, replicate_S_end, concat_app; cbn; rewrite app_nil_r. }
  cbn [Nat.b2n] in Ht. destruct r as [c|e].
  - eexists _, _, _, (S tries). split; [done|]. split; [done|]. split; [done|]. unfold in_step. cbn.
    split_and!; try done; try lia; [intros ms; exact (eq_trans (K3 ms) (Hw ms))|]. exists pub', pend', (pieces ++ new).
    rewrite Hsent. cbn [Z.to_nat take]. rewrite app_nil_r. split_and!; [by apply represents_mark|intros; by eapply Hok|done|].
    intros _ [= ->]. specialize (Hok c eq_refl) as ->. cbn in Hlog, Hlog1. rewrite !app_nil_r in Hlog1. subst pub'.
    apply app_eq_nil in Hlog as [-> ->]. assert (pieces = []) as ->.
    { destruct Hs as [_ _ Hc Hb _ _ _ _]. cbn in Hc. apply in_blocks_pieces in Hb. destruct Hb as [|x l Hx Hl]; [done|].
      cbn in Hc. apply app_eq_nil in Hc as [-> _]. change (zlen []) with 0 in Hx. lia. }
    destruct (represents_push _ _ _ p Hs Hpu) as [_ Hs1].
    destruct (flush_first now p _ _ _ _ Hs1 F Hs') as [G1 G2]. split_and!; [exact G1|exact G2|].
    exists (length new). rewrite firstn_all. by destruct Hs'.
  - eexists _, _, _, (S tries). split; [done|]. split; [done|]. unfold in_step. cbn. rewrite length_app. cbn.
    split_and!; try done; try lia; [intros ms; exact (eq_trans (K3 ms) (Hw ms))|]. exists pub', pend', (pieces ++ new).
    rewrite Hsent. cbn [Z.to_nat take]. rewrite app_nil_r. split_and!; try done. by destruct errs.
Qed.

Lemma chat_block_u8 pid m : u8 pid → Forall u8 m → Forall u8 (chat_block pid 32 0 m).
Proof. intros. unfold chat_block, put_cstr. u8_list. Qed.

Lemma heartbeat_step p tries errs body sh body' sh' :
  in_step p tries errs body true sh → heartbeat body sh = (body', sh') → in_step p tries errs body' true sh'.
Proof.
  unfold heartbeat. intros Hi. destruct (_ && _); intros [= <- <-]; [|done].
  destruct Hi as (Hp & Hu & Hr & Hw & Ht & Hsent & pub & pend & pieces & Hs & Hpend & Hlog & Hm).
  set (msg := heartbeat_text _ _ _). unfold in_step. split; [done|].
  change (r_blocks (add_server_chat (heartbeat_pid sh) msg body)) with (r_blocks body ++ chat_block (heartbeat_pid sh) 32 0 msg).
  change (r_published (add_server_chat (heartbeat_pid sh) msg body)) with (r_published body). rewrite zlen_app.
  pose proof (zlen_nonneg (chat_block (heartbeat_pid sh) 32 0 msg)). split_and!; try done; try lia.
  - apply Forall_app_2; [done|]. apply chat_block_u8; [by apply wrap_range|apply heartbeat_text_u8].
  - exists pub, pend, pieces. rewrite take_app_le by (unfold zlen in *; lia). done.
Qed.

(** What a call has published, and what it leaves waiting. *)
Lemma publish_pending_step now p tries errs body sent sh :
  in_step p tries errs body sent sh → Forall u8 p →
  ∃ body' sent' sh' r tries', publish_pending now body sent sh = Some (body', sent', sh', r) ∧
    in_step p tries' (errs ++ match r with Ok _ => [] | Err e => [e] end) body' sent' sh' ∧
    (if sent' then r_published body' = zlen (r_blocks body') else ∃ e, r = Err e).
Proof.
  intros Hi Hpu. unfold publish_pending.
  destruct (publish_prologue_step now p tries errs body sent sh Hi Hpu) as (sh1 & sent1 & r1 & tries1 & E1 & H1). rewrite E1.
  cbn [mbind option_bind]. destruct r1 as [go|e]; cycle 1.
  { destruct H1 as [-> H1]. exists body, false, sh1, (Err e), tries1. split_and!; try done. by exists e. }
  destruct H1 as (-> & -> & H1). destruct (heartbeat body sh1) as [b2 sh2] eqn:E2. apply (heartbeat_step p tries1 errs) in E2; [|done]. clear Hi H1 E1.
  unfold drain_new_blocks. destruct E2 as (Hp & Hu & Hr & Hw & Ht & Hsent & pub & pend & pieces & Hs & Hpend & Hlog & Hm). remember (drop _ _) as fresh eqn:Efr.
  assert (∀ x, pub ++ pend = x ++ take (Z.to_nat (r_published b2)) (r_blocks b2) →
    (pub ++ pend) ++ fresh = x ++ take (Z.to_nat (zlen (r_blocks b2))) (r_blocks b2)) as Htake.
  { intros x ->. rewrite Efr, <- app_assoc, take_drop, (take_ge (r_blocks b2) (Z.to_nat (zlen _))); [done|]. unfold zlen. lia. }
  apply Htake in Hlog. pose proof (zlen_nonneg (r_blocks b2)) as Hz. assert (Forall u8 fresh) as Hfu by (rewrite Efr; by apply Forall_drop).
  destruct fresh as [|x l] eqn:Ef.
  - rewrite app_nil_r in Hlog. eexists _, _, _, _, tries1. split; [done|]. rewrite app_nil_r. split; [|done].
    unfold in_step. cbn. unfold const. split_and!; try done. by exists pub, pend, pieces.
  - rewrite <- Ef in *. clear Ef. unfold shared_flush. change (sh_stream (shared_push fresh sh2)) with (push_body fresh (sh_stream sh2)).1.
    destruct (flush_fresh now fresh _ _ _ _ Hs Hfu) as (s' & r & pub' & pend' & new & F & Hs' & Hlog' & Hok & K1 & K2 & K3).
    rewrite F. cbn [mbind option_bind]. rewrite <- Hlog' in Hlog.
    assert (∀ errs', (errs' = [] → pend' = []) → (tries1 <= length errs' + 1)%nat → ∀ sh', sh_stream sh' = s' →
      in_step p tries1 errs' (b2 <| r_published := zlen (r_blocks b2) |>) true sh') as Hdone.
    { intros errs' He Ht' sh' <-. unfold in_step. cbn. unfold const. split_and!; try done; try lia; [intros ms; exact (eq_trans (K3 ms) (Hw ms))|].
      exists pub', pend', (pieces ++ new). split_and!; try done. intros _ H1. eapply marked_extends; [by apply Hm|done|done]. }
    cbn [Nat.b2n] in Ht. destruct r as [c|e].
    + eexists _, _, _, _, tries1. split; [done|]. rewrite app_nil_r. split; [|done]. apply Hdone; try done. intros _. by eapply Hok.
    + eexists _, _, _, _, tries1. split; [done|]. split; [|done]. apply Hdone; [by destruct errs|rewrite length_app; lia|done].
Qed.

(** A game that adds blocks to its body while it publishes them, and the failures it meets. *)
Inductive pub_op := PGame (b : Block) | PPublish (now : Z).

Record PubState := mkPub { pb_body : ReplayBody; pb_sent : bool; pb_shared : DotaTvShared }.

Definition pub_step (st : PubState) (op : pub_op) : option (PubState * list DotaTvError) :=
  match op with
  | PGame b => Some (mkPub (add_block (pb_body st) b) (pb_sent st) (pb_shared st), [])
  | PPublish now =>
    '(body, sent, sh, r) ← publish_pending now (pb_body st) (pb_sent st) (pb_shared st);
    Some (mkPub body sent sh, match r with Ok _ => [] | Err e => [e] end)
  end.

Fixpoint pub_run (st : PubState) (ops : list pub_op) : option (PubState * list DotaTvError) :=
  match ops with
  | [] => Some (st, [])
  | op :: ops => '(st, e) ← pub_step st op; '(st, errs) ← pub_run st ops; Some (st, e ++ errs)
  end.

Definition pub_typed (op : pub_op) : Prop :=
  match op with PGame b => Forall u8 (block_bytes b) | PPublish _ => True end.

(** What holds between the calls, and right after one. *)
Definition pub_inv (p : bytes) (errs : list DotaTvError) (st : PubState) : Prop :=
  ∃ tries, in_step p tries errs (pb_body st) (pb_sent st) (pb_shared st).

Definition just_published (e : list DotaTvError) (st : PubState) : Prop :=
  if pb_sent st then r_published (pb_body st) = zlen (r_blocks (pb_body st)) else e ≠ [].

Lemma pub_step_inv p errs st op :
  pub_inv p errs st → Forall u8 p → pub_typed op →
  ∃ st' e, pub_step st op = Some (st', e) ∧ pub_inv p (errs ++ e) st' ∧
    (∀ now, op = PPublish now → just_published e st').
Proof.
  intros [tries Hi] Hpu Ht. destruct op as [b|now]; cbn [pub_step].
  - eexists _, _. split; [done|]. split; [|done]. exists tries. rewrite app_nil_r. cbn [pb_body pb_sent pb_shared].
    destruct Hi as (Hp & Hu & Hr & Hw & Htr & Hsent & pub & pend & pieces & Hs & Hpend & Hlog & Hm). unfold in_step.
    rewrite add_block_blocks, add_block_published, zlen_app. pose proof (zlen_nonneg (block_bytes b)).
    split_and!; try done; try lia; [by destruct b|by apply Forall_app_2|].
    exists pub, pend, pieces. rewrite take_app_le by (unfold zlen in *; lia). done.
  - destruct (publish_pending_step now p _ _ _ _ _ Hi Hpu) as (body & sent & sh & r & tries' & -> & H1 & H2).
    cbn [mbind option_bind]. eexists _, _. split; [done|]. split; [by exists tries'|]. intros _ _. unfold just_published. cbn.
    destruct sent; [done|]. by destruct H2 as [e ->].
Qed.

Lemma pub_run_inv p ops : ∀ errs st,
  pub_inv p errs st → Forall u8 p → Forall pub_typed ops →
  ∃ st' es, pub_run st ops = Some (st', es) ∧ pub_inv p (errs ++ es) st'.
Proof.
  induction ops as [|op ops IH]; intros errs st Hi Hpu Ht; cbn [pub_run].
  { eexists _, _. split; [done|]. by rewrite app_nil_r. }
  apply Forall_cons in Ht as [Ht Hts]. destruct (pub_step_inv p errs st op Hi Hpu Ht) as (st1 & e & -> & H1 & _).
  cbn [mbind option_bind]. destruct (IH _ _ H1 Hpu Hts) as (st' & es & -> & H2). cbn. eexists _, _. split; [done|].
  by rewrite app_assoc.
Qed.

Lemma pub_run_last ops op : ∀ st st1 es, pub_run st ops = Some (st1, es) →
  pub_run st (ops ++ [op]) = '(st2, e) ← pub_step st1 op; Some (st2, es ++ e).
Proof.
  induction ops as [|op' ops IH]; intros st st1 es; cbn [app pub_run].
  - intros [= <- <-]. destruct (pub_step st op) as [[st2 e]|]; [|done]. cbn. by rewrite app_nil_r.
  - destruct (pub_step st op') as [[st' e']|]; [|done]. cbn [mbind option_bind].
    destruct (pub_run st' ops) as [[st'' es']|] eqn:E; [|done]. cbn [mbind option_bind]. intros [= <- <-]. rewrite (IH _ _ _ E).
    destruct (pub_step st'' op) as [[st2 e]|]; [|done]. cbn. by rewrite app_assoc.
Qed.

Variable crc32fast : bytes → Z.

End publishing.

Definition example_shared : DotaTvShared := enable_heartbeat 255 (new_shared for_126a).
Definition example_pub : list pub_op := [PGame (TimeSlot 6000 []); PPublish 1; PGame (Leave 2 1 7)].


(** ** What a viewer's stream is sent *)

Section viewing.

Lemma partition_point_spec p l :
  0 <= partition_point p l <= zlen l ∧ ∀ i t, l !! i = Some t → Z.of_nat i < partition_point p l → p t = true.
Proof.
  unfold partition_point. destruct (position _ l) as [j|] eqn:E.
  - pose proof (position_lt _ _ _ E) as Hj. apply position_Some in E as (x & _ & _ & Hmin). split; [unfold zlen; lia|].
    intros i t Hi Hlt. specialize (Hmin i t ltac:(lia) Hi). by apply negb_false_iff.
  - apply position_None in E. split; [pose proof (zlen_nonneg l); lia|]. intros i t Hi _.
    rewrite Forall_lookup in E. by apply negb_false_iff, (E i).
Qed.

Lemma count_delayed_spec now delay s :
  length (ds_frame_times s) = length (ds_frames s) → 0 <= delay →
  0 <= count_delayed now delay s <= chunk_count s ∧
  ∀ i t, ds_frame_times s !! i = Some t → Z.of_nat i < count_delayed now delay s → delay = 0 ∨ t <= now - delay.
Proof.
  intros Hl Hd. unfold count_delayed, chunk_count. destruct (Z.eqb_spec delay 0) as [->|].
  { split; [pose proof (zlen_nonneg (ds_frames s)); lia|]. auto. }
  destruct (_ <? 0); [split; [pose proof (zlen_nonneg (ds_frames s)); lia|]; lia|].
  destruct (partition_point_spec (λ t, t <=? now - delay) (ds_frame_times s)) as [H1 H2].
  split; [unfold zlen in *; lia|]. intros i t Hi Hlt. right. apply Z.leb_le, (H2 i t Hi Hlt).
Qed.

Lemma omap_seq {A} (l : list A) n : ∀ c, omap (λ i, l !! i) (seq c n) = take n (drop c l).
Proof.
  induction n as [|n IH]; intros c; [done|]. cbn [seq omap list_omap].
  destruct (l !! c) as [x|] eqn:E.
  - rewrite (drop_S l x c E). cbn [take]. by rewrite IH.
  - rewrite IH. apply lookup_ge_None in E. by rewrite !drop_ge, !take_nil by lia.
Qed.

(** A batch is the chunks between the cursor and what is old enough. *)
Lemma batch_of_spec now delay c s :
  0 <= c → batch_of now delay c s = take (Z.to_nat (count_delayed now delay s - c)) (drop (Z.to_nat c) (ds_frames s)).
Proof.
  intros Hc. unfold batch_of, below, chunk. generalize (Z.to_nat (count_delayed now delay s - c)). intros n.
  rewrite <- omap_seq. enough (∀ k, omap (λ i, ds_frames s !! Z.to_nat i) (map (λ i, c + i) (map Z.of_nat (seq k n)))
    = omap (λ i, ds_frames s !! i) (seq (Z.to_nat c + k) n)) as E by (by rewrite (E 0%nat), Nat.add_0_r).
  induction n as [|n IH]; intros k; [done|]. cbn [seq map omap list_omap]. specialize (IH (S k)). rewrite Nat.add_succ_r in IH.
  replace (Z.to_nat (c + Z.of_nat k)) with (Z.to_nat c + k)%nat by lia. by rewrite <- IH.
Qed.

(** A viewer's loop: turn after turn, over the stream as it is then. *)
Fixpoint viewer_run (delay wt : Z) (turns : list (Z * DotaTvStream * outcome)) (v : Viewer) : Viewer * option IoError :=
  match turns with
  | [] => (v, None)
  | (now, s, o) :: turns =>
    let '(v, e) := stream_turn now delay wt o s v in
    match e with Some e => (v, Some e) | None => viewer_run delay wt turns v end
  end.

(** The stream as it grows: chunks are added at the end, and time does not go back. *)
Fixpoint growing (now : Z) (fs : list Chunk) (ts : list Z) (turns : list (Z * DotaTvStream * outcome)) : Prop :=
  match turns with
  | [] => True
  | (now', s, _) :: turns =>
    now <= now' ∧ fs `prefix_of` ds_frames s ∧ ts `prefix_of` ds_frame_times s ∧
    length (ds_frame_times s) = length (ds_frames s) ∧ growing now' (ds_frames s) (ds_frame_times s) turns
  end.

(** The chunks of [fs] from [start] to the cursor were sent, all old enough by [now]. *)
Definition shown (start delay now : Z) (fs : list Chunk) (ts : list Z) (v : Viewer) : Prop :=
  start <= v_cursor v <= zlen fs ∧
  v_sent v = take (Z.to_nat (v_cursor v - start)) (drop (Z.to_nat start) fs) ∧
  ∀ i t, ts !! i = Some t → start <= Z.of_nat i < v_cursor v → delay = 0 ∨ t <= now - delay.

Lemma shown_grows start delay now now' fs fs' ts ts' v :
  0 <= start → shown start delay now fs ts v → now <= now' → fs `prefix_of` fs' → ts `prefix_of` ts' → length ts = length fs →
  shown start delay now' fs' ts' v.
Proof.
  intros H0 (H1 & H2 & H3) Hn [k ->] [k' ->] Hl. split; [rewrite zlen_app; pose proof (zlen_nonneg k); lia|]. split.
  - rewrite H2. unfold zlen in *. rewrite drop_app_le, take_app_le by (rewrite ?length_drop; lia). done.
  - intros i t Hi Hlt. rewrite lookup_app_l in Hi by (unfold zlen in *; lia). destruct (H3 i t Hi Hlt); [by left|right; lia].
Qed.

Lemma sent_shown start delay now s v n :
  0 <= start → 0 <= delay → length (ds_frame_times s) = length (ds_frames s) →
  shown start delay now (ds_frames s) (ds_frame_times s) v →
  shown start delay now (ds_frames s) (ds_frame_times s) (sent n (batch_of now delay (v_cursor v) s) v).
Proof.
  intros H0 Hd Hl (H1 & H2 & H3). destruct (count_delayed_spec now delay s Hl Hd) as [Hc Ha]. unfold chunk_count in Hc.
  rewrite batch_of_spec by lia. unfold sent. rewrite take_take.
  set (m := (n `min` _)%nat). assert (Z.of_nat m <= Z.max 0 (count_delayed now delay s - v_cursor v)) as Hm by lia.
  unfold shown. cbn. set (out := take m _).
  assert (zlen out = Z.of_nat m) as Ho.
  { unfold out, zlen in *. rewrite length_take, length_drop. lia. }
  rewrite Ho. split_and!; [lia|lia| |].
  - rewrite H2. unfold out. replace (Z.to_nat (v_cursor v)) with (Z.to_nat start + Z.to_nat (v_cursor v - start))%nat by lia.
    rewrite <- drop_drop, take_take_drop. f_equal. lia.
  - intros i t Hi Hlt. destruct (Z.lt_ge_cases (Z.of_nat i) (v_cursor v)) as [Hlt'|Hge]; [apply (H3 i t Hi); lia|].
    apply (Ha i t Hi). lia.
Qed.

Lemma stream_turn_shown start delay now wt o s v :
  0 <= start → 0 <= delay → length (ds_frame_times s) = length (ds_frames s) →
  shown start delay now (ds_frames s) (ds_frame_times s) v →
  let '(v', e) := stream_turn now delay wt o s v in
  shown start delay now (ds_frames s) (ds_frame_times s) v' ∧
  (∀ err, e = Some err → err = TimedOut (wt / 1000000000) ∧ ∃ n, o = Stalled n).
Proof.
  intros H0 Hd Hl Hv. unfold stream_turn. destruct (batch_of now delay (v_cursor v) s) as [|x l] eqn:E; [done|].
  rewrite <- E. destruct o as [|n|n]; (split; [by apply sent_shown|]); intros err; try done. intros [= <-]. split; [done|by exists n].
Qed.

Lemma viewer_run_shown start delay wt turns : ∀ now fs ts v,
  0 <= start → 0 <= delay → growing now fs ts turns → length ts = length fs → shown start delay now fs ts v →
  let '(v', e) := viewer_run delay wt turns v in
  ∃ now' fs' ts', (turns = [] ∧ now' = now ∧ fs' = fs ∧ ts' = ts ∨ ∃ s o, (now', s, o) ∈ turns ∧ fs' = ds_frames s ∧ ts' = ds_frame_times s) ∧
    shown start delay now' fs' ts' v' ∧
    (∀ err, e = Some err → err = TimedOut (wt / 1000000000) ∧ ∃ s n, (now', s, Stalled n) ∈ turns).
Proof.
  induction turns as [|[[now1 s] o] turns IH]; intros now fs ts v H0 Hd Hg Hl Hv; cbn [viewer_run].
  { exists now, fs, ts. split; [by left|]. done. }
  destruct Hg as (G1 & G2 & G3 & G4 & G5). pose proof (shown_grows start delay now now1 fs (ds_frames s) ts (ds_frame_times s) v H0 Hv G1 G2 G3 Hl) as Hv1.
  pose proof (stream_turn_shown start delay now1 wt o s v H0 Hd G4 Hv1) as Ht.
  destruct (stream_turn now1 delay wt o s v) as [v1 [e|]]; destruct Ht as [Hs He].
  - exists now1, (ds_frames s), (ds_frame_times s). split; [right; exists s, o; split; [apply list_elem_of_here|done]|]. split; [done|].
    intros err [= <-]. destruct (He e eq_refl) as [-> [n ->]]. split; [done|]. exists s, n. apply list_elem_of_here.
  - specialize (IH now1 (ds_frames s) (ds_frame_times s) v1 H0 Hd G5 G4 Hs). destruct (viewer_run delay wt turns v1) as [v2 e2].
    destruct IH as (now' & fs' & ts' & Hwhere & I2 & I3). exists now', fs', ts'. split; [|split; [done|]].
    + right. destruct Hwhere as [(-> & -> & -> & ->)|(s' & o' & Hin & -> & ->)].
      * exists s, o. split; [apply list_elem_of_here|done].
      * exists s', o'. split; [by apply list_elem_of_further|done].
    + intros err Herr. destruct (I3 err Herr) as (-> & s' & n & Hin). split; [done|]. exists s', n. by apply list_elem_of_further.
Qed.

(** A turn that writes leaves nothing behind that is old enough. *)
Lemma written_turn now delay wt s v :
  0 <= v_cursor v → 0 <= delay → length (ds_frame_times s) = length (ds_frames s) →
  v_cursor (stream_turn now delay wt Written s v).1 = Z.max (v_cursor v) (count_delayed now delay s).
Proof.
  intros Hv Hd Hl. destruct (count_delayed_spec now delay s Hl Hd) as [Hc _]. unfold chunk_count in Hc.
  pose proof (batch_of_spec now delay (v_cursor v) s Hv) as Hb.
  assert (zlen (batch_of now delay (v_cursor v) s) = Z.max 0 (count_delayed now delay s - v_cursor v)) as Hz.
  { rewrite Hb. unfold zlen in *. rewrite length_take, length_drop. lia. }
  unfold stream_turn. destruct (batch_of now delay (v_cursor v) s) as [|x l] eqn:E.
  - rewrite zlen_nil in Hz. cbn. lia.
  - rewrite <- E in *. cbn [fst]. unfold sent. rewrite firstn_all. cbn. rewrite Hz. lia.
Qed.

(** A viewer's reader of the stream. *)
Fixpoint read_frames (n : nat) (data : bytes) : option (list Chunk) :=
  match n with
  | O => match data with [] => Some [] | _ => None end
  | S n =>
    match fields [2; 2; 4]%nat data with
    | Some ([size; valid; crc], data) =>
      '(fs, rest) ← fields [Z.to_nat (le_val size)] data;
      chunks ← read_frames n rest;
      Some (mkChunk (concat fs) (le_val valid) (le_val crc) :: chunks)
    | _ => None
    end
  end.

Definition chunk_ok (c : Chunk) : Prop := zlen (compressed c) <= CHUNK_SIZE ∧ u16 (valid_bytes c) ∧ u32 (chunk_crc c).

Lemma frames_read cs : Forall chunk_ok cs → read_frames (length cs) (concat (map frame cs)) = Some cs.
Proof.
  induction 1 as [|c cs (Hc & Hv & Hr) _ IH]; [done|]. cbn [length map concat read_frames]. unfold frame at 1.
  assert (u16 (zlen (compressed c))) as Hz.
  { unfold uN, CHUNK_SIZE in *. change (2 ^ 16) with 65536. pose proof (zlen_nonneg (compressed c)). lia. }
  rewrite wrap_small by done.
  replace ((le_bytes 2 (zlen (compressed c)) ++ le_bytes 2 (valid_bytes c) ++ le_bytes 4 (chunk_crc c) ++ compressed c) ++ concat (map frame cs))
    with (concat [le_bytes 2 (zlen (compressed c)); le_bytes 2 (valid_bytes c); le_bytes 4 (chunk_crc c)] ++ compressed c ++ concat (map frame cs))
    by (cbn [concat]; by rewrite app_nil_r, <- !app_assoc).
  rewrite fields_app by (by repeat constructor). rewrite (le_val_round2 (zlen (compressed c))) by done.
  rewrite (fields_one (Z.to_nat (zlen (compressed c)))) by (unfold zlen; lia). cbn [mbind option_bind]. rewrite IH.
  cbn [mbind option_bind concat]. rewrite app_nil_r, le_val_round2, le_val_round4 by done. by destruct c.
Qed.

(** C34: A viewer of the stream is sent the chunks from the one it asked for, each once, in
    order and none left out, and none before the delay is over, however the stream grows
    meanwhile; its reader gets those chunks back; a turn that writes catches up with all
    that is old enough.  The loop ends only when a write takes too long: a write that fails
    does not end it. *)
Theorem viewer_stream_spec input sh v0 delay wt now0 turns :
  Forall u8 input → open_viewer input sh = Ok v0 → 0 <= delay →
  length (ds_frame_times (sh_stream sh)) = length (ds_frames (sh_stream sh)) →
  growing now0 (ds_frames (sh_stream sh)) (ds_frame_times (sh_stream sh)) turns →
  let '(v, e) := viewer_run delay wt turns v0 in
  (∃ now s, s ∈ sh_stream sh :: map (λ t, t.1.2) turns ∧
     shown (v_cursor v0) delay now (ds_frames s) (ds_frame_times s) v ∧
     (Forall chunk_ok (ds_frames s) → read_frames (length (v_sent v)) (concat (map frame (v_sent v))) = Some (v_sent v))) ∧
  (∀ now s v, 0 <= v_cursor v → length (ds_frame_times s) = length (ds_frames s) →
     v_cursor (stream_turn now delay wt Written s v).1 = Z.max (v_cursor v) (count_delayed now delay s)) ∧
  (∀ err, e = Some err → err = TimedOut (wt / 1000000000) ∧ ∃ now s n, (now, s, Stalled n) ∈ turns).
Proof.
  intros Hu Ho Hd Hl Hg. revert Ho. unfold open_viewer, read_exact. destruct (length input <? 4)%nat; [done|]. cbn [mbind result_bind].
  destruct (Z.ltb_spec (chunk_count (sh_stream sh)) (le_val (take 4 input))) as [|Hc]; [done|]. intros [= <-]. cbn [v_cursor].
  pose proof (le_val_bound (take 4 input) (Forall_take _ _ _ Hu)) as Hb. set (start := le_val (take 4 input)) in *.
  assert (shown start delay now0 (ds_frames (sh_stream sh)) (ds_frame_times (sh_stream sh)) (mkViewer start [])) as Hs.
  { unfold shown. cbn. rewrite Z.sub_diag. unfold chunk_count in Hc. split_and!; [lia|lia|done|]. intros; lia. }
  pose proof (viewer_run_shown start delay wt turns now0 _ _ _ ltac:(lia) Hd Hg Hl Hs) as Hrun.
  destruct (viewer_run delay wt turns (mkViewer start [])) as [v e]. destruct Hrun as (now & fs & ts & Hw & Hsh & He).
  split_and!.
  - assert (∃ s, s ∈ sh_stream sh :: map (λ t, t.1.2) turns ∧ fs = ds_frames s ∧ ts = ds_frame_times s) as (s & Hin & -> & ->).
    { destruct Hw as [(_ & _ & -> & ->)|(s & o & Hin & -> & ->)].
      - exists (sh_stream sh). split; [apply list_elem_of_here|done].
      - exists s. split; [|done]. apply list_elem_of_further. change s with ((λ t : Z * DotaTvStream * outcome, t.1.2) (now, s, o)).
        by apply list_elem_of_fmap_2. }
    exists now, s. split; [done|]. split; [done|]. intros Hok. apply frames_read. destruct Hsh as (_ & -> & _).
    by apply Forall_take, Forall_drop.
  - intros. by apply written_turn.
  - intros err Herr. destruct (He err Herr) as (-> & s & n & Hin). split; [done|]. by exists now, s, n.
Qed.
End viewing.

Definition example_chunk (b : Z) : Chunk := mkChunk [b] 1 (crc32 [b]).
Definition example_stream (n : nat) : DotaTvStream :=
  for_126a <| ds_frames := map example_chunk (below n) |> <| ds_frame_times := below n |>.

(** A viewer of the second chunk on, with a delay of two: after a failed write the loop goes on. *)
Lemma viewer_stream_spec_witness :
  ∃ v0, open_viewer [1; 0; 0; 0] (new_shared (example_stream 2)) = Ok v0 ∧
  let turns := [(3, example_stream 3, Written); (5, example_stream 6, Failed 1); (6, example_stream 7, Written)] in
  ∃ now s, s ∈ example_stream 2 :: map (λ t : Z * DotaTvStream * outcome, t.1.2) turns ∧
    shown 1 2 now (ds_frames s) (ds_frame_times s) (viewer_run 2 30000000000 turns v0).1.
Proof.
  exists (mkViewer 1 []). split; [vm_compute; reflexivity|]. cbv zeta.
  pose proof (viewer_stream_spec [1; 0; 0; 0] (new_shared (example_stream 2)) (mkViewer 1 []) 2 30000000000 2
    [(3, example_stream 3, Written); (5, example_stream 6, Failed 1); (6, example_stream 7, Written)]) as H.
  destruct (viewer_run _ _ _ _) as [v e]. destruct H as [(now & s & H1 & H2 & _) _].
  - apply (bool_decide_unpack _). vm_compute. exact I.
  - vm_compute. reflexivity.
  - lia.
  - vm_compute. reflexivity.
  - assert (∀ {A} (f : Z → A) n m, (n <= m)%nat → map f (below n) `prefix_of` map f (below m)) as Hp.
    { intros A f n m Hnm. unfold below. replace m with (n + (m - n))%nat by lia. rewrite seq_app, !map_app. by eexists. }
    cbn [growing ds_frames ds_frame_times]. repeat split; try (vm_compute; congruence); try lia;
      first [apply (Hp _ example_chunk); lia | pose proof (Hp Z (λ x, x)) as Hp'; setoid_rewrite map_id in Hp'; apply Hp'; lia].
  - exists now, s. split; [exact H1|exact H2].
Defined.

(** ** The chat of the viewers *)

Section chatting.

(** A message of a viewer, and how it is sent. *)
Inductive chat_msg := ChatText (text : bytes) | ChatPing (b : bytes).

Definition chat_msg_ok (m : chat_msg) : Prop :=
  match m with ChatText text => zlen text <= CHAT_MAX_TEXT | ChatPing b => length b = 4%nat end.

Definition chat_payload (m : chat_msg) : Z * bytes :=
  match m with
  | ChatText text => (CHAT_KIND_CHAT, le_bytes 2 (zlen text) ++ text)
  | ChatPing b => (CHAT_KIND_PING, b)
  end.

Definition chat_wire (m : chat_msg) : bytes := (chat_payload m).1 :: (chat_payload m).2.

Lemma read_exact_app n a b : length a = n → read_exact n (a ++ b) = Ok (a, b).
Proof.
  intros Hn. unfold read_exact. rewrite (proj2 (Nat.ltb_ge _ _)) by (rewrite length_app; lia).
  by rewrite take_app_length', drop_app_length'.
Qed.

Lemma read_chat_wire m rest :
  chat_msg_ok m → read_chat (chat_wire m ++ rest) = ChatMsg (chat_payload m).1 (chat_payload m).2 rest.
Proof.
  destruct m as [text|b]; cbn [chat_msg_ok]; intros Hm; unfold chat_wire; cbn [chat_payload fst snd app].
  - unfold read_chat. cbn [CHAT_KIND_CHAT Z.eqb]. rewrite <- app_assoc, read_exact_app by apply length_le_bytes.
    pose proof (zlen_nonneg text). unfold CHAT_MAX_TEXT in *. rewrite le_val_round2 by (unfold uN; change (2 ^ 16) with 65536; lia).
    rewrite (proj2 (Z.ltb_ge _ _)) by lia. by rewrite read_exact_app by (unfold zlen; lia).
  - unfold read_chat. cbn. by rewrite read_exact_app.
Qed.

(** Times that are at least a window apart. *)
Fixpoint spaced (ts : list Z) : Prop :=
  match ts with
  | t :: ((t' :: _) as ts') => CHAT_RATE_WINDOW <= t' - t ∧ spaced ts'
  | _ => True
  end.

(** Times that do not go back. *)
Fixpoint ordered (now : Z) (ts : list Z) : Prop :=
  match ts with [] => True | t :: ts => now <= t ∧ ordered t ts end.

(** A new window lets one message pass, and no more. *)
Lemma chat_limit_over t w : win_start w <= t → CHAT_RATE_WINDOW <= t - win_start w → chat_limit t w = (mkWindow t 1, true).
Proof.
  intros H1 H2. unfold chat_limit. replace (sat_sub t (win_start w)) with (t - win_start w) by (unfold sat_sub; lia).
  by rewrite (proj2 (Z.leb_le _ _)).
Qed.

Lemma chat_limit_within t w :
  win_start w <= t → t - win_start w < CHAT_RATE_WINDOW → 0 <= win_count w < 2 ^ 32 - 1 →
  chat_limit t w = (mkWindow (win_start w) (win_count w + 1), win_count w =? 0).
Proof.
  intros H1 H2 H3. unfold chat_limit. replace (sat_sub t (win_start w)) with (t - win_start w) by (unfold sat_sub; lia).
  rewrite (proj2 (Z.leb_gt _ _)) by done. destruct w as [s c]. cbn in *. rewrite wrap_small by (unfold uN; lia). f_equal.
  unfold const, CHAT_RATE_MAX. destruct (Z.ltb_spec 1 (c + 1)), (Z.eqb_spec c 0); done || lia.
Qed.

(** A window that has let its message pass lets the next pass when it is over. *)
Lemma chat_loop_spaced nows : ∀ id input w now,
  1 <= win_count w → win_count w + zlen nows < 2 ^ 32 → win_start w <= now → ordered now nows →
  spaced (win_start w :: map fst (chat_loop nows id input w).1).
Proof.
  induction nows as [|t nows IH]; intros id input w now Hc Hn Hw Ho; cbn [chat_loop]; destruct (read_chat input) as [|e|kind payload rest]; try done.
  destruct Ho as [Ht Ho]. rewrite zlen_cons in Hn. pose proof (zlen_nonneg nows) as H0.
  destruct (Z.le_gt_cases CHAT_RATE_WINDOW (t - win_start w)) as [Hge|Hlt].
  - rewrite chat_limit_over by lia. specialize (IH id rest (mkWindow t 1) t). cbn [win_start win_count] in IH.
    destruct (chat_loop nows id rest (mkWindow t 1)) as [out r]. split; [done|]. apply IH; [lia|lia|lia|done].
  - rewrite chat_limit_within by lia. rewrite (proj2 (Z.eqb_neq _ _)) by lia.
    specialize (IH id rest (mkWindow (win_start w) (win_count w + 1)) t). cbn [win_start win_count] in IH.
    destruct (chat_loop nows id rest _) as [out r]. apply IH; [lia|lia|lia|done].
Qed.

Lemma chat_loop_content nows : ∀ msgs id w,
  Forall chat_msg_ok msgs → (length msgs <= length nows)%nat →
  let '(out, r) := chat_loop nows id (concat (map chat_wire msgs)) w in
  r = Some (Ok ()) ∧ map snd out `sublist_of` map (λ m, chat_message (chat_payload m).1 id (chat_payload m).2) msgs ∧
  map fst out `sublist_of` nows.
Proof.
  induction nows as [|t nows IH]; intros msgs id w Hm Hl.
  - destruct msgs; [|cbn in Hl; lia]. cbn. split_and!; [done|constructor|constructor].
  - destruct msgs as [|m msgs]; [cbn; split_and!; [done|constructor|apply sublist_nil_l]|].
    apply Forall_cons in Hm as [Hm Hms]. cbn [map concat chat_loop]. rewrite read_chat_wire by done.
    destruct (chat_limit t w) as [w' pass]. specialize (IH msgs id w' Hms). cbn [length] in Hl.
    destruct (chat_loop nows id (concat (map chat_wire msgs)) w') as [out r]. destruct IH as (I1 & I2 & I3); [lia|].
    split; [done|]. destruct pass; cbn [map snd fst]; split; by constructor.
Qed.

(** The first message passes, and opens a window. *)
Lemma chat_loop_first nows msgs id start :
  Forall chat_msg_ok msgs → (length msgs <= length nows)%nat → ordered start nows → zlen nows < 2 ^ 32 - 1 →
  let out := (chat_loop nows id (concat (map chat_wire msgs)) (mkWindow start 0)).1 in
  (msgs ≠ [] → out ≠ []) ∧ spaced (start :: tail (map fst out)).
Proof.
  intros Hm Hl Ho Hn. destruct msgs as [|m msgs]; [by destruct nows|]. destruct nows as [|t nows]; [cbn in Hl; lia|].
  apply Forall_cons in Hm as [Hm _]. destruct Ho as [Ht Ho]. rewrite zlen_cons in Hn. pose proof (zlen_nonneg nows).
  cbn [map concat chat_loop]. rewrite read_chat_wire by done.
  assert (∃ s, chat_limit t (mkWindow start 0) = (mkWindow s 1, true) ∧ start <= s <= t) as (s & -> & Hs).
  { destruct (Z.le_gt_cases CHAT_RATE_WINDOW (t - start)).
    - exists t. by rewrite chat_limit_over.
    - exists start. by rewrite chat_limit_within. }
  pose proof (chat_loop_spaced nows id (concat (map chat_wire msgs)) (mkWindow s 1) t) as Hsp. cbn [win_start win_count] in Hsp.
  destruct (chat_loop nows id _ (mkWindow s 1)) as [out r].
  cbn [fst map tail] in *. split; [done|]. specialize (Hsp ltac:(lia) ltac:(lia) ltac:(lia) Ho).
  destruct (map fst out) as [|t1 ts]; [done|]. destruct Hsp as [H1 H2]. split; [lia|exact H2].
Qed.

(** A viewer's chat.  What is published are messages of the viewer, in order, under its
    number: the first always is, the second no earlier than five seconds after the connection,
    and every later one no earlier than five seconds after the one before.  The connection
    ends well when the viewer leaves. *)
Theorem viewer_chat_spec start nows msgs sh :
  Forall chat_msg_ok msgs → (length msgs <= length nows)%nat → ordered start nows → zlen nows < 2 ^ 32 - 1 →
  let '(sh', told, out, r) := serve_chat start nows (concat (map chat_wire msgs)) sh in
  told = le_bytes 4 (sh_next_id sh) ∧ r = Some (Ok ()) ∧ sh_chat sh' = sh_chat sh ++ map snd out ∧
  map snd out `sublist_of` map (λ m, chat_message (chat_payload m).1 (sh_next_id sh) (chat_payload m).2) msgs ∧
  map fst out `sublist_of` nows ∧
  (msgs ≠ [] → out ≠ []) ∧ spaced (start :: tail (map fst out)).
Proof.
  intros Hm Hl Ho Hn. unfold serve_chat, alloc_id.
  pose proof (chat_loop_content nows msgs (sh_next_id sh) (mkWindow start 0) Hm Hl) as Hc.
  pose proof (chat_loop_first nows msgs (sh_next_id sh) start Hm Hl Ho Hn) as [S1 S2].
  destruct (chat_loop nows _ _ _) as [out r]. destruct Hc as (C1 & C2 & C3). cbn [fst] in *.
  split_and!; try done. clear. set (sh1 := sh <| sh_next_id := _ |>). change (sh_chat sh) with (sh_chat sh1).
  generalize sh1. clear. induction out as [|m out IH]; intros sh; [by rewrite app_nil_r|].
  cbn [foldl map]. rewrite IH. cbn. by rewrite <- app_assoc.
Qed.
End chatting.

Lemma viewer_chat_spec_witness :
  let '(sh, told, out, r) :=
    serve_chat 0 [1000000000; 2000000000; 6000000000] (concat (map chat_wire [ChatText (str "hi"); ChatText (str "spam"); ChatPing [1; 2; 3; 4]]))
      (new_shared for_126a) in
  map fst out = [1000000000; 6000000000] ∧ spaced (0 :: tail (map fst out)) ∧ sh_chat sh = map snd out.
Proof.
  pose proof (viewer_chat_spec 0 [1000000000; 2000000000; 6000000000] [ChatText (str "hi"); ChatText (str "spam"); ChatPing [1; 2; 3; 4]]
    (new_shared for_126a)) as H.
  assert (map fst (serve_chat 0 [1000000000; 2000000000; 6000000000] (concat (map chat_wire [ChatText (str "hi"); ChatText (str "spam"); ChatPing [1; 2; 3; 4]]))
      (new_shared for_126a)).1.2 = [1000000000; 6000000000]) as Ht by (vm_compute; reflexivity).
  destruct (serve_chat _ _ _ _) as [[[sh told] out] r]. destruct H as (_ & _ & H1 & _ & _ & _ & H2).
  - repeat (apply Forall_cons_2; [vm_compute; congruence|]). apply Forall_nil_2.
  - cbn. lia.
  - cbn. lia.
  - reflexivity.
  - split; [exact Ht|]. split; [exact H2|exact H1].
Defined.
