(* ===== verification/Config.v ===== *)
(** The configuration (spectre, src/config.rs): its records, the legacy format of keys and
    values, and what is made of a TOML file once the toml package has read it. *)
From S2P Require Import Prelude Utf8 Text W3gs Slots BnetClient Map.

Definition SEC : Z := 1000000000.

(** ** The records *)

Record BotConfig := mkBot {
  b_war3_path : bytes; b_map_path : bytes; b_default_map : option bytes; b_max_games : Z; b_tft : bool;
  b_bind_address : bytes; b_host_port : Z; b_port_pool_start : option Z; b_port_pool_end : option Z;
  b_gproxy_reconnect_port : Z; b_udp_broadcast_target : bytes }.

(** Durations are in nanoseconds. *)
Record GameDefaults := mkDefaults {
  gd_latency : Z; gd_sync_limit : Z; gd_virtual_host_name : bytes; gd_reconnect_wait : Z; gd_max_downloaders : Z;
  gd_max_download_speed : Z; gd_allow_downloads : Z; gd_autokick_ping : Z; gd_lc_pings : bool; gd_spoof_checks : Z;
  gd_require_spoof_checks : bool; gd_lobby_time_limit : Z; gd_hcl_from_game_name : bool; gd_votekick_allowed : bool;
  gd_votekick_percentage : Z }.

Record SpectatorConfig := mkSpectator {
  sc_enabled : bool; sc_port : Z; sc_dotatv_enabled : bool; sc_dotatv_port : Z; sc_delay : Z; sc_max_viewers : Z;
  sc_history_max_mb : Z }.

Record Config := mkCfg {
  cf_bot : BotConfig; cf_bnet : BnetConfig; cf_game : GameDefaults; cf_spectator : SpectatorConfig;
  cf_db_path : bytes; cf_maps : gmap bytes MapOverride }.

(** ** What the code uses of Rust's texts *)

(** [str::trim]. *)
Fixpoint skip_spaces (cs : list bytes) : list bytes :=
  match cs with
  | c :: rest => if is_whitespace c then skip_spaces rest else cs
  | [] => []
  end.
Definition trim (s : bytes) : bytes := concat (rev (skip_spaces (rev (skip_spaces (chars s))))).

(** [str::lines]: a carriage return before the end of a line belongs to the end. *)
Definition strip_cr (line : bytes) : bytes :=
  match rev line with b :: r => if b =? 13 then rev r else line | [] => line end.
Fixpoint lines_from (s line : bytes) : list bytes :=
  match s with
  | [] => match line with [] => [] | _ => [line] end
  | b :: s => if b =? 10 then strip_cr line :: lines_from s [] else lines_from s (line ++ [b])
  end.
Definition lines (s : bytes) : list bytes := lines_from s [].

(** [str::split_once] at a character of one byte. *)
Fixpoint split_once (c : Z) (s : bytes) : option (bytes * bytes) :=
  match s with
  | [] => None
  | b :: s => if b =? c then Some ([], s) else '(k, v) ← split_once c s; Some (b :: k, v)
  end.

(** [str::parse] into an [i32]. *)
Definition parse_i32 (s : bytes) : option Z :=
  match s with
  | b :: ((_ :: _) as r) =>
    if b =? 45 then n ← parse_digits 32 0 r; if n <=? 2 ^ 31 then Some (- n) else None else parse_uint 31 s
  | _ => parse_uint 31 s
  end.

(** [str::parse] into an [Ipv4Addr]: four numbers of at most three digits, without zeros in
    front. *)
Fixpoint split_dots (s part : bytes) : list bytes :=
  match s with
  | [] => [part]
  | b :: s => if b =? 46 then part :: split_dots s [] else split_dots s (part ++ [b])
  end.
Definition parse_octet (s : bytes) : option Z :=
  if (length s =? 0)%nat || (3 <? length s)%nat || ((1 <? length s)%nat && starts_with (str "0") s) then None
  else n ← parse_digits 32 0 s; if n <? 256 then Some n else None.
Definition parse_ipv4 (s : bytes) : option bytes :=
  match split_dots s [] with
  | [a; b; c; d] => mapM parse_octet [a; b; c; d]
  | _ => None
  end.

(** ** The methods of the bot's configuration *)

Definition BROADCAST : bytes := [255; 255; 255; 255].

Definition resolved_udp_broadcast_target (b : BotConfig) : bytes :=
  let trimmed := trim (b_udp_broadcast_target b) in
  match trimmed with [] => BROADCAST | _ => default BROADCAST (parse_ipv4 trimmed) end.

Definition is_port_pool_enabled (b : BotConfig) : bool :=
  match b_port_pool_start b, b_port_pool_end b with Some _, Some _ => true | _, _ => false end.

Definition port_pool_range (b : BotConfig) : Z * Z :=
  let start := default (b_host_port b) (b_port_pool_start b) in
  let last := default start (b_port_pool_end b) in
  (Z.min start last, Z.max start last).

(** ** The defaults *)

Definition default_war3_path : bytes := str "war3".
Definition default_map_path : bytes := str "maps".
Definition default_max_games : Z := 20.
Definition default_true : bool := true.
Definition default_bind_address : bytes := str "0.0.0.0".
Definition default_host_port : Z := 6112.
Definition default_bnet_server : bytes := str "wc3.theabyss.ru".
Definition default_bnet_port : Z := 6112.
Definition default_bnet_username : bytes := str "BOT".
Definition default_cdkey : bytes := str "FFFFFFFFFFFFFFFFFFFFFFFFFF".
Definition default_first_channel : bytes := str "The Abyss".
Definition default_command_trigger : bytes := str "!".
Definition default_war3_version : Z := 26.
Definition default_reconnect_delay_sec : Z := 5.
Definition default_password_hash_type : bytes := str "pvpgn".
Definition default_latency_ms : Z := 100.
Definition default_sync_limit : Z := 50.
Definition default_virtual_host_name : bytes := str "|cFF4080C0Spectre".
Definition default_reconnect_wait_sec : Z := 180.
Definition default_gproxy_reconnect_port : Z := 6114.
Definition default_dotatv_port : Z := 6116.
Definition default_spectator_port : Z := 6115.
Definition default_spectator_delay_sec : Z := 120.
Definition default_max_viewers : Z := 32.
Definition default_history_max_mb : Z := 64.
Definition default_db_path : bytes := str "spectre.db".
Definition default_max_downloaders : Z := 3.
Definition default_max_download_speed : Z := 100.
Definition default_allow_downloads : Z := 1.
Definition default_autokick_ping : Z := 400.
Definition default_lc_pings : bool := true.
Definition default_spoof_checks : Z := 0.
Definition default_false : bool := false.
Definition default_lobby_time_limit : Z := 10.
Definition default_votekick_percentage : Z := 100.

(** ** The legacy format *)

Inductive ConfigError := ParseInt (key v : bytes) | TomlError (msg : bytes) | ReadError (msg : bytes).

Section legacy.
Context `{Unicode}.

(** A line of the file: nothing, or a key and its value. *)
Definition config_line (line : bytes) : option (bytes * bytes) :=
  let trimmed := trim line in
  if (length trimmed =? 0)%nat || starts_with (str "#") trimmed then None
  else '(k, v) ← split_once 61 trimmed; Some (to_lowercase (trim k), trim v).

(** [HashMap::insert], line after line. *)
Definition config_map (s : bytes) : gmap bytes bytes :=
  foldl (λ m line, match config_line line with Some (k, v) => <[k := v]> m | None => m end) ∅ (lines s).

Definition parse_int (parser : bytes → option Z) (m : gmap bytes bytes) (key : string) (d : Z) : result ConfigError Z :=
  match m !! str key with
  | Some v => match parser v with Some n => Ok n | None => Err (ParseInt (str key) v) end
  | None => Ok d
  end.

Definition parse_bool (m : gmap bytes bytes) (key : string) (d : bool) : bool :=
  match m !! str key with
  | Some v => bytes_eqb v (str "1") || eq_ignore_ascii_case v (str "true")
  | None => d
  end.

Definition get_or (m : gmap bytes bytes) (key : string) (d : bytes) : bytes := default d (m !! str key).

Definition parse_u16 := parse_int (parse_uint 16).
Definition parse_u32 := parse_int (parse_uint 32).
Definition parse_u64 := parse_int (parse_uint 64).
Definition parse_int32 := parse_int parse_i32.

(** The numbers that [parse] reads with [?], in its order. *)
Record Numbers := mkNumbers {
  n_maxgames : Z; n_hostport : Z; n_serverport : Z; n_war3version : Z; n_latency : Z; n_synclimit : Z;
  n_reconnectwait : Z; n_maxdownloaders : Z; n_maxdownloadspeed : Z; n_allowdownloads : Z; n_autokickping : Z;
  n_spoofchecks : Z; n_spectator_port : Z; n_dotatv_port : Z; n_spectator_delay : Z; n_maxviewers : Z;
  n_history_max_mb : Z; n_reconnectport : Z; n_votekickpercentage : Z }.

Definition read_numbers (m : gmap bytes bytes) : result ConfigError Numbers :=
  a ← parse_u64 m "bot_maxgames" 20;
  b ← parse_u16 m "bot_hostport" 6112;
  c ← parse_int32 m "bnet_serverport" 6112;
  d ← parse_int32 m "bnet_custom_war3version" 26;
  e ← parse_u64 m "bot_latency" 100;
  f ← parse_int32 m "bot_synclimit" 50;
  g ← parse_u64 m "bot_reconnectwaittime" 180;
  h ← parse_u32 m "bot_maxdownloaders" 3;
  i ← parse_u32 m "bot_maxdownloadspeed" 100;
  j ← parse_int32 m "bot_allowdownloads" 1;
  k ← parse_u32 m "bot_autokickping" 400;
  l ← parse_int32 m "bnet_spoofchecks" 0;
  n ← parse_u16 m "spectator_port" 6115;
  o ← parse_u16 m "spectator_dotatv_port" 6116;
  p ← parse_u64 m "spectator_delay" 120;
  q ← parse_u64 m "spectator_maxviewers" 32;
  r ← parse_u64 m "spectator_history_max_mb" 64;
  s ← parse_u16 m "bot_reconnectport" 6114;
  t ← parse_u32 m "bot_votekickpercentage" 100;
  Ok (mkNumbers a b c d e f g h i j k l n o p q r s t).

(** [s.chars().next()]. *)
Definition first_char (s : bytes) : option bytes := head (chars s).

(** The configuration that the entries and their numbers make. *)
Definition build (m : gmap bytes bytes) (n : Numbers) : Config :=
  let server := get_or m "bnet_server" (str "wc3.theabyss.ru") in
  mkCfg
    (mkBot (get_or m "bot_war3path" []) (get_or m "bot_mappath" (str "maps/")) (m !! str "bot_defaultmap") (n_maxgames n)
       (parse_bool m "bot_tft" true) (get_or m "bot_bindaddress" (str "0.0.0.0")) (n_hostport n) None None (n_reconnectport n)
       (default [] (match m !! str "udp_broadcasttarget" with Some v => Some v | None => m !! str "udp_broadcast_target" end)))
    (BnetClient.mkConfig server (get_or m "bnet_serveralias" server) (get_or m "bnet_custom_pvpgnrealmname" []) (wrap 16 (n_serverport n))
       (n_hostport n) (get_or m "bnet_username" (str "BOT")) (get_or m "bnet_password" [])
       (get_or m "bnet_cdkeyroc" default_cdkey) (get_or m "bnet_cdkeytft" default_cdkey) (get_or m "bnet_firstchannel" (str "The Abyss"))
       (match m !! str "bnet_rootadmin" with Some s => split_whitespace s | None => [] end)
       (default (str "!") (m !! str "bnet_commandtrigger" ≫= first_char)) (wrap 8 (n_war3version n)) [1; 0; 26; 1] [0; 0; 0; 0]
       (get_or m "bnet_custom_passwordhashtype" (str "pvpgn")) (5 * SEC))
    (mkDefaults (n_latency n * 1000000) (wrap 32 (n_synclimit n)) (get_or m "bot_virtualhostname" (str "|cFF4080C0Spectre"))
       (n_reconnectwait n * SEC) (n_maxdownloaders n) (n_maxdownloadspeed n) (wrap 8 (n_allowdownloads n)) (n_autokickping n)
       (parse_bool m "bot_lcpings" true) (wrap 8 (n_spoofchecks n)) (parse_bool m "bnet_requirespoofchecks" false)
       (wrap 32 (unwrap_or (parse_int32 m "bot_lobbytimelimit" 10) 10)) (parse_bool m "bot_hclfromgamename" true)
       (parse_bool m "bot_votekickallowed" true) (n_votekickpercentage n))
    (mkSpectator (parse_bool m "spectator_enabled" false) (n_spectator_port n) (parse_bool m "spectator_dotatv_enabled" true)
       (n_dotatv_port n) (n_spectator_delay n * SEC) (n_maxviewers n) (n_history_max_mb n))
    (get_or m "db_path" (str "spectre.db")) ∅.

Definition parse (s : bytes) : result ConfigError Config :=
  let m := config_map s in
  n ← read_numbers m;
  Ok (build m n).
End legacy.

(** ** TOML

    What the toml package makes of a file: the tables that are there, in the types of the
    records, with the defaults of their fields. *)

Inductive TomlValue := TBool (v : bool) | TInteger (i : Z) | TString (s : bytes) | TOther.

(** The visitor of [deserialize_allow_downloads]; other types of values are errors. *)
Definition visit_bool (v : bool) : Z := if v then 1 else 0.
Definition visit_i64 (v : Z) : Z := Z.max 0 (Z.min v 2).
Definition visit_u64 (v : Z) : Z := Z.min v 2.
Definition visit_str (v : bytes) : result ConfigError Z :=
  let l := map to_ascii_lower v in
  if bytes_eqb l (str "true") || bytes_eqb l (str "1") then Ok 1
  else if bytes_eqb l (str "false") || bytes_eqb l (str "0") then Ok 0
  else if bytes_eqb l (str "conditional") || bytes_eqb l (str "2") then Ok 2
  else Err (TomlError (str "invalid allow_downloads value: " ++ v)).

Definition deserialize_allow_downloads (v : TomlValue) : result ConfigError Z :=
  match v with
  | TBool b => Ok (visit_bool b)
  | TInteger i => Ok (visit_i64 i)
  | TString s => visit_str s
  | TOther => Err (TomlError (str "a boolean (true/false) or integer (0, 1, 2)"))
  end.

Record TomlBot := mkTomlBot {
  tb_war3_path : bytes; tb_map_path : bytes; tb_default_map : option bytes; tb_max_games : Z; tb_tft : bool;
  tb_bind_address : bytes; tb_host_port : Z; tb_port_pool_start : option Z; tb_port_pool_end : option Z;
  tb_gproxy_reconnect_port : Z; tb_udp_broadcast_target : option bytes; tb_allow_downloads : option TomlValue;
  tb_max_downloaders : option Z; tb_max_download_speed : option Z; tb_autokick_ping : option Z; tb_lc_pings : option bool }.

Definition TomlBot_default : TomlBot :=
  mkTomlBot default_war3_path default_map_path None default_max_games default_true default_bind_address default_host_port
    None None default_gproxy_reconnect_port None None None None None None.

Record TomlBnet := mkTomlBnet {
  tn_server : bytes; tn_port : Z; tn_username : bytes; tn_password : bytes; tn_cdkey_roc : bytes; tn_cdkey_tft : bytes;
  tn_first_channel : bytes; tn_root_admins : list bytes; tn_command_trigger : bytes; tn_war3_version : Z;
  tn_reconnect_delay_sec : Z; tn_password_hash_type : bytes; tn_server_alias : option bytes; tn_pvpgn_realm_name : option bytes }.

Definition TomlBnet_default : TomlBnet :=
  mkTomlBnet default_bnet_server default_bnet_port default_bnet_username [] default_cdkey default_cdkey default_first_channel
    [] default_command_trigger default_war3_version default_reconnect_delay_sec default_password_hash_type None None.

Record TomlGame := mkTomlGame {
  tg_latency_ms : Z; tg_sync_limit : Z; tg_virtual_host_name : bytes; tg_reconnect_wait_sec : Z; tg_max_downloaders : Z;
  tg_max_download_speed : Z; tg_allow_downloads : Z; tg_autokick_ping : Z; tg_lc_pings : bool; tg_spoof_checks : Z;
  tg_require_spoof_checks : bool; tg_lobby_time_limit : Z; tg_hcl_from_game_name : bool; tg_votekick_allowed : bool;
  tg_votekick_percentage : Z }.

Definition TomlGame_default : TomlGame :=
  mkTomlGame default_latency_ms default_sync_limit default_virtual_host_name default_reconnect_wait_sec default_max_downloaders
    default_max_download_speed default_allow_downloads default_autokick_ping default_lc_pings default_spoof_checks default_false
    default_lobby_time_limit default_true default_true default_votekick_percentage.

Record TomlSpectator := mkTomlSpectator {
  ts_enabled : bool; ts_port : Z; ts_dotatv_enabled : bool; ts_dotatv_port : Z; ts_delay_sec : Z; ts_max_viewers : Z;
  ts_history_max_mb : Z }.

Definition TomlSpectator_default : TomlSpectator :=
  mkTomlSpectator false default_spectator_port true default_dotatv_port default_spectator_delay_sec default_max_viewers default_history_max_mb.

Record TomlDatabase := mkTomlDatabase { td_path : bytes }.
Definition TomlDatabase_default : TomlDatabase := mkTomlDatabase default_db_path.

(** A [MapOverride] without custom slots. *)
Record TomlMapOverride := mkTomlMap {
  tm_speed : option Z; tm_visibility : option Z; tm_observers : option Z; tm_flags : option Z; tm_game_type : option Z;
  tm_filter_maker : option Z; tm_filter_type : option Z; tm_filter_size : option Z; tm_filter_obs : option Z;
  tm_options : option Z; tm_width : option Z; tm_height : option Z; tm_num_players : option Z; tm_num_teams : option Z;
  tm_map_type : option bytes; tm_matchmaking_category : option bytes; tm_default_hcl : option bytes;
  tm_default_player_score : option Z; tm_loading_in_game : option bool; tm_local_path : option bytes; tm_max_slots : option Z }.

Definition from_toml_map (t : TomlMapOverride) : MapOverride :=
  mkOverride (tm_speed t) (tm_visibility t) (tm_observers t) (tm_flags t) (tm_game_type t) (tm_filter_maker t) (tm_filter_type t)
    (tm_filter_size t) (tm_filter_obs t) (tm_options t) (tm_width t) (tm_height t) (tm_num_players t) (tm_num_teams t) None
    (tm_map_type t) (tm_matchmaking_category t) (tm_default_hcl t) (tm_default_player_score t) (tm_loading_in_game t)
    (tm_local_path t) (tm_max_slots t).

Record TomlConfig := mkTomlConfig {
  t_bot : option TomlBot; t_bnet : option TomlBnet; t_game : option TomlGame; t_spectator : option TomlSpectator;
  t_database : option TomlDatabase; t_maps : gmap bytes TomlMapOverride }.

(** [allow_downloads] of the bot's table, which goes before the game's. *)
Definition bot_allow_downloads (v : option TomlValue) (d : Z) : Z :=
  match v with
  | Some (TBool b) => if b then 1 else 0
  | Some (TInteger i) => Z.max 0 (Z.min i 2)
  | Some (TString s) =>
    if eq_ignore_ascii_case s (str "true") || bytes_eqb s (str "1") then 1
    else if eq_ignore_ascii_case s (str "false") || bytes_eqb s (str "0") then 0
    else if eq_ignore_ascii_case s (str "conditional") || bytes_eqb s (str "2") then 2
    else d
  | _ => d
  end.

(** [from_toml] after the package has read the text. *)
Definition from_toml (t : TomlConfig) : Config :=
  let bot := default TomlBot_default (t_bot t) in
  let bnet := default TomlBnet_default (t_bnet t) in
  let game := default TomlGame_default (t_game t) in
  let spectator := default TomlSpectator_default (t_spectator t) in
  let database := default TomlDatabase_default (t_database t) in
  mkCfg
    (mkBot (tb_war3_path bot) (tb_map_path bot) (tb_default_map bot) (tb_max_games bot) (tb_tft bot) (tb_bind_address bot)
       (tb_host_port bot) (tb_port_pool_start bot) (tb_port_pool_end bot) (tb_gproxy_reconnect_port bot)
       (default [] (tb_udp_broadcast_target bot)))
    (BnetClient.mkConfig (tn_server bnet) (default (tn_server bnet) (tn_server_alias bnet)) (default [] (tn_pvpgn_realm_name bnet))
       (tn_port bnet) (tb_host_port bot) (tn_username bnet) (tn_password bnet) (tn_cdkey_roc bnet) (tn_cdkey_tft bnet)
       (tn_first_channel bnet) (tn_root_admins bnet) (tn_command_trigger bnet) (tn_war3_version bnet) [1; 0; 26; 1] [0; 0; 0; 0]
       (tn_password_hash_type bnet) (tn_reconnect_delay_sec bnet * SEC))
    (mkDefaults (tg_latency_ms game * 1000000) (tg_sync_limit game) (tg_virtual_host_name game) (tg_reconnect_wait_sec game * SEC)
       (default (tg_max_downloaders game) (tb_max_downloaders bot)) (default (tg_max_download_speed game) (tb_max_download_speed bot))
       (bot_allow_downloads (tb_allow_downloads bot) (tg_allow_downloads game)) (default (tg_autokick_ping game) (tb_autokick_ping bot))
       (default (tg_lc_pings game) (tb_lc_pings bot)) (tg_spoof_checks game) (tg_require_spoof_checks game) (tg_lobby_time_limit game)
       (tg_hcl_from_game_name game) (tg_votekick_allowed game) (tg_votekick_percentage game))
    (mkSpectator (ts_enabled spectator) (ts_port spectator) (ts_dotatv_enabled spectator) (ts_dotatv_port spectator)
       (ts_delay_sec spectator * SEC) (ts_max_viewers spectator) (ts_history_max_mb spectator))
    (td_path database) (from_toml_map <$> t_maps t).

(** [load]: by the extension of the file; [toml_from_str] is the package's. *)
Definition load `{Unicode} (toml_from_str : bytes → result bytes TomlConfig) (content : result bytes bytes)
    (extension : option bytes) : result ConfigError Config :=
  match content with
  | Err msg => Err (ReadError msg)
  | Ok s =>
    if bool_decide (extension = Some (str "toml")) then
      match toml_from_str s with Ok t => Ok (from_toml t) | Err msg => Err (TomlError msg) end
    else parse s
  end.

(** ** What is read is what was written *)

Section theorems.
Context `{Unicode}.

(** A line of a file of keys and values. *)
Inductive cfg_line := Entry (before : bytes) (key : bytes) (middle : bytes) (value : bytes) | Comment (text : bytes) | Blank (spaces : bytes).

Definition blanks (s : bytes) : Prop := Forall (λ b, b = 32 ∨ b = 9) s.

Definition cfg_line_ok (l : cfg_line) : Prop :=
  match l with
  | Entry before key middle value =>
    blanks before ∧ blanks middle ∧ key ≠ [] ∧ Forall (λ b, 33 <= b < 127 ∧ b ≠ 61 ∧ b ≠ 35) key ∧
    Forall (λ b, 32 <= b < 127) value ∧ trim value = value
  | Comment text => Forall (λ b, 32 <= b < 127) text
  | Blank spaces => blanks spaces
  end.

Definition cfg_text (l : cfg_line) : bytes :=
  match l with
  | Entry before key middle value => before ++ key ++ middle ++ [61] ++ middle ++ value
  | Comment text => [35] ++ text
  | Blank spaces => spaces
  end.

Definition cfg_entry (l : cfg_line) : option (bytes * bytes) :=
  match l with Entry _ key _ value => Some (map to_ascii_lower key, value) | _ => None end.

(** Whether lines end in the manner of Unix or of DOS. *)
Definition cfg_file (dos : bool) (ls : list cfg_line) : bytes :=
  concat (map (λ l, cfg_text l ++ (if dos then [13; 10] else [10])) ls).

Lemma lines_from_app line : ∀ rest acc,
  Forall (λ b, b ≠ 10) line → lines_from (line ++ 10 :: rest) acc = strip_cr (acc ++ line) :: lines_from rest [].
Proof.
  induction line as [|b line IH]; intros rest acc Hl; cbn [app lines_from].
  - by rewrite app_nil_r.
  - apply Forall_cons in Hl as [Hb Hl]. rewrite (proj2 (Z.eqb_neq b 10)) by done. rewrite IH by done. by rewrite <- app_assoc.
Qed.

Lemma strip_cr_cr line : strip_cr (line ++ [13]) = line.
Proof. unfold strip_cr. rewrite rev_app_distr. cbn. apply rev_involutive. Qed.

Lemma strip_cr_other line : Forall (λ b, b ≠ 13) line → strip_cr line = line.
Proof.
  intros Hl. unfold strip_cr. destruct (rev line) as [|b r] eqn:E; [done|].
  rewrite (proj2 (Z.eqb_neq b 13)); [done|]. rewrite Forall_forall in Hl. apply Hl.
  apply list_elem_of_In, in_rev. rewrite E. by left.
Qed.

(** *** Trimming an ASCII text *)

Definition space (b : Z) : bool := is_whitespace [b].
Definition ascii (s : bytes) : Prop := Forall (λ b, b < 128) s.

Fixpoint drop_spaces (s : bytes) : bytes :=
  match s with b :: r => if space b then drop_spaces r else s | [] => [] end.

Lemma ascii_chars s : ascii s → chars s = map (λ b, [b]) s.
Proof.
  induction 1 as [|b s Hb _ IH]; [done|]. change (b :: s) with ([b] ++ s). rewrite chars_app by by apply is_char_ascii.
  by rewrite IH.
Qed.

Lemma skip_spaces_map s : skip_spaces (map (λ b, [b]) s) = map (λ b, [b]) (drop_spaces s).
Proof. induction s as [|b s IH]; [done|]. cbn [map skip_spaces drop_spaces]. unfold space. by destruct (is_whitespace [b]). Qed.

Lemma concat_singletons (s : bytes) : concat (map (λ b, [b]) s) = s.
Proof. induction s as [|b s IH]; [done|]. cbn. by rewrite IH. Qed.

Lemma trim_ascii s : ascii s → trim s = rev (drop_spaces (rev (drop_spaces s))).
Proof.
  intros Hs. unfold trim. by rewrite ascii_chars, skip_spaces_map, <- map_rev, skip_spaces_map, <- map_rev, concat_singletons.
Qed.

Lemma drop_spaces_app a b s : Forall (λ b, space b = true) a → drop_spaces (a ++ s) = drop_spaces s ∧ (space b = false → drop_spaces (b :: s) = b :: s).
Proof.
  intros Ha. split; [|intros Hb; cbn [drop_spaces]; by rewrite Hb].
  induction Ha as [|x a Hx _ IH]; [done|]. cbn [app drop_spaces]. by rewrite Hx.
Qed.

Lemma drop_spaces_before x b s : space b = false → drop_spaces (x ++ b :: s) = drop_spaces x ++ b :: s.
Proof.
  intros Hb. induction x as [|a x IH]; cbn [app drop_spaces]; [by rewrite Hb|]. by destruct (space a).
Qed.

Lemma drop_spaces_le s : (length (drop_spaces s) <= length s)%nat ∧ (length (drop_spaces s) = length s → drop_spaces s = s).
Proof.
  induction s as [|b s [IH1 IH2]]; [done|]. cbn [drop_spaces length]. destruct (space b); [|done]. split; [lia|intros; lia].
Qed.

(** A text that trimming leaves alone has no space at either end. *)
Lemma trimmed_ends s : ascii s → trim s = s → drop_spaces s = s ∧ drop_spaces (rev s) = rev s.
Proof.
  intros Ha. rewrite trim_ascii by done. intros E. destruct (drop_spaces_le s) as [L1 F1].
  destruct (drop_spaces_le (rev (drop_spaces s))) as [L2 F2]. rewrite length_rev in *.
  pose proof (f_equal length E) as El. rewrite length_rev in El.
  assert (drop_spaces s = s) as E1 by (apply F1; lia). split; [done|]. rewrite E1 in *. apply F2. by rewrite El.
Qed.

Lemma space_spec b : space b = true ↔ 9 <= b <= 13 ∨ b = 32.
Proof. unfold space, is_whitespace. rewrite orb_true_iff, andb_true_iff, !Z.leb_le, Z.eqb_eq. lia. Qed.
Lemma space_false b : 33 <= b → space b = false.
Proof. intros Hb. destruct (space b) eqn:E; [|done]. apply space_spec in E. lia. Qed.
Lemma blanks_spaces s : blanks s → Forall (λ b, space b = true) s.
Proof. intros Hs. eapply Forall_impl; [exact Hs|]. intros b Hb. apply space_spec. cbv beta in Hb. lia. Qed.
Lemma blanks_ascii s : blanks s → ascii s ∧ Forall (λ b, b ≠ 61) s.
Proof. intros Hs. split; (eapply Forall_impl; [exact Hs|]); cbv beta; lia. Qed.

Lemma drop_blanks s rest : blanks s → drop_spaces (s ++ rest) = drop_spaces rest.
Proof. intros Hs. by apply (drop_spaces_app s 0 rest), blanks_spaces. Qed.
Lemma drop_rev_blanks s rest : blanks s → drop_spaces (rev s ++ rest) = drop_spaces rest.
Proof. intros Hs. apply drop_blanks. by apply Forall_rev. Qed.
Lemma drop_word b s : 33 <= b → drop_spaces (b :: s) = b :: s.
Proof. intros Hb. cbn [drop_spaces]. by rewrite space_false. Qed.

Lemma split_once_app c k v : Forall (λ b, b ≠ c) k → split_once c (k ++ c :: v) = Some (k, v).
Proof.
  induction 1 as [|b k Hb _ IH]; cbn [app split_once]; [by rewrite Z.eqb_refl|]. by rewrite (proj2 (Z.eqb_neq b c)), IH.
Qed.

(** What is left of a value between spaces. *)
Lemma trim_value middle value :
  blanks middle → ascii value → trim value = value →
  ascii (rev (drop_spaces (rev (middle ++ value)))) ∧ trim (rev (drop_spaces (rev (middle ++ value)))) = value.
Proof.
  intros Hm Ha Ht. destruct (trimmed_ends value Ha Ht) as [E1 E2]. rewrite rev_app_distr.
  assert (drop_spaces (rev value ++ rev middle) = match value with [] => [] | _ => rev value ++ rev middle end) as ->.
  { destruct value as [|x value]; [rewrite <- (app_nil_r (rev middle)); apply (drop_rev_blanks middle [] Hm)|].
    destruct (rev (x :: value)) as [|y r] eqn:E; [apply (f_equal length) in E; rewrite length_rev in E; done|].
    cbn [app drop_spaces] in *. destruct (space y); [|done]. exfalso. apply (f_equal length) in E2. cbn in E2.
    destruct (drop_spaces_le r). lia. }
  destruct value as [|x value]; [done|]. rewrite <- rev_app_distr, rev_involutive.
  assert (ascii (middle ++ x :: value)) as Hall by (apply Forall_app_2; [by apply blanks_ascii|done]).
  split; [done|]. rewrite trim_ascii by done. rewrite drop_blanks by done. by rewrite E1, E2, rev_involutive.
Qed.

Lemma key_ascii key : Forall (λ b, 33 <= b < 127 ∧ b ≠ 61 ∧ b ≠ 35) key → ascii key ∧ Forall (λ b, b ≠ 61) key.
Proof. intros Hk. split; (eapply Forall_impl; [exact Hk|]); cbv beta; lia. Qed.

Lemma is_ascii_true s : ascii s → is_ascii s = true.
Proof. intros Hs. apply forallb_forall. intros b Hb. apply list_elem_of_In in Hb. unfold ascii in Hs. rewrite Forall_forall in Hs. apply Z.ltb_lt. by apply Hs. Qed.

Lemma config_line_entry before key middle value :
  cfg_line_ok (Entry before key middle value) →
  config_line (cfg_text (Entry before key middle value)) = Some (map to_ascii_lower key, value).
Proof.
  intros (Hb & Hm & Hne & Hk & Hv & Ht). destruct (key_ascii key Hk) as [Hka Hk61]. destruct (blanks_ascii middle Hm) as [Hma Hm61].
  assert (ascii value) as Hva by (eapply Forall_impl; [exact Hv|]; cbv beta; lia).
  destruct (trim_value middle value Hm Hva Ht) as [Hza Hz]. set (z := rev _) in Hza, Hz.
  unfold config_line, cfg_text. rewrite trim_ascii; cycle 1.
  { repeat apply Forall_app_2; try done; [by apply blanks_ascii|]. by apply Forall_singleton. }
  rewrite drop_blanks by done. destruct key as [|k0 key]; [done|]. assert (33 <= k0 < 127 ∧ k0 ≠ 35) as Hk0 by (apply Forall_cons in Hk as [? _]; lia).
  assert (drop_spaces ((k0 :: key) ++ middle ++ [61] ++ middle ++ value) = ((k0 :: key) ++ middle) ++ 61 :: middle ++ value) as ->.
  { cbn [app]. rewrite drop_word by lia. by rewrite <- app_assoc. }
  assert (rev (drop_spaces (rev (((k0 :: key) ++ middle) ++ 61 :: middle ++ value))) = ((k0 :: key) ++ middle) ++ 61 :: z) as ->.
  { set (w := (k0 :: key) ++ middle). rewrite rev_app_distr. cbn [rev]. rewrite <- app_assoc. cbn [app].
    rewrite drop_spaces_before by (by apply space_false). rewrite rev_app_distr. cbn [rev]. by rewrite rev_involutive, <- app_assoc. }
  assert (starts_with (str "#") (((k0 :: key) ++ middle) ++ 61 :: z) = false) as ->.
  { cbn [app starts_with str length]. change (Z.of_nat _) with 35. by rewrite (proj2 (Z.eqb_neq 35 k0)) by lia. }
  assert ((length (((k0 :: key) ++ middle) ++ 61%Z :: z) =? 0)%nat = false) as -> by done. cbn [orb].
  rewrite split_once_app by (by apply Forall_app_2). cbn [mbind option_bind]. rewrite Hz. do 2 f_equal.
  assert (trim ((k0 :: key) ++ middle) = k0 :: key) as ->.
  { rewrite trim_ascii by (by apply Forall_app_2). cbn [app]. rewrite drop_word by lia.
    change (k0 :: key ++ middle) with ((k0 :: key) ++ middle). rewrite rev_app_distr, drop_rev_blanks by done.
    assert (Forall (λ b, 33 <= b) (rev (k0 :: key))) as Hr.
    { apply Forall_rev. eapply Forall_impl; [exact Hk|]. cbv beta. lia. }
    destruct (rev (k0 :: key)) as [|y r] eqn:E; [apply (f_equal length) in E; rewrite length_rev in E; done|].
    apply Forall_cons in Hr as [Hy _]. rewrite drop_word by done. by rewrite <- E, rev_involutive. }
  unfold to_lowercase. by rewrite is_ascii_true.
Qed.

Lemma config_line_other l : cfg_line_ok l → cfg_entry l = None → config_line (cfg_text l) = None.
Proof.
  destruct l as [|text|spaces]; cbn [cfg_line_ok cfg_entry cfg_text]; [done| |]; intros Hl _; unfold config_line.
  - assert (ascii ([35] ++ text)) as Ha by (constructor; [lia|]; eapply Forall_impl; [exact Hl|]; cbv beta; lia).
    rewrite trim_ascii by done. cbn [app]. rewrite drop_word by lia. cbn [rev]. rewrite drop_spaces_before by done.
    rewrite rev_app_distr. cbn. done.
  - rewrite trim_ascii by by apply blanks_ascii. pose proof (drop_blanks spaces [] Hl) as E. rewrite app_nil_r in E. by rewrite E.
Qed.

Lemma cfg_text_plain l : cfg_line_ok l → Forall (λ b, b ≠ 10 ∧ b ≠ 13) (cfg_text l).
Proof.
  assert (∀ s, blanks s → Forall (λ b, b ≠ 10 ∧ b ≠ 13) s) as Hb.
  { intros s Hs. eapply Forall_impl; [exact Hs|]. cbv beta. lia. }
  assert (∀ lo s, 32 <= lo → Forall (λ b, lo <= b) s → Forall (λ b, b ≠ 10 ∧ b ≠ 13) s) as Hp.
  { intros lo s H32 Hs. eapply Forall_impl; [exact Hs|]. cbv beta. lia. }
  destruct l as [before key middle value|text|spaces]; cbn [cfg_line_ok cfg_text].
  - intros (H1 & H2 & _ & H3 & H4 & _). repeat apply Forall_app_2; try by apply Hb.
    + apply (Hp 33); [lia|]. eapply Forall_impl; [exact H3|]. cbv beta. lia.
    + by apply Forall_singleton.
    + apply (Hp 32); [lia|]. eapply Forall_impl; [exact H4|]. cbv beta. lia.
  - intros H1. apply Forall_app_2; [by apply Forall_singleton|]. apply (Hp 32); [lia|]. eapply Forall_impl; [exact H1|]. cbv beta. lia.
  - apply Hb.
Qed.

Lemma lines_file dos ls : Forall cfg_line_ok ls → lines (cfg_file dos ls) = map cfg_text ls.
Proof.
  unfold lines, cfg_file. induction 1 as [|l ls Hl _ IH]; [done|]. cbn [map concat].
  pose proof (cfg_text_plain l Hl) as Hp. assert (Forall (λ b, b ≠ 10) (cfg_text l)) as H10 by (eapply Forall_impl; [exact Hp|]; cbv beta; lia).
  destruct dos.
  - change (cfg_text l ++ [13; 10]) with (cfg_text l ++ [13] ++ [10]). rewrite app_assoc, <- app_assoc. cbn [app].
    rewrite lines_from_app by (apply Forall_app_2; [done|by apply Forall_singleton]). rewrite app_nil_l, strip_cr_cr. by rewrite IH.
  - rewrite <- app_assoc. cbn [app]. rewrite lines_from_app by done. rewrite app_nil_l, strip_cr_other; [by rewrite IH|].
    eapply Forall_impl; [exact Hp|]. cbv beta. lia.
Qed.

Lemma config_map_file dos ls :
  Forall cfg_line_ok ls →
  config_map (cfg_file dos ls) = foldl (λ m kv, <[kv.1 := kv.2]> m) ∅ (omap cfg_entry ls).
Proof.
  intros Hls. unfold config_map. rewrite lines_file by done. generalize (∅ : gmap bytes bytes).
  induction Hls as [|l ls Hl _ IH]; intros m; [done|]. cbn [map foldl omap list_omap]. destruct (cfg_entry l) as [[k v]|] eqn:E.
  - destruct l as [before key middle value| |]; try done. rewrite config_line_entry by done. injection E as <- <-. apply IH.
  - rewrite config_line_other by done. apply IH.
Qed.

(** The keys whose values must be numbers, in the order in which they are read. *)
Definition numeric_keys : list (string * (bytes → option Z)) :=
  [("bot_maxgames", parse_uint 64); ("bot_hostport", parse_uint 16); ("bnet_serverport", parse_i32);
   ("bnet_custom_war3version", parse_i32); ("bot_latency", parse_uint 64); ("bot_synclimit", parse_i32);
   ("bot_reconnectwaittime", parse_uint 64); ("bot_maxdownloaders", parse_uint 32); ("bot_maxdownloadspeed", parse_uint 32);
   ("bot_allowdownloads", parse_i32); ("bot_autokickping", parse_uint 32); ("bnet_spoofchecks", parse_i32);
   ("spectator_port", parse_uint 16); ("spectator_dotatv_port", parse_uint 16); ("spectator_delay", parse_uint 64);
   ("spectator_maxviewers", parse_uint 64); ("spectator_history_max_mb", parse_uint 64); ("bot_reconnectport", parse_uint 16);
   ("bot_votekickpercentage", parse_uint 32)].

(** The first of them whose value is not one. *)
Definition malformed (m : gmap bytes bytes) (kp : string * (bytes → option Z)) : option (bytes * bytes) :=
  match m !! str kp.1 with
  | Some v => match kp.2 v with Some _ => None | None => Some (str kp.1, v) end
  | None => None
  end.
Definition first_malformed (m : gmap bytes bytes) : option (bytes * bytes) := head (omap (malformed m) numeric_keys).

Definition numbers_typed (n : Numbers) : Prop :=
  Forall (uN 64) [n_maxgames n; n_latency n; n_reconnectwait n; n_spectator_delay n; n_maxviewers n; n_history_max_mb n] ∧
  Forall (uN 32) [n_maxdownloaders n; n_maxdownloadspeed n; n_autokickping n; n_votekickpercentage n] ∧
  Forall (uN 16) [n_hostport n; n_spectator_port n; n_dotatv_port n; n_reconnectport n].

Lemma parse_int_step {A} parser m key d (f : Z → result ConfigError A) keys (P : A → Prop) (Q : Z → Prop) :
  Q d → (∀ v n, parser v = Some n → Q n) →
  (∀ n, Q n → match head (omap (malformed m) keys) with
              | Some (k, v) => f n = Err (ParseInt k v) | None => ∃ x, f n = Ok x ∧ P x end) →
  match head (omap (malformed m) ((key, parser) :: keys)) with
  | Some (k, v) => (n ← parse_int parser m key d; f n) = Err (ParseInt k v)
  | None => ∃ x, (n ← parse_int parser m key d; f n) = Ok x ∧ P x
  end.
Proof.
  intros Hd Hp Hf. unfold parse_int. cbn [omap list_omap]. unfold malformed at 1. cbn [fst snd].
  destruct (m !! str key) as [v|]; [|by apply Hf]. destruct (parser v) as [n|] eqn:E; [apply Hf; by eapply Hp|done].
Qed.

Lemma read_numbers_spec m :
  match first_malformed m with
  | Some (k, v) => read_numbers m = Err (ParseInt k v)
  | None => ∃ n, read_numbers m = Ok n ∧ numbers_typed n
  end.
Proof.
  unfold first_malformed, numeric_keys, read_numbers, parse_u16, parse_u32, parse_u64, parse_int32.
  assert (∀ w v n, 0 <= w → parse_uint w v = Some n → uN w n) as Hr by (intros; by eapply parse_uint_range).
  repeat first
    [ eapply (parse_int_step (parse_uint 64) m _ _ _ _ _ (uN 64)); [split; reflexivity || lia|by (intros; eapply Hr)|intros ? ?]
    | eapply (parse_int_step (parse_uint 32) m _ _ _ _ _ (uN 32)); [split; reflexivity || lia|by (intros; eapply Hr)|intros ? ?]
    | eapply (parse_int_step (parse_uint 16) m _ _ _ _ _ (uN 16)); [split; reflexivity || lia|by (intros; eapply Hr)|intros ? ?]
    | eapply (parse_int_step parse_i32 m _ _ _ _ _ (λ _, True)); [done|done|intros ? ?] ].
  eexists. split; [reflexivity|]. unfold numbers_typed. cbn. repeat split; repeat (constructor; [done|]); constructor.
Qed.

(** *** What each field holds

    The fields of the configuration by the key they are read from, with what they hold when the
    file does not give it. *)

Definition text_fields : list (string * bytes * (Config → bytes)) :=
  [("bot_war3path", [], λ c, b_war3_path (cf_bot c)); ("bot_mappath", str "maps/", λ c, b_map_path (cf_bot c));
   ("bot_bindaddress", str "0.0.0.0", λ c, b_bind_address (cf_bot c));
   ("bnet_server", str "wc3.theabyss.ru", λ c, cfg_server (cf_bnet c));
   ("bnet_custom_pvpgnrealmname", [], λ c, cfg_pvpgn_realm_name (cf_bnet c));
   ("bnet_username", str "BOT", λ c, cfg_username (cf_bnet c)); ("bnet_password", [], λ c, cfg_password (cf_bnet c));
   ("bnet_cdkeyroc", str "FFFFFFFFFFFFFFFFFFFFFFFFFF", λ c, cfg_cdkey_roc (cf_bnet c));
   ("bnet_cdkeytft", str "FFFFFFFFFFFFFFFFFFFFFFFFFF", λ c, cfg_cdkey_tft (cf_bnet c));
   ("bnet_firstchannel", str "The Abyss", λ c, cfg_first_channel (cf_bnet c));
   ("bnet_custom_passwordhashtype", str "pvpgn", λ c, cfg_password_hash_type (cf_bnet c));
   ("bot_virtualhostname", str "|cFF4080C0Spectre", λ c, gd_virtual_host_name (cf_game c));
   ("db_path", str "spectre.db", cf_db_path)].

Definition flag_fields : list (string * bool * (Config → bool)) :=
  [("bot_tft", true, λ c, b_tft (cf_bot c)); ("bot_lcpings", true, λ c, gd_lc_pings (cf_game c));
   ("bnet_requirespoofchecks", false, λ c, gd_require_spoof_checks (cf_game c));
   ("bot_hclfromgamename", true, λ c, gd_hcl_from_game_name (cf_game c));
   ("bot_votekickallowed", true, λ c, gd_votekick_allowed (cf_game c));
   ("spectator_enabled", false, λ c, sc_enabled (cf_spectator c));
   ("spectator_dotatv_enabled", true, λ c, sc_dotatv_enabled (cf_spectator c))].

(** With the type of the text and what is made of the number: a narrower integer, by wrapping
    around, or a duration. *)
Definition number_fields : list (string * (bytes → option Z) * Z * (Z → Z) * (Config → Z)) :=
  [("bot_maxgames", parse_uint 64, 20, id, λ c, b_max_games (cf_bot c));
   ("bot_hostport", parse_uint 16, 6112, id, λ c, b_host_port (cf_bot c));
   ("bot_hostport", parse_uint 16, 6112, id, λ c, cfg_host_port (cf_bnet c));
   ("bot_reconnectport", parse_uint 16, 6114, id, λ c, b_gproxy_reconnect_port (cf_bot c));
   ("bnet_serverport", parse_i32, 6112, λ n, n mod 2 ^ 16, λ c, cfg_port (cf_bnet c));
   ("bnet_custom_war3version", parse_i32, 26, λ n, n mod 2 ^ 8, λ c, cfg_war3_version (cf_bnet c));
   ("bot_latency", parse_uint 64, 100, λ n, n * 1000000, λ c, gd_latency (cf_game c));
   ("bot_synclimit", parse_i32, 50, λ n, n mod 2 ^ 32, λ c, gd_sync_limit (cf_game c));
   ("bot_reconnectwaittime", parse_uint 64, 180, λ n, n * 1000000000, λ c, gd_reconnect_wait (cf_game c));
   ("bot_maxdownloaders", parse_uint 32, 3, id, λ c, gd_max_downloaders (cf_game c));
   ("bot_maxdownloadspeed", parse_uint 32, 100, id, λ c, gd_max_download_speed (cf_game c));
   ("bot_allowdownloads", parse_i32, 1, λ n, n mod 2 ^ 8, λ c, gd_allow_downloads (cf_game c));
   ("bot_autokickping", parse_uint 32, 400, id, λ c, gd_autokick_ping (cf_game c));
   ("bnet_spoofchecks", parse_i32, 0, λ n, n mod 2 ^ 8, λ c, gd_spoof_checks (cf_game c));
   ("bot_lobbytimelimit", parse_i32, 10, λ n, n mod 2 ^ 32, λ c, gd_lobby_time_limit (cf_game c));
   ("bot_votekickpercentage", parse_uint 32, 100, id, λ c, gd_votekick_percentage (cf_game c));
   ("spectator_port", parse_uint 16, 6115, id, λ c, sc_port (cf_spectator c));
   ("spectator_dotatv_port", parse_uint 16, 6116, id, λ c, sc_dotatv_port (cf_spectator c));
   ("spectator_delay", parse_uint 64, 120, λ n, n * 1000000000, λ c, sc_delay (cf_spectator c));
   ("spectator_maxviewers", parse_uint 64, 32, id, λ c, sc_max_viewers (cf_spectator c));
   ("spectator_history_max_mb", parse_uint 64, 64, id, λ c, sc_history_max_mb (cf_spectator c))].

(** That the configuration is the one of the entries [m]: all of its fields. *)
Definition holds_entries (m : gmap bytes bytes) (c : Config) : Prop :=
  Forall (λ '(key, d, field), field c = default d (m !! str key)) text_fields ∧
  Forall (λ '(key, d, field), field c =
    match m !! str key with Some v => bool_decide (v = str "1" ∨ map to_ascii_lower v = str "true") | None => d end) flag_fields ∧
  Forall (λ '(key, parser, d, conversion, field), field c = conversion (default d (m !! str key ≫= parser))) number_fields ∧
  b_default_map (cf_bot c) = m !! str "bot_defaultmap" ∧
  b_udp_broadcast_target (cf_bot c) = default [] (m !! str "udp_broadcasttarget" ∪ m !! str "udp_broadcast_target") ∧
  (b_port_pool_start (cf_bot c), b_port_pool_end (cf_bot c)) = (None, None) ∧
  cfg_server_alias (cf_bnet c) = default (cfg_server (cf_bnet c)) (m !! str "bnet_serveralias") ∧
  cfg_root_admins (cf_bnet c) = default [] (split_whitespace <$> m !! str "bnet_rootadmin") ∧
  cfg_command_trigger (cf_bnet c) = default (str "!") (m !! str "bnet_commandtrigger" ≫= λ v, head (chars v)) ∧
  cfg_exe_version (cf_bnet c) = [1; 0; 26; 1] ∧ cfg_exe_version_hash (cf_bnet c) = [0; 0; 0; 0] ∧
  cfg_reconnect_delay (cf_bnet c) = 5000000000 ∧ cf_maps c = ∅.

Definition number_of (m : gmap bytes bytes) (parser : bytes → option Z) (key : string) (d : Z) : Z :=
  default d (m !! str key ≫= parser).

Lemma parse_int_number parser m key d x : parse_int parser m key d = Ok x → x = number_of m parser key d.
Proof.
  unfold parse_int, number_of. destruct (m !! str key) as [v|]; cbn; [|by intros [= ->]].
  destruct (parser v); by intros [= ->].
Qed.

Lemma read_numbers_fields m n :
  read_numbers m = Ok n →
  n = mkNumbers (number_of m (parse_uint 64) "bot_maxgames" 20) (number_of m (parse_uint 16) "bot_hostport" 6112)
        (number_of m parse_i32 "bnet_serverport" 6112) (number_of m parse_i32 "bnet_custom_war3version" 26)
        (number_of m (parse_uint 64) "bot_latency" 100) (number_of m parse_i32 "bot_synclimit" 50)
        (number_of m (parse_uint 64) "bot_reconnectwaittime" 180) (number_of m (parse_uint 32) "bot_maxdownloaders" 3)
        (number_of m (parse_uint 32) "bot_maxdownloadspeed" 100) (number_of m parse_i32 "bot_allowdownloads" 1)
        (number_of m (parse_uint 32) "bot_autokickping" 400) (number_of m parse_i32 "bnet_spoofchecks" 0)
        (number_of m (parse_uint 16) "spectator_port" 6115) (number_of m (parse_uint 16) "spectator_dotatv_port" 6116)
        (number_of m (parse_uint 64) "spectator_delay" 120) (number_of m (parse_uint 64) "spectator_maxviewers" 32)
        (number_of m (parse_uint 64) "spectator_history_max_mb" 64) (number_of m (parse_uint 16) "bot_reconnectport" 6114)
        (number_of m (parse_uint 32) "bot_votekickpercentage" 100).
Proof.
  unfold read_numbers, parse_u16, parse_u32, parse_u64, parse_int32. intros E.
  repeat (match type of E with context [parse_int ?p m ?k ?d] =>
            let Ek := fresh "Ek" in destruct (parse_int p m k d) eqn:Ek; cbn [mbind result_bind] in E; [|discriminate E];
            apply parse_int_number in Ek end).
  injection E as <-. by f_equal.
Qed.

Lemma parse_bool_field m key d :
  parse_bool m key d =
  match m !! str key with Some v => bool_decide (v = str "1" ∨ map to_ascii_lower v = str "true") | None => d end.
Proof.
  unfold parse_bool. destruct (m !! str key) as [v|]; [|done]. apply eq_bool_prop_intro. rewrite bool_decide_spec, Is_true_true, orb_true_iff.
  unfold eq_ignore_ascii_case. by rewrite !bytes_eqb_eq.
Qed.

Lemma lobby_limit_field m : unwrap_or (parse_int32 m "bot_lobbytimelimit" 10) 10 = number_of m parse_i32 "bot_lobbytimelimit" 10.
Proof. unfold parse_int32, parse_int, number_of. destruct (m !! _) as [v|]; cbn; [|done]. by destruct (parse_i32 v). Qed.

Lemma build_holds_entries m n : read_numbers m = Ok n → holds_entries m (build m n).
Proof.
  intros ->%read_numbers_fields. unfold holds_entries. split_and!; try done.
  - repeat (apply Forall_cons; split; [reflexivity|]). constructor.
  - repeat (apply Forall_cons; split; [apply parse_bool_field|]). constructor.
  - repeat (apply Forall_cons; split; [first [reflexivity|apply (f_equal (λ x, x mod 2 ^ 32)), lobby_limit_field]|]). constructor.
  - cbn -[str]. by destruct (m !! str "udp_broadcasttarget"), (m !! str "udp_broadcast_target").
  - cbn -[str]. by destruct (m !! str "bnet_rootadmin").
Qed.

(** The fields of machine integers hold numbers of their types. *)
Definition cfg_typed (c : Config) : Prop :=
  let b := cf_bot c in let n := cf_bnet c in let g := cf_game c in let s := cf_spectator c in
  Forall (uN 64) [b_max_games b; sc_max_viewers s; sc_history_max_mb s] ∧
  Forall (uN 32) [gd_sync_limit g; gd_max_downloaders g; gd_max_download_speed g; gd_autokick_ping g; gd_lobby_time_limit g;
                  gd_votekick_percentage g] ∧
  Forall (uN 16) [b_host_port b; b_gproxy_reconnect_port b; cfg_port n; cfg_host_port n; sc_port s; sc_dotatv_port s] ∧
  Forall (uN 8) [cfg_war3_version n; gd_allow_downloads g; gd_spoof_checks g].

Lemma build_typed m n : numbers_typed n → cfg_typed (build m n).
Proof.
  intros (H64 & H32 & H16). rewrite !Forall_cons in *. unfold cfg_typed. cbn -[uN wrap parse_int32].
  repeat split; repeat (constructor; [first [tauto|by apply wrap_range]|]); constructor.
Qed.

End theorems.

(** A file of five lines: the pool of ports is 6200 alone, the port of the server wraps, and with a
    word for a number the file is refused. *)
Definition cfg_lines (speed : bytes) : list cfg_line :=
  [Comment (str " the bot"); Blank [32; 9]; Entry [] (str "Bot_HostPort") [32] (str "6200");
   Entry [32; 32] (str "bnet_serverport") [] (str "-1"); Entry [] (str "bot_latency") [32] speed].

