(* ===== verification/Supervisor.v ===== *)
(** The supervisor (spectre, src/supervisor.rs): the event loop that hosts games, hands
    connections to them, advertises them and takes the commands of the administrators.

    A game is known by its handle, a number; what the supervisor offers to the games, to
    Battle.net and to the network is a list of effects, in order.  They are offers: a queue
    that is full drops one with a warning ([GameHandle::send] is a [try_send]), and the code
    here does not look at that. *)
From S2P Require Import Prelude Utf8 Text Store W3gs Gps Conn Slots Game Dispatch MpqArchive Nls Bncs BnetClient Map MapLoad LiveStream StreamServer Config.

(** ** State *)

Record ActiveLobbyAdvert := mkLobbyAdvert {
  al_game_name : bytes; al_stat_string : bytes; al_host_counter : Z; al_entry_key : Z; al_map_game_type : bytes;
  al_slots_total : Z; al_slots_open : Z; al_port : Z }.

Record ActiveGameInfo := mkActive {
  ag_name : bytes; ag_port : Z; ag_host_counter : Z; ag_handle : Z; ag_advert : option ActiveLobbyAdvert;
  ag_created_at : Z; ag_in_lobby : bool }.

(** What is offered to others, or started. *)
Inductive Effect :=
| EGame (h : Z) (cmd : GameCmd)
| EGameConn (h : Z) (ev : ConnEvent)
| EGameStart (h : Z) (by_ : bytes)
| EAttachDotaTv (h : Z) (shared : DotaTvShared)
| ESpawnGame (h : Z) (cfg : GameConfig) (stat_string replay_path creator_server : bytes) (relay : bool)
| EListen (port : Z)
| EServeDotaTv (port : Z) (h : Z)
| EServeDotaTvAdmin (port : Z) (h : Z)
| EBnet (cmd : BnetCmd)
| EUdp (packet : bytes)
| ELink (conn_id : Z) (packet : bytes)
| EReconnect (conn_id : Z) (candidates : list Z)
| EAskBan (user target : bytes)
| EAskStats (user target : bytes)
| EAskAdmin (user target : bytes).

(** The channels are the inputs and the effects; [su_next_handle] numbers the games, and
    [su_out] is what was offered so far. *)
Record Supervisor := mkSup {
  su_cfg : Config;
  su_store : Store;
  su_current_game : option Z;
  su_current_game_name : option bytes;
  su_current_game_advert : option ActiveLobbyAdvert;
  su_games : list ActiveGameInfo;
  su_allocated_ports : gset Z;
  su_port_to_game : gmap Z Z;
  su_active_listeners : gset Z;
  su_conn_to_game : gmap Z Z;
  su_udp_broadcaster : bool;
  su_selected_map_file : option bytes;
  su_host_counter : Z;
  su_current_game_created_at : option Z;
  su_shutdown_requested : bool;
  su_stopped : bool;
  su_next_handle : Z;
  su_out : list Effect }.

Definition emit (e : Effect) (s : Supervisor) : Supervisor := s <| su_out ::= λ l, l ++ [e] |>.
Definition bnet_send (cmd : BnetCmd) : Supervisor → Supervisor := emit (EBnet cmd).
Definition say (msg : bytes) : Supervisor → Supervisor := bnet_send (SendChat msg).
(** [format!("/w {user} ...")] *)
Definition whisper (user msg : bytes) : Supervisor → Supervisor := say (str "/w " ++ user ++ str " " ++ msg).
Definition store (f : Store → Store) (s : Supervisor) : Supervisor := s <| su_store ::= f |>.

(** ** The environment *)

(** Files as [std::fs] and [Path] see them. *)
Record Files := mkFiles { fs_read : bytes → result bytes bytes; fs_exists : bytes → bool }.

(** [PathBuf::join] and [Path::file_name], of paths with slashes. *)
Definition path_join (p q : bytes) : bytes :=
  if starts_with (str "/") q then q
  else match p with
       | [] => q
       | _ => p ++ (if bool_decide (last p = Some 47) then [] else [47]) ++ q
       end.
Fixpoint split_slashes (s part : bytes) : list bytes :=
  match s with
  | [] => [part]
  | b :: s => if b =? 47 then part :: split_slashes s [] else split_slashes s (part ++ [b])
  end.
Definition file_name (p : bytes) : option bytes :=
  c ← last (filter (λ c, c ≠ [] ∧ c ≠ str ".") (split_slashes p []));
  if bytes_eqb c (str "..") then None else Some c.

Definition ends_with (q s : bytes) : bool := starts_with (rev q) (rev s).

(** [HOST_COUNTER_ID] *)
Definition HOST_COUNTER_ID : Z := 0.

Section supervisor.
Context `{Codecs} `{Crypto} `{Unicode}.
(** The checksum of a map file; whether an address of the configuration, with a port, is the
    address of a socket; the files. *)
Context (crc32 : bytes → Z) (parse_bind : bytes → bool) (files : Files).

(** ** Maps *)

(** A map with the endings that it may lack. *)
Definition with_extensions (name : bytes) : list bytes :=
  name :: (if negb (ends_with (str ".w3x") name) && negb (ends_with (str ".w3m") name)
           then [name ++ str ".w3x"; name ++ str ".w3m"] else []).

Definition candidate_filenames (s : Supervisor) (game_name : bytes) : list bytes :=
  match su_selected_map_file s with Some sel => with_extensions sel | None => [] end
  ++ match b_default_map (cf_bot (su_cfg s)) with Some def => with_extensions def | None => [] end
  ++ [game_name ++ str ".w3x"; game_name ++ str ".w3m"; game_name].

Definition read_or (first second : bytes) : option bytes :=
  match fs_read files first with Ok b => Some b | Err _ => result_ok (fs_read files second) end.

Definition map_override (s : Supervisor) (game_name : bytes) : option MapOverride :=
  let maps := cf_maps (su_cfg s) in
  match su_selected_map_file s ≫= (λ f, maps !! f) with
  | Some o => Some o
  | None => match b_default_map (cf_bot (su_cfg s)) ≫= (λ f, maps !! f) with
            | Some o => Some o
            | None => maps !! game_name
            end
  end.

Definition candidate_paths (s : Supervisor) (filename : bytes) : list bytes :=
  [path_join (b_map_path (cf_bot (su_cfg s))) filename; path_join (str "maps") filename; filename].

(** The first of the paths that is a map; the outer [None] is a panic. *)
Fixpoint first_map (ovr : option MapOverride) (common_j blizzard_j : option bytes) (paths : list bytes)
    : option (option ParsedMap) :=
  match paths with
  | [] => Some None
  | path :: paths =>
    if fs_exists files path then
      r ← load_mpq_with_override crc32 (fs_read files path) (file_name path) common_j blizzard_j ovr;
      match r with Ok parsed => Some (Some parsed) | Err _ => first_map ovr common_j blizzard_j paths end
    else first_map ovr common_j blizzard_j paths
  end.

Definition fallback_info (game_name : bytes) : MapInfo :=
  mkMapInfo (str "Maps\Download\" ++ game_name ++ str ".w3x") 1000 1 305419896 (replicate 20 0) 12 2 128 128 1
    (Z.lor (Z.lor (Z.lor 2 2048) 16384) 393216) None 0 0 (str "dota") [] [] 1000 false [] 24.

Definition resolve_map_info (s : Supervisor) (game_name : bytes)
    : option (MapInfo * bytes * option SlotTable) :=
  let common_j := read_or (str "war3/common.j") (str "maps/common.j") in
  let blizzard_j := read_or (str "war3/blizzard.j") (str "maps/blizzard.j") in
  found ← first_map (map_override s game_name) common_j blizzard_j
            (concat (map (candidate_paths s) (candidate_filenames s game_name)));
  Some (match found with
        | Some parsed => (pm_info parsed, le_bytes 4 (m_game_type (pm_info parsed)), Some (pm_slots parsed))
        | None => (fallback_info game_name, [1; 0; 0; 0], None)
        end).

(** ** Ports *)

(** [start..=end] *)
Definition port_range (s : Supervisor) : list Z :=
  let '(start, end_) := port_pool_range (cf_bot (su_cfg s)) in seqZ start (end_ - start + 1).

Definition allocate_port (s : Supervisor) : Supervisor * option Z :=
  match find (λ p, negb (bool_decide (p ∈ su_allocated_ports s))) (port_range s) with
  | Some p => (s <| su_allocated_ports ::= λ a, {[p]} ∪ a |>, Some p)
  | None => (s, None)
  end.

Definition release_port (port : Z) (s : Supervisor) : Supervisor := s <| su_allocated_ports ::= λ a, a ∖ {[port]} |>.

(** ** Hosting *)

Definition next_host_counter (s : Supervisor) : Z := Z.lor (Z.land (su_host_counter s) 268435455) (Z.shiftl HOST_COUNTER_ID 28).

(** A listener on the port, unless there is one. *)
Definition listen (port : Z) (s : Supervisor) : Supervisor :=
  if negb (bool_decide (port ∈ su_active_listeners s)) && parse_bind (b_bind_address (cf_bot (su_cfg s)))
  then emit (EListen port) (s <| su_active_listeners ::= λ l, {[port]} ∪ l |>) else s.

Definition advert_map_of (m : MapInfo) : MapAdvert :=
  mkAdvert (m_path m) (m_size m) (m_info m) (m_crc m) (m_sha1 m) (m_num_players m) (m_num_teams m) (m_width m) (m_height m)
    (m_game_type m) (m_flags m).

Definition game_config (s : Supervisor) (name owner : bytes) (host_counter port : Z) (map_info : MapInfo)
    (custom_slots : option SlotTable) : GameConfig :=
  let g := cf_game (su_cfg s) in
  Game.mkConfig name (Z.to_nat (m_num_players map_info)) (gd_latency g) (gd_sync_limit g) map_info (gd_virtual_host_name g)
    (gd_reconnect_wait g) custom_slots (gd_max_downloaders g) (gd_max_download_speed g) (gd_allow_downloads g)
    (gd_autokick_ping g) (gd_lc_pings g) (gd_spoof_checks g) port (b_gproxy_reconnect_port (cf_bot (su_cfg s)))
    (gd_lobby_time_limit g) owner host_counter (gd_require_spoof_checks g) (Some []) (gd_hcl_from_game_name g)
    (gd_votekick_allowed g) (gd_votekick_percentage g) true.

(** The port for viewers of the game on a port. *)
Definition tv_port (s : Supervisor) (port : Z) : Z :=
  wrap 16 (sc_dotatv_port (cf_spectator (su_cfg s)) + wrap 16 (port - (port_pool_range (cf_bot (su_cfg s))).1)).

Definition attach_dotatv (h port : Z) (s : Supervisor) : Supervisor :=
  if sc_dotatv_enabled (cf_spectator (su_cfg s)) then
    let shared := set_stream_delay STREAM_DELAY (new_shared for_126a) in
    let s := emit (EAttachDotaTv h shared) s in
    let s := emit (EServeDotaTv (tv_port s port) h) s in
    emit (EServeDotaTvAdmin (wrap 16 (tv_port s port + 1)) h) s
  else s.

(** [entry_key] is the random number drawn. *)
Definition create_game_with_creator (now entry_key : Z) (name owner creator_server : bytes) (visibility : GameVisibility)
    (s : Supervisor) : option Supervisor :=
  '(map_info, map_game_type, custom_slots) ← resolve_map_info s name;
  let host_counter := next_host_counter s in
  let s := s <| su_host_counter ::= λ c, wrap 32 (c + 1) |> in
  let slots_total := m_num_players map_info in
  let '(s, port) := allocate_port s in
  match port with
  | None => Some s
  | Some port =>
    let s := listen port s in
    let advert_map := advert_map_of map_info in
    let host_name := gd_virtual_host_name (cf_game (su_cfg s)) in
    let stat_string := encode_lan_statstring advert_map name host_name in
    let h := su_next_handle s in
    let s := emit (ESpawnGame h (game_config s name owner host_counter port map_info custom_slots) stat_string
                     (str "replays/" ++ name ++ str ".w3g") creator_server (sc_enabled (cf_spectator (su_cfg s))))
               (s <| su_next_handle ::= λ n, n + 1 |>) in
    let s := emit (EGame h CreateVirtualHost) s in
    let s := attach_dotatv h port s in
    let advert := mkLobbyAdvert name stat_string host_counter entry_key map_game_type slots_total slots_total port in
    let s := s <| su_port_to_game ::= λ m, <[port := h]> m |> <| su_current_game := Some h |>
               <| su_current_game_name := Some name |> <| su_current_game_advert := Some advert |>
               <| su_current_game_created_at := Some now |>
               <| su_games ::= λ l, l ++ [mkActive name port host_counter h (Some advert) now true] |> in
    Some (bnet_send (CreateGame name advert_map host_counter visibility (Some host_name) (Some port)) s)
  end.

Definition create_game (now entry_key : Z) (name owner : bytes) (visibility : GameVisibility) (s : Supervisor)
    : option Supervisor :=
  create_game_with_creator now entry_key name owner (cfg_server (cf_bnet (su_cfg s))) visibility s.

(** ** Connections *)

(** [external_ip] is [None] for an address that is not of version 4. *)
Definition handle_new_connection (conn_id : Z) (external_ip : option bytes) (local_port : Z) (s : Supervisor) : Supervisor :=
  let target_game := match su_port_to_game s !! local_port with Some h => Some h | None => su_current_game s end in
  match target_game with
  | Some h =>
    let s := emit (EGame h (NewConn conn_id (new_chan 1024) (default [127; 0; 0; 1] external_ip))) s in
    s <| su_conn_to_game ::= λ m, <[conn_id := h]> m |>
  | None => s
  end.

Definition reconnect_candidates (s : Supervisor) : list Z :=
  match map ag_handle (su_games s) with
  | [] => match su_current_game s with Some h => [h] | None => [] end
  | l => l
  end.

Definition handle_reconnect_connection (conn_id : Z) (s : Supervisor) : Supervisor :=
  match reconnect_candidates s with [] => s | l => emit (EReconnect conn_id l) s end.

(** The task that reads the request; [reads] is what the reads of the socket give within ten
    seconds. *)
Fixpoint read_request (reads : list (result bytes bytes)) (buf : bytes) : option bytes :=
  if (13 <=? length buf)%nat then Some buf
  else match reads with
       | Ok (b :: r) :: reads => read_request reads (buf ++ b :: r)
       | _ => None
       end.

(** The first place, of those that leave thirteen bytes, where a request begins. *)
Definition is_request (buf : bytes) (i : nat) : bool :=
  bool_decide (buf !! i = Some GPS_HEADER) && bool_decide (buf !! S i = Some gps_ids.RECONNECT).
Definition find_request (buf : bytes) : option nat := find (is_request buf) (seq 0 (S (length buf - 13))).

Definition parse_request (buf : bytes) : option ReconnectReq :=
  p ← find_request buf;
  result_ok (decode_reconnect (take 9 (drop (p + 4) buf))).

(** The games are asked one after the other; [answer] says which takes the player back. *)
Fixpoint ask_games (conn_id : Z) (req : ReconnectReq) (answer : Z → bool) (games : list Z) : list Effect * option Z :=
  match games with
  | [] => ([ELink conn_id (reject reject_reason.NOT_FOUND)], None)
  | h :: games =>
    let ask := EGame h (AdoptReconnect conn_id (rr_pid req) (rr_reconnect_key req) (rr_last_packet req) (new_chan 1024)) in
    if answer h then ([ask], Some h)
    else let '(effects, adopted) := ask_games conn_id req answer games in (ask :: effects, adopted)
  end.

(** What the task offers, and the game that it reports as having adopted the connection. *)
Definition reconnect_task (conn_id : Z) (reads : list (result bytes bytes)) (answer : Z → bool) (candidates : list Z)
    : list Effect * option Z :=
  match read_request reads [] ≫= parse_request with
  | Some req => ask_games conn_id req answer candidates
  | None => ([], None)
  end.

Definition handle_conn_event (ev : ConnEvent) (s : Supervisor) : Supervisor :=
  match su_conn_to_game s !! ev_conn_id ev with Some h => emit (EGameConn h ev) s | None => s end.

(** ** The commands of the administrators *)

Definition is_root_admin (s : Supervisor) (user : bytes) : bool :=
  existsb (λ a, eq_ignore_ascii_case a user) (cfg_root_admins (cf_bnet (su_cfg s))).

(** [str::strip_prefix] of a character. *)
Definition strip_trigger (trigger text : bytes) : option bytes :=
  if starts_with trigger text then Some (drop (length trigger) text) else None.

Definition words (ws : list bytes) : bytes := join (str " ") ws.

(** [games.remove(idx)] and what follows. *)
Definition unhost_at (user : bytes) (idx : nat) (s : Supervisor) : Supervisor :=
  match su_games s !! idx with
  | Some g =>
    let s := s <| su_games ::= λ l, delete idx l |> in
    let s := emit (EGame (ag_handle g) CmdUnhost) s in
    let s := (release_port (ag_port g) s) <| su_port_to_game ::= λ m, delete (ag_port g) m |> in
    whisper user (str "Game [" ++ ag_name g ++ str "] unhosted") (bnet_send UnhostGame s)
  | None => s
  end.

(** [iter().position(..)] *)
Definition position (p : ActiveGameInfo → bool) (l : list ActiveGameInfo) : option nat := fst <$> list_find p l.

Definition unhost_command (user : bytes) (parts : list bytes) (s : Supervisor) : Supervisor :=
  let target_name := words parts in
  if negb (length target_name =? 0)%nat then
    match position (λ g, eq_ignore_ascii_case (ag_name g) target_name) (su_games s) with
    | Some idx => unhost_at user idx s
    | None => whisper user (str "No game matching [" ++ target_name ++ str "]") s
    end
  else
    match position ag_in_lobby (su_games s) with
    | Some idx => unhost_at user idx s
    | None =>
      match su_current_game s with
      | Some h =>
        let s := emit (EGame h CmdUnhost) (s <| su_current_game := None |>) in
        let s := s <| su_current_game_name := None |> <| su_current_game_advert := None |> <| su_current_game_created_at := None |> in
        whisper user (str "Game unhosted") (bnet_send UnhostGame s)
      | None => s
      end
    end.

Definition host_command (now entry_key : Z) (user : bytes) (visibility : GameVisibility) (parts : list bytes) (s : Supervisor)
    : option Supervisor :=
  let name := words parts in
  if (length name =? 0)%nat then Some (whisper user (str "Usage: !pub <game name>") s)
  else if b_max_games (cf_bot (su_cfg s)) <=? zlen (su_games s) then Some (whisper user (str "Error: maximum games reached") s)
  else create_game now entry_key name user visibility s.

Definition host_for_command (now entry_key : Z) (user : bytes) (visibility : GameVisibility) (parts : list bytes) (s : Supervisor)
    : option Supervisor :=
  match parts with
  | owner :: parts =>
    let gname := words parts in
    if (length gname =? 0)%nat then Some s
    else s ← create_game_with_creator now entry_key gname owner (cfg_server (cf_bnet (su_cfg s))) visibility s;
         Some (whisper user (str "Hosted game [" ++ gname ++ str "] for [" ++ owner ++ str "].") s)
  | [] => Some s
  end.

Definition game_list (s : Supervisor) : list bytes :=
  map (λ g, ag_name g ++ str " [port:" ++ dec (ag_port g) ++ str ", " ++ (if ag_in_lobby g then str "Lobby" else str "Playing") ++ str "]")
    (su_games s).
Definition games_text (s : Supervisor) : bytes :=
  match game_list s with
  | [] => str "No active games."
  | l => str "Active games (" ++ dec (zlen (su_games s)) ++ str "): " ++ join (str ", ") l
  end.

Definition status_text (s : Supervisor) : bytes :=
  let '(start, end_) := port_pool_range (cf_bot (su_cfg s)) in
  let total_ports := wrap 16 (wrap 16 (end_ - start) + 1) in
  let free_ports := Z.max 0 (total_ports - Z.of_nat (base.size (su_allocated_ports s))) in
  str "Status: " ++ dec (zlen (su_games s)) ++ str " active games (" ++ dec (zlen (filter (λ g, ag_in_lobby g = true) (su_games s)))
    ++ str " in lobby), " ++ dec free_ports ++ str "/" ++ dec total_ports ++ str " ports free".

(** *** The commands that do not host or withdraw a game

    Each group is [None] for a word that is not one of its commands. *)

(** A command that takes a name. *)
Definition with_target (parts : list bytes) (k : bytes → Supervisor → Supervisor) (s : Supervisor) : Supervisor :=
  match parts with target :: _ => k target s | [] => s end.

Definition map_command (verb user : bytes) (parts : list bytes) (s : Supervisor) : option Supervisor :=
  if bytes_eqb verb (str "map") || bytes_eqb verb (str "load") then
    Some (match words parts with
          | [] => whisper user (str "Usage: !map <filename>") s
          | map_name => whisper user (str "Map set to [" ++ map_name ++ str "]") (s <| su_selected_map_file := Some map_name |>)
          end)
  else None.

(** From [start] to [delban]. *)
Definition lift_ban (user : bytes) (parts : list bytes) : Supervisor → Supervisor :=
  with_target parts (λ target s, whisper user (str "Unbanned [" ++ target ++ str "]") (store (unban target) s)).
Definition record_command (verb user : bytes) (parts : list bytes) (s : Supervisor) : option Supervisor :=
  let on t := bytes_eqb verb (str t) in
  if on "start" then Some (match su_current_game s with Some h => emit (EGameStart h user) s | None => s end)
  else if on "say" then Some (say (words parts) s)
  else if on "ban" then
    Some (match parts with
          | target :: rest =>
            let reason := words rest in
            whisper user (str "Banned [" ++ target ++ str "]: " ++ reason) (store (ban target [] user reason) s)
          | [] => s
          end)
  else if on "unban" then Some (lift_ban user parts s)
  else if on "checkban" then Some (with_target parts (λ target, emit (EAskBan user target)) s)
  else if on "statsdota" || on "stats" then Some (emit (EAskStats user (default user (head parts))) s)
  else if on "addadmin" then
    Some (with_target parts (λ target s, whisper user (str "Added admin [" ++ target ++ str "]") (store (add_admin target []) s)) s)
  else if on "deladmin" then
    Some (with_target parts (λ target s, whisper user (str "Removed admin [" ++ target ++ str "]") (store (remove_admin target) s)) s)
  else if on "checkadmin" then Some (with_target parts (λ target, emit (EAskAdmin user target)) s)
  else if on "countadmins" then
    Some (whisper user (str "Root admins configured: " ++ dec (zlen (cfg_root_admins (cf_bnet (su_cfg s))))) s)
  else if on "countbans" then Some (whisper user (str "Bans stored in SQLite database.") s)
  else if on "delban" then Some (lift_ban user parts s)
  else None.

(** From [channel] to [status]. *)
Definition info_command (verb user : bytes) (parts : list bytes) (s : Supervisor) : option Supervisor :=
  let on t := bytes_eqb verb (str t) in
  if on "channel" then Some (match words parts with [] => s | chan => say (str "/join " ++ chan) s end)
  else if on "getgame" || on "getgames" then Some (whisper user (games_text s) s)
  else if on "saygames" then Some (say (games_text s) s)
  else if on "version" then Some (whisper user (str "Spectre v0.2.0 (High-Performance Async Warcraft III Hostbot)") s)
  else if on "dbstatus" then Some (whisper user (str "Database WAL mode active, connected.") s)
  else if on "exit" || on "quit" then Some ((whisper user (str "Shutting down bot.") s) <| su_shutdown_requested := true |>)
  else if on "status" then Some (whisper user (status_text s) s)
  else None.

(** From [accept] to [motd], and [disable] and [enable]. *)
Definition change_rank (user : bytes) (rank : Z) (name : string) (parts : list bytes) : Supervisor → Supervisor :=
  with_target parts (λ target s,
    whisper user (str "Set [" ++ target ++ str "] rank to " ++ str name ++ str ".") (bnet_send (ClanChangeRank target rank) s)).
Definition clan_command (verb user : bytes) (parts : list bytes) (s : Supervisor) : option Supervisor :=
  let on t := bytes_eqb verb (str t) in
  if on "accept" then Some (whisper user (str "Accepted clan invitation.") (bnet_send (ClanAcceptInvite true) s))
  else if on "invite" then
    Some (with_target parts (λ target s, whisper user (str "Invited [" ++ target ++ str "] to clan.") (bnet_send (ClanInvitation target) s)) s)
  else if on "getclan" then Some (whisper user (str "Requesting clan member list...") (bnet_send GetClanList s))
  else if on "getfriends" then Some (whisper user (str "Requesting friends list...") (bnet_send GetFriendsList s))
  else if on "grunt" then Some (change_rank user 2 "Grunt" parts s)
  else if on "peon" then Some (change_rank user 1 "Peon" parts s)
  else if on "shaman" then Some (change_rank user 3 "Shaman" parts s)
  else if on "remove" then
    Some (with_target parts (λ target s, whisper user (str "Removed [" ++ target ++ str "] from clan.") (bnet_send (ClanRemoveMember target) s)) s)
  else if on "motd" then Some (whisper user (str "Set clan MOTD to: " ++ words parts) (bnet_send (ClanSetMotd (words parts)) s))
  else if on "disable" then Some (whisper user (str "Bot hosting disabled.") s)
  else if on "enable" then Some (whisper user (str "Bot hosting enabled.") s)
  else None.

(** [reload], [wardenstatus], and the words that mean nothing. *)
Definition other_command (verb user : bytes) (s : Supervisor) : Supervisor :=
  let on t := bytes_eqb verb (str t) in
  if on "reload" then whisper user (str "Configuration and maps reloaded.") s
  else if on "wardenstatus" then whisper user (str "Warden status: BNLS not configured.") s
  else s.

Definition answer_command (verb user : bytes) (parts : list bytes) (s : Supervisor) : Supervisor :=
  match map_command verb user parts s with
  | Some s => s
  | None =>
    match record_command verb user parts s with
    | Some s => s
    | None =>
      match info_command verb user parts s with
      | Some s => s
      | None =>
        match clan_command verb user parts s with
        | Some s => s
        | None => other_command verb user s
        end
      end
    end
  end.

(** What the questions to the database are answered; [None] stands for no record. *)
Definition ban_reply (user target : bytes) (ban : option Ban) : BnetCmd :=
  SendChat (str "/w " ++ user ++ str " [" ++ target ++
            match ban with
            | Some b => str "] was banned by [" ++ bn_admin b ++ str "] for [" ++ bn_reason b ++ str "]"
            | None => str "] is not banned"
            end).
Definition admin_reply (user target : bytes) (is_admin : bool) : BnetCmd :=
  SendChat (str "/w " ++ user ++ str " [" ++ target ++ (if is_admin then str "] is an admin." else str "] is NOT an admin.")).

Definition stats_reply (user target : bytes) (stats : option DotAStatsSummary) : BnetCmd :=
  SendChat (str "/w " ++ user ++
            match stats with
            | Some st =>
              str " [" ++ target ++ str "] Games: " ++ dec (ss_games st) ++ str ", K/D/A: " ++ dec (ss_kills st) ++ str "/"
                ++ dec (ss_deaths st) ++ str "/" ++ dec (ss_assists st) ++ str ", CS: " ++ dec (ss_creep_kills st) ++ str "/"
                ++ dec (ss_creep_denies st)
            | None => str " No stats recorded for [" ++ target ++ str "]."
            end).

Definition handle_chat_command (now entry_key : Z) (user text : bytes) (s : Supervisor) : option Supervisor :=
  if negb (is_root_admin s user) then Some s
  else match strip_trigger (cfg_command_trigger (cf_bnet (su_cfg s))) text with
  | None => Some s
  | Some cmd_text =>
    match split_whitespace cmd_text with
    | [] => Some s
    | verb :: parts =>
      let lower := to_lowercase verb in
      let on t := bytes_eqb lower (str t) in
      let visibility t := if eq_ignore_ascii_case verb (str t) then Public else Private in
      if on "pub" || on "priv" then host_command now entry_key user (visibility "pub") parts s
      else if on "unhost" then Some (unhost_command user parts s)
      else if on "pubby" || on "privby" then host_for_command now entry_key user (visibility "pubby") parts s
      else Some (answer_command lower user parts s)
    end
  end.

(** ** Battle.net, the games' reports, the timers *)

Definition handle_bnet_event (now entry_key : Z) (ev : BnetEvent) (s : Supervisor) : option Supervisor :=
  match ev with
  | LoggedIn => Some (say (str "/who") (say (str "/motd") s))
  | ChatMessage user text | Whisper user text => handle_chat_command now entry_key user text s
  | _ => Some s
  end.

Definition set_slots (slots_open slots_total : Z) (a : ActiveLobbyAdvert) : ActiveLobbyAdvert :=
  a <| al_slots_open := slots_open |> <| al_slots_total := slots_total |>.

(** [games.iter_mut().find(..)] *)
Fixpoint update_advert (host_counter : Z) (f : ActiveLobbyAdvert → ActiveLobbyAdvert) (l : list ActiveGameInfo) : list ActiveGameInfo :=
  match l with
  | [] => []
  | g :: l => if ag_host_counter g =? host_counter then g <| ag_advert ::= fmap f |> :: l else g :: update_advert host_counter f l
  end.

Definition on_lobby_status (st : LobbyStatus) (s : Supervisor) : Supervisor :=
  let f := set_slots (ls_slots_open st) (ls_slots_total st) in
  let s := s <| su_games ::= update_advert (ls_host_counter st) f |> in
  let s := s <| su_current_game_advert ::= fmap (λ a, if al_host_counter a =? ls_host_counter st then f a else a) |> in
  bnet_send (RefreshGame (ls_human_players st) (ls_slots_open st)) s.

Definition uptime (now created_at : Z) : Z := wrap 32 ((now - created_at) / SEC).

Definition lan_packet (now : Z) (created_at : option Z) (s : Supervisor) (adv : ActiveLobbyAdvert) : list Effect :=
  match game_info (b_tft (cf_bot (su_cfg s))) (cfg_war3_version (cf_bnet (su_cfg s))) (al_host_counter adv) (al_entry_key adv)
          (al_game_name adv) (al_stat_string adv) (al_slots_total adv) (al_map_game_type adv) (al_slots_open adv)
          (default 0 (uptime now <$> created_at)) (al_port adv) with
  | Ok pkt => [EUdp pkt]
  | Err _ => []
  end.

Definition lan_packets (now : Z) (s : Supervisor) : list Effect :=
  concat (map (λ g, if ag_in_lobby g
                    then match ag_advert g with Some adv => lan_packet now (Some (ag_created_at g)) s adv | None => [] end
                    else []) (su_games s))
  ++ match su_games s, su_current_game_advert s with
     | [], Some adv => lan_packet now (su_current_game_created_at s) s adv
     | _, _ => []
     end.

Definition broadcast_lan_game (now : Z) (s : Supervisor) : Supervisor :=
  if su_udp_broadcaster s then s <| su_out ::= λ l, l ++ lan_packets now s |> else s.

(** [closed] says of which games the actors are gone. *)
Definition clean_finished_games (closed : Z → bool) (s : Supervisor) : Supervisor :=
  let freed_ports := map ag_port (filter (λ g, closed (ag_handle g) = true) (su_games s)) in
  let s := s <| su_games ::= filter (λ g, closed (ag_handle g) = false) |> in
  let s := foldl (λ s p, (release_port p s) <| su_port_to_game ::= λ m, delete p m |>) s freed_ports in
  let s := s <| su_conn_to_game ::= filter (λ ch, closed ch.2 = false) |> in
  match su_current_game s with
  | Some h =>
    if closed h then
      let g := last (su_games s) in
      let s := s <| su_current_game := ag_handle <$> g |> <| su_current_game_name := ag_name <$> g |>
                 <| su_current_game_advert := g ≫= ag_advert |> <| su_current_game_created_at := ag_created_at <$> g |> in
      match su_games s with [] => bnet_send UnhostGame s | _ => s end
    else s
  | None => s
  end.

Definition shutdown (s : Supervisor) : Supervisor :=
  let s := bnet_send BnetClient.Shutdown s in
  let s := foldl (λ s g, emit (EGame (ag_handle g) Dispatch.Shutdown) s) s (su_games s) in
  match su_current_game s with Some h => emit (EGame h Dispatch.Shutdown) s | None => s end.

(** ** The event loop *)

Inductive Input :=
| InCtrlC
| InLanTimer
| InCleanupTimer (closed : Z → bool)
| InConnection (conn_id : Z) (external_ip : option bytes) (local_port : Z)
| InReconnect (conn_id : Z)
| InAdopted (conn_id h : Z)
| InConnEvent (ev : ConnEvent)
| InBnet (entry_key : Z) (ev : BnetEvent)
| InGameEvent (st : LobbyStatus)
| InStartAfter (h : Z).

Definition handle_input (now : Z) (i : Input) (s : Supervisor) : option Supervisor :=
  match i with
  | InCtrlC => Some ((shutdown s) <| su_stopped := true |>)
  | InLanTimer => Some (broadcast_lan_game now s)
  | InCleanupTimer closed => Some (clean_finished_games closed s)
  | InConnection conn_id ip port => Some (handle_new_connection conn_id ip port s)
  | InReconnect conn_id => Some (handle_reconnect_connection conn_id s)
  | InAdopted conn_id h => Some (s <| su_conn_to_game ::= λ m, <[conn_id := h]> m |>)
  | InConnEvent ev => Some (handle_conn_event ev s)
  | InBnet entry_key ev => handle_bnet_event now entry_key ev s
  | InGameEvent st => Some (on_lobby_status st s)
  | InStartAfter h => Some (emit (EGameStart h (cfg_username (cf_bnet (su_cfg s)))) s)
  end.

(** One turn: an input, then the test at the head of the loop. *)
Definition step (now : Z) (i : Input) (s : Supervisor) : option Supervisor :=
  if su_stopped s then Some s
  else s ← handle_input now i s;
       Some (if su_shutdown_requested s && negb (su_stopped s) then (shutdown s) <| su_stopped := true |> else s).

Fixpoint run_inputs (inputs : list (Z * Input)) (s : Supervisor) : option Supervisor :=
  match inputs with
  | [] => Some s
  | (now, i) :: inputs => s ← step now i s; run_inputs inputs s
  end.

(** ** Starting *)

Definition initial (cfg : Config) (has_udp : bool) : Supervisor :=
  mkSup cfg [] None None None [] ∅ ∅ {[b_host_port (cf_bot cfg)]} ∅ has_udp None 1 None false false 0
    [EListen (b_host_port (cf_bot cfg))].

(** The games of [host_on_start], each with the random number for its key. *)
Fixpoint host_all (now : Z) (fake_player : bool) (names : list (bytes * Z)) (s : Supervisor) : option Supervisor :=
  match names with
  | [] => Some s
  | (name, entry_key) :: names =>
    s ← create_game now entry_key name (cfg_username (cf_bnet (su_cfg s))) Public s;
    let s := match su_current_game s with
             | Some h => if fake_player then emit (EGame h ToggleFakePlayer) s else s
             | None => s
             end in
    host_all now fake_player names s
  end.

(** [run] up to its loop; the error is that of an address that is not one. *)
Definition run_supervisor (now : Z) (cfg : Config) (has_udp fake_player : bool) (host_on_start : list (bytes * Z))
    : option (result () Supervisor) :=
  if parse_bind (b_bind_address (cf_bot cfg)) then
    s ← host_all now fake_player host_on_start (initial cfg has_udp); Some (Ok s)
  else Some (Err ()).
End supervisor.
