(* ===== verification/Hosting.v ===== *)
(** Hosting (spectre, src/supervisor.rs): the books that the supervisor keeps on its games and
    their ports, whatever the inputs are. *)
From S2P Require Import Prelude Utf8 Text Store W3gs Gps Conn Slots Game Dispatch MpqArchive Nls Bncs BnetClient Map MapLoad LiveStream StreamServer Config Supervisor.

(** ** Lists *)

Lemma elem_of_map {A B} (f : A → B) l y : y ∈ map f l ↔ ∃ x, y = f x ∧ x ∈ l.
Proof. apply list_elem_of_fmap. Qed.

Lemma NoDup_map_filter {A B} (f : A → B) (P : A → Prop) `{!∀ x, Decision (P x)} l :
  NoDup (map f l) → NoDup (map f (filter P l)).
Proof.
  induction l as [|x l IH]; [done|]. cbn [map]. intros [Hx Hl]%NoDup_cons. rewrite filter_cons.
  destruct (decide (P x)); [|by apply IH]. cbn [map]. apply NoDup_cons. split; [|by apply IH].
  intros (y & E & Hy)%elem_of_map. apply list_elem_of_filter in Hy as [_ Hy]. apply Hx. rewrite E. apply elem_of_map. by exists y.
Qed.

Lemma filter_keeps_all {A} (P : A → Prop) `{!∀ x, Decision (P x)} (l : list A) : (∀ x, x ∈ l → P x) → filter P l = l.
Proof.
  induction l as [|x l IH]; [done|]. intros Hl. rewrite filter_cons, decide_True by (apply Hl; by left).
  f_equal. apply IH. intros y Hy. apply Hl. by right.
Qed.

Lemma filter_ext_elem {A} (P Q : A → Prop) `{!∀ x, Decision (P x), !∀ x, Decision (Q x)} (l : list A) :
  (∀ x, x ∈ l → P x ↔ Q x) → filter P l = filter Q l.
Proof.
  induction l as [|x l IH]; [done|]. intros Hl. rewrite !filter_cons. assert (P x ↔ Q x) as Hx by (apply Hl; by left).
  assert (filter P l = filter Q l) as -> by (apply IH; intros y Hy; apply Hl; by right).
  destruct (decide (P x)), (decide (Q x)); tauto.
Qed.

Lemma map_lookup {A B} (f : A → B) l i x : l !! i = Some x → map f l !! i = Some (f x).
Proof. intros E. pose proof (list_lookup_fmap f l i) as Hf. rewrite E in Hf. exact Hf. Qed.

Lemma NoDup_map_inj {A B} (f : A → B) l x y : NoDup (map f l) → x ∈ l → y ∈ l → f x = f y → x = y.
Proof.
  intros Hn Hx Hy E. apply list_elem_of_lookup_1 in Hx as [i Hi]. apply list_elem_of_lookup_1 in Hy as [j Hj].
  assert (i = j) as <-; [|congruence]. apply (NoDup_lookup (map f l) i j (f x)); [done|exact (map_lookup f l i x Hi)|].
  rewrite E. exact (map_lookup f l j y Hj).
Qed.

(** ** The games and their ports *)

Abbreviation ports l := (map ag_port l).

(** What concerns the ports is the same in two states. *)
Definition same_games (s s' : Supervisor) : Prop :=
  su_cfg s' = su_cfg s ∧ su_games s' = su_games s ∧ su_allocated_ports s' = su_allocated_ports s ∧
  su_port_to_game s' = su_port_to_game s ∧ su_active_listeners s' = su_active_listeners s ∧
  su_next_handle s' = su_next_handle s.

Lemma same_games_refl s : same_games s s.
Proof. by repeat split. Qed.
Lemma same_games_trans s s' s'' : same_games s s' → same_games s' s'' → same_games s s''.
Proof. intros (A1 & A2 & A3 & A4 & A5 & A6) (B1 & B2 & B3 & B4 & B5 & B6). repeat split; congruence. Qed.

(** Some games are gone, and their ports are free. *)
Definition gone (freed : list Z) (s s' : Supervisor) : Prop :=
  su_cfg s' = su_cfg s ∧ su_games s' = filter (λ g, ag_port g ∉ freed) (su_games s) ∧
  su_allocated_ports s' = su_allocated_ports s ∖ list_to_set freed ∧
  (∀ p, su_port_to_game s' !! p = if bool_decide (p ∈ freed) then None else su_port_to_game s !! p) ∧
  su_active_listeners s' = su_active_listeners s ∧ su_next_handle s' = su_next_handle s.

Record ports_ok (parse_bind : bytes → bool) (cfg : Config) (s : Supervisor) : Prop := {
  po_cfg : su_cfg s = cfg;
  po_nodup : NoDup (ports (su_games s));
  po_range : ∀ g, g ∈ su_games s → ag_port g ∈ port_range s;
  po_allocated : ∀ p, p ∈ su_allocated_ports s ↔ p ∈ ports (su_games s);
  po_games : ∀ p h, su_port_to_game s !! p = Some h ↔ ∃ g, g ∈ su_games s ∧ ag_port g = p ∧ ag_handle g = h;
  po_handles : NoDup (map ag_handle (su_games s));
  po_old : ∀ g, g ∈ su_games s → ag_handle g < su_next_handle s;
  po_listen : parse_bind (b_bind_address (cf_bot (su_cfg s))) = true → ∀ g, g ∈ su_games s → ag_port g ∈ su_active_listeners s
}.

Lemma port_range_cfg s s' : su_cfg s' = su_cfg s → port_range s' = port_range s.
Proof. unfold port_range. by intros ->. Qed.

Lemma emit_same e s : same_games s (emit e s).
Proof. by repeat split. Qed.

Lemma position_lookup P l idx : position P l = Some idx → ∃ g, l !! idx = Some g ∧ P g = true.
Proof.
  unfold position. destruct (list_find P l) as [[i g]|] eqn:E; [|done]. intros [= <-].
  apply list_find_Some in E as (Hl & Hp & _). exists g. split; [done|by destruct (P g)].
Qed.

Lemma delete_filter idx g l :
  NoDup (ports l) → l !! idx = Some g → delete idx l = filter (λ x, ag_port x ∉ [ag_port g]) l.
Proof.
  revert idx. induction l as [|x l IH]; intros idx; [done|]. cbn [map]. intros [Hx Hl]%NoDup_cons.
  rewrite filter_cons. destruct idx as [|idx]; cbn.
  - intros [= ->]. rewrite decide_False by (intros Hn; apply Hn; by left). symmetry. apply filter_keeps_all.
    intros y Hy Hp. apply Hx. apply list_elem_of_singleton in Hp. rewrite <- Hp. apply elem_of_map. by exists y.
  - intros Hg. rewrite decide_True; [f_equal; by apply IH|]. intros Hp%list_elem_of_singleton. apply Hx. rewrite Hp.
    apply elem_of_map. exists g. split; [done|by eapply list_elem_of_lookup_2].
Qed.

Lemma release_all freed : ∀ s,
  let s' := foldl (λ s p, (release_port p s) <| su_port_to_game ::= λ m, delete p m |>) s freed in
  su_games s' = su_games s ∧ su_cfg s' = su_cfg s ∧ su_active_listeners s' = su_active_listeners s ∧
  su_next_handle s' = su_next_handle s ∧ su_current_game s' = su_current_game s ∧ su_conn_to_game s' = su_conn_to_game s ∧
  su_out s' = su_out s ∧ su_allocated_ports s' = su_allocated_ports s ∖ list_to_set freed ∧
  (∀ p, su_port_to_game s' !! p = if bool_decide (p ∈ freed) then None else su_port_to_game s !! p).
Proof.
  induction freed as [|f freed IH]; intros s; cbn [foldl].
  - repeat split; try done. cbn. apply set_eq. set_solver.
  - destruct (IH ((release_port f s) <| su_port_to_game ::= λ m, delete f m |>)) as (E1 & E2 & E3 & E4 & E5 & E6 & E7 & E8 & E9).
    split_and!; try done.
    + rewrite E8. cbn. apply set_eq. set_solver.
    + intros p. rewrite E9. cbn -[delete]. destruct (decide (p = f)) as [->|Hp].
      * rewrite (bool_decide_eq_true_2 (f ∈ f :: freed)) by (by left). rewrite lookup_delete_eq. by case_match.
      * rewrite lookup_delete_ne by done. rewrite (bool_decide_ext (p ∈ f :: freed) (p ∈ freed)); [done|set_solver].
Qed.

Section ports.
Context (parse_bind : bytes → bool) (cfg : Config).
Abbreviation ports_ok := (ports_ok parse_bind cfg).

Lemma ports_ok_same s s' : same_games s s' → ports_ok s → ports_ok s'.
Proof.
  intros (E1 & E2 & E3 & E4 & E5 & E6) [H0 H1 H2 H3 H4 H5 H6 H7].
  split; rewrite ?E1, ?E2, ?E3, ?E4, ?E5, ?E6; try done. by rewrite (port_range_cfg s s' E1).
Qed.

Lemma ports_ok_gone freed s s' : gone freed s s' → ports_ok s → ports_ok s'.
Proof.
  intros (E1 & E2 & E3 & E4 & E5 & E6) [H0 H1 H2 H3 H4 H5 H6 H7].
  assert (∀ g, g ∈ su_games s' ↔ (ag_port g ∉ freed) ∧ (g ∈ su_games s)) as Hg.
  { intros g. by rewrite E2, list_elem_of_filter. }
  split.
  - by rewrite E1.
  - rewrite E2. by apply NoDup_map_filter.
  - intros g [_ Hs]%Hg. rewrite (port_range_cfg s s' E1). by apply H2.
  - intros p. rewrite E3, elem_of_difference, elem_of_list_to_set, H3. rewrite !elem_of_map. split.
    + intros [(g & -> & Hs) Hp]. exists g. split; [done|]. by apply Hg.
    + intros (g & -> & [Hp Hs]%Hg). split; [by exists g|done].
  - intros p h. rewrite E4. destruct (bool_decide_reflect (p ∈ freed)) as [Hp|Hp].
    + split; [done|]. intros (g & [Hn _]%Hg & <- & _). done.
    + rewrite H4. split; intros (g & Hs & <- & <-); exists g; (split; [|done]); [by apply Hg|by apply Hg in Hs as [_ ?]].
  - rewrite E2. by apply NoDup_map_filter.
  - intros g [_ Hs]%Hg. rewrite E6. by apply H6.
  - rewrite E1, E5. intros Hb g [_ Hs]%Hg. by apply H7.
Qed.

Lemma initial_ok udp : ports_ok (initial cfg udp).
Proof. split; cbn; try done; try constructor; try (by intros ? ?%not_elem_of_nil); set_solver. Qed.

(** There are no more games than ports. *)
Lemma games_bounded s : ports_ok s → (length (su_games s) <= length (port_range s))%nat.
Proof.
  intros Hs. rewrite <- (length_map ag_port). apply submseteq_length, NoDup_submseteq; [apply Hs|].
  intros p (g & -> & Hg)%elem_of_map. by apply Hs.
Qed.

(** *** Which operations leave the games alone, and which free a port *)

Lemma unhost_at_spec user idx s g :
  ports_ok s → su_games s !! idx = Some g →
  gone [ag_port g] s (unhost_at user idx s) ∧ su_current_game (unhost_at user idx s) = su_current_game s ∧
  su_conn_to_game (unhost_at user idx s) = su_conn_to_game s ∧
  su_out (unhost_at user idx s) = su_out s ++ [EGame (ag_handle g) CmdUnhost; EBnet UnhostGame;
    EBnet (SendChat (str "/w " ++ user ++ str " " ++ str "Game [" ++ ag_name g ++ str "] unhosted"))].
Proof.
  intros Hs Hg. unfold unhost_at. rewrite Hg. split_and!; try done; cbn; [|by rewrite <- !app_assoc].
  repeat split; cbn -[delete].
  - apply delete_filter; [apply Hs|done].
  - apply set_eq. set_solver.
  - intros p. destruct (bool_decide_reflect (p ∈ [ag_port g])) as [->%list_elem_of_singleton|Hp]; [apply lookup_delete_eq|].
    apply lookup_delete_ne. intros E. apply Hp. rewrite E. by left.
Qed.

End ports.

(** *** Loading the map *)

Definition bytes_file (b : bytes) : Prop := Forall u8 b.

Section games.
Context `{CL : CodecLaws} `{CR : CryptoLaws} `{Unicode}.
Context (crc32 : bytes → Z) (parse_bind : bytes → bool) (files : Files).
Context (Hfiles : ∀ path b, fs_read files path = Ok b → bytes_file b).
Context (cfg : Config).
Abbreviation ports_ok := (ports_ok parse_bind cfg).

Lemma read_or_bytes p q b : read_or files p q = Some b → bytes_file b.
Proof.
  unfold read_or. destruct (fs_read files p) as [c|] eqn:E; [intros [= <-]; by apply (Hfiles p)|].
  destruct (fs_read files q) as [c|] eqn:E2; [intros [= <-]; by apply (Hfiles q)|done].
Qed.

Lemma first_map_answers ovr c b paths :
  (∀ x, c = Some x → bytes_file x) → (∀ x, b = Some x → bytes_file x) → ∃ r, first_map crc32 files ovr c b paths = Some r.
Proof.
  intros Hc Hb. induction paths as [|path paths IH]; cbn [first_map]; [by eexists|]. destruct (fs_exists files path); [|done].
  destruct (load_answers crc32 (fs_read files path) (file_name path) c b ovr (Hfiles path) Hc Hb)
    as [[e ->]|(data & h & m0 & _ & _ & _ & _ & ->)]; cbn [mbind option_bind]; [done|by eexists].
Qed.

Lemma resolve_answers s name : ∃ r, resolve_map_info crc32 files s name = Some r.
Proof.
  unfold resolve_map_info.
  destruct (first_map_answers (map_override s name) (read_or files (str "war3/common.j") (str "maps/common.j"))
    (read_or files (str "war3/blizzard.j") (str "maps/blizzard.j")) (concat (map (candidate_paths s) (candidate_filenames s name))))
    as (r & ->); [by apply read_or_bytes|by apply read_or_bytes|]. by eexists.
Qed.

(** *** Hosting *)

Definition free_port (s : Supervisor) : option Z :=
  find (λ p, negb (bool_decide (p ∈ su_allocated_ports s))) (port_range s).

Definition lobby_advert (s : Supervisor) (entry_key : Z) (name : bytes) (port : Z) (m : MapInfo) (game_type : bytes) : ActiveLobbyAdvert :=
  mkLobbyAdvert name (encode_lan_statstring (advert_map_of m) name (gd_virtual_host_name (cf_game (su_cfg s)))) (next_host_counter s)
    entry_key game_type (m_num_players m) (m_num_players m) port.

(** The state and the effects of a game that was hosted on a port. *)
Record hosted (now entry_key : Z) (name owner server : bytes) (vis : GameVisibility) (port : Z) (s s' : Supervisor) : Prop := {
  ho_cfg : su_cfg s' = su_cfg s;
  ho_game : ∃ m game_type slots,
    resolve_map_info crc32 files s name = Some (m, game_type, slots) ∧
    su_games s' = su_games s ++ [mkActive name port (next_host_counter s) (su_next_handle s)
                                   (Some (lobby_advert s entry_key name port m game_type)) now true] ∧
    su_current_game_advert s' = Some (lobby_advert s entry_key name port m game_type) ∧
    ∃ listening tv, su_out s' = su_out s ++ listening ++
      [ESpawnGame (su_next_handle s) (game_config s name owner (next_host_counter s) port m slots)
         (al_stat_string (lobby_advert s entry_key name port m game_type)) (str "replays/" ++ name ++ str ".w3g") server
         (sc_enabled (cf_spectator (su_cfg s)));
       EGame (su_next_handle s) CreateVirtualHost] ++ tv ++
      [EBnet (CreateGame name (advert_map_of m) (next_host_counter s) vis (Some (gd_virtual_host_name (cf_game (su_cfg s)))) (Some port))] ∧
      (listening = [] ∨ listening = [EListen port]) ∧
      tv = if sc_dotatv_enabled (cf_spectator (su_cfg s))
           then [EAttachDotaTv (su_next_handle s) (set_stream_delay STREAM_DELAY (new_shared for_126a));
                 EServeDotaTv (tv_port s port) (su_next_handle s);
                 EServeDotaTvAdmin (wrap 16 (tv_port s port + 1)) (su_next_handle s)] else [];
  ho_allocated : su_allocated_ports s' = {[port]} ∪ su_allocated_ports s;
  ho_port : su_port_to_game s' = <[port := su_next_handle s]> (su_port_to_game s);
  ho_listen : su_active_listeners s ⊆ su_active_listeners s' ∧
    (parse_bind (b_bind_address (cf_bot (su_cfg s))) = true → port ∈ su_active_listeners s');
  ho_next : su_next_handle s' = su_next_handle s + 1;
  ho_current : su_current_game s' = Some (su_next_handle s);
  ho_conns : su_conn_to_game s' = su_conn_to_game s;
  ho_flags : su_shutdown_requested s' = su_shutdown_requested s ∧ su_stopped s' = su_stopped s ∧ su_store s' = su_store s
}.

Lemma listen_eq port s : ∃ L listening,
  listen parse_bind port s = s <| su_active_listeners := L |> <| su_out := su_out s ++ listening |> ∧
  (listening = [] ∨ listening = [EListen port]) ∧ su_active_listeners s ⊆ L ∧
  (parse_bind (b_bind_address (cf_bot (su_cfg s))) = true → port ∈ L).
Proof.
  unfold listen. destruct (bool_decide_reflect (port ∈ su_active_listeners s)) as [Hp|Hp]; cbn [negb andb];
    [|destruct (parse_bind _); [|]].
  - exists (su_active_listeners s), []. rewrite app_nil_r. split_and!; try done; [by destruct s|by left].
  - exists ({[port]} ∪ su_active_listeners s), [EListen port]. split_and!; [done|by right|set_solver|set_solver].
  - exists (su_active_listeners s), []. rewrite app_nil_r. split_and!; try done; [by destruct s|by left].
Qed.

Lemma attach_eq h port s :
  attach_dotatv h port s = s <| su_out := su_out s ++
    if sc_dotatv_enabled (cf_spectator (su_cfg s))
    then [EAttachDotaTv h (set_stream_delay STREAM_DELAY (new_shared for_126a)); EServeDotaTv (tv_port s port) h;
          EServeDotaTvAdmin (wrap 16 (tv_port s port + 1)) h] else [] |>.
Proof.
  unfold attach_dotatv. destruct (sc_dotatv_enabled _); [|rewrite app_nil_r; by destruct s].
  cbn. unfold emit, set. cbn. f_equal. rewrite <- !app_assoc. done.
Qed.

Lemma create_spec now entry_key name owner server vis s :
  match free_port s with
  | None => create_game_with_creator crc32 parse_bind files now entry_key name owner server vis s =
              Some (s <| su_host_counter ::= λ c, wrap 32 (c + 1) |>)
  | Some port => ∃ s', create_game_with_creator crc32 parse_bind files now entry_key name owner server vis s = Some s' ∧
                       hosted now entry_key name owner server vis port s s'
  end.
Proof.
  unfold create_game_with_creator. destruct (resolve_answers s name) as ([[m gt] slots] & E). rewrite E. cbn [mbind option_bind].
  unfold allocate_port. rewrite (port_range_cfg s) by done. unfold free_port. cbn [su_allocated_ports set].
  destruct (find _ (port_range s)) as [port|]; [|done]. cbv zeta.
  match goal with |- context [listen parse_bind port ?t] => destruct (listen_eq port t) as (L & listening & -> & Hl & HL & HLp) end.
  rewrite attach_eq. eexists. split; [reflexivity|]. split; cbn; try done.
  exists m, gt, slots. split_and!; try done. exists listening. eexists. split; [|split; [exact Hl|reflexivity]].
  rewrite <- !app_assoc. cbn. done.
Qed.

Lemma free_port_spec s port : free_port s = Some port → port ∈ port_range s ∧ port ∉ su_allocated_ports s.
Proof.
  intros [Hin Hp]%find_some. split; [by apply list_elem_of_In|]. by destruct (bool_decide_reflect (port ∈ su_allocated_ports s)).
Qed.

Lemma ports_ok_hosted now entry_key name owner server vis port s s' :
  ports_ok s → free_port s = Some port → hosted now entry_key name owner server vis port s s' → ports_ok s'.
Proof.
  intros [P0 P1 P2 P3 P4 P5 P6 P7] [Hr Hf]%free_port_spec Hh.
  destruct (ho_game _ _ _ _ _ _ _ _ _ Hh) as (m & gt & slots & _ & Eg & _). set (g := mkActive _ _ _ _ _ _ _) in Eg.
  assert (port ∉ map ag_port (su_games s)) as Hp by (by rewrite <- P3).
  assert (∀ x, x ∈ su_games s' ↔ x ∈ su_games s ∨ x = g) as Hg.
  { intros x. by rewrite Eg, elem_of_app, list_elem_of_singleton. }
  assert (∀ P : ActiveGameInfo → Prop, (∀ x, x ∈ su_games s → P x) → P g → ∀ x, x ∈ su_games s' → P x) as Hall.
  { intros P Hs Hn x [Hx| ->]%Hg; [by apply Hs|done]. }
  split.
  - by rewrite (ho_cfg _ _ _ _ _ _ _ _ _ Hh).
  - rewrite Eg, map_app. apply NoDup_app. split_and!; [done| |by apply NoDup_singleton].
    intros p Hin ->%list_elem_of_singleton. done.
  - rewrite (port_range_cfg s s') by apply Hh. by apply Hall.
  - intros p. rewrite (ho_allocated _ _ _ _ _ _ _ _ _ Hh), Eg, map_app, elem_of_app, elem_of_union, P3, elem_of_singleton.
    change (map ag_port [g]) with [port]. rewrite list_elem_of_singleton. tauto.
  - intros p h. rewrite (ho_port _ _ _ _ _ _ _ _ _ Hh). destruct (decide (p = port)) as [->|Hne].
    + rewrite lookup_insert_eq. split.
      * intros [= <-]. exists g. split; [apply Hg; by right|done].
      * intros (x & [Hx| ->]%Hg & E & <-); [|done]. exfalso. apply Hp. apply elem_of_map. by exists x.
    + rewrite lookup_insert_ne by done. rewrite P4. split; intros (x & Hx & E & <-); exists x; (split; [|done]); [apply Hg; by left|].
      apply Hg in Hx as [?| ->]; [done|]. by symmetry in E.
  - rewrite Eg, map_app. apply NoDup_app. split_and!; [done| |by apply NoDup_singleton].
    intros h (x & -> & Hx)%elem_of_map E%list_elem_of_singleton. cbn in E. apply P6 in Hx. lia.
  - rewrite (ho_next _ _ _ _ _ _ _ _ _ Hh). apply Hall; [|cbn; lia]. intros x Hx. apply P6 in Hx. lia.
  - rewrite (ho_cfg _ _ _ _ _ _ _ _ _ Hh). intros Hb. destruct (ho_listen _ _ _ _ _ _ _ _ _ Hh) as [Hl1 Hl2].
    apply Hall; [|by apply Hl2]. intros x Hx. apply Hl1. by apply P7.
Qed.

(** *** Every input *)

Lemma answer_same verb user parts s : same_games s (answer_command verb user parts s).
Proof.
  assert (∀ k, (∀ t u, same_games u (k t u)) → same_games s (with_target parts k s)) as Ht.
  { intros k Hk. unfold with_target. destruct parts; [apply same_games_refl|apply Hk]. }
  unfold answer_command. destruct (map_command verb user parts s) as [t|] eqn:E; unfold map_command in E.
  { repeat case_match; try discriminate E; injection E as <-; by repeat split. }
  clear E. destruct (record_command verb user parts s) as [t|] eqn:E; unfold record_command in E.
  { repeat case_match; try discriminate E; injection E as <-; first [by repeat split|apply Ht; by repeat split]. }
  clear E. destruct (info_command verb user parts s) as [t|] eqn:E; unfold info_command in E.
  { repeat case_match; try discriminate E; injection E as <-; by repeat split. }
  clear E. destruct (clan_command verb user parts s) as [t|] eqn:E; unfold clan_command in E.
  { repeat case_match; try discriminate E; injection E as <-; first [by repeat split|apply Ht; by repeat split]. }
  unfold other_command. repeat case_match; by repeat split.
Qed.

Definition keeps_ports (s s' : Supervisor) : Prop := ports_ok s → ports_ok s'.

Lemma same_keeps s s' : same_games s s' → keeps_ports s s'.
Proof. intros Hs Hp. by eapply ports_ok_same. Qed.

Lemma create_keeps now entry_key name owner server vis s :
  ∃ s', create_game_with_creator crc32 parse_bind files now entry_key name owner server vis s = Some s' ∧ keeps_ports s s'.
Proof.
  pose proof (create_spec now entry_key name owner server vis s) as Hc. destruct (free_port s) as [port|] eqn:E.
  - destruct Hc as (s' & -> & Hh). exists s'. split; [done|]. intros Hs. by eapply ports_ok_hosted.
  - eexists. split; [exact Hc|]. apply same_keeps. by repeat split.
Qed.

Lemma unhost_at_keeps user idx s : keeps_ports s (unhost_at user idx s).
Proof.
  intros Hs. destruct (su_games s !! idx) as [g|] eqn:E; [|unfold unhost_at; by rewrite E].
  eapply ports_ok_gone; [|exact Hs]. by apply (unhost_at_spec parse_bind cfg user idx s g).
Qed.

Lemma chat_keeps now entry_key user text s :
  ∃ s', handle_chat_command crc32 parse_bind files now entry_key user text s = Some s' ∧ keeps_ports s s'.
Proof.
  assert (∀ s', same_games s s' → ∃ s'', Some s' = Some s'' ∧ keeps_ports s s'') as Hsame.
  { intros s' Hs'. exists s'. split; [done|]. by apply same_keeps. }
  unfold handle_chat_command. destruct (negb _); [by apply Hsame|]. destruct (strip_trigger _ text) as [cmd|]; [|by apply Hsame].
  destruct (split_whitespace cmd) as [|verb parts]; [by apply Hsame|]. cbv zeta. destruct (_ || _).
  { unfold host_command. destruct (_ =? _)%nat; [by apply Hsame|]. destruct (_ <=? _); [by apply Hsame|]. apply create_keeps. }
  destruct (bytes_eqb _ _).
  { eexists. split; [done|]. unfold unhost_command. destruct (negb _).
    - destruct (position _ _); [apply unhost_at_keeps|by apply same_keeps].
    - destruct (position _ _); [apply unhost_at_keeps|]. destruct (su_current_game s); by apply same_keeps. }
  destruct (_ || _); [|apply Hsame, answer_same].
  unfold host_for_command. destruct parts as [|owner parts]; [by apply Hsame|]. destruct (_ =? _)%nat; [by apply Hsame|].
  destruct (create_keeps now entry_key (words parts) owner (cfg_server (cf_bnet (su_cfg s)))
    (if eq_ignore_ascii_case verb (str "pubby") then Public else Private) s) as (s' & -> & Hk).
  cbn [mbind option_bind]. eexists. split; [done|]. intros Hs. eapply ports_ok_same; [|by apply Hk]. by repeat split.
Qed.

Definition port_and_handle (g : ActiveGameInfo) : Z * Z := (ag_port g, ag_handle g).

Lemma update_advert_keys c f l : map port_and_handle (update_advert c f l) = map port_and_handle l.
Proof. induction l as [|g l IH]; [done|]. cbn [update_advert]. destruct (_ =? _); cbn [map]; [done|by rewrite IH]. Qed.

Lemma keys_in l l' g : map port_and_handle l' = map port_and_handle l → g ∈ l' → ∃ g', g' ∈ l ∧ ag_port g' = ag_port g ∧ ag_handle g' = ag_handle g.
Proof.
  intros E Hg. assert (port_and_handle g ∈ map port_and_handle l) as Hin by (rewrite <- E; apply elem_of_map; by exists g).
  apply elem_of_map in Hin as (g' & [= E1 E2] & Hg'). by exists g'.
Qed.

Lemma update_keeps c f s t :
  same_games s t → keeps_ports s (t <| su_games ::= update_advert c f |>).
Proof.
  intros (E1 & E2 & E3 & E4 & E5 & E6) [P0 P1 P2 P3 P4 P5 P6 P7].
  pose proof (update_advert_keys c f (su_games s)) as Ek. rewrite <- E2 in Ek at 1.
  assert (∀ k : Z * Z → Z, map (k ∘ port_and_handle) (update_advert c f (su_games t)) = map (k ∘ port_and_handle) (su_games s)) as Em.
  { intros k. unfold compose. rewrite <- (map_map port_and_handle k (update_advert _ _ _)), Ek. apply map_map. }
  assert (map ag_port (update_advert c f (su_games t)) = map ag_port (su_games s)) as Ep by exact (Em fst).
  assert (map ag_handle (update_advert c f (su_games t)) = map ag_handle (su_games s)) as Eh by exact (Em snd).
  assert (∀ Q : Z → Z → Prop, (∀ g, g ∈ su_games s → Q (ag_port g) (ag_handle g)) →
    ∀ g, g ∈ update_advert c f (su_games t) → Q (ag_port g) (ag_handle g)) as Hall.
  { intros Q HQ g Hg. destruct (keys_in _ _ g Ek Hg) as (g' & Hg' & <- & <-). by apply HQ. }
  split; cbn -[port_range].
  - by rewrite E1.
  - by rewrite Ep.
  - rewrite (port_range_cfg s) by done. by apply (Hall (λ p _, p ∈ port_range s)).
  - intros p. rewrite E3, P3. by rewrite Ep.
  - intros p h. rewrite E4, P4. split; intros (g & Hg & <- & <-).
    + destruct (keys_in _ _ g (eq_sym Ek) Hg) as (g' & Hg' & Ea & Eb). by exists g'.
    + destruct (keys_in _ _ g Ek Hg) as (g' & Hg' & Ea & Eb). by exists g'.
  - by rewrite Eh.
  - rewrite E6. by apply (Hall (λ _ h, h < su_next_handle s)).
  - rewrite E1, E5. intros Hb. by apply (Hall (λ p _, p ∈ su_active_listeners s)), P7.
Qed.

Lemma filter_ports (closed : Z → bool) l :
  NoDup (ports l) →
  filter (λ g, closed (ag_handle g) = false) l =
  filter (λ g, ag_port g ∉ ports (filter (λ g, closed (ag_handle g) = true) l)) l.
Proof.
  intros Hn. apply filter_ext_elem. intros g Hg. split.
  - intros Hc (g' & E & [Hc' Hg']%list_elem_of_filter)%elem_of_map.
    assert (g = g') as <- by (by eapply (NoDup_map_inj ag_port l)). congruence.
  - intros Hp. destruct (closed (ag_handle g)) eqn:Hc; [|done]. exfalso. apply Hp. apply elem_of_map. exists g.
    split; [done|]. by apply list_elem_of_filter.
Qed.

Lemma clean_spec closed s :
  ports_ok s →
  gone (ports (filter (λ g, closed (ag_handle g) = true) (su_games s))) s (clean_finished_games closed s).
Proof.
  intros Hs. unfold clean_finished_games. cbv zeta.
  pose proof (release_all (ports (filter (λ g, closed (ag_handle g) = true) (su_games s)))
    (s <| su_games ::= filter (λ g, closed (ag_handle g) = false) |>)) as Hr. cbv zeta in Hr.
  set (t := foldl _ _ _) in *. destruct Hr as (E1 & E2 & E3 & E4 & E5 & E6 & E7 & E8 & E9).
  assert (∀ t', same_games t t' → gone (ports (filter (λ g, closed (ag_handle g) = true) (su_games s))) s t') as Hk.
  { intros t' (F1 & F2 & F3 & F4 & F5 & F6). repeat split.
    - by rewrite F1, E2.
    - rewrite F2, E1. cbn. apply filter_ports, Hs.
    - by rewrite F3, E8.
    - intros p. by rewrite F4, E9.
    - by rewrite F5, E3.
    - by rewrite F6, E4. }
  cbn [su_current_game set]. destruct (su_current_game _) as [h|]; [|apply Hk; by repeat split].
  destruct (closed h); [|apply Hk; by repeat split]. case_match; apply Hk; by repeat split.
Qed.

Lemma shutdown_same s : same_games s (shutdown s).
Proof.
  unfold shutdown. cbv zeta. assert (∀ l t, same_games t (foldl (λ s g, emit (EGame (ag_handle g) Dispatch.Shutdown) s) t l)) as Hf.
  { induction l as [|g l IH]; intros t; cbn [foldl]; [apply same_games_refl|]. eapply same_games_trans; [apply emit_same|apply IH]. }
  eapply same_games_trans; [apply emit_same|]. eapply same_games_trans; [apply Hf|]. destruct (su_current_game _); [apply emit_same|apply same_games_refl].
Qed.

Lemma stop_same s : same_games s ((shutdown s) <| su_stopped := true |>).
Proof. eapply same_games_trans; [apply shutdown_same|]. generalize (shutdown s). intros t. by repeat split. Qed.

Lemma input_keeps now i s : ∃ s', handle_input crc32 parse_bind files now i s = Some s' ∧ keeps_ports s s'.
Proof.
  destruct i; cbn [handle_input]; try (eexists; split; [reflexivity|]).
  - apply same_keeps, stop_same.
  - apply same_keeps. unfold broadcast_lan_game. destruct (su_udp_broadcaster s); by repeat split.
  - intros Hs. eapply ports_ok_gone; [by apply clean_spec|done].
  - apply same_keeps. unfold handle_new_connection. repeat case_match; by repeat split.
  - apply same_keeps. unfold handle_reconnect_connection. repeat case_match; by repeat split.
  - apply same_keeps. by repeat split.
  - apply same_keeps. unfold handle_conn_event. repeat case_match; by repeat split.
  - unfold handle_bnet_event. destruct ev; try (eexists; split; [reflexivity|]; apply same_keeps; by repeat split); apply chat_keeps.
  - unfold on_lobby_status. intros Hs. eapply same_keeps; [apply emit_same|].
    eapply ports_ok_same; [|apply (update_keeps (ls_host_counter st) (set_slots (ls_slots_open st) (ls_slots_total st)) s s (same_games_refl s) Hs)].
    by repeat split.
  - apply same_keeps. apply emit_same.
Qed.

Lemma step_keeps now i s : ∃ s', step crc32 parse_bind files now i s = Some s' ∧ keeps_ports s s'.
Proof.
  unfold step. destruct (su_stopped s); [exists s; by split; [|intros ?]|]. destruct (input_keeps now i s) as (s' & -> & Hk). cbn [mbind option_bind].
  eexists. split; [done|]. intros Hs. destruct (_ && _); [|by apply Hk]. eapply same_keeps; [|by apply Hk].
  apply stop_same.
Qed.

Lemma inputs_keep inputs : ∀ s, ∃ s', run_inputs crc32 parse_bind files inputs s = Some s' ∧ keeps_ports s s'.
Proof.
  induction inputs as [|[now i] inputs IH]; intros s; cbn [run_inputs]; [exists s; by split; [|intros ?]|].
  destruct (step_keeps now i s) as (t & -> & Ht). destruct (IH t) as (u & Hu & Hk). exists u. split; [done|]. intros Hs. by apply Hk, Ht.
Qed.

Lemma host_all_keeps now fake names : ∀ s,
  ∃ s', host_all crc32 parse_bind files now fake names s = Some s' ∧ keeps_ports s s'.
Proof.
  induction names as [|[name key] names IH]; intros s; cbn [host_all]; [exists s; by split; [|intros ?]|].
  unfold create_game. destruct (create_keeps now key name (cfg_username (cf_bnet (su_cfg s))) (cfg_server (cf_bnet (su_cfg s))) Public s)
    as (t & -> & Ht). cbn [mbind option_bind]. cbv zeta.
  set (u := match su_current_game t with Some h => _ | None => t end).
  assert (same_games t u) as Hu by (unfold u; repeat case_match; by repeat split).
  destruct (IH u) as (v & Hv & Hk). exists v. split; [done|]. intros Hs. apply Hk. by eapply same_keeps, Ht.
Qed.
End games.

(** C3: Whatever happens, in whatever order, the supervisor does not panic, and its books on the
    ports agree: every game has a port of its own out of the configured range, on which there is
    a listener; the ports taken are those of the games, so that no port is lost and every port of
    a game that is gone can be used again; a connection to the port of a game is routed to that
    game; and there are never more games than ports. *)
Theorem supervisor_ports `{CL : CodecLaws} `{CR : CryptoLaws} `{Unicode} crc32 parse_bind files now cfg udp fake names inputs
    (Hfiles : ∀ path b, fs_read files path = Ok b → bytes_file b)
    (Hbind : parse_bind (b_bind_address (cf_bot cfg)) = true) :
  let '(first, last) := port_pool_range (cf_bot cfg) in
  ∃ s0 s,
    run_supervisor crc32 parse_bind files now cfg udp fake names = Some (Ok s0) ∧
    run_inputs crc32 parse_bind files inputs s0 = Some s ∧
    NoDup (ports (su_games s)) ∧ NoDup (map ag_handle (su_games s)) ∧
    (∀ g, g ∈ su_games s → first <= ag_port g <= last ∧ ag_port g ∈ su_active_listeners s) ∧
    (∀ p, p ∈ su_allocated_ports s ↔ p ∈ ports (su_games s)) ∧
    (∀ p h, su_port_to_game s !! p = Some h ↔ ∃ g, g ∈ su_games s ∧ ag_port g = p ∧ ag_handle g = h) ∧
    zlen (su_games s) <= last - first + 1.
Proof.
  assert ((port_pool_range (cf_bot cfg)).1 <= (port_pool_range (cf_bot cfg)).2) as Hle by (unfold port_pool_range; cbn; lia).
  destruct (port_pool_range (cf_bot cfg)) as [first last] eqn:Er. cbn in Hle.
  destruct (host_all_keeps crc32 parse_bind files Hfiles cfg now fake names (initial cfg udp)) as (s0 & E0 & H0').
  destruct (inputs_keep crc32 parse_bind files Hfiles cfg inputs s0) as (s & Es & Hs).
  assert (ports_ok parse_bind cfg s) as Hok by (apply Hs, H0', initial_ok).
  exists s0, s. unfold run_supervisor. rewrite Hbind, E0. split_and!; try done.
  - apply Hok.
  - apply Hok.
  - intros g Hg. pose proof (po_range _ _ _ Hok g Hg) as Hr. pose proof (po_listen _ _ _ Hok) as Hl.
    rewrite (po_cfg _ _ _ Hok) in Hl. split; [|by apply Hl]. unfold port_range in Hr. rewrite (po_cfg _ _ _ Hok), Er in Hr.
    apply elem_of_seqZ in Hr. lia.
  - apply Hok.
  - apply Hok.
  - pose proof (games_bounded _ _ _ Hok) as Hb. unfold port_range in Hb. rewrite (po_cfg _ _ _ Hok), Er, length_seqZ in Hb.
    unfold zlen. lia.
Qed.

(** A configuration with two ports for games, and one administrator. *)
Definition two_port_config : Config :=
  from_toml (mkTomlConfig
    (Some (mkTomlBot default_war3_path default_map_path None 20 true default_bind_address default_host_port (Some 6201) (Some 6200)
             default_gproxy_reconnect_port None None None None None None))
    (Some (mkTomlBnet default_bnet_server default_bnet_port default_bnet_username [] default_cdkey default_cdkey default_first_channel
             [str "Boss"] default_command_trigger default_war3_version default_reconnect_delay_sec default_password_hash_type None None))
    None None None ∅).

Definition ipv4_bind (b : bytes) : bool := match parse_ipv4 b with Some _ => true | None => false end.
Definition no_files : Files := mkFiles (λ _, Err (str "not found")) (λ _, false).

(** Two games at the start, a third one refused for want of a port, the second one gone, another
    one in its place. *)
Definition hosting_inputs : list (Z * Input) :=
  [(1, InBnet 7 (ChatMessage (str "boss") (str "!pub third")));
   (2, InCleanupTimer (λ h, h =? 1));
   (3, InBnet 8 (Whisper (str "Boss") (str "!PRIV fourth game")))].

Abbreviation run_example := (run_supervisor (H := run_codecs) (H0 := run_crypto) (λ _, 0) ipv4_bind no_files 0 two_port_config true false).
Abbreviation inputs_example := (run_inputs (H := run_codecs) (H0 := run_crypto) (H1 := plain_unicode) (λ _, 0) ipv4_bind no_files hosting_inputs).

Lemma supervisor_ports_witness :
  ∃ s0 s, run_example [(str "first", 5); (str "second", 6)] = Some (Ok s0) ∧ inputs_example s0 = Some s ∧
    map (λ g, (ag_name g, ag_port g, ag_handle g)) (su_games s) = [(str "first", 6200, 0); (str "fourth game", 6201, 2)] ∧
    NoDup (ports (su_games s)) ∧ zlen (su_games s) <= 2.
Proof.
  destruct (supervisor_ports (CL := run_codec_laws) (CR := run_crypto_laws) (H1 := plain_unicode) (λ _, 0) ipv4_bind no_files 0
    two_port_config true false [(str "first", 5); (str "second", 6)] hosting_inputs) as (s0 & s & E0 & E & Hn & _ & _ & _ & _ & Hl);
    [done|vm_compute; reflexivity|].
  exists s0, s. split; [exact E0|]. split; [exact E|]. split; [|by split].
  assert (match run_example [(str "first", 5); (str "second", 6)] with
          | Some (Ok s0) => match inputs_example s0 with
            | Some s => bool_decide (map (λ g, (ag_name g, ag_port g, ag_handle g)) (su_games s) = [(str "first", 6200, 0); (str "fourth game", 6201, 2)])
            | None => false end
          | _ => false end = true) as Ht by (vm_compute; reflexivity).
  rewrite E0 in Ht. rewrite E in Ht. by apply bool_decide_eq_true in Ht.
Defined.

(** ** The command that hosts a game *)

(** The states that the loop can be in. *)
Definition reachable `{Codecs} `{Crypto} `{Unicode} crc32 parse_bind files (cfg : Config) (s : Supervisor) : Prop :=
  ∃ now udp fake names s0 inputs,
    run_supervisor crc32 parse_bind files now cfg udp fake names = Some (Ok s0) ∧
    run_inputs crc32 parse_bind files inputs s0 = Some s.

Lemma find_seqZ (f : Z → bool) a n :
  match find f (seqZ a n) with
  | Some p => a <= p < a + n ∧ f p = true ∧ ∀ q, a <= q < p → f q = false
  | None => ∀ q, a <= q < a + n → f q = false
  end.
Proof.
  assert (∀ k n a, n = Z.of_nat k → match find f (seqZ a n) with
    | Some p => a <= p < a + n ∧ f p = true ∧ ∀ q, a <= q < p → f q = false
    | None => ∀ q, a <= q < a + n → f q = false end) as Hk.
  { clear. induction k as [|k IH]; intros n a ->; [by intros q ?; lia|].
    rewrite seqZ_cons by lia. cbn [find]. destruct (f a) eqn:E; [split_and!; [lia|lia|done|intros; lia]|].
    specialize (IH (Z.pred (Z.of_nat (S k))) (Z.succ a) ltac:(lia)). destruct (find f _) as [p|].
    - destruct IH as (H1 & H2 & H3). split_and!; [lia|lia|done|]. intros q Hq. destruct (decide (q = a)) as [->|]; [done|]. apply H3. lia.
    - intros q Hq. destruct (decide (q = a)) as [->|]; [done|]. apply IH. lia. }
  destruct (decide (0 <= n)) as [Hn|Hn]; [apply (Hk (Z.to_nat n)); lia|].
  rewrite seqZ_nil by lia. intros q Hq. lia.
Qed.

Section hosting.
Context `{CL : CodecLaws} `{CR : CryptoLaws} `{Unicode}.
Context (crc32 : bytes → Z) (parse_bind : bytes → bool) (files : Files).
Context (Hfiles : ∀ path b, fs_read files path = Ok b → bytes_file b).

Lemma reachable_ok cfg s : reachable crc32 parse_bind files cfg s → ports_ok parse_bind cfg s.
Proof.
  intros (now & udp & fake & names & s0 & inputs & E0 & E). unfold run_supervisor in E0.
  destruct (parse_bind _); [|done].
  destruct (host_all_keeps crc32 parse_bind files Hfiles cfg now fake names (initial cfg udp)) as (t & Et & Ht).
  rewrite Et in E0. injection E0 as <-.
  destruct (inputs_keep crc32 parse_bind files Hfiles cfg inputs t) as (u & Eu & Hu).
  rewrite Eu in E. injection E as <-. by apply Hu, Ht, initial_ok.
Qed.

(** The free port is the least one without a game. *)
Lemma free_port_least cfg s :
  ports_ok parse_bind cfg s →
  let '(first, last) := port_pool_range (cf_bot cfg) in
  match free_port s with
  | Some port => first <= port <= last ∧ (port ∉ ports (su_games s)) ∧ ∀ q, first <= q < port → q ∈ ports (su_games s)
  | None => ∀ q, first <= q <= last → q ∈ ports (su_games s)
  end.
Proof.
  intros Hs. unfold free_port, port_range. rewrite (po_cfg _ _ _ Hs). destruct (port_pool_range _) as [first last].
  pose proof (find_seqZ (λ p, negb (bool_decide (p ∈ su_allocated_ports s))) first (last - first + 1)) as Hf.
  destruct (find _ _) as [port|].
  - destruct Hf as (Hr & Hp%negb_true_iff%bool_decide_eq_false & Hq). split_and!; [lia|lia| |].
    + intros Hin. by apply Hp, (po_allocated _ _ _ Hs).
    + intros q Hlt. apply (po_allocated _ _ _ Hs), (bool_decide_eq_true (q ∈ _)), negb_false_iff. by apply Hq.
  - intros q Hlt. apply (po_allocated _ _ _ Hs), (bool_decide_eq_true (q ∈ _)), negb_false_iff. apply Hf. lia.
Qed.
End hosting.

(** C6: What an administrator's !pub or !priv does.  Without a name or with as many games as are
    allowed, the administrator is told so and nothing else happens; when every port has a game,
    nothing is said and no game appears; otherwise the game gets the least port that has none,
    its actor is started on that port under a number of its own, joined by its virtual host and,
    when the live stream is on, by its stream, and is announced to Battle.net. *)
Theorem host_command_spec `{CL : CodecLaws} `{CR : CryptoLaws} `{Unicode} crc32 parse_bind files now entry_key cfg s user cmd verb parts
    (Hfiles : ∀ path b, fs_read files path = Ok b → bytes_file b)
    (Hs : reachable crc32 parse_bind files cfg s)
    (Hadmin : existsb (λ a, eq_ignore_ascii_case a user) (cfg_root_admins (cf_bnet cfg)) = true)
    (Hcmd : split_whitespace cmd = verb :: parts)
    (Hverb : to_lowercase verb = str "pub" ∨ to_lowercase verb = str "priv") :
  let name := words parts in
  let vis := if eq_ignore_ascii_case verb (str "pub") then Public else Private in
  let '(first, last) := port_pool_range (cf_bot cfg) in
  ∃ s', handle_chat_command crc32 parse_bind files now entry_key user (cfg_command_trigger (cf_bnet cfg) ++ cmd) s = Some s' ∧
    (name = [] → s' = whisper user (str "Usage: !pub <game name>") s) ∧
    (name ≠ [] → b_max_games (cf_bot cfg) <= zlen (su_games s) → s' = whisper user (str "Error: maximum games reached") s) ∧
    (name ≠ [] → zlen (su_games s) < b_max_games (cf_bot cfg) →
       ((∀ q, first <= q <= last → q ∈ ports (su_games s)) ∧ su_games s' = su_games s ∧ su_out s' = su_out s) ∨
       ∃ port, first <= port <= last ∧ (port ∉ ports (su_games s)) ∧ (∀ q, first <= q < port → q ∈ ports (su_games s)) ∧
         hosted crc32 parse_bind files now entry_key name user (cfg_server (cf_bnet cfg)) vis port s s').
Proof.
  pose proof (reachable_ok crc32 parse_bind files Hfiles cfg s Hs) as Hok. pose proof (free_port_least parse_bind cfg s Hok) as Hfree.
  pose proof (po_cfg _ _ _ Hok) as Ec. cbv zeta. destruct (port_pool_range (cf_bot cfg)) as [first last].
  unfold handle_chat_command, is_root_admin, strip_trigger. rewrite Ec, Hadmin, starts_with_app, drop_app_length, Hcmd. cbn [negb].
  assert (bytes_eqb (to_lowercase verb) (str "pub") || bytes_eqb (to_lowercase verb) (str "priv") = true) as ->.
  { destruct Hverb as [-> | ->]; vm_compute; done. }
  unfold host_command. rewrite Ec. set (vis := if eq_ignore_ascii_case _ _ then Public else Private).
  destruct (words parts) as [|b name] eqn:En; [eexists; split; [done|by split_and!]|]. cbn [length Nat.eqb].
  destruct (Z.leb_spec (b_max_games (cf_bot cfg)) (zlen (su_games s))) as [Hm|Hm].
  { eexists. split; [done|]. split_and!; [done|done|intros; lia]. }
  unfold create_game. rewrite Ec.
  pose proof (create_spec crc32 parse_bind files Hfiles now entry_key (b :: name) user (cfg_server (cf_bnet cfg)) vis s) as Hc.
  destruct (free_port s) as [port|].
  - destruct Hc as (s' & -> & Hh). exists s'. split; [done|]. split_and!; [done|intros; lia|]. intros _ _. right. exists port. by destruct Hfree as (? & ? & ?).
  - eexists. split; [exact Hc|]. split_and!; [done|intros; lia|]. intros _ _. left. by split_and!.
Qed.

Lemma host_command_spec_witness :
  ∃ s s', run_example [(str "first", 5)] = Some (Ok s) ∧
    handle_chat_command (H := run_codecs) (H0 := run_crypto) (H1 := plain_unicode) (λ _, 0) ipv4_bind no_files 9 7 (str "BOSS") (str "!Pub the arena") s = Some s' ∧
    hosted (H := run_codecs) (H0 := run_crypto) (λ _, 0) ipv4_bind no_files 9 7 (str "the arena") (str "BOSS") default_bnet_server Public 6201 s s'.
Proof.
  destruct (run_example [(str "first", 5)]) as [[s|[]]|] eqn:E; [|exfalso; vm_compute in E; discriminate E..].
  assert (match run_example [(str "first", 5)] with
          | Some (Ok s) => bool_decide (ports (su_games s) = [6200]) | _ => false end = true) as Hp by (vm_compute; reflexivity).
  rewrite E in Hp. apply bool_decide_eq_true in Hp.
  destruct (host_command_spec (CL := run_codec_laws) (CR := run_crypto_laws) (H1 := plain_unicode) (λ _, 0) ipv4_bind no_files 9 7
    two_port_config s (str "BOSS") (str "Pub the arena") (str "Pub") [str "the"; str "arena"]) as (s' & E' & _ & _ & Hh).
  - done.
  - exists 0, true, false, [(str "first", 5)], s, []. by split.
  - vm_compute. reflexivity.
  - vm_compute. reflexivity.
  - left. vm_compute. reflexivity.
  - exists s, s'. split; [done|]. split; [exact E'|].
    assert (zlen (su_games s) = 1) as Hl by (unfold zlen; rewrite <- (length_map ag_port), Hp; reflexivity).
    destruct Hh as [(Hfull & _)|(port & Hr & Hfree & Hleast & Hh)]; [discriminate| rewrite Hl; vm_compute; reflexivity| |].
    + exfalso. assert (6201 ∈ ports (su_games s)) as Hin by (apply Hfull; vm_compute; split; discriminate). rewrite Hp in Hin.
      by apply list_elem_of_singleton in Hin.
    + assert (port = 6201) as ->; [|exact Hh]. rewrite Hp in Hfree.
      destruct (decide (port = 6200)) as [->|Hne]; [exfalso; apply Hfree; by left|].
      assert (6200 <= port <= 6201) as Hr' by exact Hr. lia.
Defined.

(** ** The ports of the live streams *)

Section first_games.
Context `{CL : CodecLaws} `{CR : CryptoLaws} `{Unicode}.
Context (crc32 : bytes → Z) (parse_bind : bytes → bool) (files : Files) (cfg : Config).
Context (Hfiles : ∀ path b, fs_read files path = Ok b → bytes_file b).

(** Hosting when the games have the first ports of the range. *)
Lemma host_next now key name owner server vis s :
  ports_ok parse_bind cfg s →
  let '(first, last) := port_pool_range (cf_bot cfg) in
  let port := first + zlen (su_games s) in
  ports (su_games s) = seqZ first (zlen (su_games s)) → port <= last →
  ∃ s', create_game_with_creator crc32 parse_bind files now key name owner server vis s = Some s' ∧
    hosted crc32 parse_bind files now key name owner server vis port s s' ∧ ports_ok parse_bind cfg s' ∧
    ports (su_games s') = seqZ first (zlen (su_games s')).
Proof.
  intros Hs. pose proof (free_port_least parse_bind cfg s Hs) as Hf. destruct (port_pool_range (cf_bot cfg)) as [first last].
  cbv zeta. intros Hp Hle. rewrite Hp in Hf. pose proof (create_spec crc32 parse_bind files Hfiles now key name owner server vis s) as Hc.
  assert (0 <= zlen (su_games s)) as H0' by (unfold zlen; lia).
  destruct (free_port s) as [port|] eqn:E; cycle 1.
  { specialize (Hf (first + zlen (su_games s)) ltac:(lia)). apply elem_of_seqZ in Hf. lia. }
  destruct Hf as (Hr & Hn & Hl). rewrite elem_of_seqZ in Hn.
  assert (port = first + zlen (su_games s)) as ->.
  { destruct (decide (port <= first + zlen (su_games s))) as [Hx|Hx]; [lia|].
    specialize (Hl (first + zlen (su_games s)) ltac:(lia)). apply elem_of_seqZ in Hl. lia. }
  destruct Hc as (s' & Ec & Hh). exists s'. split_and!; [done|done|by eapply ports_ok_hosted|].
  destruct (ho_game _ _ _ _ _ _ _ _ _ _ _ _ Hh) as (m & gt & slots & _ & -> & _).
  rewrite map_app, Hp. unfold zlen. rewrite length_app. cbn [length map ag_port].
  replace (Z.of_nat (length (su_games s) + 1)) with (Z.of_nat (length (su_games s)) + 1) by lia. by rewrite seqZ_app by lia.
Qed.
End first_games.

(** With the live stream on and two ports in the range, the second game that is hosted
    listens for viewers on the port on which the first one already listens for administrators,
    whatever the ports configured are: one of the two does not get its port. *)
Theorem tv_ports_collide `{CL : CodecLaws} `{CR : CryptoLaws} `{Unicode} crc32 parse_bind files now cfg udp n1 k1 n2 k2
    (Hfiles : ∀ path b, fs_read files path = Ok b → bytes_file b)
    (Hbind : parse_bind (b_bind_address (cf_bot cfg)) = true)
    (Htv : sc_dotatv_enabled (cf_spectator cfg) = true)
    (Hpool : (port_pool_range (cf_bot cfg)).1 < (port_pool_range (cf_bot cfg)).2) :
  ∃ s p, run_supervisor crc32 parse_bind files now cfg udp false [(n1, k1); (n2, k2)] = Some (Ok s) ∧
    map ag_handle (su_games s) = [0; 1] ∧ EServeDotaTvAdmin p 0 ∈ su_out s ∧ EServeDotaTv p 1 ∈ su_out s.
Proof.
  destruct (port_pool_range (cf_bot cfg)) as [first last] eqn:Er. cbn in Hpool.
  pose proof (initial_ok parse_bind cfg udp) as H0'.
  pose proof (host_next crc32 parse_bind files cfg Hfiles now k1 n1 (cfg_username (cf_bnet cfg)) (cfg_server (cf_bnet cfg)) Public (initial cfg udp) H0') as Hn1.
  rewrite Er in Hn1. destruct (Hn1 eq_refl ltac:(unfold zlen; cbn; lia)) as (t & Et & Ht & Hokt & Hpt).
  pose proof (host_next crc32 parse_bind files cfg Hfiles now k2 n2 (cfg_username (cf_bnet cfg)) (cfg_server (cf_bnet cfg)) Public t Hokt) as Hn2.
  destruct (ho_game _ _ _ _ _ _ _ _ _ _ _ _ Ht) as (m1 & gt1 & sl1 & _ & Eg1 & _ & l1 & tv1 & Eo1 & _ & Etv1).
  assert (zlen (su_games t) = 1) as Hl1 by (rewrite Eg1; reflexivity).
  rewrite Er, Hl1 in Hn2. rewrite Hl1 in Hpt. destruct (Hn2 Hpt ltac:(lia)) as (s & Es & Hs & Hoks & Hps).
  destruct (ho_game _ _ _ _ _ _ _ _ _ _ _ _ Hs) as (m2 & gt2 & sl2 & _ & Eg2 & _ & l2 & tv2 & Eo2 & _ & Etv2).
  pose proof (po_cfg _ _ _ Hokt) as Ect. pose proof (ho_next _ _ _ _ _ _ _ _ _ _ _ _ Ht) as Enx. cbn in Enx.
  rewrite Ect, Htv in Etv2. cbn [initial su_cfg] in Etv1. rewrite Htv in Etv1.
  exists s, (tv_port t (first + 1)). split_and!.
  - unfold run_supervisor. rewrite Hbind. cbn [host_all]. unfold create_game. cbn [initial su_cfg]. rewrite Et. cbn [mbind option_bind].
    rewrite (ho_current _ _ _ _ _ _ _ _ _ _ _ _ Ht), Ect, Es. cbn [mbind option_bind].
    by rewrite (ho_current _ _ _ _ _ _ _ _ _ _ _ _ Hs).
  - rewrite Eg2, Eg1. cbn. by rewrite Enx.
  - assert (tv_port t (first + 1) = wrap 16 (tv_port (initial cfg udp) (first + zlen (su_games (initial cfg udp))) + 1)) as ->.
    { unfold tv_port. rewrite Ect, Er. cbn [initial su_cfg su_games]. rewrite Er. unfold zlen, wrap. cbn.
      rewrite Z.add_0_r, Z.add_simpl_l, Z.sub_diag. rewrite (Z.mod_small 1), (Z.mod_small 0), Z.add_0_r by done. by rewrite Zplus_mod_idemp_l. }
    rewrite Eo2, Eo1, Etv1. rewrite !elem_of_app. left. right. right. right. left. apply list_elem_of_In. cbn. auto.
  - rewrite Eo2, Etv2, Enx. rewrite !elem_of_app. right. right. right. left. apply list_elem_of_In. cbn. auto.
Qed.

Lemma tv_ports_collide_witness :
  ∃ s p, run_example [(str "first", 5); (str "second", 6)] = Some (Ok s) ∧
    map ag_handle (su_games s) = [0; 1] ∧ EServeDotaTvAdmin p 0 ∈ su_out s ∧ EServeDotaTv p 1 ∈ su_out s.
Proof.
  apply (tv_ports_collide (CL := run_codec_laws) (CR := run_crypto_laws) (H1 := plain_unicode) (λ _, 0) ipv4_bind no_files 0 two_port_config
    true (str "first") 5 (str "second") 6); [done|vm_compute; reflexivity..].
Defined.
