(* ===== verification/Routing.v ===== *)
(** What reaches the games (spectre, src/supervisor.rs): the commands of chat, the events of
    connections, and requests to come back. *)
From S2P Require Import Prelude Utf8 Text Store BytesExt Frame W3gs Gps Conn Slots Game CatchUp Dispatch MpqArchive Nls Bncs BnetClient Map MapLoad LiveStream StreamServer Config Supervisor Hosting.

(** ** What chat can do *)

(** An effect of a command of [user] in the state [s]: an answer, a question, a new game; of the
    games that are there, one may be withdrawn and the current one started. *)
Definition chat_effect (s : Supervisor) (user : bytes) (e : Effect) : Prop :=
  match e with
  | EBnet _ | EListen _ | EAskBan _ _ | EAskStats _ _ | EAskAdmin _ _ => True
  | EGameStart h by_ => su_current_game s = Some h ∧ by_ = user
  | EGame h CmdUnhost => h ∈ map ag_handle (su_games s) ∨ su_current_game s = Some h
  | EGame h cmd => h = su_next_handle s ∧ cmd = CreateVirtualHost
  | ESpawnGame h _ _ _ _ _ | EAttachDotaTv h _ | EServeDotaTv _ h | EServeDotaTvAdmin _ h => h = su_next_handle s
  | EGameConn _ _ | EUdp _ | ELink _ _ | EReconnect _ _ => False
  end.

Definition chat_effects (s : Supervisor) (user : bytes) (s' : Supervisor) : Prop :=
  (∃ es, su_out s' = su_out s ++ es ∧ Forall (chat_effect s user) es) ∧
  su_conn_to_game s' = su_conn_to_game s ∧ su_stopped s' = su_stopped s ∧ su_cfg s' = su_cfg s.

Lemma chat_effects_refl s user : chat_effects s user s.
Proof. split; [|done]. exists []. by rewrite app_nil_r. Qed.

(** Commands that only say something or set a flag. *)
Ltac few_effects :=
  split; [|by repeat split];
  first [ exists []; rewrite app_nil_r; split; [reflexivity|constructor]
        | eexists; split; [cbn; rewrite <- ?app_assoc; reflexivity|repeat constructor; by cbn] ].

Lemma answer_effects verb user parts s : chat_effects s user (answer_command verb user parts s).
Proof.
  assert (∀ k, (∀ t, chat_effects s user (k t s)) → chat_effects s user (with_target parts k s)) as Ht.
  { intros k Hk. unfold with_target. destruct parts; [apply chat_effects_refl|apply Hk]. }
  unfold answer_command. destruct (map_command verb user parts s) as [t|] eqn:E; unfold map_command in E.
  { repeat case_match; try discriminate E; injection E as <-; few_effects. }
  clear E. destruct (record_command verb user parts s) as [t|] eqn:E; unfold record_command in E.
  { repeat case_match; try discriminate E; injection E as <-; first [few_effects|apply Ht; intros; few_effects]. }
  clear E. destruct (info_command verb user parts s) as [t|] eqn:E; unfold info_command in E.
  { repeat case_match; try discriminate E; injection E as <-; few_effects. }
  clear E. destruct (clan_command verb user parts s) as [t|] eqn:E; unfold clan_command in E.
  { repeat case_match; try discriminate E; injection E as <-; first [few_effects|apply Ht; intros; few_effects]. }
  unfold other_command. repeat case_match; few_effects.
Qed.

Lemma chat_effects_more s user s' e :
  chat_effects s user s' → chat_effect s user e → chat_effects s user (emit e s').
Proof.
  intros [(es & E & He) Hr] Hn. split; [|exact Hr]. exists (es ++ [e]). cbn. rewrite E, app_assoc. split; [done|].
  apply Forall_app_2; [done|by apply Forall_singleton].
Qed.

Section commands.
Context `{CL : CodecLaws} `{CR : CryptoLaws} `{Unicode}.
Context (crc32 : bytes → Z) (parse_bind : bytes → bool) (files : Files).
Context (Hfiles : ∀ path b, fs_read files path = Ok b → bytes_file b).

Lemma create_effects now entry_key name owner server vis user s s' :
  create_game_with_creator crc32 parse_bind files now entry_key name owner server vis s = Some s' → chat_effects s user s'.
Proof.
  intros E. pose proof (create_spec crc32 parse_bind files Hfiles now entry_key name owner server vis s) as Hc.
  destruct (free_port s) as [port|]; cycle 1.
  { rewrite E in Hc. injection Hc as ->. few_effects. }
  destruct Hc as (t & Et & Hh). assert (t = s') as -> by congruence.
  split; [|split_and!; [apply (ho_conns _ _ _ _ _ _ _ _ _ _ _ _ Hh)|apply (ho_flags _ _ _ _ _ _ _ _ _ _ _ _ Hh)|apply (ho_cfg _ _ _ _ _ _ _ _ _ _ _ _ Hh)]].
  destruct (ho_game _ _ _ _ _ _ _ _ _ _ _ _ Hh) as (m & gt & slots & _ & _ & _ & listening & tv & Eo & Hl & ->).
  eexists. split; [exact Eo|]. repeat apply Forall_app_2.
  - destruct Hl as [-> | ->]; repeat constructor.
  - repeat constructor.
  - destruct (sc_dotatv_enabled _); repeat constructor.
  - repeat constructor.
Qed.

Lemma unhost_at_effects user idx s : chat_effects s user (unhost_at user idx s).
Proof.
  unfold unhost_at. destruct (su_games s !! idx) as [g|] eqn:E; [|apply chat_effects_refl].
  repeat apply chat_effects_more; try done; [few_effects|]. left. apply elem_of_map. exists g. split; [done|].
  by eapply list_elem_of_lookup_2.
Qed.

Lemma unhost_effects user parts s : chat_effects s user (unhost_command user parts s).
Proof.
  unfold unhost_command. destruct (negb _).
  - destruct (position _ _); [apply unhost_at_effects|few_effects].
  - destruct (position _ _); [apply unhost_at_effects|]. destruct (su_current_game s) as [h|] eqn:E; [|apply chat_effects_refl].
    split; [|by repeat split]. eexists. split; [cbn; rewrite <- ?app_assoc; reflexivity|].
    apply Forall_cons. split; [by right|]. repeat constructor.
Qed.

Lemma chat_command_effects now entry_key user text s s' :
  handle_chat_command crc32 parse_bind files now entry_key user text s = Some s' →
  chat_effects s user s' ∧ (s' = s ∨ is_root_admin s user = true ∧ starts_with (cfg_command_trigger (cf_bnet (su_cfg s))) text = true).
Proof.
  unfold handle_chat_command. destruct (is_root_admin s user) eqn:Ea; cbn [negb]; [|intros [= <-]; split; [apply chat_effects_refl|by left]].
  unfold strip_trigger. destruct (starts_with _ text) eqn:Es; [|intros [= <-]; split; [apply chat_effects_refl|by left]].
  intros E. split; [|by right]. destruct (split_whitespace _) as [|verb parts]; [injection E as <-; apply chat_effects_refl|].
  cbv zeta in E. destruct (_ || _).
  { unfold host_command, create_game in E. destruct (_ =? _)%nat; [injection E as <-; few_effects|].
    destruct (_ <=? _); [injection E as <-; few_effects|]. by eapply create_effects. }
  destruct (bytes_eqb _ _); [injection E as <-; apply unhost_effects|].
  destruct (_ || _); [|injection E as <-; apply answer_effects].
  unfold host_for_command in E. destruct parts as [|owner parts]; [injection E as <-; apply chat_effects_refl|].
  destruct (_ =? _)%nat; [injection E as <-; apply chat_effects_refl|].
  destruct (create_game_with_creator _ _ _ _ _ _ _ _ _ _) as [t|] eqn:Et; [|done]. injection E as <-.
  apply chat_effects_more; [by eapply create_effects|done].
Qed.

(** *** Ending the bot *)

Lemma shutdown_out s :
  su_out (shutdown s) = su_out s ++ [EBnet BnetClient.Shutdown] ++ map (λ g, EGame (ag_handle g) Dispatch.Shutdown) (su_games s)
                          ++ match su_current_game s with Some h => [EGame h Dispatch.Shutdown] | None => [] end ∧
  su_games (shutdown s) = su_games s ∧ su_conn_to_game (shutdown s) = su_conn_to_game s ∧ su_cfg (shutdown s) = su_cfg s.
Proof.
  unfold shutdown. assert (∀ l t, let t' := foldl (λ s g, emit (EGame (ag_handle g) Dispatch.Shutdown) s) t l in
    su_out t' = su_out t ++ map (λ g, EGame (ag_handle g) Dispatch.Shutdown) l ∧ su_games t' = su_games t ∧
    su_conn_to_game t' = su_conn_to_game t ∧ su_cfg t' = su_cfg t ∧ su_current_game t' = su_current_game t) as Hf.
  { intros l. induction l as [|g l IH]; intros t; cbn [foldl map]; [by rewrite app_nil_r|].
    destruct (IH (emit (EGame (ag_handle g) Dispatch.Shutdown) t)) as (-> & -> & -> & -> & ->). split; [|done]. cbn. by rewrite <- app_assoc. }
  destruct (Hf (su_games s) (bnet_send BnetClient.Shutdown s)) as (E1 & E2 & E3 & E4 & E5). cbv zeta. revert E1 E2 E3 E4 E5.
  change (su_games (bnet_send BnetClient.Shutdown s)) with (su_games s). generalize (foldl (λ s g, emit (EGame (ag_handle g) Dispatch.Shutdown) s) (bnet_send BnetClient.Shutdown s) (su_games s)).
  intros t E1 E2 E3 E4 E5. rewrite E5. change (su_current_game (bnet_send _ s)) with (su_current_game s). cbn in E1, E2, E3, E4.
  destruct (su_current_game s) as [h|]; cbn; rewrite E1, E2, E3, E4, <- ?app_assoc; cbn; by rewrite ?app_nil_r.
Qed.

(** The command in a message: the first word after the trigger, in small letters. *)
Definition verb_of (s : Supervisor) (text : bytes) : option bytes :=
  cmd ← strip_trigger (cfg_command_trigger (cf_bnet (su_cfg s))) text; to_lowercase <$> head (split_whitespace cmd).

(** A root administrator's [exit] or [quit]. *)
Definition orders_shutdown (s : Supervisor) (user text : bytes) : Prop :=
  is_root_admin s user = true ∧ (verb_of s text = Some (str "exit") ∨ verb_of s text = Some (str "quit")).

#[export] Instance orders_shutdown_dec s user text : Decision (orders_shutdown s user text).
Proof. unfold orders_shutdown. apply _. Defined.

Lemma exit_command now entry_key user text s :
  orders_shutdown s user text →
  handle_chat_command crc32 parse_bind files now entry_key user text s
  = Some ((whisper user (str "Shutting down bot.") s) <| su_shutdown_requested := true |>).
Proof.
  intros [Ha Hv]. unfold handle_chat_command. rewrite Ha. cbn [negb]. unfold verb_of in Hv.
  destruct (strip_trigger _ text) as [cmd|]; [|by destruct Hv]. cbn [mbind option_bind] in Hv.
  destruct (split_whitespace cmd) as [|verb parts]; [by destruct Hv|]. cbn [head fmap option_fmap option_map] in Hv.
  cbv zeta. destruct Hv as [Hv|Hv]; apply (inj Some) in Hv as ->; reflexivity.
Qed.

Lemma answer_flag verb user parts s :
  verb ≠ str "exit" → verb ≠ str "quit" →
  su_shutdown_requested (answer_command verb user parts s) = su_shutdown_requested s.
Proof.
  intros He Hq. unfold answer_command.
  destruct (map_command verb user parts s) as [t|] eqn:E; unfold map_command in E.
  { repeat case_match; try discriminate E; injection E as <-; done. }
  clear E. destruct (record_command verb user parts s) as [t|] eqn:E; unfold record_command, lift_ban, with_target in E.
  { repeat case_match; try discriminate E; injection E as <-; done. }
  clear E. destruct (info_command verb user parts s) as [t|] eqn:E; unfold info_command in E.
  { destruct (bytes_eqb verb (str "exit")) eqn:E1; [by apply bytes_eqb_eq in E1|].
    destruct (bytes_eqb verb (str "quit")) eqn:E2; [by apply bytes_eqb_eq in E2|].
    cbn [orb] in E. repeat case_match; try discriminate E; injection E as <-; done. }
  clear E. destruct (clan_command verb user parts s) as [t|] eqn:E; unfold clan_command, change_rank, with_target in E.
  { repeat case_match; try discriminate E; injection E as <-; done. }
  unfold other_command. repeat case_match; done.
Qed.

Lemma create_flag now entry_key name owner server vis s s' :
  create_game_with_creator crc32 parse_bind files now entry_key name owner server vis s = Some s' →
  su_shutdown_requested s' = su_shutdown_requested s.
Proof.
  intros E. pose proof (create_spec crc32 parse_bind files Hfiles now entry_key name owner server vis s) as Hc.
  destruct (free_port s) as [port|]; [|rewrite E in Hc; by injection Hc as ->].
  destruct Hc as (t & Et & Hh). assert (t = s') as -> by congruence. apply (ho_flags _ _ _ _ _ _ _ _ _ _ _ _ Hh).
Qed.

Lemma other_commands_flag now entry_key user text s s' :
  ¬ orders_shutdown s user text → handle_chat_command crc32 parse_bind files now entry_key user text s = Some s' →
  su_shutdown_requested s' = su_shutdown_requested s.
Proof.
  intros Hno E. unfold handle_chat_command in E. destruct (is_root_admin s user) eqn:Ha; cbn [negb] in E; [|by injection E as <-].
  destruct (strip_trigger _ text) as [cmd|] eqn:Ec; [|by injection E as <-].
  destruct (split_whitespace cmd) as [|verb parts] eqn:Ew; [by injection E as <-|]. cbv zeta in E.
  assert (verb_of s text = Some (to_lowercase verb)) as Hv by (unfold verb_of; rewrite Ec; cbn; by rewrite Ew).
  destruct (_ || _).
  { unfold host_command, create_game in E. destruct (_ =? _)%nat; [by injection E as <-|].
    destruct (_ <=? _); [by injection E as <-|]. by eapply create_flag. }
  destruct (bytes_eqb _ _).
  { injection E as <-. unfold unhost_command, unhost_at. by repeat case_match. }
  destruct (_ || _).
  { unfold host_for_command in E. destruct parts as [|owner parts]; [by injection E as <-|].
    destruct (_ =? _)%nat; [by injection E as <-|].
    destruct (create_game_with_creator _ _ _ _ _ _ _ _ _ _) as [t|] eqn:Et; [|done]. injection E as <-.
    apply create_flag in Et. exact Et. }
  injection E as <-. apply answer_flag; intros El; apply Hno; (split; [exact Ha|]); rewrite Hv, El; [by left|by right].
Qed.
End commands.

(** ** Connections *)

(** The events of a connection among the effects, with the game they go to. *)
Definition conn_event_of (id : Z) (e : Effect) : option (Z * ConnEventKind) :=
  match e with EGameConn h ev => if ev_conn_id ev =? id then Some (h, ev_kind ev) else None | _ => None end.
Definition conn_events (id : Z) (es : list Effect) : list (Z * ConnEventKind) := omap (conn_event_of id) es.

(** The events of a connection among the inputs. *)
Definition input_event_of (id : Z) (ti : Z * Input) : option ConnEventKind :=
  match ti.2 with InConnEvent ev => if ev_conn_id ev =? id then Some (ev_kind ev) else None | _ => None end.
Definition input_events (id : Z) (inputs : list (Z * Input)) : list ConnEventKind := omap (input_event_of id) inputs.

(** Numbers of connections are not used twice; the game [h] goes on. *)
Definition undisturbed (id h : Z) (ti : Z * Input) : Prop :=
  match ti.2 with
  | InConnection id' _ _ | InReconnect id' | InAdopted id' _ => id' ≠ id
  | InCleanupTimer closed => closed h = false
  | _ => True
  end.

(** From [s] to [s'] the connection stays with the game [h], which gets the events [l]. *)
Definition routes (id h : Z) (l : list ConnEventKind) (s s' : Supervisor) : Prop :=
  su_conn_to_game s' !! id = Some h ∧
  conn_events id (su_out s') = conn_events id (su_out s) ++ map (λ k, (h, k)) l.

Lemma conn_events_app id l k : conn_events id (l ++ k) = conn_events id l ++ conn_events id k.
Proof. apply omap_app. Qed.

(** No events of connections: what follows an input of another kind. *)
Lemma routes_quiet id h s s' es :
  su_conn_to_game s !! id = Some h → su_conn_to_game s' !! id = su_conn_to_game s !! id →
  su_out s' = su_out s ++ es → Forall (λ e, conn_event_of id e = None) es → routes id h [] s s'.
Proof.
  intros Hs Hc Ho He. split; [by rewrite Hc|]. rewrite Ho, conn_events_app. f_equal. clear Ho.
  induction He as [|e es He _ IH]; [done|]. unfold conn_events in *. cbn [omap list_omap]. rewrite He. exact IH.
Qed.

Lemma clean_routes closed s id h :
  closed h = false → su_conn_to_game s !! id = Some h → routes id h [] s (clean_finished_games closed s).
Proof.
  intros Hc Hs. unfold clean_finished_games. cbv zeta.
  pose proof (release_all (ports (filter (λ g, closed (ag_handle g) = true) (su_games s)))
    (s <| su_games ::= filter (λ g, closed (ag_handle g) = false) |>)) as Hr. cbv zeta in Hr.
  set (t := foldl _ _ _) in *. destruct Hr as (_ & _ & _ & _ & _ & E6 & E7 & _ & _).
  assert (filter (λ ch, closed ch.2 = false) (su_conn_to_game t) !! id = Some h) as Hf.
  { rewrite E6. cbn. apply map_lookup_filter_Some. split; [exact Hs|done]. }
  assert (∀ t' es, su_conn_to_game t' = filter (λ ch, closed ch.2 = false) (su_conn_to_game t) → su_out t' = su_out t ++ es →
    Forall (λ e, conn_event_of id e = None) es → routes id h [] s t') as Hk.
  { intros t' es F1 F2 F3. eapply (routes_quiet id h s t' es); [done|by rewrite F1, Hf, Hs|by rewrite F2, E7|done]. }
  cbn [su_current_game set]. destruct (su_current_game _) as [c|]; [|eapply (Hk _ []); [done|by rewrite app_nil_r|done]].
  destruct (closed c); [|eapply (Hk _ []); [done|by rewrite app_nil_r|done]].
  case_match; [eapply (Hk _ [EBnet UnhostGame]); [done|done|by constructor]|eapply (Hk _ []); [done|by rewrite app_nil_r|done]].
Qed.

Lemma lan_packets_quiet now s id : Forall (λ e, conn_event_of id e = None) (lan_packets now s).
Proof.
  assert (∀ c a, Forall (λ e, conn_event_of id e = None) (lan_packet now c s a)) as Hp.
  { intros c a. unfold lan_packet. case_match; repeat constructor. }
  unfold lan_packets. apply Forall_app_2; [|repeat case_match; try constructor; apply Hp].
  induction (su_games s) as [|g l IH]; cbn; [constructor|]. apply Forall_app_2; [|exact IH].
  repeat case_match; try constructor. apply Hp.
Qed.

Lemma chat_effects_quiet s user s' id h :
  chat_effects s user s' → su_conn_to_game s !! id = Some h → routes id h [] s s'.
Proof.
  intros [(es & E & He) (Hc & _ & _)] Hs. eapply (routes_quiet id h s s' es); [done|by rewrite Hc|done|].
  eapply Forall_impl; [exact He|]. intros [] He'; cbn in *; done.
Qed.

Section routing.
Context `{CL : CodecLaws} `{CR : CryptoLaws} `{Unicode}.
Context (crc32 : bytes → Z) (parse_bind : bytes → bool) (files : Files).
Context (Hfiles : ∀ path b, fs_read files path = Ok b → bytes_file b).

Lemma bnet_routes now entry_key ev s s' id h :
  handle_bnet_event crc32 parse_bind files now entry_key ev s = Some s' →
  su_conn_to_game s !! id = Some h → routes id h [] s s'.
Proof.
  intros E Hs. assert (∀ user text, handle_chat_command crc32 parse_bind files now entry_key user text s = Some s' → routes id h [] s s') as Hchat.
  { intros user text Ec. eapply chat_effects_quiet; [|done]. by eapply chat_command_effects. }
  destruct ev; cbn [handle_bnet_event] in E; try (by eapply Hchat); injection E as <-;
    eapply (chat_effects_quiet s [] _ id h); try done; few_effects.
Qed.

Lemma input_routes now i s s' id h :
  su_conn_to_game s !! id = Some h → undisturbed id h (now, i) → handle_input crc32 parse_bind files now i s = Some s' →
  su_stopped s' = false → routes id h (input_events id [(now, i)]) s s'.
Proof.
  intros Hs Hu E Hst. destruct i; cbn [handle_input] in E; unfold undisturbed in Hu; cbn [snd] in Hu.
  - injection E as <-. done.
  - injection E as <-. unfold broadcast_lan_game. destruct (su_udp_broadcaster s).
    + eapply routes_quiet; [done|done|reflexivity|apply lan_packets_quiet].
    + eapply (routes_quiet id h s s []); [done|done|by rewrite app_nil_r|done].
  - injection E as <-. by apply clean_routes.
  - injection E as <-. unfold handle_new_connection. destruct (match su_port_to_game s !! local_port with Some _ => _ | None => _ end) as [g|].
    + eapply routes_quiet; [done|by cbn; apply lookup_insert_ne|reflexivity|repeat constructor].
    + eapply (routes_quiet id h s s []); [done|done|by rewrite app_nil_r|done].
  - injection E as <-. unfold handle_reconnect_connection. destruct (reconnect_candidates s).
    + eapply (routes_quiet id h s s []); [done|done|by rewrite app_nil_r|done].
    + eapply routes_quiet; [done|done|reflexivity|repeat constructor].
  - injection E as <-. eapply (routes_quiet id h s _ []); [done|by cbn; apply lookup_insert_ne|by rewrite app_nil_r|done].
  - injection E as <-. unfold handle_conn_event, input_events, input_event_of. cbn [snd omap list_omap].
    destruct (ev_conn_id ev =? id) eqn:Ei.
    + apply Z.eqb_eq in Ei. rewrite Ei, Hs. split; [done|].
      change (su_out (emit (EGameConn h ev) s)) with (su_out s ++ [EGameConn h ev]). rewrite conn_events_app. f_equal.
      unfold conn_events. cbn. by rewrite Ei, Z.eqb_refl.
    + destruct (su_conn_to_game s !! ev_conn_id ev) as [g|].
      * eapply routes_quiet; [done|done|reflexivity|]. repeat constructor. cbn. by rewrite Ei.
      * eapply (routes_quiet id h s s []); [done|done|by rewrite app_nil_r|done].
  - by eapply bnet_routes.
  - injection E as <-. unfold on_lobby_status. eapply routes_quiet; [done|done|reflexivity|repeat constructor].
  - injection E as <-. eapply routes_quiet; [done|done|reflexivity|repeat constructor].
Qed.

Lemma inputs_route inputs : ∀ s s' id h,
  su_conn_to_game s !! id = Some h → Forall (undisturbed id h) inputs →
  run_inputs crc32 parse_bind files inputs s = Some s' → su_stopped s' = false → routes id h (input_events id inputs) s s'.
Proof.
  assert (∀ inputs s s', run_inputs crc32 parse_bind files inputs s = Some s' → su_stopped s = true → s' = s) as Hstop.
  { intros l. induction l as [|[now i] l IH]; intros s s' E Hs; cbn [run_inputs] in E; [by injection E|].
    unfold step in E. rewrite Hs in E. cbn [mbind option_bind] in E. by apply IH. }
  induction inputs as [|[now i] inputs IH]; intros s s' id h Hs Hu E Hst; cbn [run_inputs] in E.
  - injection E as <-. split; [done|]. by rewrite app_nil_r.
  - apply Forall_cons in Hu as [Hu1 Hu]. unfold step in E. destruct (su_stopped s) eqn:Ess.
    { cbn [mbind option_bind] in E. apply Hstop in E; [congruence|done]. }
    destruct (handle_input crc32 parse_bind files now i s) as [t|] eqn:Et; [|done]. cbn [mbind option_bind] in E.
    destruct (su_shutdown_requested t && negb (su_stopped t)).
    { apply Hstop in E; [|done]. by subst s'. }
    destruct (su_stopped t) eqn:Est; [apply Hstop in E; [congruence|done]|].
    destruct (input_routes now i s t id h Hs Hu1 Et Est) as [R1 R2]. destruct (IH t s' id h R1 Hu E Hst) as [Q1 Q2].
    split; [done|]. rewrite Q2, R2, <- app_assoc, <- map_app. do 2 f_equal. unfold input_events. cbn [omap list_omap].
    by destruct (input_event_of id (now, i)).
Qed.
End routing.

(** C5: One message of chat in the event loop, whoever writes it and wherever. Chat that is not a
    command of a root administrator does nothing at all. A command never makes the supervisor
    panic. A root administrator's exit or quit ends the bot: Battle.net, every game of the list and
    the current one are told to shut down, and the loop is over. Any other command leaves the bot
    running, and what it does to the games is bounded: of those that are there it can start the
    current one, in the administrator's name, and withdraw one that the supervisor lists or the
    current one; a game it hosts has a new number. Connections stay where they are. *)
Theorem chat_authority `{CL : CodecLaws} `{CR : CryptoLaws} `{Unicode} crc32 parse_bind files now entry_key s user text ev
    (Hfiles : ∀ path b, fs_read files path = Ok b → bytes_file b)
    (Hrun : su_stopped s = false) (Hdown : su_shutdown_requested s = false)
    (Hev : ev = ChatMessage user text ∨ ev = Whisper user text) :
  ∃ s', step crc32 parse_bind files now (InBnet entry_key ev) s = Some s' ∧
    (is_root_admin s user = false ∨ starts_with (cfg_command_trigger (cf_bnet (su_cfg s))) text = false → s' = s) ∧
    (orders_shutdown s user text →
       su_stopped s' = true ∧ su_games s' = su_games s ∧
       su_out s' = su_out s ++ [EBnet (SendChat (str "/w " ++ user ++ str " " ++ str "Shutting down bot.")); EBnet BnetClient.Shutdown]
                     ++ map (λ g, EGame (ag_handle g) Dispatch.Shutdown) (su_games s)
                     ++ match su_current_game s with Some h => [EGame h Dispatch.Shutdown] | None => [] end) ∧
    (¬ orders_shutdown s user text →
       su_stopped s' = false ∧ su_shutdown_requested s' = false ∧
       ∃ es, su_out s' = su_out s ++ es ∧ Forall (chat_effect s user) es) ∧
    su_conn_to_game s' = su_conn_to_game s ∧ su_cfg s' = su_cfg s.
Proof.
  assert (handle_input crc32 parse_bind files now (InBnet entry_key ev) s
          = handle_chat_command crc32 parse_bind files now entry_key user text s) as Hi by (by destruct Hev as [-> | ->]).
  destruct (chat_keeps crc32 parse_bind files Hfiles (su_cfg s) now entry_key user text s) as (t & E & _).
  destruct (chat_command_effects crc32 parse_bind files Hfiles now entry_key user text s t E) as [(He & Hconn & Hst & Hcfg) Hs].
  unfold step. rewrite Hrun, Hi, E. cbn [mbind option_bind]. rewrite Hst, Hrun, andb_true_r.
  destruct (decide (orders_shutdown s user text)) as [Hx|Hx].
  - rewrite exit_command in E by done. apply (inj Some) in E. subst t. eexists. split; [reflexivity|]. destruct Hx as [Ha Hv].
    set (w := (whisper user (str "Shutting down bot.") s) <| su_shutdown_requested := true |>) in *.
    destruct (shutdown_out w) as (Eo & Eg & Ec & Ef). change (su_shutdown_requested w) with true. cbn match. split_and!.
    + intros [Hn|Hn]; [congruence|]. unfold verb_of, strip_trigger in Hv. rewrite Hn in Hv. by destruct Hv.
    + intros _. split; [done|]. split; [exact Eg|]. refine (eq_trans Eo _).
      unfold w, whisper, bnet_send. cbn -[str app]. by rewrite <- app_assoc.
    + intros Hn. by destruct Hn.
    + exact Ec.
    + exact Ef.
  - rewrite (other_commands_flag crc32 parse_bind files Hfiles _ _ _ _ _ _ Hx E), Hdown. exists t. split; [done|].
    rewrite Hst, Hrun, Hconn, Hcfg. split_and!; try done.
    + intros [Hn|Hn]; destruct Hs as [|[H1' H2']]; congruence.
    + intros _. split_and!; [done| |done]. by rewrite (other_commands_flag crc32 parse_bind files Hfiles _ _ _ _ _ _ Hx E).
Qed.

Definition chat_example (user text : bytes) : Input := InBnet 0 (ChatMessage user text).

(** A guest's command does nothing; the administrator's ends the bot. *)
Lemma chat_authority_witness :
  ∃ s, run_example [(str "first", 5)] = Some (Ok s) ∧
    step (H := run_codecs) (H0 := run_crypto) (H1 := plain_unicode) (λ _, 0) ipv4_bind no_files 3 (chat_example (str "guest") (str "!exit")) s = Some s ∧
    option_map su_stopped
      (step (H := run_codecs) (H0 := run_crypto) (H1 := plain_unicode) (λ _, 0) ipv4_bind no_files 3 (chat_example (str "Boss") (str "!Exit now")) s)
    = Some true.
Proof.
  destruct (run_example [(str "first", 5)]) as [[s|[]]|] eqn:E; [|exfalso; vm_compute in E; discriminate E..].
  assert (match run_example [(str "first", 5)] with
          | Some (Ok s) => negb (is_root_admin s (str "guest")) && is_root_admin s (str "Boss") && negb (su_stopped s)
              && negb (su_shutdown_requested s) && bool_decide (verb_of (H1 := plain_unicode) s (str "!Exit now") = Some (str "exit"))
          | _ => false end = true) as Hp by (vm_compute; reflexivity).
  rewrite E in Hp. rewrite !andb_true_iff, !negb_true_iff, bool_decide_eq_true in Hp. destruct Hp as ((((Hg & Hb) & Hr) & Hd) & Hv).
  exists s. split; [done|]. split.
  - destruct (chat_authority (CL := run_codec_laws) (CR := run_crypto_laws) (H1 := plain_unicode) (λ _, 0) ipv4_bind no_files 3 0 s (str "guest")
      (str "!exit") (ChatMessage (str "guest") (str "!exit"))) as (s' & Es & Hs & _); [done|done|done|by left|].
    unfold chat_example. rewrite Es. f_equal. apply Hs. by left.
  - destruct (chat_authority (CL := run_codec_laws) (CR := run_crypto_laws) (H1 := plain_unicode) (λ _, 0) ipv4_bind no_files 3 0 s (str "Boss")
      (str "!Exit now") (ChatMessage (str "Boss") (str "!Exit now"))) as (s' & Es & _ & Hx & _); [done|done|done|by left|].
    unfold chat_example. rewrite Es. cbn [option_map]. f_equal. apply Hx. split; [exact Hb|by left].
Defined.

(** C4: A connection to the port of a game is given to that game, and from then on, as long as the
    game goes on and the supervisor runs, whatever else happens meanwhile, every event of the
    connection reaches that game, once, in order, and no other game. *)
Theorem connection_routing `{CL : CodecLaws} `{CR : CryptoLaws} `{Unicode} crc32 parse_bind files cfg s g now id ip
    (Hfiles : ∀ path b, fs_read files path = Ok b → bytes_file b)
    (Hs : reachable crc32 parse_bind files cfg s)
    (Hg : g ∈ su_games s) (Hrun : su_stopped s = false) (Hdown : su_shutdown_requested s = false) :
  ∃ s1, step crc32 parse_bind files now (InConnection id ip (ag_port g)) s = Some s1 ∧
    su_out s1 = su_out s ++ [EGame (ag_handle g) (NewConn id (new_chan 1024) (default [127; 0; 0; 1] ip))] ∧
    ∀ inputs s2, Forall (undisturbed id (ag_handle g)) inputs → run_inputs crc32 parse_bind files inputs s1 = Some s2 →
      su_stopped s2 = false →
      conn_events id (su_out s2) = conn_events id (su_out s) ++ map (λ k, (ag_handle g, k)) (input_events id inputs).
Proof.
  pose proof (reachable_ok crc32 parse_bind files Hfiles cfg s Hs) as Hok.
  assert (su_port_to_game s !! ag_port g = Some (ag_handle g)) as Hp by (apply (po_games _ _ _ Hok); by exists g).
  unfold step. rewrite Hrun. cbn [handle_input]. unfold handle_new_connection. rewrite Hp. cbn [mbind option_bind].
  eexists. split; [reflexivity|]. cbn [emit su_shutdown_requested set]. rewrite Hdown. cbn [andb]. split; [done|].
  intros inputs s2 Hu E Hst. set (s1 := _ <| su_conn_to_game ::= _ |>) in E.
  destruct (inputs_route crc32 parse_bind files Hfiles inputs s1 s2 id (ag_handle g)) as [_ ->]; try done; [apply lookup_insert_eq|].
  f_equal. change (su_out s1) with (su_out s ++ [EGame (ag_handle g) (NewConn id (new_chan 1024) (default [127; 0; 0; 1] ip))]).
  rewrite conn_events_app. apply app_nil_r.
Qed.

(** The game is withdrawn, and its player goes on until the connection closes. *)
Definition routing_inputs : list (Z * Input) :=
  [(4, InConnEvent (mkConnEvent 7 (EvFrame (FW3gs (mkFrame 30 [1])))));
   (5, chat_example (str "Boss") (str "!unhost first"));
   (6, InConnection 8 None 6201);
   (7, InConnEvent (mkConnEvent 8 (Conn.EvClosed PeerClosed)));
   (8, InConnEvent (mkConnEvent 7 (Conn.EvClosed PeerClosed)))].

Lemma connection_routing_witness :
  ∃ s s1 s2, run_example [(str "first", 5); (str "second", 6)] = Some (Ok s) ∧
    step (H := run_codecs) (H0 := run_crypto) (H1 := plain_unicode) (λ _, 0) ipv4_bind no_files 3 (InConnection 7 None 6200) s = Some s1 ∧
    run_inputs (H := run_codecs) (H0 := run_crypto) (H1 := plain_unicode) (λ _, 0) ipv4_bind no_files routing_inputs s1 = Some s2 ∧
    conn_events 7 (su_out s2) = [(0, EvFrame (FW3gs (mkFrame 30 [1]))); (0, Conn.EvClosed PeerClosed)].
Proof.
  destruct (run_example [(str "first", 5); (str "second", 6)]) as [[s|[]]|] eqn:E; [|exfalso; vm_compute in E; discriminate E..].
  assert (match run_example [(str "first", 5); (str "second", 6)] with
          | Some (Ok s) => match su_games s with g :: _ => (ag_handle g =? 0) && (ag_port g =? 6200) | [] => false end
                           && negb (su_stopped s) && negb (su_shutdown_requested s) && bool_decide (conn_events 7 (su_out s) = [])
          | _ => false end = true) as Hp by (vm_compute; reflexivity).
  rewrite E in Hp. destruct (su_games s) as [|g l] eqn:Eg; [discriminate Hp|].
  apply andb_true_iff in Hp as [Hp Hc%bool_decide_eq_true]. apply andb_true_iff in Hp as [Hp Hd%negb_true_iff].
  apply andb_true_iff in Hp as [Hp Hr%negb_true_iff]. apply andb_true_iff in Hp as [Hh%Z.eqb_eq Hport%Z.eqb_eq].
  destruct (connection_routing (CL := run_codec_laws) (CR := run_crypto_laws) (H1 := plain_unicode) (λ _, 0) ipv4_bind no_files
    two_port_config s g 3 7 None) as (s1 & E1 & _ & Hall); [done| |rewrite Eg; by left|done|done|].
  { exists 0, true, false, [(str "first", 5); (str "second", 6)], s, []. by split. }
  rewrite Hport in E1.
  assert (match run_example [(str "first", 5); (str "second", 6)] with
          | Some (Ok s) => match step (H := run_codecs) (H0 := run_crypto) (H1 := plain_unicode) (λ _, 0) ipv4_bind no_files 3 (InConnection 7 None 6200) s with
            | Some s1 => match run_inputs (H := run_codecs) (H0 := run_crypto) (H1 := plain_unicode) (λ _, 0) ipv4_bind no_files routing_inputs s1 with
              | Some s2 => negb (su_stopped s2) | None => false end
            | None => false end
          | _ => false end = true) as Hrun by (vm_compute; reflexivity).
  rewrite E in Hrun. rewrite E1 in Hrun. destruct (run_inputs _ _ _ routing_inputs s1) as [s2|] eqn:E2; [|discriminate Hrun].
  apply negb_true_iff in Hrun. exists s, s1, s2. split; [done|]. split; [exact E1|]. split; [done|].
  rewrite (Hall routing_inputs s2); [rewrite Hc, Hh; reflexivity| |exact E2|exact Hrun].
  repeat constructor; cbn; discriminate.
Defined.

(** ** Players that come back *)

(** A request as a client sends it. *)
Definition reconnect_frame (pid key last_packet : Z) : bytes :=
  [GPS_HEADER; gps_ids.RECONNECT] ++ le_bytes 2 13 ++ [pid] ++ le_bytes 4 key ++ le_bytes 4 last_packet.

Lemma read_request_spec chunks : ∀ buf rest,
  Forall (λ c : bytes, c ≠ []) chunks →
  if (13 <=? length (buf ++ concat chunks))%nat
  then ∃ b tail, read_request (map Ok chunks ++ rest) buf = Some b ∧ buf ++ concat chunks = b ++ tail ∧ (13 <= length b)%nat
  else read_request (map Ok chunks ++ rest) buf = read_request rest (buf ++ concat chunks).
Proof.
  induction chunks as [|c chunks IH]; intros buf rest Hc.
  - cbn [concat map app]. rewrite app_nil_r. destruct (Nat.leb_spec 13 (length buf)) as [Hl|Hl]; [|done].
    exists buf, []. rewrite app_nil_r. split_and!; [|done|done]. destruct rest; cbn [read_request]; by rewrite (proj2 (Nat.leb_le _ _)).
  - apply Forall_cons in Hc as [Hn Hc]. destruct c as [|x c]; [done|]. cbn [map app read_request concat].
    destruct (Nat.leb_spec 13 (length buf)) as [Hl|Hl].
    + rewrite (proj2 (Nat.leb_le _ _)) by (rewrite length_app; lia). by exists buf, ((x :: c) ++ concat chunks).
    + specialize (IH (buf ++ x :: c) rest Hc). by rewrite <- app_assoc in IH.
Qed.

Lemma parse_request_frame pid key last tail :
  u8 pid → u32 key → u32 last → parse_request (reconnect_frame pid key last ++ tail) = Some (mkReconnectReq pid key last).
Proof.
  intros H1 H2 H3. unfold parse_request.
  assert (find_request (reconnect_frame pid key last ++ tail) = Some 0%nat) as -> by reflexivity.
  cbn [mbind option_bind Nat.add]. set (payload := [pid] ++ le_bytes 4 key ++ le_bytes 4 last).
  assert (length payload = 9%nat) as Hl by (unfold payload; cbn; by rewrite length_app, !length_le_bytes).
  change (reconnect_frame pid key last) with (([GPS_HEADER; gps_ids.RECONNECT] ++ le_bytes 2 13) ++ payload).
  rewrite <- app_assoc, drop_app_length' by done. rewrite take_app_length' by done.
  assert (decode_reconnect payload = Ok (mkReconnectReq pid key last)) as -> by (by apply exact_run, (exact_reconnect (mkReconnectReq pid key last))).
  done.
Qed.

(** The games up to the first that takes the player back. *)
Lemma ask_games_spec conn_id req answer games :
  let ask h := EGame h (AdoptReconnect conn_id (rr_pid req) (rr_reconnect_key req) (rr_last_packet req) (new_chan 1024)) in
  ask_games conn_id req answer games =
  match list_find (λ h, answer h = true) games with
  | Some (i, h) => (map ask (take (S i) games), Some h)
  | None => (map ask games ++ [ELink conn_id (reject reject_reason.NOT_FOUND)], None)
  end.
Proof.
  cbv zeta. induction games as [|h games IH]; [done|]. cbn [ask_games list_find]. destruct (answer h) eqn:E.
  - rewrite decide_True by done. done.
  - rewrite decide_False by done. rewrite IH. by destruct (list_find _ games) as [[i h']|].
Qed.

(** C7: A request to come back, cut into pieces in any way and followed by anything, is put to the
    games in their order, each asked with the numbers of the request, until one takes the player;
    the connection is reported as adopted by that game, and when no game does the player is
    refused.  A connection that closes, fails or stays silent before the thirteen bytes of a
    request asks nobody anything. *)
Theorem reconnect_task_spec conn_id pid key last rest chunks answer games
    (Hpid : u8 pid) (Hkey : u32 key) (Hlast : u32 last) (Hne : Forall (λ c : bytes, c ≠ []) chunks) :
  let ask h := EGame h (AdoptReconnect conn_id pid key last (new_chan 1024)) in
  (concat chunks = reconnect_frame pid key last ++ rest →
   reconnect_task conn_id (map Ok chunks) answer games =
     match list_find (λ h, answer h = true) games with
     | Some (i, h) => (map ask (take (S i) games), Some h)
     | None => (map ask games ++ [ELink conn_id (reject reject_reason.NOT_FOUND)], None)
     end) ∧
  (∀ ending, (length (concat chunks) < 13)%nat → ending = [] ∨ head ending = Some (Ok []) ∨ (∃ e, head ending = Some (Err e)) →
   reconnect_task conn_id (map Ok chunks ++ ending) answer games = ([], None)).
Proof.
  cbv zeta. assert (length (reconnect_frame pid key last) = 13%nat) as Hl.
  { unfold reconnect_frame. rewrite !length_app, !length_le_bytes. done. }
  unfold reconnect_task. split.
  - intros E. pose proof (read_request_spec chunks [] [] Hne) as Hr. cbn [app] in Hr. rewrite app_nil_r in Hr.
    rewrite (proj2 (Nat.leb_le _ _)) in Hr by (rewrite E, length_app; lia).
    destruct Hr as (b & tail & -> & Eb & Hb). cbn [mbind option_bind].
    assert (∃ more, b = reconnect_frame pid key last ++ more) as [more ->].
    { exists (drop 13 b). rewrite <- (take_drop 13 b) at 1. f_equal. rewrite E in Eb. apply (f_equal (take 13)) in Eb.
      rewrite take_app_le in Eb by lia. rewrite (take_ge (reconnect_frame _ _ _)) in Eb by lia.
      by rewrite take_app_le in Eb by lia. }
    rewrite parse_request_frame by done. apply (ask_games_spec conn_id (mkReconnectReq pid key last)).
  - intros ending Hlt Hend. pose proof (read_request_spec chunks [] ending Hne) as Hr. cbn [app] in Hr.
    rewrite (proj2 (Nat.leb_gt _ _)) in Hr by lia. rewrite Hr. clear Hr.
    assert (read_request ending (concat chunks) = None) as ->; [|done].
    destruct Hend as [->|[Hh|[e Hh]]]; [|destruct ending as [|x ending]; [done|]; cbn in Hh; injection Hh as ->..]; cbn [read_request];
      by rewrite (proj2 (Nat.leb_gt _ _)) by lia.
Qed.

Lemma reconnect_task_spec_witness :
  let frame := reconnect_frame 3 3405691582 1234 in
  reconnect_task 9 [Ok (take 5 frame); Ok (drop 5 frame ++ [1; 2])] (λ h, h =? 4) [2; 4; 6] =
    ([EGame 2 (AdoptReconnect 9 3 3405691582 1234 (new_chan 1024)); EGame 4 (AdoptReconnect 9 3 3405691582 1234 (new_chan 1024))], Some 4).
Proof.
  intros frame.
  refine (proj1 (reconnect_task_spec 9 3 3405691582 1234 [1; 2] [take 5 frame; drop 5 frame ++ [1; 2]] (λ h, h =? 4) [2; 4; 6] _ _ _ _) _);
    [split; vm_compute; congruence..|repeat constructor; discriminate|reflexivity].
Defined.

(** ** A game that is withdrawn while it is played *)


